(* ===== verification/_CoqProject ===== *)
-Q . S2P
Prelude.v
Bytes.v
Common.v
SlottedPage.v
PageStorage.v
BufferPool.v
BufferPoolSpec.v
Double.v
Telemetry.v
AdaptationPolicy.v
CStr.v
Os.v
Sim.v
Process.v
Cgroup.v
Namespace.v
Container.v
ContainerSpec.v
Format.v
Bridge.v
Dashboard.v
DashboardLive.v
Harness.v
HarnessSpec.v
BenchEngine.v
BenchMain.v
Wal.v
WalSpec.v
Recovery.v
PageAccess.v
PageChain.v
HeapTable.v
HeapTableSpec.v
HeapTableMap.v
Catalog.v
CatalogSpec.v
QueryExecutor.v
QueryExecutorSpec.v
ReadOnly.v
LoggedPool.v
Database.v
DatabaseOpen.v
DatabaseCreate.v
DatabaseSpec.v
Router.v
Manager.v
ManagerSpec.v
Cli.v
CliSpec.v
Engine.v
