(* ===== verification/Prelude.v ===== *)
(** * NexusDB: a verification library

    NexusDB is a container runtime, a small database engine, and a bridge that
    lets the engine adapt its buffer pool to the memory of the container it runs
    in.  This library models the C and C++ sources under [src/] and [include/] as
    executable definitions, one file per component, and proves what each
    component promises and what they achieve together.

    ** The database engine

    From the device upwards: a page store, a cache of pages with a write-ahead
    log as its barrier, records in pages, tables of records, a catalog of
    tables, calls on tables by name, and the database object that creates, opens,
    recovers and closes all of it.

    - [Bytes], [Common]: byte buffers with checked access, little-endian fields;
      [DbError], [Status] and [Page] of [include/common/error.h] and
      [include/db/page.h].
    - [SlottedPage]: [src/db/record/slotted_page.cpp].  Every accessor and
      operation on the bytes of a page; [slots] reads the abstract array of
      records off the bytes, and the operations are shown to be operations of
      that array, inside the buffer, whatever the page holds.
    - [PageStorage]: [src/db/storage/page_storage.cpp] over a stream whose calls
      may fail at any point and tear a write.
    - [BufferPool], [BufferPoolSpec]: [src/db/buffer/buffer_pool.cpp].  The pool is
      a function of any environment with the class [PageEnv] (read, write, log);
      the laws a client relies on are the class [PageEnvLaws], which the storage
      and the storage behind a log implement.  The pool is transparent, bounded,
      evicts the least recently used unpinned page, and writes no page before
      its log barrier.
    - [Wal], [WalSpec]: [src/db/wal/wal.cpp], record format with checksum, append,
      flush, scan, recovery, reset.  [Recovery]: pool, log and storage together,
      through a crash at any moment and the recovery of the next process.
    - [PageAccess], [PageChain]: the discipline of the layers above the pool: the
      monad [Code] of their methods, the class [PageAlloc] of allocation, the
      relation [owns] between a client and page contents, and walks over linked
      pages.
    - [HeapTable], [HeapTableSpec], [HeapTableMap]: [src/db/record/heap_table.cpp],
      a finite map from record ids to byte strings.
    - [Catalog], [CatalogSpec]: [src/db/catalog/catalog.cpp].  [QueryExecutor],
      [QueryExecutorSpec]: [src/db/query/query_executor.cpp], an ordered list of
      named maps.
    - [ReadOnly], [LoggedPool]: computations that write nothing, and the layers
      above the pool run over the storage behind a log.
    - [Database], [DatabaseOpen], [DatabaseCreate], [DatabaseSpec]:
      [src/db/database/database.cpp], on a directory of files.  Creation is
      atomic, opening recovers if the log can be read, what was flushed survives a crash, closing and
      opening give the same tables, other files are refused.

    ** The container runtime and the bridge

    - [CStr], [Format], [Double], [Telemetry]: C strings, decimal output and input,
      IEEE doubles where the sources compare and scale them.
    - [Os]: the system calls the runtime uses, as the operations of a class over
      any world [W], with the class [OsLaws] of what they do to the descriptors,
      mappings and children a process holds; [Sim]: a machine of processes,
      descriptors and files that implements both, on which witnesses run.
    - [Process]: [src/container/process.c], child processes, the execution gate,
      stopping.  [Cgroup]: [src/container/cgroup.c].  [Namespace]:
      [src/container/namespace.c].  [Container], [ContainerSpec]:
      [src/container/container.c], the registry and the life cycle.
    - [AdaptationPolicy]: [src/bridge/adaptation_policy.c].  [Bridge]:
      [src/bridge/resource_monitor.c], [memory_bridge.c] and
      [buffer_pool_adapter.cpp]; a granted or refused change of the pool's
      capacity keeps what a client sees.

    ** The shell

    - [Router]: the command language of [src/manager/router.cpp]: numbers and
      hexadecimal records, and the command a line stands for.
    - [Manager], [ManagerSpec]: [src/manager/manager.cpp] over the files, the
      container registry and the kernel: metadata files that carry a container
      from one process to the next, and calls that open the database of a name,
      make one call on its executor and close it.
    - [Cli], [CliSpec]: dispatch of a command, its text and exit code, and
      [src/cli/nexusdb_cli.cpp].  Everything below comes together here: a
      sequence of processes on the same files answers as a collection of
      databases of tables of records, each changed by its own commands only, and
      refuses a database whose container runs.
    - [Engine]: [src/db/engine/db_engine.cpp], the process that a container runs:
      it opens the shell's database, whatever fails or kills it keeps the tables,
      and it ends with 0 when asked to stop and nothing fails.

    ** Observing and measuring

    - [Dashboard]: [src/dashboard/metrics.c] and [src/dashboard/dashboard_text.c]: a
      frame shows what its sources report, and says what is missing.
    - [DashboardLive]: the loop of [src/dashboard/dashboard_ncurses.c], as the list
      of the ncurses calls it makes; the terminal is restored on every path.
    - [Harness], [HarnessSpec]: [src/benchmark/harness.c]: a workload inside a
      container, samples, adaptation and a report.  The clock is a function of
      the number of the reading.  A run always returns, and its counters add up.
    - [BenchEngine]: [src/benchmark/engine_workload.cpp], the workload on a real
      pool and storage: whatever runs and fails, the pages keep their bytes; hits
      are pages that were in the pool.
    - [BenchMain]: [benchmarks/nexus_benchmark.c]: options, run, report and exit
      codes; here the pool, storage, container, policy and harness come together.

    ** How the code is modelled

    A pure function is a function; a method takes and returns the members of its
    object and the state it reaches ([Code], [Sys], or explicit tuples); an access
    outside a buffer is [None], and a theorem that a method returns [Some] says
    that there is none.  Machine integers are [Z] with their wrap-around
    written out.  Whether a system call, a stream operation or a call on the
    file system fails, and how much of a write it then did, is an input, so that
    a theorem for all inputs is a theorem for all failures.

    Loops take fuel only where the source's loop is not structural.  The walks
    over page chains take the source's own bound (two more than the number of
    pages); the scan and the recovery of the log take the length of the file,
    which every record shortens; loops that retry a system call take the number
    of answers the machine may give.  The theorems show that these bounds are
    enough: the functions return on every input.

    ** What is not modelled

    - Power loss: a process that dies leaves what its completed calls wrote.  The
      sources do not call [fsync] and promise no more.
    - The Windows and non-Linux branches of the C files, which only report that
      the operation is not supported.
    - Builds without ncurses or without the engine, which report that they
      cannot run.
    - The demonstration programs and the tests.  *)

From stdpp Require Export base option list list_numbers numbers strings.
From Stdlib Require Export ZArith Lia.

#[export] Set Default Goal Selector "!".

(** ** Machine integers

    A C or C++ unsigned integer of width [w] is a [Z]; [wrap w] writes out the
    reduction modulo [2^w] that a conversion or an arithmetic operation on the
    type performs.  The target is LP64 Linux: [unsigned long], [size_t] and
    [uint64_t] have 64 bits, [unsigned int] and [uint32_t] have 32. *)

Definition wrap (w z : Z) : Z := (z mod 2 ^ w)%Z.

Abbreviation u8 := (wrap 8).
Abbreviation u16 := (wrap 16).
Abbreviation u32 := (wrap 32).
Abbreviation u64 := (wrap 64).

Open Scope Z_scope.

Definition UINT64_MAX : Z := 2 ^ 64 - 1.
Definition ULONG_MAX : Z := 2 ^ 64 - 1.

(** ** Tactics and hint databases *)

Create HintDb nexus discriminated.

(** Case analysis on every boolean comparison and [if] in sight. *)
Ltac split_ifs :=
  repeat match goal with
  | |- context [if ?b then _ else _] =>
      lazymatch b with context [if _ then _ else _] => fail | _ => destruct b eqn:? end
  | H : context [if ?b then _ else _] |- _ =>
      lazymatch b with context [if _ then _ else _] => fail | _ => destruct b eqn:? end
  end.

(** Reflect boolean comparisons on [Z] in the hypotheses and the goal. *)
Ltac zb :=
  repeat match goal with
  | H : (_ && _)%bool = true |- _ => apply andb_true_iff in H; destruct H
  | H : (_ || _)%bool = false |- _ => apply orb_false_iff in H; destruct H
  | H : negb _ = true |- _ => apply negb_true_iff in H
  | H : negb _ = false |- _ => apply negb_false_iff in H
  | H : (_ =? _)%Z = true |- _ => apply Z.eqb_eq in H
  | H : (_ =? _)%Z = false |- _ => apply Z.eqb_neq in H
  | H : (_ <? _)%Z = true |- _ => apply Z.ltb_lt in H
  | H : (_ <? _)%Z = false |- _ => apply Z.ltb_ge in H
  | H : (_ <=? _)%Z = true |- _ => apply Z.leb_le in H
  | H : (_ <=? _)%Z = false |- _ => apply Z.leb_gt in H
  | H : (_ >? _)%Z = true |- _ => rewrite Z.gtb_ltb in H; apply Z.ltb_lt in H
  | H : (_ >? _)%Z = false |- _ => rewrite Z.gtb_ltb in H; apply Z.ltb_ge in H
  | H : (_ >=? _)%Z = true |- _ => rewrite Z.geb_leb in H; apply Z.leb_le in H
  | H : (_ >=? _)%Z = false |- _ => rewrite Z.geb_leb in H; apply Z.leb_gt in H
  end.

(** ** Lemmas on machine integers *)

Lemma wrap_small w z : 0 <= z < 2 ^ w -> wrap w z = z.
Proof. apply Z.mod_small. Qed.

Lemma wrap_range w z : 0 <= w -> 0 <= wrap w z < 2 ^ w.
Proof. intros Hw. apply Z.mod_pos_bound. lia. Qed.

Lemma wrap_idem w z : wrap w (wrap w z) = wrap w z.
Proof. unfold wrap. destruct (decide (2 ^ w = 0)) as [->|]; [by rewrite !Z.mod_0_r|].
  by apply Z.mod_mod. Qed.

Lemma land_255 v : Z.land v 255 = v mod 256.
Proof. change 255 with (Z.ones 8). by rewrite Z.land_ones. Qed.

(** Joining a low part below [2^n] with shifted high bits. *)
Lemma lor_shiftl_add a b n :
  0 <= n -> 0 <= a < 2 ^ n -> Z.lor a (Z.shiftl b n) = a + 2 ^ n * b.
Proof.
  intros Hn Ha. destruct (decide (a = 0)) as [->|];
    [rewrite Z.lor_0_l, Z.shiftl_mul_pow2 by done; lia|].
  rewrite Z.shiftl_mul_pow2 by done.
  rewrite <- Z.add_nocarry_lor; [lia|].
  apply Z.bits_inj'. intros i Hi. rewrite Z.land_spec, Z.bits_0.
  destruct (decide (i < n)).
  - rewrite (Z.mul_pow2_bits_low b n i) by lia. by rewrite andb_false_r.
  - rewrite (Z.bits_above_log2 a i); [done|lia|].
    apply Z.log2_lt_pow2; [lia|]. apply Z.lt_le_trans with (2 ^ n); [lia|].
    apply Z.pow_le_mono_r; lia.
Qed.
