(* ===== verification/Bytes.v ===== *)
(** * Byte arrays with checked accesses

    Page buffers and log records are arrays of [uint8_t].  A buffer is a list
    of integers below 256; an access outside the buffer is undefined behaviour
    in the source and yields [None] here, so an operation that returns [Some]
    has made no out-of-bounds access.  The file also models the little-endian
    field helpers [ReadU16]/[WriteU16]/... that [slotted_page.cpp],
    [heap_table.cpp], [catalog.cpp], [wal.cpp] and [database.cpp] each define. *)

From S2P Require Import Prelude.

(** ** Checked accesses *)

(** The length of an array as a [size_t]. *)
Definition zlen {A} (d : list A) : Z := Z.of_nat (length d).

(** [d[i]] *)
Definition at_ (d : list Z) (i : Z) : option Z :=
  if i <? 0 then None else d !! Z.to_nat i.

(** The bytes [d[off .. off+n)], and [d] with [src] laid over [off]. *)
Definition sub (d : list Z) (off n : Z) : list Z :=
  take (Z.to_nat n) (drop (Z.to_nat off) d).
Definition splice (d : list Z) (off : Z) (src : list Z) : list Z :=
  take (Z.to_nat off) d ++ src ++ drop (Z.to_nat off + length src) d.

(** The range of [memcpy(dst, d + off, n)] and of [memcpy(d + off, src, len)]. *)
Definition in_range (d : list Z) (off n : Z) : bool :=
  (0 <=? off) && (0 <=? n) && (off + n <=? zlen d).
Definition get (d : list Z) (off n : Z) : option (list Z) :=
  if in_range d off n then Some (sub d off n) else None.
Definition put (d : list Z) (off : Z) (src : list Z) : option (list Z) :=
  if in_range d off (zlen src) then Some (splice d off src) else None.
Definition memset (d : list Z) (off v n : Z) : option (list Z) :=
  put d off (replicate (Z.to_nat n) v).

(** ** Little-endian fields *)

Definition ReadU16 (d : list Z) (p : Z) : option Z :=
  b0 ← at_ d p; b1 ← at_ d (p + 1);
  Some (u16 (Z.lor b0 (u16 (Z.shiftl b1 8)))).

Definition WriteU16 (d : list Z) (p v : Z) : option (list Z) :=
  put d p [Z.land v 255; Z.land (Z.shiftr v 8) 255].

Definition ReadU32 (d : list Z) (p : Z) : option Z :=
  b0 ← at_ d p; b1 ← at_ d (p + 1); b2 ← at_ d (p + 2); b3 ← at_ d (p + 3);
  Some (Z.lor (Z.lor (Z.lor b0 (u32 (Z.shiftl b1 8))) (u32 (Z.shiftl b2 16)))
              (u32 (Z.shiftl b3 24))).

Definition WriteU32 (d : list Z) (p v : Z) : option (list Z) :=
  put d p [Z.land v 255; Z.land (Z.shiftr v 8) 255;
           Z.land (Z.shiftr v 16) 255; Z.land (Z.shiftr v 24) 255].

(** [for (i = 7; i >= 0; --i) v = (v << 8) | p[i];] *)
Fixpoint ReadU64_loop (i : nat) (d : list Z) (p v : Z) : option Z :=
  match i with
  | O => Some v
  | S i => b ← at_ d (p + Z.of_nat i);
           ReadU64_loop i d p (Z.lor (u64 (Z.shiftl v 8)) b)
  end.
Definition ReadU64 (d : list Z) (p : Z) : option Z := ReadU64_loop 8 d p 0.

Definition WriteU64 (d : list Z) (p v : Z) : option (list Z) :=
  put d p ((fun i => Z.land (Z.shiftr v (8 * i)) 255) <$> seqZ 0 8).

(** ** Specification of the fields: base-256 numerals *)

Fixpoint le_val (l : list Z) : Z :=
  match l with [] => 0 | b :: l => b + 256 * le_val l end.
Fixpoint le_bytes (n : nat) (v : Z) : list Z :=
  match n with O => [] | S n => v mod 256 :: le_bytes n (v / 256) end.

(** The [n]-byte field of [d] at [p]. *)
Definition field (n : nat) (d : list Z) (p : Z) : Z := le_val (sub d p (Z.of_nat n)).

Definition byte_ok (b : Z) : Prop := 0 <= b < 256.
Abbreviation bytes_ok := (Forall byte_ok).

(** ** Ranges *)

Lemma zlen_nonneg {A} (d : list A) : 0 <= zlen d.
Proof. unfold zlen. lia. Qed.
#[export] Hint Resolve zlen_nonneg : nexus.

Lemma in_range_true d off n :
  in_range d off n = true <-> 0 <= off /\ 0 <= n /\ off + n <= zlen d.
Proof. unfold in_range. rewrite !andb_true_iff, !Z.leb_le. tauto. Qed.

Lemma zlen_app {A} (a b : list A) : zlen (a ++ b) = zlen a + zlen b.
Proof. unfold zlen. rewrite length_app. lia. Qed.

Lemma zlen_cons {A} (x : A) (l : list A) : zlen (x :: l) = 1 + zlen l.
Proof. unfold zlen. simpl. lia. Qed.

Lemma zlen_single {A} (x : A) : zlen [x] = 1.
Proof. done. Qed.

Lemma zlen_replicate {A} n (x : A) : 0 <= n -> zlen (replicate (Z.to_nat n) x) = n.
Proof. unfold zlen. rewrite length_replicate. lia. Qed.

Lemma zlen_sub d off n :
  0 <= off -> 0 <= n -> off + n <= zlen d -> zlen (sub d off n) = n.
Proof. unfold zlen, sub. rewrite length_take, length_drop. lia. Qed.

Lemma zlen_splice d off src :
  0 <= off -> off + zlen src <= zlen d -> zlen (splice d off src) = zlen d.
Proof.
  unfold zlen, splice. rewrite !length_app, length_take, length_drop. lia.
Qed.

Lemma get_in d off n :
  0 <= off -> 0 <= n -> off + n <= zlen d -> get d off n = Some (sub d off n).
Proof. intros. unfold get. by rewrite (proj2 (in_range_true _ _ _)). Qed.

Lemma put_in d off src :
  0 <= off -> off + zlen src <= zlen d -> put d off src = Some (splice d off src).
Proof.
  intros. unfold put. rewrite (proj2 (in_range_true _ _ _)); [done|].
  split_and!; auto using zlen_nonneg.
Qed.

Lemma memset_in d off v n :
  0 <= off -> 0 <= n -> off + n <= zlen d ->
  memset d off v n = Some (splice d off (replicate (Z.to_nat n) v)).
Proof. intros. unfold memset. apply put_in; rewrite ?zlen_replicate; lia. Qed.

Lemma at_in d i : 0 <= i < zlen d -> exists b, at_ d i = Some b /\ sub d i 1 = [b].
Proof.
  unfold at_, zlen, sub. intros Hi. replace (i <? 0) with false by lia.
  destruct (lookup_lt_is_Some_2 d (Z.to_nat i)) as [b Hb]; [lia|].
  exists b. split; [done|]. by rewrite (drop_S _ _ _ Hb).
Qed.

(** The two laws of memory the component proofs rewrite with. *)
Lemma sub_splice_same d off src n :
  0 <= off -> off + zlen src <= zlen d -> n = zlen src ->
  sub (splice d off src) off n = src.
Proof.
  unfold sub, splice, zlen. intros Hoff Hlen ->. rewrite Nat2Z.id.
  rewrite drop_app_length' by (rewrite length_take; lia).
  by rewrite take_app_length.
Qed.

Lemma sub_splice_other d off src p n :
  0 <= off -> off + zlen src <= zlen d -> 0 <= p -> 0 <= n ->
  p + n <= off \/ off + zlen src <= p ->
  sub (splice d off src) p n = sub d p n.
Proof.
  unfold sub, splice, zlen. intros Hoff Hlen Hp Hn Hd.
  apply list_eq. intros i. destruct (decide (i < Z.to_nat n)%nat).
  2: { rewrite !lookup_ge_None_2; [done|rewrite length_take; lia..]. }
  rewrite !lookup_take, !lookup_drop by lia. rewrite !decide_True by lia.
  destruct Hd.
  - rewrite lookup_app_l by (rewrite length_take; lia).
    rewrite lookup_take. by rewrite decide_True by lia.
  - rewrite lookup_app_r by (rewrite length_take; lia).
    rewrite lookup_app_r by (rewrite length_take; lia).
    rewrite lookup_drop. f_equal. rewrite length_take. lia.
Qed.

(** A range inside a freshly written range. *)
Lemma sub_splice_inside d off src p n :
  0 <= off -> off + zlen src <= zlen d -> off <= p -> 0 <= n ->
  p + n <= off + zlen src ->
  sub (splice d off src) p n = sub src (p - off) n.
Proof.
  unfold sub, splice, zlen. intros Hoff Hlen Hp Hn Hd.
  apply list_eq. intros i. destruct (decide (i < Z.to_nat n)%nat).
  2: { rewrite !lookup_ge_None_2; [done|rewrite length_take; lia..]. }
  rewrite !lookup_take, !lookup_drop. rewrite !decide_True by lia.
  rewrite lookup_app_r by (rewrite length_take; lia).
  rewrite lookup_app_l by (rewrite length_take; lia).
  f_equal. rewrite length_take. lia.
Qed.

Lemma bytes_ok_sub d off n : bytes_ok d -> bytes_ok (sub d off n).
Proof. intros. unfold sub. by apply Forall_take, Forall_drop. Qed.

Lemma bytes_ok_splice d off src :
  bytes_ok d -> bytes_ok src -> bytes_ok (splice d off src).
Proof. intros. unfold splice. auto using Forall_app_2, Forall_take, Forall_drop. Qed.

Lemma bytes_ok_replicate n b : byte_ok b -> bytes_ok (replicate n b).
Proof. apply Forall_replicate. Qed.

Lemma bytes_ok_at d p b : bytes_ok d -> at_ d p = Some b -> byte_ok b.
Proof.
  unfold at_. intros Hd. destruct (p <? 0); [done|]. by apply Forall_lookup_1.
Qed.

#[export] Hint Resolve bytes_ok_sub bytes_ok_splice bytes_ok_replicate : nexus.

(** ** Fields *)

Lemma le_val_app a b : le_val (a ++ b) = le_val a + 256 ^ zlen a * le_val b.
Proof.
  induction a as [|x a IH]; simpl; [change (zlen (@nil Z)) with 0; lia|].
  rewrite IH, zlen_cons, Z.pow_add_r by auto with nexus lia. lia.
Qed.

Lemma le_val_bound l : bytes_ok l -> 0 <= le_val l < 256 ^ zlen l.
Proof.
  induction 1 as [|x l Hx Hl IH]; simpl; [change (zlen (@nil Z)) with 0; lia|].
  unfold byte_ok in Hx. rewrite zlen_cons, Z.pow_add_r by auto with nexus lia. lia.
Qed.

Lemma zlen_le_bytes n v : zlen (le_bytes n v) = Z.of_nat n.
Proof. unfold zlen. f_equal. revert v. induction n; simpl; auto. Qed.

Lemma bytes_ok_le_bytes n v : bytes_ok (le_bytes n v).
Proof.
  revert v. induction n; simpl; intros v; constructor; auto.
  apply Z.mod_pos_bound. lia.
Qed.
#[export] Hint Resolve bytes_ok_le_bytes : nexus.

Lemma le_val_le_bytes n v : le_val (le_bytes n v) = v mod 256 ^ Z.of_nat n.
Proof.
  revert v. induction n as [|n IH]; intros v; simpl le_bytes; simpl le_val.
  - by rewrite Z.mod_1_r.
  - rewrite IH, Nat2Z.inj_succ, Z.pow_succ_r by lia.
    rewrite Z.rem_mul_r by lia. done.
Qed.

Lemma field_bound n d p : bytes_ok d -> 0 <= field n d p < 256 ^ Z.of_nat n.
Proof.
  intros Hd. unfold field. pose proof (le_val_bound _ (bytes_ok_sub d p (Z.of_nat n) Hd)).
  enough (256 ^ zlen (sub d p (Z.of_nat n)) <= 256 ^ Z.of_nat n) by lia.
  apply Z.pow_le_mono_r; [lia|]. unfold zlen, sub. rewrite length_take. lia.
Qed.

Lemma field_cons n d p b :
  0 <= p -> at_ d p = Some b -> field (S n) d p = b + 256 * field n d (p + 1).
Proof.
  unfold at_, field, sub. intros Hp Hb. replace (p <? 0) with false in Hb by lia.
  rewrite (drop_S _ _ _ Hb), !Nat2Z.id. simpl.
  by replace (Z.to_nat (p + 1)) with (S (Z.to_nat p)) by lia.
Qed.

Lemma field_snoc n d p b :
  0 <= p -> at_ d (p + Z.of_nat n) = Some b ->
  field (S n) d p = field n d p + 256 ^ Z.of_nat n * b.
Proof.
  unfold at_, field, sub. intros Hp Hb.
  destruct (Z.ltb_spec (p + Z.of_nat n) 0); [done|].
  rewrite !Nat2Z.id. erewrite take_S_r.
  2: { rewrite lookup_drop, <- Hb. f_equal. lia. }
  rewrite le_val_app. simpl. do 2 f_equal; [|lia]. unfold zlen.
  rewrite length_take, length_drop.
  apply lookup_lt_Some in Hb. f_equal. lia.
Qed.

Lemma field_splice_same n d p v :
  0 <= p -> p + Z.of_nat n <= zlen d ->
  field n (splice d p (le_bytes n v)) p = v mod 256 ^ Z.of_nat n.
Proof.
  intros. unfold field. rewrite sub_splice_same; rewrite ?zlen_le_bytes; [|lia..].
  apply le_val_le_bytes.
Qed.

Lemma field_splice_other n d off src p :
  0 <= off -> off + zlen src <= zlen d -> 0 <= p ->
  p + Z.of_nat n <= off \/ off + zlen src <= p ->
  field n (splice d off src) p = field n d p.
Proof. intros. unfold field. rewrite sub_splice_other; auto; lia. Qed.

Lemma sub_sub d off len p n :
  0 <= off -> 0 <= p -> 0 <= n -> p + n <= len -> sub (sub d off len) p n = sub d (off + p) n.
Proof.
  intros. unfold sub. rewrite skipn_firstn_comm, take_take, drop_drop.
  f_equal; [lia|f_equal; lia].
Qed.

Lemma field_sub n d off len p :
  0 <= off -> 0 <= p -> p + Z.of_nat n <= len -> field n (sub d off len) p = field n d (off + p).
Proof. intros. unfold field. by rewrite sub_sub by lia. Qed.

Lemma field_0 d p : field 0 d p = 0.
Proof. unfold field, sub. done. Qed.

Lemma ReadU16_field d p :
  bytes_ok d -> 0 <= p -> p + 2 <= zlen d -> ReadU16 d p = Some (field 2 d p).
Proof.
  intros Hd Hp Hl.
  destruct (at_in d p) as (b0 & H0 & _); [lia|].
  destruct (at_in d (p + 1)) as (b1 & H1 & _); [lia|].
  unfold ReadU16. rewrite H0, H1. simpl. f_equal.
  rewrite (field_cons 1 d p b0), (field_cons 0 d (p + 1) b1), field_0 by (done || lia).
  apply (bytes_ok_at _ _ _ Hd) in H0, H1. unfold byte_ok in H0, H1.
  rewrite (wrap_small 16 (Z.shiftl b1 8)) by (rewrite Z.shiftl_mul_pow2; lia).
  rewrite lor_shiftl_add, wrap_small by lia. lia.
Qed.

Lemma ReadU32_field d p :
  bytes_ok d -> 0 <= p -> p + 4 <= zlen d -> ReadU32 d p = Some (field 4 d p).
Proof.
  intros Hd Hp Hl.
  destruct (at_in d p) as (b0 & H0 & _); [lia|].
  destruct (at_in d (p + 1)) as (b1 & H1 & _); [lia|].
  destruct (at_in d (p + 2)) as (b2 & H2 & _); [lia|].
  destruct (at_in d (p + 3)) as (b3 & H3 & _); [lia|].
  unfold ReadU32. rewrite H0, H1, H2, H3. simpl. f_equal.
  rewrite (field_cons 3 d p b0), (field_cons 2 d (p + 1) b1), (field_cons 1 d (p + 1 + 1) b2),
    (field_cons 0 d (p + 1 + 1 + 1) b3), field_0
    by (done || lia || (rewrite <- ?Z.add_assoc; done)).
  apply (bytes_ok_at _ _ _ Hd) in H0, H1, H2, H3. unfold byte_ok in *.
  rewrite !wrap_small by (rewrite Z.shiftl_mul_pow2; lia).
  rewrite (lor_shiftl_add b0), (lor_shiftl_add _ b2), (lor_shiftl_add _ b3) by lia. lia.
Qed.

Lemma ReadU64_loop_field i d p v :
  bytes_ok d -> 0 <= p -> p + 8 <= zlen d -> (i <= 8)%nat ->
  0 <= v < 256 ^ (8 - Z.of_nat i) ->
  ReadU64_loop i d p v = Some (v * 256 ^ Z.of_nat i + field i d p).
Proof.
  intros Hd Hp Hl. revert v. induction i as [|i IH]; intros v Hi Hv; simpl ReadU64_loop.
  - rewrite field_0. f_equal. lia.
  - destruct (at_in d (p + Z.of_nat i)) as (b & Hb & _); [lia|].
    rewrite Hb. simpl. pose proof (bytes_ok_at _ _ _ Hd Hb) as Hbb. unfold byte_ok in Hbb.
    assert (256 ^ (8 - Z.of_nat i) = 256 * 256 ^ (8 - Z.of_nat (S i))) as Hpow.
    { rewrite <- Z.pow_succ_r by lia. f_equal. lia. }
    assert (256 ^ (8 - Z.of_nat i) <= 256 ^ 8) by (apply Z.pow_le_mono_r; lia).
    rewrite wrap_small by (rewrite Z.shiftl_mul_pow2 by lia; lia).
    rewrite Z.lor_comm, lor_shiftl_add by lia.
    rewrite IH by lia. f_equal.
    rewrite (field_snoc i d p b), Nat2Z.inj_succ, Z.pow_succ_r by (done || lia). lia.
Qed.

Lemma ReadU64_field d p :
  bytes_ok d -> 0 <= p -> p + 8 <= zlen d -> ReadU64 d p = Some (field 8 d p).
Proof. intros. unfold ReadU64. rewrite ReadU64_loop_field by (done || lia). f_equal. Qed.

Lemma land_shiftr_255 v n : 0 <= n -> Z.land (Z.shiftr v n) 255 = (v / 2 ^ n) mod 256.
Proof. intros. by rewrite land_255, Z.shiftr_div_pow2. Qed.

Lemma WriteU16_put d p v : WriteU16 d p v = put d p (le_bytes 2 v).
Proof. unfold WriteU16. by rewrite land_255, land_shiftr_255. Qed.

Lemma WriteU32_put d p v : WriteU32 d p v = put d p (le_bytes 4 v).
Proof.
  unfold WriteU32. simpl. rewrite land_255, !land_shiftr_255 by lia.
  by rewrite !Z.div_div by lia.
Qed.

Lemma WriteU64_put d p v : WriteU64 d p v = put d p (le_bytes 8 v).
Proof.
  unfold WriteU64. simpl. rewrite !land_shiftr_255 by lia.
  rewrite !Z.div_div by lia. by rewrite Z.div_1_r.
Qed.

Lemma WriteU16_in d p v :
  0 <= p -> p + 2 <= zlen d -> WriteU16 d p v = Some (splice d p (le_bytes 2 v)).
Proof. intros. rewrite WriteU16_put. apply put_in; rewrite ?zlen_le_bytes; lia. Qed.

Lemma WriteU32_in d p v :
  0 <= p -> p + 4 <= zlen d -> WriteU32 d p v = Some (splice d p (le_bytes 4 v)).
Proof. intros. rewrite WriteU32_put. apply put_in; rewrite ?zlen_le_bytes; lia. Qed.

Lemma WriteU64_in d p v :
  0 <= p -> p + 8 <= zlen d -> WriteU64 d p v = Some (splice d p (le_bytes 8 v)).
Proof. intros. rewrite WriteU64_put. apply put_in; rewrite ?zlen_le_bytes; lia. Qed.

(** ** Write steps

    [wr d off src d'] says that [d'] is [d] after a checked write.  Proofs about
    a sequence of writes name each intermediate buffer and read fields back
    through the steps with [chase]. *)

Definition buf_ok (n : Z) (d : list Z) : Prop := zlen d = n /\ bytes_ok d.

Definition wr (d : list Z) (off : Z) (src d' : list Z) : Prop :=
  0 <= off /\ off + zlen src <= zlen d /\ d' = splice d off src.

Lemma put_wr m d off src :
  buf_ok m d -> 0 <= off -> off + zlen src <= m -> bytes_ok src ->
  exists d', put d off src = Some d' /\ wr d off src d' /\ buf_ok m d'.
Proof.
  intros [Hl Hb] Ho Hs Hsrc. exists (splice d off src). rewrite put_in by lia.
  split_and!; [done|unfold wr; split_and!; [lia..|done]|].
  split; [rewrite zlen_splice; lia|auto with nexus].
Qed.

Lemma wr_sub_same d off src d' p n :
  wr d off src d' -> p = off -> n = zlen src -> sub d' p n = src.
Proof. intros (? & ? & ->) -> ->. by apply sub_splice_same. Qed.

Lemma wr_sub_other d off src d' p n :
  wr d off src d' -> 0 <= p -> 0 <= n -> p + n <= off \/ off + zlen src <= p ->
  sub d' p n = sub d p n.
Proof. intros (? & ? & ->) ? ? ?. by apply sub_splice_other. Qed.

Lemma wr_sub_inside d off src d' p n :
  wr d off src d' -> off <= p -> 0 <= n -> p + n <= off + zlen src ->
  sub d' p n = sub src (p - off) n.
Proof. intros (? & ? & ->) ? ? ?. by apply sub_splice_inside. Qed.

Lemma wr_field_other d off src d' k p :
  wr d off src d' -> 0 <= p -> p + Z.of_nat k <= off \/ off + zlen src <= p ->
  field k d' p = field k d p.
Proof. intros. unfold field. erewrite wr_sub_other; eauto; lia. Qed.

Lemma wr_field_same d off k v d' p :
  wr d off (le_bytes k v) d' -> p = off -> 0 <= v < 256 ^ Z.of_nat k -> field k d' p = v.
Proof.
  intros (? & Hl & ->) -> ?. rewrite zlen_le_bytes in Hl.
  rewrite field_splice_same by lia. by apply Z.mod_small.
Qed.

Lemma wr_field_inside d off src d' k p :
  wr d off src d' -> off <= p -> p + Z.of_nat k <= off + zlen src ->
  field k d' p = field k src (p - off).
Proof. intros. unfold field. erewrite wr_sub_inside; eauto; lia. Qed.

Lemma sub_cons d p n b :
  0 <= p -> 0 < n -> at_ d p = Some b -> sub d p n = b :: sub d (p + 1) (n - 1).
Proof.
  unfold at_, sub. intros Hp Hn Hb. destruct (Z.ltb_spec p 0); [lia|].
  rewrite (drop_S _ _ _ Hb). replace (Z.to_nat n) with (S (Z.to_nat (n - 1))) by lia.
  simpl. by replace (Z.to_nat (p + 1)) with (S (Z.to_nat p)) by lia.
Qed.

Lemma sub_zero d p : sub d p 0 = [].
Proof. done. Qed.

Lemma sub_all d n : zlen d = n -> sub d 0 n = d.
Proof. unfold sub, zlen. intros <-. rewrite Nat2Z.id, drop_0. by apply take_ge. Qed.

Lemma sub_app_split d p n m :
  0 <= p -> 0 <= n -> 0 <= m -> sub d p (n + m) = sub d p n ++ sub d (p + n) m.
Proof.
  intros. unfold sub. rewrite !Z2Nat.inj_add by lia.
  by rewrite <- drop_drop, take_take_drop.
Qed.

Lemma sub_replicate n v p m :
  0 <= p -> 0 <= m -> p + m <= n ->
  sub (replicate (Z.to_nat n) v) p m = replicate (Z.to_nat m) v.
Proof.
  intros. unfold sub. rewrite drop_replicate, take_replicate.
  f_equal. lia.
Qed.

(** Read a field or a range back through the writes in the context. *)
Ltac chase side :=
  repeat match goal with
  | W : wr ?d ?off ?src ?d' |- context [field ?k ?d' ?p] =>
      first [ rewrite (wr_field_other d off src d' k p W) by side
            | rewrite (wr_field_same d off k _ d' p W) by side ]
  | W : wr ?d ?off ?src ?d' |- context [sub ?d' ?p ?n] =>
      first [ rewrite (wr_sub_other d off src d' p n W) by side
            | rewrite (wr_sub_same d off src d' p n W) by side ]
  end.
