(* ===== verification/Common.v ===== *)
(** * Shared vocabulary: status codes and pages

    [include/common/error.h] (the engine's [DbError]/[Status]),
    [include/common/config.h] ([kPageSize]), the [nexus_rc_t] codes of
    [include/container/container.h], and the [Page] value type of
    [include/db/page.h] and [src/db/storage/page.cpp]. *)

From S2P Require Import Prelude Bytes.

(** ** Database engine status *)

Inductive DbError :=
  | kOk | kInvalidArgument | kNotFound | kIoError | kBadState | kBufferFull | kOutOfMemory.

#[export] Instance DbError_eq_dec : EqDecision DbError.
Proof. solve_decision. Defined.

Record Status := MkStatus { code : DbError; message : string }.

#[export] Instance Status_eq_dec : EqDecision Status.
Proof. solve_decision. Defined.

Definition ok (s : Status) : bool := bool_decide (code s = kOk).
Definition StatusOk : Status := MkStatus kOk "".
Definition StatusError (c : DbError) (msg : string) : Status := MkStatus c msg.

Definition DbErrorString (c : DbError) : string :=
  match c with
  | kOk => "ok"
  | kInvalidArgument => "invalid argument"
  | kNotFound => "not found"
  | kIoError => "I/O error"
  | kBadState => "bad state"
  | kBufferFull => "buffer pool full"
  | kOutOfMemory => "out of memory"
  end.

(** The [Bad] helper of the record, log and database translation units. *)
Definition Bad (msg : string) : Status := StatusError kInvalidArgument msg.

(** ** Container runtime result codes *)

Definition NEXUS_OK : Z := 0.
Definition NEXUS_ERR_INVALID : Z := -1.
Definition NEXUS_ERR_NOT_FOUND : Z := -2.
Definition NEXUS_ERR_EXISTS : Z := -3.
Definition NEXUS_ERR_STATE : Z := -4.
Definition NEXUS_ERR_NOMEM : Z := -5.
Definition NEXUS_ERR_PROCESS : Z := -6.
Definition NEXUS_ERR_UNSUPPORTED : Z := -7.

(** ** Pages *)

Definition kPageSize : Z := 4096.

Record Page := MkPage { page_id : Z; page_dirty : bool; page_data : list Z }.

Definition kInvalidId : Z := 0xFFFFFFFF.

(** A zeroed page buffer. *)
Definition zero_data : list Z := replicate (Z.to_nat kPageSize) 0.
#[global] Arguments zero_data : simpl never.

(** [Page::Page(PageId)] and [Page::Page()]: zeroed data, clean. *)
Definition PageOf (id : Z) : Page := MkPage id false zero_data.
Definition PageDefault : Page := PageOf kInvalidId.

Definition IsValid (p : Page) : bool := negb (page_id p =? kInvalidId).
Definition MarkDirty (p : Page) : Page := MkPage (page_id p) true (page_data p).
Definition ClearDirty (p : Page) : Page := MkPage (page_id p) false (page_data p).
Definition set_data (p : Page) (d : list Z) : Page := MkPage (page_id p) (page_dirty p) d.

(** [Page::Reset]: the id, the flag and all the bytes are overwritten. *)
Definition Reset (p : Page) (id : Z) : Page :=
  MkPage id false (replicate (length (page_data p)) 0).

(** The type invariant of [Page]: the buffer is a [std::array<uint8_t, 4096>]
    and the id a [uint32_t]. *)
Definition page_ok (p : Page) : Prop :=
  zlen (page_data p) = kPageSize /\ bytes_ok (page_data p) /\ 0 <= page_id p <= kInvalidId.

Lemma ok_StatusOk : ok StatusOk = true.
Proof. done. Qed.

Lemma ok_Bad msg : ok (Bad msg) = false.
Proof. done. Qed.

Lemma zero_data_len : zlen zero_data = kPageSize.
Proof. by apply zlen_replicate. Qed.

Lemma zero_data_bytes : bytes_ok zero_data.
Proof. apply bytes_ok_replicate. unfold byte_ok. lia. Qed.

Lemma page_ok_PageOf id : 0 <= id <= kInvalidId -> page_ok (PageOf id).
Proof. intros. split_and!; [apply zero_data_len|apply zero_data_bytes|simpl; lia..]. Qed.

#[export] Hint Resolve zero_data_len zero_data_bytes page_ok_PageOf : nexus.
