(* ===== verification/SlottedPage.v ===== *)
(** * Slotted pages

    [include/db/slotted_page.h] and [src/db/record/slotted_page.cpp]: variable
    length records packed into one page behind a slot directory.  Operations
    are translated statement by statement on the page's bytes.  The result
    type is [option]: [None] stands for an access outside the page buffer, so
    that the safety theorem [no_out_of_bounds] is a statement about the code
    on every page content, well-formed or not.

    A null [Page*] is the absent page of an [option Page]; a null [data]
    pointer is [None].  The out-parameter [out_slot] is part of the result. *)

From S2P Require Import Prelude Bytes Common.

(** ** Layout constants *)

Definition kInvalidSlot : Z := 0xFFFF.
Definition kHeaderSize : Z := 16.
Definition kSlotEntrySize : Z := 4.
Definition kVersion : Z := 1.
Definition kMaxRecordSize : Z := kPageSize - kHeaderSize - kSlotEntrySize.

Definition kMagic : list Z := [0x4E; 0x53; 0x50; 0x31].
Definition kOffMagic : Z := 0.
Definition kOffVersion : Z := 4.
Definition kOffSlotCount : Z := 6.
Definition kOffFreeStart : Z := 8.
Definition kOffFreeEnd : Z := 10.
Definition kOffReserved : Z := 12.

(** Address of the directory entry of slot [i]. *)
Definition entry (i : Z) : Z := kHeaderSize + i * kSlotEntrySize.

(** ** Operations *)

Definition Init (page : option Page) : option (Status * option Page) :=
  match page with
  | None => Some (Bad "SlottedPage::Init: null page", None)
  | Some p =>
      d ← memset (page_data p) 0 0 kPageSize;
      d ← put d (kOffMagic + 0) [0x4E];
      d ← put d (kOffMagic + 1) [0x53];
      d ← put d (kOffMagic + 2) [0x50];
      d ← put d (kOffMagic + 3) [0x31];
      d ← WriteU16 d kOffVersion kVersion;
      d ← WriteU16 d kOffSlotCount 0;
      d ← WriteU16 d kOffFreeStart (u16 kHeaderSize);
      d ← WriteU16 d kOffFreeEnd (u16 kPageSize);
      d ← WriteU16 d kOffReserved 0;
      Some (StatusOk, Some (MarkDirty (set_data p d)))
  end.

(** The loop of [Validate] over the directory, from slot [i]. *)
Fixpoint Validate_slots (n : nat) (i : Z) (d : list Z) (free_end : Z) : option Status :=
  match n with
  | O => Some StatusOk
  | S n =>
      offset ← ReadU16 d (entry i);
      length ← ReadU16 d (entry i + 2);
      if length =? 0 then Validate_slots n (i + 1) d free_end
      else if offset <? free_end then
        Some (Bad "slotted page: live slot points into the free region")
      else if kPageSize <? offset + length then
        Some (Bad "slotted page: live slot extends beyond the page")
      else Validate_slots n (i + 1) d free_end
  end.

Definition ValidateData (d : list Z) : option Status :=
  m0 ← at_ d (kOffMagic + 0); m1 ← at_ d (kOffMagic + 1);
  m2 ← at_ d (kOffMagic + 2); m3 ← at_ d (kOffMagic + 3);
  if negb (m0 =? 0x4E) || negb (m1 =? 0x53) || negb (m2 =? 0x50) || negb (m3 =? 0x31) then
    Some (Bad "slotted page: bad magic")
  else
  version ← ReadU16 d kOffVersion;
  if negb (version =? kVersion) then Some (Bad "slotted page: unsupported version") else
  slot_count ← ReadU16 d kOffSlotCount;
  let dir_end := kHeaderSize + slot_count * kSlotEntrySize in
  if kPageSize <? dir_end then
    Some (Bad "slotted page: slot directory overflows the page") else
  free_start ← ReadU16 d kOffFreeStart;
  free_end ← ReadU16 d kOffFreeEnd;
  if free_start <? dir_end then
    Some (Bad "slotted page: free_start overlaps the slot directory") else
  if free_end <? free_start then
    Some (Bad "slotted page: free_end precedes free_start") else
  if kPageSize <? free_end then Some (Bad "slotted page: free_end beyond the page") else
  Validate_slots (Z.to_nat slot_count) 0 d free_end.

Definition Validate (page : option Page) : option Status :=
  match page with
  | None => Some (Bad "SlottedPage: null page")
  | Some p => ValidateData (page_data p)
  end.

Definition slot_count (page : option Page) : option Z :=
  match page with None => Some 0 | Some p => ReadU16 (page_data p) kOffSlotCount end.

Fixpoint live_loop (n : nat) (i : Z) (d : list Z) (live : Z) : option Z :=
  match n with
  | O => Some live
  | S n => length ← ReadU16 d (entry i + 2);
           live_loop n (u16 (i + 1)) d (if length =? 0 then live else u16 (live + 1))
  end.

Definition live_count (page : option Page) : option Z :=
  match page with
  | None => Some 0
  | Some p => count ← ReadU16 (page_data p) kOffSlotCount;
              live_loop (Z.to_nat count) 0 (page_data p) 0
  end.

Definition free_bytes (page : option Page) : option Z :=
  match page with
  | None => Some 0
  | Some p =>
      free_start ← ReadU16 (page_data p) kOffFreeStart;
      free_end ← ReadU16 (page_data p) kOffFreeEnd;
      if (free_end <? free_start) || (kPageSize <? free_end) then Some 0
      else Some (u64 (free_end - free_start))
  end.

(** The result carries [*out_slot], which is [kInvalidSlot] on every error. *)
Definition Insert (page : option Page) (data : option (list Z))
    : option (Status * option Page * Z) :=
  match page with
  | None => Some (Bad "SlottedPage::Insert: null page", None, kInvalidSlot)
  | Some p =>
  let err s := Some (s, Some p, kInvalidSlot) in
  let data := default [] data in let len := zlen data in
  if len =? 0 then err (Bad "SlottedPage::Insert: null or empty record") else
  if kMaxRecordSize <? len then
    err (StatusError kBufferFull "record exceeds the maximum page record size") else
  let d := page_data p in
  s ← ValidateData d;
  if negb (ok s) then err s else
  count ← ReadU16 d kOffSlotCount;
  let dir_end := kHeaderSize + count * kSlotEntrySize in
  free_start ← ReadU16 d kOffFreeStart;
  free_end ← ReadU16 d kOffFreeEnd;
  let need := kSlotEntrySize + len in
  if u64 (free_end - free_start) <? need then err (StatusError kBufferFull "page full") else
  let new_offset := u64 (free_end - len) in
  d ← put d new_offset data;
  d ← WriteU16 d dir_end (u16 new_offset);
  d ← WriteU16 d (dir_end + 2) (u16 len);
  d ← WriteU16 d kOffSlotCount (u16 (count + 1));
  d ← WriteU16 d kOffFreeStart (u16 (free_start + kSlotEntrySize));
  d ← WriteU16 d kOffFreeEnd (u16 new_offset);
  Some (StatusOk, Some (MarkDirty (set_data p d)), count)
  end.

(** The body of [Read] behind its out-parameter checks; the record is returned
    as the bytes [*out_data] points at. *)
Definition Read (page : option Page) (slot : Z) : option (Status * option (list Z)) :=
  match page with
  | None => Some (Bad "SlottedPage::Read: null page", None)
  | Some p =>
  let d := page_data p in
  s ← ValidateData d;
  if negb (ok s) then Some (s, None) else
  count ← ReadU16 d kOffSlotCount;
  if count <=? slot then Some (Bad "SlottedPage::Read: slot index out of range", None) else
  offset ← ReadU16 d (entry slot);
  length ← ReadU16 d (entry slot + 2);
  if length =? 0 then Some (StatusError kNotFound "slot is deleted", None) else
  r ← get d offset length;
  Some (StatusOk, Some r)
  end.

(** [Read] with the out-parameter checks: the flags say which are non-null. *)
Definition ReadOut (out_data out_len : bool) (page : option Page) (slot : Z)
    : option (Status * option (list Z)) :=
  if negb out_data || negb out_len then Some (Bad "SlottedPage::Read: null out-parameter", None)
  else Read page slot.

Definition Update (page : option Page) (slot : Z) (data : option (list Z))
    : option (Status * option Page) :=
  match page with
  | None => Some (Bad "SlottedPage::Update: null page", None)
  | Some p =>
  let err s := Some (s, Some p) in
  let data := default [] data in let len := zlen data in
  if len =? 0 then err (Bad "SlottedPage::Update: null or empty record") else
  if kMaxRecordSize <? len then
    err (StatusError kBufferFull "record exceeds the maximum page record size") else
  let d := page_data p in
  s ← ValidateData d;
  if negb (ok s) then err s else
  count ← ReadU16 d kOffSlotCount;
  if count <=? slot then err (Bad "SlottedPage::Update: slot index out of range") else
  offset ← ReadU16 d (entry slot);
  old_len ← ReadU16 d (entry slot + 2);
  if old_len =? 0 then err (StatusError kNotFound "slot is deleted") else
  if len <=? old_len then
    d ← put d offset data;
    d ← WriteU16 d (entry slot + 2) (u16 len);
    Some (StatusOk, Some (MarkDirty (set_data p d)))
  else
  free_start ← ReadU16 d kOffFreeStart;
  free_end ← ReadU16 d kOffFreeEnd;
  if u64 (free_end - free_start) <? len then
    err (StatusError kBufferFull "record cannot grow in the free region") else
  let new_offset := u64 (free_end - len) in
  d ← put d new_offset data;
  d ← WriteU16 d (entry slot) (u16 new_offset);
  d ← WriteU16 d (entry slot + 2) (u16 len);
  d ← WriteU16 d kOffFreeEnd (u16 new_offset);
  Some (StatusOk, Some (MarkDirty (set_data p d)))
  end.

Definition Delete (page : option Page) (slot : Z) : option (Status * option Page) :=
  match page with
  | None => Some (Bad "SlottedPage::Delete: null page", None)
  | Some p =>
  let err s := Some (s, Some p) in
  let d := page_data p in
  s ← ValidateData d;
  if negb (ok s) then err s else
  count ← ReadU16 d kOffSlotCount;
  if count <=? slot then err (Bad "SlottedPage::Delete: slot index out of range") else
  length ← ReadU16 d (entry slot + 2);
  if length =? 0 then err (StatusError kNotFound "slot is already deleted") else
  d ← WriteU16 d (entry slot) 0;
  d ← WriteU16 d (entry slot + 2) 0;
  Some (StatusOk, Some (MarkDirty (set_data p d)))
  end.

(** The pre-pass of [Compact]: [inr total], or [inl] when the sum of the live
    lengths exceeds a page. *)
Fixpoint live_total (n : nat) (i : Z) (d : list Z) (total : Z) : option (Status + Z) :=
  match n with
  | O => Some (inr total)
  | S n =>
      length ← ReadU16 d (entry i + 2);
      if length =? 0 then live_total n (i + 1) d total
      else if kPageSize <? total + length then
        Some (inl (Bad "slotted page: live records exceed the page (corrupt)"))
      else live_total n (i + 1) d (total + length)
  end.

(** The packing loop: the directory is updated in [d] while the records are
    staged in [scratch]. *)
Fixpoint pack (n : nat) (i : Z) (d scratch : list Z) (dest_end : Z)
    : option (list Z * list Z * Z) :=
  match n with
  | O => Some (d, scratch, dest_end)
  | S n =>
      offset ← ReadU16 d (entry i);
      length ← ReadU16 d (entry i + 2);
      if length =? 0 then pack n (i + 1) d scratch dest_end
      else
        let dest_end := u64 (dest_end - length) in
        src ← get d offset length;
        scratch ← put scratch dest_end src;
        d ← WriteU16 d (entry i) (u16 dest_end);
        pack n (i + 1) d scratch dest_end
  end.

(** [scratch] is an uninitialised local array: its initial content is an
    argument the results must not depend on. *)
Definition Compact (scratch : list Z) (page : option Page) : option (Status * option Page) :=
  match page with
  | None => Some (Bad "SlottedPage::Compact: null page", None)
  | Some p =>
  let err s := Some (s, Some p) in
  let d := page_data p in
  s ← ValidateData d;
  if negb (ok s) then err s else
  count ← ReadU16 d kOffSlotCount;
  free_start ← ReadU16 d kOffFreeStart;
  t ← live_total (Z.to_nat count) 0 d 0;
  match t with
  | inl s => err s
  | inr total =>
  if u64 (kPageSize - free_start) <? total then
    err (Bad "slotted page: live records do not fit above the directory") else
  '(d, scratch, dest_end) ← pack (Z.to_nat count) 0 d scratch kPageSize;
  let region := u64 (kPageSize - dest_end) in
  d ← (if 0 <? region then src ← get scratch dest_end region; put d dest_end src else Some d);
  d ← WriteU16 d kOffFreeEnd (u16 dest_end);
  d ← (if free_start <? dest_end then memset d free_start 0 (dest_end - free_start) else Some d);
  Some (StatusOk, Some (MarkDirty (set_data p d)))
  end
  end.

(** [Scan] with a callback [fn] on a context of type [C]: it returns whether to
    go on, and the context as it left it. *)
Section Scan.
Context {C : Type} (fn : Z -> list Z -> C -> bool * C).

Fixpoint Scan_slots (n : nat) (i : Z) (d : list Z) (ctx : C) : option C :=
  match n with
  | O => Some ctx
  | S n =>
      offset ← ReadU16 d (entry i);
      length ← ReadU16 d (entry i + 2);
      if length =? 0 then Scan_slots n (i + 1) d ctx
      else
        r ← get d offset length;
        match fn (u16 i) r ctx with
        | (false, ctx) => Some ctx
        | (true, ctx) => Scan_slots n (i + 1) d ctx
        end
  end.

Definition Scan (page : option Page) (ctx : C) : option (Status * C) :=
  match page with
  | None => Some (Bad "SlottedPage::Scan: null page", ctx)
  | Some p =>
  let d := page_data p in
  s ← ValidateData d;
  if negb (ok s) then Some (s, ctx) else
  count ← ReadU16 d kOffSlotCount;
  ctx ← Scan_slots (Z.to_nat count) 0 d ctx;
  Some (StatusOk, ctx)
  end.
End Scan.

(** [Scan] with its check for a null callback. *)
Definition ScanFn {C} (fn : option (Z -> list Z -> C -> bool * C)) (page : option Page) (ctx : C)
    : option (Status * C) :=
  match fn with
  | None => Some (Bad "SlottedPage::Scan: null callback", ctx)
  | Some fn => Scan fn page ctx
  end.

(** ** Specification

    The abstract state of a page is the list of its slots, a tombstone being
    [None].  [records] reads it off the bytes. *)

Definition nslots (d : list Z) : Z := field 2 d kOffSlotCount.
Definition fstart (d : list Z) : Z := field 2 d kOffFreeStart.
Definition fend (d : list Z) : Z := field 2 d kOffFreeEnd.
Definition soff (d : list Z) (i : Z) : Z := field 2 d (entry i).
Definition slen (d : list Z) (i : Z) : Z := field 2 d (entry i + 2).

Definition view (d : list Z) (i : Z) : option (list Z) :=
  if slen d i =? 0 then None else Some (sub d (soff d i) (slen d i)).
Definition records (d : list Z) : list (option (list Z)) := view d <$> seqZ 0 (nslots d).

(** What [Validate] accepts. *)
Definition slot_in_region (d : list Z) (i : Z) : Prop :=
  slen d i <> 0 -> fend d <= soff d i /\ soff d i + slen d i <= kPageSize.
Record layout (d : list Z) : Prop := {
  layout_magic : sub d 0 4 = kMagic;
  layout_version : field 2 d kOffVersion = kVersion;
  layout_dir : entry (nslots d) <= fstart d;
  layout_free : fstart d <= fend d;
  layout_end : fend d <= kPageSize;
  layout_slots : forall i, 0 <= i < nslots d -> slot_in_region d i }.

(** What the operations maintain on top of it: no two live records overlap. *)
Definition disjoint_slots (d : list Z) : Prop :=
  forall i j, 0 <= i < nslots d -> 0 <= j < nslots d -> i <> j ->
    slen d i <> 0 -> slen d j <> 0 ->
    soff d i + slen d i <= soff d j \/ soff d j + slen d j <= soff d i.

(** Well-formed slotted page. *)
Definition wf (p : Page) : Prop :=
  buf_ok kPageSize (page_data p) /\ layout (page_data p) /\ disjoint_slots (page_data p).

(** ** Proof tactics *)

Ltac slia :=
  unfold kMaxRecordSize, entry, kHeaderSize, kSlotEntrySize, kPageSize, kOffMagic,
    kOffVersion, kOffSlotCount, kOffFreeStart, kOffFreeEnd, kOffReserved, kVersion in *;
  rewrite ?zlen_le_bytes, ?zlen_single in *; lia.

(** Replace every field read of a well-sized buffer by the field. *)
Ltac reads :=
  repeat match goal with
  | B : buf_ok _ ?d |- context [ReadU16 ?d ?p] =>
      rewrite (ReadU16_field d p (proj2 B)) by (destruct B; slia); simpl
  end.

(** Step over a write. *)
Ltac wstep :=
  rewrite ?WriteU16_put;
  match goal with
  | B : buf_ok kPageSize ?d |- context [put ?d ?off ?src] =>
      let d' := fresh "d" in let E := fresh "E" in
      let W := fresh "W" in let B' := fresh "B" in
      destruct (put_wr kPageSize d off src B) as (d' & E & W & B');
      [slia|slia|auto with nexus|rewrite E; clear E; simpl]
  end.

Ltac fchase :=
  unfold nslots, fstart, fend, soff, slen in *; chase slia.

(** ** Validation *)

Section Fields.
Context (d : list Z) (B : buf_ok kPageSize d).

Lemma nslots_bound : 0 <= nslots d < 65536.
Proof. apply (field_bound 2), B. Qed.
Lemma fstart_bound : 0 <= fstart d < 65536.
Proof. apply (field_bound 2), B. Qed.
Lemma fend_bound : 0 <= fend d < 65536.
Proof. apply (field_bound 2), B. Qed.
Lemma soff_bound i : 0 <= soff d i < 65536.
Proof. apply (field_bound 2), B. Qed.
Lemma slen_bound i : 0 <= slen d i < 65536.
Proof. apply (field_bound 2), B. Qed.

Lemma Validate_slots_spec n i :
  0 <= i -> entry (i + Z.of_nat n) <= kPageSize ->
  (Validate_slots n i d (fend d) = Some StatusOk /\
     forall j, i <= j < i + Z.of_nat n -> slot_in_region d j) \/
  (exists msg, Validate_slots n i d (fend d) = Some (Bad msg) /\
     exists j, i <= j < i + Z.of_nat n /\ ~ slot_in_region d j).
Proof.
  revert i. induction n as [|n IH]; intros i Hi Hn; simpl.
  { left. split; [done|lia]. }
  reads. fold (soff d i) (slen d i). unfold slot_in_region in *.
  destruct (slen d i =? 0) eqn:E1; zb;
    [|destruct (soff d i <? fend d) eqn:E2; zb;
      [right; eexists; split; [done|exists i; lia]|
       destruct (kPageSize <? soff d i + slen d i) eqn:E3; zb;
        [right; eexists; split; [done|exists i; slia]|]]].
  all: destruct (IH (i + 1)) as [[-> H]|(msg & -> & j & Hj & H)]; [slia..| |].
  all: try (left; split; [done|]; intros j Hj; destruct (decide (j = i)) as [->|];
            [lia|apply H; lia]).
  all: right; eexists; split; [done|]; exists j; split; [lia|done].
Qed.

(** [Validate] decides [layout]. *)
Lemma ValidateData_spec :
  (ValidateData d = Some StatusOk /\ layout d) \/
  (exists msg, ValidateData d = Some (Bad msg) /\ ~ layout d).
Proof.
  unfold ValidateData.
  destruct (at_in d (kOffMagic + 0)) as (m0 & E0 & _); [destruct B; slia|].
  destruct (at_in d (kOffMagic + 1)) as (m1 & E1 & _); [destruct B; slia|].
  destruct (at_in d (kOffMagic + 2)) as (m2 & E2 & _); [destruct B; slia|].
  destruct (at_in d (kOffMagic + 3)) as (m3 & E3 & _); [destruct B; slia|].
  assert (sub d 0 4 = [m0; m1; m2; m3]) as Hm.
  { rewrite (sub_cons d 0 4 m0), (sub_cons d (0 + 1) (4 - 1) m1),
      (sub_cons d (0 + 1 + 1) (4 - 1 - 1) m2),
      (sub_cons d (0 + 1 + 1 + 1) (4 - 1 - 1 - 1) m3) by (done || lia). done. }
  rewrite E0, E1, E2, E3. simpl. reads.
  fold (nslots d) (fstart d) (fend d). pose proof nslots_bound as Hn.
  destruct (negb (m0 =? 78) || negb (m1 =? 83) || negb (m2 =? 80) || negb (m3 =? 49)) eqn:M.
  { right. eexists; split; [done|]. intros [Hg]. rewrite Hg in Hm. unfold kMagic in Hm.
    by simplify_eq. }
  zb. subst.
  destruct (negb _) eqn:V; zb; [right; eexists; split; [done|intros []; done]|].
  destruct (kPageSize <? _) eqn:D; zb.
  { right; eexists; split; [done|intros []; slia]. }
  destruct (fstart d <? _) eqn:F1; zb; [right; eexists; split; [done|intros []; slia]|].
  destruct (fend d <? _) eqn:F2; zb; [right; eexists; split; [done|intros []; slia]|].
  destruct (kPageSize <? _) eqn:F3; zb; [right; eexists; split; [done|intros []; slia]|].
  destruct (Validate_slots_spec (Z.to_nat (nslots d)) 0) as [[-> HV]|(msg & -> & j & Hj & HV)];
    [slia..| |].
  - left. split; [done|]. constructor; auto; [slia..|]. intros i Hi. apply HV. lia.
  - right. eexists; split; [done|]. intros [? ? ? ? ? HS]. apply HV, HS. lia.
Qed.

Lemma ValidateData_ok : layout d -> ValidateData d = Some StatusOk.
Proof. intros L. destruct ValidateData_spec as [[-> _]|(? & _ & ?)]; done. Qed.
End Fields.

Lemma slot_mem d i :
  layout d -> 0 <= i < nslots d -> slen d i <> 0 ->
  entry i + 4 <= fstart d /\ fstart d <= fend d /\ fend d <= soff d i /\
  soff d i + slen d i <= kPageSize.
Proof.
  intros [? ? ? ? ? HS] Hi Hl. destruct (HS i Hi Hl). split_and!; slia.
Qed.

(** ** Functional correctness of the operations *)

(** Executing past validation on a well-formed page. *)
Ltac validated B L :=
  rewrite (ValidateData_ok _ B L); simpl;
  match type of B with buf_ok _ ?d =>
    pose proof (nslots_bound d B); pose proof (fstart_bound d B);
    pose proof (fend_bound d B); destruct L as [Lm Lv Ld Lf Le Ls] end.

Lemma view_ext d d' i :
  slen d' i = slen d i ->
  (slen d i <> 0 -> sub d' (soff d' i) (slen d' i) = sub d (soff d i) (slen d i)) ->
  view d' i = view d i.
Proof.
  intros E H. unfold view. rewrite E. destruct (slen d i =? 0) eqn:Z; [done|]. zb.
  f_equal. rewrite <- H by done. by rewrite E.
Qed.

Lemma records_snoc d d' x :
  0 <= nslots d -> nslots d' = nslots d + 1 ->
  (forall i, 0 <= i < nslots d -> view d' i = view d i) -> view d' (nslots d) = x ->
  records d' = records d ++ [x].
Proof.
  intros Hn En Hv Hx. unfold records. rewrite En, seqZ_app, fmap_app, Z.add_0_l by lia.
  f_equal; [|unfold seqZ; simpl; by rewrite Z.add_0_l, Hx].
  apply list_fmap_ext. intros k i Hi. apply lookup_seqZ in Hi. apply Hv. lia.
Qed.

Lemma records_update d d' i x :
  0 <= i < nslots d -> nslots d' = nslots d ->
  (forall j, 0 <= j < nslots d -> j <> i -> view d' j = view d j) -> view d' i = x ->
  records d' = <[Z.to_nat i := x]> (records d).
Proof.
  intros Hi En Hv Hx. unfold records. rewrite En. apply list_eq. intros k.
  rewrite list_lookup_insert, !list_lookup_fmap, length_fmap, length_seqZ.
  destruct (decide (k < Z.to_nat (nslots d))%nat).
  - rewrite lookup_seqZ_lt, Z.add_0_l by lia. cbn. case_decide as Hk.
    + destruct Hk as [<- _]. rewrite Z2Nat.id by lia. by rewrite Hx.
    + rewrite Hv by lia. done.
  - rewrite lookup_seqZ_ge by lia. simpl. case_decide; [lia|done].
Qed.

Lemma Insert_ok p data :
  wf p -> bytes_ok data -> 0 < zlen data ->
  kSlotEntrySize + zlen data <= fend (page_data p) - fstart (page_data p) ->
  exists d', Insert (Some p) (Some data)
      = Some (StatusOk, Some (MarkDirty (set_data p d')), nslots (page_data p)) /\
    wf (MarkDirty (set_data p d')) /\
    records d' = records (page_data p) ++ [Some data] /\
    fstart d' = fstart (page_data p) + kSlotEntrySize /\
    fend d' = fend (page_data p) - zlen data.
Proof.
  intros (B & L & D) Hb Hlen Hfree. unfold Insert. simpl default. unfold wf. simpl.
  set (d := page_data p) in *. pose proof L as L0. validated B L0.
  replace (zlen data =? 0) with false by lia.
  replace (kMaxRecordSize <? zlen data) with false by slia.
  reads. fold (nslots d) (fstart d) (fend d).
  rewrite (wrap_small 64) by slia.
  replace (_ <? _) with false by slia.
  rewrite (wrap_small 64) by slia. rewrite !(wrap_small 16) by slia.
  do 6 wstep. exists d5. split; [done|].
  assert (nslots d5 = nslots d + 1) as En by (fchase; slia).
  assert (fstart d5 = fstart d + 4) as Es by (fchase; slia).
  assert (fend d5 = fend d - zlen data) as Ee by (fchase; slia).
  assert (soff d5 (nslots d) = fend d - zlen data) as Eo by (fchase; slia).
  assert (slen d5 (nslots d) = zlen data) as El by (fchase; slia).
  assert (forall i, 0 <= i < nslots d -> soff d5 i = soff d i /\ slen d5 i = slen d i) as Ei.
  { intros i Hi. split; fchase; done. }
  assert (forall i, 0 <= i < nslots d -> view d5 i = view d i) as Ev.
  { intros i Hi. destruct (Ei i Hi) as [Eo' El']. apply view_ext; [done|]. intros Hl.
    rewrite Eo', El'. destruct (slot_mem d i L Hi Hl) as (? & ? & ? & ?).
    pose proof (slen_bound d B i). chase slia. done. }
  split_and!; [done|..].
  - constructor; [chase slia; done|fchase; done|rewrite En, Es; slia|slia|slia|].
    intros i Hi. unfold slot_in_region. rewrite Ee.
    destruct (decide (i = nslots d)) as [->|]; [rewrite Eo, El; slia|].
    destruct (Ei i) as [-> ->]; [lia|]. intros Hl. destruct (Ls i); slia.
  - intros i j Hi Hj Hij. rewrite En in Hi, Hj.
    destruct (decide (i = nslots d)) as [->|], (decide (j = nslots d)) as [->|]; [done|..].
    + destruct (Ei j) as [-> ->]; [lia|]. rewrite Eo, El. intros _ Hl.
      destruct (Ls j); [lia|done|]. lia.
    + destruct (Ei i) as [-> ->]; [lia|]. rewrite Eo, El. intros Hl _.
      destruct (Ls i); [lia|done|]. lia.
    + destruct (Ei i) as [-> ->]; [lia|]. destruct (Ei j) as [-> ->]; [lia|].
      apply D; lia.
  - apply records_snoc; [lia|done..|]. unfold view. rewrite El, Eo.
    replace (zlen data =? 0) with false by lia. f_equal. chase slia. done.
  - done.
  - done.
Qed.

(** A mutation of slot [i] alone: enough to keep the page well-formed and to
    change the abstract state at [i] only. *)
Record changes_only (d d' : list Z) (i : Z) : Prop := {
  co_magic : sub d' 0 4 = sub d 0 4;
  co_version : field 2 d' kOffVersion = field 2 d kOffVersion;
  co_nslots : nslots d' = nslots d;
  co_fstart : fstart d' = fstart d;
  co_fend : fstart d <= fend d' <= fend d;
  co_entries : forall j, 0 <= j < nslots d -> j <> i ->
    soff d' j = soff d j /\ slen d' j = slen d j;
  co_bytes : forall j, 0 <= j < nslots d -> j <> i -> slen d j <> 0 ->
    sub d' (soff d j) (slen d j) = sub d (soff d j) (slen d j);
  co_slot : slen d' i <> 0 -> fend d' <= soff d' i /\ soff d' i + slen d' i <= kPageSize /\
    forall j, 0 <= j < nslots d -> j <> i -> slen d j <> 0 ->
      soff d' i + slen d' i <= soff d j \/ soff d j + slen d j <= soff d' i }.

Lemma changes_only_spec d d' i :
  layout d -> disjoint_slots d -> 0 <= i < nslots d -> changes_only d d' i ->
  layout d' /\ disjoint_slots d' /\ records d' = <[Z.to_nat i := view d' i]> (records d).
Proof.
  intros [Lm Lv Ld Lf Le Ls] D Hi [Cm Cv Cn Cs Ce Cent Cb Csl]. split_and!.
  - constructor; try congruence; [lia|lia|].
    intros j Hj. rewrite Cn in Hj. unfold slot_in_region.
    destruct (decide (j = i)) as [->|Hne].
    { intros Hl. destruct (Csl Hl) as (? & ? & _). lia. }
    destruct (Cent j Hj Hne) as [-> ->]. intros Hl. destruct (Ls j Hj Hl). lia.
  - intros j k Hj Hk Hjk. rewrite Cn in Hj, Hk.
    destruct (decide (j = i)) as [->|Hji], (decide (k = i)) as [->|Hki]; [done|..].
    + destruct (Cent k Hk Hki) as [-> ->]. intros Hl Hl'. destruct (Csl Hl) as (_ & _ & Hd).
      destruct (Hd k); auto.
    + destruct (Cent j Hj Hji) as [-> ->]. intros Hl' Hl. destruct (Csl Hl) as (_ & _ & Hd).
      destruct (Hd j); auto.
    + destruct (Cent j Hj Hji) as [-> ->], (Cent k Hk Hki) as [-> ->]. by apply D.
  - apply records_update; auto. intros j Hj Hne. destruct (Cent j Hj Hne) as [Eo El].
    apply view_ext; [done|]. intros Hl. rewrite Eo, El. auto.
Qed.

Lemma Delete_ok p slot :
  wf p -> 0 <= slot < nslots (page_data p) -> slen (page_data p) slot <> 0 ->
  exists d', Delete (Some p) slot = Some (StatusOk, Some (MarkDirty (set_data p d'))) /\
    wf (MarkDirty (set_data p d')) /\
    records d' = <[Z.to_nat slot := None]> (records (page_data p)) /\
    fend d' = fend (page_data p) /\ fstart d' = fstart (page_data p).
Proof.
  intros (B & L & D) Hi Hl. unfold Delete, wf. simpl. set (d := page_data p) in *.
  pose proof L as L0. validated B L0. reads. fold (nslots d).
  replace (nslots d <=? slot) with false by lia. reads. fold (slen d slot).
  replace (slen d slot =? 0) with false by lia.
  do 2 wstep. exists d1. split; [done|].
  assert (fend d1 = fend d) as Ee by (fchase; done).
  assert (fstart d1 = fstart d) as Es by (fchase; done).
  assert (slen d1 slot = 0) as Ez by (fchase; done).
  destruct (changes_only_spec d d1 slot) as (? & ? & ->); auto.
  { constructor; auto; [chase slia; done|fchase; done|fchase; done|slia|..].
    - intros j Hj Hne. split; fchase; done.
    - intros j Hj Hne Hjl. destruct (slot_mem d j L Hj Hjl) as (? & ? & ? & ?).
      pose proof (slen_bound d B j). chase slia. done.
    - done. }
  split_and!; auto. unfold view. by rewrite Ez.
Qed.

Lemma Update_inplace_ok p slot data :
  wf p -> bytes_ok data -> 0 <= slot < nslots (page_data p) ->
  0 < zlen data <= slen (page_data p) slot ->
  exists d', Update (Some p) slot (Some data)
      = Some (StatusOk, Some (MarkDirty (set_data p d'))) /\
    wf (MarkDirty (set_data p d')) /\
    records d' = <[Z.to_nat slot := Some data]> (records (page_data p)) /\
    fstart d' = fstart (page_data p) /\ fend d' = fend (page_data p).
Proof.
  intros (B & L & D) Hb Hi Hlen. unfold Update, wf. simpl. set (d := page_data p) in *.
  destruct (slot_mem d slot L Hi) as (? & ? & ? & ?); [lia|].
  pose proof L as L0. validated B L0. reads. fold (nslots d).
  replace (zlen data =? 0) with false by lia.
  replace (kMaxRecordSize <? zlen data) with false by slia.
  replace (nslots d <=? slot) with false by lia. reads. fold (soff d slot) (slen d slot).
  replace (slen d slot =? 0) with false by lia.
  replace (zlen data <=? slen d slot) with true by lia.
  rewrite (wrap_small 16) by slia. do 2 wstep. exists d1. split; [done|].
  assert (fend d1 = fend d) as Ee by (fchase; done).
  assert (fstart d1 = fstart d) as Es by (fchase; done).
  assert (slen d1 slot = zlen data) as El by (fchase; done).
  assert (soff d1 slot = soff d slot) as Eo by (fchase; done).
  destruct (changes_only_spec d d1 slot) as (? & ? & ->); auto.
  { constructor; auto; [chase slia; done|fchase; done|fchase; done|slia|..].
    - intros j Hj Hne. destruct (slot_mem d slot L Hi) as (? & ? & ? & ?); [lia|].
      split; fchase; done.
    - intros j Hj Hne Hjl. destruct (slot_mem d j L Hj Hjl) as (? & ? & ? & ?).
      pose proof (slen_bound d B j). destruct (D slot j); auto; [lia|..]; chase slia; done.
    - rewrite El, Eo, Ee. intros _. split_and!; [lia|lia|].
      intros j Hj Hne Hjl. destruct (D slot j); auto; lia. }
  split_and!; auto. unfold view. rewrite El, Eo.
  replace (zlen data =? 0) with false by lia. do 2 f_equal. chase slia. done.
Qed.

Lemma Update_grow_ok p slot data :
  wf p -> bytes_ok data -> 0 <= slot < nslots (page_data p) ->
  0 < slen (page_data p) slot < zlen data ->
  zlen data <= fend (page_data p) - fstart (page_data p) ->
  zlen data <= kMaxRecordSize ->
  exists d', Update (Some p) slot (Some data)
      = Some (StatusOk, Some (MarkDirty (set_data p d'))) /\
    wf (MarkDirty (set_data p d')) /\
    records d' = <[Z.to_nat slot := Some data]> (records (page_data p)) /\
    fstart d' = fstart (page_data p) /\ fend d' = fend (page_data p) - zlen data.
Proof.
  intros (B & L & D) Hb Hi Hlen Hfree Hmax. unfold Update, wf. simpl. set (d := page_data p) in *.
  destruct (slot_mem d slot L Hi) as (? & ? & ? & ?); [lia|].
  pose proof L as L0. validated B L0. reads. fold (nslots d).
  replace (zlen data =? 0) with false by lia.
  replace (kMaxRecordSize <? zlen data) with false by slia.
  replace (nslots d <=? slot) with false by lia. reads. fold (soff d slot) (slen d slot).
  replace (slen d slot =? 0) with false by lia.
  replace (zlen data <=? slen d slot) with false by lia.
  fold (fend d) (fstart d).
  rewrite !(wrap_small 64) by slia. replace (_ <? _) with false by lia.
  rewrite !(wrap_small 16) by slia. do 4 wstep. exists d3. split; [done|].
  assert (fend d3 = fend d - zlen data) as Ee by (fchase; done).
  assert (fstart d3 = fstart d) as Es by (fchase; done).
  assert (slen d3 slot = zlen data) as El by (fchase; done).
  assert (soff d3 slot = fend d - zlen data) as Eo by (fchase; done).
  destruct (changes_only_spec d d3 slot) as (? & ? & ->); auto.
  { constructor; auto; [chase slia; done|fchase; done|fchase; done|slia|..].
    - intros j Hj Hne. split; fchase; done.
    - intros j Hj Hne Hjl. destruct (slot_mem d j L Hj Hjl) as (? & ? & ? & ?).
      pose proof (slen_bound d B j). chase slia; done.
    - rewrite El, Eo, Ee. intros _. split_and!; [lia|slia|].
      intros j Hj Hne Hjl. destruct (slot_mem d j L Hj Hjl) as (? & ? & ? & ?). lia. }
  split_and!; auto. unfold view. rewrite El, Eo.
  replace (zlen data =? 0) with false by lia. do 2 f_equal. chase slia. done.
Qed.

(** ** The abstract page

    What the operations promise: the slots, and the bounds of the free region. *)

Record spage := MkSpage { sp_slots : list (option (list Z)); sp_lo : Z; sp_hi : Z }.

Definition abs (p : Page) : spage :=
  MkSpage (records (page_data p)) (fstart (page_data p)) (fend (page_data p)).

Fixpoint live_size (l : list (option (list Z))) : Z :=
  match l with [] => 0 | o :: l => zlen (default [] o) + live_size l end.

Inductive sp_op :=
  | OpInsert (data : list Z)
  | OpUpdate (slot : Z) (data : list Z)
  | OpDelete (slot : Z)
  | OpCompact.

(** The result code, the new state and (for an insertion) the slot id. *)
Definition spec_step (o : sp_op) (a : spage) : DbError * spage * Z :=
  match o with
  | OpInsert data =>
      if zlen data =? 0 then (kInvalidArgument, a, kInvalidSlot) else
      if kMaxRecordSize <? zlen data then (kBufferFull, a, kInvalidSlot) else
      if sp_hi a - sp_lo a <? kSlotEntrySize + zlen data then (kBufferFull, a, kInvalidSlot)
      else (kOk, MkSpage (sp_slots a ++ [Some data]) (sp_lo a + kSlotEntrySize)
                   (sp_hi a - zlen data), zlen (sp_slots a))
  | OpUpdate slot data =>
      if zlen data =? 0 then (kInvalidArgument, a, 0) else
      if kMaxRecordSize <? zlen data then (kBufferFull, a, 0) else
      match sp_slots a !! Z.to_nat slot with
      | None => (kInvalidArgument, a, 0)
      | Some None => (kNotFound, a, 0)
      | Some (Some old) =>
          let slots := <[Z.to_nat slot := Some data]> (sp_slots a) in
          if zlen data <=? zlen old then (kOk, MkSpage slots (sp_lo a) (sp_hi a), 0) else
          if sp_hi a - sp_lo a <? zlen data then (kBufferFull, a, 0)
          else (kOk, MkSpage slots (sp_lo a) (sp_hi a - zlen data), 0)
      end
  | OpDelete slot =>
      match sp_slots a !! Z.to_nat slot with
      | None => (kInvalidArgument, a, 0)
      | Some None => (kNotFound, a, 0)
      | Some (Some _) =>
          (kOk, MkSpage (<[Z.to_nat slot := None]> (sp_slots a)) (sp_lo a) (sp_hi a), 0)
      end
  | OpCompact => (kOk, MkSpage (sp_slots a) (sp_lo a) (kPageSize - live_size (sp_slots a)), 0)
  end.

(** The same operations on the bytes. *)
Definition exec (scratch : list Z) (o : sp_op) (p : Page) : option (Status * option Page * Z) :=
  match o with
  | OpInsert data => Insert (Some p) (Some data)
  | OpUpdate slot data => '(s, q) ← Update (Some p) slot (Some data); Some (s, q, 0)
  | OpDelete slot => '(s, q) ← Delete (Some p) slot; Some (s, q, 0)
  | OpCompact => '(s, q) ← Compact scratch (Some p); Some (s, q, 0)
  end.

(** Arguments in the range of their C++ types. *)
Definition op_ok (o : sp_op) : Prop :=
  match o with
  | OpInsert data => bytes_ok data
  | OpUpdate slot data => 0 <= slot <= kInvalidSlot /\ bytes_ok data
  | OpDelete slot => 0 <= slot <= kInvalidSlot
  | OpCompact => True
  end.

(** ** Slots of the abstract page *)

Lemma zlen_records d : buf_ok kPageSize d -> zlen (records d) = nslots d.
Proof.
  intros B. pose proof (nslots_bound d B). unfold records, zlen.
  rewrite length_fmap, length_seqZ. lia.
Qed.

Lemma records_lookup d slot :
  0 <= slot -> records d !! Z.to_nat slot =
    if nslots d <=? slot then None else Some (view d slot).
Proof.
  intros Hs. unfold records. rewrite list_lookup_fmap.
  destruct (nslots d <=? slot) eqn:E; zb.
  - by rewrite lookup_seqZ_ge by lia.
  - rewrite lookup_seqZ_lt by lia. simpl. by rewrite Z2Nat.id by lia.
Qed.

Lemma zlen_view d i :
  buf_ok kPageSize d -> layout d -> 0 <= i < nslots d -> zlen (default [] (view d i)) = slen d i.
Proof.
  intros B L Hi. unfold view. destruct (slen d i =? 0) eqn:E; zb; simpl; [done|].
  destruct (slot_mem d i L Hi E) as (? & ? & ? & ?). pose proof (slen_bound d B i).
  destruct B as [Hl _]. apply zlen_sub; slia.
Qed.

(** Sum of the lengths of slots [i .. i+n). *)
Fixpoint sumlen (d : list Z) (i : Z) (n : nat) : Z :=
  match n with O => 0 | S n => slen d i + sumlen d (i + 1) n end.

Lemma live_size_records_from d i n :
  buf_ok kPageSize d -> layout d -> 0 <= i -> i + Z.of_nat n <= nslots d ->
  live_size (view d <$> seqZ i (Z.of_nat n)) = sumlen d i n.
Proof.
  intros B L. revert i. induction n as [|n IH]; intros i Hi Hn; [done|].
  rewrite seqZ_cons by lia. simpl. rewrite zlen_view by (auto; lia).
  rewrite <- IH by lia. repeat f_equal; lia.
Qed.

Lemma live_size_records d :
  buf_ok kPageSize d -> layout d -> live_size (records d) = sumlen d 0 (Z.to_nat (nslots d)).
Proof.
  intros B L. pose proof (nslots_bound d B). rewrite <- live_size_records_from by (auto; lia).
  unfold records. by rewrite Z2Nat.id by lia.
Qed.

(** The bytes covered by the live records are pairwise distinct, so the live
    size is bounded by the record region. *)
Fixpoint cover (d : list Z) (i : Z) (n : nat) : list Z :=
  match n with O => [] | S n => seqZ (soff d i) (slen d i) ++ cover d (i + 1) n end.

Lemma elem_of_cover d i n x :
  x ∈ cover d i n <->
  exists j, i <= j < i + Z.of_nat n /\ soff d j <= x < soff d j + slen d j.
Proof.
  revert i. induction n as [|n IH]; intros i; simpl.
  - split; [by intros ?%not_elem_of_nil|intros (j & ? & _); lia].
  - rewrite elem_of_app, elem_of_seqZ, IH. split.
    + intros [?|(j & ? & ?)]; [exists i; lia|exists j; lia].
    + intros (j & ? & ?). destruct (decide (j = i)) as [->|]; [left; lia|].
      right. exists j. lia.
Qed.

Lemma NoDup_cover d i n :
  buf_ok kPageSize d -> disjoint_slots d -> 0 <= i -> i + Z.of_nat n <= nslots d ->
  NoDup (cover d i n).
Proof.
  intros B D. revert i. induction n as [|n IH]; intros i Hi Hn; simpl; [constructor|].
  apply NoDup_app. split_and!; [apply NoDup_seqZ| |apply IH; lia].
  intros x Hx%elem_of_seqZ (j & Hj & Hx')%elem_of_cover.
  destruct (D i j) as [|]; lia.
Qed.

Lemma live_size_bound d :
  buf_ok kPageSize d -> layout d -> disjoint_slots d ->
  0 <= sumlen d 0 (Z.to_nat (nslots d)) <= kPageSize - fend d.
Proof.
  intros B L D. pose proof (nslots_bound d B). pose proof (layout_end d L).
  assert (forall i n, Z.of_nat (length (cover d i n)) = sumlen d i n) as Hlen.
  { intros i n. revert i. induction n as [|n IH]; intros i; simpl; [done|].
    rewrite length_app, length_seqZ, Nat2Z.inj_add, IH. pose proof (slen_bound d B i). lia. }
  rewrite <- Hlen. split; [lia|].
  enough (length (cover d 0 (Z.to_nat (nslots d))) <= length (seqZ (fend d) (kPageSize - fend d)))%nat
    by (rewrite length_seqZ in *; lia).
  apply submseteq_length, NoDup_submseteq; [apply NoDup_cover; auto; lia|].
  intros x (j & Hj & Hx)%elem_of_cover. apply elem_of_seqZ.
  destruct (slot_mem d j L) as (? & ? & ? & ?); lia.
Qed.

(** ** Compaction *)

Lemma sumlen_snoc d i n : sumlen d i (S n) = sumlen d i n + slen d (i + Z.of_nat n).
Proof.
  revert i. induction n as [|n IH]; intros i; [simpl; rewrite !Z.add_0_r; lia|].
  change (sumlen d i (S (S n))) with (slen d i + sumlen d (i + 1) (S n)).
  rewrite IH. simpl sumlen. replace (i + 1 + Z.of_nat n) with (i + Z.of_nat (S n)) by lia. lia.
Qed.

Lemma sumlen_mono d i n m :
  buf_ok kPageSize d -> (n <= m)%nat -> sumlen d i n <= sumlen d i m.
Proof.
  intros B. induction 1 as [|m _ IH]; [done|]. rewrite sumlen_snoc.
  pose proof (slen_bound d B (i + Z.of_nat m)). lia.
Qed.

Lemma live_total_spec d n i total :
  buf_ok kPageSize d -> 0 <= i -> 0 <= total -> entry (i + Z.of_nat n) <= kPageSize ->
  total + sumlen d i n <= kPageSize ->
  live_total n i d total = Some (inr (total + sumlen d i n)).
Proof.
  intros B. revert i total. induction n as [|n IH]; intros i total Hi Ht He Hs; simpl in *.
  { do 2 f_equal. lia. }
  reads. fold (slen d i). pose proof (slen_bound d B i).
  assert (0 <= sumlen d (i + 1) n) by (apply (sumlen_mono d (i + 1) 0 n); auto; lia).
  destruct (slen d i =? 0) eqn:E; zb.
  - rewrite IH by slia. do 2 f_equal. lia.
  - replace (_ <? _) with false by lia. rewrite IH by slia. do 2 f_equal. lia.
Qed.

(** The packing loop after slots [0 .. i). *)
Record pack_inv (d0 : list Z) (i : Z) (d scratch : list Z) (de : Z) : Prop := {
  pi_buf : buf_ok kPageSize d;
  pi_scratch : buf_ok kPageSize scratch;
  pi_frame : forall p n, 0 <= p -> 0 <= n -> p + n <= kHeaderSize \/ entry (nslots d0) <= p ->
    sub d p n = sub d0 p n;
  pi_len : forall j, 0 <= j < nslots d0 -> slen d j = slen d0 j;
  pi_todo : forall j, i <= j < nslots d0 -> soff d j = soff d0 j;
  pi_dest : de = kPageSize - sumlen d0 0 (Z.to_nat i);
  pi_done : forall j, 0 <= j < i -> slen d0 j <> 0 ->
    de <= soff d j /\ soff d j + slen d0 j <= kPageSize /\
    sub scratch (soff d j) (slen d0 j) = sub d0 (soff d0 j) (slen d0 j);
  pi_order : forall j k, 0 <= j < k -> k < i -> slen d0 j <> 0 -> slen d0 k <> 0 ->
    soff d k + slen d0 k <= soff d j }.

Section Pack.
Context (d0 : list Z) (B0 : buf_ok kPageSize d0) (L : layout d0) (D : disjoint_slots d0).

Lemma dest_bound i :
  0 <= i <= nslots d0 -> fend d0 <= kPageSize - sumlen d0 0 (Z.to_nat i) <= kPageSize.
Proof.
  intros Hi. pose proof (live_size_bound d0 B0 L D).
  pose proof (sumlen_mono d0 0 0 (Z.to_nat i) B0).
  pose proof (sumlen_mono d0 0 (Z.to_nat i) (Z.to_nat (nslots d0)) B0). simpl in *. lia.
Qed.

Lemma pack_step i d s de :
  0 <= i < nslots d0 -> pack_inv d0 i d s de -> slen d0 i <> 0 ->
  exists s' d', put s (de - slen d0 i) (sub d0 (soff d0 i) (slen d0 i)) = Some s' /\
    WriteU16 d (entry i) (de - slen d0 i) = Some d' /\
    pack_inv d0 (i + 1) d' s' (de - slen d0 i).
Proof.
  intros Hi [Pb Ps Pf Pl Pt Pd Pdone Po] Hl.
  destruct (slot_mem d0 i L Hi Hl) as (? & ? & ? & ?). pose proof (slen_bound d0 B0 i).
  pose proof (dest_bound i). pose proof (dest_bound (i + 1)) as Hnext.
  replace (Z.to_nat (i + 1)) with (S (Z.to_nat i)) in Hnext by lia.
  rewrite sumlen_snoc, Z.add_0_l, Z2Nat.id in Hnext by lia.
  assert (zlen (sub d0 (soff d0 i) (slen d0 i)) = slen d0 i) as Hz.
  { destruct B0. apply zlen_sub; slia. }
  pose proof (fend_bound d0 B0). pose proof (bytes_ok_sub d0 (soff d0 i) (slen d0 i) (proj2 B0)).
  destruct (put_wr kPageSize s (de - slen d0 i) (sub d0 (soff d0 i) (slen d0 i)) Ps)
    as (s' & -> & Ws & Bs); [lia|lia|done|].
  rewrite WriteU16_put.
  destruct (put_wr kPageSize d (entry i) (le_bytes 2 (de - slen d0 i)) Pb)
    as (d' & -> & Wd & Bd); [slia|slia|auto with nexus|].
  exists s', d'. split_and!; [done..|].
  assert (soff d' i = de - slen d0 i) as Eo by (fchase; slia).
  assert (forall j, 0 <= j < nslots d0 -> j <> i -> soff d' j = soff d j) as Ej.
  { intros j Hj Hne. fchase. done. }
  constructor; auto.
  - intros p n Hp Hn Hpn. rewrite <- Pf by done. chase slia. done.
  - intros j Hj. rewrite <- Pl by done. unfold slen. chase slia. done.
  - intros j Hj. rewrite Ej by lia. apply Pt. lia.
  - replace (Z.to_nat (i + 1)) with (S (Z.to_nat i)) by lia.
    rewrite sumlen_snoc, Z.add_0_l, Z2Nat.id by lia. lia.
  - intros j Hj Hjl. destruct (decide (j = i)) as [->|].
    + rewrite Eo. split_and!; [lia|lia|]. chase lia. done.
    + rewrite Ej by lia. destruct (Pdone j) as (? & ? & <-); [lia|done|].
      pose proof (slen_bound d0 B0 j). split_and!; [lia|lia|]. chase lia. done.
  - intros j k Hjk Hk Hjl Hkl. rewrite (Ej j) by lia. destruct (decide (k = i)) as [->|].
    + rewrite Eo. destruct (Pdone j); [lia|done|]. lia.
    + rewrite (Ej k) by lia. apply Po; auto; lia.
Qed.

Lemma pack_spec n i d s de :
  0 <= i -> i + Z.of_nat n = nslots d0 -> pack_inv d0 i d s de ->
  exists d' s' de', pack n i d s de = Some (d', s', de') /\ pack_inv d0 (nslots d0) d' s' de'.
Proof.
  revert i d s de. induction n as [|n IH]; intros i d s de Hi Hn P; simpl.
  { exists d, s, de. split; [done|]. by replace (nslots d0) with i by lia. }
  pose proof P as [Pb Ps Pf Pl Pt Pd Pdone Po].
  pose proof (nslots_bound d0 B0). pose proof (layout_dir d0 L). pose proof (layout_free d0 L).
  pose proof (layout_end d0 L). reads.
  fold (soff d i) (slen d i). rewrite Pt, Pl by lia.
  destruct (slen d0 i =? 0) eqn:E; zb.
  - apply IH; [lia|lia|]. constructor; auto.
    + intros j Hj. apply Pt. lia.
    + replace (Z.to_nat (i + 1)) with (S (Z.to_nat i)) by lia.
      rewrite sumlen_snoc, Z.add_0_l, Z2Nat.id by lia. lia.
    + intros j Hj Hl. apply Pdone; [|done]. destruct (decide (j = i)); [congruence|lia].
    + intros j k Hj Hk Hjl Hkl. apply Po; auto. destruct (decide (k = i)); [congruence|lia].
  - destruct (slot_mem d0 i L) as (? & ? & ? & ?); [lia|done|].
    pose proof (slen_bound d0 B0 i). pose proof (dest_bound i). pose proof (dest_bound (i + 1)) as Hnext.
    replace (Z.to_nat (i + 1)) with (S (Z.to_nat i)) in Hnext by lia.
    rewrite sumlen_snoc, Z.add_0_l, Z2Nat.id in Hnext by lia. pose proof (fend_bound d0 B0).
    destruct (pack_step i d s de) as (s' & d' & E1 & E2 & P'); [lia|done|done|].
    rewrite (wrap_small 64) by slia. rewrite get_in by (destruct Pb; slia). simpl.
    rewrite Pf by slia. rewrite E1. simpl. rewrite (wrap_small 16) by slia. rewrite E2. simpl.
    apply (IH (i + 1)); [lia|lia|done].
Qed.
End Pack.

(** Copying the staged region back, and clearing the reclaimed bytes. *)
Lemma copy_back d s de :
  buf_ok kPageSize d -> buf_ok kPageSize s -> 0 <= de <= kPageSize ->
  exists d', (if 0 <? kPageSize - de then src ← get s de (kPageSize - de); put d de src
              else Some d) = Some d' /\ buf_ok kPageSize d' /\
    (forall p n, 0 <= p -> 0 <= n -> p + n <= de -> sub d' p n = sub d p n) /\
    (forall p n, de <= p -> 0 < n -> p + n <= kPageSize -> sub d' p n = sub s p n).
Proof.
  intros B Bs Hde. destruct (0 <? kPageSize - de) eqn:E; zb.
  - rewrite get_in by (destruct Bs; slia). simpl.
    assert (zlen (sub s de (kPageSize - de)) = kPageSize - de) as Hz
      by (destruct Bs; apply zlen_sub; slia).
    destruct (put_wr kPageSize d de (sub s de (kPageSize - de)) B) as (d2 & -> & W & B2);
      [slia|slia|apply bytes_ok_sub, Bs|]. exists d2. split_and!; [done..| |].
    + intros q n Hq Hn Hqn. chase lia. done.
    + intros q n Hq Hn Hqn. rewrite (wr_sub_inside _ _ _ _ _ _ W) by lia.
      rewrite sub_sub by slia. f_equal. lia.
  - exists d. split_and!; [done..|]. intros. slia.
Qed.

Lemma clear_free d a b :
  buf_ok kPageSize d -> 0 <= a -> b <= kPageSize ->
  exists d', (if a <? b then memset d a 0 (b - a) else Some d) = Some d' /\
    buf_ok kPageSize d' /\
    forall p n, 0 <= p -> 0 <= n -> p + n <= a \/ b <= p -> sub d' p n = sub d p n.
Proof.
  intros B Ha Hb. destruct (a <? b) eqn:E; zb; [|by exists d; split_and!].
  unfold memset. destruct (put_wr kPageSize d a (replicate (Z.to_nat (b - a)) 0) B)
    as (d' & -> & W & B'); rewrite ?zlen_replicate by lia; [slia|slia|
      apply bytes_ok_replicate; unfold byte_ok; lia|]. exists d'. split_and!; [done..|].
  intros q n Hq Hn Hqn. apply (wr_sub_other _ _ _ _ _ _ W); rewrite ?zlen_replicate; lia.
Qed.

Lemma Compact_ok p scratch :
  wf p -> buf_ok kPageSize scratch ->
  exists d', Compact scratch (Some p) = Some (StatusOk, Some (MarkDirty (set_data p d'))) /\
    wf (MarkDirty (set_data p d')) /\
    records d' = records (page_data p) /\ fstart d' = fstart (page_data p) /\
    fend d' = kPageSize - live_size (records (page_data p)).
Proof.
  intros (B & L & D) Bs. unfold Compact, wf. simpl. set (d := page_data p) in *.
  rewrite live_size_records by done. pose proof (live_size_bound d B L D).
  pose proof L as L0. validated B L0. reads. fold (nslots d) (fstart d).
  rewrite live_total_spec by (auto; slia). simpl.
  rewrite (wrap_small 64) by slia. replace (_ <? _) with false by slia.
  destruct (pack_spec d B L D (Z.to_nat (nslots d)) 0 d scratch kPageSize)
    as (d1 & s1 & de & -> & [Pb Ps Pf Pl _ Pd Pdone Po]); [lia|lia|constructor; simpl; auto; lia|].
  simpl. rewrite (wrap_small 64) by slia. rewrite (wrap_small 16) by slia.
  destruct (copy_back d1 s1 de Pb Ps) as (d2 & -> & B2 & F2 & R2); [slia|]. simpl. wstep.
  destruct (clear_free d0 (fstart d) de B0) as (d4 & -> & B4 & F4); [lia|slia|].
  exists d4. split; [done|].
  assert (nslots d4 = nslots d) as En.
  { unfold nslots, field. rewrite F4 by slia. chase slia. rewrite F2, Pf by slia. done. }
  assert (fstart d4 = fstart d) as Es.
  { unfold fstart, field. rewrite F4 by slia. chase slia. rewrite F2, Pf by slia. done. }
  assert (fend d4 = de) as Ee.
  { unfold fend, field. rewrite F4 by slia. fold (field 2 d0 kOffFreeEnd). chase slia. done. }
  assert (forall j, 0 <= j < nslots d -> soff d4 j = soff d1 j /\ slen d4 j = slen d j) as Ej.
  { intros j Hj. rewrite <- (Pl j) by done. unfold soff, slen, field.
    split; rewrite F4 by slia; chase slia; rewrite F2 by slia; done. }
  split_and!; [done|..|done|by rewrite Ee].
  - constructor; [rewrite F4 by slia; chase slia; rewrite F2, Pf by slia; done
      |unfold field; rewrite F4 by slia; chase slia; rewrite F2, Pf by slia; done|..];
      rewrite ?En, ?Es, ?Ee; [slia..|].
    intros j Hj. unfold slot_in_region. destruct (Ej j Hj) as [-> ->]. intros Hl.
    destruct (Pdone j Hj Hl). lia.
  - intros j k Hj Hk Hjk. rewrite En in Hj, Hk.
    destruct (Ej j Hj) as [-> ->], (Ej k Hk) as [-> ->]. intros Hl Hl'.
    destruct (decide (j < k)); [right; apply Po; auto; lia|left; apply Po; auto; lia].
  - unfold records. rewrite En. apply list_fmap_ext. intros k j Hk.
    apply lookup_seqZ in Hk. destruct (Ej j) as [Eo El]; [lia|].
    apply view_ext; [done|]. intros Hl. rewrite Eo, El.
    destruct (Pdone j) as (? & ? & <-); [lia|done|]. pose proof (slen_bound d B j).
    rewrite F4 by slia. chase slia. apply R2; lia.
Qed.

(** ** Reading, scanning and initialising *)

Lemma Init_ok p :
  zlen (page_data p) = kPageSize ->
  exists d', Init (Some p) = Some (StatusOk, Some (MarkDirty (set_data p d'))) /\
    wf (MarkDirty (set_data p d')) /\ abs (MarkDirty (set_data p d')) = MkSpage [] kHeaderSize kPageSize.
Proof.
  intros Hl. unfold Init. rewrite memset_in by slia. cbn [mbind option_bind].
  set (d := splice _ 0 _).
  assert (buf_ok kPageSize d) as B.
  { unfold d, splice. rewrite length_replicate. change (Z.to_nat 0) with 0%nat.
    rewrite Nat.add_0_l, take_0, app_nil_l, drop_ge by (unfold zlen in Hl; lia). rewrite app_nil_r.
    split; [by apply zlen_replicate|apply bytes_ok_replicate; unfold byte_ok; lia]. }
  clearbody d. rewrite !(wrap_small 16) by slia.
  do 4 (match goal with B : buf_ok kPageSize ?d |- context [put ?d ?off ?src] =>
    let d' := fresh "d" in let E := fresh "E" in let W := fresh "W" in let B' := fresh "B" in
    destruct (put_wr kPageSize d off src B) as (d' & E & W & B');
      [slia|slia|constructor; [unfold byte_ok; lia|constructor]
      |rewrite E; clear E; cbn [mbind option_bind]] end).
  do 5 wstep. exists d8. split; [done|]. unfold wf, abs. simpl.
  assert (nslots d8 = 0) as En by (fchase; done).
  assert (fstart d8 = kHeaderSize) as Es by (fchase; done).
  assert (fend d8 = kPageSize) as Ee by (fchase; done).
  split_and!; [done|..].
  - constructor; [|fchase; done|rewrite En, Es; slia|rewrite Es, Ee; slia|rewrite Ee; done|].
    + chase slia. rewrite (sub_app_split _ 0 1 3), (sub_app_split _ (0 + 1) 1 2),
        (sub_app_split _ (0 + 1 + 1) 1 1) by lia. chase slia. done.
    + intros i. rewrite En. lia.
  - intros i j. rewrite En. lia.
  - unfold records. by rewrite En, Es, Ee.
Qed.

Lemma Read_spec p slot :
  buf_ok kPageSize (page_data p) -> layout (page_data p) -> 0 <= slot ->
  Read (Some p) slot = Some
    match records (page_data p) !! Z.to_nat slot with
    | None => (Bad "SlottedPage::Read: slot index out of range", None)
    | Some None => (StatusError kNotFound "slot is deleted", None)
    | Some (Some r) => (StatusOk, Some r)
    end.
Proof.
  intros B L Hs. unfold Read. set (d := page_data p) in *. pose proof L as L0.
  validated B L0. reads. fold (nslots d). rewrite records_lookup by done.
  destruct (nslots d <=? slot) eqn:E; zb; [done|]. reads.
  fold (soff d slot) (slen d slot). unfold view.
  destruct (slen d slot =? 0) eqn:E'; zb; [done|].
  destruct (slot_mem d slot L) as (? & ? & ? & ?); [lia|done|].
  pose proof (slen_bound d B slot). destruct B. rewrite get_in by slia. done.
Qed.

(** What a scan does to its context: the live records in slot order, up to and
    including the first one for which the callback returns [false]. *)
Section ScanSpec.
Context {C : Type} (fn : Z -> list Z -> C -> bool * C).

Fixpoint scan_spec (i : Z) (l : list (option (list Z))) (ctx : C) : C :=
  match l with
  | [] => ctx
  | None :: l => scan_spec (i + 1) l ctx
  | Some r :: l => let '(go, ctx) := fn i r ctx in
                   if go then scan_spec (i + 1) l ctx else ctx
  end.

Lemma Scan_slots_spec d n i ctx :
  buf_ok kPageSize d -> layout d -> 0 <= i -> i + Z.of_nat n <= nslots d ->
  Scan_slots fn n i d ctx = Some (scan_spec i (view d <$> seqZ i (Z.of_nat n)) ctx).
Proof.
  intros B L. revert i ctx. induction n as [|n IH]; intros i ctx Hi Hn; [done|].
  rewrite seqZ_cons by lia. replace (Z.pred (Z.of_nat (S n))) with (Z.of_nat n) by lia.
  replace (Z.succ i) with (i + 1) by lia. cbn [Scan_slots fmap list_fmap scan_spec].
  pose proof (nslots_bound d B). pose proof L as [_ _ ? ? ? _]. reads.
  fold (soff d i) (slen d i). unfold view at 1.
  destruct (slen d i =? 0) eqn:E; zb; [apply IH; lia|].
  destruct (slot_mem d i L) as (? & ? & ? & ?); [lia|done|].
  pose proof (slen_bound d B i). pose proof B as [? _]. rewrite get_in by slia. simpl.
  rewrite wrap_small by slia.
  destruct (fn i _ ctx) as [[] c]; [apply IH; lia|done].
Qed.

Lemma Scan_spec p ctx :
  buf_ok kPageSize (page_data p) -> layout (page_data p) ->
  Scan fn (Some p) ctx = Some (StatusOk, scan_spec 0 (records (page_data p)) ctx).
Proof.
  intros B L. unfold Scan. pose proof L as L0. validated B L0. reads. fold (nslots (page_data p)).
  rewrite Scan_slots_spec by (auto; lia). simpl. unfold records. by rewrite Z2Nat.id by lia.
Qed.
End ScanSpec.

Lemma live_loop_spec d n i live :
  buf_ok kPageSize d -> layout d -> 0 <= i -> i + Z.of_nat n <= nslots d ->
  0 <= live <= i ->
  live_loop n i d live = Some (live + zlen (filter is_Some (view d <$> seqZ i (Z.of_nat n)))).
Proof.
  intros B L. revert i live. induction n as [|n IH]; intros i live Hi Hn Hl.
  { simpl. f_equal. change (zlen _) with 0. lia. }
  rewrite seqZ_cons by lia. replace (Z.pred (Z.of_nat (S n))) with (Z.of_nat n) by lia.
  replace (Z.succ i) with (i + 1) by lia. cbn [live_loop fmap list_fmap].
  pose proof (nslots_bound d B). pose proof L as [_ _ ? ? ? _]. reads. fold (slen d i).
  rewrite filter_cons, !wrap_small by slia.
  destruct (slen d i =? 0) eqn:E; (rewrite IH by lia).
  - rewrite decide_False; [done|]. unfold view. rewrite E. by intros [? ?].
  - rewrite decide_True; [rewrite zlen_cons; f_equal; lia|]. unfold view. by rewrite E.
Qed.

(** ** Safety on arbitrary bytes *)

(** Every slot of a laid-out page is in range, whether or not slots overlap. *)
Lemma pack_safe n i d s de :
  buf_ok kPageSize d -> buf_ok kPageSize s -> 0 <= i -> entry (i + Z.of_nat n) <= kPageSize ->
  (forall j, i <= j < i + Z.of_nat n -> slen d j <> 0 -> soff d j + slen d j <= kPageSize) ->
  sumlen d i n <= de <= kPageSize ->
  exists d' s' de', pack n i d s de = Some (d', s', de') /\
    buf_ok kPageSize d' /\ buf_ok kPageSize s' /\ 0 <= de' <= kPageSize.
Proof.
  revert i d s de. induction n as [|n IH]; intros i d s de B Bs Hi He Hs Hde; simpl in *.
  { exists d, s, de. split_and!; [done..|lia|lia]. }
  reads. fold (soff d i) (slen d i).
  pose proof (slen_bound d B i). pose proof (soff_bound d B i).
  assert (0 <= sumlen d (i + 1) n) by (apply (sumlen_mono d (i + 1) 0 n); auto; lia).
  destruct (slen d i =? 0) eqn:E; zb.
  { apply IH; auto; [lia|slia|intros; apply Hs; lia|lia]. }
  pose proof (Hs i ltac:(lia) E). rewrite (wrap_small 64) by slia.
  pose proof B as [Hz Hb]. rewrite get_in by lia. simpl.
  assert (zlen (sub d (soff d i) (slen d i)) = slen d i) by (apply zlen_sub; lia).
  pose proof (bytes_ok_sub d (soff d i) (slen d i) Hb).
  destruct (put_wr kPageSize s (de - slen d i) (sub d (soff d i) (slen d i)) Bs)
    as (s' & -> & _ & Bs'); [lia|lia|done|]. simpl. wstep.
  assert (forall j, i < j -> soff d0 j = soff d j /\ slen d0 j = slen d j) as Ej.
  { intros j Hj. split; fchase; done. }
  assert (sumlen d0 (i + 1) n = sumlen d (i + 1) n) as Esum.
  { assert (forall m k, i < k -> sumlen d0 k m = sumlen d k m) as Hk; [|apply Hk; lia].
    induction m as [|m IHm]; intros k Hk; simpl; [done|].
    destruct (Ej k Hk) as [_ ->]. rewrite IHm by lia. done. }
  apply IH; auto; [lia|slia| |lia].
  intros j Hj. destruct (Ej j) as [-> ->]; [lia|]. apply Hs. lia.
Qed.

Lemma live_total_cases n i d total :
  buf_ok kPageSize d -> 0 <= i -> entry (i + Z.of_nat n) <= kPageSize ->
  (exists s, live_total n i d total = Some (inl s)) \/
  live_total n i d total = Some (inr (total + sumlen d i n)).
Proof.
  intros B. revert i total. induction n as [|n IH]; intros i total Hi He; simpl in *.
  { right. do 2 f_equal. lia. }
  reads. fold (slen d i). destruct (slen d i =? 0) eqn:E; zb.
  - destruct (IH (i + 1) total) as [[s ->]| ->]; [lia|slia|eauto|].
    right. do 2 f_equal. lia.
  - destruct (kPageSize <? total + slen d i); [eauto|].
    destruct (IH (i + 1) (total + slen d i)) as [[s ->]| ->]; [lia|slia|eauto|].
    right. do 2 f_equal. lia.
Qed.

Section Safe.
Context (p : Page) (B : buf_ok kPageSize (page_data p)).

Lemma Insert_safe data : bytes_ok data -> exists r, Insert (Some p) (Some data) = Some r.
Proof.
  intros Hb. unfold Insert. simpl default. set (d := page_data p) in *. pose proof (zlen_nonneg data).
  destruct (zlen data =? 0) eqn:?; [eauto|]. destruct (kMaxRecordSize <? _) eqn:?; [eauto|]. zb.
  destruct (ValidateData_spec d B) as [[-> L]|(msg & -> & _)]; simpl; [|eauto].
  pose proof (nslots_bound d B). destruct L as [_ _ ? ? ? _]. reads.
  fold (nslots d) (fstart d) (fend d). rewrite (wrap_small 64) by slia.
  destruct (_ <? _) eqn:?; [eauto|]. zb. rewrite (wrap_small 64) by slia. do 6 wstep. eauto.
Qed.

Lemma Update_safe slot data :
  0 <= slot -> bytes_ok data -> exists r, Update (Some p) slot (Some data) = Some r.
Proof.
  intros Hs Hb. unfold Update. simpl default. set (d := page_data p) in *. pose proof (zlen_nonneg data).
  destruct (zlen data =? 0) eqn:?; [eauto|]. destruct (kMaxRecordSize <? _) eqn:?; [eauto|]. zb.
  destruct (ValidateData_spec d B) as [[-> L]|(msg & -> & _)]; simpl; [|eauto].
  pose proof (nslots_bound d B). pose proof (fstart_bound d B). pose proof L as [_ _ ? ? ? _].
  reads. fold (nslots d). destruct (nslots d <=? slot) eqn:?; [eauto|]. zb. reads.
  fold (soff d slot) (slen d slot) (fstart d) (fend d).
  destruct (slen d slot =? 0) eqn:?; [eauto|]. zb.
  destruct (slot_mem d slot L) as (? & ? & ? & ?); [lia|done|].
  destruct (zlen data <=? _) eqn:?; zb; [do 2 wstep; eauto|].
  rewrite (wrap_small 64) by slia. destruct (_ <? _) eqn:?; [eauto|]. zb.
  rewrite (wrap_small 64) by slia. do 4 wstep. eauto.
Qed.

Lemma Delete_safe slot : 0 <= slot -> exists r, Delete (Some p) slot = Some r.
Proof.
  intros Hs. unfold Delete. set (d := page_data p) in *.
  destruct (ValidateData_spec d B) as [[-> L]|(msg & -> & _)]; simpl; [|eauto].
  pose proof (nslots_bound d B). destruct L as [_ _ ? ? ? _]. reads. fold (nslots d).
  destruct (nslots d <=? slot) eqn:?; [eauto|]. zb. reads.
  destruct (_ =? 0); [eauto|]. do 2 wstep. eauto.
Qed.

Lemma Compact_safe scratch :
  buf_ok kPageSize scratch -> exists r, Compact scratch (Some p) = Some r.
Proof.
  intros Bs. unfold Compact. set (d := page_data p) in *.
  destruct (ValidateData_spec d B) as [[-> L]|(msg & -> & _)]; cbn [mbind option_bind]; [|eauto].
  pose proof (nslots_bound d B). pose proof (fstart_bound d B). pose proof L as [_ _ ? ? ? Ls].
  replace (ok StatusOk) with true by done. cbn [negb]. reads. fold (nslots d) (fstart d).
  destruct (live_total_cases (Z.to_nat (nslots d)) 0 d 0 B) as [[s ->]| ->]; [lia|slia|simpl; eauto|].
  simpl. rewrite (wrap_small 64) by slia. destruct (_ <? _) eqn:?; [eauto|]. zb.
  destruct (pack_safe (Z.to_nat (nslots d)) 0 d scratch kPageSize)
    as (d1 & s1 & de & -> & B1 & B2 & Hde); auto; [lia|slia| |slia|].
  { intros j Hj Hl. destruct (Ls j); [lia|done|done]. }
  simpl. rewrite (wrap_small 64) by slia.
  destruct (copy_back d1 s1 de B1 B2 Hde) as (d2 & -> & B3 & _). simpl. wstep.
  destruct (clear_free d0 (fstart d) de B0) as (d4 & -> & _); [lia|slia|]. simpl. eauto.
Qed.

Lemma Read_safe slot : 0 <= slot -> exists r, Read (Some p) slot = Some r.
Proof.
  intros Hs. destruct (ValidateData_spec _ B) as [[_ L]|(msg & E & _)].
  - rewrite Read_spec by done. eauto.
  - unfold Read. rewrite E. simpl. eauto.
Qed.

Lemma Scan_safe {C} (fn : Z -> list Z -> C -> bool * C) ctx :
  exists r, Scan fn (Some p) ctx = Some r.
Proof.
  destruct (ValidateData_spec _ B) as [[_ L]|(msg & E & _)].
  - rewrite Scan_spec by done. eauto.
  - unfold Scan. rewrite E. simpl. eauto.
Qed.

Lemma exec_safe scratch o :
  buf_ok kPageSize scratch -> op_ok o -> exists r, exec scratch o p = Some r.
Proof.
  intros Bs Ho. destruct o as [data|slot data|slot|]; unfold op_ok in Ho; cbn [exec].
  - by apply Insert_safe.
  - destruct (Update_safe slot data) as [[s q] ->]; [lia|tauto|]. eauto.
  - destruct (Delete_safe slot) as [[s q] ->]; [lia|]. eauto.
  - destruct (Compact_safe scratch Bs) as [[s q] ->]. eauto.
Qed.
End Safe.

(** ** Refinement *)

Definition refines (p : Page) (impl : option (Status * option Page * Z))
    (spec : DbError * spage * Z) : Prop :=
  exists s q r, impl = Some (s, Some q, r) /\ wf q /\ page_id q = page_id p /\
    spec = (code s, abs q, r) /\ (if ok s then page_dirty q = true else q = p).

Section Refine.
Context (p : Page) (W : wf p).

Lemma refines_err s r : code s <> kOk -> refines p (Some (s, Some p, r)) (code s, abs p, r).
Proof.
  intros Hs. exists s, p, r. split_and!; auto. unfold ok. by rewrite bool_decide_false.
Qed.

Lemma refines_ok d' slots hi r lo :
  wf (MarkDirty (set_data p d')) -> records d' = slots -> fstart d' = lo -> fend d' = hi ->
  refines p (Some (StatusOk, Some (MarkDirty (set_data p d')), r)) (kOk, MkSpage slots lo hi, r).
Proof.
  intros Hw <- <- <-. eexists _, _, _. by split_and!.
Qed.

Lemma Insert_refines data :
  bytes_ok data -> refines p (Insert (Some p) (Some data)) (spec_step (OpInsert data) (abs p)).
Proof.
  intros Hb. pose proof W as (B & L & D). pose proof (zlen_nonneg data).
  pose proof L as [_ _ ? ? ? _]. pose proof (nslots_bound _ B).
  cbn [spec_step]. cbn [abs sp_hi sp_lo sp_slots].
  destruct (zlen data =? 0) eqn:E0.
  { unfold Insert. simpl default. rewrite E0. by apply (refines_err (Bad _)). }
  destruct (kMaxRecordSize <? zlen data) eqn:E1.
  { unfold Insert. simpl default. rewrite E0, E1. by apply (refines_err (StatusError _ _)). }
  destruct (_ - _ <? _) eqn:E2; zb.
  - unfold Insert. simpl default. replace (zlen data =? 0) with false by lia.
    replace (kMaxRecordSize <? zlen data) with false by lia.
    rewrite ValidateData_ok by done. simpl. reads.
    fold (nslots (page_data p)) (fstart (page_data p)) (fend (page_data p)).
    rewrite (wrap_small 64) by slia. replace (_ <? _) with true by lia.
    by apply (refines_err (StatusError _ _)).
  - destruct (Insert_ok p data) as (d' & -> & Hw & Hr & Hs & He); auto; [lia..|].
    rewrite zlen_records by done. by apply refines_ok.
Qed.

Lemma Update_refines slot data :
  0 <= slot -> bytes_ok data ->
  refines p ('(s, q) ← Update (Some p) slot (Some data); Some (s, q, 0))
    (spec_step (OpUpdate slot data) (abs p)).
Proof.
  intros Hs Hb. pose proof W as (B & L & D). pose proof (zlen_nonneg data).
  pose proof L as [_ _ ? ? ? _]. pose proof (nslots_bound _ B).
  cbn [spec_step]. cbn [abs sp_hi sp_lo sp_slots]. rewrite records_lookup by done.
  destruct (zlen data =? 0) eqn:E0.
  { unfold Update. simpl default. rewrite E0. by apply (refines_err (Bad _)). }
  destruct (kMaxRecordSize <? zlen data) eqn:E1.
  { unfold Update. simpl default. rewrite E0, E1. by apply (refines_err (StatusError _ _)). }
  destruct (nslots (page_data p) <=? slot) eqn:E2.
  { unfold Update. simpl default. rewrite E0, E1, ValidateData_ok by done. simpl. reads.
    fold (nslots (page_data p)). rewrite E2. by apply (refines_err (Bad _)). }
  zb. pose proof (slen_bound _ B slot). destruct (view (page_data p) slot) as [old|] eqn:Ev.
  - assert (slen (page_data p) slot <> 0 /\ zlen old = slen (page_data p) slot) as [Hl ->].
    { rewrite <- (zlen_view _ slot) at 2 by (auto; lia). rewrite Ev. split; [|done].
      unfold view in Ev. by destruct (slen (page_data p) slot =? 0) eqn:?; zb. }
    destruct (_ <=? _) eqn:E3; zb.
    { destruct (Update_inplace_ok p slot data) as (d' & -> & Hw & Hr & Hs' & He); auto; [lia..|].
      by apply refines_ok. }
    destruct (_ - _ <? _) eqn:E4; zb.
    + unfold Update. simpl default. replace (zlen data =? 0) with false by lia.
      replace (kMaxRecordSize <? zlen data) with false by lia.
      rewrite ValidateData_ok by done. simpl. reads. fold (nslots (page_data p)).
      replace (_ <=? slot) with false by lia. reads.
      fold (soff (page_data p) slot) (slen (page_data p) slot) (fend (page_data p)) (fstart (page_data p)).
      replace (_ =? 0) with false by lia. replace (zlen data <=? _) with false by lia.
      rewrite (wrap_small 64) by slia. replace (_ <? _) with true by lia.
      by apply (refines_err (StatusError _ _)).
    + destruct (Update_grow_ok p slot data) as (d' & -> & Hw & Hr & Hs' & He); auto; [lia..|].
      by apply refines_ok.
  - unfold Update. simpl default. replace (zlen data =? 0) with false by lia.
    replace (kMaxRecordSize <? zlen data) with false by lia.
    rewrite ValidateData_ok by done. simpl. reads. fold (nslots (page_data p)).
    replace (_ <=? slot) with false by lia. reads. fold (slen (page_data p) slot).
    unfold view in Ev. destruct (slen _ slot =? 0); [|done].
    by apply (refines_err (StatusError _ _)).
Qed.

Lemma Delete_refines slot :
  0 <= slot -> refines p ('(s, q) ← Delete (Some p) slot; Some (s, q, 0))
    (spec_step (OpDelete slot) (abs p)).
Proof.
  intros Hs. pose proof W as (B & L & D). pose proof L as [_ _ ? ? ? _].
  pose proof (nslots_bound _ B).
  cbn [spec_step]. cbn [abs sp_hi sp_lo sp_slots]. rewrite records_lookup by done.
  destruct (nslots (page_data p) <=? slot) eqn:E2.
  { unfold Delete. rewrite ValidateData_ok by done. simpl. reads.
    fold (nslots (page_data p)). rewrite E2. by apply (refines_err (Bad _)). }
  zb. unfold view. destruct (slen (page_data p) slot =? 0) eqn:E3.
  - unfold Delete. rewrite ValidateData_ok by done. simpl. reads. fold (nslots (page_data p)).
    replace (_ <=? slot) with false by lia. reads. fold (slen (page_data p) slot). rewrite E3.
    by apply (refines_err (StatusError _ _)).
  - zb. destruct (Delete_ok p slot) as (d' & -> & Hw & Hr & Hf & He); auto; [lia..|].
    by apply refines_ok.
Qed.

Lemma Compact_refines scratch :
  buf_ok kPageSize scratch -> refines p ('(s, q) ← Compact scratch (Some p); Some (s, q, 0))
    (spec_step OpCompact (abs p)).
Proof.
  intros Bs. destruct (Compact_ok p scratch W Bs) as (d' & -> & Hw & Hr & Hs & He).
  by apply refines_ok.
Qed.

Lemma exec_refines_step scratch o :
  buf_ok kPageSize scratch -> op_ok o -> refines p (exec scratch o p) (spec_step o (abs p)).
Proof.
  intros Bs Ho. destruct o as [data|slot data|slot|]; unfold op_ok in Ho; cbn [exec].
  - by apply Insert_refines.
  - apply Update_refines; [lia|tauto].
  - apply Delete_refines. lia.
  - by apply Compact_refines.
Qed.
End Refine.

(** Sequences of operations, on the bytes and on the abstract page.  The first
    component collects the result codes and slot ids. *)
Fixpoint run (scratch : list Z) (os : list sp_op) (p : Page)
    : option (list (DbError * Z) * Page) :=
  match os with
  | [] => Some ([], p)
  | o :: os =>
      '(s, q, r) ← exec scratch o p;
      q ← q;
      '(rs, q) ← run scratch os q;
      Some ((code s, r) :: rs, q)
  end.

Fixpoint spec_run (os : list sp_op) (a : spage) : list (DbError * Z) * spage :=
  match os with
  | [] => ([], a)
  | o :: os => let '(c, a, r) := spec_step o a in
               let '(rs, a) := spec_run os a in ((c, r) :: rs, a)
  end.

Lemma run_refines scratch os p :
  wf p -> buf_ok kPageSize scratch -> Forall op_ok os ->
  exists q, run scratch os p = Some (fst (spec_run os (abs p)), q) /\
    wf q /\ abs q = snd (spec_run os (abs p)).
Proof.
  intros W Bs Hos. revert p W. induction Hos as [|o os Ho Hos IH]; intros p W; simpl.
  { by exists p. }
  destruct (exec_refines_step p W scratch o Bs Ho) as (s & q & r & -> & Wq & _ & -> & _).
  simpl. destruct (IH q Wq) as (q' & -> & Wq' & Ha). simpl.
  destruct (spec_run os (abs q)) as [rs a]. by exists q'.
Qed.

(** ** Theorems *)

Definition zero_page (id : Z) : Page := PageOf id.
Definition zero_scratch : list Z := replicate (Z.to_nat kPageSize) 0.

Lemma zero_page_buf id : buf_ok kPageSize (page_data (zero_page id)).
Proof.
  split; [by apply zlen_replicate|apply bytes_ok_replicate; unfold byte_ok; lia].
Qed.

Lemma zero_scratch_buf : buf_ok kPageSize zero_scratch.
Proof. apply (zero_page_buf 0). Qed.

Ltac bytes_tac := repeat (constructor; [unfold byte_ok; lia|]); constructor.

(** C17: Refinement.  Start from any 4096-byte page, initialise it, and run any
    sequence of Insert, Update, Delete and Compact calls with arguments in the
    range of their types: no access is out of bounds, every result code and
    slot id is the one the abstract slot list prescribes, and afterwards Read
    and Scan return exactly the abstract slots (out of range, deleted, or the
    record), whatever was in the uninitialised scratch buffer of Compact. *)
Theorem slotted_page_refines_slots p scratch os :
  zlen (page_data p) = kPageSize -> buf_ok kPageSize scratch -> Forall op_ok os ->
  exists p0 q, Init (Some p) = Some (StatusOk, Some p0) /\
    let spec := spec_run os (MkSpage [] kHeaderSize kPageSize) in
    run scratch os p0 = Some (fst spec, q) /\
    Validate (Some q) = Some StatusOk /\
    (forall slot, 0 <= slot -> Read (Some q) slot = Some
       match sp_slots (snd spec) !! Z.to_nat slot with
       | None => (Bad "SlottedPage::Read: slot index out of range", None)
       | Some None => (StatusError kNotFound "slot is deleted", None)
       | Some (Some r) => (StatusOk, Some r)
       end) /\
    (forall C (fn : Z -> list Z -> C -> bool * C) ctx,
       Scan fn (Some q) ctx = Some (StatusOk, scan_spec fn 0 (sp_slots (snd spec)) ctx)).
Proof.
  intros Hp Bs Hos. destruct (Init_ok p Hp) as (d' & HI & W & Ha).
  destruct (run_refines scratch os _ W Bs Hos) as (q & Hr & (B & L & D) & Hq).
  rewrite Ha in Hr, Hq. exists (MarkDirty (set_data p d')), q. split; [done|]. cbn zeta.
  rewrite <- Hq. split_and!; [done|by apply ValidateData_ok|..].
  - intros slot Hs. by apply Read_spec.
  - intros C fn ctx. by apply Scan_spec.
Qed.

Lemma slotted_page_refines_slots_witness :
  exists q, run zero_scratch
      [OpInsert [1; 2; 3]; OpInsert [7; 7]; OpUpdate 0 [9; 9; 9; 9; 9]; OpDelete 1; OpCompact]
      (MarkDirty (set_data (zero_page 5) (default [] (x ← Init (Some (zero_page 5)); q ← x.2; Some (page_data q)))))
    = Some ([(kOk, 0); (kOk, 1); (kOk, 0); (kOk, 0); (kOk, 0)], q) /\
    Read (Some q) 0 = Some (StatusOk, Some [9; 9; 9; 9; 9]).
Proof.
  destruct (slotted_page_refines_slots (zero_page 5) zero_scratch
    [OpInsert [1; 2; 3]; OpInsert [7; 7]; OpUpdate 0 [9; 9; 9; 9; 9]; OpDelete 1; OpCompact]
    (proj1 (zero_page_buf 5)) zero_scratch_buf) as (p0 & q & HI & Hr & _ & Hread & _).
  { repeat constructor; unfold byte_ok, kInvalidSlot; try lia; bytes_tac. }
  exists q. split; [|by rewrite (Hread 0 ltac:(lia))].
  destruct (Init_ok (zero_page 5) (proj1 (zero_page_buf 5))) as (d' & HI' & _).
  rewrite HI' in HI |- *. injection HI as <-. exact Hr.
Defined.

(** C18: Safety.  On any 4096-byte page content, including a corrupt header or
    slot directory, no operation ever accesses a byte outside the page (or the
    scratch) buffer: each returns a status. *)
Theorem slotted_page_no_out_of_bounds p scratch o slot :
  buf_ok kPageSize (page_data p) -> buf_ok kPageSize scratch -> op_ok o -> 0 <= slot ->
  (exists r, exec scratch o p = Some r) /\
  (exists r, Validate (Some p) = Some r) /\
  (exists r, Read (Some p) slot = Some r) /\
  (forall C (fn : Z -> list Z -> C -> bool * C) ctx, exists r, Scan fn (Some p) ctx = Some r).
Proof.
  intros B Bs Ho Hs. split_and!.
  - by apply exec_safe.
  - destruct (ValidateData_spec _ B) as [[E _]|(msg & E & _)]; simpl; eauto.
  - by apply Read_safe.
  - intros C fn ctx. by apply Scan_safe.
Qed.

(** A page of 0xFF bytes behind a correct magic number and version. *)
Definition corrupt_page : Page :=
  MkPage 3 false (kMagic ++ [1; 0] ++ replicate (Z.to_nat (kPageSize - 6)) 255).

Lemma corrupt_page_buf : buf_ok kPageSize (page_data corrupt_page).
Proof.
  unfold corrupt_page. cbn [page_data]. split.
  - rewrite !zlen_app, zlen_replicate by slia. done.
  - repeat apply Forall_app_2; [bytes_tac..|].
    apply bytes_ok_replicate. unfold byte_ok. lia.
Qed.

Lemma slotted_page_no_out_of_bounds_witness :
  exists r, exec zero_scratch OpCompact corrupt_page = Some r.
Proof.
  apply (slotted_page_no_out_of_bounds corrupt_page zero_scratch OpCompact 0
    corrupt_page_buf zero_scratch_buf I). lia.
Defined.

(** C19: Validation.  Validate succeeds exactly on the pages that satisfy the
    layout invariants listed in slotted_page.h (magic, version, directory below
    the free region, free region inside the page, live slots inside the record
    region), and otherwise reports kInvalidArgument. *)
Theorem validate_decides_layout p :
  buf_ok kPageSize (page_data p) ->
  (Validate (Some p) = Some StatusOk <-> layout (page_data p)) /\
  exists s, Validate (Some p) = Some s /\ (code s = kOk \/ code s = kInvalidArgument).
Proof.
  intros B. unfold Validate.
  destruct (ValidateData_spec _ B) as [[E L]|(msg & E & L)]; rewrite E.
  - split; [done|]. exists StatusOk. auto.
  - split; [|exists (Bad msg); auto]. split; [|done]. intros H. discriminate.
Qed.

Lemma validate_decides_layout_witness : ~ layout (page_data corrupt_page).
Proof.
  intros L%(validate_decides_layout corrupt_page corrupt_page_buf).
  vm_compute in L. discriminate.
Defined.

(** Compaction.  On a well-formed page Compact succeeds, keeps every slot id
    and every record, and leaves as contiguous free space all the bytes above
    the directory that no live record occupies; an insertion that fits in that
    space then succeeds and returns the next slot id. *)
Theorem compact_reclaims p scratch data :
  wf p -> buf_ok kPageSize scratch -> bytes_ok data -> 0 < zlen data ->
  kSlotEntrySize + zlen data <=
    kPageSize - fstart (page_data p) - live_size (records (page_data p)) ->
  exists q q', Compact scratch (Some p) = Some (StatusOk, Some q) /\
    records (page_data q) = records (page_data p) /\
    free_bytes (Some q) = Some (kPageSize - fstart (page_data p) - live_size (records (page_data p))) /\
    Insert (Some q) (Some data) = Some (StatusOk, Some q', zlen (records (page_data p))) /\
    records (page_data q') = records (page_data p) ++ [Some data].
Proof.
  intros W Bs Hb Hd Hfit. destruct (Compact_ok p scratch W Bs) as (d' & HC & W' & Hr & Hs & He).
  pose proof W' as (B' & [_ _ ? ? ? _] & _). cbn [page_data MarkDirty set_data] in *.
  pose proof (nslots_bound d' B'). pose proof (fend_bound d' B').
  destruct (Insert_ok _ data W') as (d'' & HI & _ & Hr' & _); cbn [page_data MarkDirty set_data]; auto; [lia|].
  eexists _, _. split_and!; [done|done| | |].
  - unfold free_bytes. simpl. reads. fold (fstart d') (fend d').
    replace (_ || _)%bool with false by lia. rewrite wrap_small by slia. f_equal. lia.
  - rewrite HI, <- Hr. by rewrite zlen_records.
  - simpl in *. congruence.
Qed.

Lemma compact_reclaims_witness :
  exists p q q', Init (Some (zero_page 0)) = Some (StatusOk, Some p) /\
    Compact zero_scratch (Some p) = Some (StatusOk, Some q) /\
    Insert (Some q) (Some [4; 5]) = Some (StatusOk, Some q', 0).
Proof.
  destruct (Init_ok (zero_page 0) (proj1 (zero_page_buf 0))) as (d' & HI & W & Ha).
  injection Ha as Hr Hs _.
  destruct (compact_reclaims _ zero_scratch [4; 5] W zero_scratch_buf) as (q & q' & HC & _ & _ & HQ & _).
  - bytes_tac.
  - done.
  - cbn [page_data MarkDirty set_data] in *. rewrite Hr, Hs. by vm_compute.
  - cbn [page_data MarkDirty set_data] in *. rewrite Hr in HQ.
    eexists _, q, q'. split_and!; [exact HI|exact HC|exact HQ].
Defined.

(** Accessors.  On a page that passes validation slot_count is the length of
    the slot list, live_count the number of its records that are not
    tombstones, and free_bytes the size of the gap between the directory and
    the records. *)
Theorem accessors_agree p :
  buf_ok kPageSize (page_data p) -> layout (page_data p) ->
  slot_count (Some p) = Some (zlen (records (page_data p))) /\
  live_count (Some p) = Some (zlen (filter is_Some (records (page_data p)))) /\
  free_bytes (Some p) = Some (fend (page_data p) - fstart (page_data p)).
Proof.
  intros B L. unfold slot_count, live_count, free_bytes. pose proof (nslots_bound _ B).
  reads. fold (nslots (page_data p)) (fstart (page_data p)) (fend (page_data p)).
  split_and!.
  - by rewrite zlen_records.
  - rewrite live_loop_spec by (done || lia). by rewrite Z2Nat.id by lia.
  - destruct L as [_ _ ? ? ? _]. pose proof (fstart_bound _ B).
    replace (_ || _)%bool with false by slia. by rewrite wrap_small by slia.
Qed.

Lemma accessors_agree_witness :
  exists p, Init (Some (zero_page 0)) = Some (StatusOk, Some p) /\ live_count (Some p) = Some 0.
Proof.
  destruct (Init_ok (zero_page 0) (proj1 (zero_page_buf 0))) as (d' & HI & (B & L & _) & Ha).
  eexists. split; [exact HI|]. injection Ha as Hr _ _.
  destruct (accessors_agree _ B L) as (_ & -> & _).
  cbn [page_data MarkDirty set_data] in *. by rewrite Hr.
Defined.

(** Without validation live_count trusts the stored slot count: on a page whose
    count field is 0xFFFF it reads past the end of the 4096-byte buffer. *)
Lemma live_count_reads_past_page : live_count (Some corrupt_page) = None.
Proof. by vm_compute. Qed.
