(* ===== verification/PageStorage.v ===== *)
(** * The paged database file

    [include/db/page_storage.h] and [src/db/storage/page_storage.cpp].  The
    [std::fstream] under the storage is modelled as the file's bytes, one file
    position and the [good] state; every primitive takes its outcome from
    [fs_future], an arbitrary list of successes and failures, so that the
    theorems hold under any pattern of I/O errors (an exhausted list means
    success).  A failing write leaves a prefix of its bytes in the file. *)

From stdpp Require Import pretty.
From S2P Require Import Prelude Bytes Common.

(** ** Streams *)

Inductive io := IoOk | IoFail (n : Z).

Record fstream := MkStream {
  fs_bytes : list Z; fs_pos : Z; fs_good : bool; fs_gcount : Z; fs_future : list io }.

Definition next_io (f : fstream) : io := hd IoOk (fs_future f).
Definition fs_upd (f : fstream) (bytes : list Z) (pos : Z) (good : bool) (got : Z) : fstream :=
  MkStream bytes pos good got (tl (fs_future f)).

Definition fs_clear (f : fstream) : fstream :=
  MkStream (fs_bytes f) (fs_pos f) true (fs_gcount f) (fs_future f).

(** [seekg(off, beg)] and [seekp(off, beg)] share one file position. *)
Definition fs_seek_beg (f : fstream) (off : Z) : fstream :=
  if negb (fs_good f) then f else
  match next_io f with
  | IoOk => fs_upd f (fs_bytes f) off true (fs_gcount f)
  | IoFail _ => fs_upd f (fs_bytes f) (fs_pos f) false (fs_gcount f)
  end.

Definition fs_seek_end (f : fstream) : fstream :=
  if negb (fs_good f) then f else
  match next_io f with
  | IoOk => fs_upd f (fs_bytes f) (zlen (fs_bytes f)) true (fs_gcount f)
  | IoFail _ => fs_upd f (fs_bytes f) (fs_pos f) false (fs_gcount f)
  end.

Definition fs_tellg (f : fstream) : Z * fstream :=
  if negb (fs_good f) then (-1, f) else
  match next_io f with
  | IoOk => (fs_pos f, fs_upd f (fs_bytes f) (fs_pos f) true (fs_gcount f))
  | IoFail _ => (-1, fs_upd f (fs_bytes f) (fs_pos f) true (fs_gcount f))
  end.

(** [read(buf, n)]: the bytes delivered; [gcount] is their number, and the
    stream goes bad on a short read. *)
Definition fs_read (f : fstream) (n : Z) : list Z * fstream :=
  if negb (fs_good f) then ([], MkStream (fs_bytes f) (fs_pos f) false 0 (fs_future f)) else
  match next_io f with
  | IoOk =>
      let r := sub (fs_bytes f) (fs_pos f) n in
      (r, fs_upd f (fs_bytes f) (fs_pos f + zlen r) (zlen r =? n) (zlen r))
  | IoFail k =>
      let r := sub (fs_bytes f) (fs_pos f) (Z.min k n) in
      (r, fs_upd f (fs_bytes f) (fs_pos f + zlen r) false (zlen r))
  end.

(** Overwriting at [pos]; a gap past the end of the file reads as zeros. *)
Definition write_at (bytes : list Z) (pos : Z) (src : list Z) : list Z :=
  take (Z.to_nat pos) bytes ++ replicate (Z.to_nat (pos - zlen bytes)) 0 ++ src ++
  drop (Z.to_nat pos + length src) bytes.

Definition fs_write (f : fstream) (src : list Z) : fstream :=
  if negb (fs_good f) then f else
  match next_io f with
  | IoOk => fs_upd f (write_at (fs_bytes f) (fs_pos f) src) (fs_pos f + zlen src) true (fs_gcount f)
  | IoFail k =>
      let part := take (Z.to_nat k) src in
      fs_upd f (write_at (fs_bytes f) (fs_pos f) part) (fs_pos f + zlen part) false (fs_gcount f)
  end.

Definition fs_flush (f : fstream) : fstream :=
  if negb (fs_good f) then f else
  match next_io f with
  | IoOk => fs_upd f (fs_bytes f) (fs_pos f) true (fs_gcount f)
  | IoFail _ => fs_upd f (fs_bytes f) (fs_pos f) false (fs_gcount f)
  end.

(** ** Storage *)

Record storage := MkStorage { st_file : fstream; st_path : string; st_open : bool }.

Definition with_file (st : storage) (f : fstream) : storage :=
  MkStorage f (st_path st) (st_open st).

Definition to_string (n : Z) : string := pretty n.

Definition PageOffset (id : Z) : Z := id * kPageSize.

Definition FileSize (st : storage) : Z * storage :=
  let f := fs_seek_end (fs_clear (st_file st)) in
  if negb (fs_good f) then (-1, with_file st f) else
  let '(pos, f) := fs_tellg f in
  if pos =? -1 then (-1, with_file st f) else (pos, with_file st f).

(** [NumPages(&count)]; the count is meaningful when the status is ok. *)
Definition NumPages (st : storage) : Status * Z * storage :=
  if negb (st_open st) then (StatusError kBadState "storage is closed", 0, st) else
  let '(size, st) := FileSize st in
  if size <? 0 then (StatusError kIoError "cannot stat database file", 0, st) else
  if negb (Z.rem size kPageSize =? 0) then
    (StatusError kIoError "database file size changed unexpectedly", 0, st) else
  (StatusOk, u32 (Z.quot size kPageSize), st).

(** [out] is the page the caller passes, absent when the pointer is null. *)
Definition ReadPage (id : Z) (out : option Page) (st : storage)
    : Status * option Page * storage :=
  match out with
  | None => (StatusError kInvalidArgument "null page pointer", None, st)
  | Some _ =>
  if negb (st_open st) then (StatusError kBadState "storage is closed", out, st) else
  let '(s, count, st) := NumPages st in
  if negb (ok s) then (s, out, st) else
  if count <=? id then
    (StatusError kNotFound ("page " +:+ to_string id +:+ " beyond end (" +:+
       to_string count +:+ " pages)"), out, st) else
  let f := fs_seek_beg (fs_clear (st_file st)) (PageOffset id) in
  if negb (fs_good f) then
    (StatusError kIoError ("seek failed for page " +:+ to_string id), out, with_file st f) else
  let '(data, f) := fs_read f kPageSize in
  let page := set_data (PageOf id) (splice (page_data (PageOf id)) 0 data) in
  let got := fs_gcount f in
  if negb (fs_good f) || negb (got =? kPageSize) then
    (StatusError kIoError ("short read on page " +:+ to_string id +:+ " (" +:+
       to_string got +:+ " of " +:+ to_string kPageSize +:+ " bytes)"), out, with_file st f) else
  (StatusOk, Some (ClearDirty page), with_file st f)
  end.

Definition WritePage (page : Page) (st : storage) : Status * storage :=
  if negb (IsValid page) then (StatusError kInvalidArgument "invalid page id", st) else
  if negb (st_open st) then (StatusError kBadState "storage is closed", st) else
  let '(s, count, st) := NumPages st in
  if negb (ok s) then (s, st) else
  if count <=? page_id page then
    (StatusError kNotFound ("page " +:+ to_string (page_id page) +:+ " not allocated (" +:+
       to_string count +:+ " pages)"), st) else
  let f := fs_seek_beg (fs_clear (st_file st)) (PageOffset (page_id page)) in
  if negb (fs_good f) then
    (StatusError kIoError ("seek failed for page " +:+ to_string (page_id page)), with_file st f) else
  let f := fs_flush (fs_write f (page_data page)) in
  if negb (fs_good f) then
    (StatusError kIoError ("write failed on page " +:+ to_string (page_id page)), with_file st f) else
  (StatusOk, with_file st f).

Definition AllocatePage (out : option Page) (st : storage) : Status * option Page * storage :=
  match out with
  | None => (StatusError kInvalidArgument "null page pointer", None, st)
  | Some _ =>
  if negb (st_open st) then (StatusError kBadState "storage is closed", out, st) else
  let '(s, count, st) := NumPages st in
  if negb (ok s) then (s, out, st) else
  if count =? kInvalidId then (StatusError kIoError "page id space exhausted", out, st) else
  let page := PageOf count in
  let f := fs_seek_beg (fs_clear (st_file st)) (PageOffset count) in
  if negb (fs_good f) then (StatusError kIoError "seek failed on allocate", out, with_file st f) else
  let f := fs_flush (fs_write f (page_data page)) in
  if negb (fs_good f) then (StatusError kIoError "extend failed on allocate", out, with_file st f) else
  (StatusOk, Some page, with_file st f)
  end.

Definition PageExists (id : Z) (st : storage) : bool * storage :=
  if negb (st_open st) then (false, st) else
  let '(s, count, st) := NumPages st in
  if negb (ok s) then (false, st) else (id <? count, st).

Definition Flush (st : storage) : Status * storage :=
  if negb (st_open st) then (StatusError kBadState "storage is closed", st) else
  let f := fs_flush (st_file st) in
  if negb (fs_good f) then (StatusError kIoError "flush failed", with_file st f)
  else (StatusOk, with_file st f).

Definition Close (st : storage) : Status * storage :=
  if negb (st_open st) then (StatusOk, st) else
  let '(s, st) := Flush st in
  (s, MkStorage (st_file st) (st_path st) false).

(** What [Open] finds at the path: the bytes of the file that is there, if any,
    whether it can be opened for read and write, whether [exists] reports an
    error, and whether a new file can be created and reopened. *)
Record at_path := MkAtPath {
  ap_file : option (list Z); ap_rw : bool; ap_stat_error : bool;
  ap_create : bool; ap_reopen : bool; ap_future : list io }.

Definition fresh_stream (bytes : list Z) (future : list io) : fstream :=
  MkStream bytes 0 true 0 future.

(** The tail of [Open], on a stream that is open. *)
Definition Open_checked (path : string) (f : fstream) : Status * option storage :=
  let st := MkStorage f path true in
  let '(size, st) := FileSize st in
  if size <? 0 then (StatusError kIoError ("cannot stat database file: " +:+ path), None) else
  if negb (Z.rem size kPageSize =? 0) then
    (StatusError kIoError ("database file size is not a multiple of page size: " +:+ path), None)
  else (StatusOk, Some st).

(** The result also has the file at the path as [Open] leaves it. *)
Definition Open (path : string) (ap : at_path)
    : Status * option storage * option (list Z) :=
  if bool_decide (path = ""%string) then
    (StatusError kInvalidArgument "empty path or null out", None, ap_file ap) else
  match ap_file ap with
  | Some bytes =>
      if ap_rw ap then (Open_checked path (fresh_stream bytes (ap_future ap)), Some bytes)
      else if ap_stat_error ap then
        (StatusError kIoError ("cannot stat database file: " +:+ path), None, Some bytes)
      else (StatusError kIoError
              ("cannot open existing database file for read/write: " +:+ path), None, Some bytes)
  | None =>
      if ap_stat_error ap then
        (StatusError kIoError ("cannot stat database file: " +:+ path), None, None)
      else if negb (ap_create ap) then
        (StatusError kIoError ("cannot create database file: " +:+ path), None, None)
      else if negb (ap_reopen ap) then
        (StatusError kIoError ("cannot open database file: " +:+ path), None, Some [])
      else (Open_checked path (fresh_stream [] (ap_future ap)), Some [])
  end.

(** ** Specification *)

Definition st_bytes (st : storage) : list Z := fs_bytes (st_file st).
Definition npages (st : storage) : Z := zlen (st_bytes st) / kPageSize.

(** The page [id] of the file. *)
Definition contents (st : storage) (id : Z) : option (list Z) :=
  if (0 <=? id) && (id <? npages st) then Some (sub (st_bytes st) (PageOffset id) kPageSize)
  else None.

(** An open storage on a whole number of pages, each with a valid id. *)
Definition st_ok (st : storage) : Prop :=
  st_open st = true /\ bytes_ok (st_bytes st) /\ (kPageSize | zlen (st_bytes st)) /\
  npages st <= kInvalidId.

(** ** Lemmas *)

Ltac plia := unfold PageOffset, kPageSize, kInvalidId in *; lia.

Section WriteAt.
Context (bytes : list Z).

Lemma write_at_splice pos src :
  0 <= pos <= zlen bytes -> write_at bytes pos src = splice bytes pos src.
Proof.
  intros H. unfold write_at, splice. by replace (Z.to_nat (pos - zlen bytes)) with O by lia.
Qed.

Lemma write_at_end src : write_at bytes (zlen bytes) src = bytes ++ src.
Proof.
  unfold write_at. rewrite Z.sub_diag. simpl. unfold zlen. rewrite Nat2Z.id.
  by rewrite take_ge, drop_ge, app_nil_r by lia.
Qed.
End WriteAt.

(** The storage changed at most its stream position and its pending outcomes. *)
Definition quiet (st st' : storage) : Prop :=
  st_bytes st' = st_bytes st /\ st_open st' = st_open st /\
  (fs_future (st_file st) = [] -> fs_future (st_file st') = []).

#[export] Instance quiet_preorder : PreOrder quiet.
Proof. split; [by intros ?|]. unfold quiet. intros ? ? ? (-> & -> & ?) (-> & -> & ?). auto. Qed.

Lemma quiet_contents st st' id : quiet st st' -> contents st' id = contents st id.
Proof. intros (H & _). unfold contents, npages. by rewrite H. Qed.

Lemma quiet_ok st st' : quiet st st' -> st_ok st -> st_ok st'.
Proof. intros (H & Ho & _). unfold st_ok, npages. by rewrite H, Ho. Qed.

Definition healthy (st : storage) : Prop := fs_future (st_file st) = [].

Lemma NumPages_spec st :
  st_ok st -> exists s n st', NumPages st = (s, n, st') /\ quiet st st' /\
    (s = StatusOk /\ n = npages st \/ code s = kIoError /\ ~ healthy st).
Proof.
  intros (Ho & _ & [k Hk] & Hn). unfold NumPages, FileSize, fs_tellg, fs_seek_end. rewrite Ho. simpl.
  unfold next_io, healthy. unfold npages, st_bytes in *.
  destruct st as [[bytes pos good got [|[|] [|[|] fut]]] path op]; simpl in *.
  all: pose proof (zlen_nonneg bytes).
  all: replace (zlen bytes =? -1) with false by plia; simpl.
  all: replace (zlen bytes <? 0) with false by plia.
  all: try (rewrite (proj2 (Z.rem_divide (zlen bytes) kPageSize ltac:(done))) by (by exists k)).
  all: simpl; eexists _, _, _; (split; [done|]); (split; [by repeat split|]); auto.
  all: left; split; [done|]; rewrite Z.quot_div_nonneg by plia;
    apply wrap_small; rewrite Hk, Z.div_mul in * by done; plia.
Qed.

Lemma npages_bytes st : st_ok st -> zlen (st_bytes st) = npages st * kPageSize.
Proof.
  intros (_ & _ & [k Hk] & _). unfold npages. rewrite Hk. by rewrite Z.div_mul.
Qed.

Lemma npages_nonneg st : 0 <= npages st.
Proof. apply Z.div_pos; [apply zlen_nonneg|done]. Qed.

Lemma seek_cases st off :
  exists f, fs_seek_beg (fs_clear (st_file st)) off = f /\ quiet st (with_file st f) /\
    (fs_good f = true /\ fs_pos f = off \/ fs_good f = false /\ ~ healthy st).
Proof.
  unfold fs_seek_beg, fs_clear, next_io, healthy, quiet, st_bytes, with_file. simpl.
  destruct st as [[bytes pos good got [|[|] fut]] path op]; simpl;
    eexists; (split; [done|]); simpl; (split; [done|]); auto.
Qed.

Lemma write_flush_cases st f off data :
  quiet st (with_file st f) -> fs_good f = true -> fs_pos f = off -> 0 <= off <= zlen (st_bytes st) ->
  let f' := fs_flush (fs_write f data) in
  exists part rest, data = part ++ rest /\
    fs_bytes f' = splice (st_bytes st) off part /\
    (healthy st -> fs_future f' = []) /\
    (fs_good f' = true /\ rest = [] \/ fs_good f' = false /\ ~ healthy st).
Proof.
  intros (Hb & _ & Hf) Hg Hp Hoff. unfold fs_flush, fs_write, next_io, healthy. rewrite Hg, Hp. simpl.
  change (fs_bytes f) with (st_bytes (with_file st f)). rewrite Hb, !write_at_splice by done.
  simpl in Hf. destruct (fs_future f) as [|[|k] fut] eqn:E; unfold fs_upd; simpl; rewrite ?E; simpl.
  - exists data, []. by rewrite app_nil_r; split_and!; auto.
  - assert (~ fs_future (st_file st) = []) by (intros ?%Hf; discriminate).
    destruct fut as [|[|] fut]; simpl; exists data, []; rewrite app_nil_r; split_and!; auto; tauto.
  - assert (~ fs_future (st_file st) = []) by (intros ?%Hf; discriminate).
    exists (take (Z.to_nat k) data), (drop (Z.to_nat k) data). rewrite take_drop.
    split_and!; [done|by apply write_at_splice|tauto|auto].
Qed.

Lemma npages_same_len st st' :
  zlen (st_bytes st') = zlen (st_bytes st) -> npages st' = npages st.
Proof. unfold npages. by intros ->. Qed.

Lemma page_in_file st id :
  st_ok st -> 0 <= id < npages st -> 0 <= PageOffset id /\ PageOffset id + kPageSize <= zlen (st_bytes st).
Proof. intros Hok Hid. pose proof (npages_bytes st Hok). plia. Qed.

(** A write of (a prefix of) a page inside the file touches that page only. *)
Lemma contents_splice st st' id part :
  st_ok st -> 0 <= id < npages st -> zlen part <= kPageSize ->
  st_bytes st' = splice (st_bytes st) (PageOffset id) part ->
  npages st' = npages st /\
  (forall j, j <> id -> contents st' j = contents st j) /\
  (zlen part = kPageSize -> contents st' id = Some part).
Proof.
  intros Hok Hid Hp Hb. destruct (page_in_file st id Hok Hid). pose proof (zlen_nonneg part).
  assert (npages st' = npages st) as Hn.
  { apply npages_same_len. rewrite Hb. apply zlen_splice; lia. }
  split_and!; [done|..].
  - intros j Hj. unfold contents. rewrite Hn. destruct (_ && _) eqn:E; [|done]. zb. f_equal.
    destruct (page_in_file st j Hok ltac:(lia)).
    rewrite Hb. apply sub_splice_other; plia.
  - intros Hlen. unfold contents. rewrite Hn, Hb. replace (_ && _) with true by lia.
    f_equal. apply sub_splice_same; lia.
Qed.

(** Extending the file leaves the existing pages alone. *)
Lemma contents_append st st' part :
  st_ok st -> st_bytes st' = st_bytes st ++ part ->
  (forall j, j < npages st -> contents st' j = contents st j) /\
  (zlen part = kPageSize -> npages st' = npages st + 1 /\ contents st' (npages st) = Some part).
Proof.
  intros Hok Hb. pose proof (npages_bytes st Hok) as Hl. pose proof (npages_nonneg st).
  assert (npages st <= npages st') as Hle.
  { unfold npages. rewrite Hb, zlen_app. apply Z.div_le_mono; [done|].
    pose proof (zlen_nonneg part). lia. }
  split.
  - intros j Hj. unfold contents.
    replace (j <? npages st') with true by lia. replace (j <? npages st) with true by lia.
    destruct (0 <=? j) eqn:E; [|done]. zb. simpl. f_equal. destruct (page_in_file st j Hok ltac:(lia)).
    rewrite Hb. unfold sub. rewrite drop_app_le, take_app_le; [done|..];
      rewrite ?length_drop; unfold zlen in *; plia.
  - intros Hp.
    assert (npages st' = npages st + 1) as Hn.
    { unfold npages at 1. rewrite Hb, zlen_app, Hl, Hp.
      replace (npages st * kPageSize + kPageSize) with ((npages st + 1) * kPageSize) by lia.
      by apply Z.div_mul. }
    split; [done|]. unfold contents. rewrite Hn. replace (_ && _) with true by lia. f_equal.
    rewrite Hb. unfold sub, PageOffset. rewrite <- Hl, <- Hp. unfold zlen.
    rewrite !Nat2Z.id, drop_app_length. by rewrite take_ge by lia.
Qed.

(** Executing an operation up to its page count. *)
Ltac counted Hok :=
  let Ho := fresh "Ho" in pose proof (proj1 Hok) as Ho; rewrite Ho; simpl;
  match type of Hok with st_ok ?st =>
    let s := fresh "s" in let n := fresh "n" in let st1 := fresh "st1" in
    destruct (NumPages_spec st Hok) as (s & n & st1 & -> & Q & [[-> ->]|[Hs Hh]]);
    [simpl|]
  end.

Lemma not_ok_code s c : code s = c -> c <> kOk -> ok s = false.
Proof. intros <- H. unfold ok. by apply bool_decide_eq_false_2. Qed.

Lemma sub_page_zlen st id :
  st_ok st -> 0 <= id < npages st -> zlen (sub (st_bytes st) (PageOffset id) kPageSize) = kPageSize.
Proof. intros Hok Hid. destruct (page_in_file st id Hok Hid). apply zlen_sub; plia. Qed.

Lemma contents_None st id : 0 <= id -> contents st id = None <-> npages st <= id.
Proof. intros. unfold contents. destruct (_ && _) eqn:E; split; try done; lia. Qed.

Lemma splice_all n d src : zlen d = n -> zlen src = n -> splice d 0 src = src.
Proof.
  intros Hd Hs. unfold splice. simpl. rewrite drop_ge by (unfold zlen in *; lia).
  by rewrite app_nil_r.
Qed.

Lemma read_cases st f off n :
  quiet st (with_file st f) -> fs_good f = true -> fs_pos f = off ->
  0 <= off -> 0 <= n -> off + n <= zlen (st_bytes st) ->
  exists r f', fs_read f n = (r, f') /\ quiet st (with_file st f') /\
    (fs_good f' = true /\ fs_gcount f' = n /\ r = sub (st_bytes st) off n \/
     fs_good f' = false /\ ~ healthy st).
Proof.
  intros (Hb & Ho & Hf) Hg Hp H0 Hn Hl. unfold fs_read, next_io, healthy, quiet. rewrite Hg, Hp. simpl.
  change (fs_bytes f) with (st_bytes (with_file st f)). rewrite Hb. simpl in Hf.
  pose proof (zlen_sub (st_bytes st) off n H0 Hn Hl) as Hz.
  destruct (fs_future f) as [|[|k] fut] eqn:E; simpl; eexists _, _; (split; [done|]);
    unfold fs_upd, st_bytes, with_file in *; simpl; rewrite ?E; simpl; rewrite ?Hz, ?Z.eqb_refl.
  - split_and!; auto.
  - split_and!; auto; intros ?%Hf; discriminate.
  - split_and!; auto; [intros ?%Hf; discriminate|].
    right. split; [done|]. intros ?%Hf; discriminate.
Qed.

Lemma ReadPage_spec id p st :
  st_ok st -> 0 <= id ->
  exists s out st', ReadPage id (Some p) st = (s, out, st') /\ quiet st st' /\
    (s = StatusOk /\ (exists d, contents st id = Some d /\ out = Some (MkPage id false d)) \/
     code s = kNotFound /\ contents st id = None /\ out = Some p \/
     code s = kIoError /\ ~ healthy st /\ out = Some p).
Proof.
  intros Hok Hid. unfold ReadPage. counted Hok;
    [|rewrite (not_ok_code _ _ Hs) by done; simpl; eauto 12].
  destruct (npages st <=? id) eqn:E; zb.
  { eexists _, _, _. split_and!; [done|done|]. right. left. split_and!; [done| |done].
    by apply contents_None. }
  pose proof (quiet_ok _ _ Q Hok) as Hok1. pose proof Q as (Hb & _ & Hf).
  assert (~ healthy st1 -> ~ healthy st) as Hh by (intros H1 H2; by apply H1, Hf).
  destruct (seek_cases st1 (PageOffset id)) as (f & -> & Q2 & [[Hg Hp]|[-> H1]]); [rewrite Hg|]; cbn [negb].
  2: { eexists _, _, _. split_and!; [done|by transitivity st1|]. right. right. auto. }
  destruct (page_in_file st id Hok ltac:(lia)).
  destruct (read_cases st1 f (PageOffset id) kPageSize Q2 Hg Hp) as (r & f' & -> & Q3 & C);
    [done|done|by rewrite Hb|].
  destruct C as [(-> & -> & ->)|[-> H1]]; cbn [negb orb];
    (eexists _, _, _; split_and!; [done|by transitivity st1|]).
  - left. split; [done|]. eexists. split.
    + unfold contents. by replace (_ && _) with true by lia.
    + unfold ClearDirty, set_data, PageOf. cbn [page_id page_data]. do 2 f_equal. rewrite Hb.
      apply (splice_all kPageSize); [apply zero_data_len|by apply sub_page_zlen].
  - right. right. auto.
Qed.

Lemma WritePage_spec p st :
  st_ok st -> page_ok p ->
  exists s st', WritePage p st = (s, st') /\ st_ok st' /\ (healthy st -> healthy st') /\
    npages st' = npages st /\
    (forall j, j <> page_id p -> contents st' j = contents st j) /\
    (s = StatusOk /\ page_id p < npages st /\ contents st' (page_id p) = Some (page_data p) \/
     (code s = kInvalidArgument \/ code s = kNotFound) /\ npages st <= page_id p /\
       contents st' (page_id p) = contents st (page_id p) \/
     code s = kIoError /\ ~ healthy st).
Proof.
  intros Hok (Hl & Hbp & Hid). unfold WritePage.
  destruct (IsValid p) eqn:V; cbn [negb].
  2: { eexists _, _. split_and!; auto. right. left. split_and!; auto.
       unfold IsValid in V. destruct Hok as (_ & _ & _ & ?). lia. }
  counted Hok.
  2: { rewrite (not_ok_code _ _ Hs) by done. simpl. eexists _, _.
       split_and!; [done|by eapply quiet_ok|by apply Q|by apply npages_same_len; rewrite (proj1 Q)| |auto].
       intros. by apply quiet_contents. }
  pose proof (quiet_ok _ _ Q Hok) as Hok1. pose proof Q as (Hb & _ & Hf).
  assert (npages st1 = npages st) as Hn by (by apply npages_same_len; rewrite Hb).
  destruct (npages st <=? page_id p) eqn:E; zb.
  { eexists _, _. split_and!; [done|done|done|done| |].
    - intros. by apply quiet_contents.
    - right. left. split_and!; auto. by apply quiet_contents. }
  assert (~ healthy st1 -> ~ healthy st) as Hh by (intros H1 H2; by apply H1, Hf).
  destruct (seek_cases st1 (PageOffset (page_id p))) as (f & -> & Q2 & [[Hg Hp]|[-> H1]]);
    [rewrite Hg|]; cbn [negb].
  2: { assert (quiet st (with_file st1 f)) as Q3 by (by transitivity st1).
       eexists _, _. split_and!; [done|by eapply quiet_ok|by apply Q3|
         by apply npages_same_len; rewrite (proj1 Q3)| |auto].
       intros. by apply quiet_contents. }
  destruct (page_in_file st1 (page_id p) Hok1 ltac:(lia)).
  destruct (write_flush_cases st1 f (PageOffset (page_id p)) (page_data p) Q2 Hg Hp ltac:(plia))
    as (part & rest & Hd & Hb' & Hf' & C).
  set (f' := fs_flush _) in *.
  assert (zlen part + zlen rest = kPageSize) as Hz by (by rewrite <- zlen_app, <- Hd).
  pose proof (zlen_nonneg rest).
  destruct (contents_splice st1 (with_file st1 f') (page_id p) part Hok1 ltac:(lia) ltac:(lia) Hb')
    as (Hn' & Hoth & Hsame).
  assert (st_ok (with_file st1 f')) as Hok'.
  { destruct Hok1 as (Ho1 & Hb1 & Hd1 & Hle). split_and!; [done| | |lia].
    - unfold st_bytes. simpl. rewrite Hb'. apply bytes_ok_splice; [done|].
      rewrite Hd in Hbp. by apply Forall_app in Hbp as [??].
    - unfold st_bytes at 1. simpl. rewrite Hb', zlen_splice by lia. done. }
  destruct C as [(Hg' & ->)|[Hg' Hbad]]; rewrite Hg'; cbn [negb];
    (eexists _, _; split_and!; [done|done|by intros ?%Hf%Hf'|lia| |]).
  1, 3: intros; rewrite Hoth by done; by apply quiet_contents.
  - left. split_and!; [done|lia|]. rewrite app_nil_r in Hd. rewrite Hd. apply Hsame.
    change (zlen []) with 0 in Hz. lia.
  - auto.
Qed.

Lemma AllocatePage_spec p st :
  st_ok st ->
  exists s out st', AllocatePage (Some p) st = (s, out, st') /\ (healthy st -> healthy st') /\
    (forall j, j < npages st -> contents st' j = contents st j) /\
    (s = StatusOk /\ out = Some (PageOf (npages st)) /\ st_ok st' /\
       npages st' = npages st + 1 /\ contents st' (npages st) = Some zero_data \/
     code s = kIoError /\ out = Some p /\ (healthy st -> npages st = kInvalidId)).
Proof.
  intros Hok. unfold AllocatePage. counted Hok.
  2: { rewrite (not_ok_code _ _ Hs) by done. simpl. eexists _, _, _.
       split_and!; [done|by apply Q|by intros; apply quiet_contents|]. right. split_and!; tauto. }
  pose proof (quiet_ok _ _ Q Hok) as Hok1. pose proof Q as (Hb & _ & Hf).
  assert (npages st1 = npages st) as Hn by (by apply npages_same_len; rewrite Hb).
  destruct (npages st =? kInvalidId) eqn:E; zb.
  { eexists _, _, _. split_and!; [done|done|by intros; apply quiet_contents|]. right. auto. }
  destruct (seek_cases st1 (PageOffset (npages st))) as (f & -> & Q2 & [[Hg Hp]|[-> Hbad]]);
    [rewrite Hg|]; cbn [negb].
  2: { assert (quiet st (with_file st1 f)) as Q3 by (by transitivity st1).
       eexists _, _, _. split_and!; [done|by apply Q3|by intros; apply quiet_contents|].
       right. split_and!; auto. by intros ?%Hf. }
  pose proof (npages_bytes st1 Hok1) as Hl. pose proof (npages_nonneg st).
  destruct (write_flush_cases st1 f (PageOffset (npages st)) (page_data (PageOf (npages st))) Q2 Hg Hp
    ltac:(plia)) as (part & rest & Hd & Hb' & Hf' & C).
  set (f' := fs_flush _) in *. cbn [page_data PageOf] in Hd.
  assert (st_bytes (with_file st1 f') = st_bytes st1 ++ part) as Hb''.
  { unfold st_bytes at 1. simpl. rewrite Hb'. replace (PageOffset _) with (zlen (st_bytes st1)) by plia.
    rewrite <- write_at_splice by (split; [apply zlen_nonneg|done]). apply write_at_end. }
  destruct (contents_append st1 (with_file st1 f') part Hok1 Hb'') as (Hold & Hnew).
  rewrite Hn in *.
  destruct C as [(Hg' & ->)|[Hg' Hbad]]; rewrite Hg'; cbn [negb];
    (eexists _, _, _; split_and!; [done|by intros ?%Hf%Hf'|..]).
  1, 3: intros; rewrite Hold by done; by apply quiet_contents.
  2: { right. split_and!; auto. by intros ?%Hf. }
  rewrite app_nil_r in Hd. subst part. destruct (Hnew zero_data_len) as [Hn' Hc].
  left. split_and!; auto. destruct Hok1 as (Ho1 & Hby & Hd1 & Hle). split_and!; [done|..].
  - rewrite Hb''. apply Forall_app_2; [done|apply zero_data_bytes].
  - rewrite Hb'', zlen_app, zero_data_len. apply Z.divide_add_r; [done|by exists 1].
  - lia.
Qed.

(** ** Files that end in part of a page

    A failed [AllocatePage] can leave part of a page at the end of the file.  The
    pages before it are intact, but the storage refuses every later operation. *)

Definition st_sound (st : storage) : Prop :=
  st_open st = true /\ bytes_ok (st_bytes st) /\ npages st <= kInvalidId.

Lemma st_ok_sound st : st_ok st -> st_sound st.
Proof. intros (? & ? & _ & ?). done. Qed.

Lemma st_sound_cases st : st_sound st -> st_ok st \/ ~ (kPageSize | zlen (st_bytes st)).
Proof.
  intros (? & ? & ?). destruct (decide (zlen (st_bytes st) mod kPageSize = 0)) as [E|E].
  - left. split_and!; [done..| |done]. by apply Z.mod_divide.
  - right. intros Hd. apply E. by apply Z.mod_divide.
Qed.

Lemma quiet_sound st st' : quiet st st' -> st_sound st -> st_sound st'.
Proof. intros (H & Ho & _). unfold st_sound, npages. by rewrite H, Ho. Qed.

Lemma NumPages_ragged st :
  st_sound st -> ~ (kPageSize | zlen (st_bytes st)) ->
  exists s n st', NumPages st = (s, n, st') /\ quiet st st' /\ code s = kIoError.
Proof.
  intros (Ho & _ & _) Hr. unfold NumPages, FileSize, fs_tellg, fs_seek_end. rewrite Ho. simpl.
  unfold next_io. unfold st_bytes in *.
  destruct st as [[bytes pos good got [|[|] [|[|] fut]]] path op]; simpl in *.
  all: pose proof (zlen_nonneg bytes).
  all: replace (zlen bytes =? -1) with false by plia; simpl.
  all: replace (zlen bytes <? 0) with false by plia.
  all: try (destruct (Z.rem (zlen bytes) kPageSize =? 0) eqn:E; zb; [by destruct Hr; apply Z.rem_divide|]).
  all: simpl; eexists _, _, _; (split; [done|]); by repeat split.
Qed.

(** Every operation on such a file fails and leaves it alone. *)
Lemma ragged_ops st :
  st_sound st -> ~ (kPageSize | zlen (st_bytes st)) ->
  (forall id q, exists s st', ReadPage id (Some q) st = (s, Some q, st') /\ quiet st st' /\ ok s = false) /\
  (forall p, exists s st', WritePage p st = (s, st') /\ quiet st st' /\ ok s = false) /\
  (forall q, exists s st', AllocatePage (Some q) st = (s, Some q, st') /\ quiet st st' /\ ok s = false) /\
  (forall id, exists st', PageExists id st = (false, st') /\ quiet st st').
Proof.
  intros Hs Hr. destruct (NumPages_ragged st Hs Hr) as (s & n & st' & HN & Q & Hc).
  pose proof (not_ok_code _ _ Hc ltac:(done)) as Ho. destruct Hs as (Hopen & _).
  split_and!; intros.
  - unfold ReadPage. rewrite Hopen, HN. simpl. rewrite Ho. simpl. eauto.
  - unfold WritePage. destruct (IsValid p); cbn [negb]; [|by exists (StatusError kInvalidArgument "invalid page id"), st].
    rewrite Hopen, HN. simpl. rewrite Ho. simpl. eauto.
  - unfold AllocatePage. rewrite Hopen, HN. simpl. rewrite Ho. simpl. eauto.
  - unfold PageExists. rewrite Hopen, HN. simpl. rewrite Ho. simpl. eauto.
Qed.

(** What an allocation leaves behind, failed or not. *)
Lemma AllocatePage_sound p st :
  st_ok st -> forall s out st', AllocatePage (Some p) st = (s, out, st') -> st_sound st'.
Proof.
  intros Hok s out st'. unfold AllocatePage. counted Hok.
  2: { rewrite (not_ok_code _ _ Hs) by done. simpl. intros [= <- <- <-].
       by eapply quiet_sound, st_ok_sound. }
  pose proof (quiet_ok _ _ Q Hok) as Hok1.
  destruct (npages st =? kInvalidId) eqn:E; zb; [intros [= <- <- <-]; by apply st_ok_sound|].
  destruct (seek_cases st1 (PageOffset (npages st))) as (f & -> & Q2 & [[Hg Hp]|[-> Hbad]]);
    [rewrite Hg|]; cbn [negb].
  2: { intros [= <- <- <-]. eapply quiet_sound; [|by apply st_ok_sound]. done. }
  assert (npages st1 = npages st) as Hn by (apply npages_same_len; by rewrite (proj1 Q)).
  pose proof (npages_bytes st1 Hok1) as Hl. pose proof (npages_nonneg st).
  destruct (write_flush_cases st1 f (PageOffset (npages st)) (page_data (PageOf (npages st))) Q2 Hg Hp
    ltac:(plia)) as (part & rest & Hd & Hb' & _ & _).
  set (f' := fs_flush _) in *. cbn [page_data PageOf] in Hd.
  assert (st_bytes (with_file st1 f') = st_bytes st1 ++ part) as Hb''.
  { unfold st_bytes at 1. simpl. rewrite Hb'. replace (PageOffset _) with (zlen (st_bytes st1)) by plia.
    rewrite <- write_at_splice by (split; [apply zlen_nonneg|done]). apply write_at_end. }
  assert (st_sound (with_file st1 f')) as Hsound.
  { destruct Hok1 as (Ho1 & Hby & _ & Hmax). pose proof zero_data_bytes as Hzb. rewrite Hd in Hzb.
    apply Forall_app in Hzb as [Hpb _]. split_and!; [done| |].
    - rewrite Hb''. by apply Forall_app_2.
    - unfold npages. rewrite Hb'', zlen_app, Hl. pose proof zero_data_len as Hz. rewrite Hd, zlen_app in Hz.
      pose proof (zlen_nonneg part). pose proof (zlen_nonneg rest). unfold kInvalidId in *.
      assert ((npages st1 * kPageSize + zlen part) / kPageSize < npages st1 + 2); [|lia].
      apply Z.div_lt_upper_bound; unfold kPageSize in *; lia. }
  destruct (negb (fs_good f')); by intros [= <- <- <-].
Qed.

(** ** Theorems *)

(** C20: Storage functional correctness under any pattern of I/O failures.  On a
    file of whole pages, ReadPage never changes the file and, when it reports
    success, delivers exactly the stored page, clean; WritePage changes at most
    the page it names (a failed write may tear that page only) and keeps the
    file a whole number of pages; AllocatePage never touches existing pages
    and on success appends one zeroed page whose id is the old page count. *)
Theorem storage_ops_correct st id p q :
  st_ok st -> 0 <= id -> page_ok p ->
  (exists s out st', ReadPage id (Some q) st = (s, out, st') /\ quiet st st' /\
    (s = StatusOk -> exists d, contents st id = Some d /\ out = Some (MkPage id false d))) /\
  (exists s st', WritePage p st = (s, st') /\ st_ok st' /\ npages st' = npages st /\
    (forall j, j <> page_id p -> contents st' j = contents st j) /\
    (s = StatusOk -> contents st' (page_id p) = Some (page_data p))) /\
  (exists s out st', AllocatePage (Some q) st = (s, out, st') /\
    (forall j, j < npages st -> contents st' j = contents st j) /\
    (s = StatusOk -> out = Some (PageOf (npages st)) /\ st_ok st' /\
       npages st' = npages st + 1 /\ contents st' (npages st) = Some zero_data)).
Proof.
  intros Hok Hid Hp. split_and!.
  - destruct (ReadPage_spec id q st Hok Hid) as (s & out & st' & H & Q & C).
    eexists _, _, _. split_and!; [done|done|]. intros ->.
    destruct C as [[_ ?]|[[? _]|[? _]]]; done.
  - destruct (WritePage_spec p st Hok Hp) as (s & st' & H & Hok' & _ & Hn & Ho & C).
    eexists _, _. split_and!; [done..|]. intros ->.
    destruct C as [(_ & _ & ?)|[[[?|?] _]|[? _]]]; done.
  - destruct (AllocatePage_spec q st Hok) as (s & out & st' & H & _ & Ho & C).
    eexists _, _, _. split_and!; [done..|]. intros ->.
    destruct C as [(_ & ?)|[? _]]; done.
Qed.

(** A database file of two zeroed pages, whose next write fails after 7 bytes. *)
Definition two_pages (future : list io) : storage :=
  MkStorage (fresh_stream (zero_data ++ zero_data) future) "db" true.

Lemma two_pages_ok future : st_ok (two_pages future).
Proof.
  assert (zlen (st_bytes (two_pages future)) = 2 * kPageSize) as H.
  { unfold st_bytes, two_pages, fresh_stream. cbn [fs_bytes st_file]. by rewrite zlen_app, zero_data_len. }
  split_and!; [done| |by exists 2|].
  - apply Forall_app_2; apply zero_data_bytes.
  - unfold npages. rewrite H. done.
Qed.

Lemma storage_ops_correct_witness :
  exists s st', WritePage (PageOf 1) (two_pages [IoOk; IoOk; IoOk; IoFail 7]) = (s, st') /\
    npages st' = 2.
Proof.
  destruct (storage_ops_correct (two_pages [IoOk; IoOk; IoOk; IoFail 7]) 0 (PageOf 1) PageDefault
    (two_pages_ok _) ltac:(lia) (page_ok_PageOf 1 ltac:(unfold kInvalidId; lia)))
    as (_ & (s & st' & H & _ & Hn & _) & _).
  eexists _, _. split; [exact H|]. rewrite Hn. by vm_compute.
Defined.

(** Round trip on a healthy device.  Writing an allocated page succeeds and
    reading it back returns the same bytes under the same id; reading an id at
    or beyond the page count reports kNotFound. *)
Theorem write_read_roundtrip st p q :
  st_ok st -> healthy st -> page_ok p -> page_id p < npages st ->
  exists st1 st2, WritePage p st = (StatusOk, st1) /\
    ReadPage (page_id p) (Some q) st1 = (StatusOk, Some (ClearDirty p), st2) /\
    (forall id, npages st <= id -> exists s st3, ReadPage id (Some q) st1 = (s, Some q, st3) /\
       code s = kNotFound).
Proof.
  intros Hok Hh Hp Hlt. pose proof Hp as (_ & _ & Hid).
  destruct (WritePage_spec p st Hok Hp) as (s & st1 & Hw & Hok1 & Hh1 & Hn1 & _ & C).
  specialize (Hh1 Hh). destruct C as [(-> & _ & Hc)|[(_ & ? & _)|[_ ?]]]; [|lia|done].
  destruct (ReadPage_spec (page_id p) q st1 Hok1 ltac:(lia)) as (s2 & out & st2 & Hr & _ & C).
  destruct C as [(-> & d & Hd & ->)|[(_ & ? & _)|(_ & ? & _)]]; [|congruence|done].
  exists st1, st2. split_and!; [done| |].
  - rewrite Hr. rewrite Hc in Hd. injection Hd as <-. done.
  - intros id Hge. pose proof (npages_nonneg st).
    destruct (ReadPage_spec id q st1 Hok1 ltac:(lia)) as (s3 & out3 & st3 & Hr3 & _ & C).
    destruct C as [(_ & d' & Hd' & _)|[(Hs & _ & ->)|(_ & ? & _)]]; [|by eauto|done].
    rewrite (proj2 (contents_None st1 id ltac:(lia))) in Hd' by lia. done.
Qed.

Lemma write_read_roundtrip_witness :
  exists st1 st2, WritePage (PageOf 1) (two_pages []) = (StatusOk, st1) /\
    ReadPage 1 (Some PageDefault) st1 = (StatusOk, Some (PageOf 1), st2).
Proof.
  destruct (write_read_roundtrip (two_pages []) (PageOf 1) PageDefault (two_pages_ok _) eq_refl
    (page_ok_PageOf 1 ltac:(unfold kInvalidId; lia))) as (st1 & st2 & Hw & Hr & _).
  - by vm_compute.
  - exists st1, st2. split; [exact Hw|exact Hr].
Defined.

(** Opening.  Open never alters a file that exists; it creates an empty one
    only where nothing existed; and a storage is handed out exactly for a file
    of whole pages it could open and measure, with that file's bytes. *)
Theorem open_preserves_file path ap :
  let '(s, st, file) := Open path ap in
  (forall bytes, ap_file ap = Some bytes -> file = Some bytes) /\
  (ap_file ap = None -> file = None \/ file = Some []) /\
  match st with
  | Some st => s = StatusOk /\ st_open st = true /\ file = Some (st_bytes st) /\
      (kPageSize | zlen (st_bytes st))
  | None => code s = kInvalidArgument \/ code s = kIoError
  end.
Proof.
  assert (forall bytes fut, let r := Open_checked path (fresh_stream bytes fut) in
    match r.2 with
    | Some st => r.1 = StatusOk /\ st_open st = true /\ Some bytes = Some (st_bytes st) /\
        (kPageSize | zlen (st_bytes st))
    | None => code r.1 = kInvalidArgument \/ code r.1 = kIoError
    end) as Hc.
  { intros bytes fut. unfold Open_checked, FileSize, fs_tellg, fs_seek_end, fresh_stream, next_io.
    pose proof (zlen_nonneg bytes).
    destruct fut as [|[|] [|[|] fut]]; simpl; auto;
      (destruct (zlen bytes =? -1) eqn:?; [lia|]); simpl;
      (destruct (zlen bytes <? 0) eqn:?; [lia|]); simpl; auto;
      (destruct (Z.rem _ _ =? 0) eqn:R; simpl; auto); zb;
      split_and!; auto; by apply Z.rem_divide. }
  unfold Open. case_bool_decide; [by split_and!; auto; intros; simplify_eq|].
  destruct ap as [[bytes|] [] [] [] [] fut]; simpl;
    try specialize (Hc bytes fut); try specialize (Hc [] fut); simpl in Hc;
    try (destruct (Open_checked _ _) as [s st]; simpl in Hc);
    split_and!; auto; intros; simplify_eq; auto.
Qed.
