(* ===== verification/BufferPool.v ===== *)
(** * The resizable page buffer pool

    [include/db/buffer_pool.h] and [src/db/buffer/buffer_pool.cpp].  The pool is
    written against an interface: [PageEnv] has the two [PageStorage] calls it
    makes and the [PageLogSink] barrier, and [PageEnvLaws] states what it may
    rely on (the promises [PageStorage] proves about itself, under any I/O
    failures).  Frames are a list, as in the [std::deque]; a [Handle] is the
    frame index it holds, [None] when empty; [kNoFrame] is [None].  Pin counts
    are counts of live handles and are not bounded; the access clock is a
    [uint64_t] whose overflow the code handles. *)

From stdpp Require Import sorting sets.
From S2P Require Import Prelude Bytes Common PageStorage.

(** ** What the pool requires of its environment *)

Class PageEnv (E : Type) := {
  env_read : Z -> E -> Status * option Page * E;
  env_write : Page -> E -> Status * E;
  env_log : Page -> E -> Status * E }.

(** [disk e id] is the durable content of page [id]. *)
Class PageEnvLaws (E : Type) `{PageEnv E} := {
  env_inv : E -> Prop;
  disk : E -> Z -> option (list Z);
  env_read_law e id s out e' :
    env_inv e -> 0 <= id -> env_read id e = (s, out, e') ->
    env_inv e' /\ (forall j, disk e' j = disk e j) /\
    (ok s = true -> exists d, out = Some (MkPage id false d) /\ disk e id = Some d /\ buf_ok kPageSize d);
  env_write_law e p s e' :
    env_inv e -> page_ok p -> env_write p e = (s, e') ->
    env_inv e' /\ (forall j, j <> page_id p -> disk e' j = disk e j) /\
    (ok s = true -> disk e' (page_id p) = Some (page_data p));
  env_log_law e p s e' :
    env_inv e -> page_ok p -> env_log p e = (s, e') ->
    env_inv e' /\ (forall j, disk e' j = disk e j) }.

(** ** State *)

Record Frame := MkFrame { f_page : Page; f_pin : Z; f_last : Z; f_in_use : bool }.

(** [Frame()] *)
Definition Frame0 : Frame := MkFrame PageDefault 0 0 false.

Record BufferPool := MkPool {
  bp_storage : bool;  (** [storage_ != nullptr] *)
  bp_capacity : Z; bp_frames : list Frame; bp_clock : Z;
  bp_sink : bool      (** [log_sink_ != nullptr] *) }.

Definition set_page (p : Page) (f : Frame) := MkFrame p (f_pin f) (f_last f) (f_in_use f).
Definition set_pin (n : Z) (f : Frame) := MkFrame (f_page f) n (f_last f) (f_in_use f).
Definition set_last (t : Z) (f : Frame) := MkFrame (f_page f) (f_pin f) t (f_in_use f).
Definition set_in_use (b : bool) (f : Frame) := MkFrame (f_page f) (f_pin f) (f_last f) b.

Definition with_frames (bp : BufferPool) (fs : list Frame) : BufferPool :=
  MkPool (bp_storage bp) (bp_capacity bp) fs (bp_clock bp) (bp_sink bp).
Definition upd_frame (i : nat) (g : Frame -> Frame) (bp : BufferPool) : BufferPool :=
  with_frames bp (alter g i (bp_frames bp)).
Definition with_clock (bp : BufferPool) (t : Z) : BufferPool :=
  MkPool (bp_storage bp) (bp_capacity bp) (bp_frames bp) t (bp_sink bp).
Definition with_capacity (bp : BufferPool) (n : Z) : BufferPool :=
  MkPool (bp_storage bp) n (bp_frames bp) (bp_clock bp) (bp_sink bp).

(** [BufferPool::Create]: [storage] and [out] say whether the pointers are
    non-null. *)
Definition Create (storage out : bool) (capacity : Z) : Status * option BufferPool :=
  if negb storage || negb out then
    (StatusError kInvalidArgument "null storage or null out", None) else
  if capacity =? 0 then
    (StatusError kInvalidArgument "buffer pool capacity must be positive", None) else
  (StatusOk, Some (MkPool true capacity (replicate (Z.to_nat capacity) Frame0) 0 false)).

Definition SetLogSink (sink : bool) (bp : BufferPool) : BufferPool :=
  MkPool (bp_storage bp) (bp_capacity bp) (bp_frames bp) (bp_clock bp) sink.

(** ** Inspection *)

Definition holds (id : Z) (f : Frame) : bool := f_in_use f && (page_id (f_page f) =? id).
Definition FindFrame (id : Z) (bp : BufferPool) : option nat :=
  fst <$> list_find (fun f => Is_true (holds id f)) (bp_frames bp).

Definition count_frames (P : Frame -> bool) (fs : list Frame) : Z := zlen (filter (fun f => Is_true (P f)) fs).
Definition pool_size (bp : BufferPool) : Z := count_frames f_in_use (bp_frames bp).
Definition pinned (f : Frame) : bool := f_in_use f && (0 <? f_pin f).
Definition pinned_frames (bp : BufferPool) : Z := count_frames pinned (bp_frames bp).
Definition Contains (id : Z) (bp : BufferPool) : bool := bool_decide (is_Some (FindFrame id bp)).
Definition PinCount (id : Z) (bp : BufferPool) : Z :=
  match FindFrame id bp with
  | None => 0
  | Some i => from_option f_pin 0 (bp_frames bp !! i)
  end.

(** ** The access clock *)

(** The indices, from [i], of the frames satisfying [P]. *)
Fixpoint indices (P : Frame -> bool) (i : nat) (fs : list Frame) : list nat :=
  match fs with
  | [] => []
  | f :: fs => if P f then i :: indices P (S i) fs else indices P (S i) fs
  end.

Definition stamp (fs : list Frame) (i : nat) : Z := from_option f_last 0 (fs !! i).

(** [std::sort] by stamp, ties by index: both orders used by the source agree
    with it on frames whose stamps differ. *)
Definition by_stamp (fs : list Frame) (a b : nat) : Prop :=
  stamp fs a < stamp fs b \/ stamp fs a = stamp fs b /\ (a <= b)%nat.
#[export] Instance by_stamp_dec fs : RelDecision (by_stamp fs).
Proof. intros a b. unfold by_stamp. apply _. Defined.

Fixpoint restamp (order : list nat) (t : Z) (fs : list Frame) : list Frame * Z :=
  match order with
  | [] => (fs, t)
  | i :: order => restamp order (u64 (t + 1)) (alter (set_last (u64 (t + 1))) i fs)
  end.

Definition RenumberClock (bp : BufferPool) : BufferPool :=
  let order := merge_sort (by_stamp (bp_frames bp)) (indices f_in_use 0 (bp_frames bp)) in
  let '(fs, t) := restamp order 0 (bp_frames bp) in
  with_clock (with_frames bp fs) t.

Definition NextTimestamp (bp : BufferPool) : Z * BufferPool :=
  let bp := if bp_clock bp =? UINT64_MAX then RenumberClock bp else bp in
  let t := u64 (bp_clock bp + 1) in
  (t, with_clock bp t).
#[global] Arguments NextTimestamp : simpl never.

(** ** Pinning *)

Definition UnpinFrame (i : nat) (bp : BufferPool) : BufferPool :=
  match bp_frames bp !! i with
  | None => bp
  | Some f => if 0 <? f_pin f then upd_frame i (set_pin (f_pin f - 1)) bp else bp
  end.

(** [Handle::Unpin]; the destructor is the same without the status. *)
Definition Unpin (h : option nat) (bp : BufferPool) : Status * option nat * BufferPool :=
  match h with
  | None => (StatusError kInvalidArgument "handle is empty", None, bp)
  | Some i => (StatusOk, None, UnpinFrame i bp)
  end.
Definition DestroyHandle (h : option nat) (bp : BufferPool) : BufferPool :=
  match h with None => bp | Some i => UnpinFrame i bp end.

(** [this = std::move(other)]: the new [this], the new [other]. *)
Definition MoveHandle (this other : option nat) (bp : BufferPool)
    : option nat * option nat * BufferPool :=
  (other, None, DestroyHandle this bp).

(** A client writing through [handle.page().data()] and marking the page. *)
Definition HandleMarkDirty (i : nat) (bp : BufferPool) : BufferPool :=
  upd_frame i (fun f => set_page (MarkDirty (f_page f)) f) bp.
Definition HandleWrite (i : nat) (d : list Z) (bp : BufferPool) : BufferPool :=
  HandleMarkDirty i (upd_frame i (fun f => set_page (set_data (f_page f) d) f) bp).

(** ** Operations that reach storage *)

Section Operations.
Context {E : Type} `{PageEnv E}.

(** Callers pass the index of a frame. *)
Definition FlushFrame (i : nat) (bp : BufferPool) (e : E) : Status * BufferPool * E :=
  match bp_frames bp !! i with
  | None => (StatusOk, bp, e)
  | Some f =>
      if negb (f_in_use f) || negb (page_dirty (f_page f)) then (StatusOk, bp, e) else
      let '(log_status, e) :=
        if bp_sink bp then env_log (f_page f) e else (StatusOk, e) in
      if negb (ok log_status) then (log_status, bp, e) else
      let '(s, e) := env_write (f_page f) e in
      if negb (ok s) then (s, bp, e) else
      (StatusOk, upd_frame i (fun f => set_page (ClearDirty (f_page f)) f) bp, e)
  end.

Definition FlushPage (id : Z) (bp : BufferPool) (e : E) : Status * BufferPool * E :=
  if negb (bp_storage bp) then (StatusError kBadState "buffer pool has no storage", bp, e) else
  match FindFrame id bp with
  | None => (StatusError kNotFound ("page " +:+ to_string id +:+ " is not resident"), bp, e)
  | Some i => FlushFrame i bp e
  end.

(** The loop of [FlushAll], over the remaining [n] frames from [i]. *)
Fixpoint FlushAll_loop (n i : nat) (first_error : Status) (bp : BufferPool) (e : E)
    : Status * BufferPool * E :=
  match n with
  | O => (first_error, bp, e)
  | S n =>
      match bp_frames bp !! i with
      | None => (first_error, bp, e)
      | Some f =>
          if negb (f_in_use f) || negb (page_dirty (f_page f)) then
            FlushAll_loop n (S i) first_error bp e
          else
            let '(s, bp, e) := FlushFrame i bp e in
            FlushAll_loop n (S i) (if negb (ok s) && ok first_error then s else first_error) bp e
      end
  end.
Definition FlushAll (bp : BufferPool) (e : E) : Status * BufferPool * E :=
  if negb (bp_storage bp) then (StatusError kBadState "buffer pool has no storage", bp, e) else
  FlushAll_loop (length (bp_frames bp)) 0 StatusOk bp e.

(** The victim scan of [AcquireFrame]. *)
Fixpoint victim_scan (i : nat) (fs : list Frame) (victim : option nat) (oldest : Z) : option nat :=
  match fs with
  | [] => victim
  | f :: fs =>
      if f_in_use f && (f_pin f =? 0) && (f_last f <? oldest)
      then victim_scan (S i) fs (Some i) (f_last f)
      else victim_scan (S i) fs victim oldest
  end.

Definition free_frame (bp : BufferPool) : option nat :=
  fst <$> list_find (fun f => Is_true (negb (f_in_use f))) (bp_frames bp).

Definition evict_frame (bp : BufferPool) (e : E) : Status * option nat * BufferPool * E :=
  match victim_scan 0 (bp_frames bp) None UINT64_MAX with
  | None => (StatusError kBufferFull "all frames are pinned; page cannot be loaded", None, bp, e)
  | Some victim =>
      let '(s, bp, e) := FlushFrame victim bp e in
      if negb (ok s) then (s, None, bp, e) else (StatusOk, Some victim, bp, e)
  end.

Definition AcquireFrame (bp : BufferPool) (e : E) : Status * option nat * BufferPool * E :=
  if pool_size bp <? bp_capacity bp then
    match free_frame bp with
    | Some i => (StatusOk, Some i, bp, e)
    | None => evict_frame bp e
    end
  else evict_frame bp e.

(** The handle is [None] exactly when the caller's handle is left empty;
    [out] says whether the handle pointer is non-null. *)
Definition Fetch (out : bool) (id : Z) (bp : BufferPool) (e : E)
    : Status * option nat * BufferPool * E :=
  if negb out then (StatusError kInvalidArgument "null handle pointer", None, bp, e) else
  if negb (bp_storage bp) then (StatusError kBadState "buffer pool has no storage", None, bp, e) else
  if id =? kInvalidId then (StatusError kInvalidArgument "invalid page id", None, bp, e) else
  match FindFrame id bp with
  | Some i =>
      let bp := upd_frame i (fun f => set_pin (f_pin f + 1) f) bp in
      let '(t, bp) := NextTimestamp bp in
      (StatusOk, Some i, upd_frame i (set_last t) bp, e)
  | None =>
      let '(s, page, e) := env_read id e in
      if negb (ok s) then (s, None, bp, e) else
      let '(s, slot, bp, e) := AcquireFrame bp e in
      match slot with
      | None => (s, None, bp, e)
      | Some slot =>
          let bp := upd_frame slot (fun f => set_pin 1 (set_page (default PageDefault page) f)) bp in
          let '(t, bp) := NextTimestamp bp in
          (StatusOk, Some slot, upd_frame slot (fun f => set_in_use true (set_last t f)) bp, e)
      end
  end.

(** [while (frames_.size() > capacity_ && !frames_.back().in_use) pop_back();]
    on the reversed list. *)
Fixpoint trim_back (capacity : Z) (rfs : list Frame) : list Frame :=
  match rfs with
  | f :: rest => if (capacity <? zlen rfs) && negb (f_in_use f) then trim_back capacity rest else rfs
  | [] => []
  end.
Definition TrimFreeFrames (bp : BufferPool) : BufferPool :=
  with_frames bp (rev (trim_back (bp_capacity bp) (rev (bp_frames bp)))).

Fixpoint flush_victims (victims : list nat) (bp : BufferPool) (e : E) : Status * BufferPool * E :=
  match victims with
  | [] => (StatusOk, bp, e)
  | i :: victims =>
      let '(s, bp, e) := FlushFrame i bp e in
      if negb (ok s) then (s, bp, e) else flush_victims victims bp e
  end.

Definition release_victims (victims : list nat) (fs : list Frame) : list Frame :=
  foldl (fun fs i => <[i := Frame0]> fs) fs victims.

Definition evictable (f : Frame) : bool := f_in_use f && (f_pin f =? 0).

(** No [std::deque<Frame>] has more elements than [PTRDIFF_MAX] divided by the
    size of a page: its [resize] throws [std::length_error] beyond. *)
Definition kMaxFrames : Z := (2 ^ 63 - 1) / 4096.

(** What an allocation in [Resize] does. *)
Inductive alloc := AllocOk | BadAlloc | LengthError.
Definition alloc_error (a : alloc) : option Status :=
  match a with
  | AllocOk => None
  | BadAlloc => Some (StatusError kOutOfMemory "cannot allocate frame storage for resize")
  | LengthError => Some (StatusError kOutOfMemory "requested buffer pool capacity is too large")
  end.

Definition shrink (new_capacity : Z) (victims : list nat) (bp : BufferPool) (e : E)
    : Status * BufferPool * E :=
  let '(s, bp, e) := flush_victims victims bp e in
  if negb (ok s) then (s, bp, e) else
  let bp := with_frames bp (release_victims victims (bp_frames bp)) in
  (StatusOk, TrimFreeFrames (with_capacity bp new_capacity), e).

Definition Resize (a : alloc) (new_capacity : Z) (bp : BufferPool) (e : E)
    : Status * BufferPool * E :=
  if new_capacity =? 0 then
    (StatusError kInvalidArgument "buffer pool capacity must be positive", bp, e) else
  if new_capacity =? bp_capacity bp then (StatusOk, bp, e) else
  if bp_capacity bp <? new_capacity then
    if zlen (bp_frames bp) <? new_capacity then
      match alloc_error (if kMaxFrames <? new_capacity then LengthError else a) with
      | Some s => (s, bp, e)
      | None =>
          (StatusOk, with_capacity (with_frames bp (bp_frames bp ++
             replicate (Z.to_nat (new_capacity - zlen (bp_frames bp))) Frame0)) new_capacity, e)
      end
    else (StatusOk, with_capacity bp new_capacity, e)
  else
  let residents := pool_size bp in
  if new_capacity <? residents then
    let needed := residents - new_capacity in
    match alloc_error a with
    | Some s => (s, bp, e)
    | None =>
        let victims := indices evictable 0 (bp_frames bp) in
        if zlen victims <? needed then
          (StatusError kBufferFull "cannot shrink: not enough unpinned frames to evict", bp, e)
        else
        shrink new_capacity
          (take (Z.to_nat needed) (merge_sort (by_stamp (bp_frames bp)) victims)) bp e
    end
  else shrink new_capacity [] bp e.
End Operations.

(** ** Specification *)

(** The frame holding page [id], by the lookup the code performs. *)
Definition resident (bp : BufferPool) (id : Z) : option Frame :=
  i ← FindFrame id bp; bp_frames bp !! i.

(** The page contents a client of the pool sees. *)
Definition logical `{PageEnvLaws E} (bp : BufferPool) (e : E) (id : Z) : option (list Z) :=
  match resident bp id with
  | Some f => Some (page_data (f_page f))
  | None => disk e id
  end.

(** One frame is in order: free frames are unpinned; a frame in use has a valid
    page, a stamp the clock has passed, and, when clean, the durable content. *)
Definition frame_ok `{PageEnvLaws E} (e : E) (clock : Z) (f : Frame) : Prop :=
  0 <= f_pin f /\ (f_in_use f = false -> f_pin f = 0) /\
  (f_in_use f = true ->
     page_ok (f_page f) /\ page_id (f_page f) <> kInvalidId /\ 1 <= f_last f <= clock /\
     (page_dirty (f_page f) = false -> disk e (page_id (f_page f)) = Some (page_data (f_page f)))).

Record pool_inv `{PageEnvLaws E} (bp : BufferPool) (e : E) : Prop := {
  inv_env : env_inv e;
  inv_storage : bp_storage bp = true;
  inv_capacity : 0 < bp_capacity bp <= zlen (bp_frames bp);
  inv_max : zlen (bp_frames bp) <= kMaxFrames;
  inv_size : pool_size bp <= bp_capacity bp;
  inv_frames : forall i f, bp_frames bp !! i = Some f -> frame_ok e (bp_clock bp) f;
  inv_ids : forall i j f g, bp_frames bp !! i = Some f -> bp_frames bp !! j = Some g ->
    f_in_use f = true -> f_in_use g = true -> page_id (f_page f) = page_id (f_page g) -> i = j;
  inv_stamps : forall i j f g, bp_frames bp !! i = Some f -> bp_frames bp !! j = Some g ->
    f_in_use f = true -> f_in_use g = true -> f_last f = f_last g -> i = j;
  inv_clock : 0 <= bp_clock bp <= UINT64_MAX }.

(** ** Lemmas on frame lists *)

Lemma holds_true id f : holds id f = true <-> f_in_use f = true /\ page_id (f_page f) = id.
Proof. unfold holds. rewrite andb_true_iff, Z.eqb_eq. done. Qed.

Lemma FindFrame_Some id bp i :
  FindFrame id bp = Some i ->
  exists f, bp_frames bp !! i = Some f /\ f_in_use f = true /\ page_id (f_page f) = id.
Proof.
  unfold FindFrame. intros ([j f] & (Hl & Hh & _)%list_find_Some & ->)%fmap_Some. simpl.
  apply Is_true_true, holds_true in Hh. eauto.
Qed.

Lemma FindFrame_None id bp i f :
  FindFrame id bp = None -> bp_frames bp !! i = Some f -> f_in_use f = true ->
  page_id (f_page f) <> id.
Proof.
  unfold FindFrame. rewrite fmap_None, list_find_None, Forall_lookup. intros Hn Hl Hu Hid.
  apply (Hn _ _ Hl), Is_true_true, holds_true. auto.
Qed.

Lemma count_app P fs gs : count_frames P (fs ++ gs) = count_frames P fs + count_frames P gs.
Proof. unfold count_frames. by rewrite filter_app, zlen_app. Qed.

Lemma count_cons P f fs : count_frames P (f :: fs) = Z.b2z (P f) + count_frames P fs.
Proof. unfold count_frames. rewrite filter_cons. by destruct (P f); simpl; rewrite ?zlen_cons. Qed.

Lemma count_insert P (fs : list Frame) i f f' :
  fs !! i = Some f ->
  count_frames P (<[i := f']> fs) = count_frames P fs - Z.b2z (P f) + Z.b2z (P f').
Proof.
  intros Hl. rewrite insert_take_drop by (by eapply lookup_lt_Some).
  rewrite <- (take_drop_middle fs i f Hl) at 3. rewrite !count_app, !count_cons. lia.
Qed.

Lemma count_alter P (fs : list Frame) i f g :
  fs !! i = Some f -> P (g f) = P f -> count_frames P (alter g i fs) = count_frames P fs.
Proof.
  intros Hl HP. rewrite (list_alter_ext _ (fun _ => g f) _ _ i), <- list_insert_alter by naive_solver.
  rewrite (count_insert _ _ _ f) by done.
  rewrite HP. lia.
Qed.

Lemma count_le_len P fs : 0 <= count_frames P fs <= zlen fs.
Proof.
  split; [apply zlen_nonneg|]. unfold count_frames, zlen.
  pose proof (length_filter (fun f => Is_true (P f)) fs). lia.
Qed.

Lemma count_full P fs i f : count_frames P fs = zlen fs -> fs !! i = Some f -> P f = true.
Proof.
  intros Hc Hl. rewrite <- (take_drop_middle fs i f Hl), count_app, count_cons, zlen_app, zlen_cons in Hc.
  pose proof (count_le_len P (take i fs)). pose proof (count_le_len P (drop (S i) fs)).
  destruct (P f); simpl in *; [done|lia].
Qed.

Lemma count_replicate_free n : count_frames f_in_use (replicate n Frame0) = 0.
Proof. unfold count_frames. induction n; done. Qed.

Lemma count_none P fs : (forall j f, fs !! j = Some f -> P f = false) -> count_frames P fs = 0.
Proof.
  induction fs as [|f fs IH]; intros Hn; [done|]. rewrite count_cons, (Hn 0%nat f eq_refl), IH; [done|].
  intros j g Hg. by apply (Hn (S j)).
Qed.

Lemma zlen_replicate_nat {A} n (x : A) : zlen (replicate n x) = Z.of_nat n.
Proof. unfold zlen. by rewrite length_replicate. Qed.

Lemma elem_of_indices P i fs k :
  k ∈ indices P i fs <-> (i <= k)%nat /\ exists f, fs !! (k - i)%nat = Some f /\ P f = true.
Proof.
  revert i. induction fs as [|f fs IH]; intros i; simpl.
  { split; [by intros ?%elem_of_nil|]. intros (_ & f & Hl & _). done. }
  assert (k ∈ indices P (S i) fs <->
    (S i <= k)%nat /\ exists f0, (f :: fs) !! (k - i)%nat = Some f0 /\ P f0 = true) as IH'.
  { rewrite IH. split; intros [Hk (g & Hg & HP)]; (split; [done|]); exists g;
      replace (k - i)%nat with (S (k - S i))%nat in * by lia; done. }
  destruct (P f) eqn:E; [rewrite elem_of_cons|]; rewrite IH'.
  - split.
    + intros [->|[? ?]]; [|split; [lia|done]]. split; [done|]. exists f. by rewrite Nat.sub_diag.
    + intros [Hk Hx]. destruct (decide (k = i)) as [->|]; [by left|right]. split; [lia|done].
  - split.
    + intros [? ?]; split; [lia|done].
    + intros [Hk (g & Hg & HP)]. destruct (decide (k = i)) as [->|]; [|split; [lia|eauto]].
      rewrite Nat.sub_diag in Hg. simplify_eq/=. congruence.
Qed.

Lemma NoDup_indices P i fs : NoDup (indices P i fs).
Proof.
  revert i. induction fs as [|f fs IH]; intros i; simpl; [constructor|].
  destruct (P f); [|done]. constructor; [|done]. rewrite elem_of_indices. lia.
Qed.

Lemma zlen_indices P i fs : zlen (indices P i fs) = count_frames P fs.
Proof.
  revert i. induction fs as [|f fs IH]; intros i; simpl; [done|].
  rewrite count_cons. by destruct (P f); rewrite ?zlen_cons, IH.
Qed.

(** ** The access clock *)

Lemma alter_insert (g : Frame -> Frame) (i : nat) f (fs : list Frame) :
  fs !! i = Some f -> alter g i fs = <[i := g f]> fs.
Proof.
  intros Hl. rewrite list_insert_alter. apply list_alter_ext; [|done]. naive_solver.
Qed.

Lemma restamp_spec order t fs :
  NoDup order -> 0 <= t -> t + zlen order < 2 ^ 64 ->
  exists fs', restamp order t fs = (fs', t + zlen order) /\
    (forall i, i ∉ order -> fs' !! i = fs !! i) /\
    (forall k i, order !! k = Some i -> fs' !! i = set_last (t + 1 + Z.of_nat k) <$> fs !! i).
Proof.
  intros Hnd. revert t fs. induction Hnd as [|i order Hi Hnd IH]; intros t fs Ht Hlt; simpl.
  { exists fs. split_and!; [f_equal; change (zlen []) with 0; lia|done..]. }
  rewrite zlen_cons in *. pose proof (zlen_nonneg order).
  rewrite wrap_small by lia.
  destruct (IH (t + 1) (alter (set_last (t + 1)) i fs)) as (fs' & -> & Hout & Hin); [lia..|].
  exists fs'. split_and!; [f_equal; lia| |].
  - intros j [Hj1 Hj2]%not_elem_of_cons. rewrite Hout by done. by apply list_lookup_alter_ne.
  - intros [|k] j Hk; simpl in Hk.
    + injection Hk as <-. rewrite Hout, list_lookup_alter_eq by done.
      destruct (fs !! i); [|done]. simpl. do 2 f_equal. lia.
    + rewrite (Hin k j Hk), list_lookup_alter_ne.
      * destruct (fs !! j); [|done]. simpl. do 2 f_equal. lia.
      * intros <-. apply Hi. by eapply list_elem_of_lookup_2.
Qed.

#[export] Instance by_stamp_trans fs : Transitive (by_stamp fs).
Proof. unfold by_stamp. intros a b c. lia. Qed.
#[export] Instance by_stamp_total fs : Total (by_stamp fs).
Proof. unfold by_stamp. intros a b. lia. Qed.

Lemma StronglySorted_lookup {A} (R : relation A) l a b x y :
  StronglySorted R l -> (a < b)%nat -> l !! a = Some x -> l !! b = Some y -> R x y.
Proof.
  intros Hs. revert a b. induction Hs as [|z l Hs IH Hz]; intros a b Hab Ha Hb; [done|].
  destruct b as [|b]; [lia|]. destruct a as [|a]; simpl in *.
  - simplify_eq. rewrite Forall_lookup in Hz. eauto.
  - eapply (IH a b); [lia|done..].
Qed.

(** The stamps of the frames in use are pairwise different and within the clock. *)
Record stamps_ok (clock : Z) (fs : list Frame) : Prop := {
  stamps_range : forall i f, fs !! i = Some f -> f_in_use f = true -> 1 <= f_last f <= clock;
  stamps_distinct : forall i j f g, fs !! i = Some f -> fs !! j = Some g ->
    f_in_use f = true -> f_in_use g = true -> f_last f = f_last g -> i = j }.

(** [fs'] is [fs] with other stamps, in the same order. *)
Record restamped (fs fs' : list Frame) : Prop := {
  restamped_frames : Forall2 (fun f f' => exists t, f' = set_last t f) fs fs';
  restamped_order : forall i j f g f' g', fs !! i = Some f -> fs !! j = Some g ->
    fs' !! i = Some f' -> fs' !! j = Some g' -> f_in_use f = true -> f_in_use g = true ->
    f_last f < f_last g -> f_last f' < f_last g' }.

Lemma restamped_refl fs : restamped fs fs.
Proof.
  split; [|naive_solver]. apply Forall_Forall2_diag, Forall_true. intros f. exists (f_last f).
  by destruct f.
Qed.

Lemma restamped_of fs fs' :
  (forall i, (exists t, fs' !! i = set_last t <$> fs !! i)) ->
  Forall2 (fun f f' => exists t, f' = set_last t f) fs fs'.
Proof.
  intros Hl. apply Forall2_lookup. intros i. destruct (Hl i) as [t ->].
  destruct (fs !! i); constructor. eauto.
Qed.

Lemma RenumberClock_spec bp :
  stamps_ok (bp_clock bp) (bp_frames bp) -> zlen (bp_frames bp) <= kMaxFrames ->
  exists fs' t, RenumberClock bp = with_clock (with_frames bp fs') t /\ 0 <= t <= kMaxFrames /\
    restamped (bp_frames bp) fs' /\ stamps_ok t fs'.
Proof.
  intros [Hr Hd] Hmax. unfold RenumberClock. set (fs := bp_frames bp) in *.
  set (order := merge_sort (by_stamp fs) (indices f_in_use 0 fs)).
  assert (order ≡ₚ indices f_in_use 0 fs) as Hperm by apply merge_sort_Permutation.
  assert (NoDup order) as Hnd by (rewrite Hperm; apply NoDup_indices).
  assert (StronglySorted (by_stamp fs) order) as Hsort by (apply StronglySorted_merge_sort; apply _).
  assert (forall i f, fs !! i = Some f -> f_in_use f = true -> exists k, order !! k = Some i) as Hin.
  { intros i f Hl Hu. apply list_elem_of_lookup_1. rewrite Hperm, elem_of_indices, Nat.sub_0_r.
    split; [lia|eauto]. }
  assert (zlen order = count_frames f_in_use fs) as Hlen.
  { rewrite <- (zlen_indices f_in_use 0). unfold zlen. by rewrite Hperm. }
  pose proof (count_le_len f_in_use fs). assert (kMaxFrames < 2 ^ 64) by done.
  destruct (restamp_spec order 0 fs Hnd) as (fs' & -> & Hout & Hlook); [lia..|].
  assert (forall i f', fs' !! i = Some f' -> f_in_use f' = true ->
    exists k f, order !! k = Some i /\ fs !! i = Some f /\ f' = set_last (1 + Z.of_nat k) f) as Hinv.
  { intros i f' Hl Hu. destruct (decide (i ∈ order)) as [Hi|Hi].
    - apply list_elem_of_lookup_1 in Hi as [k Hk]. rewrite (Hlook k i Hk) in Hl.
      apply fmap_Some in Hl as (f & Hf & ->). eauto.
    - rewrite Hout in Hl by done. destruct (Hin i f' Hl Hu) as [k Hk].
      destruct Hi. by eapply list_elem_of_lookup_2. }
  exists fs', (0 + zlen order). split_and!; [done|lia|lia| |].
  - split.
    + apply restamped_of. intros i. destruct (decide (i ∈ order)) as [Hi|Hi].
      * apply list_elem_of_lookup_1 in Hi as [k Hk]. eauto.
      * rewrite Hout by done. exists (stamp fs i). unfold stamp. destruct (fs !! i) as [[]|]; done.
    + intros i j f g f' g' Hf Hg Hf' Hg' Hfu Hgu Hlt.
      destruct (Hin i f Hf Hfu) as [a Ha]. destruct (Hin j g Hg Hgu) as [b Hb].
      rewrite (Hlook a i Ha), Hf in Hf'. rewrite (Hlook b j Hb), Hg in Hg'.
      simplify_eq/=. destruct (decide (a < b)%nat); [lia|]. exfalso.
      destruct (decide (a = b)) as [->|]; [simplify_eq; lia|].
      pose proof (StronglySorted_lookup _ _ b a j i Hsort ltac:(lia) Hb Ha) as Hs.
      unfold by_stamp, stamp in Hs. rewrite Hf, Hg in Hs. simpl in Hs. lia.
  - split.
    + intros i f' Hl Hu. destruct (Hinv i f' Hl Hu) as (k & f & Hk & _ & ->). simpl.
      apply lookup_lt_Some in Hk. unfold zlen. lia.
    + intros i j f' g' Hf Hg Hfu Hgu Heq.
      destruct (Hinv i f' Hf Hfu) as (a & f & Ha & _ & ->).
      destruct (Hinv j g' Hg Hgu) as (b & g & Hb & _ & ->). simpl in Heq.
      replace b with a in Hb by lia. congruence.
Qed.

Lemma NextTimestamp_spec bp :
  stamps_ok (bp_clock bp) (bp_frames bp) -> zlen (bp_frames bp) <= kMaxFrames ->
  0 <= bp_clock bp <= UINT64_MAX ->
  exists fs' t, NextTimestamp bp = (t, with_clock (with_frames bp fs') t) /\
    1 <= t <= UINT64_MAX /\ restamped (bp_frames bp) fs' /\ stamps_ok (t - 1) fs'.
Proof.
  intros Hs Hm Hc. unfold NextTimestamp. destruct (bp_clock bp =? UINT64_MAX) eqn:E; zb.
  - destruct (RenumberClock_spec bp Hs Hm) as (fs' & t & -> & Ht & Hre & Hok). simpl.
    assert (kMaxFrames + 1 < UINT64_MAX) by done. unfold UINT64_MAX in *.
    rewrite wrap_small by lia. exists fs', (t + 1). split_and!; [done|lia|lia|done|].
    by replace (t + 1 - 1) with t by lia.
  - unfold UINT64_MAX in *. rewrite wrap_small by lia. exists (bp_frames bp), (bp_clock bp + 1).
    split_and!; [by destruct bp|lia|lia|apply restamped_refl|].
    by replace (_ + 1 - 1) with (bp_clock bp) by lia.
Qed.

(** ** Frames that hold the same pages *)

Definition same_page (f f' : Frame) : Prop :=
  f_in_use f' = f_in_use f /\ page_id (f_page f') = page_id (f_page f) /\
  page_data (f_page f') = page_data (f_page f).

Definition same_pages (bp bp' : BufferPool) : Prop :=
  Forall2 same_page (bp_frames bp) (bp_frames bp').

#[export] Instance same_page_preorder : PreOrder same_page.
Proof.
  split; unfold same_page; [done|].
  intros f g h (-> & -> & ->) (-> & -> & ->). done.
Qed.

#[export] Instance same_pages_preorder : PreOrder same_pages.
Proof.
  split; unfold same_pages.
  - intros bp. by apply Forall_Forall2_diag, Forall_true.
  - intros a b c Hab Hbc. by transitivity (bp_frames b).
Qed.

Lemma same_pages_lookup bp bp' i f' :
  same_pages bp bp' -> bp_frames bp' !! i = Some f' ->
  exists f, bp_frames bp !! i = Some f /\ same_page f f'.
Proof. intros Hs Hl. by eapply Forall2_lookup_r in Hl. Qed.

Lemma FindFrame_same bp bp' id : same_pages bp bp' -> FindFrame id bp' = FindFrame id bp.
Proof.
  unfold same_pages, FindFrame. induction 1 as [|f f' fs fs' (Hu & Hid & _) _ IH]; [done|]. simpl.
  replace (holds id f') with (holds id f) by (unfold holds; by rewrite Hu, Hid).
  case_decide; [done|]. rewrite <- !option_fmap_compose.
  assert (forall o : option (nat * Frame), (fst ∘ prod_map S (@Datatypes.id Frame)) <$> o = S <$> (fst <$> o)) as Hc
    by (by intros [[]|]).
  rewrite !Hc. by f_equal.
Qed.

Lemma size_same bp bp' : same_pages bp bp' -> pool_size bp' = pool_size bp.
Proof.
  unfold same_pages, pool_size. induction 1 as [|f f' fs fs' (Hu & _) _ IH]; [done|].
  by rewrite !count_cons, IH, Hu.
Qed.

Lemma resident_same bp bp' id :
  same_pages bp bp' ->
  page_data ∘ f_page <$> resident bp' id = page_data ∘ f_page <$> resident bp id.
Proof.
  intros Hs. unfold resident. rewrite (FindFrame_same _ _ _ Hs).
  destruct (FindFrame id bp) as [i|]; [|done]. simpl.
  pose proof (proj1 (Forall2_lookup _ _ _) Hs i) as Ho. destruct Ho as [f f' (_ & _ & Hd)|]; [|done].
  simpl. by rewrite Hd.
Qed.

Lemma resident_same_None bp bp' id : same_pages bp bp' -> resident bp' id = None <-> resident bp id = None.
Proof.
  intros Hs. pose proof (resident_same _ _ id Hs).
  destruct (resident bp id), (resident bp' id); naive_solver.
Qed.

Section Invariant.
Context {E : Type} `{PL : PageEnvLaws E}.
Implicit Types (bp : BufferPool) (e : E).

(** The pages that are not resident are untouched on disk. *)
Definition disk_kept bp e e' : Prop := forall id, resident bp id = None -> disk e' id = disk e id.

Lemma logical_same bp bp' e e' :
  same_pages bp bp' -> disk_kept bp e e' -> forall id, logical bp' e' id = logical bp e id.
Proof.
  intros Hs Hd id. unfold logical. pose proof (resident_same _ _ id Hs) as Hr.
  destruct (resident bp id) eqn:E1, (resident bp' id); simpl in Hr; try congruence. auto.
Qed.

Lemma resident_at bp e i f :
  pool_inv bp e -> bp_frames bp !! i = Some f -> f_in_use f = true ->
  FindFrame (page_id (f_page f)) bp = Some i /\ resident bp (page_id (f_page f)) = Some f.
Proof.
  intros I Hl Hu. unfold resident. destruct (FindFrame _ bp) as [j|] eqn:Ef.
  - destruct (FindFrame_Some _ _ _ Ef) as (g & Hg & Hgu & Hid).
    replace j with i in * by (by eapply (inv_ids _ _ I)). simpl. by rewrite Hl.
  - by destruct (FindFrame_None _ _ _ _ Ef Hl Hu).
Qed.

Lemma resident_Some bp id f :
  resident bp id = Some f ->
  exists i, bp_frames bp !! i = Some f /\ f_in_use f = true /\ page_id (f_page f) = id.
Proof.
  unfold resident. destruct (FindFrame id bp) as [i|] eqn:Ef; [|done]. simpl.
  destruct (FindFrame_Some _ _ _ Ef) as (g & Hg & ? & ?). intros ?. simplify_eq. eauto.
Qed.

Lemma resident_None bp id i f :
  resident bp id = None -> bp_frames bp !! i = Some f -> f_in_use f = true -> page_id (f_page f) <> id.
Proof.
  unfold resident. destruct (FindFrame id bp) as [j|] eqn:Ef; simpl.
  - destruct (FindFrame_Some _ _ _ Ef) as (g & -> & _). done.
  - intros _. by apply FindFrame_None.
Qed.

Lemma inv_stamps_ok bp e : pool_inv bp e -> stamps_ok (bp_clock bp) (bp_frames bp).
Proof.
  intros I. split; [|apply (inv_stamps _ _ I)].
  intros i f Hl Hu. apply (inv_frames _ _ I i f Hl); done.
Qed.

(** The invariant carries over to frames with the same pages and the same
    stamps, given that each frame is still in order. *)
Lemma inv_same bp bp' e e' :
  pool_inv bp e -> env_inv e' -> same_pages bp bp' ->
  bp_storage bp' = true -> bp_capacity bp' = bp_capacity bp ->
  stamps_ok (bp_clock bp') (bp_frames bp') -> 0 <= bp_clock bp' <= UINT64_MAX ->
  (forall i f, bp_frames bp' !! i = Some f -> frame_ok e' (bp_clock bp') f) ->
  pool_inv bp' e'.
Proof.
  intros I He Hs Hst Hc Hso Hcl Hf. pose proof (Forall2_length _ _ _ Hs) as Hlen.
  assert (zlen (bp_frames bp') = zlen (bp_frames bp)) as Hz by (unfold zlen; lia).
  split; try done.
  - rewrite Hc, Hz. apply I.
  - rewrite Hz. apply I.
  - rewrite Hc, (size_same _ _ Hs). apply I.
  - intros i j f g Hfi Hgj Hfu Hgu Hid.
    destruct (same_pages_lookup _ _ _ _ Hs Hfi) as (f0 & Hf0 & Hu1 & Hi1 & _).
    destruct (same_pages_lookup _ _ _ _ Hs Hgj) as (g0 & Hg0 & Hu2 & Hi2 & _).
    eapply (inv_ids _ _ I i j f0 g0); congruence.
  - apply Hso.
Qed.

(** Replacing frame [i] by one that holds the same page. *)
Lemma upd_same_pages bp i f g :
  bp_frames bp !! i = Some f -> same_page f (g f) -> same_pages bp (upd_frame i g bp).
Proof.
  intros Hl Hs. unfold same_pages, upd_frame. simpl. apply Forall2_lookup. intros j.
  rewrite list_lookup_alter. case_decide as E1.
  - subst. rewrite Hl. by constructor.
  - destruct (bp_frames bp !! j); by constructor.
Qed.

Lemma upd_lookup bp i g j f' :
  bp_frames (upd_frame i g bp) !! j = Some f' ->
  (j = i /\ exists f, bp_frames bp !! i = Some f /\ f' = g f) \/ (j <> i /\ bp_frames bp !! j = Some f').
Proof.
  simpl. rewrite list_lookup_alter. case_decide; subst; [|auto].
  intros (f & Hf & ->)%fmap_Some. left. eauto.
Qed.

Lemma stamps_upd bp i g f c :
  bp_frames bp !! i = Some f -> f_in_use (g f) = f_in_use f -> f_last (g f) = f_last f ->
  stamps_ok c (bp_frames bp) -> stamps_ok c (bp_frames (upd_frame i g bp)).
Proof.
  intros Hl Hu Ht [Hr Hd]. split.
  - intros j f' [(-> & f1 & Hf1 & ->)|[_ Hj]]%upd_lookup Hfu; [|by eapply Hr].
    simplify_eq. rewrite Ht. eapply Hr; [done|congruence].
  - intros j k f1 f2 [(-> & f3 & Hf1 & ->)|[Hne Hj]]%upd_lookup
      [(-> & f4 & Hf2 & ->)|[Hne2 Hk]]%upd_lookup Hu1 Hu2 Heq; [done|..]; simplify_eq.
    + eapply (Hd i k f f2); congruence.
    + eapply (Hd j i f1 f); congruence.
    + by eapply (Hd j k f1 f2).
Qed.

(** The one-frame update that keeps page and stamp. *)
Lemma inv_upd bp e e' i f g :
  pool_inv bp e -> env_inv e' -> bp_frames bp !! i = Some f ->
  same_page f (g f) -> f_last (g f) = f_last f -> frame_ok e' (bp_clock bp) (g f) ->
  (forall j h, j <> i -> bp_frames bp !! j = Some h -> frame_ok e' (bp_clock bp) h) ->
  pool_inv (upd_frame i g bp) e'.
Proof.
  intros I He Hl Hs Ht Hf Hoth. pose proof (upd_same_pages bp i f g Hl Hs) as Hsp.
  eapply inv_same; eauto; [apply I| |apply I|].
  - eapply (stamps_upd _ _ _ _ (bp_clock bp)); eauto; [apply Hs|by eapply inv_stamps_ok].
  - intros j h [(-> & f1 & Hf1 & ->)|[Hne Hj]]%upd_lookup; [by simplify_eq|by eapply Hoth].
Qed.

(** ** Flushing *)

(** Flushing changes dirty flags only. *)
Definition cleaned_frame (f f' : Frame) : Prop :=
  f' = f \/ f' = set_page (ClearDirty (f_page f)) f.

Record cleaned bp bp' : Prop := {
  cleaned_frames : Forall2 cleaned_frame (bp_frames bp) (bp_frames bp');
  cleaned_capacity : bp_capacity bp' = bp_capacity bp;
  cleaned_clock : bp_clock bp' = bp_clock bp;
  cleaned_storage : bp_storage bp' = bp_storage bp;
  cleaned_sink : bp_sink bp' = bp_sink bp }.

#[global] Instance cleaned_frame_preorder : PreOrder cleaned_frame.
Proof.
  split; unfold cleaned_frame; [by left|].
  intros f g h [->| ->] [->| ->]; auto.
Qed.

#[global] Instance cleaned_preorder : PreOrder cleaned.
Proof.
  split.
  - intros bp. split; [|done..]. by apply Forall_Forall2_diag, Forall_true.
  - intros a b c [? ? ? ? ?] [? ? ? ? ?]. split; [by transitivity (bp_frames b)|congruence..].
Qed.

Lemma cleaned_same_pages bp bp' : cleaned bp bp' -> same_pages bp bp'.
Proof.
  intros [Hf _ _ _ _]. eapply Forall2_impl; [exact Hf|]. by intros f f' [->| ->].
Qed.

Lemma disk_kept_trans bp bp' e e' e'' :
  same_pages bp bp' -> disk_kept bp e e' -> disk_kept bp' e' e'' -> disk_kept bp e e''.
Proof.
  intros Hs H1 H2 id Hr. rewrite H2 by (by apply (resident_same_None bp)). by apply H1.
Qed.

Lemma frame_ok_disk e e' c f :
  (f_in_use f = true -> disk e' (page_id (f_page f)) = disk e (page_id (f_page f))) ->
  frame_ok e c f -> frame_ok e' c f.
Proof.
  intros Hd (H1 & H2 & H3). split_and!; [done..|]. intros Hu. destruct (H3 Hu) as (? & ? & ? & Hc).
  do 3 (split; [done|]). rewrite Hd by done. auto.
Qed.

(** The frames stay and the environment moves. *)
Lemma inv_env_change bp e e' :
  pool_inv bp e -> env_inv e' ->
  (forall i f, bp_frames bp !! i = Some f -> frame_ok e' (bp_clock bp) f) -> pool_inv bp e'.
Proof. intros [] He Hf. by split. Qed.

Lemma inv_disk bp e e' :
  pool_inv bp e -> env_inv e' -> (forall id, disk e' id = disk e id) -> pool_inv bp e'.
Proof.
  intros I He Hd. eapply inv_env_change; [done..|]. intros i f Hl. eapply frame_ok_disk; [by intros; apply Hd|by eapply (inv_frames _ _ I)].
Qed.

Lemma FlushFrame_spec i bp e s bp' e' :
  pool_inv bp e -> FlushFrame i bp e = (s, bp', e') ->
  pool_inv bp' e' /\ cleaned bp bp' /\ disk_kept bp e e' /\
  (ok s = true -> s = StatusOk /\ forall f, bp_frames bp' !! i = Some f -> f_in_use f = true ->
     page_dirty (f_page f) = false).
Proof.
  intros I. unfold FlushFrame.
  destruct (bp_frames bp !! i) as [f|] eqn:Hl.
  2: { intros [= <- <- <-]. split_and!; [done|done|done|]. intros _. split; [done|congruence]. }
  destruct (negb (f_in_use f) || _) eqn:Hd.
  { intros [= <- <- <-]. split_and!; [done|done|done|]. intros _. split; [done|].
    intros g Hg Hgu. assert (g = f) as -> by congruence. rewrite Hgu in Hd.
    by destruct (page_dirty (f_page f)). }
  apply orb_false_iff in Hd as [Hu%negb_false_iff Hd%negb_false_iff].
  destruct (inv_frames _ _ I i f Hl) as (Hp & Hfree & Huse). destruct (Huse Hu) as (Hpg & Hv & Ht & _).
  set (log := if bp_sink bp then _ else _).
  assert (exists ls e1, log = (ls, e1) /\ env_inv e1 /\ forall id, disk e1 id = disk e id)
    as (ls & e1 & -> & He1 & Hd1).
  { unfold log. destruct (bp_sink bp); [|exists StatusOk, e; by split_and!; [|apply I|]].
    destruct (env_log (f_page f) e) as [ls e1] eqn:El. exists ls, e1.
    destruct (env_log_law e _ _ _ (inv_env _ _ I) Hpg El). auto. }
  pose proof (inv_disk _ _ _ I He1 Hd1) as I1.
  destruct (negb (ok ls)) eqn:Els.
  { intros [= <- <- <-]. split_and!; [done|done|by intros id _|]. by rewrite (proj1 (negb_true_iff _) Els). }
  destruct (env_write (f_page f) e1) as [ws e2] eqn:Ew.
  destruct (env_write_law e1 _ _ _ He1 Hpg Ew) as (He2 & Hoth & Hok).
  assert (disk_kept bp e e2) as Hk.
  { intros id Hr. rewrite Hoth by (intros ->; by apply (resident_None _ _ _ _ Hr Hl Hu)). apply Hd1. }
  assert (forall j h, j <> i -> bp_frames bp !! j = Some h -> frame_ok e2 (bp_clock bp) h) as Hrest.
  { intros j h Hj Hlj. eapply frame_ok_disk; [|by eapply (inv_frames _ _ I1)].
    intros Hju. apply Hoth. intros Hid. apply Hj. by eapply (inv_ids _ _ I). }
  destruct (negb (ok ws)) eqn:Ews.
  { intros [= <- <- <-]. split_and!; [|done|done|by rewrite (proj1 (negb_true_iff _) Ews)].
    eapply inv_env_change; [done..|]. intros j h Hj. destruct (decide (j = i)) as [->|]; [|by eapply Hrest]. simplify_eq.
    do 2 (split; [done|]). intros _. do 3 (split; [done|]). congruence. }
  intros [= <- <- <-]. apply negb_false_iff in Ews. specialize (Hok Ews). split_and!.
  - eapply inv_upd; eauto; [done|]. do 2 (split; [done|]). intros _. do 3 (split; [done|]). done.
  - split; [|done..]. simpl. apply Forall2_lookup. intros j. rewrite list_lookup_alter.
    case_decide; subst; [rewrite Hl; constructor; by right|].
    destruct (bp_frames bp !! j); constructor. by left.
  - done.
  - intros _. split; [done|]. intros g [(_ & h & Hh & ->)|[? _]]%upd_lookup _; done.
Qed.
End Invariant.

(** ** Sequences of flushes *)

Section Flushing.
Context {E : Type} `{PL : PageEnvLaws E}.
Implicit Types (bp : BufferPool) (e : E).

Lemma cleaned_lookup bp bp' i f' :
  cleaned bp bp' -> bp_frames bp' !! i = Some f' ->
  exists f, bp_frames bp !! i = Some f /\ cleaned_frame f f'.
Proof. intros [Hf _ _ _ _] Hl. by eapply Forall2_lookup_r in Hl. Qed.

Definition clean_at bp (i : nat) : Prop :=
  forall f, bp_frames bp !! i = Some f -> f_in_use f = true -> page_dirty (f_page f) = false.

Lemma clean_at_cleaned bp bp' i : cleaned bp bp' -> clean_at bp i -> clean_at bp' i.
Proof.
  intros Hc Hi f' Hl Hu. destruct (cleaned_lookup _ _ _ _ Hc Hl) as (f & Hf & [->| ->]); [|done].
  by apply Hi.
Qed.

Lemma flush_victims_spec victims bp e s bp' e' :
  pool_inv bp e -> flush_victims victims bp e = (s, bp', e') ->
  pool_inv bp' e' /\ cleaned bp bp' /\ disk_kept bp e e' /\
  (ok s = true -> s = StatusOk /\ Forall (clean_at bp') victims).
Proof.
  revert bp e. induction victims as [|i victims IH]; intros bp e I; simpl.
  { intros [= <- <- <-]. split_and!; [done|done|done|]. by intros _. }
  destruct (FlushFrame i bp e) as [[s1 bp1] e1] eqn:Ef.
  destruct (FlushFrame_spec _ _ _ _ _ _ I Ef) as (I1 & Hc1 & Hk1 & Hok1).
  destruct (ok s1) eqn:Es; simpl; [|intros [= <- <- <-]; by rewrite Es].
  intros Hr. destruct (IH _ _ I1 Hr) as (I2 & Hc2 & Hk2 & Hok2).
  split_and!; [done|by transitivity bp1| |].
  - eapply disk_kept_trans; eauto using cleaned_same_pages.
  - intros Hs. destruct (Hok2 Hs) as [-> Hv]. split; [done|]. constructor; [|done].
    eapply clean_at_cleaned; [done|]. exact (proj2 (Hok1 eq_refl)).
Qed.

Lemma FlushAll_loop_spec n i first bp e s bp' e' :
  pool_inv bp e -> (i + n)%nat = length (bp_frames bp) ->
  FlushAll_loop n i first bp e = (s, bp', e') ->
  pool_inv bp' e' /\ cleaned bp bp' /\ disk_kept bp e e' /\
  (ok s = true -> s = first /\ forall j, (i <= j)%nat -> clean_at bp' j).
Proof.
  revert i first bp e. induction n as [|n IH]; intros i first bp e I Hlen; simpl.
  { intros [= <- <- <-]. split_and!; [done|done|done|]. intros _. split; [done|].
    intros j Hj f Hl. apply lookup_lt_Some in Hl. lia. }
  destruct (lookup_lt_is_Some_2 (bp_frames bp) i ltac:(lia)) as [f Hf]. rewrite Hf.
  assert (forall bp1 e1 first1, cleaned bp bp1 -> disk_kept bp e e1 -> pool_inv bp1 e1 ->
    clean_at bp1 i -> (ok first1 = true -> first1 = first) \/ ok first1 = false ->
    FlushAll_loop n (S i) first1 bp1 e1 = (s, bp', e') ->
    pool_inv bp' e' /\ cleaned bp bp' /\ disk_kept bp e e' /\
    (ok s = true -> s = first /\ forall j, (i <= j)%nat -> clean_at bp' j)) as Hgo.
  { intros bp1 e1 first1 Hc1 Hk1 I1 Hcl Hfirst Hr.
    destruct (IH (S i) first1 bp1 e1 I1) as (I2 & Hc2 & Hk2 & Hok2); [|done|].
    { rewrite (Forall2_length _ _ _ (cleaned_frames _ _ Hc1)) in Hlen. lia. }
    split_and!; [done|by transitivity bp1|by eapply disk_kept_trans; eauto using cleaned_same_pages|].
    intros Hs. destruct (Hok2 Hs) as [-> Hall]. split.
    - destruct Hfirst as [Hfirst|Hfirst]; [auto|congruence].
    - intros j Hj. destruct (decide (j = i)) as [->|]; [by eapply clean_at_cleaned|apply Hall; lia]. }
  destruct (negb (f_in_use f) || _) eqn:Hd.
  { apply Hgo; auto; try reflexivity; [by intros id _|].
    intros g Hg Hu. simplify_eq. rewrite Hu in Hd. by destruct (page_dirty _). }
  destruct (FlushFrame i bp e) as [[s1 bp1] e1] eqn:Ef.
  destruct (FlushFrame_spec _ _ _ _ _ _ I Ef) as (I1 & Hc1 & Hk1 & Hok1).
  destruct (ok s1) eqn:Es; simpl.
  - apply Hgo; auto. exact (proj2 (Hok1 eq_refl)).
  - intros Hr. destruct (IH (S i) (if ok first then s1 else first) bp1 e1 I1) as (I2 & Hc2 & Hk2 & Hok2); [|done|].
    { rewrite (Forall2_length _ _ _ (cleaned_frames _ _ Hc1)) in Hlen. lia. }
    split_and!; [done|by transitivity bp1|by eapply disk_kept_trans; eauto using cleaned_same_pages|].
    intros Hs. destruct (Hok2 Hs) as [-> _]. destruct (ok first) eqn:?; congruence.
Qed.

Lemma FlushAll_spec bp e s bp' e' :
  pool_inv bp e -> FlushAll bp e = (s, bp', e') ->
  pool_inv bp' e' /\ cleaned bp bp' /\ disk_kept bp e e' /\
  (ok s = true -> s = StatusOk /\ forall j, clean_at bp' j).
Proof.
  intros I. unfold FlushAll. rewrite (inv_storage _ _ I). simpl. intros Hr.
  destruct (FlushAll_loop_spec _ 0 _ _ _ _ _ _ I eq_refl Hr) as (? & ? & ? & Hok).
  split_and!; [done..|]. intros Hs. destruct (Hok Hs). split; [done|]. intros. auto with lia.
Qed.

(** ** Choosing a frame *)

Lemma victim_scan_spec i fs v o :
  (victim_scan i fs v o = v /\ forall j g, fs !! j = Some g -> evictable g = true -> o <= f_last g) \/
  (exists j f, victim_scan i fs v o = Some (i + j)%nat /\ fs !! j = Some f /\ evictable f = true /\
     f_last f < o /\ forall k g, fs !! k = Some g -> evictable g = true -> f_last f <= f_last g).
Proof.
  revert i v o. induction fs as [|f fs IH]; intros i v o; simpl; [by left|].
  fold (evictable f). destruct (evictable f && (f_last f <? o)) eqn:C; zb.
  - right. destruct (IH (S i) (Some i) (f_last f)) as [[-> Hall]|(j & g & -> & Hg & He & Hlt & Hall)].
    + exists 0%nat, f. rewrite Nat.add_0_r. split_and!; auto.
      intros [|k] g Hk Hev; simpl in Hk; [simplify_eq; lia|eauto].
    + exists (S j), g. rewrite Nat.add_succ_r. split_and!; auto; [lia|].
      intros [|k] h Hk Hev; simpl in Hk; [simplify_eq; lia|eauto].
  - destruct (IH (S i) v o) as [[-> Hall]|(j & g & -> & Hg & He & Hlt & Hall)].
    + left. split; [done|]. intros [|k] g Hk Hev; simpl in Hk; [|eauto].
      simplify_eq. rewrite Hev in C. simpl in C. zb. lia.
    + right. exists (S j), g. rewrite Nat.add_succ_r. split_and!; auto.
      intros [|k] h Hk Hev; simpl in Hk; [|eauto]. simplify_eq. rewrite Hev in C. simpl in C. zb. lia.
Qed.

Lemma free_frame_spec bp :
  match free_frame bp with
  | Some i => exists f, bp_frames bp !! i = Some f /\ f_in_use f = false
  | None => pool_size bp = zlen (bp_frames bp)
  end.
Proof.
  unfold free_frame. destruct (list_find _ _) as [[i f]|] eqn:El; simpl.
  - apply list_find_Some in El as (Hl & Hf%Is_true_true%negb_true_iff & _). eauto.
  - apply list_find_None in El. unfold pool_size. induction El as [|f fs Hf _ IH]; [done|].
    rewrite count_cons, zlen_cons, IH. destruct (f_in_use f); [done|]. by destruct Hf.
Qed.

(** The frame is free, or its page is the least recently used unpinned one. *)
Definition acquired bp bp' (i : nat) : Prop :=
  exists f, bp_frames bp' !! i = Some f /\
    (f_in_use f = false /\ pool_size bp < bp_capacity bp /\ bp' = bp \/
     evictable f = true /\ page_dirty (f_page f) = false /\ bp_capacity bp <= pool_size bp /\
     forall k g, bp_frames bp !! k = Some g -> evictable g = true -> f_last f <= f_last g).

Lemma AcquireFrame_spec bp e s slot bp' e' :
  pool_inv bp e -> AcquireFrame bp e = (s, slot, bp', e') ->
  pool_inv bp' e' /\ cleaned bp bp' /\ disk_kept bp e e' /\
  match slot with
  | None => ok s = false /\ bp_capacity bp <= pool_size bp
  | Some i => s = StatusOk /\ acquired bp bp' i
  end.
Proof.
  intros I. unfold AcquireFrame. pose proof (free_frame_spec bp) as Hfree.
  destruct (pool_size bp <? bp_capacity bp) eqn:Hsz; zb.
  { destruct (free_frame bp) as [i|]; [|pose proof (inv_capacity _ _ I); lia].
    intros [= <- <- <- <-]. destruct Hfree as (f & Hl & Hf).
    split_and!; [done|done|done|done|]. exists f. split; [done|]. left. auto. }
  unfold evict_frame.
  destruct (victim_scan_spec 0 (bp_frames bp) None UINT64_MAX)
    as [[-> Hall]|(j & f & -> & Hl & Hev & _ & Hall)].
  { intros [= <- <- <- <-]. by split_and!. }
  simpl. destruct (FlushFrame j bp e) as [[s1 bp1] e1] eqn:Ef.
  destruct (FlushFrame_spec _ _ _ _ _ _ I Ef) as (I1 & Hc1 & Hk1 & Hok1).
  destruct (ok s1) eqn:Es; simpl; intros [= <- <- <- <-]; (split; [done|]); (split; [done|]);
    (split; [done|]); [|done]. split; [done|].
  destruct (Forall2_lookup_l _ _ _ _ _ (cleaned_frames _ _ Hc1) Hl) as (f' & Hf' & Hcf).
  assert (f_in_use f' = f_in_use f /\ f_pin f' = f_pin f /\ f_last f' = f_last f) as (Hu & Hp & Ht)
    by (by destruct Hcf as [->| ->]).
  exists f'. split; [done|]. right. unfold evictable in *. rewrite Hu, Hp, Ht. split_and!; auto.
  apply (proj2 (Hok1 eq_refl) f' Hf'). rewrite Hu. by apply andb_true_iff in Hev as [? _].
Qed.
End Flushing.

(** ** Making a frame the most recent *)

(** [bp'] is [bp] with frame [i] replaced by [f'], whose stamp is the newest,
    and the other frames in the same recency order. *)
Record promoted (bp bp' : BufferPool) (i : nat) (f' : Frame) : Prop := {
  prom_at : bp_frames bp' !! i = Some f';
  prom_other : forall j, j <> i -> exists t, bp_frames bp' !! j = set_last t <$> bp_frames bp !! j;
  prom_newest : forall j g, j <> i -> bp_frames bp' !! j = Some g -> f_in_use g = true ->
    f_last g < f_last f';
  prom_order : forall j k g h g' h', j <> i -> k <> i ->
    bp_frames bp !! j = Some g -> bp_frames bp !! k = Some h ->
    bp_frames bp' !! j = Some g' -> bp_frames bp' !! k = Some h' ->
    f_in_use g = true -> f_in_use h = true -> f_last g < f_last h -> f_last g' < f_last h';
  prom_len : zlen (bp_frames bp') = zlen (bp_frames bp);
  prom_capacity : bp_capacity bp' = bp_capacity bp;
  prom_storage : bp_storage bp' = bp_storage bp;
  prom_sink : bp_sink bp' = bp_sink bp;
  prom_clock : bp_clock bp' = f_last f' }.

Lemma restamped_lookup fs fs' i f' :
  restamped fs fs' -> fs' !! i = Some f' -> exists f t, fs !! i = Some f /\ f' = set_last t f.
Proof. intros [Hf _] Hl. destruct (Forall2_lookup_r _ _ _ _ _ Hf Hl) as (f & ? & t & ->). eauto. Qed.

Lemma stamp_promote bp i f g1 g2 :
  stamps_ok (bp_clock bp) (bp_frames bp) -> zlen (bp_frames bp) <= kMaxFrames ->
  0 <= bp_clock bp <= UINT64_MAX -> bp_frames bp !! i = Some f ->
  f_in_use (g1 f) = f_in_use f -> f_last (g1 f) = f_last f ->
  (forall t h, f_last (g2 t h) = t) -> (forall t x h, g2 t (set_last x h) = g2 t h) ->
  let '(t, bp3) := NextTimestamp (upd_frame i g1 bp) in
  1 <= t <= UINT64_MAX /\ promoted bp (upd_frame i (g2 t) bp3) i (g2 t (g1 f)) /\
  stamps_ok t (bp_frames (upd_frame i (g2 t) bp3)).
Proof.
  intros Hs Hm Hc Hl Hu Ht Hlast Hset.
  destruct (NextTimestamp_spec (upd_frame i g1 bp)) as (fs' & t & -> & Htr & Hre & Hso).
  { by apply (stamps_upd _ _ _ f). }
  { simpl. unfold zlen in *. by rewrite length_alter. }
  { done. }
  pose proof (Forall2_length _ _ _ (restamped_frames _ _ Hre)) as Hlen. simpl in Hlen.
  rewrite length_alter in Hlen.
  assert (exists x, fs' !! i = Some (set_last x (g1 f))) as [x Hx].
  { destruct (Forall2_lookup_l _ _ _ i (g1 f) (restamped_frames _ _ Hre)) as (f' & Hf' & x & ->); [|eauto].
    simpl. by rewrite list_lookup_alter_eq, Hl. }
  assert (forall j, j <> i -> alter (g2 t) i fs' !! j = fs' !! j) as Hother
    by (intros; by apply list_lookup_alter_ne).
  assert (forall j, j <> i -> bp_frames (upd_frame i g1 bp) !! j = bp_frames bp !! j) as Hold
    by (intros; by apply list_lookup_alter_ne).
  split; [done|]. split.
  - split; simpl; [..|done|done|done|by rewrite Hlast].
    + by rewrite list_lookup_alter_eq, Hx, <- (Hset t x).
    + intros j Hj. rewrite Hother by done.
      destruct (fs' !! j) as [f'|] eqn:E1.
      * destruct (restamped_lookup _ _ _ _ Hre E1) as (h & y & Hh & ->).
        rewrite Hold in Hh by done. rewrite Hh. by exists y.
      * exists 0. destruct (bp_frames bp !! j) eqn:E2; [|done].
        apply lookup_ge_None in E1. apply lookup_lt_Some in E2. lia.
    + intros j g Hj. rewrite Hother by done. intros Hg Hgu. rewrite Hlast.
      pose proof (stamps_range _ _ Hso j g Hg Hgu). lia.
    + intros j k g h g' h' Hj Hk Hg Hh. rewrite !Hother by done. intros Hg' Hh' Hgu Hhu Hlt.
      eapply (restamped_order _ _ Hre j k g h); eauto; by rewrite Hold.
    + unfold zlen. rewrite length_alter. lia.
  - split; simpl.
    + intros j g. rewrite list_lookup_alter. case_decide as Hij.
      * intros (h & _ & ->)%fmap_Some _. rewrite Hlast. lia.
      * intros Hg Hgu. pose proof (stamps_range _ _ Hso j g Hg Hgu). lia.
    + intros j k g h. rewrite !list_lookup_alter. repeat case_decide; subst; [done|..].
      * intros (h0 & _ & ->)%fmap_Some Hh _ Hhu. rewrite Hlast.
        pose proof (stamps_range _ _ Hso k h Hh Hhu). lia.
      * intros Hg (h0 & _ & ->)%fmap_Some Hgu _. rewrite Hlast.
        pose proof (stamps_range _ _ Hso j g Hg Hgu). lia.
      * apply (stamps_distinct _ _ Hso).
Qed.

Section Fetching.
Context {E : Type} `{PL : PageEnvLaws E}.
Implicit Types (bp : BufferPool) (e : E).

Lemma frame_ok_stamp e c c' f t :
  frame_ok e c f -> (f_in_use f = true -> 1 <= t <= c') -> frame_ok e c' (set_last t f).
Proof.
  intros (H1 & H2 & H3) Ht. do 2 (split; [done|]). intros Hu.
  destruct (H3 Hu) as (? & ? & ? & ?). simpl. auto.
Qed.

Lemma prom_lookup bp bp' i f' j g :
  promoted bp bp' i f' -> bp_frames bp' !! j = Some g ->
  j = i /\ g = f' \/ j <> i /\ exists h t, bp_frames bp !! j = Some h /\ g = set_last t h.
Proof.
  intros P Hl. destruct (decide (j = i)) as [->|Hj].
  - left. rewrite (prom_at _ _ _ _ P) in Hl. by simplify_eq.
  - right. split; [done|]. destruct (prom_other _ _ _ _ P j Hj) as [t Ht]. rewrite Ht in Hl.
    apply fmap_Some in Hl as (h & Hh & ->). eauto.
Qed.

(** What a promotion must satisfy to keep the invariant. *)
Lemma prom_inv bp bp' e i f f' :
  pool_inv bp e -> promoted bp bp' i f' -> stamps_ok (f_last f') (bp_frames bp') ->
  0 <= f_last f' <= UINT64_MAX -> bp_frames bp !! i = Some f -> frame_ok e (f_last f') f' ->
  pool_size bp' <= bp_capacity bp ->
  (f_in_use f' = true -> forall j g, j <> i -> bp_frames bp !! j = Some g -> f_in_use g = true ->
     page_id (f_page g) <> page_id (f_page f')) ->
  pool_inv bp' e.
Proof.
  intros I P Hs Ht Hl Hf Hsz Hid. split.
  - apply I.
  - rewrite (prom_storage _ _ _ _ P). apply I.
  - rewrite (prom_capacity _ _ _ _ P), (prom_len _ _ _ _ P). apply I.
  - rewrite (prom_len _ _ _ _ P). apply I.
  - by rewrite (prom_capacity _ _ _ _ P).
  - rewrite (prom_clock _ _ _ _ P). intros j g Hg.
    pose proof (stamps_range _ _ Hs j g Hg) as Hr.
    destruct (prom_lookup _ _ _ _ _ _ P Hg) as [[-> ->]|(Hj & h & t & Hh & ->)]; [done|].
    eapply frame_ok_stamp; [by eapply (inv_frames _ _ I)|done].
  - intros j k g h Hg Hh Hgu Hhu Heq.
    destruct (prom_lookup _ _ _ _ _ _ P Hg) as [[-> ->]|(Hj & g0 & t & Hg0 & ->)],
      (prom_lookup _ _ _ _ _ _ P Hh) as [[-> ->]|(Hk & h0 & t' & Hh0 & ->)]; [done|..]; simpl in *.
    + by destruct (Hid Hgu k h0 Hk Hh0 Hhu).
    + by destruct (Hid Hhu j g0 Hj Hg0 Hgu).
    + by eapply (inv_ids _ _ I j k g0 h0).
  - apply Hs.
  - rewrite (prom_clock _ _ _ _ P). lia.
Qed.

Lemma prom_size bp bp' i f f' :
  promoted bp bp' i f' -> bp_frames bp !! i = Some f ->
  pool_size bp' = pool_size bp - Z.b2z (f_in_use f) + Z.b2z (f_in_use f').
Proof.
  intros P Hl. unfold pool_size. rewrite <- (count_insert _ _ _ _ f' Hl).
  assert (Forall2 (fun a b => f_in_use a = f_in_use b) (bp_frames bp') (<[i:=f']> (bp_frames bp))) as Hf.
  { apply Forall2_lookup. intros j. pose proof (lookup_lt_Some _ _ _ Hl).
    destruct (decide (j = i)) as [->|Hj].
    - rewrite (prom_at _ _ _ _ P), list_lookup_insert_eq by done. by constructor.
    - rewrite list_lookup_insert_ne by done. destruct (prom_other _ _ _ _ P j Hj) as [t ->].
      destruct (bp_frames bp !! j); by constructor. }
  induction Hf as [|a b fs gs Hab _ IH]; [done|]. by rewrite !count_cons, Hab, IH.
Qed.

(** Loading page [p] into frame [i], which is free or holds a clean page: the
    contents clients see do not change. *)
Lemma prom_install_logical bp bp' e i f f' :
  pool_inv bp e -> pool_inv bp' e -> promoted bp bp' i f' -> bp_frames bp !! i = Some f ->
  f_in_use f' = true -> page_dirty (f_page f') = false ->
  resident bp (page_id (f_page f')) = None -> (f_in_use f = true -> page_dirty (f_page f) = false) ->
  forall id, logical bp' e id = logical bp e id.
Proof.
  intros I I' P Hl Hu Hcl Hr Hdf id.
  assert (forall j g, j <> i -> bp_frames bp !! j = Some g -> f_in_use g = true ->
    logical bp' e (page_id (f_page g)) = Some (page_data (f_page g))) as Hkept.
  { intros j g Hj Hg Hgu. destruct (prom_other _ _ _ _ P j Hj) as [t Ht]. rewrite Hg in Ht. simpl in Ht.
    destruct (resident_at _ _ _ _ I' Ht Hgu) as [_ Hr']. simpl in Hr'. unfold logical. by rewrite Hr'. }
  destruct (decide (id = page_id (f_page f'))) as [->|Hne].
  { destruct (resident_at _ _ _ _ I' (prom_at _ _ _ _ P) Hu) as [_ Hr'].
    unfold logical. rewrite Hr, Hr'. symmetry.
    destruct (inv_frames _ _ I' _ _ (prom_at _ _ _ _ P)) as (_ & _ & H3). by apply H3. }
  unfold logical at 2. destruct (resident bp id) as [g|] eqn:Hg.
  - apply resident_Some in Hg as (j & Hj & Hgu & <-).
    destruct (decide (j = i)) as [->|Hji]; [|by apply (Hkept j)].
    assert (g = f) as -> by congruence.
    unfold logical. destruct (resident bp' (page_id (f_page f))) as [h|] eqn:Hh.
    + apply resident_Some in Hh as (k & Hk & Hhu & Hid).
      destruct (prom_lookup _ _ _ _ _ _ P Hk) as [[-> ->]|(Hki & h0 & t & Hh0 & ->)]; [congruence|].
      destruct Hki. by eapply (inv_ids _ _ I k i h0 f).
    + destruct (inv_frames _ _ I _ _ Hj) as (_ & _ & H3). apply (H3 Hgu). auto.
  - unfold logical. destruct (resident bp' id) as [h|] eqn:Hh; [|done].
    apply resident_Some in Hh as (k & Hk & Hhu & <-).
    destruct (prom_lookup _ _ _ _ _ _ P Hk) as [[-> ->]|(Hki & h0 & t & Hh0 & ->)]; [done|].
    by destruct (resident_None _ _ _ _ Hg Hh0 Hhu).
Qed.

(** How a successful fetch came about. *)
Definition fetch_hit bp bp1 (i : nat) (f' : Frame) : Prop :=
  bp1 = bp /\ exists f, bp_frames bp !! i = Some f /\ f_in_use f = true /\
    f' = set_last (f_last f') (set_pin (f_pin f + 1) f).
Definition fetch_miss bp bp1 (i : nat) (f' : Frame) : Prop :=
  resident bp (page_id (f_page f')) = None /\ f_pin f' = 1 /\ page_dirty (f_page f') = false /\
  acquired bp bp1 i.

Lemma Fetch_hit_spec id i bp e s h bp' e' :
  pool_inv bp e -> id <> kInvalidId -> FindFrame id bp = Some i -> Fetch true id bp e = (s, h, bp', e') ->
  e' = e /\ s = StatusOk /\ h = Some i /\ pool_inv bp' e /\ same_pages bp bp' /\
  exists f', promoted bp bp' i f' /\ f_in_use f' = true /\ page_id (f_page f') = id /\
    fetch_hit bp bp i f'.
Proof.
  intros I Hid Hfind. unfold Fetch. rewrite (inv_storage _ _ I), Hfind. cbn [negb].
  replace (id =? kInvalidId) with false by lia.
  destruct (FindFrame_Some _ _ _ Hfind) as (f & Hl & Hu & Hfid).
  pose proof (stamp_promote bp i f (fun f => set_pin (f_pin f + 1) f) set_last
    (inv_stamps_ok _ _ I) (inv_max _ _ I) (inv_clock _ _ I) Hl eq_refl eq_refl
    (fun _ _ => eq_refl) (fun _ _ _ => eq_refl)) as Hp.
  destruct (NextTimestamp _) as [t bp3]. destruct Hp as (Ht & P & Hs).
  intros [= <- <- <- <-]. set (f' := set_last t _) in *.
  destruct (inv_frames _ _ I _ _ Hl) as (Hpin & Hfree & Huse).
  do 3 (split; [done|]). split; [|split; [|exists f'; split; [exact P|split; [exact Hu|split; [exact Hfid|]]]]].
  - apply (prom_inv bp _ e i f f' I P Hs); [simpl; lia|done| | |].
    + destruct (Huse Hu) as (? & ? & ? & ?).
      split; [simpl; lia|]. split; [simpl; congruence|]. intros _. do 2 (split; [done|]).
      split; [simpl; lia|done].
    + rewrite (prom_size _ _ _ _ _ P Hl). simpl. rewrite Hu. pose proof (inv_size _ _ I). lia.
    + intros _ j g Hj Hg Hgu Heq. apply Hj. by eapply (inv_ids _ _ I j i g f).
  - apply Forall2_lookup. intros j. destruct (decide (j = i)) as [->|Hj].
    + rewrite Hl, (prom_at _ _ _ _ P). by constructor.
    + destruct (prom_other _ _ _ _ P j Hj) as [t' ->]. by destruct (bp_frames bp !! j); constructor.
  - split; [done|]. by exists f.
Qed.

Lemma Fetch_install bp e i f p t bp3 :
  pool_inv bp e -> bp_frames bp !! i = Some f -> page_ok p -> page_id p <> kInvalidId ->
  page_dirty p = false -> disk e (page_id p) = Some (page_data p) -> resident bp (page_id p) = None ->
  (f_in_use f = false -> pool_size bp < bp_capacity bp) ->
  (f_in_use f = true -> page_dirty (f_page f) = false) ->
  NextTimestamp (upd_frame i (fun f => set_pin 1 (set_page p f)) bp) = (t, bp3) ->
  let bp' := upd_frame i (fun f => set_in_use true (set_last t f)) bp3 in
  promoted bp bp' i (MkFrame p 1 t true) /\ pool_inv bp' e /\
  forall id, logical bp' e id = logical bp e id.
Proof.
  intros I Hl Hp Hv Hcl Hd Hr Hsz Hdf HN bp'.
  pose proof (stamp_promote bp i f (fun f => set_pin 1 (set_page p f))
    (fun t f => set_in_use true (set_last t f))
    (inv_stamps_ok _ _ I) (inv_max _ _ I) (inv_clock _ _ I) Hl eq_refl eq_refl
    (fun _ _ => eq_refl) (fun _ _ _ => eq_refl)) as Hpr.
  rewrite HN in Hpr. destruct Hpr as (Ht & P & Hs).
  split; [done|].
  assert (pool_inv bp' e) as I'.
  { apply (prom_inv bp _ e i f _ I P Hs); [simpl; lia|done| | |].
    - split; [simpl; lia|]. split; [done|]. intros _. do 2 (split; [done|]). split; [simpl; lia|done].
    - rewrite (prom_size _ _ _ _ _ P Hl). simpl. pose proof (inv_size _ _ I).
      destruct (f_in_use f); simpl; [lia|specialize (Hsz eq_refl); lia].
    - intros _ j g _ Hg Hgu. simpl. by eapply resident_None. }
  split; [done|]. by eapply (prom_install_logical bp _ e i f _ I I' P Hl).
Qed.

Lemma Fetch_spec id bp e s h bp' e' :
  pool_inv bp e -> 0 <= id <= kInvalidId -> Fetch true id bp e = (s, h, bp', e') ->
  pool_inv bp' e' /\ (forall j, logical bp' e' j = logical bp e j) /\
  match h with
  | None => ok s = false /\ cleaned bp bp'
  | Some i => s = StatusOk /\ exists bp1 f', cleaned bp bp1 /\ promoted bp1 bp' i f' /\
      f_in_use f' = true /\ page_id (f_page f') = id /\
      logical bp e id = Some (page_data (f_page f')) /\
      (fetch_hit bp bp1 i f' \/ fetch_miss bp bp1 i f')
  end.
Proof.
  intros I Hid HF. destruct (decide (id = kInvalidId)) as [->|Hne].
  { unfold Fetch in HF. rewrite (inv_storage _ _ I) in HF. simpl in HF. injection HF as <- <- <- <-.
    split_and!; [done..|reflexivity]. }
  destruct (FindFrame id bp) as [i|] eqn:Hfind.
  { destruct (Fetch_hit_spec _ _ _ _ _ _ _ _ I Hne Hfind HF)
      as (-> & -> & -> & I' & Hsp & f' & P & Hu & Hfid & Hhit).
    split_and!; [done|by apply logical_same|done|]. exists bp, f'. split_and!; [reflexivity|done..| |by left].
    destruct (resident_at _ _ _ _ I' (prom_at _ _ _ _ P) Hu) as [_ Hr]. rewrite Hfid in Hr.
    rewrite <- (logical_same bp bp' e e) by done. unfold logical. by rewrite Hr. }
  unfold Fetch in HF. rewrite (inv_storage _ _ I), Hfind in HF. cbn [negb] in HF.
  replace (id =? kInvalidId) with false in HF by lia.
  assert (resident bp id = None) as Hres by (unfold resident; by rewrite Hfind).
  destruct (env_read id e) as [[rs out] e0] eqn:Hread.
  destruct (env_read_law _ _ _ _ _ (inv_env _ _ I) (proj1 Hid) Hread) as (He0 & Hd0 & Hok).
  pose proof (inv_disk _ _ _ I He0 Hd0) as I0.
  assert (forall j, logical bp e0 j = logical bp e j) as Hlog0
    by (apply logical_same; [reflexivity|by intros j _]).
  destruct (ok rs) eqn:Ers; cbn [negb] in HF.
  2: { injection HF as <- <- <- <-. split_and!; [done..|reflexivity]. }
  destruct (Hok eq_refl) as (d & -> & Hd & Hdl & Hdb). cbn [default] in HF.
  destruct (AcquireFrame bp e0) as [[[s1 slot] bp1] e1] eqn:HA.
  destruct (AcquireFrame_spec _ _ _ _ _ _ I0 HA) as (I1 & Hc1 & Hk1 & Hslot).
  pose proof (cleaned_same_pages _ _ Hc1) as Hsp.
  assert (forall j, logical bp1 e1 j = logical bp e j) as Hlog1
    by (intros j; by rewrite <- Hlog0; apply logical_same).
  destruct slot as [i|].
  2: { injection HF as <- <- <- <-. destruct Hslot. split_and!; done. }
  destruct Hslot as [-> Hacq]. pose proof Hacq as (f & Hl & Hcase).
  destruct (NextTimestamp _) as [t bp3] eqn:HN. injection HF as <- <- <- <-.
  set (p := MkPage id false d) in *.
  assert (disk e1 id = Some d) as Hd1 by (rewrite (Hk1 id Hres), Hd0; done).
  destruct (Fetch_install bp1 e1 i f p t bp3 I1 Hl) as (P & I' & Hlog'); try done.
  - by apply (resident_same_None bp).
  - intros Hf. rewrite (size_same _ _ Hsp), (cleaned_capacity _ _ Hc1).
    destruct Hcase as [(_ & ? & _)|(Hev & _)]; [done|]. unfold evictable in Hev. by rewrite Hf in Hev.
  - intros Hf. destruct Hcase as [(Hf' & _)|(_ & ? & _)]; [congruence|done].
  - split_and!; [done|by intros j; rewrite Hlog'|done|].
    exists bp1, (MkFrame p 1 t true). split_and!; [done..| |by right].
    unfold logical. by rewrite Hres.
Qed.
End Fetching.

(** ** Resizing *)

Lemma release_lookup victims fs j :
  release_victims victims fs !! j =
    if decide (j ∈ victims) then (fun _ => Frame0) <$> fs !! j else fs !! j.
Proof.
  unfold release_victims. revert fs. induction victims as [|i victims IH]; intros fs; cbn [foldl].
  { by rewrite decide_False by apply not_elem_of_nil. }
  rewrite IH. destruct (decide (j = i)) as [->|Hj].
  - rewrite (decide_True (P := i ∈ i :: victims)) by set_solver.
    destruct (decide (i < length fs)%nat) as [Hlt|Hge].
    + rewrite list_lookup_insert_eq by done. destruct (lookup_lt_is_Some_2 fs i Hlt) as [f ->].
      by case_decide.
    + rewrite list_insert_ge by lia. rewrite lookup_ge_None_2 by lia. by case_decide.
  - rewrite list_lookup_insert_ne by done.
    assert (j ∈ i :: victims <-> j ∈ victims) as Hiff by (rewrite elem_of_cons; tauto).
    repeat case_decide; tauto.
Qed.

Lemma release_length victims fs : length (release_victims victims fs) = length fs.
Proof.
  unfold release_victims. revert fs. induction victims as [|i victims IH]; intros fs; simpl; [done|].
  by rewrite IH, length_insert.
Qed.

Lemma release_count victims fs :
  NoDup victims -> (forall i, i ∈ victims -> exists f, fs !! i = Some f /\ f_in_use f = true) ->
  count_frames f_in_use (release_victims victims fs) = count_frames f_in_use fs - zlen victims.
Proof.
  unfold release_victims. intros Hnd. revert fs. induction Hnd as [|i victims Hi Hnd IH]; intros fs Hv; simpl.
  { change (zlen []) with 0. lia. }
  destruct (Hv i ltac:(set_solver)) as (f & Hl & Hu). rewrite IH, zlen_cons.
  - rewrite (count_insert _ _ _ _ _ Hl), Hu. simpl. lia.
  - intros j Hj. rewrite list_lookup_insert_ne by (intros ->; done). apply Hv. set_solver.
Qed.

Lemma trim_spec cap fs :
  cap <= zlen fs ->
  exists n, rev (trim_back cap (rev fs)) = take n fs /\ cap <= zlen (take n fs) /\
    forall j f, (n <= j)%nat -> fs !! j = Some f -> f_in_use f = false.
Proof.
  induction fs as [|f fs IH] using rev_ind; intros Hc.
  { exists 0%nat. split_and!; [done|done|]. intros j f _ Hl. done. }
  rewrite rev_app_distr. simpl. rewrite zlen_app, zlen_single in Hc.
  assert (zlen (f :: rev fs) = zlen fs + 1) as -> by (unfold zlen; simpl; rewrite length_rev; lia).
  destruct ((cap <? zlen fs + 1) && negb (f_in_use f)) eqn:C; zb.
  - destruct IH as (n & Hn & Hcn & Hfree); [lia|]. exists (n `min` length fs)%nat.
    rewrite take_app_le by lia. rewrite Hn. split_and!.
    + destruct (decide (n <= length fs)%nat); [by rewrite Nat.min_l by lia|].
      rewrite Nat.min_r by lia. by rewrite !take_ge by lia.
    + destruct (decide (n <= length fs)%nat); [by rewrite Nat.min_l by lia|].
      rewrite Nat.min_r by lia. rewrite take_ge by lia. lia.
    + intros j g Hj [Hg|[Hge Hg]]%lookup_app_Some.
      * apply lookup_lt_Some in Hg as Hlt. apply (Hfree j g); [lia|done].
      * apply list_lookup_singleton_Some in Hg as [_ <-]. done.
  - exists (S (length fs)). simpl. rewrite rev_involutive. rewrite take_ge by (rewrite length_app; simpl; lia).
    split_and!; [done|rewrite zlen_app, zlen_single; lia|].
    intros j g Hj Hl. apply lookup_lt_Some in Hl. rewrite length_app in Hl. simpl in Hl. lia.
Qed.

Section Resizing.
Context {E : Type} `{PL : PageEnvLaws E}.
Implicit Types (bp : BufferPool) (e : E).

(** Dropping clean pages and free frames does not change what clients see. *)
Lemma logical_drop bp bp' e :
  pool_inv bp e -> pool_inv bp' e ->
  (forall j f, bp_frames bp' !! j = Some f -> f_in_use f = true -> bp_frames bp !! j = Some f) ->
  (forall j f, bp_frames bp !! j = Some f -> f_in_use f = true ->
     bp_frames bp' !! j = Some f \/ page_dirty (f_page f) = false) ->
  forall id, logical bp' e id = logical bp e id.
Proof.
  intros I I' Hsub Hkeep id. unfold logical.
  destruct (resident bp' id) as [f'|] eqn:Hr'.
  - apply resident_Some in Hr' as (j & Hj & Hu & <-).
    by destruct (resident_at _ _ _ _ I (Hsub _ _ Hj Hu) Hu) as [_ ->].
  - destruct (resident bp id) as [f|] eqn:Hr; [|done].
    apply resident_Some in Hr as (j & Hj & Hu & <-).
    destruct (Hkeep j f Hj Hu) as [Hj'|Hd].
    + by destruct (resident_None _ _ _ _ Hr' Hj' Hu).
    + destruct (inv_frames _ _ I _ _ Hj) as (_ & _ & H3). by apply (H3 Hu).
Qed.

Lemma inv_drop bp bp' e :
  pool_inv bp e ->
  (forall j f, bp_frames bp' !! j = Some f -> bp_frames bp !! j = Some f \/ f = Frame0) ->
  bp_storage bp' = bp_storage bp -> bp_clock bp' = bp_clock bp ->
  0 < bp_capacity bp' <= zlen (bp_frames bp') -> zlen (bp_frames bp') <= kMaxFrames ->
  pool_size bp' <= bp_capacity bp' -> pool_inv bp' e.
Proof.
  intros I Hsub Hs Hcl Hc Hm Hsz.
  assert (forall j f, bp_frames bp' !! j = Some f -> f_in_use f = true -> bp_frames bp !! j = Some f) as Hin.
  { intros j f Hl Hu. by destruct (Hsub j f Hl) as [?| ->]. }
  split; try done.
  - apply I.
  - rewrite Hs. apply I.
  - rewrite Hcl. intros j f Hl. destruct (Hsub j f Hl) as [Hf| ->]; [by eapply (inv_frames _ _ I)|].
    by split_and!.
  - intros i j f g Hf Hg Hfu Hgu. apply (inv_ids _ _ I i j f g); auto.
  - intros i j f g Hf Hg Hfu Hgu. apply (inv_stamps _ _ I i j f g); auto.
  - rewrite Hcl. apply I.
Qed.

Lemma grow_spec n bp e :
  pool_inv bp e -> bp_capacity bp < n <= kMaxFrames ->
  let bp' := with_capacity (with_frames bp (bp_frames bp ++
               replicate (Z.to_nat (n - zlen (bp_frames bp))) Frame0)) n in
  pool_inv bp' e /\ (forall id, logical bp' e id = logical bp e id) /\
  forall i f, bp_frames bp !! i = Some f -> bp_frames bp' !! i = Some f.
Proof.
  intros I Hn bp'. pose proof (inv_capacity _ _ I). pose proof (inv_max _ _ I). pose proof (inv_size _ _ I).
  assert (forall i f, bp_frames bp !! i = Some f -> bp_frames bp' !! i = Some f) as Hk.
  { intros i f Hl. simpl. by apply lookup_app_l_Some. }
  assert (forall j f, bp_frames bp' !! j = Some f -> bp_frames bp !! j = Some f \/ f = Frame0) as Hsub.
  { intros j f [?|[_ Hl]]%lookup_app_Some; [by left|right]. by apply lookup_replicate in Hl as [-> _]. }
  assert (pool_inv bp' e) as I'.
  { apply (inv_drop bp); [done..| | |].
    - cbn. rewrite zlen_app, zlen_replicate_nat. lia.
    - cbn. rewrite zlen_app, zlen_replicate_nat. lia.
    - unfold pool_size. simpl. rewrite count_app, count_replicate_free. unfold pool_size in *. lia. }
  split_and!; [done| |done]. apply logical_drop; [done..| |].
  - intros j f Hl Hu. by destruct (Hsub j f Hl) as [?| ->].
  - intros j f Hl _. left. by apply Hk.
Qed.

(** The frames after a shrink commits. *)
Lemma shrink_frames n victims bp :
  0 < n <= zlen (bp_frames bp) ->
  let bp' := TrimFreeFrames (with_capacity (with_frames bp (release_victims victims (bp_frames bp))) n) in
  n <= zlen (bp_frames bp') <= zlen (bp_frames bp) /\
  pool_size bp' = count_frames f_in_use (release_victims victims (bp_frames bp)) /\
  (forall j f, bp_frames bp' !! j = Some f ->
     j ∉ victims /\ bp_frames bp !! j = Some f \/ j ∈ victims /\ f = Frame0) /\
  (forall j f, bp_frames bp !! j = Some f -> f_in_use f = true -> j ∉ victims ->
     bp_frames bp' !! j = Some f).
Proof.
  intros Hn. cbn zeta. unfold TrimFreeFrames. simpl.
  set (fs := release_victims victims (bp_frames bp)).
  assert (zlen fs = zlen (bp_frames bp)) as Hz by (unfold zlen, fs; by rewrite release_length).
  destruct (trim_spec n fs ltac:(lia)) as (m & -> & Hm & Hfree). split_and!.
  - done.
  - unfold zlen in *. rewrite length_take. lia.
  - unfold pool_size. simpl. rewrite <- (take_drop m fs) at 2. rewrite count_app.
    assert (count_frames f_in_use (drop m fs) = 0); [|lia].
    apply count_none. intros j f Hj. rewrite lookup_drop in Hj. eapply Hfree; [|exact Hj]. lia.
  - intros j f [Hl Hlt]%lookup_take_Some. unfold fs in Hl. rewrite release_lookup in Hl.
    case_decide; [right|left]; [|done]. apply fmap_Some in Hl as (? & _ & ->). done.
  - intros j f Hl Hu Hj. apply lookup_take_Some.
    assert (fs !! j = Some f) as Hf by (unfold fs; by rewrite release_lookup, decide_False).
    split; [done|]. destruct (decide (j < m)%nat); [done|].
    rewrite (Hfree j f) in Hu by (done || lia). done.
Qed.

Lemma shrink_spec n victims bp e s bp' e' :
  pool_inv bp e -> 0 < n < bp_capacity bp -> NoDup victims ->
  (forall i, i ∈ victims -> exists f, bp_frames bp !! i = Some f /\ evictable f = true) ->
  pool_size bp - zlen victims <= n ->
  shrink n victims bp e = (s, bp', e') ->
  pool_inv bp' e' /\ (forall id, logical bp' e' id = logical bp e id) /\
  if ok s then s = StatusOk /\ bp_capacity bp' = n /\
    (forall j f', bp_frames bp' !! j = Some f' -> f_in_use f' = true -> j ∉ victims) /\
    (forall j f, bp_frames bp !! j = Some f -> f_in_use f = true -> j ∉ victims ->
      exists f', bp_frames bp' !! j = Some f' /\ cleaned_frame f f')
  else cleaned bp bp'.
Proof.
  intros I Hn Hnd Hv Hsz. unfold shrink.
  destruct (flush_victims victims bp e) as [[s1 bp1] e1] eqn:Ef.
  destruct (flush_victims_spec _ _ _ _ _ _ I Ef) as (I1 & Hc1 & Hk1 & Hok1).
  pose proof (cleaned_same_pages _ _ Hc1) as Hsp.
  assert (forall id, logical bp1 e1 id = logical bp e id) as Hlog by (by apply logical_same).
  destruct (ok s1) eqn:Es; simpl; [|intros [= <- <- <-]; by rewrite Es].
  intros [= <- <- <-]. destruct (Hok1 eq_refl) as [_ Hclean]. rewrite Forall_forall in Hclean.
  assert (forall i, i ∈ victims -> exists f, bp_frames bp1 !! i = Some f /\ f_in_use f = true) as Hv1.
  { intros i Hi. destruct (Hv i Hi) as (f & Hl & Hev).
    destruct (Forall2_lookup_l _ _ _ _ _ Hsp Hl) as (f' & Hf' & Hu & _).
    exists f'. split; [done|]. rewrite Hu. by apply andb_true_iff in Hev as [? _]. }
  pose proof (inv_capacity _ _ I1). rewrite (cleaned_capacity _ _ Hc1) in *.
  destruct (shrink_frames n victims bp1 ltac:(lia)) as ((Hz1 & Hz2) & Hcount & Hsub & Hkeep).
  set (bp2 := TrimFreeFrames _) in *.
  rewrite release_count in Hcount by done. fold (pool_size bp1) in Hcount.
  rewrite (size_same _ _ Hsp) in Hcount.
  assert (pool_inv bp2 e1) as I2.
  { apply (inv_drop bp1); [done|..|done|done| | |].
    - intros j f Hl. destruct (Hsub j f Hl) as [[_ ?]|[_ ?]]; auto.
    - change (bp_capacity bp2) with n. lia.
    - pose proof (inv_max _ _ I1). lia.
    - change (bp_capacity bp2) with n. lia. }
  split; [done|]. split.
  - intros id. rewrite <- Hlog. apply logical_drop; [done..| |].
    + intros j f Hl Hu. destruct (Hsub j f Hl) as [[_ ?]|[_ ->]]; done.
    + intros j f Hl Hu. destruct (decide (j ∈ victims)) as [Hj|Hj]; [right|left; by apply Hkeep].
      by apply (Hclean j Hj f).
  - simpl. split_and!; [done|done|..].
    + intros j f' Hl Hu. destruct (Hsub j f' Hl) as [[? _]|[_ ->]]; done.
    + intros j f Hl Hu Hj. destruct (Forall2_lookup_l _ _ _ _ _ (cleaned_frames _ _ Hc1) Hl) as (f' & Hf' & Hcf).
      exists f'. split; [|done]. apply Hkeep; [done| |done]. by destruct Hcf as [->| ->].
Qed.
End Resizing.

(** ** Pins *)

(** No pinned frame is moved, released or given another page, and no pin
    appears or disappears. *)
Record kept (bp bp' : BufferPool) : Prop := {
  kept_pinned : forall i f, bp_frames bp !! i = Some f -> f_in_use f = true -> 0 < f_pin f ->
    exists f', bp_frames bp' !! i = Some f' /\ f_pin f' = f_pin f /\ same_page f f';
  kept_pins : forall i f', bp_frames bp' !! i = Some f' -> f_pin f' <> 0 ->
    exists f, bp_frames bp !! i = Some f /\ f_pin f = f_pin f' }.

Lemma cleaned_kept bp bp' : cleaned bp bp' -> kept bp bp'.
Proof.
  intros Hc. split.
  - intros i f Hl _ _.
    destruct (Forall2_lookup_l _ _ _ _ _ (cleaned_frames _ _ Hc) Hl) as (f' & Hf' & Hcf).
    exists f'. by destruct Hcf as [->| ->].
  - intros i f' Hl _. destruct (cleaned_lookup _ _ _ _ Hc Hl) as (f & Hf & Hcf).
    exists f. by destruct Hcf as [->| ->].
Qed.

Section ResizeSpec.
Context {E : Type} `{PL : PageEnvLaws E}.
Implicit Types (bp : BufferPool) (e : E).

(** The pages a shrink evicts are older than the unpinned ones that stay. *)
Definition lru_evicted bp bp' : Prop :=
  forall i j f g g', bp_frames bp !! i = Some f -> bp_frames bp !! j = Some g ->
    evictable f = true -> evictable g = true ->
    (forall f', bp_frames bp' !! i = Some f' -> f_in_use f' = false) ->
    bp_frames bp' !! j = Some g' -> f_in_use g' = true -> f_last f <= f_last g.

Definition resized n bp bp' : Prop :=
  bp_capacity bp' = n /\ kept bp bp' /\ lru_evicted bp bp'.

Lemma grow_resized n bp bp' :
  bp_capacity bp' = n ->
  (forall i f, bp_frames bp !! i = Some f -> bp_frames bp' !! i = Some f) ->
  (forall j f, bp_frames bp' !! j = Some f -> bp_frames bp !! j = Some f \/ f = Frame0) ->
  resized n bp bp'.
Proof.
  intros Hc Hk Hsub. split_and!; [done| |].
  - split.
    + intros i f Hl _ _. exists f. split_and!; [by apply Hk|done..].
    + intros i f' Hl Hp. destruct (Hsub _ _ Hl) as [?| ->]; [by exists f'|done].
  - intros i j f g g' Hf Hg Hef Heg Hgone _ _. apply Hk, Hgone in Hf.
    unfold evictable in Hef. by rewrite Hf in Hef.
Qed.

Lemma shrink_resized n (victims : list nat) bp bp' e e' :
  pool_inv bp e -> pool_inv bp' e' -> bp_capacity bp' = n ->
  (forall i, i ∈ victims -> exists f, bp_frames bp !! i = Some f /\ evictable f = true) ->
  (forall i j f g, i ∈ victims -> j ∉ victims -> bp_frames bp !! i = Some f ->
     bp_frames bp !! j = Some g -> evictable g = true -> f_last f <= f_last g) ->
  (forall j f', bp_frames bp' !! j = Some f' -> f_in_use f' = true -> j ∉ victims) ->
  (forall j f, bp_frames bp !! j = Some f -> f_in_use f = true -> j ∉ victims ->
      exists f', bp_frames bp' !! j = Some f' /\ cleaned_frame f f') ->
  (forall j f', bp_frames bp' !! j = Some f' -> f_in_use f' = true ->
      exists f, bp_frames bp !! j = Some f /\ cleaned_frame f f') ->
  resized n bp bp'.
Proof.
  intros I I' Hc Hv Hlru Hout Hstay Hback. split_and!; [done| |].
  - split.
    + intros i f Hl Hu Hp. destruct (Hstay i f Hl Hu) as (f' & Hf' & Hcf).
      { intros (g & Hg & Hev)%Hv. simplify_eq. unfold evictable in Hev. zb. lia. }
      exists f'. split; [done|]. by destruct Hcf as [->| ->].
    + intros i f' Hl Hp. destruct (inv_frames _ _ I' _ _ Hl) as (_ & Hfree & _).
      destruct (f_in_use f') eqn:Hu; [|by rewrite Hfree in Hp].
      destruct (Hback i f' Hl Hu) as (f & Hf & Hcf). exists f. split; [done|].
      by destruct Hcf as [->| ->].
  - intros i j f g g' Hf Hg Hef Heg Hgone Hg' Hgu.
    destruct (decide (i ∈ victims)) as [Hi|Hi]; [by eapply (Hlru i j f g); eauto|].
    destruct (Hstay i f Hf) as (f' & Hf' & Hcf); [by apply andb_true_iff in Hef as [? _]|done|].
    apply Hgone in Hf'. unfold evictable in Hef. by destruct Hcf as [->| ->]; simpl in Hf'; rewrite Hf' in Hef.
Qed.

(** The victims of a shrink. *)
Lemma shrink_victims bp e n :
  pool_inv bp e -> n <= zlen (indices evictable 0 (bp_frames bp)) -> 0 <= n ->
  let victims := take (Z.to_nat n) (merge_sort (by_stamp (bp_frames bp)) (indices evictable 0 (bp_frames bp))) in
  NoDup victims /\ zlen victims = n /\
  (forall i, i ∈ victims -> exists f, bp_frames bp !! i = Some f /\ evictable f = true) /\
  (forall i j f g, i ∈ victims -> j ∉ victims -> bp_frames bp !! i = Some f ->
     bp_frames bp !! j = Some g -> evictable g = true -> f_last f <= f_last g).
Proof.
  intros I Hn H0 victims. set (fs := bp_frames bp) in *.
  set (order := merge_sort (by_stamp fs) (indices evictable 0 fs)) in *.
  assert (order ≡ₚ indices evictable 0 fs) as Hperm by apply merge_sort_Permutation.
  assert (StronglySorted (by_stamp fs) order) as Hsort by (apply StronglySorted_merge_sort; apply _).
  assert (forall i, i ∈ order <-> exists f, fs !! i = Some f /\ evictable f = true) as Hin.
  { intros i. rewrite Hperm, elem_of_indices, Nat.sub_0_r. split; [by intros [_ ?]|intros ?; split; [lia|done]]. }
  rewrite <- (take_drop (Z.to_nat n) order) in Hin, Hsort. fold victims in Hin, Hsort.
  split_and!.
  - assert (NoDup order) as Hnd by (rewrite Hperm; apply NoDup_indices).
    rewrite <- (take_drop (Z.to_nat n) order) in Hnd. by apply NoDup_app in Hnd as [? _].
  - unfold victims, zlen in *. rewrite length_take, Hperm. lia.
  - intros i Hi. apply Hin, elem_of_app. by left.
  - intros i j f g Hi Hj Hf Hg Heg.
    assert (j ∈ victims ++ drop (Z.to_nat n) order) as [?|Hd]%elem_of_app by (apply Hin; eauto); [done|].
    pose proof (StronglySorted_app_1_elem_of _ _ _ _ _ Hsort Hi Hd) as Hb.
    unfold by_stamp, stamp in Hb. rewrite Hf, Hg in Hb. simpl in Hb. lia.
Qed.

Lemma shrink_back n victims bp e s bp' e' :
  pool_inv bp e -> 0 < n < bp_capacity bp -> shrink n victims bp e = (s, bp', e') -> ok s = true ->
  forall j f', bp_frames bp' !! j = Some f' -> f_in_use f' = true ->
    exists f, bp_frames bp !! j = Some f /\ cleaned_frame f f'.
Proof.
  intros I Hn. unfold shrink. destruct (flush_victims victims bp e) as [[s1 bp1] e1] eqn:Ef.
  destruct (flush_victims_spec _ _ _ _ _ _ I Ef) as (I1 & Hc1 & _ & _).
  pose proof (inv_capacity _ _ I1). rewrite (cleaned_capacity _ _ Hc1) in *.
  destruct (ok s1) eqn:Es; simpl; intros [= <- <- <-]; [intros _|congruence].
  destruct (shrink_frames n victims bp1 ltac:(lia)) as (_ & _ & Hsub & _).
  intros j f' Hl Hu. destruct (Hsub j f' Hl) as [[_ Hf]|[_ ->]]; [|done].
  by apply (cleaned_lookup _ _ _ _ Hc1).
Qed.

Lemma Resize_spec a n bp e s bp' e' :
  pool_inv bp e -> 0 <= n -> Resize a n bp e = (s, bp', e') ->
  pool_inv bp' e' /\ (forall id, logical bp' e' id = logical bp e id) /\
  if ok s then s = StatusOk /\ resized n bp bp' else cleaned bp bp'.
Proof.
  intros I Hn. unfold Resize.
  destruct (n =? 0) eqn:E0; zb; [by intros [= <- <- <-]|].
  destruct (n =? bp_capacity bp) eqn:E1; zb.
  { intros [= <- <- <-]. split_and!; [done|done|]. simpl. split; [done|]. by apply grow_resized; auto. }
  destruct (bp_capacity bp <? n) eqn:E2; zb.
  - destruct (zlen (bp_frames bp) <? n) eqn:E3; zb.
    + destruct (kMaxFrames <? n) eqn:E4; zb; [by intros [= <- <- <-]|].
      destruct a; simpl; try (by intros [= <- <- <-]). intros [= <- <- <-].
      destruct (grow_spec n bp e I ltac:(lia)) as (I' & Hlog & Hk).
      split_and!; [done|done|]. simpl. split; [done|]. apply grow_resized; [done|done|].
      intros j f [?|[_ Hl]]%lookup_app_Some; [by left|right]. by apply lookup_replicate in Hl as [-> _].
    + intros [= <- <- <-]. pose proof (inv_capacity _ _ I). pose proof (inv_size _ _ I).
      assert (pool_inv (with_capacity bp n) e) as I'.
      { apply (inv_drop bp); [done|by auto|done|done|simpl; lia|apply I|].
        unfold pool_size in *. simpl. lia. }
      split_and!; [done|by apply logical_drop; auto|]. simpl. split; [done|]. by apply grow_resized; auto.
  - destruct (n <? pool_size bp) eqn:E3; zb.
    + destruct (alloc_error a) as [es|] eqn:Ea.
      { intros [= <- <- <-]. split_and!; [done|done|]. by destruct a; simpl in Ea; simplify_eq. }
      destruct (zlen _ <? _) eqn:E4; zb; [by intros [= <- <- <-]|]. intros Hs.
      destruct (shrink_victims bp e (pool_size bp - n) I ltac:(lia) ltac:(lia)) as (Hnd & Hlen & Hv & Hlru).
      destruct (shrink_spec n _ bp e s bp' e' I ltac:(lia) Hnd Hv ltac:(lia) Hs) as (I' & Hlog & Hr).
      split_and!; [done|done|]. destruct (ok s) eqn:Es; [|done]. destruct Hr as (-> & Hc & Hout & Hstay).
      split; [done|]. eapply shrink_resized; eauto. eapply shrink_back; eauto. lia.
    + intros Hs.
      destruct (shrink_spec n [] bp e s bp' e' I ltac:(lia)) as (I' & Hlog & Hr);
        [constructor|set_solver|change (zlen []) with 0; lia|done|].
      split_and!; [done|done|]. destruct (ok s) eqn:Es; [|done]. destruct Hr as (-> & Hc & Hout & Hstay).
      split; [done|]. eapply (shrink_resized n []); eauto; [set_solver..|]. eapply shrink_back; eauto. lia.
Qed.
End ResizeSpec.
