(* ===== verification/BufferPoolSpec.v ===== *)
(** * What the buffer pool guarantees to its clients

    Clients hold handles and work on pages through them.  [pool_step] runs one
    client action against the pool of [BufferPool.v]; the theorems say that the
    pool is invisible: whatever is fetched, evicted, flushed or resized, and
    whatever I/O fails, a client sees the last bytes written to each page.
    [storage_env] shows that [PageStorage] meets the interface the pool is
    verified against. *)

From stdpp Require Import sorting sets.
From S2P Require Import Prelude Bytes Common PageStorage BufferPool.

(** ** The storage behind the pool *)

#[export] Instance storage_env : PageEnv storage := {
  env_read id st := ReadPage id (Some PageDefault) st;
  env_write p st := WritePage p st;
  env_log _ st := (StatusOk, st) }.

Lemma contents_buf st id d : st_sound st -> contents st id = Some d -> buf_ok kPageSize d.
Proof.
  intros (_ & Hb & _). unfold contents. destruct (_ && _) eqn:C; [|done]. zb. intros [= <-].
  split; [|by apply bytes_ok_sub]. assert (npages st * kPageSize <= zlen (st_bytes st)).
  { unfold npages. rewrite Z.mul_comm. by apply Z.mul_div_le. }
  apply zlen_sub; plia.
Qed.

(** The pool may run on a storage whose file ends in part of a page. *)
#[export, refine] Instance storage_env_laws : PageEnvLaws storage :=
  {| env_inv := st_sound; disk := contents |}.
Proof.
  - intros st id s out st' Hs Hid Hr. unfold env_read, storage_env in Hr.
    destruct (st_sound_cases st Hs) as [Hok|Hrag].
    + destruct (ReadPage_spec id PageDefault st Hok Hid) as (s1 & out1 & st1 & Hr1 & Q & C).
      rewrite Hr1 in Hr. injection Hr as <- <- <-.
      split_and!; [by eapply quiet_sound|by intros; apply quiet_contents|]. intros Ho.
      destruct C as [(-> & d & Hd & ->)|[(Hc & _)|(Hc & _)]].
      * exists d. split_and!; [done..|]. by eapply contents_buf.
      * by rewrite (not_ok_code _ _ Hc) in Ho.
      * by rewrite (not_ok_code _ _ Hc) in Ho.
    + destruct (proj1 (ragged_ops st Hs Hrag) id PageDefault) as (s1 & st1 & Hr1 & Q & Hf).
      rewrite Hr1 in Hr. injection Hr as <- <- <-.
      split_and!; [by eapply quiet_sound|by intros; apply quiet_contents|congruence].
  - intros st p s st' Hs Hp Hw. unfold env_write, storage_env in Hw.
    destruct (st_sound_cases st Hs) as [Hok|Hrag].
    + destruct (WritePage_spec p st Hok Hp) as (s1 & st1 & Hw1 & Hok1 & _ & _ & Hoth & C).
      rewrite Hw1 in Hw. injection Hw as <- <-. split_and!; [by apply st_ok_sound|done|]. intros Ho.
      destruct C as [(_ & _ & ?)|[([Hc|Hc] & _)|[Hc _]]]; [done|by rewrite (not_ok_code _ _ Hc) in Ho..].
    + destruct (proj1 (proj2 (ragged_ops st Hs Hrag)) p) as (s1 & st1 & Hw1 & Q & Hf).
      rewrite Hw1 in Hw. injection Hw as <- <-.
      split_and!; [by eapply quiet_sound|by intros; apply quiet_contents|congruence].
  - intros st p s st' Hok _ [= <- <-]. done.
Defined.

(** ** Clients *)

(** A live handle: the frame it holds and the page it was fetched for. *)
Abbreviation handle := (nat * Z)%type.

Inductive pool_op :=
  | PFetch (id : Z)
  | PUnpin (k : nat)               (** release the [k]-th handle *)
  | PWrite (k : nat) (d : list Z)  (** write through the [k]-th handle *)
  | PFlushPage (id : Z)
  | PFlushAll
  | PResize (a : alloc) (n : Z).

Definition pool_op_ok (o : pool_op) : Prop :=
  match o with
  | PFetch id => 0 <= id <= kInvalidId
  | PWrite _ d => buf_ok kPageSize d
  | PResize _ n => 0 <= n
  | _ => True
  end.

Section Client.
Context {E : Type} `{PageEnv E}.

(** The handles held, the pool, its environment, and the writes made so far,
    latest first. *)
Record client := MkClient {
  c_handles : list handle; c_pool : BufferPool; c_env : E; c_writes : list (Z * list Z) }.

Definition pool_step (o : pool_op) (c : client) : Status * client :=
  let 'MkClient hs bp e ws := c in
  match o with
  | PFetch id =>
      let '(s, h, bp, e) := Fetch true id bp e in
      (s, MkClient (match h with Some i => (i, id) :: hs | None => hs end) bp e ws)
  | PUnpin k =>
      let '(s, _, bp) := Unpin (fst <$> hs !! k) bp in
      (s, MkClient (delete k hs) bp e ws)
  | PWrite k d =>
      match hs !! k with
      | Some (i, id) => (StatusOk, MkClient hs (HandleWrite i d bp) e ((id, d) :: ws))
      | None => (StatusOk, c)
      end
  | PFlushPage id => let '(s, bp, e) := FlushPage id bp e in (s, MkClient hs bp e ws)
  | PFlushAll => let '(s, bp, e) := FlushAll bp e in (s, MkClient hs bp e ws)
  | PResize a n => let '(s, bp, e) := Resize a n bp e in (s, MkClient hs bp e ws)
  end.

Fixpoint pool_run (os : list pool_op) (c : client) : list DbError * client :=
  match os with
  | [] => ([], c)
  | o :: os => let '(s, c) := pool_step o c in
               let '(ss, c) := pool_run os c in (code s :: ss, c)
  end.
End Client.
Arguments client : clear implicits.

(** The last write to each page, over the initial contents. *)
Definition after_writes (ws : list (Z * list Z)) (init : Z -> option (list Z)) (id : Z)
    : option (list Z) :=
  match list_find (fun w : Z * list Z => w.1 = id) ws with
  | Some (_, (_, d)) => Some d
  | None => init id
  end.

(** ** Invariant of a client *)

Definition pins (hs : list handle) (i : nat) : Z := zlen (filter (fun h : handle => h.1 = i) hs).

(** Each handle's frame holds its page, and a frame is pinned once per handle. *)
Record handles_ok (hs : list handle) (bp : BufferPool) : Prop := {
  handles_frame : forall i id, (i, id) ∈ hs ->
    exists f, bp_frames bp !! i = Some f /\ f_in_use f = true /\ page_id (f_page f) = id;
  handles_pins : forall i f, bp_frames bp !! i = Some f -> f_pin f = pins hs i }.

Lemma pins_cons i j id hs : pins ((j, id) :: hs) i = (if decide (j = i) then 1 else 0) + pins hs i.
Proof. unfold pins. rewrite filter_cons. simpl. case_decide; [rewrite zlen_cons|]; lia. Qed.

Lemma pins_pos hs i id : (i, id) ∈ hs -> 0 < pins hs i.
Proof.
  intros Hin. unfold pins, zlen. assert ((i, id) ∈ filter (fun h : handle => h.1 = i) hs) as Hf.
  { by apply list_elem_of_filter. }
  destruct (filter _ hs); [by apply elem_of_nil in Hf|simpl; lia].
Qed.

Lemma pins_zero hs i : (forall id, (i, id) ∉ hs) -> pins hs i = 0.
Proof.
  intros Hn. unfold pins. assert (filter (fun h : handle => h.1 = i) hs = []) as ->; [|done].
  apply elem_of_nil_inv. intros [j id] [Hj Hin]%list_elem_of_filter. simpl in Hj. subst. by apply (Hn id).
Qed.

Lemma pins_delete hs k i id j :
  hs !! k = Some (i, id) -> pins (delete k hs) j = pins hs j - (if decide (i = j) then 1 else 0).
Proof.
  intros Hk. unfold pins. rewrite <- (take_drop_middle hs k (i, id) Hk) at 2.
  rewrite delete_take_drop, !filter_app, !zlen_app, filter_cons. simpl.
  case_decide; [rewrite zlen_cons|]; lia.
Qed.

Lemma handle_pinned hs bp i id f :
  handles_ok hs bp -> (i, id) ∈ hs -> bp_frames bp !! i = Some f ->
  0 < f_pin f /\ f_in_use f = true /\ page_id (f_page f) = id.
Proof.
  intros [Hf Hp] Hin Hl. destruct (Hf i id Hin) as (g & Hg & Hu & Hid). simplify_eq.
  rewrite (Hp _ _ Hl). split_and!; [by eapply pins_pos|done..].
Qed.

Lemma handles_kept hs bp bp' : handles_ok hs bp -> kept bp bp' -> handles_ok hs bp'.
Proof.
  intros Hok [Hk Hp]. pose proof Hok as [Hf Hpin].
  assert (forall i id, (i, id) ∈ hs -> exists f f', bp_frames bp !! i = Some f /\
    bp_frames bp' !! i = Some f' /\ f_pin f' = f_pin f /\ f_in_use f' = true /\ page_id (f_page f') = id) as Hh.
  { intros i id Hin. destruct (Hf i id Hin) as (f & Hl & _).
    destruct (handle_pinned _ _ _ _ _ Hok Hin Hl) as (Hpos & Hu & Hid).
    destruct (Hk i f Hl Hu Hpos) as (f' & Hl' & Hpin' & Hu' & Hid' & _).
    exists f, f'. split_and!; congruence. }
  split.
  - intros i id Hin. destruct (Hh i id Hin) as (f & f' & _ & ? & _ & ? & ?). eauto.
  - intros i f' Hl'. destruct (decide (f_pin f' = 0)) as [H0|Hne].
    + rewrite H0. symmetry. apply pins_zero. intros id Hin.
      destruct (Hh i id Hin) as (f & g & Hl & Hg & Hpg & _). simplify_eq.
      destruct (handle_pinned _ _ _ _ _ Hok Hin Hl). lia.
    + destruct (Hp i f' Hl' Hne) as (f & Hl & <-). by apply Hpin.
Qed.

(** ** Steps *)

Section Steps.
Context {E : Type} `{PL : PageEnvLaws E}.
Implicit Types (bp : BufferPool) (e : E) (c : client E).

Lemma HandleWrite_spec i d bp e f :
  pool_inv bp e -> bp_frames bp !! i = Some f -> f_in_use f = true -> buf_ok kPageSize d ->
  pool_inv (HandleWrite i d bp) e /\
  (forall id, logical (HandleWrite i d bp) e id =
     if decide (id = page_id (f_page f)) then Some d else logical bp e id) /\
  bp_frames (HandleWrite i d bp) = <[i := set_page (MarkDirty (set_data (f_page f) d)) f]> (bp_frames bp).
Proof.
  intros I Hl Hu [Hdl Hdb]. set (f' := set_page (MarkDirty (set_data (f_page f) d)) f).
  assert (bp_frames (HandleWrite i d bp) = <[i := f']> (bp_frames bp)) as Hfs.
  { unfold HandleWrite, HandleMarkDirty, upd_frame. simpl.
    rewrite (alter_insert _ _ _ _ Hl), (alter_insert _ _ (set_page (set_data (f_page f) d) f)).
    - by rewrite list_insert_insert_eq.
    - apply list_lookup_insert_eq. by eapply lookup_lt_Some. }
  pose proof (lookup_lt_Some _ _ _ Hl) as Hlt.
  assert (forall j g, bp_frames (HandleWrite i d bp) !! j = Some g ->
    j = i /\ g = f' \/ j <> i /\ bp_frames bp !! j = Some g) as Hlook.
  { intros j g. rewrite Hfs. destruct (decide (j = i)) as [->|Hj].
    - rewrite list_lookup_insert_eq by done. intros [= <-]. by left.
    - rewrite list_lookup_insert_ne by done. by right. }
  destruct (inv_frames _ _ I _ _ Hl) as (Hp & Hfree & Huse). destruct (Huse Hu) as (Hpg & Hv & Ht & _).
  assert (pool_inv (HandleWrite i d bp) e) as I'.
  { split; try apply I.
    - rewrite Hfs. unfold zlen. rewrite length_insert. apply I.
    - rewrite Hfs. unfold zlen. rewrite length_insert. apply I.
    - unfold pool_size. rewrite Hfs, (count_insert _ _ _ _ _ Hl). simpl.
      change (bp_capacity (HandleWrite i d bp)) with (bp_capacity bp).
      pose proof (inv_size _ _ I). unfold pool_size in *. lia.
    - intros j g [[-> ->]|[_ Hg]]%Hlook; [|by eapply (inv_frames _ _ I)].
      do 2 (split; [done|]). intros _. split; [|split; [done|split; [done|done]]].
      destruct Hpg as (_ & _ & ?). by split; [|split].
    - intros j k g h [[-> ->]|[Hj Hg]]%Hlook [[-> ->]|[Hk Hh]]%Hlook Hgu Hhu Heq; [done|..].
      + by eapply (inv_ids _ _ I i k f h).
      + by eapply (inv_ids _ _ I j i g f).
      + by eapply (inv_ids _ _ I j k g h).
    - intros j k g h [[-> ->]|[Hj Hg]]%Hlook [[-> ->]|[Hk Hh]]%Hlook Hgu Hhu Heq; [done|..].
      + by eapply (inv_stamps _ _ I i k f h).
      + by eapply (inv_stamps _ _ I j i g f).
      + by eapply (inv_stamps _ _ I j k g h). }
  split_and!; [done| |done]. intros id. unfold logical. case_decide as Hid.
  - subst. assert (bp_frames (HandleWrite i d bp) !! i = Some f') as Hi
      by (rewrite Hfs; by apply list_lookup_insert_eq).
    destruct (resident_at _ _ _ _ I' Hi Hu) as [_ Hr]. simpl in Hr. by rewrite Hr.
  - destruct (resident bp id) as [g|] eqn:Hr.
    + apply resident_Some in Hr as (j & Hj & Hgu & <-).
      assert (j <> i) as Hji by congruence.
      assert (bp_frames (HandleWrite i d bp) !! j = Some g) as Hg
        by (rewrite Hfs; by rewrite list_lookup_insert_ne).
      by destruct (resident_at _ _ _ _ I' Hg Hgu) as [_ ->].
    + destruct (resident (HandleWrite i d bp) id) as [g|] eqn:Hr'; [|done].
      apply resident_Some in Hr' as (j & [[-> ->]|[_ Hg]]%Hlook & Hgu & Hgid); [done|].
      by destruct (resident_None _ _ _ _ Hr Hg Hgu).
Qed.

Lemma UnpinFrame_spec i bp e f :
  pool_inv bp e -> bp_frames bp !! i = Some f -> 0 < f_pin f -> f_in_use f = true ->
  pool_inv (UnpinFrame i bp) e /\ same_pages bp (UnpinFrame i bp) /\
  bp_frames (UnpinFrame i bp) = <[i := set_pin (f_pin f - 1) f]> (bp_frames bp).
Proof.
  intros I Hl Hp Hu. unfold UnpinFrame. rewrite Hl. replace (0 <? f_pin f) with true by lia.
  pose proof (inv_frames _ _ I) as Hfr. destruct (Hfr _ _ Hl) as (H1 & H2 & H3).
  split_and!.
  - eapply inv_upd; eauto; [apply I|done|]. split; [simpl; lia|]. split; [simpl; congruence|done].
  - by eapply upd_same_pages.
  - simpl. by apply alter_insert.
Qed.

(** The invariant of a client that started on contents [init]. *)
Definition client_ok (init : Z -> option (list Z)) c : Prop :=
  pool_inv (c_pool c) (c_env c) /\ handles_ok (c_handles c) (c_pool c) /\
  forall id, logical (c_pool c) (c_env c) id = after_writes (c_writes c) init id.

Lemma after_writes_cons w d ws init id :
  after_writes ((w, d) :: ws) init id = if decide (id = w) then Some d else after_writes ws init id.
Proof.
  unfold after_writes. simpl. repeat case_decide; subst; try done.
  by destruct (list_find _ ws) as [[? []]|].
Qed.

Lemma fetch_handles hs bp bp1 bp' e i f' id :
  pool_inv bp e -> handles_ok hs bp -> cleaned bp bp1 -> promoted bp1 bp' i f' -> f_in_use f' = true ->
  page_id (f_page f') = id -> (fetch_hit bp bp1 i f' \/ fetch_miss bp bp1 i f') ->
  handles_ok ((i, id) :: hs) bp'.
Proof.
  intros I Hok Hc P Hu Hid Hcase.
  pose proof (handles_kept _ _ _ Hok (cleaned_kept _ _ Hc)) as Hok1. pose proof Hok1 as [Hf1 Hp1].
  assert (exists f, bp_frames bp1 !! i = Some f /\ f_pin f' = f_pin f + 1 /\
    (f_pin f = 0 \/ page_id (f_page f) = page_id (f_page f'))) as (f & Hl & Hpin & Hsame).
  { destruct Hcase as [(-> & f & Hl & _ & Heq)|(_ & Hpin & _ & f & Hl & Hacq)].
    - exists f. rewrite Heq. split_and!; auto.
    - exists f. assert (f_pin f = 0) as ->; [|auto].
      destruct Hacq as [(Hfree & _ & ->)|(Hev & _)].
      + destruct (inv_frames _ _ I _ _ Hl) as (_ & H2 & _). auto.
      + unfold evictable in Hev. zb. done. }
  split.
  - intros j id' [[= -> ->]|Hin]%elem_of_cons.
    + exists f'. split_and!; [apply P|done..].
    + destruct (Hf1 j id' Hin) as (g & Hg & Hgu & Hgid).
      destruct (decide (j = i)) as [->|Hj].
      * simplify_eq. exists f'. split_and!; [apply P|done|].
        destruct (handle_pinned _ _ _ _ _ Hok1 Hin Hl). destruct Hsame as [?|Hs]; [lia|congruence].
      * destruct (prom_other _ _ _ _ P j Hj) as [t Ht]. rewrite Hg in Ht. eexists. by split_and!.
  - intros j g Hg. rewrite pins_cons.
    destruct (prom_lookup _ _ _ _ _ _ P Hg) as [[-> ->]|(Hj & h & t & Hh & ->)].
    + rewrite decide_True by done. rewrite Hpin, (Hp1 _ _ Hl). lia.
    + rewrite decide_False by done. simpl. rewrite (Hp1 _ _ Hh). lia.
Qed.

Lemma fetch_step init id c s c' :
  client_ok init c -> pool_op_ok (PFetch id) -> pool_step (PFetch id) c = (s, c') -> client_ok init c'.
Proof.
  destruct c as [hs bp e ws]. intros (I & Hh & Hlog) Hop. simpl in *.
  destruct (Fetch true id bp e) as [[[s1 h] bp'] e'] eqn:HF. intros [= <- <-].
  destruct (Fetch_spec _ _ _ _ _ _ _ I Hop HF) as (I' & Hlog' & Hr).
  split_and!; [done| |by intros j; simpl; rewrite Hlog'].
  simpl. destruct h as [i|]; [|by eapply handles_kept; [|apply cleaned_kept, Hr]].
  destruct Hr as (_ & bp1 & f' & Hc & P & Hu & Hid & _ & Hcase).
  by eapply (fetch_handles hs bp bp1).
Qed.

Lemma unpin_step init k c s c' :
  client_ok init c -> pool_step (PUnpin k) c = (s, c') -> client_ok init c'.
Proof.
  destruct c as [hs bp e ws]. intros (I & Hh & Hlog). simpl in *.
  destruct (hs !! k) as [[i id]|] eqn:Hk; simpl; intros [= <- <-].
  2: { split_and!; [done| |done]. simpl.
       apply lookup_ge_None in Hk. rewrite delete_take_drop, take_ge, drop_ge by lia.
       by rewrite app_nil_r. }
  assert ((i, id) ∈ hs) as Hin by (by eapply list_elem_of_lookup_2).
  destruct (handles_frame _ _ Hh i id Hin) as (f & Hl & _).
  destruct (handle_pinned _ _ _ _ _ Hh Hin Hl) as (Hpos & Hu & Hid).
  destruct (UnpinFrame_spec i bp e f I Hl Hpos Hu) as (I' & Hsp & Hfs).
  pose proof (lookup_lt_Some _ _ _ Hl) as Hlt.
  split_and!; [done| |].
  - simpl. split.
    + intros j id' Hin'. destruct (handles_frame _ _ Hh j id') as (g & Hg & Hgu & Hgid).
      { by eapply list_elem_of_delete_inv. }
      destruct (Forall2_lookup_l _ _ _ _ _ Hsp Hg) as (g' & Hg' & ? & ? & _).
      exists g'. split_and!; congruence.
    + intros j g. rewrite Hfs, (pins_delete _ _ _ _ _ Hk). destruct (decide (i = j)) as [<-|Hij].
      * rewrite list_lookup_insert_eq by done. intros [= <-]. simpl.
        rewrite (handles_pins _ _ Hh _ _ Hl). done.
      * rewrite list_lookup_insert_ne by done. intros Hg. rewrite (handles_pins _ _ Hh _ _ Hg). lia.
  - intros j. simpl. rewrite <- Hlog. apply logical_same; [done|]. by intros ? _.
Qed.

Lemma write_step init k d c s c' :
  client_ok init c -> buf_ok kPageSize d -> pool_step (PWrite k d) c = (s, c') -> client_ok init c'.
Proof.
  destruct c as [hs bp e ws]. intros (I & Hh & Hlog) Hd. simpl in *.
  destruct (hs !! k) as [[i id]|] eqn:Hk; [|by intros [= <- <-]]. intros [= <- <-].
  assert ((i, id) ∈ hs) as Hin by (by eapply list_elem_of_lookup_2).
  destruct (handles_frame _ _ Hh i id Hin) as (f & Hl & Hu & Hid).
  destruct (HandleWrite_spec i d bp e f I Hl Hu Hd) as (I' & Hlog' & Hfs).
  pose proof (lookup_lt_Some _ _ _ Hl) as Hlt. split_and!; [done| |].
  - simpl. split.
    + intros j id' Hin'. rewrite Hfs. destruct (handles_frame _ _ Hh j id' Hin') as (g & Hg & Hgu & Hgid).
      destruct (decide (j = i)) as [->|Hj].
      * rewrite list_lookup_insert_eq by done. simplify_eq. eexists. by split_and!.
      * rewrite list_lookup_insert_ne by done. eauto.
    + intros j g. rewrite Hfs. destruct (decide (j = i)) as [->|Hj].
      * rewrite list_lookup_insert_eq by done. intros [= <-]. by apply (handles_pins _ _ Hh _ _ Hl).
      * rewrite list_lookup_insert_ne by done. apply (handles_pins _ _ Hh).
  - intros j. simpl. rewrite Hlog', after_writes_cons, Hid, Hlog. done.
Qed.

(** Flushes and failed operations leave [cleaned] pools. *)
Lemma cleaned_step init hs bp bp' e e' ws :
  client_ok init (MkClient hs bp e ws) -> pool_inv bp' e' -> cleaned bp bp' -> disk_kept bp e e' ->
  client_ok init (MkClient hs bp' e' ws).
Proof.
  intros (I & Hh & Hlog) I' Hc Hk. simpl in *. split_and!; simpl; [done| |].
  - by eapply handles_kept; [|apply cleaned_kept].
  - intros id. rewrite <- Hlog. by apply logical_same; [apply cleaned_same_pages|].
Qed.

Lemma pool_step_ok init o c s c' :
  client_ok init c -> pool_op_ok o -> pool_step o c = (s, c') -> client_ok init c'.
Proof.
  intros Hc Ho. destruct o as [id|k|k d|id| |a n].
  - by apply fetch_step.
  - by apply unpin_step.
  - by apply write_step.
  - destruct c as [hs bp e ws]. simpl. unfold FlushPage. pose proof Hc as (I & _). simpl in I.
    rewrite (inv_storage _ _ I). simpl. destruct (FindFrame id bp) as [i|]; [|by intros [= <- <-]].
    destruct (FlushFrame i bp e) as [[s1 bp1] e1] eqn:Ef. intros [= <- <-].
    destruct (FlushFrame_spec _ _ _ _ _ _ I Ef) as (? & ? & ? & _). by eapply cleaned_step.
  - destruct c as [hs bp e ws]. simpl. pose proof Hc as (I & _). simpl in I.
    destruct (FlushAll bp e) as [[s1 bp1] e1] eqn:Ef. intros [= <- <-].
    destruct (FlushAll_spec _ _ _ _ _ I Ef) as (? & ? & ? & _). by eapply cleaned_step.
  - destruct c as [hs bp e ws]. simpl. destruct Hc as (I & Hh & Hlog). simpl in *.
    destruct (Resize a n bp e) as [[s1 bp1] e1] eqn:Er. intros [= <- <-].
    destruct (Resize_spec _ _ _ _ _ _ _ I Ho Er) as (I' & Hlog' & Hr).
    split_and!; simpl; [done| |by intros; rewrite Hlog'].
    eapply handles_kept; [done|]. destruct (ok s1); [apply Hr|by apply cleaned_kept].
Qed.

Lemma pool_run_ok init os c cs c' :
  client_ok init c -> Forall pool_op_ok os -> pool_run os c = (cs, c') -> client_ok init c'.
Proof.
  intros Hc Hos. revert c cs Hc. induction Hos as [|o os Ho _ IH]; intros c cs Hc; simpl.
  { by intros [= <- <-]. }
  destruct (pool_step o c) as [s c1] eqn:Es. destruct (pool_run os c1) as [cs1 c2] eqn:Er.
  intros [= <- <-]. eapply IH; [|done]. by eapply pool_step_ok.
Qed.

(** A new pool. *)
Lemma Create_ok capacity (e : E) bp :
  env_inv e -> 0 < capacity <= kMaxFrames -> Create true true capacity = (StatusOk, Some bp) ->
  client_ok (disk e) (MkClient [] bp e []).
Proof.
  intros He Hc. unfold Create. replace (capacity =? 0) with false by lia. simpl. intros [= <-].
  assert (forall i f, replicate (Z.to_nat capacity) Frame0 !! i = Some f -> f = Frame0) as Hf
    by (by intros i f [-> _]%lookup_replicate).
  split_and!; simpl.
  - split; simpl; rewrite ?zlen_replicate by lia; try done; [lia|lia|..].
    + unfold pool_size. simpl. rewrite count_replicate_free. lia.
    + intros i f ->%Hf. by split_and!.
    + intros i j f g ->%Hf _. done.
    + intros i j f g ->%Hf _. done.
  - split; [by intros i id ?%elem_of_nil|]. by intros i f ->%Hf.
  - intros id. unfold logical, after_writes. simpl.
    destruct (resident _ id) as [f|] eqn:Hr; [|done].
    by apply resident_Some in Hr as (i & ->%Hf & Hu & _).
Qed.

End Steps.

(** ** Theorems *)

(** C9: Transparency.  A client that fetches, writes through its handles,
    unpins, flushes and resizes in any order, over a storage that may fail any
    call, always sees for every page the last bytes written through a handle
    (or the initial contents): eviction, flushing and resizing lose nothing.
    Every live handle still holds the page it was fetched for, with those
    bytes, and each frame is pinned once per live handle. *)
Theorem pool_transparent {E} `{PageEnvLaws E} capacity (e : E) bp os cs c :
  env_inv e -> 0 < capacity <= kMaxFrames -> Create true true capacity = (StatusOk, Some bp) ->
  Forall pool_op_ok os -> pool_run os (MkClient [] bp e []) = (cs, c) ->
  (forall id, logical (c_pool c) (c_env c) id = after_writes (c_writes c) (disk e) id) /\
  (forall i id, (i, id) ∈ c_handles c -> exists f, bp_frames (c_pool c) !! i = Some f /\
     page_id (f_page f) = id /\ f_pin f = pins (c_handles c) i /\
     Some (page_data (f_page f)) = after_writes (c_writes c) (disk e) id).
Proof.
  intros He Hc HC Hos Hr.
  destruct (pool_run_ok _ _ _ _ _ (Create_ok _ _ _ He Hc HC) Hos Hr) as (I & Hh & Hlog).
  split; [done|]. intros i id Hin. destruct (handles_frame _ _ Hh i id Hin) as (f & Hl & Hu & Hid).
  exists f. split_and!; [done|done|by apply (handles_pins _ _ Hh)|].
  rewrite <- Hlog, <- Hid. unfold logical. by destruct (resident_at _ _ _ _ I Hl Hu) as [_ ->].
Qed.

(** A page of sevens, and a client session on a one-frame pool over a two-page
    file: write page 0, release it, load page 1 in its place, come back. *)
Definition sevens : list Z := replicate (Z.to_nat kPageSize) 7.
Definition session : list pool_op :=
  [PFetch 0; PWrite 0 sevens; PFetch 1; PUnpin 0; PFetch 1; PUnpin 0; PResize AllocOk 2; PFetch 0].
Definition one_frame : BufferPool := MkPool true 1 [Frame0] 0 false.

Lemma two_pages_sound future : st_sound (two_pages future).
Proof. apply st_ok_sound, two_pages_ok. Qed.

Lemma sevens_buf : buf_ok kPageSize sevens.
Proof. split; [by apply zlen_replicate|]. apply bytes_ok_replicate. unfold byte_ok. lia. Qed.

Lemma session_ok : Forall pool_op_ok session.
Proof.
  unfold session.
  repeat (apply Forall_cons_2; [cbn; first [apply sevens_buf|done|unfold kInvalidId; lia]|]).
  apply Forall_nil_2.
Qed.

Lemma one_frame_capacity : 0 < 1 <= kMaxFrames.
Proof. split; by vm_compute. Qed.

Definition session_result : list DbError * client storage :=
  pool_run session (MkClient [] one_frame (two_pages []) []).

Lemma session_facts :
  fst session_result = [kOk; kOk; kBufferFull; kOk; kOk; kOk; kOk; kOk] /\
  c_handles (snd session_result) = [(1%nat, 0)] /\ c_writes (snd session_result) = [(0, sevens)].
Proof. split_and!; by vm_compute. Qed.

Lemma pool_transparent_witness :
  exists f, bp_frames (c_pool (snd session_result)) !! 1%nat = Some f /\ page_data (f_page f) = sevens.
Proof.
  destruct (@pool_transparent storage _ storage_env_laws 1 (two_pages []) one_frame session
    (fst session_result) (snd session_result) (two_pages_sound []) one_frame_capacity
    eq_refl session_ok (surjective_pairing _)) as [_ Hh].
  destruct session_facts as (_ & Hhs & Hws). rewrite Hhs, Hws in Hh.
  destruct (Hh 1%nat 0) as (f & Hf & _ & _ & Hd); [by apply list_elem_of_singleton|].
  exists f. split; [exact Hf|]. by injection Hd as ->.
Defined.

(** Frame [i], if it is in use, is clean: no page needs it. *)
Definition frame_clean (i : nat) (fs : list Frame) : Prop :=
  forall f, fs !! i = Some f -> f_in_use f = true -> page_dirty (f_page f) = false.

(** A pool without dirty pages has nothing left to flush. *)
Lemma FlushAll_again {E} `{PageEnv E} bp (e : E) :
  (forall i, frame_clean i (bp_frames bp)) -> exists s, FlushAll bp e = (s, bp, e).
Proof.
  intros Hc. unfold FlushAll. destruct (negb (bp_storage bp)); [by eexists|]. eexists. generalize O.
  induction (length (bp_frames bp)) as [|n IH]; intros i; [done|]. cbn [FlushAll_loop].
  destruct (bp_frames bp !! i) as [f|] eqn:Hl; [|done]. specialize (Hc i f Hl).
  destruct (f_in_use f); [rewrite Hc by done|]; apply IH.
Qed.

(** A successful FlushAll leaves clean frames and the logical contents on disk. *)
Lemma FlushAll_clean {E} `{PageEnvLaws E} bp (e : E) s bp' e' :
  pool_inv bp e -> FlushAll bp e = (s, bp', e') -> ok s = true ->
  (forall i, frame_clean i (bp_frames bp')) /\
  forall id, disk e' id = logical bp e id /\ logical bp' e' id = disk e' id.
Proof.
  intros I HF Hs. destruct (FlushAll_spec _ _ _ _ _ I HF) as (I' & Hcl & Hk & Hok).
  destruct (Hok Hs) as [_ Hclean]. split; [intros i; apply Hclean|]. intros id.
  assert (logical bp' e' id = disk e' id) as Hd.
  { unfold logical. destruct (resident bp' id) as [f|] eqn:Hr'; [|done].
    apply resident_Some in Hr' as (i & Hl & Hu & <-).
    destruct (inv_frames _ _ I' _ _ Hl) as (_ & _ & H3). symmetry. by apply (H3 Hu), (Hclean i). }
  split; [|done]. rewrite <- Hd. by apply logical_same; [apply cleaned_same_pages|].
Qed.

(** Durability.  When FlushAll reports success after any client session, the
    storage itself holds the last bytes written to every page, and nothing the
    client sees has changed. *)
Theorem flush_all_durable {E} `{PageEnvLaws E} capacity (e : E) bp os cs c s bp' e' :
  env_inv e -> 0 < capacity <= kMaxFrames -> Create true true capacity = (StatusOk, Some bp) ->
  Forall pool_op_ok os -> pool_run os (MkClient [] bp e []) = (cs, c) ->
  FlushAll (c_pool c) (c_env c) = (s, bp', e') -> ok s = true ->
  forall id, disk e' id = after_writes (c_writes c) (disk e) id /\ logical bp' e' id = disk e' id.
Proof.
  intros He Hc HC Hos Hr HF Hs id.
  destruct (pool_run_ok _ _ _ _ _ (Create_ok _ _ _ He Hc HC) Hos Hr) as (I & _ & Hlog).
  destruct (FlushAll_clean _ _ _ _ _ I HF Hs) as [_ Hd]. destruct (Hd id) as [Hd1 Hd2].
  split; [|done]. by rewrite Hd1, Hlog.
Qed.

Definition session_flushed : Status * BufferPool * storage :=
  FlushAll (c_pool (snd session_result)) (c_env (snd session_result)).

Lemma session_flushed_ok : ok (fst (fst session_flushed)) = true.
Proof. by vm_compute. Qed.

Lemma pair3 {A B C} (x : A * B * C) : x = (fst (fst x), snd (fst x), snd x).
Proof. by destruct x as [[]]. Qed.

Lemma session_flushed_eq :
  FlushAll (c_pool (snd session_result)) (c_env (snd session_result)) =
    (fst (fst session_flushed), snd (fst session_flushed), snd session_flushed).
Proof. rewrite <- (pair3 session_flushed). unfold session_flushed. reflexivity. Qed.

Lemma flush_all_durable_witness :
  @disk _ _ storage_env_laws (snd session_flushed) 0 =
    after_writes (c_writes (snd session_result)) (@disk _ _ storage_env_laws (two_pages [])) 0.
Proof.
  destruct (@flush_all_durable storage _ storage_env_laws 1 (two_pages []) one_frame session
    (fst session_result) (snd session_result) (fst (fst session_flushed)) (snd (fst session_flushed))
    (snd session_flushed) (two_pages_sound []) one_frame_capacity eq_refl session_ok
    (surjective_pairing _) session_flushed_eq session_flushed_ok 0) as [Hd _].
  exact Hd.
Defined.

(** C21: Replacement is true LRU.  A successful Fetch makes the page's frame the
    most recent and keeps the recency order of all other resident pages; when
    it evicts, the pool was at capacity and the victim was an unpinned, clean
    (just flushed) page no more recent than any other unpinned page; pinned
    frames keep their pages.  A failed Fetch changes dirty flags at most. *)
Theorem fetch_lru {E} `{PageEnvLaws E} id bp (e : E) s h bp' e' :
  pool_inv bp e -> 0 <= id <= kInvalidId -> Fetch true id bp e = (s, h, bp', e') ->
  match h with
  | None => ok s = false /\ cleaned bp bp'
  | Some i => s = StatusOk /\ exists bp1 f', cleaned bp bp1 /\ promoted bp1 bp' i f' /\
      f_in_use f' = true /\ page_id (f_page f') = id /\ 0 < f_pin f' /\
      (resident bp id = None -> forall f, bp_frames bp1 !! i = Some f -> f_in_use f = true ->
         bp_capacity bp <= pool_size bp /\ f_pin f = 0 /\ page_dirty (f_page f) = false /\
         forall k g, bp_frames bp !! k = Some g -> f_in_use g = true -> f_pin g = 0 ->
           f_last f <= f_last g)
  end.
Proof.
  intros I Hid HF. destruct (Fetch_spec _ _ _ _ _ _ _ I Hid HF) as (_ & _ & Hr).
  destruct h as [i|]; [|done]. destruct Hr as (-> & bp1 & f' & Hc & P & Hu & Hfid & _ & Hcase).
  split; [done|]. exists bp1, f'. split_and!; [done..| |].
  - destruct Hcase as [(_ & f & Hl & _ & ->)|(_ & -> & _)]; [|lia]. simpl.
    destruct (inv_frames _ _ I _ _ Hl). lia.
  - intros Hres f Hl Hfu. destruct Hcase as [(_ & f0 & Hl0 & Hu0 & Heq)|(_ & _ & _ & f0 & Hl0 & Hacq)].
    + rewrite Heq in Hfid. simpl in Hfid. by destruct (resident_None _ _ _ _ Hres Hl0 Hu0).
    + assert (f0 = f) as -> by congruence. destruct Hacq as [(Hf & _)|(Hev & Hd & Hsz & Hmin)]; [congruence|].
      unfold evictable in Hev. zb. split_and!; [done..|]. intros k g Hg Hgu Hgp.
      apply (Hmin k g Hg). unfold evictable. rewrite Hgu. simpl. lia.
Qed.

Lemma one_frame_inv st : st_sound st -> pool_inv one_frame st.
Proof.
  intros Hok. destruct (@Create_ok storage _ storage_env_laws 1 st one_frame Hok one_frame_capacity eq_refl) as [? _].
  done.
Qed.

(** Page 0 sits unpinned in the only frame; fetching page 1 evicts it. *)
Definition page0_released : list DbError * client storage :=
  pool_run [PFetch 0; PUnpin 0] (MkClient [] one_frame (two_pages []) []).
Definition page1_fetched : Status * option nat * BufferPool * storage :=
  Fetch true 1 (c_pool (snd page0_released)) (c_env (snd page0_released)).

Lemma page1_fetched_facts :
  snd (fst (fst page1_fetched)) = Some 0%nat /\ resident (c_pool (snd page0_released)) 1 = None /\
  (fun f => (f_in_use f, page_id (f_page f))) <$> bp_frames (c_pool (snd page0_released)) !! 0%nat = Some (true, 0).
Proof. split_and!; by vm_compute. Qed.

Lemma page0_released_inv : pool_inv (c_pool (snd page0_released)) (c_env (snd page0_released)).
Proof.
  destruct (pool_run_ok (@disk storage _ storage_env_laws (two_pages [])) [PFetch 0; PUnpin 0] (MkClient [] one_frame (two_pages []) []) (fst page0_released) (snd page0_released))
    as (I & _ & _); [| |apply surjective_pairing|exact I].
  - exact (@Create_ok storage _ storage_env_laws 1 _ one_frame (two_pages_sound []) one_frame_capacity eq_refl).
  - repeat (apply Forall_cons_2; [cbn; first [done|unfold kInvalidId; lia]|]). by apply Forall_nil.
Qed.

Lemma cleaned_in_use bp bp1 i f : cleaned bp bp1 -> bp_frames bp !! i = Some f ->
  exists f1, bp_frames bp1 !! i = Some f1 /\ f_in_use f1 = f_in_use f /\ page_id (f_page f1) = page_id (f_page f).
Proof.
  intros Hc Hl. destruct (Forall2_lookup_l _ _ _ _ _ (cleaned_frames _ _ Hc) Hl) as (f1 & Hl1 & Hf). exists f1. by destruct Hf as [->| ->].
Qed.

Lemma fetch_lru_witness :
  fst (fst (fst page1_fetched)) = StatusOk /\
  exists bp1 victim f', promoted bp1 (snd (fst page1_fetched)) 0 f' /\ page_id (f_page f') = 1 /\
    bp_frames bp1 !! 0%nat = Some victim /\ page_id (f_page victim) = 0 /\ f_pin victim = 0 /\ page_dirty (f_page victim) = false.
Proof.
  pose proof page1_fetched_facts as (Hh & Hres & Hold).
  destruct page1_fetched as [[[s h] bp'] e'] eqn:EF. cbn [fst snd] in Hh. subst h.
  destruct (@fetch_lru storage _ storage_env_laws 1 _ _ s (Some 0%nat) bp' e' page0_released_inv ltac:(unfold kInvalidId; lia) EF)
    as (Hs & bp1 & f' & Hc & HP & _ & Hid & _ & Hev).
  destruct (bp_frames (c_pool (snd page0_released)) !! 0%nat) as [f|] eqn:Hl; [|discriminate Hold]. injection Hold as Hu Hi.
  destruct (cleaned_in_use _ _ _ _ Hc Hl) as (v & Hv & Hvu & Hvi).
  destruct (Hev Hres v Hv ltac:(congruence)) as (_ & Hpin & Hclean & _).
  split; [exact Hs|]. exists bp1, v, f'. split_and!; [exact HP|exact Hid|exact Hv|congruence|exact Hpin|exact Hclean].
Defined.

(** Bounds.  Throughout any client session the pool holds at most
    [capacity] pages, never has fewer frames than its capacity, never holds a
    page twice, and its clock stays within 64 bits with distinct stamps. *)
Theorem pool_bounded {E} `{PageEnvLaws E} capacity (e : E) bp os cs c :
  env_inv e -> 0 < capacity <= kMaxFrames -> Create true true capacity = (StatusOk, Some bp) ->
  Forall pool_op_ok os -> pool_run os (MkClient [] bp e []) = (cs, c) ->
  0 < bp_capacity (c_pool c) <= zlen (bp_frames (c_pool c)) /\
  pinned_frames (c_pool c) <= pool_size (c_pool c) <= bp_capacity (c_pool c) /\
  NoDup ((fun f => page_id (f_page f)) <$> filter (fun f => Is_true (f_in_use f)) (bp_frames (c_pool c))) /\
  stamps_ok (bp_clock (c_pool c)) (bp_frames (c_pool c)) /\ bp_clock (c_pool c) <= UINT64_MAX.
Proof.
  intros He Hc HC Hos Hr.
  destruct (pool_run_ok _ _ _ _ _ (Create_ok _ _ _ He Hc HC) Hos Hr) as (I & _ & _).
  split_and!; try apply I; [..|by eapply inv_stamps_ok].
  - unfold pinned_frames, pool_size. induction (bp_frames (c_pool c)) as [|f fs IH]; [done|].
    rewrite !count_cons. destruct (pinned f) eqn:Hp, (f_in_use f) eqn:Hf; simpl; try lia.
    unfold pinned in Hp. by rewrite Hf in Hp.
  - pose proof (inv_ids _ _ I) as Hids. revert Hids. generalize (bp_frames (c_pool c)).
    intros fs Hids. induction fs as [|f fs IH]; [constructor|].
    assert (NoDup ((fun f => page_id (f_page f)) <$> filter (fun f => Is_true (f_in_use f)) fs)) as IH'.
    { apply IH. intros i j g h Hg Hh Hgu Hhu Heq.
      by assert (S i = S j) as [= ->] by (by eapply Hids). }
    rewrite filter_cons. case_decide as Hu; [|done]. apply Is_true_true in Hu. simpl. constructor; [|done].
    intros (g & Heq & [Hgu%Is_true_true Hg]%list_elem_of_filter)%list_elem_of_fmap.
    apply list_elem_of_lookup_1 in Hg as [j Hj]. by assert (0%nat = S j) by (by eapply (Hids 0%nat (S j) f g)).
Qed.

Lemma pool_bounded_witness : pool_size (c_pool (snd session_result)) <= bp_capacity (c_pool (snd session_result)).
Proof.
  destruct (@pool_bounded storage _ storage_env_laws 1 (two_pages []) one_frame session
    (fst session_result) (snd session_result) (two_pages_sound []) one_frame_capacity
    eq_refl session_ok (surjective_pairing _)) as (_ & [_ Hs] & _).
  exact Hs.
Defined.

(** C22: Resize.  A successful Resize sets the capacity, evicts only unpinned
    pages, oldest first, keeps every pinned frame and every pin, and leaves at
    most the new number of residents.  A failed one changes nothing but dirty
    flags of pages it already wrote, and a shrink below the pinned pages fails
    with kBufferFull before anything is flushed.  What clients see is the same
    either way. *)
Theorem resize_correct {E} `{PageEnvLaws E} a n bp (e : E) s bp' e' :
  pool_inv bp e -> 0 <= n -> Resize a n bp e = (s, bp', e') ->
  (forall id, logical bp' e' id = logical bp e id) /\
  (if ok s then bp_capacity bp' = n /\ pool_size bp' <= n /\ kept bp bp' /\ lru_evicted bp bp'
   else cleaned bp bp') /\
  (0 < n < pool_size bp -> a = AllocOk -> count_frames evictable (bp_frames bp) < pool_size bp - n ->
     code s = kBufferFull /\ bp' = bp /\ e' = e).
Proof.
  intros I Hn HR. destruct (Resize_spec _ _ _ _ _ _ _ I Hn HR) as (I' & Hlog & Hr). split_and!; [done| |].
  - destruct (ok s); [|done]. destruct Hr as (_ & Hc & Hk & Hl).
    split_and!; [done| |done..]. rewrite <- Hc. apply I'.
  - intros Hlt -> Hcnt. unfold Resize in HR. pose proof (inv_size _ _ I).
    replace (n =? 0) with false in HR by lia. replace (n =? bp_capacity bp) with false in HR by lia.
    replace (bp_capacity bp <? n) with false in HR by lia.
    replace (n <? pool_size bp) with true in HR by lia. cbn [alloc_error] in HR.
    rewrite zlen_indices in HR. replace (count_frames _ _ <? _) with true in HR by lia.
    by injection HR as <- <- <-.
Qed.

(** A full, fully pinned two-frame pool. *)
Definition pinned_pool : BufferPool :=
  MkPool true 2 [MkFrame (PageOf 0) 1 1 true; MkFrame (PageOf 1) 1 2 true] 2 false.

Lemma pinned_pool_inv : pool_inv pinned_pool (two_pages []).
Proof.
  assert (forall i f, bp_frames pinned_pool !! i = Some f ->
    exists n, n = Z.of_nat i /\ 0 <= n < 2 /\ f = MkFrame (PageOf n) 1 (n + 1) true) as Hf.
  { intros [|[|i]] f Hl; simpl in Hl; simplify_eq; [exists 0|exists 1]; done. }
  split; [apply two_pages_sound|done|by vm_compute..| | | |by vm_compute].
  - intros i f (n & Hi & Hn & ->)%Hf. split; [simpl; lia|]. split; [done|]. intros _.
    split; [apply page_ok_PageOf; unfold kInvalidId; lia|]. split; [simpl; unfold kInvalidId; lia|].
    split; [simpl; lia|]. intros _. assert (n = 0 \/ n = 1) as [-> | ->] by lia; by vm_compute.
  - intros i j f g (n & Hi & _ & ->)%Hf (m & Hj & _ & ->)%Hf _ _. simpl. lia.
  - intros i j f g (n & Hi & _ & ->)%Hf (m & Hj & _ & ->)%Hf _ _. simpl. lia.
Qed.

Lemma resize_correct_witness : exists s,
  Resize AllocOk 1 pinned_pool (two_pages []) = (s, pinned_pool, two_pages []) /\ code s = kBufferFull.
Proof.
  destruct (Resize AllocOk 1 pinned_pool (two_pages [])) as [[s bp'] e'] eqn:ER. exists s.
  destruct (@resize_correct storage _ storage_env_laws AllocOk 1 pinned_pool (two_pages []) s bp' e'
    pinned_pool_inv ltac:(lia) ER) as (_ & _ & Hfull).
  destruct Hfull as (Hc & -> & ->); [by vm_compute|done|by vm_compute|]. done.
Defined.

(** Looking for a frame to load a page into fails only when writing the
    victim back failed, or with kBufferFull when every
    resident page is pinned, as long as no resident page carries the last
    64-bit stamp. *)
Theorem acquire_full_means_pinned {E} `{PageEnvLaws E} bp (e : E) s bp' e' :
  pool_inv bp e -> bp_clock bp < UINT64_MAX -> AcquireFrame bp e = (s, None, bp', e') ->
  (exists i bp1, FlushFrame i bp e = (s, bp1, e') /\ ok s = false) \/
  code s = kBufferFull /\
    forall i f, bp_frames bp !! i = Some f -> f_in_use f = true -> 0 < f_pin f.
Proof.
  intros I Hclk HA. destruct (AcquireFrame_spec _ _ _ _ _ _ I HA) as (_ & _ & _ & Hs & Hsz).
  unfold AcquireFrame, evict_frame in HA. replace (pool_size bp <? bp_capacity bp) with false in HA by lia.
  destruct (victim_scan_spec 0 (bp_frames bp) None UINT64_MAX)
    as [[Hv Hall]|(j & f & Hv & _)]; rewrite Hv in HA.
  - injection HA as <- <- <-. right. split; [done|]. intros i f Hl Hu.
    destruct (inv_frames _ _ I _ _ Hl) as (Hp & _ & H3). destruct (H3 Hu) as (_ & _ & Ht & _).
    destruct (decide (f_pin f = 0)) as [Hz|]; [|lia]. specialize (Hall i f Hl).
    unfold evictable in Hall. rewrite Hu, Hz in Hall. specialize (Hall eq_refl). lia.
  - left. simpl in HA. destruct (FlushFrame j bp e) as [[s1 bp1] e1] eqn:Ef.
    destruct (ok s1) eqn:Es; simpl in HA; [done|]. injection HA as <- <- <-. eauto.
Qed.

Lemma acquire_full_means_pinned_witness : exists s bp' e',
  AcquireFrame pinned_pool (two_pages []) = (s, None, bp', e') /\ ok s = false.
Proof.
  destruct (AcquireFrame pinned_pool (two_pages [])) as [[[s slot] bp'] e'] eqn:EA.
  assert (slot = None) as -> by (vm_compute in EA; by injection EA).
  exists s, bp', e'. split; [done|].
  destruct (@acquire_full_means_pinned storage _ storage_env_laws pinned_pool (two_pages []) s bp' e'
    pinned_pool_inv ltac:(by vm_compute) EA) as [(i & bp1 & _ & Hs)|[Hc _]]; [done|].
  by apply (not_ok_code _ _ Hc).
Defined.

(** The restriction is needed: the victim scan compares strictly with the
    largest 64-bit value, so an unpinned page stamped with that value is never
    evicted. *)
Lemma last_stamp_never_evicted (e : storage) :
  exists s, AcquireFrame (MkPool true 1 [MkFrame (PageOf 0) 0 UINT64_MAX true] UINT64_MAX false) e
    = (s, None, MkPool true 1 [MkFrame (PageOf 0) 0 UINT64_MAX true] UINT64_MAX false, e) /\
  code s = kBufferFull.
Proof. by eexists. Qed.

(** ** What the pool does to its environment

    The pool reaches its environment only by reading pages and by flushing
    frames: a log barrier, when it has a log sink, and if it succeeds a write of
    the same page.  A
    predicate [I] of the environment that reads and flushes preserve is
    preserved by every client session; [P] is what the barrier may assume of
    the pages, which fetches ([R] on ids) and client writes ([W]) establish.  A
    page whose last flush failed, which [bad] tells, is still dirty in a frame. *)

(** What a flush of page [p] asks of the environment. *)
Definition flush_env {E} `{PageEnv E} (sink : bool) (p : Page) (e : E) : Status * E :=
  let '(ls, e) := if sink then env_log p e else (StatusOk, e) in
  if negb (ok ls) then (ls, e) else env_write p e.

Section EnvInvariant.
Context {E : Type} `{PageEnv E} (sink : bool).
Context (I : E -> Prop) (bad : E -> Z -> Prop).
Context (P : Z -> list Z -> Prop) (R : Z -> Prop) (W : list Z -> Prop).
Hypothesis I_read : forall id e s out e', I e -> R id -> env_read id e = (s, out, e') ->
  I e' /\ (forall j, bad e' j -> bad e j) /\
  (ok s = true -> let p := default PageDefault out in P (page_id p) (page_data p)).
Hypothesis I_flush : forall p e s e', I e -> P (page_id p) (page_data p) ->
  flush_env sink p e = (s, e') ->
  I e' /\ forall j, bad e' j -> if ok s then bad e j /\ j <> page_id p else bad e j \/ j = page_id p.
Hypothesis P_write : forall id d d', P id d -> W d' -> P id d'.
Implicit Types (bp : BufferPool) (e : E).

Definition page_in (f : Frame) : Prop :=
  f_in_use f = true -> P (page_id (f_page f)) (page_data (f_page f)).

(** Frame [f] has unwritten changes to page [id]; so has a frame among [A]. *)
Definition dirty_frame (id : Z) (f : Frame) : Prop :=
  f_in_use f = true /\ page_dirty (f_page f) = true /\ page_id (f_page f) = id.
Definition dirty_at (A : nat -> Prop) (fs : list Frame) (id : Z) : Prop :=
  exists i f, A i /\ fs !! i = Some f /\ dirty_frame id f.
Definition dirty_in : list Frame -> Z -> Prop := dirty_at (fun _ => True).

Record guarded bp e : Prop := {
  guarded_sink : bp_sink bp = sink;
  guarded_pages : Forall page_in (bp_frames bp);
  guarded_env : I e;
  guarded_bad : forall id, bad e id -> dirty_in (bp_frames bp) id }.

(** Updates of a frame that keep its page and its changes. *)
Definition keeps_page (g : Frame -> Frame) : Prop :=
  forall f, (page_in f -> page_in (g f)) /\ forall id, dirty_frame id f -> dirty_frame id (g f).

Lemma Forall_alter_page g i (fs : list Frame) :
  keeps_page g -> Forall page_in fs -> Forall page_in (alter g i fs).
Proof.
  intros Hg Hf. apply Forall_alter; [done|]. intros f Hl Hp. by apply Hg.
Qed.

Lemma dirty_at_alter A g i fs id :
  keeps_page g -> dirty_at A fs id -> dirty_at A (alter g i fs) id.
Proof.
  intros Hg (j & f & HA & Hl & Hd). destruct (decide (i = j)) as [->|Hne].
  - exists j, (g f). split_and!; [done|by rewrite list_lookup_alter_eq, Hl|by apply Hg].
  - exists j, f. by rewrite list_lookup_alter_ne.
Qed.

(** Any update of a frame outside [A]. *)
Lemma dirty_at_other A g i fs id :
  ~ A i -> dirty_at A fs id -> dirty_at A (alter g i fs) id.
Proof.
  intros Hi (j & f & HA & Hl & Hd). exists j, f.
  rewrite list_lookup_alter_ne by (by intros ->). done.
Qed.

Lemma dirty_at_in A fs id : dirty_at A fs id -> dirty_in fs id.
Proof. intros (j & f & _ & Hj). by exists j, f. Qed.

Lemma guarded_upd g i bp e : keeps_page g -> guarded bp e -> guarded (upd_frame i g bp) e.
Proof.
  intros Hg [Hs Hp Hi Hb]. split; [done|by apply Forall_alter_page|done|].
  intros id Hid. by apply dirty_at_alter, Hb.
Qed.

Lemma dirty_in_not i fs id : frame_clean i fs -> dirty_in fs id -> dirty_at (fun j => j <> i) fs id.
Proof.
  intros Hc (j & f & _ & Hl & Hd). exists j, f. split; [|done]. intros ->. destruct Hd as (Hu & Hd & _).
  by rewrite (Hc f Hl Hu) in Hd.
Qed.

Lemma FlushFrame_guarded i bp e s bp' e' :
  guarded bp e -> FlushFrame i bp e = (s, bp', e') ->
  guarded bp' e' /\ (ok s = true -> frame_clean i (bp_frames bp')) /\
  (forall j, frame_clean j (bp_frames bp) -> frame_clean j (bp_frames bp')).
Proof.
  intros Hg. pose proof Hg as [Hs Hp Hi Hb]. unfold FlushFrame.
  destruct (bp_frames bp !! i) as [f|] eqn:Hl.
  2: { intros [= <- <- <-]. unfold frame_clean. by rewrite Hl. }
  destruct (negb (f_in_use f) || negb (page_dirty (f_page f))) eqn:Hcl.
  { intros [= <- <- <-]. split_and!; [done| |done]. intros _ f'. rewrite Hl. intros [= <-] Hu.
    rewrite Hu in Hcl. by destruct (page_dirty _). }
  apply orb_false_iff in Hcl as [Hu%negb_false_iff Hd%negb_false_iff]. rewrite Hs.
  pose proof (Forall_lookup_1 _ _ _ _ Hp Hl Hu) as Hpf.
  assert (dirty_in (bp_frames bp) (page_id (f_page f))) as Hdf by (by exists i, f).
  destruct (flush_env sink (f_page f) e) as [fs fe] eqn:Efl.
  pose proof (I_flush _ _ _ _ Hi Hpf Efl) as [HI Hbad]. unfold flush_env in Efl.
  destruct (if sink then _ else _) as [ls e1] eqn:El. destruct (ok ls) eqn:Els; cbn [negb] in Efl |- *.
  2: { injection Efl as <- <-. rewrite Els in Hbad. intros [= <- <- <-]. rewrite Els.
       split_and!; [|done|done]. split; [done..|]. intros id [Hid| ->]%Hbad; [by apply Hb|done]. }
  rewrite Efl. destruct (ok fs) eqn:Ews; cbn [negb]; intros [= <- <- <-].
  2: { rewrite Ews. split_and!; [|done|done]. split; [done..|]. intros id [Hid| ->]%Hbad; [by apply Hb|done]. }
  set (g := fun f => set_page (ClearDirty (f_page f)) f).
  assert (forall j f', bp_frames (upd_frame i g bp) !! j = Some f' ->
    page_dirty (f_page f') = false \/ bp_frames bp !! j = Some f') as Hout.
  { intros j f'. simpl. destruct (decide (i = j)) as [->|Hne].
    - rewrite list_lookup_alter_eq, Hl. intros [= <-]. by left.
    - rewrite list_lookup_alter_ne by done. auto. }
  split_and!.
  - split; [done| |done|].
    + apply Forall_alter; [done|]. intros f0 _ Hf0. by destruct f0.
    + intros id [(j & f' & _ & Hl' & Hd')%Hb Hne]%Hbad. exists j, f'. split_and!; [done| |done].
      simpl. rewrite list_lookup_alter_ne; [done|]. intros <-. rewrite Hl in Hl'. injection Hl' as <-.
      by destruct Hd' as (_ & _ & ?).
  - intros _ f'. simpl. rewrite list_lookup_alter_eq, Hl. by intros [= <-].
  - intros j Hj f' [?|Hf']%Hout; [done|by apply Hj].
Qed.

Lemma FlushAll_loop_guarded n i first bp e s bp' e' :
  guarded bp e -> FlushAll_loop n i first bp e = (s, bp', e') -> guarded bp' e'.
Proof.
  revert i first bp e. induction n as [|n IH]; intros i first bp e Hl; simpl; [by intros [= <- <- <-]|].
  destruct (bp_frames bp !! i) as [f|]; [|by intros [= <- <- <-]].
  destruct (negb (f_in_use f) || _); [by apply IH|].
  destruct (FlushFrame i bp e) as [[s1 bp1] e1] eqn:Ef. apply IH. by eapply FlushFrame_guarded.
Qed.

Lemma flush_victims_guarded vs bp e s bp' e' :
  guarded bp e -> flush_victims vs bp e = (s, bp', e') ->
  guarded bp' e' /\ (ok s = true -> forall i, i ∈ vs -> frame_clean i (bp_frames bp')) /\
  (forall j, frame_clean j (bp_frames bp) -> frame_clean j (bp_frames bp')).
Proof.
  revert bp e. induction vs as [|i vs IH]; intros bp e Hl; simpl.
  { intros [= <- <- <-]. split_and!; [done| |done]. intros _ i Hi. by apply not_elem_of_nil in Hi. }
  destruct (FlushFrame i bp e) as [[s1 bp1] e1] eqn:Ef.
  apply FlushFrame_guarded in Ef as (Hg1 & Hc1 & Hk1); [|done].
  destruct (ok s1) eqn:Es; simpl; [|intros [= <- <- <-]; by rewrite Es].
  intros (Hg2 & Hc2 & Hk2)%IH; [|done]. split_and!; [done| |by auto].
  intros Hs j [->|Hj]%elem_of_cons; [by apply Hk2, Hc1|by apply Hc2].
Qed.

Lemma set_last_keeps t : keeps_page (set_last t).
Proof. by intros []. Qed.

Lemma restamp_guarded A order t fs :
  (Forall page_in fs -> Forall page_in (fst (restamp order t fs))) /\
  (forall id, dirty_at A fs id -> dirty_at A (fst (restamp order t fs)) id).
Proof.
  revert t fs. induction order as [|i order IH]; intros t fs; simpl; [done|].
  destruct (IH (u64 (t + 1)) (alter (set_last (u64 (t + 1))) i fs)) as [H1 H2].
  split; [intros Hf; apply H1, Forall_alter_page|intros id Hd; apply H2, dirty_at_alter];
    by auto using set_last_keeps.
Qed.

(** What [NextTimestamp] does to the frames. *)
Lemma NextTimestamp_frames bp t bp1 :
  NextTimestamp bp = (t, bp1) -> bp_sink bp1 = bp_sink bp /\
  ((exists order u, bp_frames bp1 = fst (restamp order u (bp_frames bp))) \/ bp_frames bp1 = bp_frames bp).
Proof.
  unfold NextTimestamp, RenumberClock. destruct (_ =? _).
  - destruct (restamp _ _ _) as [fs u] eqn:Er. intros [= <- <-]. split; [done|]. left. simpl.
    eexists _, _. by rewrite Er.
  - intros [= <- <-]. auto.
Qed.

Lemma NextTimestamp_guarded bp e t bp1 : guarded bp e -> NextTimestamp bp = (t, bp1) -> guarded bp1 e.
Proof.
  intros [Hs Hp Hi Hb] [Hk Hf]%NextTimestamp_frames. split; [congruence| |done|].
  - destruct Hf as [(o & u & ->)| ->]; [|done]. by apply (restamp_guarded (fun _ => True)).
  - intros id Hid. destruct Hf as [(o & u & ->)| ->]; [|by apply Hb]. by apply restamp_guarded, Hb.
Qed.

Lemma evict_frame_guarded bp e s h bp' e' :
  guarded bp e -> evict_frame bp e = (s, h, bp', e') ->
  guarded bp' e' /\ forall i, h = Some i -> frame_clean i (bp_frames bp').
Proof.
  intros Hl. unfold evict_frame. destruct (victim_scan _ _ _ _) as [i|]; [|by intros [= <- <- <- <-]].
  destruct (FlushFrame i bp e) as [[s1 bp1] e1] eqn:Ef. apply FlushFrame_guarded in Ef as (Hg & Hc & _); [|done].
  destruct (ok s1); simpl; intros [= <- <- <- <-]; [|done]. split; [done|]. intros j [= <-]. by apply Hc.
Qed.

Lemma AcquireFrame_guarded bp e s h bp' e' :
  guarded bp e -> AcquireFrame bp e = (s, h, bp', e') ->
  guarded bp' e' /\ forall i, h = Some i -> frame_clean i (bp_frames bp').
Proof.
  intros Hl. unfold AcquireFrame. destruct (_ <? _); [|by apply evict_frame_guarded].
  destruct (free_frame bp) as [i|] eqn:Hf; [|by apply evict_frame_guarded].
  intros [= <- <- <- <-]. split; [done|]. intros j [= <-] f Hl' Hu.
  unfold free_frame in Hf. apply fmap_Some in Hf as ([k f0] & Hk & ->).
  apply list_find_Some in Hk as (Hk & Hfree & _). simpl in *. rewrite Hk in Hl'. injection Hl' as ->.
  rewrite Hu in Hfree. done.
Qed.

(** Taking the next stamp and giving it to a frame. *)
Lemma stamp_guarded bp e i g t bp1 :
  (forall t, keeps_page (g t)) -> guarded bp e -> NextTimestamp bp = (t, bp1) ->
  guarded (upd_frame i (g t) bp1) e.
Proof.
  intros Hg Hb Hn. apply guarded_upd; [done|]. by eapply NextTimestamp_guarded.
Qed.

(** A page read into a frame that is put in use. *)
Lemma Install_guarded bp e i p t bp1 :
  guarded bp e -> frame_clean i (bp_frames bp) -> P (page_id p) (page_data p) ->
  NextTimestamp (upd_frame i (fun f => set_pin 1 (set_page p f)) bp) = (t, bp1) ->
  guarded (upd_frame i (fun f => set_in_use true (set_last t f)) bp1) e.
Proof.
  intros [Hs Hp Hi Hb] Hclean Hpage [Hk Hf]%NextTimestamp_frames. simpl in Hk, Hf.
  set (fs := alter (fun f => set_pin 1 (set_page p f)) i (bp_frames bp)) in *.
  split; [simpl; congruence| |done|]; simpl.
  - set (at_i := fun j f => page_in f /\ (j = i -> f_page f = p)).
    assert (forall j f, fs !! j = Some f -> at_i j f) as H0.
    { intros j f. unfold fs. destruct (decide (j = i)) as [->|Hj].
      - rewrite list_lookup_alter_eq. intros (f0 & Hf0 & ->)%fmap_Some. split; [by intros _|done].
      - rewrite list_lookup_alter_ne by done. intros Hl. split; [|done].
        by eapply (Forall_lookup_1 _ _ _ _ Hp). }
    assert (forall j f, bp_frames bp1 !! j = Some f -> at_i j f) as H1.
    { destruct Hf as [(o & u & ->)| ->]; [|done]. clearbody fs. revert u fs H0.
      induction o as [|k o IH]; intros u fs H0 j f; simpl; [apply H0|].
      eapply IH. intros j' f'. destruct (decide (j' = k)) as [->|Hj].
      - rewrite list_lookup_alter_eq. intros (f0 & Hf0 & ->)%fmap_Some. by apply H0 in Hf0.
      - rewrite list_lookup_alter_ne by done. apply H0. }
    apply Forall_lookup_2. intros j f. destruct (decide (j = i)) as [->|Hj].
    + rewrite list_lookup_alter_eq. intros (f0 & Hf0 & ->)%fmap_Some. intros _. simpl.
      destruct (H1 _ _ Hf0) as [_ ->]; done.
    + rewrite list_lookup_alter_ne by done. intros Hl. by apply (H1 _ _ Hl).
  - intros id Hid. apply (dirty_at_in (fun j => j <> i)), dirty_at_other; [by intros []|].
    assert (dirty_at (fun j => j <> i) fs id) as Hd.
    { apply dirty_at_other; [by intros []|]. by apply dirty_in_not, Hb. }
    destruct Hf as [(o & u & ->)| ->]; [|done]. by apply restamp_guarded.
Qed.

Lemma Fetch_guarded out id bp e s h bp' e' :
  guarded bp e -> R id -> Fetch out id bp e = (s, h, bp', e') -> guarded bp' e'.
Proof.
  intros Hl HR. unfold Fetch. destruct out; [|by intros [= <- <- <- <-]]. cbn [negb].
  destruct (bp_storage bp); [|by intros [= <- <- <- <-]]. cbn [negb].
  destruct (id =? kInvalidId); [by intros [= <- <- <- <-]|].
  destruct (FindFrame id bp) as [i|].
  - destruct (NextTimestamp _) as [x b] eqn:Hn. intros [= <- <- <- <-].
    eapply (stamp_guarded _ _ i set_last); [exact set_last_keeps| |done]. apply guarded_upd; [by intros []|done].
  - destruct (env_read id e) as [[rs out] e1] eqn:Er. pose proof Hl as [Hs Hp Hi Hb].
    destruct (I_read _ _ _ _ _ Hi HR Er) as (Hi1 & Hbad & Hpage).
    assert (guarded bp e1) as Hg1 by (split; auto).
    destruct (ok rs); cbn [negb]; [|by intros [= <- <- <- <-]].
    destruct (AcquireFrame bp e1) as [[[s1 slot] bp1] e2] eqn:HA.
    apply AcquireFrame_guarded in HA as [HA Hfree]; [|done].
    destruct slot as [i|]; [|by intros [= <- <- <- <-]].
    destruct (NextTimestamp _) as [x b] eqn:Hn. intros [= <- <- <- <-].
    by eapply Install_guarded; [exact HA|apply Hfree|apply Hpage|exact Hn].
Qed.

Lemma release_pages vs fs : Forall page_in fs -> Forall page_in (release_victims vs fs).
Proof.
  unfold release_victims. revert fs. induction vs as [|i vs IH]; intros fs Hf; simpl; [done|].
  apply IH, Forall_insert; [done|]. by intros ?.
Qed.

Lemma release_dirty vs fs id :
  (forall i, i ∈ vs -> frame_clean i fs) -> dirty_in fs id -> dirty_in (release_victims vs fs) id.
Proof.
  intros Hc (j & f & _ & Hl & Hd). exists j, f. split_and!; [done| |done].
  rewrite release_lookup. destruct (decide (j ∈ vs)) as [Hj|]; [|done].
  destruct Hd as (Hu & Hd & _). by rewrite (Hc j Hj f Hl Hu) in Hd.
Qed.

Lemma trim_dirty cap rfs f : f ∈ rfs -> f_in_use f = true -> f ∈ trim_back cap rfs.
Proof.
  induction rfs as [|f0 rfs IH]; simpl; [done|]. intros Hin Hu.
  destruct (_ && _) eqn:Eb; [|done]. apply elem_of_cons in Hin as [<-|Hin]; [|by apply IH].
  by rewrite Hu, andb_false_r in Eb.
Qed.

Lemma dirty_in_elem fs id : dirty_in fs id <-> exists f, f ∈ fs /\ dirty_frame id f.
Proof.
  split.
  - intros (i & f & _ & Hl & Hd). exists f. split; [by eapply list_elem_of_lookup_2|done].
  - intros (f & [i Hl]%list_elem_of_lookup_1 & Hd). by exists i, f.
Qed.

Lemma trim_pages cap fs : Forall page_in fs -> Forall page_in (trim_back cap fs).
Proof.
  induction 1 as [|f fs Hf Hfs IH]; simpl; [done|]. destruct (_ && _); [done|by constructor].
Qed.

Lemma shrink_guarded n vs bp e s bp' e' :
  guarded bp e -> shrink n vs bp e = (s, bp', e') -> guarded bp' e'.
Proof.
  intros Hl. unfold shrink. destruct (flush_victims vs bp e) as [[s1 bp1] e1] eqn:Ef.
  apply flush_victims_guarded in Ef as (Hg & Hc & _); [|done]. pose proof Hg as [Hs Hp Hi Hb].
  destruct (ok s1); simpl; intros [= <- <- <-]; [|done]. split; [done| |done|]; simpl.
  - by apply Forall_rev, trim_pages, Forall_rev, release_pages.
  - intros id Hid%Hb. apply (release_dirty vs) in Hid; [|by apply Hc].
    apply dirty_in_elem in Hid as (f & Hf & Hd). apply dirty_in_elem. exists f. split; [|done].
    apply list_elem_of_In, in_rev. rewrite rev_involutive. apply list_elem_of_In, trim_dirty; [|apply Hd].
    by apply list_elem_of_In, in_rev; rewrite rev_involutive; apply list_elem_of_In.
Qed.

Lemma Resize_guarded a n bp e s bp' e' :
  guarded bp e -> Resize a n bp e = (s, bp', e') -> guarded bp' e'.
Proof.
  intros Hl. pose proof Hl as [Hs Hp Hi Hb]. unfold Resize.
  destruct (n =? 0); [by intros [= <- <- <-]|]. destruct (n =? bp_capacity bp); [by intros [= <- <- <-]|].
  destruct (bp_capacity bp <? n).
  - destruct (zlen (bp_frames bp) <? n); [|by intros [= <- <- <-]].
    destruct (alloc_error _); intros [= <- <- <-]; [done|]. split; [done| |done|]; simpl.
    + apply Forall_app_2; [done|]. by apply Forall_replicate.
    + intros id (i & f & _ & Hf & Hd)%Hb. exists i, f. split_and!; [done| |done]. by apply lookup_app_l_Some.
  - destruct (n <? pool_size bp); [|by apply shrink_guarded].
    destruct (alloc_error a); [by intros [= <- <- <-]|].
    destruct (zlen _ <? _); [by intros [= <- <- <-]|by apply shrink_guarded].
Qed.

Definition op_in (o : pool_op) : Prop :=
  match o with PFetch id => R id | PWrite _ d => W d | _ => True end.

Lemma pool_step_guarded o c s c' :
  guarded (c_pool c) (c_env c) -> op_in o -> pool_step o c = (s, c') -> guarded (c_pool c') (c_env c').
Proof.
  destruct c as [hs bp e ws]. simpl. intros Hl Ho Es. destruct o as [id|k|k d|id| |a n]; simpl in *.
  - destruct (Fetch true id bp e) as [[[]]] eqn:EF. injection Es as <- <-. by eapply Fetch_guarded.
  - destruct (fst <$> hs !! k) as [i|]; simpl in Es; injection Es as <- <-; [|done]. simpl.
    unfold UnpinFrame. destruct (bp_frames bp !! i) as [f|]; [|done].
    destruct (0 <? f_pin f); [|done]. apply guarded_upd; [by intros []|done].
  - destruct (hs !! k) as [[i id]|]; injection Es as <- <-; [|done]. simpl.
    apply guarded_upd; [intros []; split; [done|]; by intros ? (? & _ & ?)|].
    apply guarded_upd; [|done]. intros f. split; [|done].
    intros Hf Hu. simpl in *. by eapply P_write; [apply Hf|].
  - destruct (FlushPage id bp e) as [[]] eqn:EF. injection Es as <- <-. unfold FlushPage in EF.
    destruct (bp_storage bp); simpl in EF; [|by injection EF as <- <- <-].
    destruct (FindFrame id bp); [|by injection EF as <- <- <-].
    by eapply FlushFrame_guarded in EF as [? _].
  - destruct (FlushAll bp e) as [[]] eqn:EF. injection Es as <- <-. unfold FlushAll in EF.
    destruct (bp_storage bp); simpl in EF; [by eapply FlushAll_loop_guarded|by injection EF as <- <- <-].
  - destruct (Resize a n bp e) as [[]] eqn:EF. injection Es as <- <-. by eapply Resize_guarded.
Qed.

Lemma pool_run_guarded os c cs c' :
  guarded (c_pool c) (c_env c) -> Forall op_in os -> pool_run os c = (cs, c') ->
  guarded (c_pool c') (c_env c').
Proof.
  intros Hg Hos. revert c cs Hg. induction Hos as [|o os Ho _ IH]; intros c cs Hl; simpl; [by intros [= <- <-]|].
  destruct (pool_step o c) as [s c1] eqn:Es. destruct (pool_run os c1) as [cs1 c2] eqn:Er.
  intros [= <- <-]. eapply IH; [|done]. by eapply pool_step_guarded.
Qed.
End EnvInvariant.

(** ** The write-ahead rule *)

Inductive event := EvRead (id : Z) | EvLog (p : Page) (done_ok : bool) | EvWrite (p : Page).

(** An environment that records the calls the pool makes, latest first. *)
Record traced (E : Type) := MkTraced { tr_events : list event; tr_env : E }.
Arguments MkTraced {E}. Arguments tr_events {E}. Arguments tr_env {E}.

#[export] Instance traced_env {E} `{PageEnv E} : PageEnv (traced E) := {
  env_read id t := let '(s, out, e) := env_read id (tr_env t) in
                   (s, out, MkTraced (EvRead id :: tr_events t) e);
  env_write p t := let '(s, e) := env_write p (tr_env t) in
                   (s, MkTraced (EvWrite p :: tr_events t) e);
  env_log p t := let '(s, e) := env_log p (tr_env t) in
                 (s, MkTraced (EvLog p (ok s) :: tr_events t) e) }.

#[export, refine] Instance traced_env_laws {E} `{PageEnvLaws E} : PageEnvLaws (traced E) :=
  {| env_inv t := env_inv (tr_env t); disk t := disk (tr_env t) |}.
Proof.
  - intros [tr e] id s out t' Hi Hid Hr. unfold env_read, traced_env in Hr. cbn [tr_env] in *.
    destruct (env_read id e) as [[s1 o1] e1] eqn:Er. injection Hr as <- <- <-. by eapply env_read_law.
  - intros [tr e] p s t' Hi Hp Hr. unfold env_write, traced_env in Hr. cbn [tr_env] in *.
    destruct (env_write p e) as [s1 e1] eqn:Er. injection Hr as <- <-. by eapply env_write_law.
  - intros [tr e] p s t' Hi Hp Hr. unfold env_log, traced_env in Hr. cbn [tr_env] in *.
    destruct (env_log p e) as [s1 e1] eqn:Er. injection Hr as <- <-. by eapply env_log_law.
Defined.

(** Every page write comes right after a successful log barrier for that page. *)
Fixpoint wal_rule (tr : list event) : Prop :=
  match tr with
  | [] => True
  | EvWrite p :: rest =>
      match rest with EvLog q true :: _ => q = p | _ => False end /\ wal_rule rest
  | _ :: rest => wal_rule rest
  end.

(** C23: The write-ahead rule.  With a log sink installed, whatever sequence of
    client actions runs and whatever fails, every write of a page to storage is
    immediately preceded by a log barrier for that very page that succeeded. *)
Theorem writes_follow_log {E} `{PageEnv E} os (c : client (traced E)) cs c' :
  bp_sink (c_pool c) = true -> tr_events (c_env c) = [] -> pool_run os c = (cs, c') ->
  wal_rule (tr_events (c_env c')).
Proof.
  intros Hs Htr Hr.
  refine (guarded_env _ _ _ _ _ _ (pool_run_guarded true (fun t => wal_rule (tr_events t)) (fun _ _ => False)
    (fun _ _ => True) (fun _ => True) (fun _ => True) _ _ _ os c cs c' _ _ Hr)).
  - intros id t rs out t' Hw _ Er. simpl in Er. destruct (env_read id (tr_env t)) as [[s1 o1] e1].
    by injection Er as <- <- <-.
  - intros p t s t' Hw _ Ef. unfold flush_env in Ef. simpl in Ef.
    destruct (env_log p (tr_env t)) as [s1 e1]. destruct (ok s1) eqn:Eo; simpl in Ef.
    + destruct (env_write p e1) as [s2 e2]. by injection Ef as <- <-.
    + by injection Ef as <- <-.
  - done.
  - split; [done| |by rewrite Htr|done]. by apply Forall_true.
  - apply Forall_true. by intros [].
Qed.

Lemma writes_follow_log_witness :
  exists cs c', pool_run [PFetch 0; PWrite 0 sevens; PUnpin 0; PFetch 1]
      (MkClient [] (SetLogSink true one_frame) (MkTraced [] (two_pages [])) []) = (cs, c') /\
    wal_rule (tr_events (c_env c')).
Proof.
  destruct (pool_run [PFetch 0; PWrite 0 sevens; PUnpin 0; PFetch 1] _) as [cs c'] eqn:Er.
  exists cs, c'. split; [done|].
  exact (writes_follow_log _ (MkClient [] (SetLogSink true one_frame) (MkTraced [] (two_pages [])) [])
    cs c' eq_refl eq_refl Er).
Defined.
