(* ===== verification/Double.v ===== *)
(** * Binary64 arithmetic

    The C sources compute pressures, ceilings and rates in [double].  A double
    is the standard library's executable [spec_float] with 53 bits of mantissa
    and maximal exponent 1024; every operation rounds to nearest, ties to even.
    The conversions between [unsigned long] and [double] are the ones of C: the
    conversion to an integer truncates, and is undefined ([None]) on values the
    type cannot hold. *)

From Stdlib Require Export Floats.SpecFloat.
From S2P Require Import Prelude.

Abbreviation double := spec_float.

Definition dmul : double -> double -> double := SFmul 53 1024.
Definition ddiv : double -> double -> double := SFdiv 53 1024.

(** C comparisons; all are false on a NaN. *)
Abbreviation dlt := SFltb.
Abbreviation dle := SFleb.
Abbreviation dgt := (fun x y => SFltb y x).
Abbreviation dge := (fun x y => SFleb y x).

(** [(double)n] for an integer [n]. *)
Definition d_of_Z (n : Z) : double := binary_normalize 53 1024 n 0 false.

(** The literal [num/den], both integers exact in a double: division rounds
    correctly, as the compiler rounds the literal. *)
Definition d_lit (num den : Z) : double := ddiv (d_of_Z num) (d_of_Z den).

Definition dzero : double := S754_zero false.

(** The integral part of a finite double. *)
Definition d_trunc (x : double) : option Z :=
  match x with
  | S754_zero _ => Some 0
  | S754_finite s m e =>
      let v := if 0 <=? e then Zpos m * 2 ^ e else Zpos m / 2 ^ (- e) in
      Some (if s then - v else v)
  | _ => None
  end.

(** [(unsigned long)x] *)
Definition d_to_ulong (x : double) : option Z :=
  z ← d_trunc x; if (0 <=? z) && (z <=? ULONG_MAX) then Some z else None.

(** ** Rounding keeps 53 bits *)

Lemma digits2_pos_bounds p :
  2 ^ (Zpos (digits2_pos p) - 1) <= Zpos p < 2 ^ Zpos (digits2_pos p).
Proof.
  induction p as [p IH|p IH|]; [..|done]; cbn [digits2_pos]; rewrite Pos2Z.inj_succ.
  all: assert (2 ^ Zpos (digits2_pos p) = 2 * 2 ^ (Zpos (digits2_pos p) - 1)) as Hd
    by (rewrite <- Z.pow_succ_r by lia; f_equal; lia).
  all: replace (Z.succ _ - 1) with (Zpos (digits2_pos p)) by lia; rewrite Z.pow_succ_r by lia; lia.
Qed.

Lemma shr_1_m r : 0 <= shr_m r -> shr_m (shr_1 r) = shr_m r / 2.
Proof.
  destruct r as [[|[p|p|]|] b s]; cbn [shr_m shr_1]; intros H; try done; try lia.
  - change (Zpos p~1) with (1 + 2 * Zpos p). rewrite Z.add_comm, Z.mul_comm, Z.div_add_l by lia.
    change (1 / 2) with 0. lia.
  - change (Zpos p~0) with (2 * Zpos p). rewrite Z.mul_comm, Z.div_mul by lia. done.
Qed.

Lemma iter_shr_m n r :
  0 <= shr_m r -> shr_m (SpecFloat.iter_pos shr_1 n r) = shr_m r / 2 ^ Zpos n.
Proof.
  revert r. induction n as [n IH|n IH|]; intros r Hr; cbn [SpecFloat.iter_pos].
  - assert (0 <= shr_m (shr_1 r)) as H1 by (rewrite shr_1_m by done; apply Z.div_pos; lia).
    rewrite IH, IH, shr_1_m; [|done|done|rewrite IH by done; apply Z.div_pos; lia].
    rewrite !Z.div_div by lia. f_equal.
    replace (Zpos n~1) with (Zpos n + Zpos n + 1) by lia. rewrite !Z.pow_add_r by lia. ring.
  - rewrite IH, IH; [|done|rewrite IH by done; apply Z.div_pos; lia].
    rewrite Z.div_div by lia. f_equal.
    replace (Zpos n~0) with (Zpos n + Zpos n) by lia. by rewrite Z.pow_add_r.
  - by rewrite shr_1_m.
Qed.

Lemma shr_record_of_loc_m m l : shr_m (shr_record_of_loc m l) = m.
Proof. by destruct l as [|[]]. Qed.

(** [shr_fexp] divides by the power of two that leaves 53 bits. *)
Lemma shr_fexp_spec m e l :
  0 <= m ->
  let n := fexp 53 1024 (Zdigits2 m + e) - e in
  let '(r, e') := shr_fexp 53 1024 m e l in
  shr_m r = m / 2 ^ Z.max n 0 /\ e' = Z.max e (e + n) /\ 0 <= shr_m r < 2 ^ 53.
Proof.
  intros Hm. cbn zeta. unfold shr_fexp. set (n := fexp 53 1024 (Zdigits2 m + e) - e).
  assert (Zdigits2 m - 53 <= n) as Hn by (unfold n, fexp; lia).
  assert (m < 2 ^ Zdigits2 m /\ 0 <= Zdigits2 m) as [Hd Hd0].
  { destruct m as [|p|p]; cbn; [lia| |lia]. split; [apply digits2_pos_bounds|lia]. }
  assert (0 <= m / 2 ^ Z.max n 0 < 2 ^ 53) as Hlt.
  { split; [apply Z.div_pos; lia|]. apply Z.div_lt_upper_bound; [lia|].
    apply Z.lt_le_trans with (2 ^ Zdigits2 m); [done|].
    rewrite <- Z.pow_add_r by lia. apply Z.pow_le_mono_r; lia. }
  unfold shr. destruct n as [|p|p] eqn:En.
  - rewrite shr_record_of_loc_m. rewrite Z.max_id, Z.pow_0_r, Z.div_1_r in *. split_and!; lia.
  - rewrite iter_shr_m; rewrite shr_record_of_loc_m; [|done].
    rewrite Z.max_l in * by lia. split_and!; lia.
  - rewrite shr_record_of_loc_m. rewrite Z.max_r in * by lia. rewrite Z.pow_0_r, Z.div_1_r in *.
    split_and!; lia.
Qed.

(** Mantissas of 53 bits. *)
Definition mant_ok (x : double) : Prop :=
  match x with S754_finite _ m _ => Zpos m < 2 ^ 53 | _ => True end.

Lemma round_aux_spec s m e l :
  0 <= m ->
  let x := binary_round_aux 53 1024 s m e l in
  mant_ok x /\ (exists m' e', x = S754_finite s m' e' \/ x = S754_zero s \/ x = S754_infinity s).
Proof.
  intros Hm. unfold binary_round_aux. cbn zeta.
  pose proof (shr_fexp_spec m e l Hm) as H1. destruct (shr_fexp 53 1024 m e l) as [r1 e1].
  destruct H1 as (_ & _ & Hr1). set (m2 := round_nearest_even _ _).
  assert (0 <= m2) as Hm2.
  { unfold m2, round_nearest_even. destruct (loc_of_shr_record r1) as [|[]]; try lia. destruct (Z.even _); lia. }
  pose proof (shr_fexp_spec m2 e1 loc_Exact Hm2) as H2. destruct (shr_fexp 53 1024 m2 e1 loc_Exact) as [r2 e2].
  destruct H2 as (_ & _ & Hr2). destruct (shr_m r2) as [|p|p]; [..|lia]; cbn [mant_ok].
  - split; [done|]. exists 1%positive, 0. auto.
  - destruct (e2 <=? _); (split; [cbn; lia|]); exists p, e2; auto.
Qed.

(** ** Non-negative doubles *)

(** Zero, a 53-bit positive number, or infinity; never a NaN. *)
Inductive nonneg : double -> Prop :=
  | nonneg_zero : nonneg (S754_zero false)
  | nonneg_finite m e : Zpos m < 2 ^ 53 -> nonneg (S754_finite false m e)
  | nonneg_inf : nonneg (S754_infinity false).

Lemma nonneg_round m e l : 0 <= m -> nonneg (binary_round_aux 53 1024 false m e l).
Proof.
  intros Hm. destruct (round_aux_spec false m e l Hm) as [Hok (m' & e' & H)].
  destruct H as [H|[H|H]]; rewrite H in *; by constructor.
Qed.

Lemma d_of_Z_nonneg n : 0 <= n -> nonneg (d_of_Z n).
Proof.
  intros Hn. unfold d_of_Z, binary_normalize. destruct n as [|p|p]; [constructor| |lia].
  unfold binary_round. destruct (shl_align _ _ _) as [mz ez]. by apply nonneg_round.
Qed.

(** An [unsigned long] that is not zero converts to a finite positive double. *)
Lemma d_of_Z_finite n :
  0 < n <= ULONG_MAX -> exists m e, d_of_Z n = S754_finite false m e /\ - 52 <= e.
Proof.
  intros Hn. unfold d_of_Z, binary_normalize. destruct n as [|p|p]; [lia| |lia].
  unfold binary_round. set (d := Zpos (digits2_pos p)).
  pose proof (digits2_pos_bounds p) as Hd. fold d in Hd.
  assert (1 <= d <= 64) as Hd64.
  { split; [lia|]. destruct (decide (d <= 64)); [done|exfalso].
    assert (2 ^ 64 <= 2 ^ (d - 1)) by (apply Z.pow_le_mono_r; lia). unfold ULONG_MAX in *. lia. }
  assert (exists mz ez, shl_align p 0 (fexp 53 1024 (d + 0)) = (mz, ez) /\ ez <= 0 /\ - 52 <= ez /\
    Zdigits2 (Zpos mz) = d - ez) as (mz & ez & -> & Hez & Hez2 & Hdz).
  { unfold shl_align, fexp, emin. destruct (_ - 0) as [|q|q] eqn:Eq.
    - exists p, 0. split_and!; [done|lia..|]. cbn. lia.
    - exists p, 0. split_and!; [done|lia..|]. cbn. lia.
    - eexists _, _. split; [done|]. split_and!; [lia..|].
      assert (forall k, Zdigits2 (Zpos (Pos.iter xO p k)) = d + Zpos k) as Hk.
      { intros k. induction k as [|k IH] using Pos.peano_ind; [cbn; lia|].
        rewrite Pos.iter_succ. cbn [Zdigits2 digits2_pos] in *. lia. }
      rewrite Hk. lia. }
  unfold binary_round_aux.
  pose proof (shr_fexp_spec (Zpos mz) ez loc_Exact ltac:(lia)) as H1.
  destruct (shr_fexp 53 1024 (Zpos mz) ez loc_Exact) as [r1 e1]. destruct H1 as (Hm1 & He1 & Hb1).
  rewrite Hdz in *. replace (d - ez + ez) with d in * by lia.
  assert (- 52 <= e1 <= 11) as He1b by (unfold fexp, emin in *; lia).
  assert (1 <= shr_m r1) as Hpos1.
  { rewrite Hm1. apply Z.div_le_lower_bound; [lia|]. rewrite Z.mul_1_r.
    pose proof (digits2_pos_bounds mz) as Hdm. cbn [Zdigits2] in Hdz. rewrite Hdz in Hdm.
    etransitivity; [|apply Hdm]. apply Z.pow_le_mono_r; [lia|]. unfold fexp, emin. lia. }
  set (m2 := round_nearest_even _ _).
  assert (1 <= m2 <= 2 ^ 53) as Hm2.
  { unfold m2, round_nearest_even. destruct (loc_of_shr_record r1) as [|[]]; try lia. destruct (Z.even _); lia. }
  pose proof (shr_fexp_spec m2 e1 loc_Exact ltac:(lia)) as H2.
  destruct (shr_fexp 53 1024 m2 e1 loc_Exact) as [r2 e2]. destruct H2 as (Hr2 & He2 & Hb2).
  assert (Zdigits2 m2 <= 54 /\ m2 < 2 ^ Zdigits2 m2 /\ 2 ^ (Zdigits2 m2 - 1) <= m2) as (Hd2 & Hlt2 & Hge2).
  { destruct m2 as [|q|q]; [lia| |lia]. cbn [Zdigits2]. pose proof (digits2_pos_bounds q).
    split_and!; [|lia..]. destruct (decide (Zpos (digits2_pos q) <= 54)); [done|exfalso].
    assert (2 ^ 54 <= 2 ^ (Zpos (digits2_pos q) - 1)) by (apply Z.pow_le_mono_r; lia). lia. }
  assert (1 <= shr_m r2) as Hpos2.
  { rewrite Hr2. apply Z.div_le_lower_bound; [lia|]. rewrite Z.mul_1_r.
    etransitivity; [|exact Hge2]. apply Z.pow_le_mono_r; [lia|]. unfold fexp, emin.
    destruct m2 as [|q|q]; [lia| |lia]. cbn [Zdigits2] in *. lia. }
  assert (- 52 <= e2 <= 12) as He2b by (unfold fexp, emin in He2; lia).
  destruct (shr_m r2) as [|q|q]; [lia| |lia]. replace (e2 <=? 1024 - 53) with true by lia.
  exists q, e2. split; [done|lia].
Qed.

(** Rounding a positive mantissa above the subnormal range does not give zero. *)
Lemma shr_fexp_pos m e l :
  1 <= m -> - 1074 <= e -> 1 <= shr_m (fst (shr_fexp 53 1024 m e l)) /\ e <= snd (shr_fexp 53 1024 m e l).
Proof.
  intros Hm He. pose proof (shr_fexp_spec m e l ltac:(lia)) as H.
  destruct (shr_fexp 53 1024 m e l) as [r e']. destruct H as (Hr & He' & _). cbn [fst snd].
  split; [|lia]. rewrite Hr. apply Z.div_le_lower_bound; [lia|]. rewrite Z.mul_1_r.
  assert (1 <= Zdigits2 m /\ 2 ^ (Zdigits2 m - 1) <= m) as [Hd Hle].
  { destruct m as [|q|q]; [lia| |lia]. cbn [Zdigits2]. pose proof (digits2_pos_bounds q). lia. }
  etransitivity; [|exact Hle]. apply Z.pow_le_mono_r; [lia|]. unfold fexp, emin. lia.
Qed.

Lemma round_aux_pos s m e l :
  1 <= m -> - 1074 <= e ->
  (exists m' e', binary_round_aux 53 1024 s m e l = S754_finite s m' e') \/
  binary_round_aux 53 1024 s m e l = S754_infinity s.
Proof.
  intros Hm He. unfold binary_round_aux.
  destruct (shr_fexp_pos m e l Hm He) as [H1 H2]. destruct (shr_fexp 53 1024 m e l) as [r1 e1].
  cbn [fst snd] in *. set (m2 := round_nearest_even _ _).
  assert (1 <= m2) as Hm2.
  { unfold m2, round_nearest_even. destruct (loc_of_shr_record r1) as [|[]]; try lia. destruct (Z.even _); lia. }
  destruct (shr_fexp_pos m2 e1 loc_Exact Hm2 ltac:(lia)) as [H3 _].
  destruct (shr_fexp 53 1024 m2 e1 loc_Exact) as [r2 e2]. cbn [fst] in H3.
  destruct (shr_m r2) as [|q|q]; [lia| |lia]. destruct (e2 <=? _); eauto.
Qed.

Lemma ddiv_nonneg x m e : nonneg x -> nonneg (ddiv x (S754_finite false m e)).
Proof.
  intros [|m1 e1 _|]; cbn; [constructor| |constructor].
  unfold ddiv, SFdiv. destruct (SFdiv_core_binary 53 1024 (Zpos m1) e1 (Zpos m) e) as [[q e'] l] eqn:Eq.
  apply nonneg_round. unfold SFdiv_core_binary in Eq.
  set (m' := match _ with Zpos _ => _ | _ => _ end) in Eq.
  assert (0 <= m') as Hm'.
  { unfold m'. destruct (_ - _) as [|k|k]; [lia| |lia]. by apply Z.shiftl_nonneg. }
  pose proof (Z.div_pos m' (Zpos m) Hm' ltac:(lia)) as Hq. unfold Z.div in Hq.
  destruct (Z.div_eucl m' (Zpos m)) as [q0 r0]. by injection Eq as <- _ _.
Qed.

(** A quotient of a finite value by a product of positive integers. *)
Lemma ddiv_by_product_nonneg n a b :
  0 <= n <= ULONG_MAX -> 0 < a <= ULONG_MAX -> 0 < b <= ULONG_MAX ->
  nonneg (ddiv (d_of_Z n) (dmul (d_of_Z a) (d_of_Z b))).
Proof.
  intros Hn Ha Hb. destruct (d_of_Z_finite a Ha) as (ma & ea & -> & Hea).
  destruct (d_of_Z_finite b Hb) as (mb & eb & -> & Heb). unfold dmul at 1, SFmul. cbn [xorb].
  destruct (round_aux_pos false (Zpos (ma * mb)) (ea + eb) loc_Exact) as [(m & e & ->)| ->]; [lia..| |].
  - apply ddiv_nonneg, d_of_Z_nonneg. lia.
  - destruct (decide (n = 0)) as [->|]; [constructor|].
    destruct (d_of_Z_finite n ltac:(lia)) as (mn & en & -> & _). constructor.
Qed.

Lemma dmul_nonneg x m e : nonneg x -> nonneg (dmul x (S754_finite false m e)).
Proof.
  intros [|m1 e1 _|]; cbn; [constructor| |constructor]. unfold dmul, SFmul. by apply nonneg_round.
Qed.

(** Converting back is defined below [2^64]. *)
Lemma d_to_ulong_defined x :
  nonneg x -> dge x (d_of_Z ULONG_MAX) = false ->
  exists z, d_to_ulong x = Some z /\ 0 <= z <= ULONG_MAX.
Proof.
  change (d_of_Z ULONG_MAX) with (S754_finite false 4503599627370496 12).
  intros [|m e Hm|]; cbn [SFleb SFcompare]; [|  |discriminate].
  { intros _. exists 0. split; [reflexivity|unfold ULONG_MAX; lia]. }
  intros Hc. assert (exists z, d_trunc (S754_finite false m e) = Some z /\ 0 <= z < 2 ^ 64) as (z & Hz & Hb).
  { cbn [d_trunc]. destruct (0 <=? e) eqn:He; zb.
    - eexists. split; [done|]. split; [lia|]. unfold SFleb, SFcompare in Hc.
      destruct (Z.compare_spec 12 e) as [<-|Hlt|Hgt]; [|discriminate|].
      + fold (Pos.compare 4503599627370496 m) in Hc.
        destruct (Pos.compare_spec 4503599627370496 m) as [| |Hl]; [discriminate..|].
        change (2 ^ 64) with (4503599627370496 * 2 ^ 12).
        apply Z.mul_lt_mono_pos_r; [reflexivity|exact Hl].
      + apply Z.lt_le_trans with (2 ^ 53 * 2 ^ e); [apply Z.mul_lt_mono_pos_r; lia|].
        rewrite <- Z.pow_add_r by lia. apply Z.pow_le_mono_r; lia.
    - eexists. split; [done|]. split; [apply Z.div_pos; lia|].
      apply Z.div_lt_upper_bound; [lia|]. apply Z.lt_le_trans with (2 ^ 53); [done|].
      change (2 ^ 53) with (1 * 2 ^ 53). apply Z.mul_le_mono_nonneg; [lia| |lia|].
      + pose proof (Z.pow_pos_nonneg 2 (- e) ltac:(lia) ltac:(lia)). lia.
      + apply Z.pow_le_mono_r; lia. }
  exists z. unfold d_to_ulong. rewrite Hz. cbn. unfold ULONG_MAX.
  replace (_ && _) with true by lia. split; [done|lia].
Qed.

(** A value above zero and at most one is a positive finite double. *)
Lemma fraction_finite x :
  dgt x dzero = true -> dle x (d_of_Z 1) = true -> exists m e, x = S754_finite false m e.
Proof. destruct x as [[]|[]| |[] m e]; cbn; try done. eauto. Qed.
