(* ===== verification/Telemetry.v ===== *)
(** * Telemetry values of the OS-DB bridge

    The records the bridge passes around ([nexus_cgroup_metrics_t] of
    [include/container/cgroup.h], [nexus_resource_snapshot_t] of
    [include/bridge/resource_monitor.h]) and the pure functions on them of
    [src/bridge/resource_monitor.c] and [src/bridge/memory_bridge.c]. *)

From S2P Require Import Prelude Common Double.

Record nexus_cgroup_metrics := MkMetrics {
  m_memory_current : Z; m_memory_max : Z; m_cpu_usage_usec : Z; m_memory_pressure : double }.

Record nexus_resource_snapshot := MkSnapshot {
  s_valid : bool; s_has_memory : bool; s_has_limit : bool; s_has_cpu : bool;
  s_memory_current : Z; s_memory_max : Z; s_cpu_usage_usec : Z; s_memory_pressure : double }.

(** The value [memset] leaves. *)
Definition zero_snapshot : nexus_resource_snapshot :=
  MkSnapshot false false false false 0 0 0 dzero.

Definition d_minus_one : double := SFopp (d_of_Z 1).

Definition nexus_bridge_cpu_percent (prev cur : option nexus_resource_snapshot) (elapsed_ms : Z)
    : double :=
  match prev, cur with
  | Some prev, Some cur =>
      if negb (s_valid prev) || negb (s_valid cur) || negb (s_has_cpu prev) || negb (s_has_cpu cur)
      then d_minus_one
      else if elapsed_ms <=? 0 then d_minus_one
      else if s_cpu_usage_usec cur <? s_cpu_usage_usec prev then d_minus_one
      else
        let delta_usec := u64 (s_cpu_usage_usec cur - s_cpu_usage_usec prev) in
        dmul (ddiv (d_of_Z delta_usec) (dmul (d_of_Z elapsed_ms) (d_of_Z 1000))) (d_of_Z 100)
  | _, _ => d_minus_one
  end.

Definition MEMORY_BRIDGE_INVALID : Z := -2.
Definition MEMORY_BRIDGE_LOW : Z := -1.
Definition MEMORY_BRIDGE_NORMAL : Z := 0.
Definition MEMORY_BRIDGE_HIGH : Z := 1.

Definition NEXUS_BRIDGE_HIGH_PRESSURE : double := d_lit 85 100.
Definition NEXUS_BRIDGE_LOW_PRESSURE : double := d_lit 60 100.

Definition memory_bridge_pressure_state (metrics : option nexus_cgroup_metrics) : Z :=
  match metrics with
  | None => MEMORY_BRIDGE_INVALID
  | Some m =>
      if m_memory_max m =? 0 then MEMORY_BRIDGE_NORMAL
      else if dgt (m_memory_pressure m) NEXUS_BRIDGE_HIGH_PRESSURE then MEMORY_BRIDGE_HIGH
      else if dlt (m_memory_pressure m) NEXUS_BRIDGE_LOW_PRESSURE then MEMORY_BRIDGE_LOW
      else MEMORY_BRIDGE_NORMAL
  end.

Definition nexus_bridge_strerror (rc : Z) : string :=
  if rc =? NEXUS_OK then "ok"
  else if rc =? NEXUS_ERR_INVALID then "invalid argument"
  else if rc =? NEXUS_ERR_NOT_FOUND then "container not found"
  else if rc =? NEXUS_ERR_EXISTS then "container already exists"
  else if rc =? NEXUS_ERR_STATE then "illegal state for this operation"
  else if rc =? NEXUS_ERR_NOMEM then "container registry full"
  else if rc =? NEXUS_ERR_PROCESS then "resource metrics unavailable"
  else "unknown error".

(** CPU rate.  The CPU percentage is negative exactly when it cannot be
    computed honestly (a missing or invalid snapshot, no CPU data, no elapsed
    time, or a counter that went backwards); otherwise it is a number that is
    zero or positive, never a NaN. *)
Theorem cpu_percent_honest prev cur elapsed_ms :
  (forall p, prev = Some p -> 0 <= s_cpu_usage_usec p <= ULONG_MAX) ->
  (forall c, cur = Some c -> 0 <= s_cpu_usage_usec c <= ULONG_MAX) ->
  elapsed_ms <= 2 ^ 63 - 1 ->
  let honest := exists p c, prev = Some p /\ cur = Some c /\
    s_valid p = true /\ s_valid c = true /\ s_has_cpu p = true /\ s_has_cpu c = true /\
    0 < elapsed_ms /\ s_cpu_usage_usec p <= s_cpu_usage_usec c in
  (honest -> nonneg (nexus_bridge_cpu_percent prev cur elapsed_ms)) /\
  (~ honest -> nexus_bridge_cpu_percent prev cur elapsed_ms = d_minus_one).
Proof.
  intros Hp Hc Hms. cbn zeta. split.
  - intros (p & c & -> & -> & Hvp & Hvc & Hcp & Hcc & H0 & Hle).
    unfold nexus_bridge_cpu_percent. rewrite Hvp, Hvc, Hcp, Hcc. cbn [negb orb].
    replace (elapsed_ms <=? 0) with false by lia.
    replace (_ <? _) with false by lia.
    pose proof (Hp p eq_refl). pose proof (Hc c eq_refl). rewrite wrap_small by (unfold ULONG_MAX in *; lia).
    destruct (d_of_Z_finite 100) as (m3 & e3 & -> & _); [unfold ULONG_MAX; lia|].
    apply dmul_nonneg, ddiv_by_product_nonneg; unfold ULONG_MAX in *; lia.
  - intros Hn. unfold nexus_bridge_cpu_percent. destruct prev as [p|]; [|done].
    destruct cur as [c|]; [|done].
    destruct (_ || _) eqn:Hb; [done|]. destruct (elapsed_ms <=? 0) eqn:He; [done|].
    destruct (_ <? _) eqn:Hl; [done|]. zb. destruct Hn. exists p, c. split_and!; auto.
Qed.

Lemma cpu_percent_honest_witness :
  nonneg (nexus_bridge_cpu_percent
    (Some (MkSnapshot true true false true 0 0 1000 dzero))
    (Some (MkSnapshot true true false true 0 0 2500 dzero)) 3).
Proof.
  destruct (cpu_percent_honest (Some (MkSnapshot true true false true 0 0 1000 dzero))
    (Some (MkSnapshot true true false true 0 0 2500 dzero)) 3) as [Hh _].
  - intros p [= <-]. unfold ULONG_MAX. simpl. lia.
  - intros p [= <-]. unfold ULONG_MAX. simpl. lia.
  - lia.
  - apply Hh. eexists _, _. by split_and!.
Defined.
