(* ===== verification/AdaptationPolicy.v ===== *)
(** * The memory-pressure adaptation policy

    [include/bridge/adaptation_policy.h] and [src/bridge/adaptation_policy.c]:
    a resource snapshot becomes a requested buffer-pool capacity.  Null pointers
    are [None]; the outer [option] of [ceiling_frames] and of what uses it is
    undefined behaviour (a [double] converted to an [unsigned long] that cannot
    hold it), which [evaluate_decision] excludes. *)

From S2P Require Import Prelude Common Double Telemetry.

Record nexus_policy_config := MkConfig {
  shrink_threshold : double; grow_threshold : double; pool_fraction : double;
  page_size : Z; min_frames : Z; max_frames : Z; max_step_down : Z; max_step_up : Z }.

Inductive nexus_adapt_action := NEXUS_ADAPT_HOLD | NEXUS_ADAPT_GROW | NEXUS_ADAPT_SHRINK.
#[export] Instance nexus_adapt_action_eq_dec : EqDecision nexus_adapt_action.
Proof. solve_decision. Defined.

Inductive nexus_adapt_reason :=
  | NEXUS_REASON_OK | NEXUS_REASON_NO_METRICS | NEXUS_REASON_UNLIMITED | NEXUS_REASON_WITHIN_BAND
  | NEXUS_REASON_AT_MIN | NEXUS_REASON_AT_MAX | NEXUS_REASON_DUPLICATE
  | NEXUS_REASON_REQUEST_FAILED | NEXUS_REASON_INVALID_CONFIG.

Record nexus_adapt_decision := MkDecision {
  action : nexus_adapt_action; target_frames : Z; pressure : double; reason : nexus_adapt_reason }.

Record nexus_policy := MkPolicy { last_target : Z; have_last : bool }.

Definition nexus_policy_config_default : nexus_policy_config :=
  MkConfig (d_lit 85 100) (d_lit 60 100) (d_lit 6 10) 4096 16 0 256 256.

Definition nexus_policy_init : nexus_policy := MkPolicy 0 false.

Definition nexus_policy_config_valid (cfg : option nexus_policy_config) : bool :=
  match cfg with
  | None => false
  | Some cfg =>
      if negb (dgt (shrink_threshold cfg) dzero) then false
      else if dlt (grow_threshold cfg) dzero then false
      else if dge (grow_threshold cfg) (shrink_threshold cfg) then false
      else if negb (dgt (pool_fraction cfg) dzero && dle (pool_fraction cfg) (d_of_Z 1)) then false
      else if page_size cfg =? 0 then false
      else if min_frames cfg =? 0 then false
      else if negb (max_frames cfg =? 0) && (max_frames cfg <? min_frames cfg) then false
      else if (max_step_down cfg =? 0) && (max_step_up cfg =? 0) then false
      else true
  end.

Definition sub_floor (a b : Z) : Z := if b <? a then u64 (a - b) else 0.
Definition add_sat (a b : Z) : Z := if u64 (ULONG_MAX - b) <? a then ULONG_MAX else u64 (a + b).

Definition ceiling_frames (cfg : nexus_policy_config) (limit_bytes : Z) : option Z :=
  let limit_frames := ddiv (d_of_Z limit_bytes) (d_of_Z (page_size cfg)) in
  let ceiling_d := dmul limit_frames (pool_fraction cfg) in
  ceiling ← (if dge ceiling_d (d_of_Z ULONG_MAX) then Some ULONG_MAX else d_to_ulong ceiling_d);
  let ceiling := if ceiling <? min_frames cfg then min_frames cfg else ceiling in
  Some (if negb (max_frames cfg =? 0) && (max_frames cfg <? ceiling) then max_frames cfg else ceiling).

(** The result code, the policy memory and the decision as they are left. *)
Definition nexus_policy_evaluate (policy : option nexus_policy) (cfg : option nexus_policy_config)
    (snapshot : option nexus_resource_snapshot) (current_frames : Z)
    (out : option nexus_adapt_decision)
    : option (Z * option nexus_policy * option nexus_adapt_decision) :=
  match policy, cfg, out with
  | Some pol, Some cfg, Some _ =>
      let decide a t p r := Some (MkDecision a t p r) in
      let hold p r := Some (NEXUS_OK, Some pol, decide NEXUS_ADAPT_HOLD current_frames p r) in
      if negb (nexus_policy_config_valid (Some cfg)) then
        Some (NEXUS_ERR_INVALID, Some pol,
              decide NEXUS_ADAPT_HOLD current_frames dzero NEXUS_REASON_INVALID_CONFIG)
      else
      match snapshot with
      | None => hold dzero NEXUS_REASON_NO_METRICS
      | Some snap =>
      if negb (s_valid snap) || negb (s_has_memory snap) then hold dzero NEXUS_REASON_NO_METRICS else
      let p := s_memory_pressure snap in
      let p := if dlt p dzero then dzero else p in
      if negb (s_has_limit snap) then hold p NEXUS_REASON_UNLIMITED else
      ceiling ← ceiling_frames cfg (s_memory_max snap);
      if dge p (shrink_threshold cfg) then
        let target := sub_floor current_frames (max_step_down cfg) in
        let target := if target <? min_frames cfg then min_frames cfg else target in
        if current_frames <=? target then hold p NEXUS_REASON_AT_MIN else
        if have_last pol && (last_target pol =? target) then hold p NEXUS_REASON_DUPLICATE else
        Some (NEXUS_OK, Some (MkPolicy target true),
              decide NEXUS_ADAPT_SHRINK target p NEXUS_REASON_OK)
      else if dle p (grow_threshold cfg) then
        if ceiling <=? current_frames then hold p NEXUS_REASON_AT_MAX else
        let target := add_sat current_frames (max_step_up cfg) in
        let target := if ceiling <? target then ceiling else target in
        if target <=? current_frames then hold p NEXUS_REASON_AT_MAX else
        if have_last pol && (last_target pol =? target) then hold p NEXUS_REASON_DUPLICATE else
        Some (NEXUS_OK, Some (MkPolicy target true),
              decide NEXUS_ADAPT_GROW target p NEXUS_REASON_OK)
      else hold p NEXUS_REASON_WITHIN_BAND
      end
  | _, _, _ => Some (NEXUS_ERR_INVALID, policy, out)
  end.

(** [request] is the resize callback on a context of type [C]. *)
Section Apply.
Context {C : Type}.

Definition nexus_policy_apply (policy : option nexus_policy) (cfg : option nexus_policy_config)
    (snapshot : option nexus_resource_snapshot) (current_frames : Z)
    (request : option (C -> Z -> Z * C)) (context : C) (out : option nexus_adapt_decision)
    : option (Z * option nexus_policy * C * option nexus_adapt_decision) :=
  match nexus_policy_evaluate policy cfg snapshot current_frames out with
  | None => None
  | Some (rc, policy, out) =>
      if negb (rc =? NEXUS_OK) then Some (rc, policy, context, out) else
      match out with
      | None => None
      | Some d =>
      if bool_decide (action d = NEXUS_ADAPT_HOLD) then Some (NEXUS_OK, policy, context, Some d) else
      match request with
      | None => Some (NEXUS_ERR_INVALID, policy, context, Some d)
      | Some request =>
          let '(rc, context) := request context (target_frames d) in
          if negb (rc =? NEXUS_OK) then
            Some (rc, (fun _ : nexus_policy => nexus_policy_init) <$> policy, context,
                  Some (MkDecision (action d) (target_frames d) (pressure d) NEXUS_REASON_REQUEST_FAILED))
          else Some (NEXUS_OK, policy, context, Some d)
      end
      end
  end.
End Apply.

Definition nexus_adapt_action_str (a : nexus_adapt_action) : string :=
  match a with
  | NEXUS_ADAPT_HOLD => "HOLD" | NEXUS_ADAPT_GROW => "GROW" | NEXUS_ADAPT_SHRINK => "SHRINK"
  end.

Definition nexus_adapt_reason_str (r : nexus_adapt_reason) : string :=
  match r with
  | NEXUS_REASON_OK => "ok"
  | NEXUS_REASON_NO_METRICS => "no metrics"
  | NEXUS_REASON_UNLIMITED => "unlimited memory"
  | NEXUS_REASON_WITHIN_BAND => "within hysteresis band"
  | NEXUS_REASON_AT_MIN => "at minimum capacity"
  | NEXUS_REASON_AT_MAX => "at maximum capacity"
  | NEXUS_REASON_DUPLICATE => "duplicate request suppressed"
  | NEXUS_REASON_REQUEST_FAILED => "resize request failed"
  | NEXUS_REASON_INVALID_CONFIG => "invalid configuration"
  end.

(** ** Ranges *)

Definition ulong (z : Z) : Prop := 0 <= z <= ULONG_MAX.

Record config_ok (cfg : nexus_policy_config) : Prop := {
  page_size_ok : ulong (page_size cfg); min_frames_ok : ulong (min_frames cfg);
  max_frames_ok : ulong (max_frames cfg); step_down_ok : ulong (max_step_down cfg);
  step_up_ok : ulong (max_step_up cfg) }.

Lemma sub_floor_spec a b : ulong a -> ulong b -> sub_floor a b = Z.max 0 (a - b).
Proof.
  unfold ulong, ULONG_MAX, sub_floor. intros. destruct (b <? a) eqn:E; zb; [rewrite wrap_small by lia|]; lia.
Qed.

Lemma add_sat_spec a b : ulong a -> ulong b -> add_sat a b = Z.min (a + b) ULONG_MAX.
Proof.
  unfold ulong, add_sat, ULONG_MAX. intros. rewrite (wrap_small 64 (_ - b)) by lia.
  destruct (_ <? a) eqn:E; zb; [|rewrite wrap_small by lia]; lia.
Qed.

(** What a valid configuration says. *)
Lemma config_valid_spec cfg :
  nexus_policy_config_valid (Some cfg) = true ->
  dgt (pool_fraction cfg) dzero = true /\ dle (pool_fraction cfg) (d_of_Z 1) = true /\
  page_size cfg <> 0 /\ min_frames cfg <> 0 /\
  (max_frames cfg = 0 \/ min_frames cfg <= max_frames cfg) /\
  (max_step_down cfg <> 0 \/ max_step_up cfg <> 0).
Proof.
  unfold nexus_policy_config_valid.
  destruct (dgt (shrink_threshold cfg) dzero); [|done]. cbn [negb].
  destruct (dlt (grow_threshold cfg) dzero); [done|].
  destruct (dge (grow_threshold cfg) (shrink_threshold cfg)); [done|].
  destruct (dgt (pool_fraction cfg) dzero); [|done]. destruct (dle (pool_fraction cfg) (d_of_Z 1)); [|done].
  cbn [negb andb]. destruct (page_size cfg =? 0) eqn:E1; [done|].
  destruct (min_frames cfg =? 0) eqn:E2; [done|]. destruct (_ && _) eqn:E3; [done|].
  destruct ((max_step_down cfg =? 0) && (max_step_up cfg =? 0)) eqn:E4; [done|]. intros _.
  split_and!; try done; lia.
Qed.

(** The bound on the pool: no undefined conversion, and a value between the
    configured floor and ceiling. *)
Lemma ceiling_frames_spec cfg limit :
  config_ok cfg -> nexus_policy_config_valid (Some cfg) = true -> ulong limit ->
  exists c, ceiling_frames cfg limit = Some c /\ min_frames cfg <= c <= ULONG_MAX /\
    (max_frames cfg <> 0 -> c <= max_frames cfg).
Proof.
  intros [Hp Hmin Hmax _ _] Hv Hl.
  destruct (config_valid_spec cfg Hv) as (Hf0 & Hf1 & Hp0 & Hm0 & Hmm & _).
  destruct (fraction_finite _ Hf0 Hf1) as (m & e & Hf). unfold ceiling_frames. rewrite Hf.
  destruct (d_of_Z_finite (page_size cfg)) as (mp & ep & -> & _); [unfold ulong in *; lia|].
  set (cd := dmul _ _). assert (nonneg cd) as Hcd.
  { apply dmul_nonneg, ddiv_nonneg, d_of_Z_nonneg. apply Hl. }
  assert (exists c0, (if dge cd (d_of_Z ULONG_MAX) then Some ULONG_MAX else d_to_ulong cd) = Some c0 /\
    0 <= c0 <= ULONG_MAX) as (c0 & -> & Hc0).
  { destruct (dge cd (d_of_Z ULONG_MAX)) eqn:Eg; [|by apply d_to_ulong_defined].
    exists ULONG_MAX. unfold ULONG_MAX. split; [done|lia]. }
  cbn. eexists. split; [done|]. unfold ulong in *.
  destruct (c0 <? min_frames cfg) eqn:E1; zb;
    (destruct (negb _ && _) eqn:E2; zb; (split; [lia|intros; lia])).

Qed.

(** ** One evaluation *)

(** The decision a valid evaluation produces, with the policy memory after it. *)
Section Evaluate.
Context (cfg : nexus_policy_config) (Hcfg : config_ok cfg)
  (Hv : nexus_policy_config_valid (Some cfg) = true).
Implicit Types (pol : nexus_policy) (snap : nexus_resource_snapshot).

(** A snapshot the policy may act on, and the pressure it then uses. *)
Definition actionable snap : Prop :=
  s_valid snap = true /\ s_has_memory snap = true /\ s_has_limit snap = true.
Definition used_pressure snap : double :=
  if dlt (s_memory_pressure snap) dzero then dzero else s_memory_pressure snap.

Record sound_decision pol snap (current ceiling : Z) pol' (d : nexus_adapt_decision) : Prop := {
  hold_same : action d = NEXUS_ADAPT_HOLD -> target_frames d = current /\ pol' = pol;
  shrink_bound : action d = NEXUS_ADAPT_SHRINK ->
    min_frames cfg <= target_frames d < current /\ current - target_frames d <= max_step_down cfg /\
    actionable snap /\ dge (used_pressure snap) (shrink_threshold cfg) = true;
  grow_bound : action d = NEXUS_ADAPT_GROW ->
    current < target_frames d <= ceiling /\ target_frames d - current <= max_step_up cfg /\
    actionable snap /\ dle (used_pressure snap) (grow_threshold cfg) = true;
  request_new : action d <> NEXUS_ADAPT_HOLD ->
    reason d = NEXUS_REASON_OK /\ pol' = MkPolicy (target_frames d) true /\
    (have_last pol = true -> last_target pol <> target_frames d) }.

Lemma hold_sound pol snap current ceiling p r :
  sound_decision pol snap current ceiling pol (MkDecision NEXUS_ADAPT_HOLD current p r).
Proof. by split. Qed.

Ltac holding := eexists _, _; (split; [done|]); (split; [done|]); apply hold_sound.

Lemma evaluate_decision pol snap current out :
  ulong current -> ulong (s_memory_max snap) ->
  exists ceiling pol' d,
    ceiling_frames cfg (s_memory_max snap) = Some ceiling /\
    nexus_policy_evaluate (Some pol) (Some cfg) (Some snap) current (Some out) =
      Some (NEXUS_OK, Some pol', Some d) /\
    sound_decision pol snap current ceiling pol' d.
Proof.
  intros Hc Hm. destruct (ceiling_frames_spec cfg _ Hcfg Hv Hm) as (c & Hce & Hcb & _).
  exists c. unfold nexus_policy_evaluate. rewrite Hv, Hce. cbn [negb].
  destruct (s_valid snap) eqn:Ev; cbn [negb orb];
    [|by holding].
  destruct (s_has_memory snap) eqn:Em; cbn [negb];
    [|by holding].
  destruct (s_has_limit snap) eqn:El; cbn [negb];
    [|by holding].
  fold (used_pressure snap). cbn [mbind option_bind].
  destruct Hcfg as [_ Hmin Hmax Hdn Hup]. unfold ulong in *.
  destruct (dge (used_pressure snap) (shrink_threshold cfg)) eqn:Es.
  - rewrite sub_floor_spec by done. set (t := if _ <? _ then _ else _).
    assert (min_frames cfg <= t /\ current - t <= max_step_down cfg) as [Ht1 Ht2]
      by (unfold t; destruct (_ <? _) eqn:?; zb; lia).
    destruct (current <=? t) eqn:E1; zb; [by holding|].
    destruct (have_last pol && _) eqn:E2; [by holding|].
    eexists _, _. do 2 (split; [done|]). split; cbn [action target_frames reason]; try done.
    intros _. split_and!; auto. intros Hh. rewrite Hh in E2. cbn [andb] in E2. by zb.
  - destruct (dle (used_pressure snap) (grow_threshold cfg)) eqn:Eg;
      [|by holding].
    destruct (c <=? current) eqn:E0; zb; [by holding|].
    rewrite add_sat_spec by done. set (t := if _ <? _ then _ else _).
    assert (t <= c /\ t - current <= max_step_up cfg) as [Ht1 Ht2]
      by (unfold t; destruct (_ <? _) eqn:?; zb; lia).
    destruct (t <=? current) eqn:E1; zb; [by holding|].
    destruct (have_last pol && _) eqn:E2; [by holding|].
    eexists _, _. do 2 (split; [done|]). split; cbn [action target_frames reason]; try done.
    intros _. split_and!; auto. intros Hh. rewrite Hh in E2. cbn [andb] in E2. by zb.
Qed.
End Evaluate.

(** ** Repeated evaluation *)

(** [n] ticks of the control loop under one snapshot, every request accepted:
    the pool takes the requested size. *)
Fixpoint ticks (n : nat) (cfg : nexus_policy_config) (snap : nexus_resource_snapshot)
    (pol : nexus_policy) (current : Z) : option (nexus_policy * Z) :=
  match n with
  | O => Some (pol, current)
  | S n =>
      match nexus_policy_apply (Some pol) (Some cfg) (Some snap) current
              (Some (fun _ target => (NEXUS_OK, target))) current
              (Some (MkDecision NEXUS_ADAPT_HOLD 0 dzero NEXUS_REASON_OK)) with
      | Some (_, Some pol, current, _) => ticks n cfg snap pol current
      | _ => None
      end
  end.

Section Convergence.
Context (cfg : nexus_policy_config) (Hcfg : config_ok cfg)
  (Hv : nexus_policy_config_valid (Some cfg) = true)
  (snap : nexus_resource_snapshot) (Hact : actionable snap) (Hlim : ulong (s_memory_max snap)).

Abbreviation tick_out := (MkDecision NEXUS_ADAPT_HOLD 0 dzero NEXUS_REASON_OK).
Abbreviation accept := (Some (fun (_ : Z) target => (NEXUS_OK, target))).

(** The memory holds a target that is not the next one to issue. *)
Definition fresh (pol : nexus_policy) (current : Z) : Prop :=
  have_last pol = false \/ last_target pol = current.

Lemma shrink_tick pol current :
  ulong current -> fresh pol current -> min_frames cfg <= current -> max_step_down cfg <> 0 ->
  dge (used_pressure snap) (shrink_threshold cfg) = true ->
  let target := Z.max (min_frames cfg) (current - max_step_down cfg) in
  exists pol', ticks 1 cfg snap pol current = Some (pol', target) /\ fresh pol' target.
Proof.
  intros Hc Hf Hmin Hdn Hp target. destruct Hact as (E1 & E2 & E3).
  destruct (ceiling_frames_spec cfg _ Hcfg Hv Hlim) as (c & Hce & _).
  cbn [ticks]. unfold nexus_policy_apply, nexus_policy_evaluate. rewrite Hv, E1, E2, E3, Hce.
  cbn [negb orb mbind option_bind]. fold (used_pressure snap). rewrite Hp.
  destruct Hcfg as [_ ? _ ? _]. rewrite sub_floor_spec by done. unfold ulong in *.
  replace (if _ <? _ then min_frames cfg else _) with target
    by (unfold target; destruct (_ <? _) eqn:?; zb; lia).
  destruct (current <=? target) eqn:E4; zb.
  { cbn. exists pol. split; [do 2 f_equal; unfold target in *; lia|].
    destruct Hf as [?|?]; [by left|right]. unfold target in *. lia. }
  replace (have_last pol && (last_target pol =? target)) with false
    by (destruct Hf as [-> | ->]; [done|destruct (have_last pol); cbn; lia]).
  cbn. exists (MkPolicy target true). split; [done|by right].
Qed.

Lemma grow_tick pol current ceiling :
  ulong current -> fresh pol current -> ceiling_frames cfg (s_memory_max snap) = Some ceiling ->
  current <= ceiling -> max_step_up cfg <> 0 ->
  dge (used_pressure snap) (shrink_threshold cfg) = false ->
  dle (used_pressure snap) (grow_threshold cfg) = true ->
  let target := Z.min ceiling (current + max_step_up cfg) in
  exists pol', ticks 1 cfg snap pol current = Some (pol', target) /\ fresh pol' target.
Proof.
  intros Hc Hf Hce Hle Hup Hps Hp target. destruct Hact as (E1 & E2 & E3).
  destruct (ceiling_frames_spec cfg _ Hcfg Hv Hlim) as (c & Hce' & Hcb & _).
  assert (c = ceiling) as -> by congruence.
  cbn [ticks]. unfold nexus_policy_apply, nexus_policy_evaluate. rewrite Hv, E1, E2, E3, Hce.
  cbn [negb orb mbind option_bind]. fold (used_pressure snap). rewrite Hps, Hp.
  destruct Hcfg as [_ ? _ _ ?]. rewrite add_sat_spec by done. unfold ulong in *.
  destruct (ceiling <=? current) eqn:E4; zb.
  { cbn. exists pol. split; [do 2 f_equal; unfold target in *; lia|].
    destruct Hf as [?|?]; [by left|right]. unfold target in *. lia. }
  replace (if _ <? _ then ceiling else _) with target
    by (unfold target; destruct (_ <? _) eqn:?; zb; lia).
  replace (target <=? current) with false by (unfold target; lia).
  replace (have_last pol && (last_target pol =? target)) with false
    by (destruct Hf as [-> | ->]; [done|destruct (have_last pol); cbn; unfold target; lia]).
  cbn. exists (MkPolicy target true). split; [done|by right].
Qed.

Lemma ticks_add n m pol current :
  ticks (n + m) cfg snap pol current = '(pol, current) ← ticks n cfg snap pol current; ticks m cfg snap pol current.
Proof.
  revert pol current. induction n as [|n IH]; intros pol current; [done|].
  cbn [ticks Nat.add]. destruct (nexus_policy_apply _ _ _ _ _ _ _) as [[[[? [?|]] ?] ?]|]; auto.
Qed.

Lemma shrink_ticks n pol current :
  ulong current -> fresh pol current -> min_frames cfg <= current -> max_step_down cfg <> 0 ->
  dge (used_pressure snap) (shrink_threshold cfg) = true ->
  exists pol', ticks n cfg snap pol current =
    Some (pol', Z.max (min_frames cfg) (current - Z.of_nat n * max_step_down cfg)).
Proof.
  intros Hc Hf Hmin Hdn Hp. destruct Hcfg as [_ Hm _ Hd _]. unfold ulong in *.
  revert pol current Hc Hf Hmin. induction n as [|n IH]; intros pol current Hc Hf Hmin.
  { exists pol. cbn. do 2 f_equal. lia. }
  destruct (shrink_tick pol current Hc Hf Hmin Hdn Hp) as (pol1 & H1 & Hf1).
  change (S n) with (1 + n)%nat. rewrite ticks_add, H1. cbn [mbind option_bind].
  destruct (IH pol1 (Z.max (min_frames cfg) (current - max_step_down cfg)) ltac:(lia) Hf1 ltac:(lia))
    as (pol2 & H2).
  exists pol2. rewrite H2. do 2 f_equal. nia.
Qed.

Lemma grow_ticks n pol current ceiling :
  ulong current -> fresh pol current -> ceiling_frames cfg (s_memory_max snap) = Some ceiling ->
  current <= ceiling -> max_step_up cfg <> 0 ->
  dge (used_pressure snap) (shrink_threshold cfg) = false ->
  dle (used_pressure snap) (grow_threshold cfg) = true ->
  exists pol', ticks n cfg snap pol current =
    Some (pol', Z.min ceiling (current + Z.of_nat n * max_step_up cfg)).
Proof.
  intros Hc Hf Hce Hle Hup Hps Hp.
  destruct (ceiling_frames_spec cfg _ Hcfg Hv Hlim) as (c & Hce' & Hcb & _).
  assert (c = ceiling) as -> by congruence. destruct Hcfg as [_ Hm _ _ Hd]. unfold ulong in *.
  revert pol current Hc Hf Hle. induction n as [|n IH]; intros pol current Hc Hf Hle.
  { exists pol. cbn. do 2 f_equal. lia. }
  destruct (grow_tick pol current ceiling Hc Hf Hce Hle Hup Hps Hp) as (pol1 & H1 & Hf1).
  change (S n) with (1 + n)%nat. rewrite ticks_add, H1. cbn [mbind option_bind].
  destruct (IH pol1 (Z.min ceiling (current + max_step_up cfg)) ltac:(lia) Hf1 ltac:(lia))
    as (pol2 & H2).
  exists pol2. rewrite H2. do 2 f_equal. nia.
Qed.
End Convergence.

(** ** Theorems *)

(** The whole part of a finite double that is not negative. *)
Definition whole (x : double) (z : Z) : Prop :=
  match x with
  | S754_zero _ => z = 0
  | S754_finite false m e => z * 2 ^ Z.max 0 (- e) <= Zpos m * 2 ^ Z.max 0 e < (z + 1) * 2 ^ Z.max 0 (- e)
  | _ => False
  end.

(** The part of the memory limit that the pool may have, in frames: limit /
    page_size * pool_fraction, in doubles. *)
Definition pool_share (cfg : nexus_policy_config) (limit_bytes : Z) : double :=
  dmul (ddiv (d_of_Z limit_bytes) (d_of_Z (page_size cfg))) (pool_fraction cfg).

(** The ceiling: the whole frames of the share, saturated, raised to
    [min_frames] and then cut to [max_frames] unless that is zero. *)
Definition is_ceiling (cfg : nexus_policy_config) (limit_bytes ceiling : Z) : Prop :=
  exists n, (if dge (pool_share cfg limit_bytes) (d_of_Z ULONG_MAX) then n = ULONG_MAX else whole (pool_share cfg limit_bytes) n) /\
    ceiling = let c := Z.max (min_frames cfg) n in if decide (max_frames cfg = 0) then c else Z.min (max_frames cfg) c.

Lemma d_to_ulong_whole x n : nonneg x -> d_to_ulong x = Some n -> whole x n.
Proof.
  unfold d_to_ulong. intros [|m e _|]; cbn [d_trunc mbind option_bind]; [by intros [= <-]| |done]. cbv zeta.
  set (v := if 0 <=? e then _ else _). destruct ((0 <=? v) && _); [|done]. intros [= <-]. unfold whole, v. clear v.
  destruct (0 <=? e) eqn:E; zb.
  - rewrite (Z.max_l 0 (- e)), (Z.max_r 0 e) by lia. lia.
  - rewrite (Z.max_r 0 (- e)), (Z.max_l 0 e) by lia. rewrite Z.mul_1_r. pose proof (Z.pow_pos_nonneg 2 (- e) ltac:(lia) ltac:(lia)).
    pose proof (Z.div_mod (Zpos m) (2 ^ (- e)) ltac:(lia)). pose proof (Z.mod_pos_bound (Zpos m) (2 ^ (- e)) ltac:(lia)). lia.
Qed.

Lemma ceiling_is_ceiling cfg limit c :
  config_ok cfg -> nexus_policy_config_valid (Some cfg) = true -> ulong limit -> ceiling_frames cfg limit = Some c -> is_ceiling cfg limit c.
Proof.
  intros [Hp Hmin Hmax _ _] Hv Hl Hc. destruct (config_valid_spec cfg Hv) as (Hf0 & Hf1 & Hp0 & _).
  assert (nonneg (pool_share cfg limit)) as Hn.
  { unfold pool_share. destruct (fraction_finite _ Hf0 Hf1) as (m & e & ->). destruct (d_of_Z_finite (page_size cfg)) as (mp & ep & -> & _);
      [unfold ulong in *; lia|]. apply dmul_nonneg, ddiv_nonneg, d_of_Z_nonneg, Hl. }
  unfold ceiling_frames in Hc. change (dmul (ddiv _ _) _) with (pool_share cfg limit) in Hc. unfold is_ceiling.
  destruct (dge (pool_share cfg limit) (d_of_Z ULONG_MAX)); cbn [mbind option_bind] in Hc; [exists ULONG_MAX; split; [done|]|].
  2: destruct (d_to_ulong (pool_share cfg limit)) as [n|] eqn:En; [|done]; exists n; split; [by apply d_to_ulong_whole|].
  all: injection Hc as <-; cbv zeta; case_decide as E; [rewrite E; cbn [Z.eqb negb andb]|rewrite (proj2 (Z.eqb_neq _ _) E); cbn [negb andb]].
  all: destruct (_ <? min_frames cfg) eqn:?; zb; cbn [negb andb]; try (destruct (max_frames cfg <? _) eqn:?; zb); lia.
Qed.

(** What the policy is to decide, [shrink_to] and [grow_to] being the capacities
    one step away. *)
Section Rules.
Context (cfg : nexus_policy_config) (pol : nexus_policy) (snap : nexus_resource_snapshot) (current ceiling : Z).

Definition shrink_to : Z := Z.max (min_frames cfg) (current - max_step_down cfg).
Definition grow_to : Z := Z.min ceiling (current + max_step_up cfg).
Definition last_issued : option Z := if have_last pol then Some (last_target pol) else None.
Definition high : Prop := actionable snap /\ dge (used_pressure snap) (shrink_threshold cfg) = true.
Definition low : Prop :=
  actionable snap /\ dge (used_pressure snap) (shrink_threshold cfg) = false /\ dle (used_pressure snap) (grow_threshold cfg) = true.
Definition hold (p : double) (r : nexus_adapt_reason) : nexus_adapt_decision := MkDecision NEXUS_ADAPT_HOLD current p r.

(** The decision, and the memory of the policy after it. *)
Inductive decides : nexus_adapt_decision -> nexus_policy -> Prop :=
  | no_metrics : s_valid snap = false \/ s_has_memory snap = false -> decides (hold dzero NEXUS_REASON_NO_METRICS) pol
  | unlimited : s_valid snap = true -> s_has_memory snap = true -> s_has_limit snap = false ->
      decides (hold (used_pressure snap) NEXUS_REASON_UNLIMITED) pol
  | at_min : high -> current <= shrink_to -> decides (hold (used_pressure snap) NEXUS_REASON_AT_MIN) pol
  | shrink_issued : high -> shrink_to < current -> last_issued = Some shrink_to ->
      decides (hold (used_pressure snap) NEXUS_REASON_DUPLICATE) pol
  | shrinks : high -> shrink_to < current -> last_issued <> Some shrink_to ->
      decides (MkDecision NEXUS_ADAPT_SHRINK shrink_to (used_pressure snap) NEXUS_REASON_OK) (MkPolicy shrink_to true)
  | at_max : low -> grow_to <= current -> decides (hold (used_pressure snap) NEXUS_REASON_AT_MAX) pol
  | grow_issued : low -> current < grow_to -> last_issued = Some grow_to ->
      decides (hold (used_pressure snap) NEXUS_REASON_DUPLICATE) pol
  | grows : low -> current < grow_to -> last_issued <> Some grow_to ->
      decides (MkDecision NEXUS_ADAPT_GROW grow_to (used_pressure snap) NEXUS_REASON_OK) (MkPolicy grow_to true)
  | within_band : actionable snap -> dge (used_pressure snap) (shrink_threshold cfg) = false ->
      dle (used_pressure snap) (grow_threshold cfg) = false -> decides (hold (used_pressure snap) NEXUS_REASON_WITHIN_BAND) pol.
End Rules.

Lemma issued_test pol t : have_last pol && (last_target pol =? t) = bool_decide (last_issued pol = Some t).
Proof.
  unfold last_issued. destruct (have_last pol); cbn [andb]; [|done]. destruct (last_target pol =? t) eqn:E; zb.
  - symmetry. apply bool_decide_eq_true. congruence.
  - symmetry. apply bool_decide_eq_false. congruence.
Qed.

Lemma evaluate_decides cfg pol snap current out ceiling :
  config_ok cfg -> nexus_policy_config_valid (Some cfg) = true -> ulong current -> ceiling_frames cfg (s_memory_max snap) = Some ceiling ->
  ceiling <= ULONG_MAX -> exists pol' d,
    nexus_policy_evaluate (Some pol) (Some cfg) (Some snap) current (Some out) = Some (NEXUS_OK, Some pol', Some d) /\
    decides cfg pol snap current ceiling d pol'.
Proof.
  intros [_ Hmin _ Hdn Hup] Hv Hc Hce Hcb. unfold nexus_policy_evaluate. rewrite Hv, Hce. cbn [negb mbind option_bind].
  destruct (s_valid snap) eqn:Ev; cbn [negb orb]; [|eexists _, _; split; [done|apply no_metrics; by left]].
  destruct (s_has_memory snap) eqn:Em; cbn [negb]; [|eexists _, _; split; [done|apply no_metrics; by right]].
  fold (used_pressure snap). destruct (s_has_limit snap) eqn:El; cbn [negb]; [|eexists _, _; split; [done|by apply unlimited]].
  assert (actionable snap) as Ha by done. unfold ulong in *.
  destruct (dge (used_pressure snap) (shrink_threshold cfg)) eqn:Es.
  - rewrite sub_floor_spec by done. replace (if _ <? _ then min_frames cfg else _) with (shrink_to cfg current)
      by (unfold shrink_to; destruct (_ <? _) eqn:?; zb; lia).
    destruct (current <=? shrink_to cfg current) eqn:E1; zb; [eexists _, _; split; [done|by apply at_min]|].
    rewrite issued_test. case_bool_decide; eexists _, _; (split; [done|]); [by apply shrink_issued|by apply shrinks].
  - destruct (dle (used_pressure snap) (grow_threshold cfg)) eqn:Eg; [|eexists _, _; split; [done|by apply within_band]].
    rewrite add_sat_spec by done. replace (if ceiling <? _ then ceiling else _) with (grow_to cfg current ceiling)
      by (unfold grow_to; destruct (_ <? _) eqn:?; zb; lia).
    destruct (ceiling <=? current) eqn:E0; zb; [eexists _, _; split; [done|apply at_max; [done|unfold grow_to; lia]]|].
    destruct (grow_to cfg current ceiling <=? current) eqn:E1; zb; [eexists _, _; split; [done|by apply at_max]|].
    rewrite issued_test. case_bool_decide; eexists _, _; (split; [done|]); [by apply grow_issued|by apply grows].
Qed.

(** C24: The policy decides as its rules say.  With a valid configuration every
    evaluation is defined (no conversion out of range) and succeeds.  Its
    decision, with its reason and pressure, and the memory after it are those of
    [decides]: no change without a reading or a limit or between the thresholds;
    at or above the shrink threshold a shrink by [max_step_down], not below
    [min_frames]; at or below the grow threshold, and only then, a growth by
    [max_step_up], not above the ceiling; no request twice in a row.  The ceiling
    is [pool_fraction] of the frames in the memory limit, computed in doubles,
    at least [min_frames] and at most a [max_frames] that is set; it bounds
    growth only.  Steps never wrap. *)
Theorem policy_decision_sound cfg pol snap current out :
  config_ok cfg -> nexus_policy_config_valid (Some cfg) = true ->
  ulong current -> ulong (s_memory_max snap) ->
  exists ceiling pol' d,
    nexus_policy_evaluate (Some pol) (Some cfg) (Some snap) current (Some out) =
      Some (NEXUS_OK, Some pol', Some d) /\
    is_ceiling cfg (s_memory_max snap) ceiling /\
    min_frames cfg <= ceiling /\ (max_frames cfg <> 0 -> ceiling <= max_frames cfg) /\
    decides cfg pol snap current ceiling d pol' /\
    sound_decision cfg pol snap current ceiling pol' d.
Proof.
  intros Hcfg Hv Hc Hm.
  destruct (ceiling_frames_spec cfg _ Hcfg Hv Hm) as (c & Hce & Hcb & Hcm).
  destruct (evaluate_decision cfg Hcfg Hv pol snap current out Hc Hm) as (c' & pol' & d & Hce' & He & Hd).
  assert (c' = c) as -> by congruence. exists c, pol', d. split; [done|]. split; [by apply ceiling_is_ceiling|]. split; [lia|]. split; [done|].
  split; [|exact Hd]. destruct (evaluate_decides cfg pol snap current out c Hcfg Hv Hc Hce ltac:(lia)) as (pol2 & d2 & He2 & Hr).
  rewrite He in He2. by injection He2 as <- <-.
Qed.

Definition demo_config : nexus_policy_config :=
  MkConfig (d_lit 85 100) (d_lit 60 100) (d_lit 6 10) 4096 16 0 64 64.
Definition demo_snapshot (p : double) : nexus_resource_snapshot :=
  MkSnapshot true true true false 0 (256 * 1024 * 1024) 0 p.

Lemma demo_config_ok : config_ok demo_config.
Proof. split; unfold ulong, ULONG_MAX; cbn; lia. Qed.
Lemma demo_limit p : ulong (s_memory_max (demo_snapshot p)).
Proof. unfold ulong, ULONG_MAX. cbn. lia. Qed.

(** The default configuration has no [max_frames]: 256 MiB bound the pool by
    39321 frames, six tenths of 65536. *)
Lemma policy_decision_sound_witness : exists ceiling pol' d,
  nexus_policy_evaluate (Some nexus_policy_init) (Some nexus_policy_config_default) (Some (demo_snapshot (d_lit 1 2)))
    39300 (Some (MkDecision NEXUS_ADAPT_HOLD 0 dzero NEXUS_REASON_OK)) = Some (NEXUS_OK, Some pol', Some d) /\
  is_ceiling nexus_policy_config_default (256 * 1024 * 1024) ceiling /\
  decides nexus_policy_config_default nexus_policy_init (demo_snapshot (d_lit 1 2)) 39300 ceiling d pol' /\
  action d = NEXUS_ADAPT_GROW /\ target_frames d = 39321.
Proof.
  destruct (policy_decision_sound nexus_policy_config_default nexus_policy_init (demo_snapshot (d_lit 1 2)) 39300
    (MkDecision NEXUS_ADAPT_HOLD 0 dzero NEXUS_REASON_OK) ltac:(split; unfold ulong, ULONG_MAX; cbn; lia)
    ltac:(vm_compute; reflexivity) ltac:(unfold ulong, ULONG_MAX; lia) (demo_limit _))
    as (c & pol' & d & He & Hc & _ & _ & Hd & _). exists c, pol', d. split; [exact He|]. split; [exact Hc|]. split; [exact Hd|].
  vm_compute in He. injection He as <- <-. split; vm_compute; reflexivity.
Defined.

(** C25: Convergence.  Under a constant snapshot at or above the shrink threshold,
    with every request granted, the capacity after [n] ticks from a fresh
    policy is exactly [max(min_frames, current - n * max_step_down)]; at or
    below the grow threshold it is [min(ceiling, current + n * max_step_up)]:
    the loop reaches its bound and stays there, and duplicate suppression never
    blocks it on the way. *)
Theorem policy_converges cfg snap current n :
  config_ok cfg -> nexus_policy_config_valid (Some cfg) = true -> actionable snap ->
  ulong (s_memory_max snap) -> ulong current ->
  (dge (used_pressure snap) (shrink_threshold cfg) = true -> min_frames cfg <= current ->
   max_step_down cfg <> 0 ->
   exists pol', ticks n cfg snap nexus_policy_init current =
     Some (pol', Z.max (min_frames cfg) (current - Z.of_nat n * max_step_down cfg))) /\
  (forall ceiling, ceiling_frames cfg (s_memory_max snap) = Some ceiling -> current <= ceiling ->
   dge (used_pressure snap) (shrink_threshold cfg) = false ->
   dle (used_pressure snap) (grow_threshold cfg) = true -> max_step_up cfg <> 0 ->
   exists pol', ticks n cfg snap nexus_policy_init current =
     Some (pol', Z.min ceiling (current + Z.of_nat n * max_step_up cfg))).
Proof.
  intros Hcfg Hv Hact Hm Hc. split.
  - intros. apply (shrink_ticks cfg Hcfg Hv snap Hact Hm); auto. by left.
  - intros. apply (grow_ticks cfg Hcfg Hv snap Hact Hm); auto. by left.
Qed.

Lemma policy_converges_witness : exists pol',
  ticks 8 demo_config (demo_snapshot (d_lit 9 10)) nexus_policy_init 500 = Some (pol', 16).
Proof.
  apply (policy_converges demo_config (demo_snapshot (d_lit 9 10)) 500 8 demo_config_ok
    ltac:(vm_compute; reflexivity) ltac:(done) (demo_limit _) ltac:(unfold ulong, ULONG_MAX; lia));
    [vm_compute; reflexivity|cbn; lia|done].
Defined.

(** Applying a decision.  HOLD never calls the engine; a granted request
    leaves the decision standing and is not repeated while the capacity stays
    the same; a refused request is reported, returns the engine's code and is
    forgotten, so the next evaluation makes the same request again. *)
Theorem policy_apply_requests {C} cfg pol snap current (request : C -> Z -> Z * C) ctx out :
  config_ok cfg -> nexus_policy_config_valid (Some cfg) = true ->
  ulong current -> ulong (s_memory_max snap) ->
  exists pol1 d,
    nexus_policy_evaluate (Some pol) (Some cfg) (Some snap) current (Some out) =
      Some (NEXUS_OK, Some pol1, Some d) /\
    let '(rc, ctx') := request ctx (target_frames d) in
    nexus_policy_apply (Some pol) (Some cfg) (Some snap) current (Some request) ctx (Some out) =
      Some (if bool_decide (action d = NEXUS_ADAPT_HOLD) then (NEXUS_OK, Some pol1, ctx, Some d)
            else if rc =? NEXUS_OK then (NEXUS_OK, Some pol1, ctx', Some d)
            else (rc, Some nexus_policy_init, ctx',
                  Some (MkDecision (action d) (target_frames d) (pressure d) NEXUS_REASON_REQUEST_FAILED))) /\
    (action d <> NEXUS_ADAPT_HOLD ->
       nexus_policy_evaluate (Some nexus_policy_init) (Some cfg) (Some snap) current (Some out) =
         Some (NEXUS_OK, Some pol1, Some d) /\
       exists d', nexus_policy_evaluate (Some pol1) (Some cfg) (Some snap) current (Some out) =
         Some (NEXUS_OK, Some pol1, Some d') /\
         action d' = NEXUS_ADAPT_HOLD /\ reason d' = NEXUS_REASON_DUPLICATE).
Proof.
  intros Hcfg Hv Hc Hm.
  destruct (evaluate_decision cfg Hcfg Hv pol snap current out Hc Hm) as (c & pol1 & d & Hce & He & Hd).
  exists pol1, d. split; [done|]. destruct (request ctx (target_frames d)) as [rc ctx'] eqn:Er. split.
  - unfold nexus_policy_apply. rewrite He. cbn. case_bool_decide as Ha; [done|].
    rewrite Er. by destruct (rc =? NEXUS_OK).
  - intros Ha. clear Er. unfold nexus_policy_evaluate in *. rewrite Hv, Hce in *.
    cbn [negb mbind option_bind have_last nexus_policy_init andb] in *.
    repeat match type of He with context [if ?b then _ else _] =>
      lazymatch b with
      | have_last _ && _ => destruct b
      | _ => destruct b eqn:?
      end; try (by injection He as <- <-) end.
    all: injection He as <- <-; split; [done|].
    all: cbn [have_last last_target andb]; rewrite Z.eqb_refl; by eexists.
Qed.

Lemma policy_apply_requests_witness : exists d,
  nexus_policy_apply (Some nexus_policy_init) (Some demo_config) (Some (demo_snapshot (d_lit 9 10))) 500
    (Some (fun (calls : Z) _ => (NEXUS_ERR_PROCESS, calls + 1))) 0
    (Some (MkDecision NEXUS_ADAPT_HOLD 0 dzero NEXUS_REASON_OK)) =
  Some (NEXUS_ERR_PROCESS, Some nexus_policy_init, 1, Some d) /\ reason d = NEXUS_REASON_REQUEST_FAILED.
Proof.
  destruct (policy_apply_requests demo_config nexus_policy_init (demo_snapshot (d_lit 9 10)) 500
    (fun (calls : Z) _ => (NEXUS_ERR_PROCESS, calls + 1)) 0
    (MkDecision NEXUS_ADAPT_HOLD 0 dzero NEXUS_REASON_OK) demo_config_ok
    ltac:(vm_compute; reflexivity) ltac:(unfold ulong, ULONG_MAX; lia) (demo_limit _))
    as (pol1 & d & He & Ha & _). rewrite Ha.
  vm_compute in He. injection He as <- <-. eexists. split; [vm_compute|]; reflexivity.
Defined.
