(* ===== verification/CStr.v ===== *)
(** * C strings, formatting and scanning

    What the container runtime and the bridge use of the C library on text:
    [snprintf] into a buffer of a given size, the conversions [%lu], [%ld] and
    [%06lu], the scanf conversions [%lu] and [%Ns], [strtoul] and [strtol] in
    base 10, in the C locale.  A C string is a [string] without NUL. *)

From Stdlib Require Import Ascii String.
From S2P Require Import Prelude.

Open Scope Z_scope.

Definition strlen (s : string) : Z := Z.of_nat (String.length s).

(** [snprintf(buf, len, ...)] producing the text [s]: what the buffer holds and
    the value returned. *)
Definition truncate (len : Z) (s : string) : string := String.substring 0 (Z.to_nat (len - 1)) s.
Definition snprintf (len : Z) (s : string) : string * Z := (truncate len s, strlen s).

(** ** Characters *)

Definition code_of (c : ascii) : Z := Z.of_nat (nat_of_ascii c).
Definition is_digit (c : ascii) : bool := (48 <=? code_of c) && (code_of c <=? 57).
Definition is_space (c : ascii) : bool :=
  (code_of c =? 32) || ((9 <=? code_of c) && (code_of c <=? 13)).
Definition is_alpha (c : ascii) : bool :=
  ((65 <=? code_of c) && (code_of c <=? 90)) || ((97 <=? code_of c) && (code_of c <=? 122)).
Definition isalnum (c : ascii) : bool := is_alpha c || is_digit c.

Definition digit (d : Z) : ascii := ascii_of_nat (Z.to_nat (48 + d)).

Fixpoint all_chars (P : ascii -> bool) (s : string) : bool :=
  match s with EmptyString => true | String c s => P c && all_chars P s end.

(** ** Printing *)

(** The decimal digits of [n] below [10^fuel], before [acc]. *)
Fixpoint dec_go (fuel : nat) (n : Z) (acc : string) : string :=
  match fuel with
  | O => acc
  | S fuel =>
      let acc := String (digit (n mod 10)) acc in
      if n <? 10 then acc else dec_go fuel (n / 10) acc
  end.

(** [%lu]; a 64-bit value has at most 20 digits. *)
Definition dec (n : Z) : string := dec_go 20 n "".
(** [%ld] *)
Definition dec_signed (n : Z) : string := if n <? 0 then String "-" (dec (- n)) else dec n.
(** [%06lu] *)
Fixpoint zeros (n : nat) (s : string) : string :=
  match n with O => s | S n => String "0" (zeros n s) end.
Definition dec06 (n : Z) : string := zeros (6 - String.length (dec n)) (dec n).

(** ** Scanning *)

Fixpoint skip_space (s : string) : string :=
  match s with
  | String c rest => if is_space c then skip_space rest else s
  | EmptyString => EmptyString
  end.

(** The value of the leading digits, how many there are, and the rest. *)
Fixpoint scan_digits (s : string) (v : Z) (k : nat) : Z * nat * string :=
  match s with
  | String c rest =>
      if is_digit c then scan_digits rest (10 * v + (code_of c - 48)) (S k) else (v, k, s)
  | EmptyString => (v, k, EmptyString)
  end.

Definition scan_sign (s : string) : bool * string :=
  match s with
  | String "-" rest => (true, rest)
  | String "+" rest => (false, rest)
  | _ => (false, s)
  end.

(** White space, an optional sign and digits: sign, magnitude, digits read and
    the rest. *)
Definition scan_number (s : string) : bool * Z * nat * string :=
  let '(neg, s) := scan_sign (skip_space s) in
  let '(v, k, rest) := scan_digits s 0 0 in (neg, v, k, rest).

(** [strtoul(s, &end, 10)]: the value, whether [errno] is set to [ERANGE],
    whether any digit was read ([end != s]), and the text at [end]. *)
Definition strtoul (s : string) : Z * bool * bool * string :=
  let '(neg, v, k, rest) := scan_number s in
  if (k =? 0)%nat then (0, false, false, s)
  else if ULONG_MAX <? v then (ULONG_MAX, true, true, rest)
  else (if neg then u64 (- v) else v, false, true, rest).

Definition LONG_MAX : Z := 2 ^ 63 - 1.
Definition LONG_MIN : Z := - 2 ^ 63.

Definition strtol (s : string) : Z * bool * bool * string :=
  let '(neg, v, k, rest) := scan_number s in
  if (k =? 0)%nat then (0, false, false, s)
  else
    let z := if neg then - v else v in
    if LONG_MAX <? z then (LONG_MAX, true, true, rest)
    else if z <? LONG_MIN then (LONG_MIN, true, true, rest)
    else (z, false, true, rest).

(** [fscanf(f, "%lu", &v)] on the rest of a stream: the value and the stream
    after it, [None] when nothing is assigned.  glibc converts with [strtoul],
    so an out-of-range number saturates. *)
Definition fscanf_lu (s : string) : option (Z * string) :=
  let '(v, _, some, rest) := strtoul s in if some then Some (v, rest) else None.

(** [fscanf(f, "%<w>s", buf)] *)
Fixpoint scan_word (w : nat) (s : string) : string * string :=
  match w, s with
  | S w, String c rest =>
      if is_space c then (EmptyString, s)
      else let '(word, rest) := scan_word w rest in (String c word, rest)
  | _, _ => (EmptyString, s)
  end.
Definition fscanf_s (w : nat) (s : string) : option (string * string) :=
  match skip_space s with
  | EmptyString => None
  | s => Some (scan_word w s)
  end.

(** ** Lemmas *)

Lemma code_of_digit d : 0 <= d < 10 -> code_of (digit d) = 48 + d.
Proof.
  intros Hd. unfold code_of, digit. rewrite Ascii.nat_ascii_embedding by lia. lia.
Qed.

Lemma is_digit_digit d : 0 <= d < 10 -> is_digit (digit d) = true.
Proof. intros Hd. unfold is_digit. rewrite code_of_digit by done. lia. Qed.

Lemma is_space_digit d : 0 <= d < 10 -> is_space (digit d) = false.
Proof. intros Hd. unfold is_space. rewrite code_of_digit by done. lia. Qed.

Lemma dec_go_scan fuel n acc v k :
  0 <= n < 10 ^ Z.of_nat fuel -> (0 < fuel)%nat ->
  exists d, (0 < d)%nat /\ scan_digits (dec_go fuel n acc) v k = scan_digits acc (v * 10 ^ Z.of_nat d + n) (k + d).
Proof.
  revert n acc v k. induction fuel as [|fuel IH]; intros n acc v k Hn Hf; [lia|]. cbn [dec_go].
  pose proof (Z.mod_pos_bound n 10 ltac:(lia)) as Hm.
  destruct (n <? 10) eqn:E; zb.
  - exists 1%nat. split; [lia|]. cbn [scan_digits]. rewrite is_digit_digit, code_of_digit by done.
    rewrite Z.mod_small by lia. f_equal; lia.
  - assert (0 < fuel)%nat as Hf' by (destruct fuel; [cbn in Hn; lia|lia]).
    assert (0 <= n / 10 < 10 ^ Z.of_nat fuel) as Hn'.
    { split; [apply Z.div_pos; lia|]. apply Z.div_lt_upper_bound; [lia|].
      rewrite Nat2Z.inj_succ, Z.pow_succ_r in Hn by lia. lia. }
    destruct (IH (n / 10) (String (digit (n mod 10)) acc) v k Hn' Hf') as (d & Hd & ->).
    exists (S d). split; [lia|]. cbn [scan_digits]. rewrite is_digit_digit, code_of_digit by done.
    rewrite Nat2Z.inj_succ, Z.pow_succ_r by lia. pose proof (Z.div_mod n 10 ltac:(lia)).
    f_equal; [|lia]. lia.
Qed.

(** Text that does not continue a number. *)
Definition no_digit (s : string) : Prop :=
  match s with String c _ => is_digit c = false | EmptyString => True end.

Lemma dec_go_app fuel n acc rest : String.append (dec_go fuel n acc) rest = dec_go fuel n (String.append acc rest).
Proof.
  revert n acc. induction fuel as [|fuel IH]; intros n acc; cbn [dec_go]; [done|].
  destruct (n <? 10); [done|]. by rewrite IH.
Qed.

Lemma dec_go_head fuel n acc : 0 <= n -> (0 < fuel)%nat ->
  exists d rest, 0 <= d < 10 /\ dec_go fuel n acc = String (digit d) rest.
Proof.
  revert n acc. induction fuel as [|fuel IH]; intros n acc Hn Hf; [lia|]. cbn [dec_go].
  pose proof (Z.mod_pos_bound n 10 ltac:(lia)).
  destruct (n <? 10); [eauto|]. destruct fuel as [|fuel]; [cbn [dec_go]; eauto|].
  apply IH; [apply Z.div_pos; lia|lia].
Qed.

Lemma scan_sign_digit d rest : 0 <= d < 10 -> scan_sign (String (digit d) rest) = (false, String (digit d) rest).
Proof.
  intros Hd. assert (d = 0 \/ d = 1 \/ d = 2 \/ d = 3 \/ d = 4 \/ d = 5 \/ d = 6 \/ d = 7 \/ d = 8 \/ d = 9) as H by lia.
  by destruct H as [->|[->|[->|[->|[->|[->|[->|[->|[->| ->]]]]]]]]].
Qed.

(** A printed number scans back, whatever follows it. *)
Lemma scan_dec n rest :
  0 <= n < 10 ^ 20 -> no_digit rest ->
  exists k, (0 < k)%nat /\ scan_number (String.append (dec n) rest) = (false, n, k, rest).
Proof.
  intros Hn Hrest. unfold scan_number.
  replace (String.append (dec n) rest) with (dec_go 20 n rest) by (unfold dec; by rewrite dec_go_app).
  destruct (dec_go_head 20 n rest ltac:(lia) ltac:(lia)) as (d & tl & Hd & Heq).
  rewrite Heq. cbn [skip_space]. rewrite is_space_digit, scan_sign_digit by done. rewrite <- Heq.
  destruct (dec_go_scan 20 n rest 0 0 Hn ltac:(lia)) as (k & Hk & ->). exists k. split; [done|].
  rewrite Z.mul_0_l, Z.add_0_l, Nat.add_0_l. destruct rest as [|c rest]; cbn [scan_digits]; [done|].
  cbn in Hrest. by rewrite Hrest.
Qed.

Lemma fscanf_dec n rest :
  0 <= n <= ULONG_MAX -> no_digit rest -> fscanf_lu (String.append (dec n) rest) = Some (n, rest).
Proof.
  intros Hn Hrest. destruct (scan_dec n rest) as (k & Hk & Hs); [unfold ULONG_MAX in Hn; lia|done|].
  unfold fscanf_lu, strtoul. rewrite Hs. replace (k =? 0)%nat with false by (symmetry; apply Nat.eqb_neq; lia).
  by replace (ULONG_MAX <? n) with false by lia.
Qed.

Lemma append_empty_r s : String.append s EmptyString = s.
Proof.
  induction s as [|c s IH]; [done|].
  change (String c (String.append s EmptyString) = String c s). by rewrite IH.
Qed.

Lemma append_assoc a b c : String.append a (String.append b c) = String.append (String.append a b) c.
Proof.
  induction a as [|x a IH]; [done|].
  change (String x (String.append a (String.append b c)) = String x (String.append (String.append a b) c)).
  by rewrite IH.
Qed.

Lemma strlen_append a b : strlen (String.append a b) = strlen a + strlen b.
Proof.
  unfold strlen. induction a as [|x a IH]; [done|].
  change (Z.of_nat (S (String.length (String.append a b))) = Z.of_nat (S (String.length a)) + Z.of_nat (String.length b)).
  lia.
Qed.

Lemma strtoul_dec n : 0 <= n <= ULONG_MAX -> strtoul (dec n) = (n, false, true, EmptyString).
Proof.
  intros Hn. destruct (scan_dec n EmptyString) as (k & Hk & Hs); [unfold ULONG_MAX in Hn; lia|done|].
  rewrite append_empty_r in Hs. unfold strtoul. rewrite Hs.
  replace (k =? 0)%nat with false by (symmetry; apply Nat.eqb_neq; lia).
  by replace (ULONG_MAX <? n) with false by lia.
Qed.

(** What fits a buffer is kept whole. *)
Lemma truncate_fits len s : strlen s < len -> truncate len s = s.
Proof.
  unfold truncate, strlen. intros H.
  assert (forall m, (String.length s <= m)%nat -> String.substring 0 m s = s) as Hs.
  { clear. induction s as [|c s IH]; intros [|m] Hm; cbn in *; try done; [lia|].
    f_equal. apply IH. lia. }
  apply Hs. lia.
Qed.

Lemma truncate_length len s : 0 < len -> strlen (truncate len s) < len.
Proof.
  unfold truncate, strlen. intros H.
  assert (forall m t, (String.length (String.substring 0 m t) <= m)%nat) as Hs.
  { clear. induction m as [|m IH]; intros [|c t]; cbn; try lia. specialize (IH t). lia. }
  specialize (Hs (Z.to_nat (len - 1)) s). lia.
Qed.

(** A word without white space is scanned whole. *)
Lemma scan_word_all w s rest :
  all_chars (fun c => negb (is_space c)) s = true -> (String.length s < w)%nat ->
  match rest with String c _ => is_space c = true | EmptyString => True end ->
  scan_word w (String.append s rest) = (s, rest).
Proof.
  revert w. induction s as [|c s IH]; intros w Hs Hw Hr.
  - change (String.append EmptyString rest) with rest. destruct w as [|w]; [lia|].
    destruct rest as [|c rest]; [done|]. cbn [scan_word]. by rewrite Hr.
  - cbn [all_chars] in Hs. zb. destruct w as [|w]; [cbn in Hw; lia|].
    change (String.append (String c s) rest) with (String c (String.append s rest)).
    cbn [scan_word]. rewrite H. rewrite IH; [done|done|cbn in Hw; lia|done].
Qed.

Lemma dec_go_chars (P : ascii -> bool) fuel n acc :
  (forall d, 0 <= d < 10 -> P (digit d) = true) -> all_chars P acc = true -> 0 <= n ->
  all_chars P (dec_go fuel n acc) = true.
Proof.
  intros HP. revert n acc. induction fuel as [|fuel IH]; intros n acc Ha Hn; cbn [dec_go]; [done|].
  pose proof (Z.mod_pos_bound n 10 ltac:(lia)).
  assert (all_chars P (String (digit (n mod 10)) acc) = true) as Hs.
  { cbn [all_chars]. rewrite HP by done. done. }
  destruct (n <? 10); [done|]. apply IH; [done|]. apply Z.div_pos; lia.
Qed.

Lemma dec_go_length fuel n acc : (String.length (dec_go fuel n acc) <= fuel + String.length acc)%nat.
Proof.
  revert n acc. induction fuel as [|fuel IH]; intros n acc; cbn [dec_go]; [lia|].
  destruct (n <? 10); [cbn; lia|]. etransitivity; [apply IH|]. cbn. lia.
Qed.

Lemma dec_length n : (String.length (dec n) <= 20)%nat.
Proof. unfold dec. etransitivity; [apply dec_go_length|]. cbn. lia. Qed.

Lemma dec_no_space n : 0 <= n -> all_chars (fun c => negb (is_space c)) (dec n) = true.
Proof.
  intros Hn. unfold dec. apply dec_go_chars; [|done|done]. intros d Hd. by rewrite is_space_digit.
Qed.

Lemma dec_nonempty n : 0 <= n -> exists d rest, 0 <= d < 10 /\ dec n = String (digit d) rest.
Proof. intros Hn. unfold dec. apply dec_go_head; lia. Qed.

(** ** Scanning consumes *)

Lemma skip_space_length s : (String.length (skip_space s) <= String.length s)%nat.
Proof. induction s as [|c s IH]; cbn [skip_space]; [done|]. destruct (is_space c); cbn; lia. Qed.

Lemma skip_space_head s c r : skip_space s = String c r -> is_space c = false.
Proof.
  induction s as [|c' s IH]; cbn [skip_space]; [done|]. destruct (is_space c') eqn:E; [done|].
  by intros [= -> ->].
Qed.

Lemma scan_word_length w s : (String.length (snd (scan_word w s)) <= String.length s)%nat.
Proof.
  revert s. induction w as [|w IH]; intros [|c s]; cbn [scan_word]; try done.
  destruct (is_space c); [done|]. specialize (IH s). destruct (scan_word w s) as [x r]. cbn in *. lia.
Qed.

Lemma fscanf_s_shorter w s x r :
  (0 < w)%nat -> fscanf_s w s = Some (x, r) -> (String.length r < String.length s)%nat.
Proof.
  intros Hw. unfold fscanf_s. pose proof (skip_space_length s) as Hl.
  destruct (skip_space s) as [|c t] eqn:E; [done|]. intros [= Hs].
  apply skip_space_head in E. destruct w as [|w]; [lia|]. cbn [scan_word] in Hs. rewrite E in Hs.
  pose proof (scan_word_length w t) as Hr. destruct (scan_word w t) as [y q]. injection Hs as <- <-.
  cbn in *. lia.
Qed.

Lemma scan_digits_length s v k :
  let '(_, _, r) := scan_digits s v k in (String.length r <= String.length s)%nat.
Proof.
  revert v k. induction s as [|c s IH]; intros v k; cbn [scan_digits]; [done|].
  destruct (is_digit c); [|done].
  specialize (IH (10 * v + (code_of c - 48)) (S k)). destruct (scan_digits s _ _) as [[? ?] r]. cbn. lia.
Qed.

Lemma scan_digits_value s v k :
  0 <= v -> let '(v', _, _) := scan_digits s v k in 0 <= v'.
Proof.
  revert v k. induction s as [|c s IH]; intros v k Hv; cbn [scan_digits]; [done|].
  destruct (is_digit c) eqn:E; [|done]. apply IH. unfold is_digit in E. zb. lia.
Qed.

Lemma scan_sign_length s : (String.length (snd (scan_sign s)) <= String.length s)%nat.
Proof.
  destruct s as [|c s]; [done|]. unfold scan_sign.
  destruct c as [[] [] [] [] [] [] [] []]; cbn; lia.
Qed.

Lemma fscanf_lu_length s v r :
  fscanf_lu s = Some (v, r) -> (String.length r <= String.length s)%nat /\ 0 <= v <= ULONG_MAX.
Proof.
  unfold fscanf_lu, strtoul, scan_number. pose proof (scan_sign_length (skip_space s)) as Hs.
  pose proof (skip_space_length s) as Hk. destruct (scan_sign (skip_space s)) as [neg t].
  pose proof (scan_digits_length t 0 0) as Hd. pose proof (scan_digits_value t 0 0 ltac:(lia)) as Hv.
  destruct (scan_digits t 0 0) as [[z k] q]. cbn [snd] in Hs.
  destruct (k =? 0)%nat; [done|]. destruct (ULONG_MAX <? z) eqn:E; zb; intros [= <- <-].
  - split; [lia|]. unfold ULONG_MAX. lia.
  - split; [lia|]. destruct neg; [|lia]. pose proof (wrap_range 64 (- z) ltac:(lia)). unfold ULONG_MAX. lia.
Qed.

Lemma strtoul_range s : let '(v, _, _, _) := strtoul s in 0 <= v <= ULONG_MAX.
Proof.
  unfold strtoul, scan_number. destruct (scan_sign (skip_space s)) as [neg t].
  pose proof (scan_digits_value t 0 0 ltac:(lia)) as Hv. destruct (scan_digits t 0 0) as [[z k] q].
  destruct (k =? 0)%nat; [unfold ULONG_MAX; lia|].
  destruct (ULONG_MAX <? z) eqn:E; zb; [unfold ULONG_MAX; lia|].
  destruct neg; [|lia]. pose proof (wrap_range 64 (- z) ltac:(lia)). unfold ULONG_MAX. lia.
Qed.

Lemma strtol_dec n : 0 <= n <= LONG_MAX -> strtol (dec n) = (n, false, true, EmptyString).
Proof.
  intros Hn. destruct (scan_dec n EmptyString) as (k & Hk & Hs); [unfold LONG_MAX in Hn; lia|done|].
  rewrite append_empty_r in Hs. unfold strtol. rewrite Hs.
  replace (k =? 0)%nat with false by (symmetry; apply Nat.eqb_neq; lia). cbv zeta.
  replace (LONG_MAX <? n) with false by lia.
  by replace (n <? LONG_MIN) with false by (unfold LONG_MIN; lia).
Qed.

(** The first word of a line [word ++ separator ++ rest]. *)
Lemma fscanf_s_word w s c rest :
  all_chars (fun c => negb (is_space c)) s = true -> s <> EmptyString ->
  (String.length s < w)%nat -> is_space c = true ->
  fscanf_s w (String.append s (String c rest)) = Some (s, String c rest).
Proof.
  intros Hs Hne Hw Hc. destruct s as [|x s]; [done|]. unfold fscanf_s.
  pose proof Hs as Hx. cbn [all_chars] in Hx. apply andb_true_iff in Hx as [Hx _].
  apply negb_true_iff in Hx.
  assert (skip_space (String.append (String x s) (String c rest)) = String.append (String x s) (String c rest)) as ->.
  { change (String.append (String x s) (String c rest)) with (String x (String.append s (String c rest))).
    cbn [skip_space]. by rewrite Hx. }
  change (String.append (String x s) (String c rest)) with (String x (String.append s (String c rest))) at 1.
  cbv iota beta. f_equal. by apply (scan_word_all w (String x s) (String c rest)).
Qed.

(** ** What a scanned number is *)

(** The value of a string of digits, after the digits of [v]. *)
Fixpoint digits_value (s : string) (v : Z) : Z :=
  match s with String c s => digits_value s (10 * v + (code_of c - 48)) | EmptyString => v end.

(** One digit or more, of value [v]. *)
Definition numeral (s : string) (v : Z) : Prop :=
  s <> EmptyString /\ all_chars is_digit s = true /\ v = digits_value s 0.

(** The texts [strtoul] converts whole and without [ERANGE], where no white
    space leads: a sign may stand before the digits, and a minus wraps. *)
Inductive ulong_text : string -> Z -> Prop :=
| ulong_plain s v : numeral s v -> v <= ULONG_MAX -> ulong_text s v
| ulong_plus s v : numeral s v -> v <= ULONG_MAX -> ulong_text (String "+" s) v
| ulong_minus s v : numeral s v -> v <= ULONG_MAX -> ulong_text (String "-" s) (u64 (- v)).

Lemma scan_digits_all s v k :
  all_chars is_digit s = true -> scan_digits s v k = (digits_value s v, (k + String.length s)%nat, EmptyString).
Proof.
  revert v k. induction s as [|c s IH]; intros v k Hs; [by rewrite Nat.add_0_r|]. cbn [all_chars] in Hs.
  apply andb_true_iff in Hs as [Hc Hs]. cbn [scan_digits digits_value String.length]. rewrite Hc, IH by done. do 2 f_equal. lia.
Qed.

(** A scan of digits that reaches the end has seen nothing else. *)
Lemma scan_digits_end s v k v' k' : scan_digits s v k = (v', k', EmptyString) -> all_chars is_digit s = true.
Proof.
  revert v k. induction s as [|c s IH]; intros v k Hs; [done|]. cbn [scan_digits] in Hs. cbn [all_chars].
  destruct (is_digit c); [by eapply IH|done].
Qed.

Lemma scan_sign_cases s :
  (exists r, s = String "-" r /\ scan_sign s = (true, r)) \/ (exists r, s = String "+" r /\ scan_sign s = (false, r)) \/
  scan_sign s = (false, s).
Proof.
  destruct s as [|[b0 b1 b2 b3 b4 b5 b6 b7] r]; [by right; right|].
  destruct b0, b1, b2, b3, b4, b5, b6, b7;
    first [right; right; reflexivity|left; exists r; split; reflexivity|right; left; exists r; split; reflexivity].
Qed.

Lemma scan_sign_numeral s v : numeral s v -> scan_sign s = (false, s) /\ skip_space s = s.
Proof.
  intros (Hn & Hd & _). destruct s as [|c s]; [done|]. cbn [all_chars] in Hd. apply andb_true_iff in Hd as [Hc _]. split.
  - destruct (scan_sign_cases (String c s)) as [(r & E & _)|[(r & E & _)|E]]; [| |done]; injection E as -> _; discriminate Hc.
  - cbn [skip_space]. replace (is_space c) with false; [done|]. unfold is_digit, is_space in *. lia.
Qed.

(** [strtoul] accepts exactly these texts. *)
Lemma strtoul_exact s v :
  all_chars (fun c => negb (is_space c)) s = true -> strtoul s = (v, false, true, EmptyString) <-> ulong_text s v.
Proof.
  intros Hs. assert (skip_space s = s) as Hk.
  { destruct s as [|c s]; [done|]. cbn [all_chars] in Hs. apply andb_true_iff in Hs as [Hc _]. cbn [skip_space]. by destruct (is_space c). }
  assert (forall neg t, scan_sign s = (neg, t) -> strtoul s = (v, false, true, EmptyString) <->
    exists z, numeral t z /\ z <= ULONG_MAX /\ v = if neg then u64 (- z) else z) as Hgo.
  { intros neg t Ht. unfold strtoul, scan_number. rewrite Hk, Ht. split.
    - destruct (scan_digits t 0 0) as [[z k] rest] eqn:E. destruct (Nat.eqb_spec k 0) as [->|Hk0]; [done|].
      destruct (ULONG_MAX <? z) eqn:Ez; [done|]. intros [= Hv ->]. apply Z.ltb_ge in Ez.
      pose proof (scan_digits_end _ _ _ _ _ E) as Hd. rewrite scan_digits_all in E by done. injection E as Hz Hk'. exists z.
      split; [|done]. split; [|done]. intros ->. cbn in Hk'. lia.
    - intros (z & (Hne & Hd & Hz) & Hmax & ->). rewrite scan_digits_all by done. rewrite <- Hz.
      destruct t as [|c t]; [done|]. cbn [String.length Nat.add Nat.eqb]. by replace (ULONG_MAX <? z) with false by (symmetry; apply Z.ltb_ge; lia). }
  split.
  - intros E. destruct (scan_sign_cases s) as [(r & -> & Hr)|[(r & -> & Hr)|Hr]]; apply (Hgo _ _ Hr) in E as (z & Hz & Hm & ->); by constructor.
  - intros E. destruct E as [t z Hz Hm|t z Hz Hm|t z Hz Hm].
    + apply (Hgo false t); [by apply (scan_sign_numeral t z)|]. by exists z.
    + apply (Hgo false t); [done|]. by exists z.
    + apply (Hgo true t); [done|]. by exists z.
Qed.
