(* ===== verification/Os.v ===== *)
(** * The operating system the C runtime calls

    The container runtime and the bridge are C functions over the state of the
    kernel.  That state is a type [W]; the system calls and the stdio calls are
    the operations of the class [Os W], a parameter of the model.  A function of
    the runtime is a program of the monad [M W]: it threads the state and may
    run out of fuel ([None]) in a loop whose exit the kernel decides.

    [usage] is what a process holds (descriptors, mappings, children not yet
    waited for, open streams); [OsLaws] is the documented effect of the calls on
    it, and that a call is interrupted by a signal ([EINTR]) finitely often.
    [FsLaws] is the documented effect of the file calls on the directory tree.
    [wp] is total correctness: the program returns and its result satisfies the
    postcondition. *)

From stdpp Require Export gmap.
From S2P Require Import Prelude Bytes CStr.

#[export] Set Warnings "-clear-no-such-hyp".

(** ** Errors of the C library *)

Definition EPERM : Z := 1.
Definition ENOENT : Z := 2.
Definition ESRCH : Z := 3.
Definition EINTR : Z := 4.
Definition ECHILD : Z := 10.
Definition EEXIST : Z := 17.
Definition EINVAL : Z := 22.

(** A call that succeeds with a value or fails with an [errno]. *)
Inductive result (A : Type) := ok_ (a : A) | fail_ (errno : Z).
#[global] Arguments ok_ {A} a.
#[global] Arguments fail_ {A} errno.

Definition SIGKILL : Z := 9.
Definition SIGTERM : Z := 15.

(** ** Programs *)

Definition M (W A : Type) : Type := W -> option (A * W).

#[export] Instance M_ret W : MRet (M W) := fun A a w => Some (a, w).
#[export] Instance M_bind W : MBind (M W) := fun A B f m w =>
  match m w with Some (a, w) => f a w | None => None end.

Definition call {W A} (f : W -> A * W) : M W A := fun w => Some (f w).
Definition diverge {W A} : M W A := fun _ => None.

(** How the child of a [fork] ends its part of the code. *)
Inductive child_end := Exited (code : Z) | Execed (path : string) (argv : list string).

(** What a process holds. *)
Record usage := MkUsage {
  fds : gset Z; maps : gset (Z * Z); kids : gset Z; streams : gset Z }.

(** ** The calls *)

Class Os (W : Type) := {
  (** stdio and the file system; a stream opened for reading comes with the text
      its reads deliver before the end of the file or an error *)
  os_fopen_r : string -> W -> option (Z * string) * W;
  os_fopen_w : string -> W -> option Z * W;
  os_fprintf : Z -> string -> W -> bool * W;
  os_fclose : Z -> W -> bool * W;
  os_mkdir : string -> W -> result unit * W;
  os_stat_isdir : string -> W -> result bool * W;
  os_remove : string -> W -> result unit * W;
  os_rmdir : string -> W -> result unit * W;
  os_getenv : string -> W -> option string * W;
  os_time : W -> Z * W;
  (** descriptors and memory *)
  os_pipe : W -> result (Z * Z) * W;
  os_socketpair : W -> result (Z * Z) * W;
  os_getfd : Z -> W -> result Z * W;
  os_setfd : Z -> Z -> W -> result unit * W;
  os_close : Z -> W -> bool * W;
  os_read : Z -> Z -> W -> result (list Z) * W;
  os_write : Z -> list Z -> W -> result Z * W;
  os_send : Z -> list Z -> W -> result Z * W;
  os_mmap : Z -> W -> result Z * W;
  os_munmap : Z -> Z -> W -> bool * W;
  (** processes: [fork] and [clone] are given the code the child runs *)
  os_fork : (W -> option (child_end * W)) -> W -> result Z * W;
  os_clone : Z -> Z -> (W -> option (child_end * W)) -> W -> result Z * W;
  os_waitpid : Z -> bool -> W -> result (Z * Z) * W;
  os_kill : Z -> Z -> W -> result unit * W;
  os_nanosleep : Z -> W -> bool * W;
  (** made by a child before it starts its program *)
  os_chdir : string -> W -> result unit * W;
  os_execv : string -> list string -> W -> result unit * W;
  os_execvp : string -> list string -> W -> result unit * W;
  os_unshare : Z -> W -> result unit * W;
  os_sethostname : string -> Z -> W -> result unit * W;
  os_mount_private : W -> result unit * W }.

(** ** The documented effect of the calls *)

Definition open_fds (a b : Z) (u : usage) : usage :=
  MkUsage ({[a; b]} ∪ fds u) (maps u) (kids u) (streams u).
Definition close_fd (a : Z) (u : usage) : usage :=
  MkUsage (fds u ∖ {[a]}) (maps u) (kids u) (streams u).
Definition add_map (a len : Z) (u : usage) : usage :=
  MkUsage (fds u) ({[(a, len)]} ∪ maps u) (kids u) (streams u).
Definition drop_map (a len : Z) (u : usage) : usage :=
  MkUsage (fds u) (maps u ∖ {[(a, len)]}) (kids u) (streams u).
Definition add_kid (p : Z) (u : usage) : usage :=
  MkUsage (fds u) (maps u) ({[p]} ∪ kids u) (streams u).
Definition reap_kid (p : Z) (u : usage) : usage :=
  MkUsage (fds u) (maps u) (kids u ∖ {[p]}) (streams u).
Definition open_stream (f : Z) (u : usage) : usage :=
  MkUsage (fds u) (maps u) (kids u) ({[f]} ∪ streams u).
Definition close_stream (f : Z) (u : usage) : usage :=
  MkUsage (fds u) (maps u) (kids u) (streams u ∖ {[f]}).

Class Usage (W : Type) := {
  use : W -> usage;
  (** how often a call may still be interrupted *)
  interrupts : W -> nat }.

(** From [w] to [w'], the holdings become [u]. *)
Definition becomes `{Usage W} (w w' : W) (u : usage) : Prop :=
  use w' = u /\ (interrupts w' <= interrupts w)%nat.
Definition steady `{Usage W} (w w' : W) : Prop := becomes w w' (use w).

Definition fresh_pair (a b : Z) (u : usage) : Prop :=
  0 <= a /\ 0 <= b /\ a <> b /\ a ∉ fds u /\ b ∉ fds u.

(** A process id: positive, and a [pid_t] is an [int]. *)
Definition pid_ok (p : Z) : Prop := 0 < p < 2 ^ 31.

(** The result of a call that waits: an interruption uses up one of the
    interruptions left. *)
Definition waits `{Usage W} {A} (w : W) (r : result A) (w' : W) : Prop :=
  match r with
  | ok_ _ => steady w w'
  | fail_ e => use w' = use w /\ (interrupts w' <= interrupts w)%nat /\
      (e = EINTR -> (interrupts w' < interrupts w)%nat)
  end.

Class OsLaws (W : Type) `{Os W, Usage W} := {
  law_fopen_r p w r w' : os_fopen_r p w = (r, w') ->
    match r with
    | Some (f, _) => f ∉ streams (use w) /\ becomes w w' (open_stream f (use w))
    | None => steady w w' end;
  law_fopen_w p w r w' : os_fopen_w p w = (r, w') ->
    match r with
    | Some f => f ∉ streams (use w) /\ becomes w w' (open_stream f (use w))
    | None => steady w w' end;
  law_fprintf f s w r w' : os_fprintf f s w = (r, w') -> steady w w';
  law_fclose f w r w' : os_fclose f w = (r, w') -> becomes w w' (close_stream f (use w));
  law_mkdir p w r w' : os_mkdir p w = (r, w') -> steady w w';
  law_stat p w r w' : os_stat_isdir p w = (r, w') -> steady w w';
  law_remove p w r w' : os_remove p w = (r, w') -> steady w w';
  law_rmdir p w r w' : os_rmdir p w = (r, w') -> steady w w';
  law_getenv p w r w' : os_getenv p w = (r, w') -> steady w w';
  law_time w r w' : os_time w = (r, w') -> steady w w';
  law_pipe w r w' : os_pipe w = (r, w') ->
    match r with
    | ok_ (a, b) => fresh_pair a b (use w) /\ becomes w w' (open_fds a b (use w))
    | fail_ _ => steady w w' end;
  law_socketpair w r w' : os_socketpair w = (r, w') ->
    match r with
    | ok_ (a, b) => fresh_pair a b (use w) /\ becomes w w' (open_fds a b (use w))
    | fail_ _ => steady w w' end;
  law_getfd fd w r w' : os_getfd fd w = (r, w') ->
    steady w w' /\ (forall v, r = ok_ v -> 0 <= v);
  law_setfd fd v w r w' : os_setfd fd v w = (r, w') -> steady w w';
  (** Linux releases the descriptor even when [close] reports an error *)
  law_close fd w r w' : os_close fd w = (r, w') -> becomes w w' (close_fd fd (use w));
  law_read fd n w r w' : 0 <= n -> os_read fd n w = (r, w') ->
    waits w r w' /\ (forall l, r = ok_ l -> zlen l <= n /\ bytes_ok l);
  law_write fd l w r w' : os_write fd l w = (r, w') -> waits w r w';
  law_send fd l w r w' : os_send fd l w = (r, w') -> waits w r w';
  law_mmap len w r w' : os_mmap len w = (r, w') ->
    match r with
    | ok_ a => 0 < a /\ (a, len) ∉ maps (use w) /\ becomes w w' (add_map a len (use w))
    | fail_ _ => steady w w' end;
  law_munmap a len w r w' : os_munmap a len w = (r, w') -> becomes w w' (drop_map a len (use w));
  law_fork child w r w' : os_fork child w = (r, w') ->
    match r with
    | ok_ p => pid_ok p /\ p ∉ kids (use w) /\ becomes w w' (add_kid p (use w))
    | fail_ _ => steady w w' end;
  law_clone flags top child w r w' : os_clone flags top child w = (r, w') ->
    match r with
    | ok_ p => pid_ok p /\ p ∉ kids (use w) /\ becomes w w' (add_kid p (use w))
    | fail_ _ => steady w w' end;
  (** a positive pid and the options 0 or [WNOHANG]: the child itself, 0 for one
      that is still running, or the errors [EINTR] and [ECHILD] *)
  law_waitpid p nohang w r w' : 0 < p -> os_waitpid p nohang w = (r, w') ->
    match r with
    | ok_ (q, _) =>
        (q = p /\ becomes w w' (reap_kid p (use w))) \/ (nohang = true /\ q = 0 /\ steady w w')
    | fail_ e => waits w r w' /\ (e = EINTR \/ e = ECHILD /\ p ∉ kids (use w)) end;
  law_kill p sig w r w' : os_kill p sig w = (r, w') -> steady w w';
  law_nanosleep ns w r w' : os_nanosleep ns w = (r, w') -> steady w w' }.

(** *** The file system

    [fs]: the directories there are and the text a file would be read with.
    [FsLaws] holds of regular files and of the kernel's cgroup files. *)
Record fsview := MkFs { dirs : gset string; text : gmap string string }.

Class FsView (W : Type) := {
  fs : W -> fsview;
  reader : W -> Z -> Prop;
  writer : W -> gmap Z (string * string);
  proc_exists : W -> Z -> bool }.

Class FsLaws (W : Type) `{Os W, FsView W} := {
  fs_fopen_r p w r w' : os_fopen_r p w = (r, w') ->
    fs w' = fs w /\
    match r with Some (f, t) => text (fs w) !! p = Some t /\ reader w' f | None => True end;
  fs_fclose_reader f w r w' : reader w f -> os_fclose f w = (r, w') -> fs w' = fs w;
  fs_kill0 p w r w' : os_kill p 0 w = (r, w') ->
    fs w' = fs w /\ (forall f, reader w f -> reader w' f) /\ (forall q, proc_exists w' q = proc_exists w q) /\
    proc_exists w p = match r with ok_ _ => true | fail_ e => negb (e =? ESRCH) end;
  fs_mkdir p w r w' : os_mkdir p w = (r, w') ->
    match r with
    | ok_ _ => fs w' = MkFs ({[p]} ∪ dirs (fs w)) (text (fs w))
    | fail_ _ => fs w' = fs w end;
  fs_stat p w r w' : os_stat_isdir p w = (r, w') ->
    fs w' = fs w /\ (r = ok_ true -> p ∈ dirs (fs w)) /\ (r = fail_ ENOENT -> p ∉ dirs (fs w));
  fs_rmdir p w r w' : os_rmdir p w = (r, w') ->
    match r with
    | ok_ _ => dirs (fs w') = dirs (fs w) ∖ {[p]}
    | fail_ e => dirs (fs w') = dirs (fs w) /\ (e = ENOENT -> p ∉ dirs (fs w)) end;
  fs_remove p w r w' : os_remove p w = (r, w') -> dirs (fs w') = dirs (fs w);
  fs_fopen_w p w r w' : os_fopen_w p w = (r, w') -> dirs (fs w') = dirs (fs w);
  fs_fprintf f s w r w' : os_fprintf f s w = (r, w') -> dirs (fs w') = dirs (fs w);
  fs_fclose f w r w' : os_fclose f w = (r, w') -> dirs (fs w') = dirs (fs w);
  fs_getenv p w r w' : os_getenv p w = (r, w') -> fs w' = fs w }.

(** A directory of regular files: what is written is what is read.  (The
    kernel's cgroup files only promise this for values they store unrounded.) *)
Class RegularFs (W : Type) `{Os W, FsView W} := {
  rf_fopen_w p w r w' : os_fopen_w p w = (r, w') ->
    match r with
    | Some f => text (fs w') = <[p := EmptyString]> (text (fs w)) /\
                writer w' = <[f := (p, EmptyString)]> (writer w)
    | None => text (fs w') = text (fs w) end;
  rf_fprintf f s w r w' p b : writer w !! f = Some (p, b) -> os_fprintf f s w = (r, w') ->
    text (fs w') = text (fs w) /\
    exists b', writer w' !! f = Some (p, b') /\ (r = true -> b' = String.append b s);
  rf_fclose f w r w' p b : writer w !! f = Some (p, b) -> os_fclose f w = (r, w') ->
    exists b', text (fs w') = <[p := b']> (text (fs w)) /\ (r = true -> b' = b) }.

(** ** Total correctness *)

Definition wp {W A} (m : M W A) (Q : A -> W -> Prop) (w : W) : Prop :=
  match m w with Some (a, w') => Q a w' | None => False end.

Lemma wp_ret {W A} (a : A) (Q : A -> W -> Prop) w : Q a w -> wp (mret a) Q w.
Proof. done. Qed.

Lemma wp_bind {W A B} (m : M W A) (f : A -> M W B) (Q : B -> W -> Prop) w :
  wp m (fun a w' => wp (f a) Q w') w -> wp (mbind f m) Q w.
Proof. unfold wp, mbind, M_bind. by destruct (m w) as [[a w']|]. Qed.

Lemma wp_call {W A} (f : W -> A * W) (Q : A -> W -> Prop) w :
  (forall a w', f w = (a, w') -> Q a w') -> wp (call f) Q w.
Proof. unfold wp, call. intros H. destruct (f w) as [a w'] eqn:E. by apply H. Qed.

Lemma wp_mono {W A} (m : M W A) (P Q : A -> W -> Prop) w :
  wp m P w -> (forall a w', P a w' -> Q a w') -> wp m Q w.
Proof. unfold wp. destruct (m w) as [[a w']|]; [|done]. auto. Qed.

(** A program that satisfies a [wp] returns. *)
Lemma wp_run {W A} (m : M W A) (Q : A -> W -> Prop) w :
  wp m Q w -> exists a w', m w = Some (a, w') /\ Q a w'.
Proof. unfold wp. destruct (m w) as [[a w']|]; [|done]. eauto. Qed.

Lemma run_wp {W A} (m : M W A) (Q : A -> W -> Prop) w a w' :
  wp m Q w -> m w = Some (a, w') -> Q a w'.
Proof. unfold wp. intros H E. by rewrite E in H. Qed.

(** [while (call() < 0 && errno == EINTR)]: repeat an interrupted call. *)
Fixpoint retry {W A} (fuel : nat) (f : W -> result A * W) : M W (result A) :=
  match fuel with
  | O => diverge
  | S fuel =>
      r ← call f;
      match r with
      | fail_ e => if e =? EINTR then retry fuel f else mret r
      | ok_ _ => mret r
      end
  end.

Lemma wp_retry {W} `{Usage W} {A} (f : W -> result A * W) (I : W -> Prop) (Q : result A -> W -> Prop)
    fuel w :
  (interrupts w < fuel)%nat -> I w ->
  (forall w r w', I w -> (interrupts w < fuel)%nat -> f w = (r, w') ->
     match r with
     | fail_ e => (e = EINTR /\ (interrupts w' < interrupts w)%nat /\ I w') \/ (e <> EINTR /\ Q r w')
     | ok_ _ => Q r w' end) ->
  wp (retry fuel f) Q w.
Proof.
  intros Hf HI Hstep. remember fuel as n eqn:Hn in Hf |- *.
  assert (n <= fuel)%nat as Hle by lia. clear Hn. revert w Hf HI.
  induction n as [|n IH]; intros w Hf HI; [lia|]. cbn [retry].
  apply wp_bind, wp_call. intros r w' E. pose proof (Hstep w r w' HI ltac:(lia) E) as Hr.
  destruct r as [a|e]; [by apply wp_ret|].
  destruct Hr as [(-> & Hlt & HI')|(Hne & HQ)].
  - change (EINTR =? EINTR) with true. cbn match. apply IH; [lia|lia|done].
  - replace (e =? EINTR) with false by lia. by apply wp_ret.
Qed.

(** [while (waitpid(pid, &st, 0) < 0 && errno == EINTR) {}] *)
Definition reap `{Os W} (fuel : nat) (pid : Z) : M W (result (Z * Z)) :=
  retry fuel (os_waitpid pid false).

Section holdings.
Context {W : Type} `{OsLaws W}.

Lemma steady_refl (w : W) : steady w w.
Proof. done. Qed.

Lemma becomes_trans (w w1 w2 : W) u1 u2 :
  becomes w w1 u1 -> becomes w1 w2 u2 -> becomes w w2 u2.
Proof. intros [? ?] [? ?]. split; [done|lia]. Qed.

(** A reaping loop returns, and the child is no longer one to wait for. *)
Lemma wp_reap fuel pid (w : W) (Q : result (Z * Z) -> W -> Prop) :
  0 < pid -> (interrupts w < fuel)%nat ->
  (forall r w', becomes w w' (reap_kid pid (use w)) ->
     (pid ∈ kids (use w) -> exists st, r = ok_ (pid, st)) -> Q r w') ->
  wp (reap fuel pid) Q w.
Proof.
  intros Hp Hf HQ. apply (wp_retry _ (fun w1 => steady w w1)); [done|done|].
  intros w1 r w2 Hs Hlt E. pose proof (law_waitpid pid false w1 r w2 Hp E) as Hl.
  destruct Hs as [Hu Hi]. destruct r as [[q st]|e].
  - destruct Hl as [[-> Hb]|(Hfalse & _)]; [|done]. apply HQ; [|by eauto].
    rewrite Hu in Hb. destruct Hb. split; [done|lia].
  - destruct Hl as [(Hu2 & Hi2 & Hint) [->|[-> Hk]]].
    + left. split; [done|]. split; [by apply Hint|]. split; [congruence|lia].
    + right. split; [done|]. apply HQ.
      * split; [|lia]. rewrite Hu2, Hu. rewrite Hu in Hk. unfold reap_kid.
        destruct (use w) as [a b c d]; cbn in *. f_equal; set_solver.
      * rewrite <- Hu. done.
Qed.
End holdings.

Lemma wp_bind_run {W A B} (m : M W A) (f : A -> M W B) (Q : B -> W -> Prop) w a w' :
  m w = Some (a, w') -> wp (f a) Q w' -> wp (mbind f m) Q w.
Proof. unfold wp, mbind, M_bind. by intros ->. Qed.

Lemma wp_and {W A} (m : M W A) (P Q : A -> W -> Prop) w :
  wp m P w -> wp m Q w -> wp m (fun a w' => P a w' /\ Q a w') w.
Proof. unfold wp. destruct (m w) as [[a w']|]; [done|done]. Qed.

(** What every result satisfies, whatever the state. *)
Definition yields {W A} (m : M W A) (P : A -> Prop) : Prop := forall w a w', m w = Some (a, w') -> P a.

Lemma yields_ret {W A} (a : A) (P : A -> Prop) : P a -> yields (W := W) (mret a) P.
Proof. by intros HP w b w' [= <- <-]. Qed.

Lemma yields_bind {W A B} (m : M W A) (f : A -> M W B) (P : B -> Prop) :
  (forall a, yields (f a) P) -> yields (mbind f m) P.
Proof.
  intros Hf w b w'. unfold mbind, M_bind. destruct (m w) as [[a w1]|]; [|done]. apply Hf.
Qed.

Lemma wp_yields {W A} (m : M W A) (P : A -> Prop) (Q : A -> W -> Prop) w :
  wp m Q w -> yields m P -> wp m (fun a w' => Q a w' /\ P a) w.
Proof.
  unfold wp. intros HQ HP. destruct (m w) as [[a w']|] eqn:E; [|done]. split; [done|]. by eapply HP.
Qed.

(** ** Rules

    A proof follows one process through a program: [becomes w0 w u] says that
    since [w0] its holdings have become [u].  Each rule advances that fact over
    one call. *)
Section rules.
Context {W : Type} `{OsLaws W}.
Implicit Types (w : W) (u : usage).

Lemma becomes_step w0 w w' u u' :
  becomes w0 w u -> becomes w w' u' -> becomes w0 w' u'.
Proof. intros [? ?] [? ?]. split; [done|lia]. Qed.

Lemma becomes_steady w0 w w' u : becomes w0 w u -> steady w w' -> becomes w0 w' u.
Proof. intros [<- ?] [? ?]. split; [done|lia]. Qed.

Lemma becomes_interrupts w0 w u n :
  becomes w0 w u -> (interrupts w0 < n)%nat -> (interrupts w < n)%nat.
Proof. intros [_ ?] ?. lia. Qed.

Lemma wp_steady {A} (f : W -> A * W) w0 w u (Q : A -> W -> Prop) :
  becomes w0 w u -> (forall w1 a w', f w1 = (a, w') -> steady w1 w') ->
  (forall a w', becomes w0 w' u -> Q a w') -> wp (call f) Q w.
Proof.
  intros Hb Hl HQ. apply wp_call. intros a w' E. apply HQ. eapply becomes_steady; [done|by eapply Hl].
Qed.

Lemma wp_close a w0 w u (Q : bool -> W -> Prop) :
  becomes w0 w u -> (forall b w', becomes w0 w' (close_fd a u) -> Q b w') -> wp (call (os_close a)) Q w.
Proof.
  intros Hb HQ. apply wp_call. intros b w' E. apply HQ. apply law_close in E.
  rewrite (proj1 Hb) in E. by eapply becomes_step.
Qed.

Lemma wp_munmap a len w0 w u (Q : bool -> W -> Prop) :
  becomes w0 w u -> (forall b w', becomes w0 w' (drop_map a len u) -> Q b w') ->
  wp (call (os_munmap a len)) Q w.
Proof.
  intros Hb HQ. apply wp_call. intros b w' E. apply HQ. apply law_munmap in E.
  rewrite (proj1 Hb) in E. by eapply becomes_step.
Qed.

Lemma wp_pipe w0 w u (Q : result (Z * Z) -> W -> Prop) :
  becomes w0 w u ->
  (forall a b w', fresh_pair a b u -> becomes w0 w' (open_fds a b u) -> Q (ok_ (a, b)) w') ->
  (forall e w', becomes w0 w' u -> Q (fail_ e) w') -> wp (call os_pipe) Q w.
Proof.
  intros Hb HQ HF. apply wp_call. intros r w' E. apply law_pipe in E.
  rewrite (proj1 Hb) in E. destruct r as [[a b]|e].
  - destruct E as [Hf E]. apply HQ; [done|]. by eapply becomes_step.
  - apply HF. by eapply becomes_steady.
Qed.

Lemma wp_socketpair w0 w u (Q : result (Z * Z) -> W -> Prop) :
  becomes w0 w u ->
  (forall a b w', fresh_pair a b u -> becomes w0 w' (open_fds a b u) -> Q (ok_ (a, b)) w') ->
  (forall e w', becomes w0 w' u -> Q (fail_ e) w') -> wp (call os_socketpair) Q w.
Proof.
  intros Hb HQ HF. apply wp_call. intros r w' E. apply law_socketpair in E.
  rewrite (proj1 Hb) in E. destruct r as [[a b]|e].
  - destruct E as [Hf E]. apply HQ; [done|]. by eapply becomes_step.
  - apply HF. by eapply becomes_steady.
Qed.

Lemma wp_mmap len w0 w u (Q : result Z -> W -> Prop) :
  becomes w0 w u ->
  (forall a w', 0 < a -> (a, len) ∉ maps u -> becomes w0 w' (add_map a len u) -> Q (ok_ a) w') ->
  (forall e w', becomes w0 w' u -> Q (fail_ e) w') -> wp (call (os_mmap len)) Q w.
Proof.
  intros Hb HQ HF. apply wp_call. intros r w' E. apply law_mmap in E.
  rewrite (proj1 Hb) in E. destruct r as [a|e].
  - destruct E as (Ha & Hf & E). apply HQ; [done..|]. by eapply becomes_step.
  - apply HF. by eapply becomes_steady.
Qed.

Lemma wp_fork child w0 w u (Q : result Z -> W -> Prop) :
  becomes w0 w u ->
  (forall p w', pid_ok p -> p ∉ kids u -> becomes w0 w' (add_kid p u) -> Q (ok_ p) w') ->
  (forall e w', becomes w0 w' u -> Q (fail_ e) w') -> wp (call (os_fork child)) Q w.
Proof.
  intros Hb HQ HF. apply wp_call. intros r w' E. apply law_fork in E.
  rewrite (proj1 Hb) in E. destruct r as [a|e].
  - destruct E as (Ha & Hf & E). apply HQ; [done..|]. by eapply becomes_step.
  - apply HF. by eapply becomes_steady.
Qed.

Lemma wp_clone flags top child w0 w u (Q : result Z -> W -> Prop) :
  becomes w0 w u ->
  (forall p w', pid_ok p -> p ∉ kids u -> becomes w0 w' (add_kid p u) -> Q (ok_ p) w') ->
  (forall e w', becomes w0 w' u -> Q (fail_ e) w') -> wp (call (os_clone flags top child)) Q w.
Proof.
  intros Hb HQ HF. apply wp_call. intros r w' E. apply law_clone in E.
  rewrite (proj1 Hb) in E. destruct r as [a|e].
  - destruct E as (Ha & Hf & E). apply HQ; [done..|]. by eapply becomes_step.
  - apply HF. by eapply becomes_steady.
Qed.

Lemma wp_reaped fuel pid w0 w u (Q : result (Z * Z) -> W -> Prop) :
  becomes w0 w u -> 0 < pid -> (interrupts w0 < fuel)%nat ->
  (forall r w', becomes w0 w' (reap_kid pid u) -> Q r w') -> wp (reap fuel pid) Q w.
Proof.
  intros Hb Hp Hf HQ. apply wp_reap; [done|by eapply becomes_interrupts|].
  intros r w' Hb' _. apply HQ. rewrite (proj1 Hb) in Hb'. by eapply becomes_step.
Qed.

Lemma wp_fopen_r p w0 w u (Q : option (Z * string) -> W -> Prop) :
  becomes w0 w u ->
  (forall f t w', f ∉ streams u -> becomes w0 w' (open_stream f u) -> Q (Some (f, t)) w') ->
  (forall w', becomes w0 w' u -> Q None w') -> wp (call (os_fopen_r p)) Q w.
Proof.
  intros Hb HQ HN. apply wp_call. intros r w' E. apply law_fopen_r in E.
  rewrite (proj1 Hb) in E. destruct r as [[f t]|].
  - destruct E as [Hf E]. apply HQ; [done|]. by eapply becomes_step.
  - apply HN. by eapply becomes_steady.
Qed.

Lemma wp_fopen_w p w0 w u (Q : option Z -> W -> Prop) :
  becomes w0 w u ->
  (forall f w', f ∉ streams u -> becomes w0 w' (open_stream f u) -> Q (Some f) w') ->
  (forall w', becomes w0 w' u -> Q None w') -> wp (call (os_fopen_w p)) Q w.
Proof.
  intros Hb HQ HN. apply wp_call. intros r w' E. apply law_fopen_w in E.
  rewrite (proj1 Hb) in E. destruct r as [f|].
  - destruct E as [Hf E]. apply HQ; [done|]. by eapply becomes_step.
  - apply HN. by eapply becomes_steady.
Qed.

(** Closing the stream just opened. *)
Lemma wp_fclose f w0 w u (Q : bool -> W -> Prop) :
  f ∉ streams u -> becomes w0 w (open_stream f u) -> (forall b w', becomes w0 w' u -> Q b w') ->
  wp (call (os_fclose f)) Q w.
Proof.
  intros Hf Hb HQ. apply wp_call. intros b w' E. apply HQ. apply law_fclose in E.
  rewrite (proj1 Hb) in E. replace (close_stream f (open_stream f u)) with u in E;
    [by eapply becomes_step|].
  destruct u as [a1 a2 a3 a4]. unfold close_stream, open_stream. cbn in *. f_equal. set_solver.
Qed.

(** A repeated call that waits and holds nothing returns, not interrupted. *)
Lemma wp_retry_waits {A} (f : W -> result A * W) (P : result A -> Prop) fuel w0 w u
    (Q : result A -> W -> Prop) :
  becomes w0 w u -> (interrupts w0 < fuel)%nat ->
  (forall w1 r w', f w1 = (r, w') -> waits w1 r w' /\ P r) ->
  (forall r w', becomes w0 w' u -> P r -> r <> fail_ EINTR -> Q r w') -> wp (retry fuel f) Q w.
Proof.
  intros Hb Hf Hl HQ. apply (wp_retry _ (fun w1 => becomes w0 w1 u));
    [by eapply becomes_interrupts|done|].
  intros w1 r w' Hb1 Hlt E. apply Hl in E as [Hw HP]. destruct r as [a|e]; cbn [waits] in Hw.
  - apply HQ; [|done|done]. by eapply becomes_steady.
  - destruct Hw as (Hu & Hi & Hint). destruct (decide (e = EINTR)) as [->|Hne].
    + left. split_and!; [done|by apply Hint|]. eapply becomes_steady; [done|]. by split.
    + right. split; [done|]. apply HQ; [|done|congruence]. eapply becomes_steady; [done|]. by split.
Qed.
End rules.

#[export] Hint Resolve law_getfd law_setfd law_kill law_nanosleep law_mkdir law_stat law_remove
  law_rmdir law_getenv law_time law_fprintf : nexus.

(** Two holdings are equal when their four sets are. *)
Ltac same_usage :=
  repeat match goal with
  | |- context [use ?w] => let u := fresh "u" in generalize dependent (use w); intros u; intros
  end;
  repeat match goal with
  | u : usage |- _ =>
      let a := fresh "F" in let b := fresh "F" in let c := fresh "F" in let d := fresh "F" in
      destruct u as [a b c d]
  end;
  repeat match goal with Hb : becomes _ _ _ |- _ => clear Hb end;
  unfold open_fds, close_fd, add_map, drop_map, add_kid, reap_kid, open_stream, close_stream in *;
  cbn [fds maps kids streams] in *; f_equal; set_solver.
