(* ===== verification/Sim.v ===== *)
(** * A concrete operating system

    An executable instance of [Os] on which the theorems about the runtime are
    run: descriptors and processes are numbered upwards, files are regular files
    of a tree of directories, and a script says which of the next faultable calls
    fail and how.  It satisfies every law of [Os]. *)

From stdpp Require Import gmap.
From S2P Require Import Prelude Bytes CStr Os.

Open Scope Z_scope.

Record sim := MkSim {
  k_use : usage;
  k_script : list Z;            (* faults to come: 0 for none, or an errno *)
  k_fs : fsview;
  k_writer : gmap Z (string * string);
  k_alive : gset Z;             (* processes that exist *)
  k_zombie : gset Z;            (* children that have ended *)
  k_stubborn : gset Z;          (* processes that ignore SIGTERM *)
  k_env : gmap string string;
  k_input : list (list Z)       (* what the next reads deliver *) }.

Definition with_use (u : usage) (w : sim) : sim :=
  MkSim u (k_script w) (k_fs w) (k_writer w) (k_alive w) (k_zombie w) (k_stubborn w) (k_env w) (k_input w).
Definition with_script (s : list Z) (w : sim) : sim :=
  MkSim (k_use w) s (k_fs w) (k_writer w) (k_alive w) (k_zombie w) (k_stubborn w) (k_env w) (k_input w).
Definition with_fs (v : fsview) (w : sim) : sim :=
  MkSim (k_use w) (k_script w) v (k_writer w) (k_alive w) (k_zombie w) (k_stubborn w) (k_env w) (k_input w).
Definition with_writer (m : gmap Z (string * string)) (w : sim) : sim :=
  MkSim (k_use w) (k_script w) (k_fs w) m (k_alive w) (k_zombie w) (k_stubborn w) (k_env w) (k_input w).
Definition with_procs (a z : gset Z) (w : sim) : sim :=
  MkSim (k_use w) (k_script w) (k_fs w) (k_writer w) a z (k_stubborn w) (k_env w) (k_input w).
Definition with_input (i : list (list Z)) (w : sim) : sim :=
  MkSim (k_use w) (k_script w) (k_fs w) (k_writer w) (k_alive w) (k_zombie w) (k_stubborn w) (k_env w) i.

(** A number above all of a set. *)
Definition above (X : gset Z) : Z := 1 + foldr Z.max 2 (elements X).

Lemma above_lt X x : x ∈ X -> x < above X.
Proof.
  unfold above. intros Hx%elem_of_elements. induction Hx as [x l|x y l _ IH]; cbn [foldr]; lia.
Qed.

Lemma above_pos X : 2 < above X.
Proof. unfold above. induction (elements X) as [|x l IH]; cbn [foldr]; lia. Qed.

(** So is every larger number. *)
Lemma above_not_in X x : above X <= x -> x ∉ X.
Proof. intros Hx Hin%above_lt. lia. Qed.

Definition has_slash (s : string) : bool := negb (all_chars (fun c => negb (code_of c =? 47)) s).
Fixpoint dirname (s : string) : string :=
  match s with
  | EmptyString => EmptyString
  | String c r => if has_slash r then String c (dirname r) else EmptyString
  end.

Definition draw (w : sim) : Z * sim :=
  match k_script w with [] => (0, w) | e :: r => (e, with_script r w) end.

(** A call that fails as the script says. *)
Definition faulty {A} (k : sim -> result A * sim) (w : sim) : result A * sim :=
  let '(e, w) := draw w in if e =? 0 then k w else (fail_ e, w).

Definition sim_pair (w : sim) : result (Z * Z) * sim :=
  let a := above (fds (k_use w)) in
  (ok_ (a, a + 1), with_use (open_fds a (a + 1) (k_use w)) w).

Definition EAGAIN : Z := 11.

Definition sim_spawn (w : sim) : result Z * sim :=
  let p := above (kids (k_use w) ∪ k_alive w) in
  if p <? 2 ^ 31
  then (ok_ p, with_procs ({[p]} ∪ k_alive w) (k_zombie w) (with_use (add_kid p (k_use w)) w))
  else (fail_ EAGAIN, w).

Definition sim_kill (p sig : Z) (w : sim) : result unit * sim :=
  if negb (bool_decide (p ∈ k_alive w)) then (fail_ ESRCH, w)
  else if (sig =? SIGKILL) || ((sig =? SIGTERM) && negb (bool_decide (p ∈ k_stubborn w))) then
    if bool_decide (p ∈ kids (k_use w)) then (ok_ tt, with_procs (k_alive w) ({[p]} ∪ k_zombie w) w)
    else (ok_ tt, with_procs (k_alive w ∖ {[p]}) (k_zombie w) w)
  else (ok_ tt, w).

Definition sim_waitpid (p : Z) (nohang : bool) (w : sim) : result (Z * Z) * sim :=
  let '(e, w) := draw w in
  if negb (e =? 0) then (fail_ EINTR, w)
  else if negb (bool_decide (p ∈ kids (k_use w))) then (fail_ ECHILD, w)
  else if nohang && negb (bool_decide (p ∈ k_zombie w)) then (ok_ (0, 0), w)
  else (ok_ (p, 0), with_procs (k_alive w ∖ {[p]}) (k_zombie w ∖ {[p]}) (with_use (reap_kid p (k_use w)) w)).

Definition sim_mkdir (p : string) (w : sim) : result unit * sim :=
  let v := k_fs w in
  if bool_decide (p ∈ dirs v) || bool_decide (is_Some (text v !! p)) then (fail_ EEXIST, w)
  else if bool_decide (dirname p ∈ dirs v) || (dirname p =? "")%string
  then (ok_ tt, with_fs (MkFs ({[p]} ∪ dirs v) (text v)) w)
  else (fail_ ENOENT, w).

Definition ENOTEMPTY : Z := 39.

Definition sim_rmdir (p : string) (w : sim) : result unit * sim :=
  let v := k_fs w in
  if negb (bool_decide (p ∈ dirs v)) then (fail_ ENOENT, w)
  else if existsb (fun q => (dirname (fst q) =? p)%string) (map_to_list (text v)) then (fail_ ENOTEMPTY, w)
  else (ok_ tt, with_fs (MkFs (dirs v ∖ {[p]}) (text v)) w).

#[export] Instance sim_os : Os sim := {|
  os_fopen_r p w :=
    match text (k_fs w) !! p with
    | Some t =>
        let f := above (streams (k_use w)) in
        (Some (f, t), with_writer (delete f (k_writer w)) (with_use (open_stream f (k_use w)) w))
    | None => (None, w)
    end;
  os_fopen_w p w :=
    if bool_decide (dirname p ∈ dirs (k_fs w)) then
      let f := above (streams (k_use w)) in
      (Some f, with_fs (MkFs (dirs (k_fs w)) (<[p := EmptyString]> (text (k_fs w))))
                 (with_writer (<[f := (p, EmptyString)]> (k_writer w)) (with_use (open_stream f (k_use w)) w)))
    else (None, w);
  os_fprintf f s w :=
    match k_writer w !! f with
    | Some (p, b) => (true, with_writer (<[f := (p, String.append b s)]> (k_writer w)) w)
    | None => (false, w)
    end;
  os_fclose f w :=
    let w := with_use (close_stream f (k_use w)) w in
    match k_writer w !! f with
    | Some (p, b) =>
        (true, with_fs (MkFs (dirs (k_fs w)) (<[p := b]> (text (k_fs w))))
                 (with_writer (delete f (k_writer w)) w))
    | None => (true, w)
    end;
  os_mkdir := sim_mkdir;
  os_stat_isdir p w :=
    (if bool_decide (p ∈ dirs (k_fs w)) then ok_ true
     else if bool_decide (is_Some (text (k_fs w) !! p)) then ok_ false else fail_ ENOENT, w);
  os_remove p w :=
    match text (k_fs w) !! p with
    | Some _ => (ok_ tt, with_fs (MkFs (dirs (k_fs w)) (delete p (text (k_fs w)))) w)
    | None => (fail_ ENOENT, w)
    end;
  os_rmdir := sim_rmdir;
  os_getenv x w := (k_env w !! x, w);
  os_time w := (1700000000, w);
  os_pipe := faulty sim_pair;
  os_socketpair := faulty sim_pair;
  os_getfd fd w := (ok_ 0, w);
  os_setfd fd v w := (ok_ tt, w);
  os_close fd w := (true, with_use (close_fd fd (k_use w)) w);
  os_read fd n := faulty (fun w =>
    match k_input w with
    | [] => (ok_ [], w)
    | l :: r => (ok_ (take (Z.to_nat n) (map (wrap 8) l)), with_input r w)
    end);
  os_write fd l := faulty (fun w => (ok_ (zlen l), w));
  os_send fd l := faulty (fun w => (ok_ (zlen l), w));
  os_mmap len := faulty (fun w =>
    let a := 4096 * above (set_map fst (maps (k_use w))) in (ok_ a, with_use (add_map a len (k_use w)) w));
  os_munmap a len w := (true, with_use (drop_map a len (k_use w)) w);
  os_fork _ := faulty sim_spawn;
  os_clone _ _ _ := faulty sim_spawn;
  os_waitpid := sim_waitpid;
  os_kill := sim_kill;
  os_nanosleep _ w := (true, w);
  os_chdir _ w := (ok_ tt, w);
  os_execv _ _ w := (ok_ tt, w);
  os_execvp _ _ w := (ok_ tt, w);
  os_unshare _ w := (ok_ tt, w);
  os_sethostname _ _ w := (ok_ tt, w);
  os_mount_private w := (ok_ tt, w) |}.

#[export] Instance sim_usage : Usage sim := {| use := k_use; interrupts w := length (k_script w) |}.

#[export] Instance sim_fsview : FsView sim := {|
  fs := k_fs;
  reader w f := k_writer w !! f = None;
  writer := k_writer;
  proc_exists w p := bool_decide (p ∈ k_alive w) |}.

(** ** The laws *)

Lemma draw_spec w : let '(e, w') := draw w in
  k_use w' = k_use w /\ (length (k_script w') <= length (k_script w))%nat /\
  (e <> 0 -> (length (k_script w') < length (k_script w))%nat).
Proof. unfold draw. destruct (k_script w) as [|e s] eqn:E; cbn; rewrite ?E; cbn; split_and!; auto; lia. Qed.

Lemma faulty_spec {A} (k : sim -> result A * sim) w r w' :
  faulty k w = (r, w') ->
  (exists w1, steady w w1 /\ k w1 = (r, w')) \/ (exists e, r = fail_ e /\ e <> 0 /\ waits w r w').
Proof.
  unfold faulty. pose proof (draw_spec w) as Hd. destruct (draw w) as [e w1]. destruct Hd as (Hu & Hl & He).
  destruct (e =? 0) eqn:Ee; zb; intros E.
  - left. exists w1. split; [|done]. split; [done|]. cbn. lia.
  - right. injection E as <- <-. exists e. split; [done|]. split; [done|]. cbn. split_and!; auto.
Qed.

Lemma sim_pair_spec w r w' : sim_pair w = (r, w') ->
  exists a b, r = ok_ (a, b) /\ fresh_pair a b (use w) /\ becomes w w' (open_fds a b (use w)).
Proof.
  unfold sim_pair. cbv zeta. intros [= <- <-]. eexists _, _. split; [done|]. split; [|done].
  pose proof (above_pos (fds (k_use w))). unfold fresh_pair. split_and!; try lia; apply above_not_in; cbn; lia.
Qed.

Lemma sim_faulty_pair w r w' : faulty sim_pair w = (r, w') ->
  match r with
  | ok_ (a, b) => fresh_pair a b (use w) /\ becomes w w' (open_fds a b (use w))
  | fail_ _ => steady w w' end.
Proof.
  intros [(w1 & Hs & E)|(e & -> & _ & Hw)]%faulty_spec.
  - apply sim_pair_spec in E as (a & b & -> & Hf & Hb). rewrite (proj1 Hs) in Hf, Hb.
    split; [done|]. by eapply becomes_step.
  - destruct Hw as (? & ? & _). by split.
Qed.

Lemma sim_spawn_spec w r w' : faulty sim_spawn w = (r, w') ->
  match r with
  | ok_ p => pid_ok p /\ p ∉ kids (use w) /\ becomes w w' (add_kid p (use w))
  | fail_ _ => steady w w' end.
Proof.
  intros [(w1 & Hs & E)|(e & -> & _ & Hw)]%faulty_spec.
  - unfold sim_spawn in E. cbv zeta in E. destruct (_ <? 2 ^ 31) eqn:Eb; injection E as <- <-; [|done]. zb.
    pose proof (above_pos (kids (k_use w1) ∪ k_alive w1)).
    pose proof (above_not_in (kids (k_use w1) ∪ k_alive w1) _ (Z.le_refl _)). destruct Hs as [Hu Hi]. cbn in Hu, Hi.
    split; [unfold pid_ok; lia|]. cbn. rewrite <- Hu. split; [set_solver|]. by split.
  - destruct Hw as (? & ? & _). by split.
Qed.

Lemma sim_waitpid_spec p nohang w r w' : 0 < p -> sim_waitpid p nohang w = (r, w') ->
  match r with
  | ok_ (q, _) =>
      (q = p /\ becomes w w' (reap_kid p (use w))) \/ (nohang = true /\ q = 0 /\ steady w w')
  | fail_ e => waits w r w' /\ (e = EINTR \/ e = ECHILD /\ p ∉ kids (use w)) end.
Proof.
  intros Hp. unfold sim_waitpid. pose proof (draw_spec w) as Hd. destruct (draw w) as [e w1].
  destruct Hd as (Hu & Hl & He).
  destruct (e =? 0) eqn:Ee; cbn [negb]; zb.
  2:{ intros [= <- <-]. split; [|by left]. cbn. split_and!; auto. }
  assert (steady w w1) as Hs by done. rewrite Hu.
  destruct (bool_decide (p ∈ _)) eqn:Ek; cbn [negb].
  - destruct (nohang && _) eqn:En; intros [= <- <-].
    + right. apply andb_true_iff in En as [-> _]. done.
    + left. split; [done|]. split; cbn; [by rewrite ?Hu|done].
  - intros [= <- <-]. apply bool_decide_eq_false in Ek. split; [|by right].
    cbn. split_and!; [done|done|]. by intros [=].
Qed.

Lemma sim_kill_spec p sig w r w' : sim_kill p sig w = (r, w') ->
  steady w w' /\ k_fs w' = k_fs w /\ k_writer w' = k_writer w /\ (sig = 0 -> w' = w) /\
  r = if bool_decide (p ∈ k_alive w) then ok_ tt else fail_ ESRCH.
Proof.
  unfold sim_kill. destruct (bool_decide (p ∈ k_alive w)); cbn [negb]; [|by intros [= <- <-]].
  destruct (_ || _) eqn:Es; [|by intros [= <- <-]]. assert (sig <> 0) by (by intros ->).
  case_match; by intros [= <- <-].
Qed.

#[export] Instance sim_os_laws : OsLaws sim.
Proof.
  split.
  - intros p w r w'. cbn. case_match; intros [= <- <-]; [|done]. split; [by apply above_not_in|done].
  - intros p w r w'. cbn. case_match; intros [= <- <-]; [|done]. split; [by apply above_not_in|done].
  - intros f s w r w'. cbn. repeat case_match; by intros [= <- <-].
  - intros f w r w'. cbn. repeat case_match; by intros [= <- <-].
  - intros p w r w'. cbn. unfold sim_mkdir. cbv zeta. repeat case_match; by intros [= <- <-].
  - intros p w r w'. cbn. by intros [= <- <-].
  - intros p w r w'. cbn. repeat case_match; by intros [= <- <-].
  - intros p w r w'. cbn. unfold sim_rmdir. cbv zeta. repeat case_match; by intros [= <- <-].
  - intros p w r w'. cbn. by intros [= <- <-].
  - intros w r w'. cbn. by intros [= <- <-].
  - intros w r w'. apply sim_faulty_pair.
  - intros w r w'. apply sim_faulty_pair.
  - intros fd w r w'. cbn. intros [= <- <-]. split; [done|]. by intros v [= <-].
  - intros fd v w r w'. cbn. by intros [= <- <-].
  - intros fd w r w'. cbn. by intros [= <- <-].
  - intros fd n w r w' Hn [(w1 & Hs & E)|(e & -> & Hne & Hw)]%faulty_spec; [|by split].
    destruct (k_input w1) as [|l i]; injection E as <- <-.
    + split; [done|]. intros l [= <-]. by split; [|constructor].
    + split; [done|]. intros l' [= <-]. split.
      * unfold zlen. rewrite length_take. lia.
      * apply Forall_take, Forall_map, Forall_true. intros x. apply wrap_range. lia.
  - intros fd l w r w' [(w1 & Hs & E)|(e & -> & Hne & Hw)]%faulty_spec; [|done]. by injection E as <- <-.
  - intros fd l w r w' [(w1 & Hs & E)|(e & -> & Hne & Hw)]%faulty_spec; [|done]. by injection E as <- <-.
  - intros len w r w' [(w1 & Hs & E)|(e & -> & Hne & Hw)]%faulty_spec.
    + injection E as <- <-. pose proof (above_pos (set_map fst (maps (k_use w1)))) as Ha.
      destruct Hs as [Hu Hi]. cbn in Hu, Hi |- *. rewrite <- Hu. split; [lia|]. split; [|by split].
      set (X := set_map fst (maps (k_use w1)) : gset Z) in *. intros Hin.
      apply (above_not_in X (4096 * above X)); [lia|]. apply elem_of_map.
      by exists (4096 * above X, len).
    + destruct Hw as (? & ? & _). by split.
  - intros a len w r w'. cbn. by intros [= <- <-].
  - intros child w r w'. apply sim_spawn_spec.
  - intros flags top child w r w'. apply sim_spawn_spec.
  - intros p nohang w r w'. apply sim_waitpid_spec.
  - intros p sig w r w' E. apply sim_kill_spec in E. apply E.
  - intros ns w r w'. cbn. by intros [= <- <-].
Qed.

#[export] Instance sim_fs_laws : FsLaws sim.
Proof.
  split.
  - intros p w r w'. cbn. case_match eqn:E; intros [= <- <-]; [|done].
    split; [done|]. split; [done|]. apply lookup_delete_eq.
  - intros f w r w'. cbn. intros Hr. rewrite Hr. by intros [= <- <-].
  - intros p w r w' E. pose proof (sim_kill_spec _ _ _ _ _ E) as (_ & _ & _ & H0 & Hr).
    rewrite (H0 eq_refl). split_and!; [done|done|done|]. rewrite Hr. cbn. by case_bool_decide.
  - intros p w r w'. cbn. unfold sim_mkdir. cbv zeta. repeat case_match; by intros [= <- <-].
  - intros p w r w'. cbn. intros [= <- <-]. split; [done|]. split.
    + case_bool_decide; [done|]. by case_bool_decide.
    + case_bool_decide; [done|]. by case_bool_decide.
  - intros p w r w'. cbn. unfold sim_rmdir. cbv zeta. case_bool_decide; cbn [negb].
    + case_match; by intros [= <- <-].
    + by intros [= <- <-].
  - intros p w r w'. cbn. case_match; by intros [= <- <-].
  - intros p w r w'. cbn. case_match; by intros [= <- <-].
  - intros f s w r w'. cbn. repeat case_match; by intros [= <- <-].
  - intros f w r w'. cbn. repeat case_match; by intros [= <- <-].
  - intros p w r w'. cbn. by intros [= <- <-].
Qed.

#[export] Instance sim_regular_fs : RegularFs sim.
Proof.
  split.
  - intros p w r w'. cbn. case_match; by intros [= <- <-].
  - intros f s w r w' p b Hw. cbn in Hw |- *. rewrite Hw. intros [= <- <-]. split; [done|].
    cbn. eexists. split; [apply lookup_insert_eq|done].
  - intros f w r w' p b Hw. cbn in Hw |- *. rewrite Hw. intros [= <- <-]. by eexists.
Qed.

(** A host with nothing running but one foreign process, and the cgroup root
    [/cg]; [boot faults] is that host with faults to come. *)
Definition boot (faults : list Z) : sim :=
  MkSim (MkUsage {[0; 1; 2]} ∅ ∅ ∅) faults (MkFs {["/"; "/cg"]} ∅) ∅ {[7]} ∅ {[7]}
    {["NEXUS_CGROUP_ROOT" := "/cg"]} [].
