(* ===== verification/Process.v ===== *)
(** * Child processes

    [src/container/process.c], the POSIX implementation (the [_WIN32] branch is
    not modelled): stopping, polling, waiting, direct execution, and the gate
    that keeps a child blocked before it executes.  [fuel] bounds the loops that
    repeat an interrupted call; [interrupts w < fuel] is enough for all of them
    (four more for the loop that collects the four bytes of an [errno]). *)

From stdpp Require Import gmap.
From S2P Require Import Prelude Bytes CStr Os Sim.

Open Scope Z_scope.

(** ** Data *)

Record process_exec := MkExec { path : option string; argv : option (list string); cwd : option string }.
Record process_status := MkPStatus { exited : Z; exit_code : Z; term_signal : Z }.
Record process_gate := MkGate {
  g_pid : Z; release_fd : Z; status_fd : Z; g_stack : Z; g_stack_size : Z }.
(** [child_prepare] with its [child_arg]: [0] or an [errno] to report. *)
Record process_gate_config (W : Type) := MkGateConfig {
  clone_flags : Z; child_prepare : option (M W Z) }.
#[global] Arguments MkGateConfig {W}.
#[global] Arguments clone_flags {W}.
#[global] Arguments child_prepare {W}.

Definition gate_idle : process_gate := MkGate (-1) (-1) (-1) 0 0.

Definition NEXUS_GATE_STACK : Z := 256 * 1024.
Definition FD_CLOEXEC : Z := 1.
Definition SIGCHLD : Z := 17.

(** Conversions to [int] ([pid_t] is one) and the bytes of an [int]. *)
Definition to_int (z : Z) : Z := let v := u32 z in if v <? 2 ^ 31 then v else v - 2 ^ 32.
Definition int_bytes (e : Z) : list Z := le_bytes 4 (u32 e).
Definition int_of_bytes (bs : list Z) : Z := to_int (le_val bs).

(** The macros of [<sys/wait.h>]. *)
Definition WTERMSIG (st : Z) : Z := Z.land st 0x7f.
Definition WIFEXITED (st : Z) : bool := WTERMSIG st =? 0.
Definition WEXITSTATUS (st : Z) : Z := Z.shiftr (Z.land st 0xff00) 8.
Definition WIFSIGNALED (st : Z) : bool := (0 <? WTERMSIG st) && (WTERMSIG st <? 0x7f).

Section process.
Context {W : Type} `{Os W}.
Variable fuel : nat.

(** ** Stopping and polling *)

(** The grace period: [true] when the child is reaped or gone. *)
Fixpoint stop_poll (tries : nat) (c : Z) : M W bool :=
  match tries with
  | O => mret false
  | S tries =>
      w ← call (os_waitpid c true);
      let again := (_ ← call (os_nanosleep (100 * 1000 * 1000)); stop_poll tries c) in
      match w with
      | ok_ (q, _) => if q =? c then mret true else again
      | fail_ e => if e =? ECHILD then mret true else again
      end
  end.

Definition process_stop (pid : Z) : M W Z :=
  let c := to_int pid in
  if pid <=? 0 then mret (-1)
  else
    k ← call (os_kill c SIGTERM);
    if match k with fail_ e => negb (e =? ESRCH) | ok_ _ => false end then mret (-1)
    else
      gone ← stop_poll 20 c;
      if gone : bool then mret 0
      else
        _ ← call (os_kill c SIGKILL);
        w ← call (os_waitpid c false);
        match w with
        | ok_ (q, _) => mret (if q =? c then 0 else -1)
        | fail_ e => mret (if e =? ECHILD then 0 else -1)
        end.

Definition process_is_alive (pid : Z) : M W bool :=
  if pid <=? 0 then mret false
  else
    k ← call (os_kill (to_int pid) 0);
    match k with
    | ok_ _ => mret true
    | fail_ e => mret (negb (e =? ESRCH))
    end.

(** ** The placeholder workload *)

Definition process_spawn_placeholder : M W Z :=
  r ← call (os_fork (
    x ← call (os_execvp "sleep" ["sleep"; "3600"]);
    match x with
    | ok_ _ => mret (Execed "sleep" ["sleep"; "3600"])
    | fail_ _ => diverge (* for (;;) pause(); *)
    end));
  mret (match r with ok_ pid => pid | fail_ _ => -1 end).

(** ** Collecting the status of an [exec]

    The loop of [process_spawn_exec] and of [process_gate_release]: the bytes
    read so far of the child's [errno], or the error of [read]. *)
Fixpoint read_status (n : nat) (fd : Z) (got : list Z) : M W (result (list Z)) :=
  match n with
  | O => diverge
  | S n =>
      r ← call (os_read fd (4 - zlen got));
      match r with
      | fail_ e => if e =? EINTR then read_status n fd got else mret (fail_ e)
      | ok_ [] => mret (ok_ got)
      | ok_ (b :: bs) =>
          let got := got ++ b :: bs in
          if zlen got =? 4 then mret (ok_ got) else read_status n fd got
      end
  end.

(** [path == NULL || path[0] == '\0'] *)
Definition no_path (spec : option process_exec) : option (string * process_exec) :=
  match spec with
  | Some sp => match path sp with Some "" => None | Some p => Some (p, sp) | None => None end
  | None => None
  end.

Definition argv_or_path (p : string) (sp : process_exec) : list string :=
  match argv sp with Some a => a | None => [p] end.

(** Report [e] to the parent and exit. *)
Definition child_fail (fd e : Z) : M W child_end :=
  _ ← call (os_write fd (int_bytes e)); mret (Exited 127).

Definition child_chdir (sp : process_exec) : M W (result unit) :=
  match cwd sp with Some d => call (os_chdir d) | None => mret (ok_ tt) end.

(** The child of [process_spawn_exec]. *)
Definition exec_child (p : string) (sp : process_exec) (rd wr : Z) : M W child_end :=
  _ ← call (os_close rd);
  cd ← child_chdir sp;
  match cd with
  | fail_ e => child_fail wr e
  | ok_ _ =>
      x ← call (os_execv p (argv_or_path p sp));
      match x with
      | ok_ _ => mret (Execed p (argv_or_path p sp))
      | fail_ e => child_fail wr e
      end
  end.

Definition close2 (a b : Z) : M W unit :=
  _ ← call (os_close a); _ ← call (os_close b); mret tt.

(** [flags = fcntl(fd, F_GETFD); fcntl(fd, F_SETFD, flags | FD_CLOEXEC)] *)
Definition set_cloexec (fd : Z) : M W (result unit) :=
  g ← call (os_getfd fd);
  match g with
  | fail_ e => mret (fail_ e)
  | ok_ flags => call (os_setfd fd (Z.lor flags FD_CLOEXEC))
  end.

(** [ok_ pid], or [fail_ errno] for [-1]. *)
Definition process_spawn_exec (spec : option process_exec) : M W (result Z) :=
  match no_path spec with
  | None => mret (fail_ EINVAL)
  | Some (p, sp) =>
      pp ← call os_pipe;
      match pp with
      | fail_ e => mret (fail_ e)
      | ok_ (rd, wr) =>
          c ← set_cloexec wr;
          match c with
          | fail_ e => _ ← close2 rd wr; mret (fail_ e)
          | ok_ _ =>
              f ← call (os_fork (exec_child p sp rd wr));
              match f with
              | fail_ e => _ ← close2 rd wr; mret (fail_ e)
              | ok_ pid =>
                  _ ← call (os_close wr);
                  got ← read_status (fuel + 4) rd [];
                  _ ← call (os_close rd);
                  match got with
                  | ok_ [] => mret (ok_ pid)
                  | ok_ bs => _ ← reap fuel pid; mret (fail_ (int_of_bytes bs))
                  | fail_ e => _ ← reap fuel pid; mret (fail_ e)
                  end
              end
          end
      end
  end.

Definition decode_status (st : Z) : process_status :=
  if WIFEXITED st then MkPStatus 1 (WEXITSTATUS st) 0
  else if WIFSIGNALED st then MkPStatus 0 0 (WTERMSIG st)
  else MkPStatus 0 0 0.

(** The loop of [process_wait]: the status, or the error. *)
Fixpoint wait_loop (n : nat) (c : Z) : M W (result Z) :=
  match n with
  | O => diverge
  | S n =>
      w ← call (os_waitpid c false);
      match w with
      | fail_ e => if e =? EINTR then wait_loop n c else mret (fail_ e)
      | ok_ (q, st) => if q =? c then mret (ok_ st) else wait_loop n c
      end
  end.

(** The value returned and what [*out] becomes. *)
Definition process_wait (pid : Z) : M W (Z * option process_status) :=
  if pid <=? 0 then mret (-1, None)
  else
    r ← wait_loop fuel (to_int pid);
    mret (match r with ok_ st => (0, Some (decode_status st)) | fail_ _ => (-1, None) end).

(** ** The gate *)

Record gated_child_ctx := MkCtx {
  c_path : string; c_spec : process_exec; c_cfg : option (process_gate_config W);
  rel0 : Z; rel1 : Z; status0 : Z; status1 : Z }.

Definition gated_child_run (c : gated_child_ctx) : M W child_end :=
  _ ← call (os_close (rel1 c));
  _ ← call (os_close (status0 c));
  n ← retry fuel (os_read (rel0 c) 1);
  _ ← call (os_close (rel0 c));
  match n with
  | fail_ _ | ok_ [] => mret (Exited 127)
  | ok_ _ =>
      e ← match c_cfg c with
          | Some cfg => match child_prepare cfg with Some prepare => prepare | None => mret 0 end
          | None => mret 0
          end;
      if negb (e =? 0) then child_fail (status1 c) e
      else
        cd ← child_chdir (c_spec c);
        match cd with
        | fail_ e => child_fail (status1 c) e
        | ok_ _ =>
            x ← call (os_execvp (c_path c) (argv_or_path (c_path c) (c_spec c)));
            match x with
            | ok_ _ => mret (Execed (c_path c) (argv_or_path (c_path c) (c_spec c)))
            | fail_ e => child_fail (status1 c) e
            end
        end
  end.

Definition gate_free_stack (gate : process_gate) : M W process_gate :=
  _ ← (if negb (g_stack gate =? 0) && negb (g_stack_size gate =? 0)
       then call (os_munmap (g_stack gate) (g_stack_size gate)) else mret true);
  mret (MkGate (g_pid gate) (release_fd gate) (status_fd gate) 0 0).

(** [gate] is never NULL in the runtime; the result is the value returned and
    the gate. *)
Definition process_spawn_gated (spec : option process_exec) (cfg : option (process_gate_config W))
    : M W (result Z * process_gate) :=
  match no_path spec with
  | None => mret (fail_ EINVAL, gate_idle)
  | Some (p, sp) =>
      let nflags := match cfg with Some cfg => clone_flags cfg | None => 0 end in
      rel ← call os_socketpair;
      match rel with
      | fail_ e => mret (fail_ e, gate_idle)
      | ok_ (r0, r1) =>
          sp_ ← call os_pipe;
          match sp_ with
          | fail_ e => _ ← close2 r0 r1; mret (fail_ e, gate_idle)
          | ok_ (s0, s1) =>
              c ← set_cloexec s1;
              match c with
              | fail_ e => _ ← close2 r0 r1; _ ← close2 s0 s1; mret (fail_ e, gate_idle)
              | ok_ _ =>
                  let stack_size := if nflags =? 0 then 0 else NEXUS_GATE_STACK in
                  st ← (if nflags =? 0 then mret (ok_ 0) else call (os_mmap stack_size));
                  match st with
                  | fail_ e => _ ← close2 r0 r1; _ ← close2 s0 s1; mret (fail_ e, gate_idle)
                  | ok_ stack =>
                      let ctx := MkCtx p sp cfg r0 r1 s0 s1 in
                      f ← (if nflags =? 0 then call (os_fork (gated_child_run ctx))
                           else call (os_clone (Z.lor nflags SIGCHLD) (stack + stack_size)
                                        (gated_child_run ctx)));
                      match f with
                      | fail_ e =>
                          _ ← (if negb (stack =? 0) then call (os_munmap stack stack_size) else mret true);
                          _ ← close2 r0 r1; _ ← close2 s0 s1; mret (fail_ e, gate_idle)
                      | ok_ pid =>
                          _ ← call (os_close r0);
                          _ ← call (os_close s1);
                          mret (ok_ pid, MkGate pid r1 s0 stack stack_size)
                      end
                  end
              end
          end
      end
  end.

Definition process_gate_release (gate : process_gate) : M W (result Z * process_gate) :=
  if (g_pid gate <=? 0) || (release_fd gate <? 0) || (status_fd gate <? 0)
  then mret (fail_ EINVAL, gate)
  else
    let pid := g_pid gate in
    s ← retry fuel (os_send (release_fd gate) [1]);
    match s with
    | fail_ e =>
        _ ← close2 (release_fd gate) (status_fd gate);
        _ ← reap fuel pid;
        gate ← gate_free_stack (MkGate (-1) (-1) (-1) (g_stack gate) (g_stack_size gate));
        mret (fail_ e, gate)
    | ok_ _ =>
        _ ← call (os_close (release_fd gate));
        got ← read_status (fuel + 4) (status_fd gate) [];
        _ ← call (os_close (status_fd gate));
        let gate := MkGate (-1) (-1) (-1) (g_stack gate) (g_stack_size gate) in
        match got with
        | ok_ [] => gate ← gate_free_stack gate; mret (ok_ pid, gate)
        | ok_ bs =>
            _ ← reap fuel pid; gate ← gate_free_stack gate; mret (fail_ (int_of_bytes bs), gate)
        | fail_ e => _ ← reap fuel pid; gate ← gate_free_stack gate; mret (fail_ e, gate)
        end
    end.

Definition process_gate_abort (gate : process_gate) : M W process_gate :=
  pid ← (if 0 <? g_pid gate
         then (_ ← call (os_kill (g_pid gate) SIGKILL); _ ← reap fuel (g_pid gate); mret (-1))
         else mret (g_pid gate));
  rfd ← (if 0 <=? release_fd gate then (_ ← call (os_close (release_fd gate)); mret (-1))
         else mret (release_fd gate));
  sfd ← (if 0 <=? status_fd gate then (_ ← call (os_close (status_fd gate)); mret (-1))
         else mret (status_fd gate));
  gate_free_stack (MkGate pid rfd sfd (g_stack gate) (g_stack_size gate)).
End process.

(** ** What the operations hold *)

Section holding.
Context {W : Type} `{OsLaws W}.
Variable fuel : nat.
Implicit Types (w : W) (u : usage).

Lemma wp_close2 a b w0 w u (Q : unit -> W -> Prop) :
  becomes w0 w u -> (forall w', becomes w0 w' (close_fd b (close_fd a u)) -> Q tt w') ->
  wp (close2 a b) Q w.
Proof.
  intros Hb HQ. unfold close2.
  apply wp_bind. eapply wp_close; [done|]. intros _ w1 Hb1.
  apply wp_bind. eapply wp_close; [done|]. intros _ w2 Hb2. by apply wp_ret, HQ.
Qed.

Lemma wp_set_cloexec a w0 w u (Q : result unit -> W -> Prop) :
  becomes w0 w u -> (forall r w', becomes w0 w' u -> Q r w') -> wp (set_cloexec a) Q w.
Proof.
  intros Hb HQ. unfold set_cloexec. apply wp_bind, wp_call. intros r w1 E.
  apply law_getfd in E as [Hs _]. pose proof (becomes_steady _ _ _ _ Hb Hs) as Hb1.
  destruct r as [v|e]; [|by apply wp_ret, HQ].
  eapply wp_steady; [exact Hb1|intros ???; apply law_setfd|]. intros. by apply HQ.
Qed.

(** The loop that collects an [errno] returns after at most four bytes. *)
Lemma wp_read_status n fd got w0 w u (Q : result (list Z) -> W -> Prop) :
  becomes w0 w u -> zlen got < 4 -> (interrupts w + Z.to_nat (4 - zlen got) <= n)%nat ->
  (forall r w', becomes w0 w' u ->
     match r with ok_ bs => zlen bs <= 4 | fail_ e => e <> EINTR end -> Q r w') ->
  wp (read_status n fd got) Q w.
Proof.
  revert got w. induction n as [|n IH]; intros got w Hb Hg Hn HQ; [lia|]. cbn [read_status].
  apply wp_bind, wp_call. intros r w1 E. apply law_read in E as [Hw Hl]; [|lia].
  destruct r as [[|b bs]|e]; cbn [waits] in Hw.
  - apply wp_ret, HQ; [by eapply becomes_steady|lia].
  - destruct (Hl _ eq_refl) as [Hlen _]. pose proof (becomes_steady _ _ _ _ Hb Hw) as Hb1.
    assert (zlen (got ++ b :: bs) = zlen got + (1 + zlen bs)) as Hz by (by rewrite zlen_app, zlen_cons).
    rewrite zlen_cons in Hlen. pose proof (zlen_nonneg bs). cbv zeta. rewrite Hz.
    destruct (_ =? 4) eqn:E4; zb; [apply wp_ret, HQ; [done|lia]|].
    apply IH; [done|lia|destruct Hw; lia|done].
  - destruct Hw as (Hu & Hi & Hint). destruct (e =? EINTR) eqn:Ee; zb.
    + pose proof (Hint Ee). apply IH; [|done|lia|done].
      eapply becomes_steady; [done|]. by split.
    + apply wp_ret, HQ; [|done]. eapply becomes_steady; [done|]. by split.
Qed.

Lemma wp_read_errno fd w0 w u (Q : result (list Z) -> W -> Prop) :
  becomes w0 w u -> (interrupts w0 < fuel)%nat ->
  (forall r w', becomes w0 w' u ->
     match r with ok_ bs => zlen bs <= 4 | fail_ e => e <> EINTR end -> Q r w') ->
  wp (read_status (fuel + 4) fd []) Q w.
Proof.
  intros Hb Hf HQ. apply wp_read_status with w0 u; [done|done| |done].
  destruct Hb as [_ Hi]. change (Z.to_nat (4 - zlen [])) with 4%nat. lia.
Qed.

(** Direct execution: success leaves one more child, failure nothing. *)
Lemma spawn_exec_spec spec w :
  (interrupts w < fuel)%nat ->
  wp (process_spawn_exec fuel spec) (fun r w' =>
    match r with
    | ok_ pid => pid_ok pid /\ pid ∉ kids (use w) /\ becomes w w' (add_kid pid (use w))
    | fail_ _ => steady w w' end) w.
Proof.
  intros Hf. unfold process_spawn_exec. destruct (no_path spec) as [[p sp]|]; [|by apply wp_ret].
  apply wp_bind. eapply wp_pipe; [apply steady_refl| |]; [|intros; by apply wp_ret].
  intros rd wr w1 (Hrd & Hwr & Hne & Hrdf & Hwrf) Hb1.
  apply wp_bind. eapply wp_set_cloexec; [done|]. intros [[]|e] w2 Hb2.
  2:{ apply wp_bind. eapply wp_close2; [done|]. intros w3 Hb3. apply wp_ret.
      destruct Hb3 as [Hb3 ?]. split; [|done]. rewrite Hb3. same_usage. }
  apply wp_bind. eapply wp_fork; [done| |].
  2:{ intros e w3 Hb3. apply wp_bind. eapply wp_close2; [done|]. intros w4 Hb4. apply wp_ret.
      destruct Hb4 as [Hb4 ?]. split; [|done]. rewrite Hb4. same_usage. }
  intros pid w3 Hpid Hk Hb3.
  apply wp_bind. eapply wp_close; [done|]. intros _ w4 Hb4.
  apply wp_bind. eapply wp_read_errno; [done|done|]. intros got w5 Hb5 _.
  apply wp_bind. eapply wp_close; [done|]. intros _ w6 Hb6.
  assert (forall (e : Z) w7, becomes w w7 (close_fd rd (close_fd wr (add_kid pid (open_fds rd wr (use w))))) ->
    wp (_ ← reap fuel pid; mret (fail_ e)) (fun r w' => match r with
    | ok_ pid => pid_ok pid /\ pid ∉ kids (use w) /\ becomes w w' (add_kid pid (use w))
    | fail_ _ => steady w w' end) w7) as Hfail.
  { intros e w7 Hb7. apply wp_bind. eapply wp_reaped; [done|by destruct Hpid|done|]. intros r w8 [Hb8 ?].
    apply wp_ret. split; [|done]. rewrite Hb8. clear - Hrdf Hwrf Hk Hne. cbn in Hk. same_usage. }
  destruct got as [[|b bs]|e]; [|by apply Hfail..].
  apply wp_ret. split_and!; [done|done|]. destruct Hb6 as [Hb6 ?]. split; [|done].
  rewrite Hb6. clear - Hrdf Hwrf Hk Hne. cbn in Hk. same_usage.
Qed.

Lemma to_int_small z : 0 <= z < 2 ^ 31 -> to_int z = z.
Proof. intros Hz. unfold to_int. rewrite wrap_small by lia. cbv zeta. by replace (z <? 2 ^ 31) with true by lia. Qed.

Lemma reap_absent p u : p ∉ kids u -> reap_kid p u = u.
Proof. intros Hp. same_usage. Qed.

(** Polling ends within its twenty tries, whatever the child does. *)
Lemma wp_stop_poll tries c w0 w u (Q : bool -> W -> Prop) :
  0 < c -> becomes w0 w u ->
  (forall w', becomes w0 w' (reap_kid c u) -> Q true w') ->
  (forall w', becomes w0 w' u -> Q false w') ->
  wp (stop_poll tries c) Q w.
Proof.
  intros Hc Hb HT HF. revert w Hb. induction tries as [|tries IH]; intros w Hb; [by apply wp_ret, HF|].
  cbn [stop_poll]. apply wp_bind, wp_call. intros r w1 E.
  pose proof (law_waitpid c true w r w1 Hc E) as Hl.
  assert (forall w2, becomes w0 w2 u ->
    wp (_ ← call (os_nanosleep (100 * 1000 * 1000)); stop_poll tries c) Q w2) as Hagain.
  { intros w2 Hb2. apply wp_bind. eapply wp_steady; [done|intros ???; apply law_nanosleep|].
    intros _ w3 Hb3. by apply IH. }
  cbv zeta. destruct r as [[q st]|e].
  - destruct Hl as [[-> Hbr]|(_ & -> & Hs)].
    + rewrite Z.eqb_refl. apply wp_ret, HT. rewrite (proj1 Hb) in Hbr. by eapply becomes_step.
    + replace (0 =? c) with false by lia. apply Hagain. by eapply becomes_steady.
  - destruct Hl as [(Hu & Hi & _) Hcase].
    assert (becomes w0 w1 u) as Hb1 by (eapply becomes_steady; [done|by split]).
    destruct (e =? ECHILD) eqn:Ee; zb; [|by apply Hagain].
    apply wp_ret, HT. destruct Hcase as [->|[_ Hk]]; [done|].
    rewrite (proj1 Hb) in Hk. by rewrite reap_absent.
Qed.

(** Stopping returns; it reports success only for a child that is reaped, or
    that was not there to reap. *)
Lemma process_stop_spec pid w :
  pid_ok pid ->
  wp (process_stop pid) (fun rc w' =>
    (rc = 0 /\ becomes w w' (reap_kid pid (use w))) \/
    (rc = -1 /\ steady w w' /\
     ((exists e w1, os_kill pid SIGTERM w = (fail_ e, w1) /\ e <> ESRCH) \/
      (interrupts w' < interrupts w)%nat))) w.
Proof.
  intros Hp. unfold pid_ok in Hp. unfold process_stop. rewrite to_int_small by lia. cbv zeta.
  replace (pid <=? 0) with false by lia. apply wp_bind, wp_call. intros k w1 Ek.
  pose proof (law_kill _ _ _ _ _ Ek) as Hs. destruct (match k with ok_ _ => false | fail_ e => _ end) eqn:Er.
  { destruct k as [|e]; [done|]. zb. apply wp_ret. right. split_and!; [done|done|]. left. eauto. }
  clear Er. apply wp_bind. eapply (wp_stop_poll _ _ w); [lia|exact Hs| |].
  { intros w2 Hb2. apply wp_ret. by left. }
  intros w2 Hb2. apply wp_bind. eapply wp_steady; [done|intros ???; apply law_kill|].
  intros _ w3 Hb3. apply wp_bind, wp_call. intros r w4 E.
  pose proof (law_waitpid pid false w3 r w4 ltac:(lia) E) as Hl. destruct r as [[q st]|e].
  - destruct Hl as [[-> Hbr]|(? & _)]; [|done]. rewrite Z.eqb_refl. apply wp_ret. left. split; [done|].
    rewrite (proj1 Hb3) in Hbr. by eapply becomes_step.
  - destruct Hl as [(Hu & Hi & Hint) Hcase].
    assert (becomes w w4 (use w)) as Hb4 by (eapply becomes_steady; [exact Hb3|by split]).
    destruct Hcase as [->|[-> Hk]]; apply wp_ret.
    + right. split_and!; [done|done|]. right. pose proof (Hint eq_refl). destruct Hb3 as [_ ?]. lia.
    + left. split; [done|]. rewrite (proj1 Hb3) in Hk. by rewrite reap_absent.
Qed.

Lemma wp_wait_loop n c w0 w u (Q : result Z -> W -> Prop) :
  0 < c -> becomes w0 w u -> (interrupts w < n)%nat ->
  (forall st w', becomes w0 w' (reap_kid c u) -> Q (ok_ st) w') ->
  (forall w', becomes w0 w' u -> c ∉ kids u -> Q (fail_ ECHILD) w') ->
  wp (wait_loop n c) Q w.
Proof.
  intros Hc Hb Hn HT HF. revert w Hb Hn. induction n as [|n IH]; intros w Hb Hn; [lia|].
  cbn [wait_loop]. apply wp_bind, wp_call. intros r w1 E.
  pose proof (law_waitpid c false w r w1 Hc E) as Hl. destruct r as [[q st]|e].
  - destruct Hl as [[-> Hbr]|(? & _)]; [|done]. rewrite Z.eqb_refl. apply wp_ret, HT.
    rewrite (proj1 Hb) in Hbr. by eapply becomes_step.
  - destruct Hl as [(Hu & Hi & Hint) Hcase].
    assert (becomes w0 w1 u) as Hb1 by (eapply becomes_steady; [done|by split]).
    destruct Hcase as [->|[-> Hk]].
    + cbn [Z.eqb]. change (EINTR =? EINTR) with true. cbn match.
      pose proof (Hint eq_refl). apply IH; [done|lia].
    + change (ECHILD =? EINTR) with false. cbn match. apply wp_ret, HF; [done|].
      by rewrite (proj1 Hb) in Hk.
Qed.

Lemma process_wait_spec pid w :
  pid_ok pid -> (interrupts w < fuel)%nat ->
  wp (process_wait fuel pid) (fun ro w' =>
    (exists st, ro = (0, Some (decode_status st)) /\ becomes w w' (reap_kid pid (use w))) \/
    (ro = (-1, None) /\ pid ∉ kids (use w) /\ steady w w')) w.
Proof.
  intros Hp Hf. unfold pid_ok in Hp. unfold process_wait. rewrite to_int_small by lia. replace (pid <=? 0) with false by lia.
  apply wp_bind. eapply (wp_wait_loop _ _ w); [lia|apply steady_refl|done| |].
  - intros st w' Hb. apply wp_ret. left. eauto.
  - intros w' Hb Hk. apply wp_ret. by right.
Qed.

(** ** The gate

    What an armed gate holds besides [u]: its two descriptors, the blocked child
    and, for a namespace child, its stack. *)
Definition gate_usage (g : process_gate) (u : usage) : usage :=
  MkUsage ({[release_fd g; status_fd g]} ∪ fds u)
    (if g_stack_size g =? 0 then maps u else {[(g_stack g, g_stack_size g)]} ∪ maps u)
    ({[g_pid g]} ∪ kids u) (streams u).

Definition gate_ok (g : process_gate) (u : usage) : Prop :=
  pid_ok (g_pid g) /\ fresh_pair (release_fd g) (status_fd g) u /\ g_pid g ∉ kids u /\
  ((g_stack g = 0 /\ g_stack_size g = 0) \/
   (0 < g_stack g /\ 0 < g_stack_size g /\ (g_stack g, g_stack_size g) ∉ maps u)).

Lemma wp_gate_free_stack g p r s w0 w u v (Q : process_gate -> W -> Prop) :
  becomes w0 w v -> gate_ok g u ->
  maps v = maps (gate_usage g u) ->
  (forall w', becomes w0 w' (MkUsage (fds v) (maps u) (kids v) (streams v)) ->
     Q (MkGate p r s 0 0) w') ->
  wp (gate_free_stack (MkGate p r s (g_stack g) (g_stack_size g))) Q w.
Proof.
  intros Hb (_ & _ & _ & Hst) Hm HQ. unfold gate_free_stack. cbn [g_pid release_fd status_fd g_stack g_stack_size].
  unfold gate_usage in Hm. cbn [maps] in Hm. destruct Hst as [[Hs0 Hz0]|(Hs & Hz & Hfr)].
  - rewrite Hs0. cbn [negb andb Z.eqb]. apply wp_bind, wp_ret, wp_ret, HQ.
    rewrite Hz0 in Hm. cbn in Hm. rewrite <- Hm. by destruct v.
  - replace (g_stack g =? 0) with false by lia. replace (g_stack_size g =? 0) with false in * by lia.
    cbn [negb andb]. apply wp_bind. eapply wp_munmap; [done|]. intros _ w1 Hb1. apply wp_ret, HQ.
    replace (MkUsage (fds v) (maps u) (kids v) (streams v)) with (drop_map (g_stack g) (g_stack_size g) v);
      [done|]. unfold drop_map. rewrite Hm. f_equal. set_solver.
Qed.

(** Spawning arms the gate, or leaves no trace. *)
Lemma spawn_gated_spec spec cfg w :
  wp (process_spawn_gated fuel spec cfg) (fun rg w' =>
    match rg with
    | (ok_ pid, g) => g_pid g = pid /\ gate_ok g (use w) /\ becomes w w' (gate_usage g (use w))
    | (fail_ _, g) => g = gate_idle /\ steady w w' end) w.
Proof.
  unfold process_spawn_gated. destruct (no_path spec) as [[p sp]|]; [|by apply wp_ret].
  set (nflags := match cfg with Some _ => _ | None => _ end).
  apply wp_bind. eapply wp_socketpair; [apply steady_refl| |]; [|intros; by apply wp_ret].
  intros r0 r1 w1 (Hr0 & Hr1 & Hr & Hr0f & Hr1f) Hb1.
  apply wp_bind. eapply wp_pipe; [done| |].
  2:{ intros e w2 Hb2. apply wp_bind. eapply wp_close2; [done|]. intros w3 [Hb3 ?]. apply wp_ret.
      split; [done|]. split; [|done]. rewrite Hb3. same_usage. }
  intros s0 s1 w2 (Hs0 & Hs1 & Hs & Hs0f & Hs1f) Hb2. unfold open_fds in Hs0f, Hs1f. cbn [fds] in Hs0f, Hs1f.
  set (Q := fun (rg : result Z * process_gate) (w' : W) => _).
  assert (forall (e : Z) w3, becomes w w3 (open_fds s0 s1 (open_fds r0 r1 (use w))) ->
    wp (_ ← close2 r0 r1; _ ← close2 s0 s1; mret (fail_ e, gate_idle)) Q w3) as Hfail.
  { intros e w3 Hb3. apply wp_bind. eapply wp_close2; [done|]. intros w4 Hb4.
    apply wp_bind. eapply wp_close2; [done|]. intros w5 [Hb5 ?]. apply wp_ret. unfold Q.
    split; [done|]. split; [|done]. rewrite Hb5. clear - Hr0f Hr1f Hs0f Hs1f. same_usage. }
  apply wp_bind. eapply wp_set_cloexec; [done|]. intros [[]|e] w3 Hb3; [|by apply Hfail].
  cbv zeta. destruct (nflags =? 0) eqn:Ef.
  - apply wp_bind, wp_ret, wp_bind. eapply wp_fork; [done| |].
    2:{ intros e w4 Hb4. apply wp_bind. cbn [negb Z.eqb]. apply wp_ret. by apply Hfail. }
    intros pid w4 Hp Hk Hb4. cbn in Hk.
    apply wp_bind. eapply wp_close; [done|]. intros _ w5 Hb5.
    apply wp_bind. eapply wp_close; [done|]. intros _ w6 [Hb6 ?]. apply wp_ret. unfold Q.
    split; [done|]. split.
    + unfold gate_ok, fresh_pair. cbn [g_pid release_fd status_fd g_stack g_stack_size].
      split_and!; [done|done|done|set_solver|done|set_solver|done|by left].
    + split; [|done]. rewrite Hb6. unfold gate_usage. cbn [g_pid release_fd status_fd g_stack g_stack_size].
      change (0 =? 0) with true. cbn match. clear - Hr0f Hr1f Hs0f Hs1f Hr Hs. same_usage.
  - apply wp_bind. eapply wp_mmap; [done| |]; [|by apply Hfail].
    intros stack w4 Hst Hstf Hb4. cbn in Hstf.
    apply wp_bind. eapply wp_clone; [done| |].
    2:{ intros e w5 Hb5. apply wp_bind. replace (stack =? 0) with false by lia. cbn [negb].
        eapply wp_munmap; [done|]. intros _ w6 [Hb6 ?]. apply Hfail. split; [|done]. rewrite Hb6.
        clear - Hstf. same_usage. }
    intros pid w5 Hp Hk Hb5. cbn in Hk.
    apply wp_bind. eapply wp_close; [done|]. intros _ w6 Hb6.
    apply wp_bind. eapply wp_close; [done|]. intros _ w7 [Hb7 ?]. apply wp_ret. unfold Q.
    split; [done|]. split.
    + unfold gate_ok, fresh_pair. cbn [g_pid release_fd status_fd g_stack g_stack_size].
      split_and!; [done|done|done|set_solver|done|set_solver|done|by right].
    + split; [|done]. rewrite Hb7. unfold gate_usage. cbn [g_pid release_fd status_fd g_stack g_stack_size].
      change (NEXUS_GATE_STACK =? 0) with false. cbn match. clear - Hr0f Hr1f Hs0f Hs1f Hr Hs. same_usage.
Qed.

(** Releasing or aborting empties the gate: only a started child is kept. *)
Lemma gate_release_spec g u w :
  gate_ok g u -> use w = gate_usage g u -> (interrupts w < fuel)%nat ->
  wp (process_gate_release fuel g) (fun rg w' =>
    snd rg = gate_idle /\
    match fst rg with
    | ok_ pid => pid = g_pid g /\ becomes w w' (add_kid pid u)
    | fail_ _ => becomes w w' u end) w.
Proof.
  intros Hg Hu Hf. pose proof Hg as (Hpid & (Hr & Hs & Hrs & Hrf & Hsf) & Hk & _).
  pose proof (proj1 Hpid) as Hp.
  unfold process_gate_release.
  replace (g_pid g <=? 0) with false by lia. replace (release_fd g <? 0) with false by lia.
  replace (status_fd g <? 0) with false by lia. cbn [orb]. cbv zeta.
  assert (becomes w w (gate_usage g u)) as Hb by done.
  set (Q := fun (rg : result Z * process_gate) (w' : W) => _).
  assert (forall (e : Z) w1, becomes w w1 (close_fd (status_fd g) (close_fd (release_fd g) (gate_usage g u))) ->
    wp (_ ← reap fuel (g_pid g);
        gate ← gate_free_stack (MkGate (-1) (-1) (-1) (g_stack g) (g_stack_size g));
        mret (fail_ e, gate)) Q w1) as Hfail.
  { intros e w1 Hb1. apply wp_bind. eapply wp_reaped; [done|by destruct Hpid|done|]. intros _ w2 Hb2.
    apply wp_bind. eapply wp_gate_free_stack; [done|done|done|]. intros w3 [Hb3 ?]. apply wp_ret.
    unfold Q. split; [done|]. split; [|done]. rewrite Hb3. unfold gate_usage.
    clear - Hrf Hsf Hk. same_usage. }
  apply wp_bind. eapply (wp_retry_waits _ (fun _ => True)); [done|done| |].
  { intros w1 r w2 E. split; [|done]. by eapply law_send. }
  intros [n|e] w1 Hb1 _ _.
  2:{ apply wp_bind. eapply wp_close2; [done|]. intros w2 Hb2. by apply Hfail. }
  apply wp_bind. eapply wp_close; [done|]. intros _ w2 Hb2.
  apply wp_bind. eapply wp_read_errno; [done|done|]. intros got w3 Hb3 _.
  apply wp_bind. eapply wp_close; [done|]. intros _ w4 Hb4.
  destruct got as [[|b bs]|e]; [|by apply Hfail..].
  apply wp_bind. eapply wp_gate_free_stack; [done|done|done|]. intros w5 [Hb5 ?]. apply wp_ret.
  unfold Q. split; [done|]. split; [done|]. split; [|done]. rewrite Hb5. unfold gate_usage.
  clear - Hrf Hsf Hk. same_usage.
Qed.

Lemma gate_abort_spec g u w :
  gate_ok g u -> use w = gate_usage g u -> (interrupts w < fuel)%nat ->
  wp (process_gate_abort fuel g) (fun g' w' => g' = gate_idle /\ becomes w w' u) w.
Proof.
  intros Hg Hu Hf. pose proof Hg as (Hpid & (Hr & Hs & Hrs & Hrf & Hsf) & Hk & _).
  pose proof (proj1 Hpid) as Hp.
  assert (becomes w w (gate_usage g u)) as Hb by done.
  unfold process_gate_abort. replace (0 <? g_pid g) with true by lia.
  replace (0 <=? release_fd g) with true by lia. replace (0 <=? status_fd g) with true by lia.
  apply wp_bind, wp_bind. eapply wp_steady; [done|intros ???; apply law_kill|]. intros _ w1 Hb1.
  apply wp_bind. eapply wp_reaped; [done|by destruct Hpid|done|]. intros _ w2 Hb2. apply wp_ret.
  apply wp_bind, wp_bind. eapply wp_close; [done|]. intros _ w3 Hb3. apply wp_ret.
  apply wp_bind, wp_bind. eapply wp_close; [done|]. intros _ w4 Hb4. apply wp_ret.
  eapply wp_gate_free_stack; [done|done|done|]. intros w5 [Hb5 ?]. split; [done|]. split; [|done].
  rewrite Hb5. unfold gate_usage. clear - Hrf Hsf Hk. same_usage.
Qed.
End holding.

(** ** Theorems *)

(** C26: The gate holds what it says.  Spawning a gated child either fails and
    leaves the process with exactly the descriptors, mappings, children and
    streams it had, the gate idle, or arms the gate with two fresh descriptors,
    a fresh child and, for a namespace child, a fresh stack.  An armed gate can
    be released or aborted at any later moment: both return, whatever calls fail
    and however often they are interrupted, both leave the gate idle, and of all
    it held only the child that a successful release started remains. *)
Theorem gate_no_leak {W} `{OsLaws W} fuel spec cfg (w : W) :
  wp (process_spawn_gated fuel spec cfg) (fun rg w1 =>
    match rg with
    | (fail_ _, g) => g = gate_idle /\ use w1 = use w
    | (ok_ pid, g) =>
        pid_ok pid /\ pid ∉ kids (use w) /\ g_pid g = pid /\ use w1 = gate_usage g (use w) /\
        forall w2, use w2 = use w1 -> (interrupts w2 < fuel)%nat ->
          wp (process_gate_release fuel g) (fun rg w3 => snd rg = gate_idle /\
            use w3 = match fst rg with ok_ p => add_kid pid (use w) | fail_ _ => use w end /\
            (forall p, fst rg = ok_ p -> p = pid)) w2 /\
          wp (process_gate_abort fuel g) (fun g' w3 => g' = gate_idle /\ use w3 = use w) w2
    end) w.
Proof.
  eapply wp_mono; [apply spawn_gated_spec|]. intros [[pid|e] g] w1; cbn beta iota.
  2:{ by intros [-> [? _]]. }
  intros (<- & Hg & [Hu _]). pose proof Hg as (Hp & _ & Hk & _). split_and!; [done..|].
  intros w2 Hw2 Hf. rewrite Hu in Hw2. split.
  - eapply wp_mono; [by eapply gate_release_spec|]. intros [[p|e] g'] w3 [Hi Hr]; cbn [fst snd] in *.
    + destruct Hr as [-> [Hr _]]. split_and!; [done|done|]. by intros p [= ->].
    + destruct Hr as [Hr _]. by split_and!.
  - eapply wp_mono; [by eapply gate_abort_spec|]. intros g' w3 [-> [Hr _]]. done.
Qed.

(** A namespace child is spawned and released while the release is interrupted
    twice. *)
Definition demo_spec : option process_exec := Some (MkExec (Some "sleep") (Some ["sleep"; "3600"]) None).
Definition demo_cfg : option (process_gate_config sim) := Some (MkGateConfig 0x20000000 (Some (mret 0))).

Definition gate_faults : sim := boot [0; 0; 0; 0; EINTR; EINTR].
Definition gate_run := process_spawn_gated 3 demo_spec demo_cfg gate_faults.
Definition demo_gate : process_gate := match gate_run with Some (_, g, _) => g | None => gate_idle end.
Definition gate_after : sim := match gate_run with Some (_, w) => w | None => boot [] end.

Lemma gate_run_eq : process_spawn_gated 3 demo_spec demo_cfg gate_faults = Some (ok_ 8, demo_gate, gate_after).
Proof. vm_compute. reflexivity. Qed.

Lemma gate_after_budget : (interrupts gate_after < 3)%nat.
Proof. apply Nat.ltb_lt. vm_compute. reflexivity. Qed.

Lemma gate_no_leak_witness :
  wp (process_gate_release 3 demo_gate) (fun rg w3 => snd rg = gate_idle /\
    use w3 = (match fst rg with ok_ _ => add_kid 8 (use gate_faults) | fail_ _ => use gate_faults end) /\
    (forall p, fst rg = ok_ p -> p = 8)) gate_after.
Proof.
  pose proof (gate_no_leak 3 demo_spec demo_cfg gate_faults) as H.
  unfold wp at 1 in H. rewrite gate_run_eq in H. destruct H as (_ & _ & _ & _ & Hrel).
  apply (Hrel gate_after eq_refl gate_after_budget).
Defined.

(** C27: Direct execution leaves no trace but its child.  [process_spawn_exec]
    returns; when it fails the process holds what it held before (a child whose
    [exec] failed is already reaped), when it succeeds it holds one child more,
    and [process_wait] on that child succeeds, reports its status and leaves
    nothing of it. *)
Theorem spawn_exec_clean {W} `{OsLaws W} fuel spec (w : W) :
  (interrupts w < fuel)%nat ->
  wp (process_spawn_exec fuel spec) (fun r w1 =>
    match r with
    | fail_ _ => use w1 = use w
    | ok_ pid =>
        pid_ok pid /\ pid ∉ kids (use w) /\ use w1 = add_kid pid (use w) /\
        forall w2, use w2 = use w1 -> (interrupts w2 < fuel)%nat ->
          wp (process_wait fuel pid) (fun ro w3 =>
            (exists st, ro = (0, Some (decode_status st))) /\ use w3 = use w) w2
    end) w.
Proof.
  intros Hf. eapply wp_mono; [by apply spawn_exec_spec|]. intros [pid|e] w1; cbn beta iota; [|by intros [? _]].
  intros (Hp & Hk & [Hu _]). split_and!; [done..|]. intros w2 Hw2 Hf2. rewrite Hu in Hw2.
  eapply wp_mono; [by apply process_wait_spec|]. intros ro w3 [(st & -> & [Hb _])|(_ & Hk2 & _)].
  - split; [by eexists|]. rewrite Hb, Hw2. same_usage.
  - destruct Hk2. rewrite Hw2. cbn. set_solver.
Qed.

Definition exec_faults : sim := boot [0; 0; EINTR; 0; EINTR].
Definition exec_after : sim :=
  match process_spawn_exec 4 demo_spec exec_faults with Some (_, w) => w | None => boot [] end.

Lemma exec_run_eq : process_spawn_exec 6 demo_spec exec_faults = Some (ok_ 8, exec_after).
Proof. vm_compute. reflexivity. Qed.

Lemma exec_budgets : (interrupts exec_faults < 6)%nat /\ (interrupts exec_after < 6)%nat.
Proof. split; apply Nat.ltb_lt; vm_compute; reflexivity. Qed.

Lemma spawn_exec_clean_witness :
  wp (process_wait 6 8) (fun ro w3 =>
    (exists st, ro = (0, Some (decode_status st))) /\ use w3 = use exec_faults) exec_after.
Proof.
  pose proof (spawn_exec_clean 6 demo_spec exec_faults (proj1 exec_budgets)) as H.
  unfold wp at 1 in H. rewrite exec_run_eq in H. destruct H as (_ & _ & _ & Hw).
  apply (Hw exec_after eq_refl (proj2 exec_budgets)).
Defined.

(** Stopping is bounded and reaps.  [process_stop] returns without any bound
    on interruptions being assumed; it reports success exactly when the process
    is afterwards not one of its unreaped children, and failure only when the
    signal was refused for another reason than the process being gone, or when
    the last wait was interrupted; nothing else it holds changes. *)
Theorem process_stop_reaps {W} `{OsLaws W} pid (w : W) :
  pid_ok pid ->
  wp (process_stop pid) (fun rc w' =>
    (rc = 0 /\ use w' = reap_kid pid (use w)) \/
    (rc = -1 /\ use w' = use w /\
     ((exists e w1, os_kill pid SIGTERM w = (fail_ e, w1) /\ e <> ESRCH) \/
      (interrupts w' < interrupts w)%nat))) w.
Proof.
  intros Hp. eapply wp_mono; [by apply process_stop_spec|].
  intros rc w' [[? [? _]]|(? & [? _] & ?)]; auto.
Qed.

Definition one_child : sim :=
  match process_spawn_exec 1 demo_spec (boot []) with Some (_, w) => w | None => boot [] end.

Definition stop_after : sim := match process_stop 8 one_child with Some (_, w) => w | None => boot [] end.

Lemma stop_run_eq : process_stop 8 one_child = Some (0, stop_after).
Proof. vm_compute. reflexivity. Qed.

Lemma process_stop_reaps_witness : use stop_after = reap_kid 8 (use one_child).
Proof.
  pose proof (process_stop_reaps 8 one_child ltac:(unfold pid_ok; lia)) as H. unfold wp in H. rewrite stop_run_eq in H.
  destruct H as [[_ Hu]|(? & _)]; [exact Hu|discriminate].
Defined.

(** What [WIFEXITED] and its companions make of the statuses Linux builds. *)
Lemma decode_exit code : 0 <= code < 256 -> decode_status (Z.shiftl code 8) = MkPStatus 1 code 0.
Proof.
  intros Hc. assert (Z.land (Z.shiftl code 8) 127 = 0) as H0.
  { change 127 with (Z.ones 7). rewrite Z.land_ones, Z.shiftl_mul_pow2 by lia.
    change (2 ^ 8) with (2 * 2 ^ 7). rewrite Z.mul_assoc. by apply Z.mod_mul. }
  unfold decode_status, WIFEXITED, WTERMSIG, WEXITSTATUS. change 0x7f with 127. rewrite H0. cbn [Z.eqb].
  f_equal. change 0xff00 with (Z.shiftl 255 8). rewrite <- Z.shiftl_land, Z.shiftr_shiftl_l by lia.
  rewrite Z.sub_diag, Z.shiftl_0_r. change 255 with (Z.ones 8). rewrite Z.land_ones by lia. apply Z.mod_small. lia.
Qed.

(** A process that is not a child is reported stopped after one SIGTERM, although
    it goes on: the container of an earlier process is such a process. *)
Lemma stop_foreign_process_survives :
  exists w', process_stop 7 (boot []) = Some (0, w') /\ proc_exists w' 7 = true.
Proof. exists (match process_stop 7 (boot []) with Some (_, w) => w | None => boot [] end). split; vm_compute; reflexivity. Qed.

(** A forced stop whose final wait is interrupted fails and leaves the killed
    child to be reaped. *)
Definition stubborn_child : sim :=
  MkSim (add_kid 7 (use (boot []))) (replicate 20 0 ++ [EINTR]) (fs (boot [])) ∅ {[7]} ∅ {[7]} ∅ [].

Lemma stop_interrupted_leaves_child :
  exists w', process_stop 7 stubborn_child = Some (-1, w') /\ bool_decide (7 ∈ kids (use w')) = true.
Proof.
  exists (match process_stop 7 stubborn_child with Some (_, w) => w | None => boot [] end).
  split; vm_compute; reflexivity.
Qed.
