(* ===== verification/Cgroup.v ===== *)
(** * Control groups

    [src/container/cgroup.c], the POSIX build: the root directory, the cgroup of
    a container, its limits, its metrics and its removal.  The static variable
    [g_cgroup_root] is the argument and result [g]. *)

From stdpp Require Import gmap.
From S2P Require Import Prelude Bytes CStr Common Double Telemetry Os Sim Process.

Open Scope Z_scope.

Definition NEXUS_NAME_MAX : Z := 64.
Definition NEXUS_ID_MAX : Z := 32.
Definition NEXUS_PATH_MAX : Z := 256.
Definition NEXUS_CGROUP_DEFAULT_ROOT : string := "/sys/fs/cgroup/nexusdb".

Definition newline : string := String (Ascii.ascii_of_nat 10) EmptyString.

Definition join_path (dir file : string) : string := String.append dir (String.append "/" file).

(** [cgroup_name_valid]; a NULL name is [None]. *)
Definition cgroup_name_valid (name : option string) : bool :=
  match name with
  | None => false
  | Some name =>
      let n := strlen name in
      if (n =? 0) || (NEXUS_NAME_MAX <=? n) then false
      else if (name =? ".")%string || (name =? "..")%string then false
      else all_chars (fun ch => negb ((code_of ch =? 47) || (code_of ch =? 92))) name
  end.

(** [char file_path[NEXUS_PATH_MAX + 32]] *)
Definition build_child_path (dir file : string) : string :=
  truncate (NEXUS_PATH_MAX + 32) (join_path dir file).

Section cgroup.
Context {W : Type} `{Os W}.

Definition get_root (g : string) : M W string :=
  match g with
  | EmptyString =>
      env ← call (os_getenv "NEXUS_CGROUP_ROOT");
      mret (match env with
            | Some (String c r) => truncate NEXUS_PATH_MAX (String c r)
            | _ => truncate NEXUS_PATH_MAX NEXUS_CGROUP_DEFAULT_ROOT
            end)
  | String _ _ => mret g
  end.

Definition write_file_str (path value : string) : M W Z :=
  f ← call (os_fopen_w path);
  match f with
  | None => mret (-1)
  | Some f =>
      p ← call (os_fprintf f (String.append value newline));
      if negb (p : bool) then (_ ← call (os_fclose f); mret (-1))
      else
        c ← call (os_fclose f);
        mret (if c : bool then 0 else -1)
  end.

Definition mkdir_usable (path : string) : M W Z :=
  m ← call (os_mkdir path);
  match m with
  | ok_ _ => mret 0
  | fail_ e =>
      d ← (if e =? EEXIST then
             st ← call (os_stat_isdir path);
             mret (match st with ok_ true => true | _ => false end)
           else mret false);
      if d : bool then mret 0
      else
        st ← call (os_stat_isdir path);
        mret (match st with ok_ true => 0 | _ => -1 end)
  end.

Definition cgroup_init (g : string) (root_override : option string) : M W (Z * string) :=
  let set :=
    match root_override with
    | Some (String c r) =>
        if NEXUS_PATH_MAX <=? strlen (String c r) then mret None
        else mret (Some (truncate NEXUS_PATH_MAX (String c r)))
    | _ => g ← get_root g; mret (Some g)
    end in
  s ← set;
  match s with
  | None => mret (NEXUS_ERR_INVALID, g)
  | Some g =>
      u ← mkdir_usable g;
      if negb (u =? 0) then mret (NEXUS_ERR_PROCESS, g)
      else
        let '(sub_path, n) := snprintf (NEXUS_PATH_MAX + 32) (join_path g "cgroup.subtree_control") in
        if (n <? 0) || (NEXUS_PATH_MAX + 32 <=? n) then mret (NEXUS_ERR_INVALID, g)
        else (_ ← write_file_str sub_path "+memory +cpu"; mret (NEXUS_OK, g))
  end.

(** [out_path] is the value the buffer of [out_path_len] bytes ends with, when
    it is written. *)
Definition cgroup_create (g : string) (name : option string) (out_path_len : Z)
    : M W (Z * option string * string) :=
  match name with
  | Some nm =>
      if negb (cgroup_name_valid name) || (out_path_len =? 0) then mret (NEXUS_ERR_INVALID, None, g)
      else
        g ← get_root g;
        u ← mkdir_usable g;
        if negb (u =? 0) then mret (NEXUS_ERR_PROCESS, None, g)
        else
          let '(out_path, n) := snprintf out_path_len (join_path g nm) in
          if (n <? 0) || (out_path_len <=? n) then mret (NEXUS_ERR_INVALID, Some out_path, g)
          else
            u ← mkdir_usable out_path;
            mret ((if negb (u =? 0) then NEXUS_ERR_PROCESS else NEXUS_OK), Some out_path, g)
  | None => mret (NEXUS_ERR_INVALID, None, g)
  end.

(** The texts of [memory.max] and [cpu.max]. *)
Definition memory_text (memory_bytes : Z) : string :=
  truncate 64 (if 0 <? memory_bytes then dec memory_bytes else "max").
Definition cpu_text (cpu_percent : Z) : string :=
  truncate 64
    (if (0 <? cpu_percent) && (cpu_percent <=? 100) then
       let period := 100000 in
       let quota := u64 (period * cpu_percent) / 100 in
       String.append (dec quota) (String.append " " (dec period))
     else "max 100000").

Definition cgroup_set_limits (cgroup_path : string) (memory_bytes cpu_percent : Z) : M W Z :=
  if (cgroup_path =? "")%string then mret NEXUS_ERR_INVALID
  else if 100 <? cpu_percent then mret NEXUS_ERR_INVALID
  else
    m ← write_file_str (build_child_path cgroup_path "memory.max") (memory_text memory_bytes);
    if negb (m =? 0) then mret NEXUS_ERR_PROCESS
    else
      c ← write_file_str (build_child_path cgroup_path "cpu.max") (cpu_text cpu_percent);
      if negb (c =? 0) then mret NEXUS_ERR_PROCESS else mret NEXUS_OK.

Definition cgroup_attach (cgroup_path : string) (pid : Z) : M W Z :=
  if (cgroup_path =? "")%string || (pid <=? 0) then mret NEXUS_ERR_INVALID
  else
    r ← write_file_str (build_child_path cgroup_path "cgroup.procs") (truncate 32 (dec_signed pid));
    if negb (r =? 0) then mret NEXUS_ERR_PROCESS else mret NEXUS_OK.

(** ** Metrics *)

(** [fopen], one conversion, [fclose]: [None] when the file cannot be opened. *)
Definition scan_file {A} (path : string) (scan : string -> A) : M W (option A) :=
  f ← call (os_fopen_r path);
  match f with
  | None => mret None
  | Some (f, t) => _ ← call (os_fclose f); mret (Some (scan t))
  end.

(** The value of [memory.max] from the word scanned. *)
Definition parse_max (buf : string) : option Z :=
  if (buf =? "max")%string then Some 0
  else
    let '(v, erange, some, rest) := strtoul buf in
    if erange || negb some || negb (rest =? "")%string then None else Some v.

(** [while (fscanf(f, "%63s %lu", key, &val) == 2)] of [cpu.stat]. *)
Fixpoint scan_usage (n : nat) (t : string) : option Z :=
  match n with
  | O => None
  | S n =>
      match fscanf_s 63 t with
      | Some (key, t) =>
          match fscanf_lu t with
          | Some (v, t) => if (key =? "usage_usec")%string then Some v else scan_usage n t
          | None => Some 0
          end
      | None => Some 0
      end
  end.

Definition memory_pressure_of (current max : Z) : double :=
  if 0 <? max then ddiv (d_of_Z current) (d_of_Z max) else dzero.

Definition zero_metrics : nexus_cgroup_metrics := MkMetrics 0 0 0 dzero.

(** The code and the metrics, which start zeroed. *)
Definition cgroup_read_metrics (cgroup_path : string) : M W (Z * nexus_cgroup_metrics) :=
  if (cgroup_path =? "")%string then mret (NEXUS_ERR_INVALID, zero_metrics)
  else
    cur ← scan_file (build_child_path cgroup_path "memory.current") fscanf_lu;
    match cur with
    | Some (Some (cur, _)) =>
        mx ← scan_file (build_child_path cgroup_path "memory.max") (fscanf_s 31);
        match mx with
        | Some (Some (buf, _)) =>
            match parse_max buf with
            | None => mret (NEXUS_ERR_PROCESS, MkMetrics cur 0 0 dzero)
            | Some mx =>
                cpu ← scan_file (build_child_path cgroup_path "cpu.stat")
                        (fun t => scan_usage (S (String.length t)) t);
                match cpu with
                | Some None => diverge
                | Some (Some usage) =>
                    mret (NEXUS_OK, MkMetrics cur mx usage (memory_pressure_of cur mx))
                | None => mret (NEXUS_OK, MkMetrics cur mx 0 (memory_pressure_of cur mx))
                end
            end
        | _ => mret (NEXUS_ERR_PROCESS, MkMetrics cur 0 0 dzero)
        end
    | _ => mret (NEXUS_ERR_PROCESS, zero_metrics)
    end.

(** ** Removal *)

(** The loop over the tokens of [cgroup.procs]: [inl live], or [inr
    saw_content] at the end of the file. *)
Fixpoint scan_procs (n : nat) (t : string) (saw_content : bool) : M W (unit + bool) :=
  match n with
  | O => diverge
  | S n =>
      match fscanf_s 63 t with
      | None => mret (inr saw_content)
      | Some (tok, t) =>
          let '(pid, erange, some, rest) := strtol tok in
          if erange || negb some || negb (rest =? "")%string || (pid <=? 0) then mret (inl tt)
          else
            alive ← process_is_alive pid;
            if alive : bool then mret (inl tt) else scan_procs n t true
      end
  end.

Definition procs_has_live (cgroup_path : string) : M W bool :=
  let file_path := build_child_path cgroup_path "cgroup.procs" in
  f ← call (os_fopen_r file_path);
  match f with
  | None => mret false
  | Some (f, t) =>
      r ← scan_procs (S (String.length t)) t false;
      _ ← call (os_fclose f);
      match r with
      | inl _ => mret true
      | inr saw_content =>
          if saw_content : bool then
            f ← call (os_fopen_w file_path);
            match f with
            | Some f => _ ← call (os_fclose f); mret false
            | None => mret false
            end
          else mret false
      end
  end.

Fixpoint remove_all (dir : string) (files : list string) : M W unit :=
  match files with
  | [] => mret tt
  | f :: files => _ ← call (os_remove (build_child_path dir f)); remove_all dir files
  end.

Definition shim_files : list string :=
  ["memory.max"; "memory.current"; "cpu.max"; "cpu.stat"; "cgroup.procs"].

Definition cgroup_destroy (cgroup_path : string) : M W Z :=
  if (cgroup_path =? "")%string then mret NEXUS_ERR_INVALID
  else
    live ← procs_has_live cgroup_path;
    if live : bool then mret NEXUS_ERR_STATE
    else
      _ ← remove_all cgroup_path shim_files;
      r ← call (os_rmdir cgroup_path);
      match r with
      | ok_ _ => mret NEXUS_OK
      | fail_ e =>
          if e =? ENOENT then mret NEXUS_OK
          else
            st ← call (os_stat_isdir cgroup_path);
            match st with
            | fail_ e => mret (if e =? ENOENT then NEXUS_OK else NEXUS_ERR_PROCESS)
            | ok_ _ => mret NEXUS_ERR_PROCESS
            end
      end.
End cgroup.

(** ** Every operation gives back the streams it opens *)

Section streams.
Context {W : Type} `{OsLaws W}.
Implicit Types (w : W).

Definition returns_steady {A} (m : M W A) : Prop :=
  forall w0 w u, becomes w0 w u -> wp m (fun _ w' => becomes w0 w' u) w.

Lemma steady_ret {A} (a : A) : returns_steady (mret a).
Proof. intros w0 w u Hb. by apply wp_ret. Qed.

Lemma steady_bind {A B} (m : M W A) (k : A -> M W B) :
  returns_steady m -> (forall a, returns_steady (k a)) -> returns_steady (mbind k m).
Proof.
  intros Hm Hk w0 w u Hb. apply wp_bind. eapply wp_mono; [by apply Hm|].
  intros a w' Hb'. by apply Hk.
Qed.

Lemma steady_call {A} (f : W -> A * W) :
  (forall w a w', f w = (a, w') -> steady w w') -> returns_steady (call f).
Proof. intros Hf w0 w u Hb. eapply wp_steady; [done|apply Hf|]. by intros. Qed.

Lemma get_root_steady g : returns_steady (get_root g).
Proof.
  destruct g; [|apply steady_ret]. apply steady_bind; [|intros; apply steady_ret].
  apply steady_call. intros ???; apply law_getenv.
Qed.

Lemma write_file_str_steady path value : returns_steady (write_file_str path value).
Proof.
  intros w0 w u Hb. unfold write_file_str. apply wp_bind. eapply wp_fopen_w; [done| |].
  2:{ intros w1 Hb1. by apply wp_ret. }
  intros f w1 Hf Hb1. apply wp_bind. eapply wp_steady; [done|intros ???; apply law_fprintf|].
  intros [] w2 Hb2; cbn [negb]; apply wp_bind; (eapply wp_fclose; [done|done|]);
    intros b w3 Hb3; by apply wp_ret.
Qed.

Lemma stat_steady path : returns_steady (call (os_stat_isdir path)).
Proof. apply steady_call. intros ???; apply law_stat. Qed.

Lemma mkdir_usable_steady path : returns_steady (mkdir_usable path).
Proof.
  apply steady_bind; [apply steady_call; intros ???; apply law_mkdir|].
  intros [[]|e]; [apply steady_ret|]. apply steady_bind.
  - destruct (e =? EEXIST); [|apply steady_ret].
    apply steady_bind; [apply stat_steady|intros; apply steady_ret].
  - intros []; [apply steady_ret|]. apply steady_bind; [apply stat_steady|intros; apply steady_ret].
Qed.

Lemma cgroup_init_steady g o : returns_steady (cgroup_init g o).
Proof.
  apply steady_bind.
  - destruct o as [[|c r]|]; [|case_match; apply steady_ret|];
      (apply steady_bind; [apply get_root_steady|intros; apply steady_ret]).
  - intros [g'|]; [|apply steady_ret]. apply steady_bind; [apply mkdir_usable_steady|].
    intros u. destruct (negb _); [apply steady_ret|]. cbv [snprintf].
    destruct (_ || _); [apply steady_ret|].
    apply steady_bind; [apply write_file_str_steady|intros; apply steady_ret].
Qed.

Lemma cgroup_create_steady g name len : returns_steady (cgroup_create g name len).
Proof.
  destruct name as [nm|]; [|apply steady_ret]. cbn [cgroup_create]. unfold cgroup_create.
  destruct (_ || _); [apply steady_ret|].
  apply steady_bind; [apply get_root_steady|]. intros g'.
  apply steady_bind; [apply mkdir_usable_steady|]. intros u. destruct (negb _); [apply steady_ret|].
  cbv [snprintf]. destruct (_ || _); [apply steady_ret|].
  apply steady_bind; [apply mkdir_usable_steady|intros; apply steady_ret].
Qed.

Lemma cgroup_set_limits_steady path m c : returns_steady (cgroup_set_limits path m c).
Proof.
  unfold cgroup_set_limits. do 2 (case_match; [apply steady_ret|]).
  apply steady_bind; [apply write_file_str_steady|]. intros r. case_match; [apply steady_ret|].
  apply steady_bind; [apply write_file_str_steady|]. intros r'. case_match; apply steady_ret.
Qed.

Lemma cgroup_attach_steady path pid : returns_steady (cgroup_attach path pid).
Proof.
  unfold cgroup_attach. case_match; [apply steady_ret|].
  apply steady_bind; [apply write_file_str_steady|]. intros r. case_match; apply steady_ret.
Qed.

Lemma scan_file_steady {A} path (scan : string -> A) : returns_steady (scan_file path scan).
Proof.
  intros w0 w u Hb. unfold scan_file. apply wp_bind. eapply wp_fopen_r; [done| |].
  2:{ intros w1 Hb1. by apply wp_ret. }
  intros f t w1 Hf Hb1. apply wp_bind. eapply wp_fclose; [done|done|].
  intros b w2 Hb2. by apply wp_ret.
Qed.

Lemma process_is_alive_steady pid : returns_steady (process_is_alive pid).
Proof.
  unfold process_is_alive. case_match; [apply steady_ret|].
  apply steady_bind; [apply steady_call; intros ???; apply law_kill|].
  intros [|e]; apply steady_ret.
Qed.

Lemma remove_all_steady dir files : returns_steady (remove_all dir files).
Proof.
  induction files as [|f files IH]; [apply steady_ret|].
  apply steady_bind; [apply steady_call; intros ???; apply law_remove|done].
Qed.

(** The conversions of [cpu.stat] and [cgroup.procs] consume text, so their
    loops end. *)
Lemma scan_usage_total n t : (String.length t < n)%nat -> exists v, scan_usage n t = Some v /\ 0 <= v <= ULONG_MAX.
Proof.
  revert t. induction n as [|n IH]; intros t Hn; [lia|]. cbn [scan_usage].
  assert (0 <= 0 <= ULONG_MAX) as Hz by (unfold ULONG_MAX; lia).
  destruct (fscanf_s 63 t) as [[key t1]|] eqn:E1; [|eauto].
  destruct (fscanf_lu t1) as [[v t2]|] eqn:E2; [|eauto].
  apply fscanf_s_shorter in E1; [|lia]. apply fscanf_lu_length in E2 as [E2 Hv].
  destruct (_ =? _)%string; [eauto|]. apply IH. lia.
Qed.

Lemma cgroup_read_metrics_steady path : returns_steady (cgroup_read_metrics path).
Proof.
  unfold cgroup_read_metrics. case_match; [apply steady_ret|].
  apply steady_bind; [apply scan_file_steady|]. intros [[[cur r]|]|]; [|apply steady_ret..].
  apply steady_bind; [apply scan_file_steady|]. intros [[[buf r']|]|]; [|apply steady_ret..].
  destruct (parse_max buf) as [mx|]; [|apply steady_ret].
  intros w0 w u Hb. unfold scan_file. apply wp_bind, wp_bind. eapply wp_fopen_r; [done| |].
  2:{ intros w1 Hb1. by apply wp_ret, wp_ret. }
  intros f t w1 Hf Hb1. apply wp_bind. eapply wp_fclose; [done|done|]. intros b w2 Hb2. apply wp_ret.
  destruct (scan_usage_total (S (String.length t)) t) as (v & -> & _); [lia|]. by apply wp_ret.
Qed.

Lemma scan_procs_steady n t saw w0 w u :
  (String.length t < n)%nat -> becomes w0 w u ->
  wp (scan_procs n t saw) (fun _ w' => becomes w0 w' u) w.
Proof.
  revert t saw w. induction n as [|n IH]; intros t saw w Hn Hb; [lia|]. cbn [scan_procs].
  destruct (fscanf_s 63 t) as [[tok t1]|] eqn:E1; [|by apply wp_ret].
  apply fscanf_s_shorter in E1; [|lia]. destruct (strtol tok) as [[[pid erange] some] rest].
  destruct (_ || _); [by apply wp_ret|]. apply wp_bind.
  eapply wp_mono; [by apply process_is_alive_steady|]. intros [] w1 Hb1; [by apply wp_ret|].
  apply IH; [lia|done].
Qed.

Lemma procs_has_live_steady path : returns_steady (procs_has_live path).
Proof.
  intros w0 w u Hb. unfold procs_has_live. apply wp_bind. eapply wp_fopen_r; [done| |].
  2:{ intros w1 Hb1. by apply wp_ret. }
  intros f t w1 Hf Hb1. apply wp_bind. eapply wp_mono; [apply scan_procs_steady; [lia|exact Hb1]|].
  intros r w2 Hb2. apply wp_bind. eapply wp_fclose; [exact Hf|exact Hb2|]. intros b w3 Hb3.
  destruct r as [[]|[]]; [by apply wp_ret| |by apply wp_ret].
  apply wp_bind. eapply wp_fopen_w; [done| |].
  - intros g w4 Hg Hb4. apply wp_bind. eapply wp_fclose; [done|done|]. intros b' w5 Hb5. by apply wp_ret.
  - intros w4 Hb4. by apply wp_ret.
Qed.

Lemma cgroup_destroy_steady path : returns_steady (cgroup_destroy path).
Proof.
  unfold cgroup_destroy. case_match; [apply steady_ret|].
  apply steady_bind; [apply procs_has_live_steady|]. intros []; [apply steady_ret|].
  apply steady_bind; [apply remove_all_steady|]. intros _.
  apply steady_bind; [apply steady_call; intros ???; apply law_rmdir|].
  intros [|e]; [apply steady_ret|]. case_match; [apply steady_ret|].
  apply steady_bind; [apply stat_steady|]. intros [|]; [apply steady_ret|]. apply steady_ret.
Qed.
End streams.

(** ** What the operations do to the file system *)

Section files.
Context {W : Type} `{FsLaws W}.
Implicit Types (w : W).

(** The directories only change by the additions [X]. *)
Definition adds (X : gset string) (v v' : fsview) : Prop := dirs v' = X ∪ dirs v.

Lemma wp_stat_isdir path w (Q : bool -> W -> Prop) :
  (forall b w', fs w' = fs w -> (b = true -> path ∈ dirs (fs w)) -> Q b w') ->
  wp (st ← call (os_stat_isdir path); mret (match st with ok_ true => true | _ => false end)) Q w.
Proof.
  intros HQ. apply wp_bind, wp_call. intros st w1 E. apply fs_stat in E as (Hf & Hd & _).
  apply wp_ret, HQ; [done|]. destruct st as [[]|]; [auto|done..].
Qed.

(** A usable directory exists afterwards; nothing else changes. *)
Lemma wp_mkdir_usable path w (Q : Z -> W -> Prop) :
  (forall r w', (r = 0 \/ r = -1) -> text (fs w') = text (fs w) ->
     (r = 0 -> dirs (fs w') = {[path]} ∪ dirs (fs w)) -> (r = -1 -> fs w' = fs w) -> Q r w') ->
  wp (mkdir_usable path) Q w.
Proof.
  intros HQ. unfold mkdir_usable. apply wp_bind, wp_call. intros m w1 E. apply fs_mkdir in E.
  destruct m as [|e]; [apply wp_ret, HQ; [auto|by rewrite E..|done]|].
  assert (forall w2, fs w2 = fs w -> path ∈ dirs (fs w) -> Q 0 w2) as Hok.
  { intros w2 Hw2 Hin. apply HQ; [auto|by rewrite Hw2| |done]. rewrite Hw2. intros _. set_solver. }
  assert (forall w2, fs w2 = fs w ->
    wp (st ← call (os_stat_isdir path); mret (match st with ok_ true => 0 | _ => -1 end)) Q w2) as Hlast.
  { intros w2 Hw2. apply wp_bind, wp_call. intros st w3 E3. apply fs_stat in E3 as (Hf & Hd & _).
    rewrite Hw2 in Hf, Hd. apply wp_ret. destruct st as [[]|]; [by apply Hok; auto|..];
      (apply HQ; [auto|by rewrite Hf|done|done]). }
  apply wp_bind. destruct (e =? EEXIST).
  - apply wp_stat_isdir. intros b w2 Hw2 Hb. rewrite E in Hw2, Hb.
    destruct b; [apply wp_ret, Hok; auto|by apply Hlast].
  - apply wp_ret. by apply Hlast.
Qed.

Lemma wp_get_root g w (Q : string -> W -> Prop) :
  (forall r w', fs w' = fs w -> (g <> "" -> r = g) -> Q r w') -> wp (get_root g) Q w.
Proof.
  intros HQ. unfold get_root. destruct g; [|apply wp_ret, HQ; done].
  apply wp_bind, wp_call. intros env w1 E. apply fs_getenv in E. by apply wp_ret, HQ.
Qed.

Lemma wp_write_dirs path value w (Q : Z -> W -> Prop) :
  (forall r w', (r = 0 \/ r = -1) -> dirs (fs w') = dirs (fs w) -> Q r w') ->
  wp (write_file_str path value) Q w.
Proof.
  intros HQ. unfold write_file_str. apply wp_bind, wp_call. intros f w1 E. apply fs_fopen_w in E.
  destruct f as [f|]; [|apply wp_ret, HQ; auto].
  apply wp_bind, wp_call. intros p w2 E2. apply fs_fprintf in E2.
  destruct p; cbn [negb]; apply wp_bind, wp_call; intros c w3 E3; apply fs_fclose in E3;
    apply wp_ret, HQ; try congruence; [destruct c; auto|auto].
Qed.

(** The file [p] can be opened for reading in every state with the files of [w]. *)
Definition opens (p : string) (w : W) : Prop := forall w', fs w' = fs w -> is_Some (fst (os_fopen_r p w')).

(** A file scanned for reading leaves the file system as it is. *)
Lemma wp_scan_file {A} path (scan : string -> A) w (Q : option A -> W -> Prop) :
  (forall t w', fs w' = fs w -> text (fs w) !! path = Some t -> Q (Some (scan t)) w') ->
  (forall w', fs w' = fs w -> ~ opens path w -> Q None w') -> wp (scan_file path scan) Q w.
Proof.
  intros HQ HN. unfold scan_file. apply wp_bind, wp_call. intros f w1 E.
  pose proof (fs_fopen_r _ _ _ _ E) as [Hf Hr]. destruct f as [[f t]|].
  2:{ apply wp_ret, HN; [done|]. intros Ho. destruct (Ho w eq_refl) as [x Hx]. by rewrite E in Hx. }
  destruct Hr as [Ht Hr]. apply wp_bind, wp_call. intros c w2 E2.
  apply (fs_fclose_reader _ _ _ _ Hr) in E2. apply wp_ret, HQ; [congruence|done].
Qed.
End files.

(** ** The processes of a cgroup *)

Fixpoint pids_text (pids : list Z) : string :=
  match pids with
  | [] => EmptyString
  | p :: pids => String.append (dec p) (String.append newline (pids_text pids))
  end.

Lemma newline_char : exists c, newline = String c EmptyString /\ is_space c = true.
Proof. by exists (Ascii.ascii_of_nat 10). Qed.

Lemma newline_app s : exists c, String.append newline s = String c s /\ is_space c = true.
Proof. by exists (Ascii.ascii_of_nat 10). Qed.

Lemma dec_not_empty n : 0 <= n -> dec n <> EmptyString.
Proof. intros Hn. by destruct (dec_nonempty n Hn) as (d & r & _ & ->). Qed.

Lemma fscanf_s_dec w n rest :
  0 <= n -> (20 < w)%nat -> fscanf_s w (String.append (dec n) (String.append newline rest)) =
    Some (dec n, String.append newline rest).
Proof.
  intros Hn Hw. destruct (newline_app rest) as (c & -> & Hc).
  apply fscanf_s_word; [by apply dec_no_space|by apply dec_not_empty| |done].
  pose proof (dec_length n). lia.
Qed.

Lemma fscanf_s_newline w s : fscanf_s w (String.append newline s) = fscanf_s w s.
Proof. destruct (newline_app s) as (c & -> & Hc). unfold fscanf_s. cbn [skip_space]. by rewrite Hc. Qed.

Lemma Exists_ext {A} (P Q : A -> Prop) l : (forall x, P x <-> Q x) -> Exists P l <-> Exists Q l.
Proof. intros HPQ. induction l as [|x l IH]; [by rewrite !Exists_nil|]. by rewrite !Exists_cons, HPQ, IH. Qed.

Section files2.
Context {W : Type} `{FsLaws W}.
Implicit Types (w : W).

(** What [kill(pid, 0)] keeps: the files, the open readers and the processes. *)
Definition probes w w' : Prop :=
  fs w' = fs w /\ (forall f, reader w f -> reader w' f) /\ (forall q, proc_exists w' q = proc_exists w q).

Lemma probes_trans w1 w2 w3 : probes w1 w2 -> probes w2 w3 -> probes w1 w3.
Proof. intros (A & B & C) (D & E & F). split_and!; [congruence|auto|]. intros q. by rewrite F. Qed.

Lemma wp_is_alive pid w (Q : bool -> W -> Prop) :
  (forall b w', probes w w' -> (pid_ok pid -> b = proc_exists w pid) -> Q b w') ->
  wp (process_is_alive pid) Q w.
Proof.
  intros HQ. unfold process_is_alive. destruct (pid <=? 0) eqn:Ep; zb.
  { apply wp_ret, HQ; [done|]. unfold pid_ok. lia. }
  apply wp_bind, wp_call. intros k w1 E. apply fs_kill0 in E as (Hf & Hr & Hp & Hk).
  assert (pid_ok pid -> (match k with ok_ _ => true | fail_ e => negb (e =? ESRCH) end) = proc_exists w pid) as Hb.
  { intros Hok. rewrite to_int_small in Hk by (unfold pid_ok in Hok; lia). by rewrite Hk. }
  destruct k; by apply wp_ret, HQ.
Qed.

Lemma wp_scan_procs_fs n t saw w (Q : unit + bool -> W -> Prop) :
  (String.length t < n)%nat -> (forall r w', probes w w' -> Q r w') ->
  wp (scan_procs n t saw) Q w.
Proof.
  revert t saw w. induction n as [|n IH]; intros t saw w Hn HQ; [lia|]. cbn [scan_procs].
  destruct (fscanf_s 63 t) as [[tok t1]|] eqn:E1; [|by apply wp_ret, HQ].
  apply fscanf_s_shorter in E1; [|lia]. destruct (strtol tok) as [[[pid erange] some] rest].
  destruct (_ || _); [by apply wp_ret, HQ|]. apply wp_bind, wp_is_alive.
  intros [] w1 Hp _; [by apply wp_ret, HQ|]. apply IH; [lia|].
  intros r w2 Hp2. apply HQ. by eapply probes_trans.
Qed.

(** On a list of process ids the scan finds exactly whether one of them exists. *)
Lemma wp_scan_procs pids n t saw w (Q : unit + bool -> W -> Prop) :
  (String.length t < n)%nat -> (t = pids_text pids \/ t = String.append newline (pids_text pids)) ->
  Forall pid_ok pids ->
  (forall r w', probes w w' -> (r = inl tt <-> Exists (fun p => proc_exists w p = true) pids) -> Q r w') ->
  wp (scan_procs n t saw) Q w.
Proof.
  intros Hn Ht Hok. revert n t saw w Hn Ht. induction pids as [|p pids IH]; intros n t saw w Hn Ht HQ;
    (destruct n as [|n]; [lia|]); cbn [scan_procs].
  - assert (fscanf_s 63 t = None) as -> by (by destruct Ht as [->| ->]).
    apply wp_ret, HQ; [done|]. rewrite Exists_nil. by split.
  - apply Forall_cons in Hok as [Hp Hok]. unfold pid_ok in Hp.
    assert (fscanf_s 63 t = Some (dec p, String.append newline (pids_text pids))) as E.
    { destruct Ht as [->| ->]; [|rewrite fscanf_s_newline]; cbn [pids_text]; apply fscanf_s_dec; lia. }
    rewrite E. apply fscanf_s_shorter in E; [|lia].
    rewrite strtol_dec by (unfold LONG_MAX; lia). cbn [negb orb String.eqb].
    replace (p <=? 0) with false by lia. cbn [orb].
    apply wp_bind, wp_is_alive. intros b w1 Hpr Hb. specialize (Hb Hp). destruct b.
    + apply wp_ret, HQ; [done|]. split; [|done]. intros _. by constructor.
    + apply (IH Hok); [lia|by right|]. intros r w2 Hpr2 Hr. apply HQ; [by eapply probes_trans|].
      rewrite Hr, Exists_cons. destruct Hpr as (_ & _ & Hq).
      rewrite (Exists_ext _ (fun p => proc_exists w p = true)) by (intros x; by rewrite Hq).
      rewrite <- Hb. split; [by right|]. by intros [?|?].
Qed.

Lemma wp_remove_all dir files w (Q : unit -> W -> Prop) :
  (forall w', dirs (fs w') = dirs (fs w) -> Q tt w') -> wp (remove_all dir files) Q w.
Proof.
  revert w. induction files as [|f files IH]; intros w HQ; [by apply wp_ret, HQ|].
  cbn [remove_all]. apply wp_bind, wp_call. intros r w1 E. apply fs_remove in E.
  apply IH. intros w2 E2. apply HQ. congruence.
Qed.

Definition procs_path (path : string) : string := build_child_path path "cgroup.procs".

(** A cgroup that is found live is left alone. *)
Lemma wp_procs_has_live path w (Q : bool -> W -> Prop) :
  (forall b w', dirs (fs w') = dirs (fs w) -> (b = true -> fs w' = fs w) ->
     (forall f pids w1, os_fopen_r (procs_path path) w = (Some (f, pids_text pids), w1) ->
        Forall pid_ok pids -> (forall p, proc_exists w1 p = proc_exists w p) ->
        (b = true <-> Exists (fun p => proc_exists w p = true) pids)) -> Q b w') ->
  wp (procs_has_live path) Q w.
Proof.
  intros HQ. unfold procs_has_live. fold (procs_path path). apply wp_bind, wp_call. intros f w1 E.
  pose proof (fs_fopen_r _ _ _ _ E) as [Hf Hr]. destruct f as [[f t]|].
  2:{ apply wp_ret, HQ; [by rewrite Hf|done|]. intros f pids w2 E2. by rewrite E in E2. }
  destruct Hr as [Ht Hr].
  destruct (wp_run _ _ _ (wp_scan_procs_fs (S (String.length t)) t false w1 (fun _ w2 => probes w1 w2)
    ltac:(lia) (fun r w2 Hp => Hp))) as (r & w2 & Er & (Hf2 & Hr2 & _)).
  assert (forall pids, t = pids_text pids -> Forall pid_ok pids ->
    (r = inl tt <-> Exists (fun p => proc_exists w1 p = true) pids)) as Hlive.
  { intros pids Ht' Hok. eapply (run_wp _ (fun r w2 => r = inl tt <-> _)); [|exact Er].
    apply (wp_scan_procs pids); [lia|by left|done|]. by intros. }
  apply (wp_bind_run _ _ _ _ _ _ Er). apply wp_bind, wp_call. intros c w3 E3.
  apply (fs_fclose_reader _ _ _ _ (Hr2 _ Hr)) in E3.
  assert (forall b w4, dirs (fs w4) = dirs (fs w) -> (b = true -> fs w4 = fs w) ->
    (b = true <-> r = inl tt) -> Q b w4) as HQ'.
  { intros b w4 Hd Hb Hbr. apply HQ; [done|done|]. intros f' pids w5 E5 Hok Hpe.
    rewrite E in E5. injection E5 as -> -> ->. rewrite Hbr, (Hlive pids eq_refl Hok).
    apply Exists_ext. intros x. by rewrite Hpe. }
  destruct r as [[]|[]].
  - apply wp_ret, HQ'; [congruence..|done].
  - apply wp_bind, wp_call. intros g w4 E4. apply fs_fopen_w in E4. destruct g as [g|].
    + apply wp_bind, wp_call. intros c' w5 E5. apply fs_fclose in E5. apply wp_ret, HQ'; [congruence|done|done].
    + apply wp_ret, HQ'; [congruence|done|done].
  - apply wp_ret, HQ'; [congruence|done|done].
Qed.
End files2.

(** ** Writing regular files *)

Section regular.
Context {W : Type} `{RegularFs W}.
Implicit Types (w : W).

(** [0]: the file holds the line; [-1]: it may hold anything; no other file is
    touched. *)
Lemma wp_write_regular path value w (Q : Z -> W -> Prop) :
  (forall w', text (fs w') = <[path := String.append value newline]> (text (fs w)) -> Q 0 w') ->
  (forall w', (forall q, q <> path -> text (fs w') !! q = text (fs w) !! q) -> Q (-1) w') ->
  wp (write_file_str path value) Q w.
Proof.
  intros HQ HF. unfold write_file_str. apply wp_bind, wp_call. intros f w1 E.
  apply rf_fopen_w in E. destruct f as [f|]; [|apply wp_ret, HF; intros; by rewrite E].
  destruct E as [Ht Hw]. assert (writer w1 !! f = Some (path, EmptyString)) as Hf by (rewrite Hw; apply lookup_insert_eq).
  apply wp_bind, wp_call. intros p w2 E2. destruct (rf_fprintf _ _ _ _ _ _ _ Hf E2) as (Ht2 & b & Hf2 & Hb).
  assert (forall c w3, os_fclose f w2 = (c, w3) -> exists b', text (fs w3) = <[path := b']> (text (fs w)) /\
    (c = true -> b' = b)) as Hclose.
  { intros c w3 E3. destruct (rf_fclose _ _ _ _ _ _ Hf2 E3) as (b' & Ht3 & Hb'). exists b'. split; [|done].
    by rewrite Ht3, Ht2, Ht, insert_insert_eq. }
  destruct p; cbn [negb]; apply wp_bind, wp_call; intros c w3 E3; destruct (Hclose c w3 E3) as (b' & Ht3 & Hb').
  - rewrite (Hb eq_refl) in Hb'. destruct c; apply wp_ret.
    + apply HQ. rewrite Ht3. by rewrite (Hb' eq_refl).
    + apply HF. intros q Hq. rewrite Ht3. by apply lookup_insert_ne.
  - apply wp_ret, HF. intros q Hq. rewrite Ht3. by apply lookup_insert_ne.
Qed.
End regular.

(** Paths that fit the buffer of the cgroup layer are kept apart. *)
Lemma build_child_path_fits dir file :
  strlen dir < NEXUS_PATH_MAX -> strlen file < 31 -> build_child_path dir file = join_path dir file.
Proof.
  intros Hd Hf. unfold build_child_path. apply truncate_fits. unfold join_path.
  rewrite !strlen_append. change (strlen "/") with 1. unfold NEXUS_PATH_MAX in *. lia.
Qed.

Lemma join_path_inj dir a b : join_path dir a = join_path dir b -> a = b.
Proof. unfold join_path. intros Hab. apply (inj (String.append dir)) in Hab. by apply (inj (String.append "/")) in Hab. Qed.

Lemma memory_text_eq m : memory_text m = if 0 <? m then dec m else "max"%string.
Proof.
  unfold memory_text. apply truncate_fits. destruct (0 <? m); [|done].
  unfold strlen. pose proof (dec_length m). lia.
Qed.

(** What [memory.max] is written with is what it is read as. *)
Lemma memory_text_parses m rest :
  0 <= m <= ULONG_MAX ->
  exists buf r, fscanf_s 31 (String.append (memory_text m) (String.append newline rest)) = Some (buf, r) /\
    parse_max buf = Some m.
Proof.
  intros Hm. rewrite memory_text_eq. destruct (0 <? m) eqn:E; zb.
  - exists (dec m), (String.append newline rest). split; [apply fscanf_s_dec; lia|].
    unfold parse_max. destruct (dec m =? "max")%string eqn:Em.
    + apply String.eqb_eq in Em. destruct (dec_nonempty m ltac:(lia)) as (d & r & Hd & Hdec). rewrite Hdec in Em.
      injection Em as Hc _. pose proof (is_digit_digit d Hd) as Hi. by rewrite Hc in Hi.
    + rewrite strtoul_dec by done. done.
  - exists "max"%string, (String.append newline rest). split.
    + destruct (newline_app rest) as (c & -> & Hc). apply fscanf_s_word; [done|done|cbn; lia|done].
    + replace m with 0 by lia. done.
Qed.

Lemma parse_max_range buf m : parse_max buf = Some m -> 0 <= m <= ULONG_MAX.
Proof.
  unfold parse_max. destruct (buf =? "max")%string; [intros [= <-]; unfold ULONG_MAX; lia|].
  pose proof (strtoul_range buf) as Hr. destruct (strtoul buf) as [[[v er] some] rest].
  destruct (_ || _); [done|]. by intros [= <-].
Qed.

Lemma memory_pressure_nonneg cur mx :
  0 <= cur -> mx <= ULONG_MAX -> nonneg (memory_pressure_of cur mx).
Proof.
  intros Hc Hm. unfold memory_pressure_of. destruct (0 <? mx) eqn:E; zb; [|constructor].
  destruct (d_of_Z_finite mx) as (dm & de & -> & _); [lia|]. by apply ddiv_nonneg, d_of_Z_nonneg.
Qed.

(** ** Theorems *)

Definition file_text {W} `{FsView W} (path file : string) (w : W) : option string :=
  text (fs w) !! build_child_path path file.

(** ** What a reading claims *)

(** The word of [memory.max]: ["max"] is no limit, which reads as 0, and
    anything else has to be a number through to its end. *)
Inductive limit_text : string -> Z -> Prop :=
| limit_none : limit_text "max" 0
| limit_bytes b n : ulong_text b n -> limit_text b n.

Lemma ulong_text_not_max n : ~ ulong_text "max" n.
Proof. by inversion 1 as [? ? (_ & Hd & _)| |]. Qed.

Lemma parse_max_exact b n :
  all_chars (fun c => negb (is_space c)) b = true -> parse_max b = Some n <-> limit_text b n.
Proof.
  intros Hs. unfold parse_max. destruct (String.eqb_spec b "max") as [->|Hb].
  - split; [intros [= <-]; constructor|]. inversion 1 as [|? ? Hu]; [done|]. by apply ulong_text_not_max in Hu.
  - pose proof (strtoul_exact b n Hs) as Hx. destruct (strtoul b) as [[[v er] some] rest] eqn:E. split.
    + destruct er, some; cbn [negb orb]; try done. destruct (String.eqb_spec rest ""); [|done]. subst rest.
      intros [= ->]. constructor. by apply Hx.
    + inversion 1 as [|? ? Hu]; subst; [done|]. apply Hx in Hu as [= -> -> -> ->]. done.
Qed.

Lemma fscanf_s_no_space w t b r : fscanf_s w t = Some (b, r) -> all_chars (fun c => negb (is_space c)) b = true.
Proof.
  unfold fscanf_s. destruct (skip_space t) as [|c t']; [done|]. intros [= Hw]. revert w b r Hw. generalize (String c t').
  induction s as [|d s IH]; intros [|w] b r Hw; cbn [scan_word] in Hw; try by injection Hw as <- <-.
  destruct (is_space d) eqn:Hd; [by injection Hw as <- <-|]. destruct (scan_word w s) as [b' r'] eqn:E.
  injection Hw as <- <-. cbn [all_chars]. rewrite Hd. by eapply IH.
Qed.

(** The CPU time a [cpu.stat] shows: the number after the key [usage_usec] in
    its pairs of a key and a number, 0 where they end without it. *)
Inductive usage_in : string -> Z -> Prop :=
| usage_end t : fscanf_s 63 t = None -> usage_in t 0
| usage_cut t key t1 : fscanf_s 63 t = Some (key, t1) -> fscanf_lu t1 = None -> usage_in t 0
| usage_here t t1 v t2 : fscanf_s 63 t = Some ("usage_usec"%string, t1) -> fscanf_lu t1 = Some (v, t2) -> usage_in t v
| usage_later t key t1 x t2 v :
    fscanf_s 63 t = Some (key, t1) -> fscanf_lu t1 = Some (x, t2) -> key <> "usage_usec"%string -> usage_in t2 v -> usage_in t v.

Lemma scan_usage_in n t v : scan_usage n t = Some v -> usage_in t v.
Proof.
  revert t. induction n as [|n IH]; intros t; [done|]. cbn [scan_usage].
  destruct (fscanf_s 63 t) as [[key t1]|] eqn:E1; [|intros [= <-]; by apply usage_end].
  destruct (fscanf_lu t1) as [[x t2]|] eqn:E2; [|intros [= <-]; by eapply usage_cut].
  destruct (String.eqb_spec key "usage_usec") as [->|Hk].
  - intros [= ->]. by eapply usage_here.
  - intros Hv. eapply usage_later; eauto.
Qed.

(** A [cpu.stat] as the kernel writes it, and the usage it lists. *)
Fixpoint stat_text (kvs : list (string * Z)) : string :=
  match kvs with
  | [] => EmptyString
  | (key, v) :: kvs => String.append key (String.append " " (String.append (dec v) (String.append newline (stat_text kvs))))
  end.
Fixpoint listed_usage (kvs : list (string * Z)) : Z :=
  match kvs with [] => 0 | (key, v) :: kvs => if (key =? "usage_usec")%string then v else listed_usage kvs end.
Definition stat_line_ok (kv : string * Z) : Prop :=
  kv.1 <> EmptyString /\ all_chars (fun c => negb (is_space c)) kv.1 = true /\ (String.length kv.1 < 63)%nat /\
  0 <= kv.2 <= ULONG_MAX.

Lemma space_app s : exists c, String.append " " s = String c s /\ is_space c = true.
Proof. by exists (Ascii.ascii_of_nat 32). Qed.

Lemma fscanf_lu_space s : fscanf_lu (String.append " " s) = fscanf_lu s.
Proof.
  destruct (space_app s) as (c & -> & Hc). unfold fscanf_lu, strtoul, scan_number. cbn [skip_space]. rewrite Hc.
  destruct (scan_sign (skip_space s)) as [neg t]. destruct (scan_digits t 0 0) as [[v k] rest].
  destruct (k =? 0)%nat; [done|]. by destruct (ULONG_MAX <? v).
Qed.

Lemma usage_in_listed kvs t v :
  Forall stat_line_ok kvs -> t = stat_text kvs \/ t = String.append newline (stat_text kvs) -> usage_in t v -> v = listed_usage kvs.
Proof.
  intros Hok. revert t v. induction Hok as [|[key x] kvs (Hne & Hns & Hl & Hx) Hok IH]; intros t v Ht Hu.
  - assert (fscanf_s 63 t = None) as Hn by (by destruct Ht as [->| ->]). inversion Hu; subst; first [done|congruence].
  - cbn [fst snd] in Hne, Hns, Hl, Hx. set (rest := String.append newline (stat_text kvs)).
    assert (fscanf_s 63 t = Some (key, String.append " " (String.append (dec x) rest))) as E1.
    { destruct (space_app (String.append (dec x) rest)) as (c & Hsp & Hc).
      destruct Ht as [->| ->]; [|rewrite fscanf_s_newline]; cbn [stat_text]; fold rest; rewrite Hsp; by apply fscanf_s_word. }
    assert (fscanf_lu (String.append " " (String.append (dec x) rest)) = Some (x, rest)) as E2.
    { rewrite fscanf_lu_space. by apply fscanf_dec. }
    cbn [listed_usage].
    destruct Hu as [t Hs|t key' t1 Hs Hn|t t1 v t2 Hs Hn|t key' t1 x' t2 v Hs Hn Hk Hin]; rewrite E1 in Hs; try discriminate Hs;
      injection Hs as -> <-; rewrite E2 in Hn; try discriminate Hn; injection Hn as <- <-; [done|].
    destruct (String.eqb_spec key' "usage_usec"); [done|]. apply (IH rest); [by right|done].
Qed.

Section reading.
Context {W : Type} `{FsLaws W}.
Implicit Types (w : W).

(** What [memory.current] and [memory.max] say. *)
Definition current_is (path : string) w (n : Z) : Prop :=
  exists t r, file_text path "memory.current" w = Some t /\ fscanf_lu t = Some (n, r).
Definition limit_is (path : string) w (n : Z) : Prop :=
  exists t b r, file_text path "memory.max" w = Some t /\ fscanf_s 31 t = Some (b, r) /\ limit_text b n.

(** Both required files can be opened and say something. *)
Definition readable (path : string) w : Prop :=
  opens (build_child_path path "memory.current") w /\ opens (build_child_path path "memory.max") w /\
  (exists n, current_is path w n) /\ exists n, limit_is path w n.

(** A reading that the files of the cgroup justify: no limit is no pressure,
    and under a limit the pressure is the quotient.  The CPU time is that of
    [cpu.stat], and 0 only for want of it. *)
Definition honest_reading (path : string) w (m : nexus_cgroup_metrics) : Prop :=
  current_is path w (m_memory_current m) /\ limit_is path w (m_memory_max m) /\
  (m_memory_max m = 0 -> m_memory_pressure m = dzero) /\
  (0 < m_memory_max m -> m_memory_pressure m = ddiv (d_of_Z (m_memory_current m)) (d_of_Z (m_memory_max m))) /\
  nonneg (m_memory_pressure m) /\
  ((exists t, file_text path "cpu.stat" w = Some t /\ usage_in t (m_cpu_usage_usec m)) \/
   m_cpu_usage_usec m = 0 /\ ~ opens (build_child_path path "cpu.stat") w).

Lemma pressure_of_limit cur mx :
  (mx = 0 -> memory_pressure_of cur mx = dzero) /\ (0 < mx -> memory_pressure_of cur mx = ddiv (d_of_Z cur) (d_of_Z mx)).
Proof. unfold memory_pressure_of. by split; [intros ->|intros Hm; replace (0 <? mx) with true by lia]. Qed.

(** What is read exactly, failures included. *)
Lemma wp_read_exact path w :
  path <> ""%string ->
  wp (cgroup_read_metrics path) (fun rm w' => fs w' = fs w /\
    ((rm.1 = NEXUS_OK /\ honest_reading path w rm.2) \/ rm.1 = NEXUS_ERR_PROCESS /\ ~ readable path w)) w.
Proof.
  intros Hpath. unfold cgroup_read_metrics. destruct (String.eqb_spec path ""); [done|].
  apply wp_bind, wp_scan_file.
  2:{ intros w1 Hw1 Hn. apply wp_ret. split; [done|]. right. split; [done|]. by intros (Ho & _). }
  intros t1 w1 Hw1 Ht1. destruct (fscanf_lu t1) as [[cur r1]|] eqn:E1.
  2:{ apply wp_ret. split; [done|]. right. split; [done|]. intros (_ & _ & (n' & t & r & Ht & Hs) & _). unfold file_text in Ht. congruence. }
  assert (forall p, opens p w -> opens p w1) as Ho1 by (intros p Ho w' Hw'; apply Ho; congruence).
  apply wp_bind, wp_scan_file.
  2:{ intros w2 Hw2 Hn. apply wp_ret. split; [congruence|]. right. split; [done|]. intros (_ & Ho & _). by apply Hn, Ho1. }
  intros t2 w2 Hw2 Ht2. rewrite Hw1 in Ht2.
  destruct (fscanf_s 31 t2) as [[buf r2]|] eqn:E2.
  2:{ apply wp_ret. split; [congruence|]. right. split; [done|]. intros (_ & _ & _ & n' & t & b & r & Ht & Hs & _). unfold file_text in Ht. congruence. }
  pose proof (parse_max_exact buf) as Hx.
  destruct (parse_max buf) as [mx|] eqn:E3.
  2:{ apply wp_ret. split; [congruence|]. right. split; [done|]. intros (_ & _ & _ & n' & t & b & r & Ht & Hs & Hl). unfold file_text in Ht.
      assert (b = buf) as -> by congruence. apply Hx in Hl; [done|by eapply fscanf_s_no_space]. }
  destruct (pressure_of_limit cur mx) as [Hp0 Hp1].
  assert (limit_text buf mx) as Hlim by (apply Hx; [by eapply fscanf_s_no_space|done]).
  assert (nonneg (memory_pressure_of cur mx)) as Hnn.
  { apply fscanf_lu_length in E1 as [_ Hc]. apply parse_max_range in E3. apply memory_pressure_nonneg; lia. }
  set (Q := fun (rm : Z * nexus_cgroup_metrics) (w' : W) => _).
  assert (forall usage w3, fs w3 = fs w ->
    ((exists t, file_text path "cpu.stat" w = Some t /\ usage_in t usage) \/
     usage = 0 /\ ~ opens (build_child_path path "cpu.stat") w) ->
    wp (mret (NEXUS_OK, MkMetrics cur mx usage (memory_pressure_of cur mx))) Q w3) as Hok.
  { intros usage w3 Hw3 Hu. apply wp_ret. split; [done|]. left. split; [done|].
    unfold honest_reading, current_is, limit_is. cbn. split_and!; [by exists t1, r1|by exists t2, buf, r2|done|done|done|exact Hu]. }
  apply wp_bind, wp_scan_file.
  - intros t3 w3 Hw3 Ht3. rewrite Hw2, Hw1 in Ht3.
    destruct (scan_usage_total (S (String.length t3)) t3) as (v & Hv & _); [lia|]. rewrite Hv.
    apply Hok; [congruence|]. left. exists t3. split; [done|]. by eapply scan_usage_in.
  - intros w3 Hw3 Hn. apply Hok; [congruence|]. right. split; [done|]. intros Ho. apply Hn. intros w' Hw'. apply Ho. congruence.
Qed.

Lemma wp_read_metrics path w :
  path <> ""%string ->
  wp (cgroup_read_metrics path) (fun rm w' => fs w' = fs w /\
    ((rm.1 = NEXUS_OK /\ honest_reading path w rm.2) \/ rm.1 = NEXUS_ERR_PROCESS)) w.
Proof.
  intros Hpath. eapply wp_mono; [by apply wp_read_exact|]. intros rm w' [Hf [Hr|[Hr _]]]; auto.
Qed.
End reading.


(** The cgroup of a container with a 1 MiB limit, half used. *)
Definition demo_cgroup : sim :=
  with_fs (MkFs {["/"; "/cg"; "/cg/db"]}
    {["/cg/db/memory.current" := String.append "524288" newline;
      "/cg/db/memory.max" := String.append "1048576" newline;
      "/cg/db/cpu.stat" := String.append "nr_periods 3" (String.append newline
        (String.append "usage_usec 700" (String.append newline (String.append "user_usec 400" newline))))]}) (boot []).

Definition demo_reading : Z * nexus_cgroup_metrics * sim :=
  match cgroup_read_metrics "/cg/db" demo_cgroup with Some r => r | None => (0, zero_metrics, demo_cgroup) end.

Lemma demo_reading_eq :
  cgroup_read_metrics "/cg/db" demo_cgroup =
    Some ((NEXUS_OK, MkMetrics 524288 1048576 700 (d_lit 1 2)), demo_reading.2).
Proof. vm_compute. reflexivity. Qed.

Lemma demo_cpu_opens : opens (build_child_path "/cg/db" "cpu.stat") demo_cgroup.
Proof.
  intros w' Hw. change (fs w') with (k_fs w') in Hw. cbn [os_fopen_r sim_os]. rewrite Hw. by eexists.
Qed.


(** Limits round-trip.  On a directory of regular files, when setting the
    limits of a cgroup succeeds, [memory.max] and [cpu.max] hold the lines that
    denote them (the quota is 1000 per percent of a period of 100000), no other
    file changed, and a later successful reading of the metrics reports exactly
    the memory limit that was set, 0 for none; otherwise the result is
    [NEXUS_ERR_PROCESS]. *)
Theorem limits_roundtrip {W} `{!Os W, !FsView W, !FsLaws W, !RegularFs W} path memory_bytes cpu_percent (w : W) :
  path <> ""%string -> strlen path < NEXUS_PATH_MAX ->
  0 <= memory_bytes <= ULONG_MAX -> 0 <= cpu_percent <= 100 ->
  wp (cgroup_set_limits path memory_bytes cpu_percent) (fun rc w' =>
    (rc = NEXUS_ERR_PROCESS \/
     rc = NEXUS_OK /\
     file_text path "memory.max" w' = Some (String.append (memory_text memory_bytes) newline) /\
     file_text path "cpu.max" w' = Some (String.append (cpu_text cpu_percent) newline) /\
     (0 < cpu_percent -> fscanf_lu (cpu_text cpu_percent) = Some (1000 * cpu_percent, " 100000"%string)) /\
     (forall file, strlen file < 31 -> file <> "memory.max"%string -> file <> "cpu.max"%string ->
        file_text path file w' = file_text path file w) /\
     wp (cgroup_read_metrics path) (fun rm _ => rm.1 = NEXUS_OK -> m_memory_max rm.2 = memory_bytes) w')) w.
Proof.
  intros Hpath Hlen Hm Hc. unfold cgroup_set_limits. destruct (String.eqb_spec path ""); [done|].
  replace (100 <? cpu_percent) with false by lia.
  set (pm := build_child_path path "memory.max"). set (pc := build_child_path path "cpu.max").
  assert (forall a b, strlen a < 31 -> strlen b < 31 -> a <> b ->
    build_child_path path a <> build_child_path path b) as Hne.
  { intros a b Ha Hb Hab. rewrite !build_child_path_fits by done. by intros ?%join_path_inj. }
  apply wp_bind, wp_write_regular; [|intros w1 _; apply wp_ret; by left].
  intros w1 H1. change (negb (0 =? 0)) with false. cbn iota.
  apply wp_bind, wp_write_regular; [|intros w2 _; apply wp_ret; by left].
  intros w2 H2. change (negb (0 =? 0)) with false. cbn iota. apply wp_ret. right.
  assert (file_text path "memory.max" w2 = Some (String.append (memory_text memory_bytes) newline)) as Hmt.
  { unfold file_text. fold pm. rewrite H2, lookup_insert_ne by (by apply Hne). rewrite H1. apply lookup_insert_eq. }
  split_and!; [done|done| | | |].
  - unfold file_text. fold pc. rewrite H2. apply lookup_insert_eq.
  - intros Hc0. unfold cpu_text. rewrite truncate_fits.
    2:{ case_match; [|done]. cbv zeta. rewrite !strlen_append.
        change (strlen (dec 100000)) with 6. change (strlen " ") with 1.
        unfold strlen. pose proof (dec_length (u64 (100000 * cpu_percent) / 100)). lia. }
    replace (0 <? cpu_percent) with true by lia. replace (cpu_percent <=? 100) with true by lia. cbn [andb].
    cbv zeta. rewrite wrap_small by lia. replace (100000 * cpu_percent / 100) with (1000 * cpu_percent).
    2:{ replace (100000 * cpu_percent) with (1000 * cpu_percent * 100) by lia. by rewrite Z.div_mul. }
    apply fscanf_dec; [unfold ULONG_MAX; lia|done].
  - intros file Hf Hf1 Hf2. unfold file_text. rewrite H2, lookup_insert_ne by (by apply Hne).
    rewrite H1. by rewrite lookup_insert_ne by (by apply Hne).
  - eapply wp_mono; [by apply wp_read_metrics|]. intros rm w3 [_ [[_ Hr]|Hr]] Hok; [|by rewrite Hok in Hr].
    destruct Hr as (_ & (t & b & r & Ht & Hs & Hp) & _). rewrite Hmt in Ht. injection Ht as <-.
    destruct (memory_text_parses memory_bytes EmptyString Hm) as (b' & r' & Hs' & Hp').
    rewrite append_empty_r in Hs'. apply parse_max_exact in Hp; [congruence|by eapply fscanf_s_no_space].
Qed.

Definition limited_cgroup : sim :=
  match cgroup_set_limits "/cg/db" 1048576 50 demo_cgroup with Some (_, w) => w | None => demo_cgroup end.

Lemma limited_cgroup_eq : cgroup_set_limits "/cg/db" 1048576 50 demo_cgroup = Some (NEXUS_OK, limited_cgroup).
Proof. vm_compute. reflexivity. Qed.

Lemma limits_roundtrip_witness :
  file_text "/cg/db" "cpu.max" limited_cgroup = Some (String.append "50000 100000" newline) /\
  wp (cgroup_read_metrics "/cg/db")
    (fun rm _ => rm.1 = NEXUS_OK -> m_memory_max rm.2 = 1048576) limited_cgroup.
Proof.
  pose proof (limits_roundtrip "/cg/db" 1048576 50 demo_cgroup ltac:(discriminate) ltac:(reflexivity)
    ltac:(unfold ULONG_MAX; lia) ltac:(lia)) as H.
  unfold wp at 1 in H. rewrite limited_cgroup_eq in H.
  destruct H as [H|(_ & _ & Hc & _ & _ & Hr)]; [discriminate H|]. split; [exact Hc|exact Hr].
Defined.

(** C29: Live cgroups are never removed.  Destroying a cgroup returns and gives
    back its streams.  [NEXUS_ERR_STATE] means that no file or directory was
    touched; only success removes the directory, and after success it is gone;
    no other directory ever changes.  When [cgroup.procs] can be read and lists
    processes, the answer is [NEXUS_ERR_STATE] exactly if one of them still
    exists. *)
Theorem destroy_spares_live {W} `{!Os W, !Usage W, !OsLaws W, !FsView W, !FsLaws W} path (w : W) :
  path <> ""%string ->
  wp (cgroup_destroy path) (fun rc w' =>
    use w' = use w /\
    (rc = NEXUS_OK /\ dirs (fs w') = dirs (fs w) ∖ {[path]} \/
     rc = NEXUS_ERR_STATE /\ fs w' = fs w \/
     rc = NEXUS_ERR_PROCESS /\ dirs (fs w') = dirs (fs w)) /\
    (forall f pids w1, os_fopen_r (procs_path path) w = (Some (f, pids_text pids), w1) ->
       Forall pid_ok pids -> (forall p, proc_exists w1 p = proc_exists w p) ->
       (rc = NEXUS_ERR_STATE <-> Exists (fun p => proc_exists w p = true) pids))) w.
Proof.
  intros Hpath. eapply wp_mono; [apply wp_and; [apply cgroup_destroy_steady, steady_refl|]|
    cbv beta; intros rc w' [[Hu _] HQ]; split; [exact Hu|exact HQ]].
  unfold cgroup_destroy. destruct (String.eqb_spec path ""); [done|].
  apply wp_bind, wp_procs_has_live. intros live w1 Hd Hsame Hlive. destruct live.
  { apply wp_ret. split; [right; left; auto|]. intros f pids w2 E2 Hok Hpe. by rewrite <- (Hlive f pids w2). }
  set (Q := fun (rc : Z) (w' : W) => _).
  assert (forall rc w', rc <> NEXUS_ERR_STATE ->
    (rc = NEXUS_OK /\ dirs (fs w') = dirs (fs w) ∖ {[path]} \/
     rc = NEXUS_ERR_PROCESS /\ dirs (fs w') = dirs (fs w)) -> Q rc w') as HQ.
  { intros rc w' Hne Hrc. split; [destruct Hrc; auto|]. intros f pids w2 E2 Hok Hpe.
    rewrite <- (Hlive f pids w2 E2 Hok Hpe). by split. }
  assert (forall v, path ∉ dirs v -> dirs v = dirs v ∖ {[path]}) as Habs by (intros v Hv; set_solver).
  apply wp_bind, wp_remove_all. intros w2 H2. apply wp_bind, wp_call. intros r w3 E3.
  apply fs_rmdir in E3. destruct r as [[]|e].
  - apply wp_ret, HQ; [done|]. left. split; [done|]. congruence.
  - destruct E3 as [H3 He]. destruct (e =? ENOENT) eqn:Ee; zb.
    + apply wp_ret, HQ; [done|]. left. split; [done|]. rewrite H3, (Habs _ (He Ee)). congruence.
    + apply wp_bind, wp_call. intros st w4 E4. apply fs_stat in E4 as (Hf & _ & Hgone).
      destruct st as [b|e']; [apply wp_ret, HQ; [done|right; split; [done|congruence]]|].
      destruct (e' =? ENOENT) eqn:Ee'; zb; apply wp_ret, HQ; try done.
      * left. split; [done|]. subst e'. rewrite Hf, (Habs _ (Hgone eq_refl)). congruence.
      * right. split; [done|]. congruence.
Qed.

(** The foreign process 7 is listed in the cgroup: it is not removed. *)
Definition live_cgroup : sim :=
  with_fs (MkFs {["/"; "/cg"; "/cg/db"]} {["/cg/db/cgroup.procs" := pids_text [4; 7]]}) (boot []).

Definition destroy_after : sim :=
  match cgroup_destroy "/cg/db" live_cgroup with Some (_, w) => w | None => live_cgroup end.

Lemma destroy_run_eq : cgroup_destroy "/cg/db" live_cgroup = Some (NEXUS_ERR_STATE, destroy_after).
Proof. vm_compute. reflexivity. Qed.

Lemma destroy_spares_live_witness : fs destroy_after = fs live_cgroup.
Proof.
  pose proof (destroy_spares_live "/cg/db" live_cgroup ltac:(discriminate)) as H.
  unfold wp in H. rewrite destroy_run_eq in H.
  destruct H as (_ & [[H _]|[[_ H]|[H _]]] & _); [discriminate H|exact H|discriminate H].
Defined.

(** A cgroup is created inside the root, or the error says why not.  Success
    means a valid name (no separator, not ["."] or [".."]), the untruncated path
    [root/name] in the caller's buffer, the root resolved as before or from the
    environment, and both directories there afterwards; no other directory
    changes, whatever the result, and nothing but directories is touched. *)
Theorem create_inside_root {W} `{!Os W, !Usage W, !OsLaws W, !FsView W, !FsLaws W} g name len (w : W) :
  wp (cgroup_create g name len) (fun r w' =>
    let '(rc, out, g') := r in
    use w' = use w /\ text (fs w') = text (fs w) /\ dirs (fs w) ⊆ dirs (fs w') /\
    (g <> ""%string -> g' = g) /\
    match rc with
    | 0 => exists nm, name = Some nm /\ cgroup_name_valid name = true /\ out = Some (join_path g' nm) /\
        strlen (join_path g' nm) < len /\ dirs (fs w') = {[g'; join_path g' nm]} ∪ dirs (fs w)
    | _ => rc = NEXUS_ERR_INVALID \/ rc = NEXUS_ERR_PROCESS
    end) w.
Proof.
  set (Q := fun (r : Z * option string * string) (w' : W) => _).
  assert (wp (cgroup_create g name len) (fun r w' => use w' = use w -> Q r w') w) as Hfs.
  2:{ eapply wp_mono; [apply wp_and; [apply cgroup_create_steady, steady_refl|exact Hfs]|].
      cbv beta. intros r w' [[Hu _] HQ]. auto. }
  unfold cgroup_create. destruct name as [nm|]; [|apply wp_ret; intros Hu; unfold Q; split_and!; auto; set_solver].
  destruct (negb _ || _) eqn:Ev; [apply wp_ret; intros Hu; unfold Q; split_and!; auto; set_solver|]. zb.
  apply wp_bind, wp_get_root. intros g' w1 H1 Hg.
  apply wp_bind, wp_mkdir_usable. intros r w2 Hr Ht2 Hd2 Hs2. rewrite H1 in *.
  destruct Hr as [->| ->]; cbn [negb Z.eqb].
  2:{ apply wp_ret. intros Hu. pose proof (Hs2 eq_refl) as Hs. unfold Q.
      split_and!; [exact Hu|by rewrite Hs|by rewrite Hs|exact Hg|by right]. }
  specialize (Hd2 eq_refl). clear Hs2. unfold snprintf.
  destruct (_ || _) eqn:El.
  { apply wp_ret. intros Hu. unfold Q.
    split_and!; [exact Hu|congruence|rewrite Hd2; set_solver|exact Hg|by left]. }
  zb. rewrite truncate_fits by done. apply wp_bind, wp_mkdir_usable. intros r w3 Hr Ht3 Hd3 Hs3.
  apply wp_ret. intros Hu. unfold Q. destruct Hr as [->| ->]; cbn [negb Z.eqb].
  - specialize (Hd3 eq_refl). split_and!; [done|congruence|rewrite Hd3, Hd2; set_solver|done|].
    exists nm. split_and!; [done|done|done|done|]. rewrite Hd3, Hd2. set_solver.
  - pose proof (Hs3 eq_refl) as Hs.
    split_and!; [exact Hu|congruence|rewrite Hs, Hd2; set_solver|exact Hg|by right].
Qed.

Definition create_after : sim :=
  match cgroup_create "" (Some "db"%string) 256 (boot []) with Some (_, w) => w | None => boot [] end.

Lemma create_run_eq : cgroup_create "" (Some "db"%string) 256 (boot []) =
  Some ((0, Some "/cg/db"%string, "/cg"%string), create_after).
Proof. vm_compute. reflexivity. Qed.

Lemma create_inside_root_witness :
  exists nm, Some "db"%string = Some nm /\ cgroup_name_valid (Some "db"%string) = true /\
    Some "/cg/db"%string = Some (join_path "/cg" nm) /\ strlen (join_path "/cg" nm) < 256 /\
    dirs (fs create_after) = {["/cg"; join_path "/cg" nm]} ∪ dirs (fs (boot [])).
Proof.
  pose proof (create_inside_root "" (Some "db"%string) 256 (boot [])) as H.
  unfold wp in H. rewrite create_run_eq in H. destruct H as (_ & _ & _ & _ & H). exact H.
Defined.
