(* ===== verification/Namespace.v ===== *)
(** * Linux namespaces

    [src/container/namespace.c], the POSIX build: from a configuration to the
    [CLONE_NEW*] mask, and the set-up a child makes inside its namespaces. *)

From stdpp Require Import gmap.
From S2P Require Import Prelude Bytes CStr Common Os.

Open Scope Z_scope.

(** The flags are C [int]s; [hostname] may be NULL. *)
Record nexus_namespace_config := MkNs {
  isolate_pid : Z; isolate_mount : Z; isolate_net : Z; isolate_uts : Z; isolate_ipc : Z;
  hostname : option string }.

Definition CLONE_NEWNS : Z := 0x20000.
Definition CLONE_NEWUTS : Z := 0x4000000.
Definition CLONE_NEWIPC : Z := 0x8000000.
Definition CLONE_NEWPID : Z := 0x20000000.
Definition CLONE_NEWNET : Z := 0x40000000.

Definition namespace_config_default (container_name : option string) : nexus_namespace_config :=
  MkNs 1 1 1 1 1 container_name.

(** [if (isolate) flags |= flag;] *)
Definition add_flag (isolate flag flags : Z) : Z := if negb (isolate =? 0) then Z.lor flags flag else flags.

Definition namespace_clone_flags (cfg : option nexus_namespace_config) : Z :=
  match cfg with
  | None => 0
  | Some cfg =>
      let flags := 0 in
      let flags := add_flag (isolate_pid cfg) CLONE_NEWPID flags in
      let flags := add_flag (isolate_mount cfg) CLONE_NEWNS flags in
      let flags := add_flag (isolate_net cfg) CLONE_NEWNET flags in
      let flags := add_flag (isolate_uts cfg) CLONE_NEWUTS flags in
      add_flag (isolate_ipc cfg) CLONE_NEWIPC flags
  end.

Section namespace.
Context {W : Type} `{Os W}.

(** The code returned and the [errno] of the call that failed (0 for none). *)
Definition namespace_configure_child (cfg : option nexus_namespace_config) : M W (Z * Z) :=
  match cfg with
  | None => mret (NEXUS_OK, 0)
  | Some cfg =>
      h ← match hostname cfg with
          | Some (String c r) =>
              if negb (isolate_uts cfg =? 0)
              then call (os_sethostname (String c r) (strlen (String c r))) else mret (ok_ tt)
          | _ => mret (ok_ tt)
          end;
      match h with
      | fail_ e => mret (NEXUS_ERR_PROCESS, e)
      | ok_ _ =>
          m ← (if negb (isolate_mount cfg =? 0) then call os_mount_private else mret (ok_ tt));
          match m with
          | fail_ e => mret (NEXUS_ERR_PROCESS, e)
          | ok_ _ => mret (NEXUS_OK, 0)
          end
      end
  end.

Definition namespace_apply (cfg : option nexus_namespace_config) : M W Z :=
  match cfg with
  | None => mret NEXUS_ERR_INVALID
  | Some _ =>
      let flags := namespace_clone_flags cfg in
      u ← (if negb (flags =? 0) then call (os_unshare flags) else mret (ok_ tt));
      match u with
      | fail_ _ => mret NEXUS_ERR_PROCESS
      | ok_ _ => r ← namespace_configure_child cfg; mret r.1
      end
  end.
End namespace.

(** The mask asks for exactly the namespaces requested. *)
Lemma clone_flags_bits cfg :
  let f := namespace_clone_flags (Some cfg) in
  Z.testbit f 29 = negb (isolate_pid cfg =? 0) /\
  Z.testbit f 17 = negb (isolate_mount cfg =? 0) /\
  Z.testbit f 30 = negb (isolate_net cfg =? 0) /\
  Z.testbit f 26 = negb (isolate_uts cfg =? 0) /\
  Z.testbit f 27 = negb (isolate_ipc cfg =? 0).
Proof.
  unfold namespace_clone_flags, add_flag. cbv zeta.
  by destruct (isolate_pid cfg =? 0), (isolate_mount cfg =? 0), (isolate_net cfg =? 0),
    (isolate_uts cfg =? 0), (isolate_ipc cfg =? 0).
Qed.

Lemma clone_flags_zero cfg :
  namespace_clone_flags (Some cfg) = 0 <->
  isolate_pid cfg = 0 /\ isolate_mount cfg = 0 /\ isolate_net cfg = 0 /\ isolate_uts cfg = 0 /\ isolate_ipc cfg = 0.
Proof.
  unfold namespace_clone_flags, add_flag. cbv zeta.
  destruct (isolate_pid cfg =? 0) eqn:?, (isolate_mount cfg =? 0) eqn:?, (isolate_net cfg =? 0) eqn:?,
    (isolate_uts cfg =? 0) eqn:?, (isolate_ipc cfg =? 0) eqn:?; zb; cbn [negb]; (split; [intros Hz|intros]); try done; try lia.
Qed.
