(* ===== verification/Container.v ===== *)
(** * The container registry

    [src/container/container.c], the POSIX build: 64 slots, the lifecycle
    operations and the read-only queries.  The static variables [g_slots],
    [g_next_id] and the cgroup root are the [registry], threaded through every
    operation; a slot that is not [in_use] is [None].  [fuel] is the bound of
    [Process]. *)

From stdpp Require Import gmap.
From S2P Require Import Prelude Bytes CStr Common Double Telemetry Os Sim Process Cgroup Namespace.

Open Scope Z_scope.

(** ** Data *)

Inductive nexus_state := NEXUS_CREATED | NEXUS_RUNNING | NEXUS_STOPPED | NEXUS_DELETED.

#[export] Instance nexus_state_eq_dec : EqDecision nexus_state.
Proof. solve_decision. Defined.

Record nexus_container := MkContainer {
  c_name : string; c_id : string; c_state : nexus_state; c_pid : Z;
  c_memory_bytes : Z; c_cpu_percent : Z; c_cgroup_path : string; c_db_engine : string;
  c_created_at : Z;
  c_ns_pid : Z; c_ns_mount : Z; c_ns_net : Z; c_ns_uts : Z; c_ns_ipc : Z; c_ns_hostname : string }.

Definition NEXUS_MAX_CONTAINERS : Z := 64.

Record registry := MkRegistry { g_slots : list (option nexus_container); g_next_id : Z; g_root : string }.

(** The static initialisation. *)
Definition empty_registry : registry :=
  MkRegistry (replicate (Z.to_nat NEXUS_MAX_CONTAINERS) None) 1 "".

Definition with_pid (p : Z) (c : nexus_container) : nexus_container :=
  MkContainer (c_name c) (c_id c) (c_state c) p (c_memory_bytes c) (c_cpu_percent c) (c_cgroup_path c)
    (c_db_engine c) (c_created_at c) (c_ns_pid c) (c_ns_mount c) (c_ns_net c) (c_ns_uts c) (c_ns_ipc c)
    (c_ns_hostname c).
Definition with_state (s : nexus_state) (c : nexus_container) : nexus_container :=
  MkContainer (c_name c) (c_id c) s (c_pid c) (c_memory_bytes c) (c_cpu_percent c) (c_cgroup_path c)
    (c_db_engine c) (c_created_at c) (c_ns_pid c) (c_ns_mount c) (c_ns_net c) (c_ns_uts c) (c_ns_ipc c)
    (c_ns_hostname c).
Definition set_slot (i : nat) (c : nexus_container) (r : registry) : registry :=
  MkRegistry (<[i := Some c]> (g_slots r)) (g_next_id r) (g_root r).
Definition set_root (g : string) (r : registry) : registry := MkRegistry (g_slots r) (g_next_id r) g.

(** ** Validation and lookup *)

Definition name_valid (name : option string) : bool :=
  match name with
  | None => false
  | Some name =>
      let n := strlen name in
      if (n =? 0) || (NEXUS_NAME_MAX <=? n) then false
      else all_chars (fun ch => isalnum ch || (code_of ch =? 95) || (code_of ch =? 45)) name
  end.

(** The first slot, in order, that satisfies [P]. *)
Fixpoint first_slot (P : option nexus_container -> bool) (l : list (option nexus_container)) : option nat :=
  match l with
  | [] => None
  | x :: l => if P x then Some O else S <$> first_slot P l
  end.

Definition has_name (name : string) (s : option nexus_container) : bool :=
  match s with Some c => (c_name c =? name)%string | None => false end.
Definition is_free (s : option nexus_container) : bool := match s with Some _ => false | None => true end.

Definition find_slot (r : registry) (name : string) : option (nat * nexus_container) :=
  match first_slot (has_name name) (g_slots r) with
  | Some i => match g_slots r !! i with Some (Some c) => Some (i, c) | _ => None end
  | None => None
  end.
Definition free_slot (r : registry) : option nat := first_slot is_free (g_slots r).

Definition container_get (r : registry) (name : option string) : option nexus_container :=
  match name with Some name => snd <$> find_slot r name | None => None end.

Definition container_state_str (s : nexus_state) : string :=
  match s with
  | NEXUS_CREATED => "CREATED" | NEXUS_RUNNING => "RUNNING"
  | NEXUS_STOPPED => "STOPPED" | NEXUS_DELETED => "DELETED"
  end.

Definition container_strerror (rc : Z) : string :=
  if rc =? NEXUS_OK then "ok"
  else if rc =? NEXUS_ERR_INVALID then "invalid argument"
  else if rc =? NEXUS_ERR_NOT_FOUND then "container not found"
  else if rc =? NEXUS_ERR_EXISTS then "container already exists"
  else if rc =? NEXUS_ERR_STATE then "illegal state for this operation"
  else if rc =? NEXUS_ERR_NOMEM then "container registry full"
  else if rc =? NEXUS_ERR_PROCESS then "child process operation failed"
  else if rc =? NEXUS_ERR_UNSUPPORTED then "not supported on this platform"
  else "unknown error".

(** ["nx-%06lu"] into [char id[NEXUS_ID_MAX]] *)
Definition make_id (n : Z) : string := truncate NEXUS_ID_MAX (String.append "nx-" (dec06 n)).

Definition too_long (s : option string) (max : Z) : bool :=
  match s with Some s => max <=? strlen s | None => false end.
Definition copy_string (max : Z) (s : option string) : string :=
  match s with Some s => truncate max s | None => EmptyString end.
Definition flag (v : Z) : Z := if negb (v =? 0) then 1 else 0.

(** [find_slot], else [free_slot]. *)
Definition slot_for (r : registry) (name : string) : option nat :=
  match find_slot r name with Some (i, _) => Some i | None => free_slot r end.

(** ** The lifecycle *)

Section container.
Context {W : Type} `{Os W}.
Variable fuel : nat.

Definition container_create_ex (r : registry) (name : option string) (memory_bytes cpu_percent : Z)
    (db_engine : option string) (namespaces : option nexus_namespace_config) : M W (Z * registry) :=
  match name with
  | Some nm =>
      if negb (name_valid name) then mret (NEXUS_ERR_INVALID, r)
      else if 100 <? cpu_percent then mret (NEXUS_ERR_INVALID, r)
      else if too_long db_engine NEXUS_PATH_MAX then mret (NEXUS_ERR_INVALID, r)
      else if match namespaces with Some ns => too_long (hostname ns) NEXUS_NAME_MAX | None => false end
      then mret (NEXUS_ERR_INVALID, r)
      else if match find_slot r nm with
              | Some (_, dup) => negb (bool_decide (c_state dup = NEXUS_DELETED)) | None => false end
      then mret (NEXUS_ERR_EXISTS, r)
      else
        match slot_for r nm with
        | None => mret (NEXUS_ERR_NOMEM, r)
        | Some i =>
            ig ← cgroup_init (g_root r) None;
            cr ← cgroup_create ig.2 name NEXUS_PATH_MAX;
            let '(rc, path, g) := cr in
            let r := set_root g r in
            let tmp_path := default EmptyString path in
            if negb (rc =? NEXUS_OK) then mret (rc, r)
            else
              rc ← cgroup_set_limits tmp_path memory_bytes cpu_percent;
              if negb (rc =? NEXUS_OK) then (_ ← cgroup_destroy tmp_path; mret (rc, r))
              else
                now ← call os_time;
                let fl f := match namespaces with Some ns => flag (f ns) | None => 0 end in
                let c := MkContainer (truncate NEXUS_NAME_MAX nm) (make_id (g_next_id r)) NEXUS_CREATED (-1)
                  memory_bytes cpu_percent (truncate NEXUS_PATH_MAX tmp_path)
                  (copy_string NEXUS_PATH_MAX db_engine) now
                  (fl isolate_pid) (fl isolate_mount) (fl isolate_net) (fl isolate_uts) (fl isolate_ipc)
                  match namespaces with Some ns => copy_string NEXUS_NAME_MAX (hostname ns) | None => "" end in
                mret (NEXUS_OK, set_slot i c (MkRegistry (g_slots r) (u64 (g_next_id r + 1)) (g_root r)))
        end
  | None => mret (NEXUS_ERR_INVALID, r)
  end.

Definition container_create (r : registry) (name : option string) (memory_bytes cpu_percent : Z)
    (db_engine : option string) : M W (Z * registry) :=
  container_create_ex r name memory_bytes cpu_percent db_engine None.

(** The enumerator of an [int] in range. *)
Definition state_of_int (s : Z) : option nexus_state :=
  match s with
  | 0 => Some NEXUS_CREATED | 1 => Some NEXUS_RUNNING | 2 => Some NEXUS_STOPPED | 3 => Some NEXUS_DELETED
  | _ => None
  end.

Definition container_adopt (r : registry) (name id : option string) (memory_bytes cpu_percent : Z)
    (db_engine cgroup_path : option string) (pid state : Z) : M W (Z * registry) :=
  match name, state_of_int state with
  | Some nm, Some st =>
      if negb (name_valid name) then mret (NEXUS_ERR_INVALID, r)
      else if 100 <? cpu_percent then mret (NEXUS_ERR_INVALID, r)
      else if too_long id NEXUS_ID_MAX then mret (NEXUS_ERR_INVALID, r)
      else if too_long db_engine NEXUS_PATH_MAX then mret (NEXUS_ERR_INVALID, r)
      else if too_long cgroup_path NEXUS_PATH_MAX then mret (NEXUS_ERR_INVALID, r)
      else
        match slot_for r nm with
        | None => mret (NEXUS_ERR_NOMEM, r)
        | Some i =>
            now ← call os_time;
            mret (NEXUS_OK, set_slot i
              (MkContainer (truncate NEXUS_NAME_MAX nm) (copy_string NEXUS_ID_MAX id) st pid
                 memory_bytes cpu_percent (copy_string NEXUS_PATH_MAX cgroup_path)
                 (copy_string NEXUS_PATH_MAX db_engine) now 0 0 0 0 0 "") r)
        end
  | _, _ => mret (NEXUS_ERR_INVALID, r)
  end.

Definition container_ns_requested (c : nexus_container) : bool :=
  negb (c_ns_pid c =? 0) || negb (c_ns_mount c =? 0) || negb (c_ns_net c =? 0) ||
  negb (c_ns_uts c =? 0) || negb (c_ns_ipc c =? 0).

Definition container_ns_config (c : nexus_container) : nexus_namespace_config :=
  MkNs (c_ns_pid c) (c_ns_mount c) (c_ns_net c) (c_ns_uts c) (c_ns_ipc c)
    (if (c_ns_hostname c =? "")%string then None else Some (c_ns_hostname c)).

Definition ns_child_prepare (cfg : option nexus_namespace_config) : M W Z :=
  r ← namespace_configure_child cfg;
  mret (if negb (r.1 =? NEXUS_OK) then (if negb (r.2 =? 0) then r.2 else EPERM) else 0).

Definition NEXUS_DATA_ROOT_ENV : string := "NEXUSDB_DATA_ROOT".
Definition NEXUS_DATA_ROOT_DEFAULT : string := "nexusdb_data".

(** [None] when the derived path would not fit. *)
Definition workload_spec (c : nexus_container) (data_dir_len argv_cap : Z) : M W (option process_exec) :=
  if (c_db_engine c =? "")%string
  then mret (Some (MkExec (Some "sleep"%string) (Some ["sleep"; "3600"]%string) None))
  else
    env ← call (os_getenv NEXUS_DATA_ROOT_ENV);
    let root := match env with Some (String ch s) => String ch s | _ => NEXUS_DATA_ROOT_DEFAULT end in
    let '(data_dir, n) := snprintf data_dir_len (join_path root (c_name c)) in
    if data_dir_len <=? n then mret None
    else if argv_cap <? 4 then mret None
    else mret (Some (MkExec (Some (c_db_engine c)) (Some [c_db_engine c; "--data-dir"%string; data_dir]) None)).

Definition workload_spawn (spec : process_exec) (gc : option (process_gate_config W))
    : M W (Z * process_gate) :=
  r ← process_spawn_gated fuel (Some spec) gc;
  mret (match r.1 with ok_ pid => pid | fail_ _ => -1 end, r.2).

Definition workload_release (gate : process_gate) : M W Z :=
  r ← process_gate_release fuel gate;
  mret (match r.1 with ok_ pid => if 0 <? pid then 0 else -1 | fail_ _ => -1 end).

Definition workload_kill (gate : process_gate) : M W unit := _ ← process_gate_abort fuel gate; mret tt.

Definition container_start (r : registry) (name : option string) : M W (Z * registry) :=
  match name with
  | Some nm =>
      if negb (name_valid name) then mret (NEXUS_ERR_INVALID, r)
      else
        match find_slot r nm with
        | None => mret (NEXUS_ERR_NOT_FOUND, r)
        | Some (i, c) =>
            if negb (bool_decide (c_state c = NEXUS_CREATED)) && negb (bool_decide (c_state c = NEXUS_STOPPED))
            then mret (NEXUS_ERR_STATE, r)
            else
              alive ← (if negb (c_pid c =? -1) then process_is_alive (c_pid c) else mret false);
              if alive : bool then mret (NEXUS_ERR_STATE, r)
              else
                let ns := container_ns_config c in
                let gcp := if container_ns_requested c
                  then Some (MkGateConfig (namespace_clone_flags (Some ns)) (Some (ns_child_prepare (Some ns))))
                  else None in
                spec ← workload_spec c NEXUS_PATH_MAX 4;
                match spec with
                | None => mret (NEXUS_ERR_INVALID, r)
                | Some spec =>
                    s ← workload_spawn spec gcp;
                    let '(pid, gate) := s in
                    if pid <=? 0 then mret (NEXUS_ERR_PROCESS, r)
                    else
                      a ← cgroup_attach (c_cgroup_path c) pid;
                      if negb (a =? NEXUS_OK) then
                        _ ← workload_kill gate; mret (NEXUS_ERR_PROCESS, set_slot i (with_pid (-1) c) r)
                      else
                        rel ← workload_release gate;
                        if negb (rel =? 0) then mret (NEXUS_ERR_PROCESS, set_slot i (with_pid (-1) c) r)
                        else mret (NEXUS_OK, set_slot i (with_state NEXUS_RUNNING (with_pid pid c)) r)
                end
        end
  | None => mret (NEXUS_ERR_INVALID, r)
  end.

Definition container_stop (r : registry) (name : option string) : M W (Z * registry) :=
  match name with
  | Some nm =>
      if negb (name_valid name) then mret (NEXUS_ERR_INVALID, r)
      else
        match find_slot r nm with
        | None => mret (NEXUS_ERR_NOT_FOUND, r)
        | Some (i, c) =>
            if negb (bool_decide (c_state c = NEXUS_RUNNING)) then mret (NEXUS_ERR_STATE, r)
            else if negb (c_pid c =? -1) then
              p ← process_stop (c_pid c);
              if negb (p =? 0) then mret (NEXUS_ERR_PROCESS, r)
              else mret (NEXUS_OK, set_slot i (with_state NEXUS_STOPPED (with_pid (-1) c)) r)
            else mret (NEXUS_OK, set_slot i (with_state NEXUS_STOPPED c) r)
        end
  | None => mret (NEXUS_ERR_INVALID, r)
  end.

Definition container_delete (r : registry) (name : option string) : M W (Z * registry) :=
  match name with
  | Some nm =>
      if negb (name_valid name) then mret (NEXUS_ERR_INVALID, r)
      else
        match find_slot r nm with
        | None => mret (NEXUS_ERR_NOT_FOUND, r)
        | Some (i, c) =>
            if bool_decide (c_state c = NEXUS_RUNNING) then mret (NEXUS_ERR_STATE, r)
            else if bool_decide (c_state c = NEXUS_DELETED) then mret (NEXUS_ERR_STATE, r)
            else
              c ← (if negb (c_pid c =? -1) then
                     alive ← process_is_alive (c_pid c);
                     _ ← (if alive : bool then process_stop (c_pid c) else mret 0);
                     mret (with_pid (-1) c)
                   else mret c);
              let r := set_slot i c r in
              d ← cgroup_destroy (c_cgroup_path c);
              if negb (d =? NEXUS_OK) then mret (NEXUS_ERR_PROCESS, r)
              else mret (NEXUS_OK, set_slot i (with_state NEXUS_DELETED c) r)
        end
  | None => mret (NEXUS_ERR_INVALID, r)
  end.

(** ** Queries *)

Definition container_metrics (r : registry) (name : option string) : M W (Z * option nexus_cgroup_metrics) :=
  match name with
  | Some nm =>
      if negb (name_valid name) then mret (NEXUS_ERR_INVALID, None)
      else
        match find_slot r nm with
        | None => mret (NEXUS_ERR_NOT_FOUND, None)
        | Some (_, c) =>
            if bool_decide (c_state c = NEXUS_DELETED) then mret (NEXUS_ERR_STATE, None)
            else m ← cgroup_read_metrics (c_cgroup_path c); mret (m.1, Some m.2)
        end
  | None => mret (NEXUS_ERR_INVALID, None)
  end.
End container.

Definition status_text (c : nexus_container) : string :=
  foldr String.append EmptyString
    ["Container: "%string; c_name c; newline; "ID: "%string; c_id c; newline;
     "State: "%string; container_state_str (c_state c); newline;
     "PID: "%string; dec_signed (c_pid c); newline;
     "Memory limit: "%string; dec (c_memory_bytes c); " bytes"%string; newline;
     "CPU limit: "%string; dec (c_cpu_percent c); "%"%string; newline;
     "Cgroup: "%string; c_cgroup_path c; newline;
     "DB engine: "%string; (if (c_db_engine c =? "")%string then "(none configured)"%string else c_db_engine c);
     newline].

(** The code and what the buffer of [buflen] bytes holds, when it is written. *)
Definition container_status (r : registry) (name : option string) (buflen : Z) : Z * option string :=
  match name with
  | Some nm =>
      if negb (name_valid name) || (buflen =? 0) then (NEXUS_ERR_INVALID, None)
      else
        match find_slot r nm with
        | None => (NEXUS_ERR_NOT_FOUND, None)
        | Some (_, c) =>
            let '(buf, n) := snprintf buflen (status_text c) in
            if (n <? 0) || (buflen <=? n) then (NEXUS_ERR_INVALID, Some buf) else (NEXUS_OK, Some buf)
        end
  | None => (NEXUS_ERR_INVALID, None)
  end.
