(* ===== verification/ContainerSpec.v ===== *)
(** * What the container registry promises

    The abstract view of [Container]: a map from names to containers whose
    lifecycle is the state machine [life], and the ownership of processes
    [tracks].  The theorems show that the slots implement the map and that every
    operation is a step of the machine. *)

From stdpp Require Import gmap.
From S2P Require Import Prelude Bytes CStr Common Double Telemetry Os Sim Process Cgroup Namespace Container.

Open Scope Z_scope.

(** ** Operations *)

Inductive cop :=
  | OpCreate (name : option string) (memory_bytes cpu_percent : Z) (db_engine : option string)
      (namespaces : option nexus_namespace_config)
  | OpAdopt (name id : option string) (memory_bytes cpu_percent : Z)
      (db_engine cgroup_path : option string) (pid state : Z)
  | OpStart (name : option string)
  | OpStop (name : option string)
  | OpDelete (name : option string).

Definition cop_name (op : cop) : option string :=
  match op with
  | OpCreate n _ _ _ _ | OpAdopt n _ _ _ _ _ _ _ | OpStart n | OpStop n | OpDelete n => n
  end.

Definition run_cop {W} `{Os W} (fuel : nat) (op : cop) (r : registry) : M W (Z * registry) :=
  match op with
  | OpCreate n m c e ns => container_create_ex r n m c e ns
  | OpAdopt n i m c e p pid st => container_adopt r n i m c e p pid st
  | OpStart n => container_start fuel r n
  | OpStop n => container_stop r n
  | OpDelete n => container_delete r n
  end.

(** The arguments have their C types. *)
Definition cop_typed (op : cop) : Prop :=
  match op with
  | OpCreate _ m c _ _ | OpAdopt _ _ m c _ _ _ _ => 0 <= m <= ULONG_MAX /\ 0 <= c < 2 ^ 32
  | _ => True
  end.

(** ** Well-formed registries *)

Definition container_ok (c : nexus_container) : Prop :=
  name_valid (Some (c_name c)) = true /\ strlen (c_id c) < NEXUS_ID_MAX /\
  0 <= c_memory_bytes c <= ULONG_MAX /\ 0 <= c_cpu_percent c <= 100 /\
  strlen (c_cgroup_path c) < NEXUS_PATH_MAX /\ strlen (c_db_engine c) < NEXUS_PATH_MAX /\
  strlen (c_ns_hostname c) < NEXUS_NAME_MAX.

Definition slot_has (r : registry) (i : nat) (c : nexus_container) : Prop := g_slots r !! i = Some (Some c).

Record reg_ok (r : registry) : Prop := {
  slots_len : length (g_slots r) = 64%nat;
  names_unique i j c d : slot_has r i c -> slot_has r j d -> c_name c = c_name d -> i = j;
  slots_valid i c : slot_has r i c -> container_ok c;
  next_id_ok : 0 <= g_next_id r <= ULONG_MAX }.

(** The container of a name. *)
Definition lookup_c (r : registry) (name : string) : option nexus_container := snd <$> find_slot r name.

(** ** The lifecycle

    [life op before rc after]: what the operation may answer for the container it
    names, and what becomes of it. *)

Definition created (m c : Z) (e : option string) (n : string) (d : nexus_container) : Prop :=
  c_name d = n /\ c_state d = NEXUS_CREATED /\ c_pid d = -1 /\ c_memory_bytes d = m /\
  c_cpu_percent d = c /\ c_db_engine d = default EmptyString e.

Inductive life : cop -> option nexus_container -> Z -> option nexus_container -> Prop :=
  | life_create_ok n m c e ns before d :
      (forall o, before = Some o -> c_state o = NEXUS_DELETED) -> created m c e n d ->
      life (OpCreate (Some n) m c e ns) before NEXUS_OK (Some d)
  | life_create_exists n m c e ns d :
      c_state d <> NEXUS_DELETED ->
      life (OpCreate (Some n) m c e ns) (Some d) NEXUS_ERR_EXISTS (Some d)
  | life_create_failed n m c e ns before rc :
      rc = NEXUS_ERR_INVALID \/ rc = NEXUS_ERR_PROCESS \/ (rc = NEXUS_ERR_NOMEM /\ before = None) ->
      life (OpCreate (Some n) m c e ns) before rc before
  | life_adopt_ok n i m c e p pid st before d s :
      state_of_int st = Some s -> c_name d = n -> c_state d = s -> c_pid d = pid ->
      c_memory_bytes d = m -> c_cpu_percent d = c -> c_db_engine d = default EmptyString e ->
      c_cgroup_path d = default EmptyString p -> c_id d = default EmptyString i ->
      life (OpAdopt (Some n) i m c e p pid st) before NEXUS_OK (Some d)
  | life_adopt_failed n i m c e p pid st before rc :
      rc = NEXUS_ERR_INVALID \/ (rc = NEXUS_ERR_NOMEM /\ before = None) ->
      life (OpAdopt (Some n) i m c e p pid st) before rc before
  | life_missing op :
      (exists n, op = OpStart n \/ op = OpStop n \/ op = OpDelete n) ->
      life op None NEXUS_ERR_NOT_FOUND None
  | life_bad_name op before :
      (exists n, (op = OpStart n \/ op = OpStop n \/ op = OpDelete n) /\ name_valid n = false) ->
      life op before NEXUS_ERR_INVALID before
  | life_start_ok n d pid :
      c_state d = NEXUS_CREATED \/ c_state d = NEXUS_STOPPED -> 0 < pid ->
      life (OpStart n) (Some d) NEXUS_OK (Some (with_state NEXUS_RUNNING (with_pid pid d)))
  | life_start_state n d :
      c_state d = NEXUS_RUNNING \/ c_state d = NEXUS_DELETED \/ c_pid d <> -1 ->
      life (OpStart n) (Some d) NEXUS_ERR_STATE (Some d)
  | life_start_invalid n d :
      c_db_engine d <> ""%string -> life (OpStart n) (Some d) NEXUS_ERR_INVALID (Some d)
  | life_start_failed n d d' :
      c_state d = NEXUS_CREATED \/ c_state d = NEXUS_STOPPED -> d' = d \/ d' = with_pid (-1) d ->
      life (OpStart n) (Some d) NEXUS_ERR_PROCESS (Some d')
  | life_stop_ok n d :
      c_state d = NEXUS_RUNNING ->
      life (OpStop n) (Some d) NEXUS_OK (Some (with_state NEXUS_STOPPED (with_pid (-1) d)))
  | life_stop_state n d :
      c_state d <> NEXUS_RUNNING -> life (OpStop n) (Some d) NEXUS_ERR_STATE (Some d)
  | life_stop_failed n d :
      c_state d = NEXUS_RUNNING -> life (OpStop n) (Some d) NEXUS_ERR_PROCESS (Some d)
  | life_delete_ok n d :
      c_state d = NEXUS_CREATED \/ c_state d = NEXUS_STOPPED ->
      life (OpDelete n) (Some d) NEXUS_OK (Some (with_state NEXUS_DELETED (with_pid (-1) d)))
  | life_delete_state n d :
      c_state d = NEXUS_RUNNING \/ c_state d = NEXUS_DELETED ->
      life (OpDelete n) (Some d) NEXUS_ERR_STATE (Some d)
  | life_delete_failed n d :
      c_state d = NEXUS_CREATED \/ c_state d = NEXUS_STOPPED ->
      life (OpDelete n) (Some d) NEXUS_ERR_PROCESS (Some (with_pid (-1) d)).

(** ** Ownership of processes

    Since [u0], the process has gained exactly the children that are the
    workloads of its running containers. *)
Record tracks (u0 : usage) (r : registry) (u : usage) : Prop := {
  tr_fds : fds u = fds u0;
  tr_maps : maps u = maps u0;
  tr_streams : streams u = streams u0;
  tr_kids p : p ∈ kids u <-> p ∈ kids u0 \/ exists i c, slot_has r i c /\ c_state c = NEXUS_RUNNING /\ c_pid c = p;
  tr_running i c : slot_has r i c -> c_state c = NEXUS_RUNNING -> pid_ok (c_pid c) /\ c_pid c ∉ kids u0;
  tr_idle i c : slot_has r i c -> c_state c <> NEXUS_RUNNING -> c_pid c = -1;
  tr_distinct i j c d : slot_has r i c -> slot_has r j d -> c_state c = NEXUS_RUNNING ->
    c_state d = NEXUS_RUNNING -> c_pid c = c_pid d -> i = j }.

(** ** Slots and names *)

Lemma first_slot_some P l i :
  first_slot P l = Some i -> exists x, l !! i = Some x /\ P x = true.
Proof.
  revert i. induction l as [|x l IH]; intros i; cbn [first_slot]; [done|].
  destruct (P x) eqn:E; [intros [= <-]; eauto|]. destruct (first_slot P l) as [k|]; [|done].
  cbn. intros [= <-]. by apply IH.
Qed.

Lemma first_slot_none P l : first_slot P l = None -> forall i x, l !! i = Some x -> P x = false.
Proof.
  induction l as [|x l IH]; cbn [first_slot]; [done|]. destruct (P x) eqn:E; [done|].
  destruct (first_slot P l); [done|]. intros _ [|i] y; cbn; [by intros [= <-]|by apply IH].
Qed.

Lemma find_slot_some r n i c : find_slot r n = Some (i, c) -> slot_has r i c /\ c_name c = n.
Proof.
  unfold find_slot. destruct (first_slot _ _) as [k|] eqn:E; [|done].
  apply first_slot_some in E as (x & Hx & HP). rewrite Hx. destruct x as [d|]; [|done].
  intros [= <- <-]. split; [done|]. by apply String.eqb_eq in HP.
Qed.

Lemma find_slot_none r n : find_slot r n = None -> forall i c, slot_has r i c -> c_name c <> n.
Proof.
  unfold find_slot. destruct (first_slot _ _) as [k|] eqn:E.
  - apply first_slot_some in E as (x & Hx & HP). rewrite Hx. by destruct x.
  - intros _ i c Hc Hn. pose proof (first_slot_none _ _ E i (Some c) Hc) as HP. cbn in HP.
    apply String.eqb_neq in HP. done.
Qed.

Lemma lookup_c_spec r n c :
  reg_ok r -> (lookup_c r n = Some c <-> exists i, slot_has r i c /\ c_name c = n).
Proof.
  intros Hr. unfold lookup_c. split.
  - destruct (find_slot r n) as [[i d]|] eqn:E; [|done]. cbn. intros [= <-].
    apply find_slot_some in E. eauto.
  - intros (i & Hi & Hn). destruct (find_slot r n) as [[j d]|] eqn:E.
    + apply find_slot_some in E as [Hj Hd]. cbn. f_equal.
      assert (j = i) as -> by (eapply names_unique; eauto; congruence). unfold slot_has in *. congruence.
    + by destruct (find_slot_none _ _ E _ _ Hi).
Qed.

Lemma slot_set_same r i c s : g_slots r !! i = Some s -> slot_has (set_slot i c r) i c.
Proof. intros Hi. unfold slot_has. cbn. apply list_lookup_insert_eq. by eapply lookup_lt_Some. Qed.

Lemma slot_set_inv r i j c d : slot_has (set_slot i c r) j d -> (i = j /\ d = c) \/ (i <> j /\ slot_has r j d).
Proof.
  unfold slot_has. cbn. destruct (decide (i = j)) as [->|Hne].
  - destruct (decide (j < length (g_slots r))%nat) as [Hl|Hl].
    + rewrite list_lookup_insert_eq by done. intros [= <-]. by left.
    + rewrite list_insert_ge by lia. intros Hj. apply lookup_lt_Some in Hj. lia.
  - rewrite list_lookup_insert_ne by done. auto.
Qed.

Lemma slot_set_other r i j c d : i <> j -> slot_has r j d -> slot_has (set_slot i c r) j d.
Proof. intros Hne. unfold slot_has. cbn. by rewrite list_lookup_insert_ne. Qed.

(** A slot that may take the container [c]: free, with the name unused, or the
    slot of that name. *)
Definition may_take (r : registry) (i : nat) (n : string) : Prop :=
  (g_slots r !! i = Some None /\ lookup_c r n = None) \/
  (exists d, slot_has r i d /\ c_name d = n).

Lemma may_take_slot r i n : may_take r i n -> exists s, g_slots r !! i = Some s.
Proof. intros [[? _]|(d & ? & _)]; eauto. Qed.

Lemma slot_for_take r n i : reg_ok r -> slot_for r n = Some i -> may_take r i n.
Proof.
  intros Hr. unfold slot_for. destruct (find_slot r n) as [[j d]|] eqn:E.
  - intros [= ->]. apply find_slot_some in E. right. eauto.
  - unfold free_slot. intros (x & Hx & HP)%first_slot_some. left. destruct x; [done|].
    split; [done|]. unfold lookup_c. by rewrite E.
Qed.

Lemma slot_for_none r n : slot_for r n = None -> lookup_c r n = None.
Proof. unfold slot_for, lookup_c. destruct (find_slot r n) as [[j d]|]; [done|]. done. Qed.

Lemma set_slot_ok r i c :
  reg_ok r -> container_ok c -> may_take r i (c_name c) -> reg_ok (set_slot i c r).
Proof.
  intros Hr Hc Ht. assert (forall j d, slot_has r j d -> c_name d = c_name c -> j = i) as Huniq.
  { intros j d Hj Hd. destruct Ht as [[_ Hn]|(d' & Hi & Hd')].
    - assert (lookup_c r (c_name c) = Some d) as Hl by (apply lookup_c_spec; eauto). congruence.
    - eapply names_unique; eauto. congruence. }
  split; cbn.
  - rewrite length_insert. apply Hr.
  - intros j k d e Hj Hk Hde. apply slot_set_inv in Hj as [[<- ->]|[Hij Hj]], Hk as [[<- ->]|[Hik Hk]]; [done|..].
    + symmetry. by eapply Huniq.
    + by eapply Huniq.
    + by eapply names_unique.
  - intros j d Hj. apply slot_set_inv in Hj as [[<- ->]|[_ Hj]]; [done|]. by eapply slots_valid.
  - apply Hr.
Qed.

Lemma lookup_set_slot r i c m :
  reg_ok r -> container_ok c -> may_take r i (c_name c) ->
  lookup_c (set_slot i c r) m = if decide (m = c_name c) then Some c else lookup_c r m.
Proof.
  intros Hr Hc Ht. pose proof (set_slot_ok _ _ _ Hr Hc Ht) as Hr'.
  destruct (may_take_slot _ _ _ Ht) as [s Hs]. case_decide as Hm.
  - apply lookup_c_spec; [done|]. exists i. split; [by eapply slot_set_same|done].
  - apply option_eq. intros d. rewrite !lookup_c_spec by done. split.
    + intros (j & Hj & Hd). apply slot_set_inv in Hj as [[<- ->]|[_ Hj]]; [congruence|]. eauto.
    + intros (j & Hj & Hd). exists j. split; [|done]. apply slot_set_other; [|done].
      intros ->. destruct Ht as [[Hn _]|(d' & Hi & Hd')]; unfold slot_has in *; congruence.
Qed.

Lemma same_slots_ok r r' :
  g_slots r' = g_slots r -> 0 <= g_next_id r' <= ULONG_MAX -> reg_ok r -> reg_ok r'.
Proof.
  intros Hs Hn Hr. split; unfold slot_has; rewrite ?Hs; [apply Hr|..|done].
  - intros i j c d. apply (names_unique r Hr).
  - intros i c. apply (slots_valid r Hr).
Qed.

Lemma same_slots_lookup r r' n : g_slots r' = g_slots r -> lookup_c r' n = lookup_c r n.
Proof. intros Hs. unfold lookup_c, find_slot. by rewrite Hs. Qed.

Lemma same_slots_tracks u0 r r' u : g_slots r' = g_slots r -> tracks u0 r u -> tracks u0 r' u.
Proof. intros Hs []. split; unfold slot_has in *; rewrite ?Hs; auto. Qed.

(** *** Processes *)

(** What the slot [i] held before is not a running container. *)
Definition slot_idle (r : registry) (i : nat) : Prop :=
  forall c, slot_has r i c -> c_state c <> NEXUS_RUNNING.

Lemma tracks_idle u0 r u i c s :
  tracks u0 r u -> g_slots r !! i = Some s -> slot_idle r i -> c_state c <> NEXUS_RUNNING -> c_pid c = -1 ->
  tracks u0 (set_slot i c r) u.
Proof.
  intros [] Hs Hi Hc Hp. split; try done.
  - intros p. rewrite tr_kids0. split; (intros [?|(j & d & Hj & Hd & <-)]; [by left|right]).
    + exists j, d. split_and!; [|done|done]. apply slot_set_other; [|done]. intros ->. by apply (Hi d).
    + apply slot_set_inv in Hj as [[<- ->]|[_ Hj]]; [done|]. eauto.
  - intros j d Hj. apply slot_set_inv in Hj as [[<- ->]|[_ Hj]]; [done|]. by apply (tr_running0 j).
  - intros j d Hj. apply slot_set_inv in Hj as [[<- ->]|[_ Hj]]; [done|]. by apply (tr_idle0 j).
  - intros j k d e Hj Hk. apply slot_set_inv in Hj as [[<- ->]|[_ Hj]], Hk as [[<- ->]|[_ Hk]]; try done.
    by apply tr_distinct0.
Qed.

Lemma tracks_start u0 r u i c s p :
  tracks u0 r u -> g_slots r !! i = Some s -> slot_idle r i -> c_state c = NEXUS_RUNNING -> c_pid c = p ->
  pid_ok p -> p ∉ kids u -> tracks u0 (set_slot i c r) (add_kid p u).
Proof.
  intros [] Hs Hi Hc Hp Hok Hfresh.
  assert (p ∉ kids u0 /\ forall j d, slot_has r j d -> c_state d = NEXUS_RUNNING -> c_pid d <> p) as [H0 Hne].
  { split; [intros Hin; apply Hfresh, tr_kids0; by left|]. intros j d Hj Hd <-. apply Hfresh, tr_kids0. right. eauto. }
  split; try done.
  - intros q. cbn. rewrite elem_of_union, elem_of_singleton, tr_kids0. split.
    + intros [->|[?|(j & d & Hj & Hd & <-)]]; [right|by left|right].
      * exists i, c. split_and!; [by eapply slot_set_same|done|done].
      * exists j, d. split_and!; [|done|done]. apply slot_set_other; [|done]. intros ->. by apply (Hi d).
    + intros [?|(j & d & Hj & Hd & <-)]; [by right; left|].
      apply slot_set_inv in Hj as [[<- ->]|[_ Hj]]; [by left|]. right; right. eauto.
  - intros j d Hj. apply slot_set_inv in Hj as [[<- ->]|[_ Hj]]; [by rewrite Hp|]. by apply (tr_running0 j).
  - intros j d Hj. apply slot_set_inv in Hj as [[<- ->]|[_ Hj]]; [done|]. by apply (tr_idle0 j).
  - intros j k d e Hj Hk. apply slot_set_inv in Hj as [[<- ->]|[_ Hj]], Hk as [[<- ->]|[_ Hk]]; try done.
    + intros _ He Hpe. pose proof (Hne k e Hk He). congruence.
    + intros He _ Hpe. pose proof (Hne j d Hj He). congruence.
    + by apply tr_distinct0.
Qed.

Lemma tracks_stop u0 r u i c d :
  tracks u0 r u -> slot_has r i d -> c_state d = NEXUS_RUNNING -> c_state c <> NEXUS_RUNNING -> c_pid c = -1 ->
  tracks u0 (set_slot i c r) (reap_kid (c_pid d) u).
Proof.
  intros [] Hi Hd Hc Hp. destruct (tr_running0 i d Hi Hd) as [Hok H0]. split; try done.
  - intros q. cbn. rewrite elem_of_difference, elem_of_singleton, tr_kids0. split.
    + intros [[?|(j & e & Hj & He & <-)] Hne]; [by left|right].
      exists j, e. split_and!; [|done|done]. apply slot_set_other; [|done]. intros ->.
      unfold slot_has in *. congruence.
    + intros [?|(j & e & Hj & He & <-)]; [split; [by left|congruence]|].
      apply slot_set_inv in Hj as [[<- ->]|[Hne Hj]]; [done|]. split; [right; eauto|].
      intros Hq. by apply Hne, (tr_distinct0 i j d e).
  - intros j e Hj. apply slot_set_inv in Hj as [[<- ->]|[_ Hj]]; [done|]. by apply (tr_running0 j).
  - intros j e Hj. apply slot_set_inv in Hj as [[<- ->]|[_ Hj]]; [done|]. by apply (tr_idle0 j).
  - intros j k e f Hj Hk. apply slot_set_inv in Hj as [[<- ->]|[_ Hj]], Hk as [[<- ->]|[_ Hk]]; try done.
    by apply tr_distinct0.
Qed.

(** ** Every operation is a step *)

(** What a run of [op] from [r] establishes: a step of the lifecycle for the
    container it names, and no change for any other. *)
Definition step_life (op : cop) (r : registry) (x : Z * registry) : Prop :=
  let '(rc, r') := x in
  reg_ok r' /\
  (forall n, cop_name op = Some n -> life op (lookup_c r n) rc (lookup_c r' n)) /\
  (forall m, cop_name op <> Some m -> lookup_c r' m = lookup_c r m).

(** And, when the children of the process are its workloads, they still are. *)
Definition step_ok {W} `{Usage W} (op : cop) (r : registry) (w : W) (x : Z * registry) (w' : W) : Prop :=
  step_life op r x /\
  (forall u0, tracks u0 r (use w) -> tracks u0 x.2 (use w') /\ (interrupts w' <= interrupts w)%nat).

Section steps.
Context {W : Type} `{OsLaws W}.
Implicit Types (w : W) (r : registry).

(** An operation that leaves the registry as it is. *)
Lemma step_life_same op r rc r' n :
  reg_ok r -> g_slots r' = g_slots r -> g_next_id r' = g_next_id r -> cop_name op = Some n ->
  life op (lookup_c r n) rc (lookup_c r n) -> step_life op r (rc, r').
Proof.
  intros Hr Hs Hid Hn Hl. split_and!.
  - eapply same_slots_ok; [done| |done]. rewrite Hid. apply Hr.
  - intros m Hm. rewrite (same_slots_lookup r r') by done. congruence.
  - intros m _. by apply same_slots_lookup.
Qed.

Lemma step_ok_same op r w rc r' w' n :
  reg_ok r -> g_slots r' = g_slots r -> g_next_id r' = g_next_id r -> steady w w' -> cop_name op = Some n ->
  life op (lookup_c r n) rc (lookup_c r n) -> step_ok op r w (rc, r') w'.
Proof.
  intros Hr Hs Hid [Hu Hi] Hn Hl. split; [by eapply step_life_same|].
  intros u0 Ht. rewrite Hu. split; [by eapply same_slots_tracks|done].
Qed.

(** An operation that replaces the container of its name. *)
Lemma step_life_set op r rc r1 i c n :
  reg_ok r -> g_slots r1 = g_slots r -> 0 <= g_next_id r1 <= ULONG_MAX ->
  container_ok c -> c_name c = n -> may_take r i n -> cop_name op = Some n ->
  life op (lookup_c r n) rc (Some c) -> step_life op r (rc, set_slot i c r1).
Proof.
  intros Hr Hs Hid Hc Hn Ht Hop Hl.
  assert (g_slots (set_slot i c r1) = g_slots (set_slot i c r)) as Hs' by (cbn; by rewrite Hs).
  rewrite <- Hn in Ht. pose proof (set_slot_ok r i c Hr Hc Ht) as Hr'.
  split_and!.
  - eapply same_slots_ok; [exact Hs'|exact Hid|exact Hr'].
  - intros m Hm. rewrite (same_slots_lookup _ _ _ Hs'), lookup_set_slot by done.
    rewrite decide_True by congruence. congruence.
  - intros m Hm. rewrite (same_slots_lookup _ _ _ Hs'), lookup_set_slot by done.
    by rewrite decide_False by congruence.
Qed.

Lemma step_ok_set op r w rc r1 i c w' n :
  reg_ok r -> g_slots r1 = g_slots r -> 0 <= g_next_id r1 <= ULONG_MAX ->
  container_ok c -> c_name c = n -> may_take r i n -> cop_name op = Some n ->
  life op (lookup_c r n) rc (Some c) ->
  (forall u0, tracks u0 r (use w) -> tracks u0 (set_slot i c r) (use w') /\ (interrupts w' <= interrupts w)%nat) ->
  step_ok op r w (rc, set_slot i c r1) w'.
Proof.
  intros Hr Hs Hid Hc Hn Ht Hop Hl Htr. split; [by eapply step_life_set|].
  intros u0 Hu. destruct (Htr u0 Hu) as [Ht' Hi]. split; [|done].
  eapply same_slots_tracks; [|exact Ht']. cbn. by rewrite Hs.
Qed.

Lemma steady_from w w1 w2 : steady w w1 -> becomes w w2 (use w1) -> steady w w2.
Proof. intros [Hu _] Hb. by rewrite Hu in Hb. Qed.

Lemma name_valid_length n : name_valid (Some n) = true -> strlen n < NEXUS_NAME_MAX.
Proof. unfold name_valid. destruct (_ || _) eqn:E; [done|]. zb. done. Qed.

Lemma too_long_false s max : too_long s max = false -> copy_string max s = default EmptyString s.
Proof. unfold too_long, copy_string. destruct s as [s|]; [|done]. intros E. zb. by apply truncate_fits. Qed.

Lemma copy_string_length s max : 0 < max -> strlen (copy_string max s) < max.
Proof. intros Hm. destruct s as [s|]; cbn [copy_string]; [by apply truncate_length|done]. Qed.

Definition rc_create (rc : Z) : Prop := rc = NEXUS_OK \/ rc = NEXUS_ERR_INVALID \/ rc = NEXUS_ERR_PROCESS.

Lemma cgroup_create_rc g name len : yields (cgroup_create (W := W) g name len) (fun x => rc_create x.1.1).
Proof.
  unfold cgroup_create, rc_create. destruct name as [nm|]; [|apply yields_ret; auto].
  case_match; [apply yields_ret; auto|]. apply yields_bind. intros g'. apply yields_bind. intros u.
  case_match; [apply yields_ret; auto|]. unfold snprintf.
  case_match; [apply yields_ret; auto|]. apply yields_bind. intros u'. apply yields_ret. cbn. case_match; auto.
Qed.

Lemma cgroup_set_limits_rc path m c : yields (cgroup_set_limits (W := W) path m c) rc_create.
Proof.
  unfold cgroup_set_limits, rc_create. do 2 (case_match; [apply yields_ret; auto|]).
  apply yields_bind. intros u. case_match; [apply yields_ret; auto|].
  apply yields_bind. intros u'. case_match; apply yields_ret; auto.
Qed.

(** The slot that an operation on an existing container finds. *)
Lemma found_slot r n i c : reg_ok r -> find_slot r n = Some (i, c) ->
  slot_has r i c /\ c_name c = n /\ lookup_c r n = Some c /\ may_take r i n /\ container_ok c.
Proof.
  intros Hr E. pose proof (find_slot_some _ _ _ _ E) as [Hi Hn]. split_and!; [done|done| | |].
  - unfold lookup_c. by rewrite E.
  - right. eauto.
  - by eapply slots_valid.
Qed.

Lemma create_step fuel n m c e ns r w :
  reg_ok r -> cop_typed (OpCreate n m c e ns) ->
  wp (run_cop fuel (OpCreate n m c e ns) r) (fun x w' => step_ok (OpCreate n m c e ns) r w x w') w.
Proof.
  intros Hr [Hm Hc]. cbn [run_cop]. set (op := OpCreate n m c e ns). unfold container_create_ex.
  destruct n as [nm|]; [|by apply wp_ret].
  assert (forall rc r' w', (rc = NEXUS_ERR_INVALID \/ rc = NEXUS_ERR_PROCESS) -> g_slots r' = g_slots r ->
    g_next_id r' = g_next_id r -> steady w w' -> step_ok op r w (rc, r') w') as Hfail.
  { intros rc r' w' Hrc Hs Hid Hst. eapply step_ok_same; [done..|]. apply life_create_failed. tauto. }
  destruct (name_valid (Some nm)) eqn:En; cbn [negb]; [|apply wp_ret, Hfail; auto using steady_refl].
  destruct (100 <? c) eqn:Ec; [apply wp_ret, Hfail; auto using steady_refl|]. zb.
  destruct (too_long e _) eqn:Ee; [apply wp_ret, Hfail; auto using steady_refl|].
  destruct (match ns with Some _ => _ | None => _ end) eqn:Eh; [apply wp_ret, Hfail; auto using steady_refl|].
  destruct (match find_slot r nm with Some _ => _ | None => _ end) eqn:Ed.
  { destruct (find_slot r nm) as [[i d]|] eqn:Ef; [|done]. zb. apply bool_decide_eq_false in Ed.
    apply wp_ret. eapply (step_ok_same _ _ _ _ _ _ nm); auto using steady_refl.
    destruct (found_slot _ _ _ _ Hr Ef) as (_ & _ & -> & _). by apply life_create_exists. }
  assert (forall o, lookup_c r nm = Some o -> c_state o = NEXUS_DELETED) as Hdead.
  { unfold lookup_c. destruct (find_slot r nm) as [[i d]|]; [|done]. cbn. intros o [= <-]. zb.
    by apply bool_decide_eq_true in Ed. }
  destruct (slot_for r nm) as [i|] eqn:Es.
  2:{ apply wp_ret. apply slot_for_none in Es. eapply (step_ok_same _ _ _ _ _ _ nm); auto using steady_refl.
      rewrite Es. apply life_create_failed. auto. }
  pose proof (slot_for_take _ _ _ Hr Es) as Htake.
  apply wp_bind. eapply wp_mono; [apply cgroup_init_steady, steady_refl|]. cbv beta. intros ig w1 Hw1.
  apply wp_bind. eapply wp_mono; [apply wp_yields; [by apply cgroup_create_steady|apply cgroup_create_rc]|].
  cbv beta. intros [[rc path] g] w2 [Hw2 Hrc]. cbn [fst] in Hrc. cbv zeta.
  destruct (rc =? NEXUS_OK) eqn:Erc; cbn [negb]; zb.
  2:{ apply wp_ret, Hfail; [destruct Hrc as [?|Hrc]; [done|exact Hrc]|done|done|done]. }
  apply wp_bind. eapply wp_mono; [apply wp_yields; [by apply cgroup_set_limits_steady|apply cgroup_set_limits_rc]|].
  cbv beta. intros rc2 w3 [Hw3 Hrc2]. destruct (rc2 =? NEXUS_OK) eqn:Erc2; cbn [negb]; zb.
  2:{ apply wp_bind. eapply wp_mono; [by apply cgroup_destroy_steady|]. cbv beta. intros _ w4 Hw4.
      apply wp_ret, Hfail; [destruct Hrc2 as [?|Hrc2]; [done|exact Hrc2]|done|done|done]. }
  apply wp_bind. eapply wp_steady; [done|intros ???; apply law_time|]. intros now w4 Hw4. apply wp_ret.
  assert (truncate NEXUS_NAME_MAX nm = nm) as Hnm by (apply truncate_fits; by apply name_valid_length).
  eapply (step_ok_set _ _ _ _ _ _ _ _ nm); [exact Hr|done| | | |exact Htake|done| |].
  - cbn. pose proof (wrap_range 64 (g_next_id r + 1) ltac:(lia)). unfold ULONG_MAX. lia.
  - unfold container_ok. cbn. rewrite Hnm. split_and!; try done; try lia.
    + by apply truncate_length.
    + by apply truncate_length.
    + by apply copy_string_length.
    + destruct ns as [ns|]; [by apply copy_string_length|done].
  - exact Hnm.
  - apply life_create_ok; [exact Hdead|]. unfold created. cbn. split_and!; try done. by apply too_long_false.
  - intros u0 Htr. destruct Hw4 as [-> Hi]. split; [|done].
    destruct (may_take_slot _ _ _ Htake) as [s Hs]. eapply tracks_idle; [done|exact Hs| |done|done].
    intros d Hd Hrun. destruct Htake as [[Hn _]|(d' & Hd' & Hn')]; [unfold slot_has in Hd; congruence|].
    assert (lookup_c r nm = Some d) as Hl by (apply lookup_c_spec; [done|]; exists i; unfold slot_has in *; split; congruence).
    apply Hdead in Hl. congruence.
Qed.

Lemma adopt_step fuel n id m c e p pid st r w :
  reg_ok r -> cop_typed (OpAdopt n id m c e p pid st) ->
  wp (run_cop fuel (OpAdopt n id m c e p pid st) r)
    (fun x w' => step_life (OpAdopt n id m c e p pid st) r x) w.
Proof.
  intros Hr [Hm Hc]. cbn [run_cop]. set (op := OpAdopt n id m c e p pid st). unfold container_adopt.
  destruct n as [nm|]; [|by apply wp_ret].
  assert (forall w', wp (mret (NEXUS_ERR_INVALID, r)) (fun x _ => step_life op r x) w') as Hfail.
  { intros w'. apply wp_ret. eapply step_life_same; [done..|]. apply life_adopt_failed. auto. }
  destruct (state_of_int st) as [s|] eqn:Est; [|apply Hfail].
  destruct (name_valid (Some nm)) eqn:En; cbn [negb]; [|apply Hfail].
  destruct (100 <? c) eqn:Ec; [apply Hfail|]. zb.
  destruct (too_long id _) eqn:Ei; [apply Hfail|]. destruct (too_long e _) eqn:Ee; [apply Hfail|].
  destruct (too_long p _) eqn:Ep; [apply Hfail|].
  destruct (slot_for r nm) as [i|] eqn:Es.
  2:{ apply wp_ret. apply slot_for_none in Es. eapply (step_life_same _ _ _ _ nm); auto.
      rewrite Es. apply life_adopt_failed. auto. }
  apply wp_bind, wp_call. intros now w1 _. apply wp_ret.
  assert (truncate NEXUS_NAME_MAX nm = nm) as Hnm by (apply truncate_fits; by apply name_valid_length).
  eapply step_life_set; [done|done|apply Hr| |exact Hnm|by apply slot_for_take|done|].
  - unfold container_ok. cbn. rewrite Hnm. split_and!; try done; try lia; by apply copy_string_length.
  - by eapply life_adopt_ok; try done; apply too_long_false.
Qed.

(** Stopping returns on every pid, real or not. *)
Lemma stop_poll_total tries c w : wp (W := W) (stop_poll tries c) (fun _ _ => True) w.
Proof.
  revert w. induction tries as [|tries IH]; intros w; [done|]. cbn [stop_poll].
  apply wp_bind, wp_call. intros r w1 _.
  assert (wp (_ ← call (os_nanosleep (100 * 1000 * 1000)); stop_poll tries c) (fun _ _ => True) w1) as Hagain.
  { apply wp_bind, wp_call. intros b w2 _. apply IH. }
  cbv zeta. destruct r as [[q st]|e]; case_match; done.
Qed.

Lemma process_stop_total pid w : wp (W := W) (process_stop pid) (fun rc _ => rc = 0 \/ rc = -1) w.
Proof.
  unfold process_stop. cbv zeta. case_match; [by apply wp_ret; right|].
  apply wp_bind, wp_call. intros k w1 _. case_match; [by apply wp_ret; right|].
  apply wp_bind. eapply wp_mono; [apply stop_poll_total|]. intros gone w2 _.
  destruct gone; [by apply wp_ret; left|]. apply wp_bind, wp_call. intros k2 w3 _.
  apply wp_bind, wp_call. intros q w4 _. destruct q as [[q st]|e]; apply wp_ret; destruct (_ =? _); auto.
Qed.

(** Stopping a process: on a real pid the holdings are known. *)
Lemma wp_process_stop pid w (Q : Z -> W -> Prop) :
  (forall rc w', (rc = 0 \/ rc = -1) ->
     (pid_ok pid -> becomes w w' (if rc =? 0 then reap_kid pid (use w) else use w)) -> Q rc w') ->
  wp (process_stop pid) Q w.
Proof.
  intros HQ. assert (pid_ok pid \/ ~ pid_ok pid) as [Hp|Hp] by (unfold pid_ok; lia).
  - eapply wp_mono; [by apply process_stop_spec|]. intros rc w' [[-> Hb]|(-> & Hs & _)]; apply HQ; auto.
  - eapply wp_mono; [apply process_stop_total|]. intros rc w' Hrc. apply HQ; [done|]. by intros ?%Hp.
Qed.

Lemma workload_spec_steady c len cap : returns_steady (W := W) (workload_spec c len cap).
Proof.
  unfold workload_spec. case_match; [apply steady_ret|].
  apply steady_bind; [apply steady_call; intros ???; apply law_getenv|]. intros env. unfold snprintf.
  destruct (_ <=? _); [apply steady_ret|]. destruct (_ <? 4); apply steady_ret.
Qed.

Lemma workload_spec_none c len cap :
  yields (workload_spec (W := W) c len cap) (fun s => s = None -> c_db_engine c <> ""%string).
Proof.
  unfold workload_spec. destruct (String.eqb_spec (c_db_engine c) ""); [by apply yields_ret|].
  apply yields_bind. intros env. unfold snprintf.
  destruct (_ <=? _); [by apply yields_ret|]. destruct (_ <? 4); by apply yields_ret.
Qed.

Lemma with_ok s p c : container_ok c -> container_ok (with_state s (with_pid p c)).
Proof. done. Qed.

Lemma stop_step fuel n r w :
  reg_ok r -> wp (run_cop fuel (OpStop n) r) (fun x w' => step_ok (OpStop n) r w x w') w.
Proof.
  intros Hr. cbn [run_cop]. set (op := OpStop n). unfold container_stop.
  destruct n as [nm|]; [|by apply wp_ret].
  destruct (name_valid (Some nm)) eqn:En; cbn [negb].
  2:{ apply wp_ret. eapply (step_ok_same _ _ _ _ _ _ nm); try done. apply life_bad_name. eauto. }
  destruct (find_slot r nm) as [[i c]|] eqn:Ef.
  2:{ apply wp_ret. eapply (step_ok_same _ _ _ _ _ _ nm); try done.
      unfold lookup_c. rewrite Ef. apply life_missing. eauto. }
  destruct (found_slot _ _ _ _ Hr Ef) as (Hi & Hn & Hl & Ht & Hok).
  case_bool_decide as Hrun; cbn [negb].
  2:{ apply wp_ret. eapply (step_ok_same _ _ _ _ _ _ nm); try done. rewrite Hl. by apply life_stop_state. }
  destruct (c_pid c =? -1) eqn:Ep; cbn [negb]; zb.
  - apply wp_ret. eapply (step_ok_set _ _ _ _ _ _ _ _ nm); try done; [apply Hr| |].
    + rewrite Hl. replace (with_state NEXUS_STOPPED c) with (with_state NEXUS_STOPPED (with_pid (-1) c)).
      * by apply life_stop_ok.
      * destruct c; cbn in *. by subst.
    + intros u0 Htr. destruct (tr_running _ _ _ Htr i c Hi Hrun) as [Hpid _]. unfold pid_ok in Hpid. lia.
  - apply wp_bind, wp_process_stop. intros rc w1 Hrc Hb. destruct Hrc as [->| ->]; cbn [negb Z.eqb]; apply wp_ret.
    + eapply (step_ok_set _ _ _ _ _ _ _ _ nm); try done; [apply Hr|rewrite Hl; by apply life_stop_ok|].
      intros u0 Htr. destruct (tr_running _ _ _ Htr i c Hi Hrun) as [Hpid _].
      destruct (Hb Hpid) as [-> Hint]. split; [|done]. by apply tracks_stop.
    + split; [eapply (step_life_same _ _ _ _ nm); try done; rewrite Hl; by apply life_stop_failed|].
      intros u0 Htr. destruct (tr_running _ _ _ Htr i c Hi Hrun) as [Hpid _].
      destruct (Hb Hpid) as [-> Hint]. done.
Qed.

(** From a gate that is armed on top of [u]: attach, then release or abort. *)
Lemma wp_attach_release fuel r i c pid gate w0 w u (Q : Z * registry -> W -> Prop) :
  gate_ok gate u -> g_pid gate = pid -> becomes w0 w (gate_usage gate u) -> (interrupts w0 < fuel)%nat ->
  (forall w', becomes w0 w' u -> Q (NEXUS_ERR_PROCESS, set_slot i (with_pid (-1) c) r) w') ->
  (forall w', becomes w0 w' (add_kid pid u) ->
     Q (NEXUS_OK, set_slot i (with_state NEXUS_RUNNING (with_pid pid c)) r) w') ->
  wp (a ← cgroup_attach (c_cgroup_path c) pid;
      if negb (a =? NEXUS_OK) then
        _ ← workload_kill fuel gate; mret (NEXUS_ERR_PROCESS, set_slot i (with_pid (-1) c) r)
      else
        rel ← workload_release fuel gate;
        if negb (rel =? 0) then mret (NEXUS_ERR_PROCESS, set_slot i (with_pid (-1) c) r)
        else mret (NEXUS_OK, set_slot i (with_state NEXUS_RUNNING (with_pid pid c)) r)) Q w.
Proof.
  intros Hg Hpid Hb Hf HE HO. apply wp_bind. eapply wp_mono; [by apply cgroup_attach_steady|].
  cbv beta. intros a w1 Hb1. pose proof (becomes_interrupts _ _ _ _ Hb1 Hf) as Hf1.
  destruct Hb1 as [Hu1 Hi1]. destruct (negb (a =? NEXUS_OK)).
  - unfold workload_kill. apply wp_bind, wp_bind. eapply wp_mono; [by eapply gate_abort_spec|].
    cbv beta. intros g' w2 [_ [Hu2 Hi2]]. apply wp_ret, wp_ret, HE. split; [done|lia].
  - unfold workload_release. apply wp_bind, wp_bind. eapply wp_mono; [by eapply gate_release_spec|].
    cbv beta. intros [[p|e] g'] w2 [_ Hr]; cbn [fst] in *; apply wp_ret.
    + destruct Hr as [-> [Hu2 Hi2]]. destruct Hg as (Hok & _). unfold pid_ok in Hok.
      replace (0 <? g_pid gate) with true by lia. cbn [negb Z.eqb]. apply wp_ret.
      rewrite <- Hpid in *. apply HO. split; [done|lia].
    + destruct Hr as [Hu2 Hi2]. cbn [negb Z.eqb]. apply wp_ret, HE. split; [done|lia].
Qed.

Lemma start_step fuel n r w :
  reg_ok r -> (interrupts w < fuel)%nat ->
  wp (run_cop fuel (OpStart n) r) (fun x w' => step_ok (OpStart n) r w x w') w.
Proof.
  intros Hr Hf. cbn [run_cop]. set (op := OpStart n). unfold container_start.
  destruct n as [nm|]; [|by apply wp_ret].
  destruct (name_valid (Some nm)) eqn:En; cbn [negb].
  2:{ apply wp_ret. eapply (step_ok_same _ _ _ _ _ _ nm); try done. apply life_bad_name. eauto. }
  destruct (find_slot r nm) as [[i c]|] eqn:Ef.
  2:{ apply wp_ret. eapply (step_ok_same _ _ _ _ _ _ nm); try done.
      unfold lookup_c. rewrite Ef. apply life_missing. eauto. }
  destruct (found_slot _ _ _ _ Hr Ef) as (Hi & Hn & Hl & Ht & Hok).
  assert (forall rc w', steady w w' -> life op (Some c) rc (Some c) -> step_ok op r w (rc, r) w') as Hsame.
  { intros rc w' Hs Hlf. eapply (step_ok_same _ _ _ _ _ _ nm); try done. by rewrite Hl. }
  destruct (negb _ && negb _) eqn:Est.
  { apply wp_ret, Hsame; [done|]. apply life_start_state. apply andb_true_iff in Est as [E1 E2].
    apply negb_true_iff, bool_decide_eq_false in E1, E2. destruct (c_state c); auto. }
  assert (c_state c = NEXUS_CREATED \/ c_state c = NEXUS_STOPPED) as Hst.
  { apply andb_false_iff in Est as [E1|E1]; apply negb_false_iff, bool_decide_eq_true in E1; auto. }
  clear Est. assert (slot_idle r i) as Hidle.
  { intros d Hd Hrun. assert (d = c) as -> by (unfold slot_has in *; congruence). destruct Hst; congruence. }
  apply wp_bind. eapply (wp_mono _ (fun alive w' => steady w w' /\ (alive = true -> c_pid c <> -1))).
  { destruct (c_pid c =? -1) eqn:Ep; cbn [negb]; [by apply wp_ret|]. zb.
    eapply wp_mono; [apply process_is_alive_steady, steady_refl|]. by intros. }
  intros alive w1 [Hw1 Hal]. destruct alive.
  { apply wp_ret, Hsame; [done|]. apply life_start_state. right; right. by apply Hal. }
  cbv zeta. apply wp_bind. eapply wp_mono;
    [apply wp_yields; [by apply workload_spec_steady|apply workload_spec_none]|].
  cbv beta. intros spec w2 [Hw2 Hnone]. destruct spec as [spec|].
  2:{ apply wp_ret, Hsame; [done|]. apply life_start_invalid. by apply Hnone. }
  apply wp_bind. unfold workload_spawn. apply wp_bind.
  eapply wp_mono; [apply spawn_gated_spec|]. intros [[pid|e] gate] w3; cbv beta iota; cbn [fst snd].
  2:{ intros [_ Hw3]. apply wp_ret. change (-1 <=? 0) with true. cbv iota. apply wp_ret, Hsame.
      - by eapply becomes_steady.
      - apply life_start_failed; auto. }
  intros (Hpid & Hg & Hw3). apply wp_ret.
  rewrite (proj1 Hw2) in Hg, Hw3. assert (becomes w w3 (gate_usage gate (use w))) as Hb3 by (by eapply becomes_step).
  pose proof Hg as (Hok' & _ & Hfresh & _). rewrite Hpid in Hok', Hfresh.
  replace (pid <=? 0) with false by (unfold pid_ok in Hok'; lia).
  eapply wp_attach_release; [exact Hg|exact Hpid|exact Hb3|exact Hf| |].
  - intros w4 Hw4. eapply (step_ok_set _ _ _ _ _ _ _ _ nm); try done; [apply Hr| |].
    + rewrite Hl. apply life_start_failed; auto.
    + intros u0 Htr. destruct Hw4 as [-> Hint]. split; [|done].
      eapply tracks_idle; [done|exact Hi|done| |done]. cbn. destruct Hst; congruence.
  - intros w4 Hw4. eapply (step_ok_set _ _ _ _ _ _ _ _ nm); try done; [apply Hr| |].
    + rewrite Hl. apply life_start_ok; [done|]. unfold pid_ok in Hok'. lia.
    + intros u0 Htr. destruct Hw4 as [-> Hint]. split; [|done].
      by eapply tracks_start; [done|exact Hi|..].
Qed.

Lemma delete_step fuel n r w :
  reg_ok r -> wp (run_cop fuel (OpDelete n) r) (fun x w' => step_ok (OpDelete n) r w x w') w.
Proof.
  intros Hr. cbn [run_cop]. set (op := OpDelete n). unfold container_delete.
  destruct n as [nm|]; [|by apply wp_ret].
  destruct (name_valid (Some nm)) eqn:En; cbn [negb].
  2:{ apply wp_ret. eapply (step_ok_same _ _ _ _ _ _ nm); try done. apply life_bad_name. eauto. }
  destruct (find_slot r nm) as [[i c]|] eqn:Ef.
  2:{ apply wp_ret. eapply (step_ok_same _ _ _ _ _ _ nm); try done.
      unfold lookup_c. rewrite Ef. apply life_missing. eauto. }
  destruct (found_slot _ _ _ _ Hr Ef) as (Hi & Hn & Hl & Ht & Hok).
  case_bool_decide as Hrun.
  { apply wp_ret. eapply (step_ok_same _ _ _ _ _ _ nm); try done. rewrite Hl. apply life_delete_state. auto. }
  case_bool_decide as Hdel.
  { apply wp_ret. eapply (step_ok_same _ _ _ _ _ _ nm); try done. rewrite Hl. apply life_delete_state. auto. }
  assert (c_state c = NEXUS_CREATED \/ c_state c = NEXUS_STOPPED) as Hst by (destruct (c_state c); auto; congruence).
  apply wp_bind.
  apply (wp_mono _ (fun d w' => d = with_pid (-1) c /\ (c_pid c = -1 -> steady w w'))).
  { destruct (c_pid c =? -1) eqn:Ep; cbn [negb]; zb.
    - apply wp_ret. split; [|done]. destruct c; cbn in *. by subst.
    - apply wp_bind. eapply wp_mono; [apply process_is_alive_steady, steady_refl|]. intros alive w1 _.
      apply wp_bind. eapply (wp_mono _ (fun _ _ => True)).
      + destruct alive; [|done]. eapply wp_mono; [apply process_stop_total|]. done.
      + intros rc w2 _. apply wp_ret. split; [done|]. done. }
  intros d w1 [-> Hw1]. cbv zeta. apply wp_bind.
  eapply wp_mono; [apply cgroup_destroy_steady, steady_refl|]. cbv beta. intros rc w2 Hw2.
  assert (slot_idle r i) as Hidle.
  { intros d Hd Hrund. assert (d = c) as -> by (unfold slot_has in *; congruence). done. }
  assert (forall u0, tracks u0 r (use w) -> becomes w w2 (use w)) as Hb.
  { intros u0 Htr. eapply becomes_steady; [|exact Hw2]. apply Hw1. by apply (tr_idle _ _ _ Htr i). }
  assert (forall s, s <> NEXUS_RUNNING -> forall u0, tracks u0 r (use w) ->
    tracks u0 (set_slot i (with_state s (with_pid (-1) c)) r) (use w2) /\ (interrupts w2 <= interrupts w)%nat) as Htr.
  { intros s Hs u0 Htr. destruct (Hb u0 Htr) as [-> Hint]. split; [|done].
    eapply tracks_idle; [done|exact Hi|done|done|done]. }
  assert (forall x, set_slot i x (set_slot i (with_pid (-1) c) r) = set_slot i x r) as Hss.
  { intros x. unfold set_slot. cbn. by rewrite list_insert_insert_eq. }
  destruct (rc =? NEXUS_OK); cbn [negb]; apply wp_ret.
  - rewrite Hss. eapply (step_ok_set _ _ _ _ _ _ _ _ nm); try done; [apply Hr| |by apply Htr].
    rewrite Hl. by apply life_delete_ok.
  - eapply (step_ok_set _ _ _ _ _ _ _ _ nm); try done; [apply Hr| |].
    + rewrite Hl. by apply life_delete_failed.
    + replace (with_pid (-1) c) with (with_state (c_state c) (with_pid (-1) c)) by done.
      by apply Htr.
Qed.
End steps.

Lemma empty_registry_ok : reg_ok empty_registry.
Proof.
  assert (forall i c, ~ slot_has empty_registry i c) as He.
  { intros i c Hi. unfold slot_has, empty_registry in Hi. cbn [g_slots] in Hi.
    apply lookup_replicate in Hi as [Hi _]. done. }
  split; [done|..|by cbn; unfold ULONG_MAX; lia].
  - intros i j c d Hi. by apply He in Hi.
  - intros i c Hi. by apply He in Hi.
Qed.

Lemma empty_registry_tracks u : tracks u empty_registry u.
Proof.
  assert (forall i c, ~ slot_has empty_registry i c) as He.
  { intros i c Hi. unfold slot_has, empty_registry in Hi. cbn [g_slots] in Hi.
    apply lookup_replicate in Hi as [Hi _]. done. }
  split; try done.
  - intros p. split; [by left|]. intros [?|(i & c & Hi & _)]; [done|]. by apply He in Hi.
  - intros i c Hi. by apply He in Hi.
  - intros i c Hi. by apply He in Hi.
  - intros i j c d Hi. by apply He in Hi.
Qed.

(** ** Theorems *)

(** C12: The registry is a map of state machines.  Every lifecycle operation, on a
    well-formed registry, returns; it leaves the registry well formed (64 slots,
    distinct valid names, texts within their buffers), takes the container it
    names one step along the lifecycle [life] with the code that belongs to the
    step, and leaves every other container alone.  A failed create or adopt
    changes no container, a failed stop changes nothing, a failed start or delete
    at most forgets a dead pid. *)
Theorem registry_refines_lifecycle {W} `{OsLaws W} fuel op r (w : W) :
  reg_ok r -> cop_typed op -> (interrupts w < fuel)%nat ->
  wp (run_cop fuel op r) (fun x _ => step_life op r x) w.
Proof.
  intros Hr Hop Hf. destruct op.
  - eapply wp_mono; [by apply create_step|]. by intros x w' [? _].
  - by apply adopt_step.
  - eapply wp_mono; [by apply start_step|]. by intros x w' [? _].
  - eapply wp_mono; [by apply stop_step|]. by intros x w' [? _].
  - eapply wp_mono; [by apply delete_step|]. by intros x w' [? _].
Qed.

Definition op_db : cop := OpCreate (Some "db"%string) 1048576 50 None None.
Lemma op_db_typed : cop_typed op_db.
Proof. split; unfold ULONG_MAX; lia. Qed.

Definition db_created : Z * registry * sim :=
  match run_cop 1 op_db empty_registry (boot []) with Some y => y | None => (0, empty_registry, boot []) end.
Definition db_started : Z * registry * sim :=
  match run_cop 1 (OpStart (Some "db"%string)) db_created.1.2 db_created.2 with
  | Some y => y | None => (0, empty_registry, boot []) end.

Lemma db_created_eq : run_cop 1 op_db empty_registry (boot []) = Some (NEXUS_OK, db_created.1.2, db_created.2).
Proof. vm_compute. reflexivity. Qed.

Lemma db_started_eq :
  run_cop 1 (OpStart (Some "db"%string)) db_created.1.2 db_created.2 =
    Some (NEXUS_OK, db_started.1.2, db_started.2).
Proof. vm_compute. reflexivity. Qed.

Lemma registry_refines_lifecycle_witness :
  reg_ok db_created.1.2 /\
  life (OpStart (Some "db"%string)) (lookup_c db_created.1.2 "db") NEXUS_OK (lookup_c db_started.1.2 "db").
Proof.
  assert (reg_ok db_created.1.2) as Hr.
  { pose proof (registry_refines_lifecycle 1 op_db empty_registry (boot []) empty_registry_ok
      op_db_typed ltac:(apply Nat.ltb_lt; reflexivity)) as H.
    unfold wp in H. rewrite db_created_eq in H. exact (proj1 H). }
  split; [exact Hr|].
  assert ((interrupts db_created.2 < 1)%nat) as Hf by (apply Nat.ltb_lt; vm_compute; reflexivity).
  pose proof (registry_refines_lifecycle 1 (OpStart (Some "db"%string)) _ _ Hr I Hf) as H.
  unfold wp in H. rewrite db_started_eq in H. destruct H as (_ & H & _). exact (H _ eq_refl).
Defined.

(** A session of the runtime: the codes answered, and the registry. *)
Fixpoint run_cops {W} `{Os W} (fuel : nat) (ops : list cop) (r : registry) : M W (list Z * registry) :=
  match ops with
  | [] => mret ([], r)
  | op :: ops =>
      x ← run_cop fuel op r;
      y ← run_cops fuel ops x.2;
      mret (x.1 :: y.1, y.2)
  end.

Definition is_adopt (op : cop) : bool := match op with OpAdopt _ _ _ _ _ _ _ _ => true | _ => false end.

Lemma run_cops_tracks {W} `{OsLaws W} fuel ops u0 r (w : W) :
  Forall (fun op => is_adopt op = false /\ cop_typed op) ops -> reg_ok r -> tracks u0 r (use w) ->
  (interrupts w < fuel)%nat ->
  wp (run_cops fuel ops r) (fun y w' => reg_ok y.2 /\ tracks u0 y.2 (use w')) w.
Proof.
  intros Hops. revert r w. induction Hops as [|op ops [Ha Hop] _ IH]; intros r w Hr Ht Hf; [by apply wp_ret|].
  cbn [run_cops]. apply wp_bind. apply (wp_mono _ (fun x w' => step_ok op r w x w')).
  { destruct op; [by apply create_step|done|by apply start_step|by apply stop_step|by apply delete_step]. }
  intros [rc r1] w1 [(Hr1 & _) Htr]. cbn [fst snd] in *. destruct (Htr u0 Ht) as [Ht1 Hi].
  apply wp_bind. eapply wp_mono; [apply IH; [done|done|lia]|]. intros y w2 Hy. by apply wp_ret.
Qed.

(** C11: The runtime owns exactly its workloads.  After any sequence of creates,
    starts, stops and deletes from the empty registry, whatever calls of the
    kernel failed or were interrupted, the process has the descriptors, mappings
    and streams it began with, and its children are those it began with plus
    exactly the workloads of the running containers, each container with its own
    child: nothing leaks, no workload is orphaned, no zombie is left. *)
Theorem runtime_owns_workloads {W} `{OsLaws W} fuel ops (w : W) :
  Forall (fun op => is_adopt op = false /\ cop_typed op) ops -> (interrupts w < fuel)%nat ->
  wp (run_cops fuel ops empty_registry) (fun y w' => reg_ok y.2 /\ tracks (use w) y.2 (use w')) w.
Proof.
  intros Hops Hf. apply run_cops_tracks; [done|apply empty_registry_ok|apply empty_registry_tracks|done].
Qed.

(** Two containers on a host where several calls fail: one start fails at [fork],
    one is interrupted while it waits for [exec]. *)
Definition session_ops : list cop :=
  [op_db; OpCreate (Some "web"%string) 0 0 None None; OpStart (Some "db"%string); OpStart (Some "db"%string);
   OpStart (Some "web"%string); OpDelete (Some "web"%string); OpStop (Some "db"%string)].
Definition session_host : sim := boot [0; 0; EAGAIN; 0; 0; 0; 0; EINTR].
Definition session_end : list Z * registry * sim :=
  match run_cops 9 session_ops empty_registry session_host with
  | Some y => y | None => ([], empty_registry, session_host) end.

Lemma session_end_eq :
  run_cops 9 session_ops empty_registry session_host =
    Some ([0; 0; NEXUS_ERR_PROCESS; 0; 0; NEXUS_ERR_STATE; 0], session_end.1.2, session_end.2).
Proof. vm_compute. reflexivity. Qed.

Lemma session_typed : Forall (fun op => is_adopt op = false /\ cop_typed op) session_ops.
Proof.
  repeat (apply Forall_cons; split; [split; [reflexivity|try exact I; split; unfold ULONG_MAX; lia]|]). apply Forall_nil. exact I.
Qed.

Lemma runtime_owns_workloads_witness : tracks (use session_host) session_end.1.2 (use session_end.2).
Proof.
  assert ((interrupts session_host < 9)%nat) as Hf by (apply Nat.ltb_lt; vm_compute; reflexivity).
  pose proof (runtime_owns_workloads 9 session_ops session_host session_typed Hf) as H.
  unfold wp in H. rewrite session_end_eq in H. exact (proj2 H).
Defined.
