(* ===== verification/Format.v ===== *)
(** * Printing floating-point numbers

    The [%.<k>f] conversion of printf, exact and rounding to nearest even as
    glibc does, on the binary64 values of [Double]. *)

From S2P Require Import Prelude CStr Double.

Open Scope Z_scope.

(** The digits of a number of any size. *)
Definition dec_big (n : Z) : string := dec_go 400 n "".

(** [n] in [k] digits, with leading zeros. *)
Definition dec_pad (k : nat) (n : Z) : string := zeros (k - String.length (dec_big n)) (dec_big n).

(** [a / b] rounded to nearest, ties to even. *)
Definition div_round (a b : Z) : Z :=
  let q := a / b in
  let r := a mod b in
  if (2 * r <? b) || ((2 * r =? b) && Z.even q) then q else q + 1.

(** [m * 2^e * 10^k], rounded. *)
Definition scaled (m e : Z) (k : nat) : Z :=
  let t := m * 10 ^ Z.of_nat k in
  if 0 <=? e then t * 2 ^ e else div_round t (2 ^ (- e)).

Definition fixed_digits (k : nat) (q : Z) : string :=
  let p := 10 ^ Z.of_nat k in
  match k with
  | O => dec_big q
  | _ => String.append (dec_big (q / p)) (String.append "." (dec_pad k (q mod p)))
  end.

Definition sign_text (neg : bool) (s : string) : string := if neg then String.append "-" s else s.

(** [%.<k>f] *)
Definition d_fixed (k : nat) (x : double) : string :=
  match x with
  | S754_zero s => sign_text s (fixed_digits k 0)
  | S754_finite s m e => sign_text s (fixed_digits k (scaled (Zpos m) e k))
  | S754_infinity s => sign_text s "inf"
  | S754_nan => "nan"
  end.

Example d_fixed_half : d_fixed 4 (d_lit 1 2) = "0.5000"%string.
Proof. vm_compute. reflexivity. Qed.
Example d_fixed_tie : d_fixed 2 (d_lit 125 1000) = "0.12"%string.
Proof. vm_compute. reflexivity. Qed.

(** Rounding is within half a unit. *)
Lemma div_round_near a b : 0 < b -> Z.abs (2 * (div_round a b * b - a)) <= b.
Proof.
  intros Hb. unfold div_round. pose proof (Z.div_mod a b ltac:(lia)). pose proof (Z.mod_pos_bound a b Hb).
  destruct (_ || _) eqn:E; [|zb; lia].
  apply orb_true_iff in E as [E|E]; [zb; lia|]. apply andb_true_iff in E as [E _]. zb. lia.
Qed.
