(* ===== verification/Bridge.v ===== *)
(** * The OS-DB bridge

    [src/bridge/resource_monitor.c] (reading a snapshot of a cgroup or of a
    container), [src/bridge/memory_bridge.c] (the telemetry line) and
    [src/bridge/buffer_pool_adapter.cpp] (the resize request), with the control
    tick that joins the adaptation policy to the buffer pool. *)

From stdpp Require Import gmap.
From S2P Require Import Prelude Bytes CStr Common Double Format Telemetry AdaptationPolicy BufferPool.
From S2P Require Import BufferPoolSpec PageStorage Os Sim Process Cgroup Namespace Container ContainerSpec.

Open Scope Z_scope.

(** ** Readers *)

Section readers.
Context {W : Type} `{Os W}.

(** [child_path] is the same join as [build_child_path], on a buffer of the same
    size. *)
Definition cpu_stat_present (dir : string) : M W bool :=
  f ← call (os_fopen_r (build_child_path dir "cpu.stat"));
  match f with
  | None => mret false
  | Some (f, _) => _ ← call (os_fclose f); mret true
  end.

(** The code and the snapshot; a directory that is NULL or empty leaves [*out]
    alone ([None]). *)
Definition nexus_bridge_read_cgroup (cgroup_dir : option string)
    : M W (Z * option nexus_resource_snapshot) :=
  match cgroup_dir with
  | Some (String ch s) =>
      let dir := String ch s in
      m ← cgroup_read_metrics dir;
      let '(rc, m) := m in
      if negb (rc =? NEXUS_OK) then mret (rc, Some zero_snapshot)
      else
        has_cpu ← cpu_stat_present dir;
        mret (NEXUS_OK, Some (MkSnapshot true true (0 <? m_memory_max m) has_cpu
                (m_memory_current m) (m_memory_max m)
                (if has_cpu : bool then m_cpu_usage_usec m else 0) (m_memory_pressure m)))
  | _ => mret (NEXUS_ERR_INVALID, None)
  end.

Definition nexus_bridge_read_container (r : registry) (container_name : option string)
    : M W (Z * option nexus_resource_snapshot) :=
  match container_name with
  | Some (String ch s) =>
      match container_get r container_name with
      | None => mret (NEXUS_ERR_NOT_FOUND, None)
      | Some c =>
          if bool_decide (c_state c = NEXUS_DELETED) then mret (NEXUS_ERR_STATE, None)
          else nexus_bridge_read_cgroup (Some (c_cgroup_path c))
      end
  | _ => mret (NEXUS_ERR_INVALID, None)
  end.

Definition memory_bridge_query (r : registry) (name : option string) : M W (Z * option nexus_cgroup_metrics) :=
  container_metrics r name.
End readers.

Definition memory_line (m : nexus_cgroup_metrics) : string :=
  if 0 <? m_memory_max m then
    foldr String.append EmptyString
      ["Memory current: "%string; dec (m_memory_current m); " bytes | max: "%string; dec (m_memory_max m);
       " bytes | pressure: "%string; d_fixed 4 (m_memory_pressure m)]
  else
    foldr String.append EmptyString
      ["Memory current: "%string; dec (m_memory_current m); " bytes | max: unlimited | pressure: "%string;
       d_fixed 4 (m_memory_pressure m)].

Definition memory_bridge_format (metrics : option nexus_cgroup_metrics) (buflen : Z) : Z * option string :=
  match metrics with
  | None => (NEXUS_ERR_INVALID, None)
  | Some m =>
      if buflen =? 0 then (NEXUS_ERR_INVALID, None)
      else
        let '(buf, n) := snprintf buflen (memory_line m) in
        if (n <? 0) || (buflen <=? n) then (NEXUS_ERR_INVALID, Some buf) else (NEXUS_OK, Some buf)
  end.

(** ** Resizing the pool

    [context] points at a pool (with its environment), or is NULL. *)
Definition nexus_bridge_buffer_pool_request {E} `{PageEnv E} (a : alloc) (context : option (BufferPool * E))
    (target_frames : Z) : Z * option (BufferPool * E) :=
  match context with
  | None => (NEXUS_ERR_INVALID, None)
  | Some (bp, e) =>
      if target_frames =? 0 then (NEXUS_ERR_INVALID, Some (bp, e))
      else
        let '(status, bp, e) := Resize a target_frames bp e in
        (if ok status then NEXUS_OK else NEXUS_ERR_PROCESS, Some (bp, e))
  end.

(** ** Theorems *)

Section readings.
Context {W : Type} `{!Os W, !Usage W, !OsLaws W, !FsView W, !FsLaws W}.

Lemma wp_cpu_stat_present dir (w : W) (Q : bool -> W -> Prop) :
  (forall b w', fs w' = fs w -> (b = true -> file_text dir "cpu.stat" w <> None) -> Q b w') ->
  wp (cpu_stat_present dir) Q w.
Proof.
  intros HQ. unfold cpu_stat_present. apply wp_bind, wp_call. intros f w1 E.
  apply fs_fopen_r in E as [Hf Hr]. destruct f as [[f t]|]; [|by apply wp_ret, HQ].
  destruct Hr as [Ht Hr]. apply wp_bind, wp_call. intros b w2 E2.
  apply (fs_fclose_reader _ _ _ _ Hr) in E2. apply wp_ret, HQ; [congruence|].
  intros _. unfold file_text. by rewrite Ht.
Qed.

Lemma cpu_stat_present_steady dir : returns_steady (W := W) (cpu_stat_present dir).
Proof.
  intros w0 w u Hb. unfold cpu_stat_present. apply wp_bind. eapply wp_fopen_r; [done| |].
  - intros f t w1 Hf Hb1. apply wp_bind. eapply wp_fclose; [done|done|]. intros b w2 Hb2. by apply wp_ret.
  - intros w1 Hb1. by apply wp_ret.
Qed.

(** What a snapshot may claim about the cgroup [dir] as it is in [w]. *)
Definition honest_snapshot (dir : string) (w : W) (s : nexus_resource_snapshot) : Prop :=
  s_valid s = true /\ s_has_memory s = true /\
  exists m, honest_reading dir w m /\
    s_memory_current s = m_memory_current m /\ s_memory_max s = m_memory_max m /\
    s_has_limit s = (0 <? m_memory_max m) /\ s_memory_pressure s = m_memory_pressure m /\
    (s_has_cpu s = false -> s_cpu_usage_usec s = 0) /\
    (s_has_cpu s = true -> s_cpu_usage_usec s = m_cpu_usage_usec m /\ file_text dir "cpu.stat" w <> None).

(** A snapshot is never fabricated.  Reading the container [name] returns and
    gives back its streams; it changes no file.  It yields a valid snapshot only
    for a container that is registered and not deleted, and then every value in
    it is justified by the files of that container's cgroup, with a flag for each
    value that is missing; for every other outcome the snapshot is absent or all
    zero with [valid] unset. *)
Theorem read_container_honest r name (w : W) :
  wp (nexus_bridge_read_container r name) (fun x w' =>
    use w' = use w /\ fs w' = fs w /\
    ((x.1 = NEXUS_OK /\ exists n c s, name = Some n /\ lookup_c r n = Some c /\ c_state c <> NEXUS_DELETED /\
        x.2 = Some s /\ honest_snapshot (c_cgroup_path c) w s) \/
     (x.1 <> NEXUS_OK /\ (x.2 = None \/ x.2 = Some zero_snapshot)))) w.
Proof.
  assert (forall rc w', rc <> NEXUS_OK -> w' = w -> wp (mret (rc, None)) (fun (x : Z * option nexus_resource_snapshot) w' =>
    use w' = use w /\ fs w' = fs w /\
    ((x.1 = NEXUS_OK /\ exists n c s, name = Some n /\ lookup_c r n = Some c /\ c_state c <> NEXUS_DELETED /\
        x.2 = Some s /\ honest_snapshot (c_cgroup_path c) w s) \/
     (x.1 <> NEXUS_OK /\ (x.2 = None \/ x.2 = Some zero_snapshot)))) w') as Hfail.
  { intros rc w' Hrc ->. apply wp_ret. split_and!; auto. }
  unfold nexus_bridge_read_container. destruct name as [[|ch s]|]; [by apply Hfail| |by apply Hfail].
  set (n := String ch s) in *. cbn [container_get]. fold (lookup_c r n).
  destruct (lookup_c r n) as [c|] eqn:El; [|by apply Hfail].
  case_bool_decide as Hdel; [by apply Hfail|].
  unfold nexus_bridge_read_cgroup. destruct (c_cgroup_path c) as [|ch' s'] eqn:Ep; [by apply Hfail|].
  rewrite <- Ep. cbv zeta. apply wp_bind.
  eapply wp_mono; [apply wp_and; [apply cgroup_read_metrics_steady, steady_refl|apply wp_read_metrics; congruence]|].
  cbv beta. intros [rc m] w1 (Hu1 & Hf1 & Hr). cbn [fst snd] in Hr.
  destruct Hr as [[-> Hm]| ->].
  2:{ apply wp_ret. split_and!; [apply Hu1|done|]. right. split; [done|by right]. }
  cbn [negb Z.eqb NEXUS_OK]. change (negb (NEXUS_OK =? NEXUS_OK)) with false. cbn iota.
  apply wp_bind. eapply wp_mono; [apply wp_and; [by apply cpu_stat_present_steady|]|].
  { apply (wp_cpu_stat_present _ _ (fun b w' => fs w' = fs w1 /\ (b = true -> file_text (c_cgroup_path c) "cpu.stat" w1 <> None))).
    auto. }
  cbv beta. intros b w2 (Hu2 & Hf2 & Hb). apply wp_ret. split_and!; [apply Hu2|congruence|]. left.
  split; [done|]. exists n, c. eexists. split_and!; [done|done|done|done|].
  unfold honest_snapshot. cbn. split_and!; [done|done|]. exists m. split_and!; try done.
  - by intros ->.
  - intros ->. split; [done|]. unfold file_text in *. rewrite Hf1 in Hb. by apply Hb.
Qed.
End readings.

(** C30: Adapting the pool keeps its contents.  A control tick with a valid
    configuration, the pool's own capacity and the adapter as callback is
    defined, keeps the pool well formed and shows its clients the same pages.
    HOLD touches nothing; a granted GROW or SHRINK sets exactly the decided
    capacity, within the policy's bounds, evicting only unpinned pages, oldest
    first; a refusal of the engine is reported as [NEXUS_ERR_PROCESS] with the
    memory of the policy cleared, and changes nothing but dirty flags of pages
    already written. *)
Theorem adaptation_keeps_contents {E} `{PageEnvLaws E} a cfg pol snap bp (e : E) out :
  pool_inv bp e -> config_ok cfg -> nexus_policy_config_valid (Some cfg) = true ->
  ulong (s_memory_max snap) ->
  exists rc pol' bp' e' d,
    nexus_policy_apply (Some pol) (Some cfg) (Some snap) (bp_capacity bp)
      (Some (nexus_bridge_buffer_pool_request a)) (Some (bp, e)) (Some out) =
      Some (rc, Some pol', Some (bp', e'), Some d) /\
    pool_inv bp' e' /\ (forall id, logical bp' e' id = logical bp e id) /\
    (action d = NEXUS_ADAPT_HOLD -> rc = NEXUS_OK /\ bp' = bp /\ e' = e) /\
    (action d = NEXUS_ADAPT_SHRINK -> min_frames cfg <= target_frames d < bp_capacity bp) /\
    (action d = NEXUS_ADAPT_GROW -> exists ceiling, ceiling_frames cfg (s_memory_max snap) = Some ceiling /\
       bp_capacity bp < target_frames d <= ceiling) /\
    (action d <> NEXUS_ADAPT_HOLD -> rc = NEXUS_OK -> resized (target_frames d) bp bp') /\
    (rc <> NEXUS_OK -> rc = NEXUS_ERR_PROCESS /\ reason d = NEXUS_REASON_REQUEST_FAILED /\
       pol' = nexus_policy_init /\ cleaned bp bp').
Proof.
  intros I Hcfg Hv Hm. assert (ulong (bp_capacity bp)) as Hc.
  { pose proof (inv_capacity _ _ I). pose proof (inv_max _ _ I). 
    assert (kMaxFrames <= ULONG_MAX) by (vm_compute; discriminate). unfold ulong. lia. }
  destruct (evaluate_decision cfg Hcfg Hv pol snap (bp_capacity bp) out Hc Hm)
    as (c & pol1 & d & Hce & He & [Hhold Hshrink Hgrow Hnew]).
  unfold nexus_policy_apply. rewrite He. change (negb (NEXUS_OK =? NEXUS_OK)) with false. cbn iota.
  case_bool_decide as Ha.
  { exists NEXUS_OK, pol1, bp, e, d. split; [done|]. split_and!; try done; intros ?; congruence. }
  assert (0 < target_frames d) as Hpos.
  { pose proof (inv_capacity _ _ I). destruct (config_valid_spec cfg Hv) as (_ & _ & _ & Hm0 & _).
    destruct Hcfg as [_ Hmin _ _ _]. unfold ulong in Hmin.
    destruct (action d) eqn:Ead; [done|..].
    - destruct (Hgrow eq_refl) as [? _]. lia.
    - destruct (Hshrink eq_refl) as [? _]. lia. }
  unfold nexus_bridge_buffer_pool_request. replace (target_frames d =? 0) with false by lia.
  destruct (Resize a (target_frames d) bp e) as [[s bp'] e'] eqn:ER.
  destruct (Resize_spec a (target_frames d) bp e s bp' e' I ltac:(lia) ER) as (I' & Hlog & Hr).
  assert (action d = NEXUS_ADAPT_GROW -> exists ceiling, ceiling_frames cfg (s_memory_max snap) = Some ceiling /\
       bp_capacity bp < target_frames d <= ceiling) as Hg by (intros Hg; exists c; split; [done|]; apply (Hgrow Hg)).
  assert (action d = NEXUS_ADAPT_SHRINK -> min_frames cfg <= target_frames d < bp_capacity bp) as Hs
    by (intros Hs; apply (Hshrink Hs)).
  destruct (ok s).
  - exists NEXUS_OK, pol1, bp', e', d. split; [done|]. split_and!; try done. by intros _ _; apply Hr.
  - eexists _, _, bp', e', _. split; [reflexivity|]. cbn [action target_frames reason].
    split_and!; try done.
Qed.

(** Under high pressure a fully pinned pool is asked to shrink, and refuses. *)
Definition small_config : nexus_policy_config :=
  MkConfig (d_lit 85 100) (d_lit 60 100) (d_lit 6 10) 4096 1 0 64 64.
Definition hold_out : nexus_adapt_decision := MkDecision NEXUS_ADAPT_HOLD 0 dzero NEXUS_REASON_OK.

Lemma small_config_ok : config_ok small_config.
Proof. split; unfold ulong, ULONG_MAX; cbn; lia. Qed.

Lemma adaptation_keeps_contents_witness : exists rc pol' bp' e' d,
  nexus_policy_apply (Some nexus_policy_init) (Some small_config) (Some (demo_snapshot (d_lit 9 10)))
    (bp_capacity pinned_pool) (Some (nexus_bridge_buffer_pool_request AllocOk))
    (Some (pinned_pool, two_pages [])) (Some hold_out) =
    Some (rc, Some pol', Some (bp', e'), Some d) /\
  rc = NEXUS_ERR_PROCESS /\ reason d = NEXUS_REASON_REQUEST_FAILED /\
  (forall id, logical bp' e' id = logical pinned_pool (two_pages []) id).
Proof.
  destruct (@adaptation_keeps_contents storage _ storage_env_laws AllocOk small_config nexus_policy_init
    (demo_snapshot (d_lit 9 10)) pinned_pool (two_pages []) hold_out pinned_pool_inv small_config_ok
    ltac:(vm_compute; reflexivity) (demo_limit _))
    as (rc & pol' & bp' & e' & d & He & _ & Hlog & _ & _ & _ & _ & Hbad).
  exists rc, pol', bp', e', d. split; [exact He|].
  assert (rc = NEXUS_ERR_PROCESS) as Hrc.
  { assert (Some rc = Some NEXUS_ERR_PROCESS) as Hs; [|congruence].
    transitivity ((fun x => x.1.1.1) <$> Some (rc, Some pol', Some (bp', e'), Some d)); [reflexivity|].
    rewrite <- He. vm_compute. reflexivity. }
  destruct (Hbad ltac:(rewrite Hrc; discriminate)) as (_ & Hreason & _).
  split; [exact Hrc|]. split; [exact Hreason|exact Hlog].
Defined.

(** The container of the demonstration, read through the bridge. *)
Definition demo_registry : registry :=
  set_slot 0 (MkContainer "db" "nx-000001" NEXUS_CREATED (-1) 1048576 0 "/cg/db" "" 0 0 0 0 0 0 "") empty_registry.

Definition demo_read : Z * option nexus_resource_snapshot * sim :=
  match nexus_bridge_read_container demo_registry (Some "db"%string) demo_cgroup with
  | Some x => x | None => (0, None, demo_cgroup) end.

Lemma demo_read_eq :
  nexus_bridge_read_container demo_registry (Some "db"%string) demo_cgroup = Some (demo_read.1, demo_read.2) /\
  demo_read.1 = (NEXUS_OK, Some (MkSnapshot true true true true 524288 1048576 700 (d_lit 1 2))).
Proof. split; vm_compute; reflexivity. Qed.

Lemma read_container_honest_witness :
  honest_snapshot "/cg/db" demo_cgroup (MkSnapshot true true true true 524288 1048576 700 (d_lit 1 2)).
Proof.
  pose proof (read_container_honest demo_registry (Some "db"%string) demo_cgroup) as H.
  unfold wp in H. destruct demo_read_eq as [He Hr]. rewrite He, Hr in H.
  destruct H as (_ & _ & [(_ & n & c & s & Hn & Hc & _ & Hs & Hh)|[H _]]).
  - injection Hn as <-. vm_compute in Hc. injection Hc as <-. injection Hs as <-. exact Hh.
  - destruct H. reflexivity.
Defined.
