(* ===== verification/Dashboard.v ===== *)
(** * The dashboard

    [include/dashboard/metrics.h] and [src/dashboard/metrics.c], which gather one
    frame and format its numbers, and [src/dashboard/dashboard_text.c], which
    renders a frame as text into a buffer.  A pointer that may be null is an
    option.  A frame is shown to be exactly the text of what its sources report,
    and of nothing else. *)

From stdpp Require Import strings.
From S2P Require Import Prelude Common CStr Double Format Telemetry AdaptationPolicy Cgroup.

Local Open Scope Z_scope.

(** ** Metrics *)

Record nexus_engine_metrics := MkEngine {
  has_pool : Z; pool_target_frames : Z; pool_actual_frames : Z; pool_resident_frames : Z; pool_pinned_frames : Z;
  has_cache_stats : Z; cache_hits : Z; cache_misses : Z;
  has_latency : Z; latency_ms : double }.
Definition zero_engine : nexus_engine_metrics := MkEngine 0 0 0 0 0 0 0 0 0 dzero.

Record nexus_dashboard_inputs := MkInputs {
  in_resource : option nexus_resource_snapshot; in_has_cpu_percent : Z; in_cpu_percent : double;
  in_adaptation : option nexus_adapt_decision }.

Record nexus_dashboard_metrics := MkDashboard {
  has_resource : Z; resource : nexus_resource_snapshot; has_cpu_percent : Z; cpu_percent : double;
  has_adaptation : Z; adaptation : nexus_adapt_decision; engine : nexus_engine_metrics }.

(** What [memset] leaves; the first enumerators are 0. *)
Definition zero_decision : nexus_adapt_decision := MkDecision NEXUS_ADAPT_HOLD 0 dzero NEXUS_REASON_OK.
Definition nexus_dashboard_metrics_init : nexus_dashboard_metrics :=
  MkDashboard 0 zero_snapshot 0 dzero 0 zero_decision zero_engine.

Definition collect_inputs (inputs : nexus_dashboard_inputs) (out : nexus_dashboard_metrics) : nexus_dashboard_metrics :=
  let 'MkDashboard hr r hc c ha a e := out in
  let '(hr, r) := match in_resource inputs with
    | Some snap => if s_valid snap then (1, snap) else (hr, r)
    | None => (hr, r) end in
  let '(ha, a) := match in_adaptation inputs with Some d => (1, d) | None => (ha, a) end in
  MkDashboard hr r (if negb (in_has_cpu_percent inputs =? 0) then 1 else 0) (in_cpu_percent inputs) ha a e.

(** [provider] is given the zeroed metrics and answers its code and what it made
    of them; [out] says that the pointer is not null. *)
Definition nexus_dashboard_collect (inputs : option nexus_dashboard_inputs)
    (provider : option (nexus_engine_metrics -> Z * nexus_engine_metrics)) (out : bool) : Z * option nexus_dashboard_metrics :=
  if negb out then (NEXUS_ERR_INVALID, None) else
  let m := nexus_dashboard_metrics_init in
  let m := match inputs with Some inputs => collect_inputs inputs m | None => m end in
  let m := match provider with
    | Some provider =>
        let '(rc, em) := provider zero_engine in
        if rc =? NEXUS_OK
        then MkDashboard (has_resource m) (resource m) (has_cpu_percent m) (cpu_percent m) (has_adaptation m) (adaptation m) em
        else m
    | None => m end in
  (NEXUS_OK, Some m).

(** ** Numbers *)

Definition dadd : double -> double -> double := SFadd 53 1024.

Definition nexus_hit_ratio (hits misses : Z) : double :=
  let total := dadd (d_of_Z hits) (d_of_Z misses) in
  if dle total dzero then d_minus_one else ddiv (d_of_Z hits) total.

Definition units : list string := ["B"; "KiB"; "MiB"; "GiB"; "TiB"; "PiB"]%string.

(** [while (value >= 1024.0 && unit < 5)], with [k] for [5 - unit]. *)
Fixpoint scale_bytes (k : nat) (value : double) (unit : nat) : double * nat :=
  match k with
  | O => (value, unit)
  | S k => if dge value (d_of_Z 1024) then scale_bytes k (ddiv value (d_of_Z 1024)) (S unit) else (value, unit)
  end.

(** The formats return what the buffer holds and the length, or -1; [buf] says
    that the pointer is not null. *)
Definition formatted (buf : bool) (len : Z) (text : string) : option string * Z :=
  if negb buf || (len =? 0) then (None, -1) else let '(s, n) := snprintf len text in (Some s, n).

Definition bytes_text (bytes : Z) : string :=
  let '(value, unit) := scale_bytes 5 (d_of_Z bytes) 0 in
  if (unit =? 0)%nat then dec bytes +:+ " B" else d_fixed 1 value +:+ " " +:+ default ""%string (units !! unit).
Definition nexus_format_bytes (bytes : Z) (buf : bool) (len : Z) : option string * Z := formatted buf len (bytes_text bytes).

Definition ratio_text (hits misses : Z) : string :=
  let ratio := nexus_hit_ratio hits misses in
  if dlt ratio dzero then "n/a" else d_fixed 1 (dmul ratio (d_of_Z 100)) +:+ "%".
Definition nexus_format_hit_ratio (hits misses : Z) (buf : bool) (len : Z) : option string * Z :=
  formatted buf len (ratio_text hits misses).

Definition percent_text (percent : double) : string := d_fixed 1 percent +:+ "%".
Definition nexus_format_percent (percent : double) (buf : bool) (len : Z) : option string * Z := formatted buf len (percent_text percent).

Definition latency_text (ms : double) : string := d_fixed 2 ms +:+ " ms".
Definition nexus_format_latency_ms (ms : double) (buf : bool) (len : Z) : option string * Z := formatted buf len (latency_text ms).

(** ** The renderer *)

Definition UNAVAILABLE : string := "unavailable".

Record sb := MkSb { sb_buf : string; sb_cap : Z; sb_used : Z; sb_overflow : bool }.

(** [text] is what the format and its arguments give. *)
Definition sb_line (text : string) (b : sb) : sb :=
  if sb_overflow b then b else
  let room := u64 (sb_cap b - sb_used b) in
  let '(s, n) := snprintf room text in
  let buf := String.substring 0 (Z.to_nat (sb_used b)) (sb_buf b) +:+ s in
  if n <? 0 then MkSb buf (sb_cap b) (sb_used b) true
  else if room <=? n then MkSb (truncate (sb_cap b) buf) (sb_cap b) (sb_used b) true
  else MkSb buf (sb_cap b) (u64 (sb_used b + n)) false.

Definition put_bytes (bytes : Z) (b : sb) : sb :=
  match nexus_format_bytes bytes true 48 with
  | (Some tmp, n) => if n <? 0 then sb_line UNAVAILABLE b else sb_line tmp b
  | _ => sb_line UNAVAILABLE b
  end.

Definition on (flag : Z) : bool := negb (flag =? 0).
Definition nl : string := newline.

Definition render_resource (m : nexus_dashboard_metrics) (b : sb) : sb :=
  if on (has_resource m) then
    let b := sb_line "Memory used:      " b in
    let b := put_bytes (s_memory_current (resource m)) b in
    let b := sb_line (nl +:+ "Memory limit:     ") b in
    let b := if s_has_limit (resource m) then put_bytes (s_memory_max (resource m)) b else sb_line "unlimited" b in
    sb_line (nl +:+ "Memory pressure:  " +:+ d_fixed 1 (dmul (s_memory_pressure (resource m)) (d_of_Z 100)) +:+ "%" +:+ nl) b
  else
    let b := sb_line ("Memory used:      " +:+ UNAVAILABLE +:+ nl) b in
    let b := sb_line ("Memory limit:     " +:+ UNAVAILABLE +:+ nl) b in
    sb_line ("Memory pressure:  " +:+ UNAVAILABLE +:+ nl) b.

Definition render_cpu (m : nexus_dashboard_metrics) (b : sb) : sb :=
  if on (has_cpu_percent m) then sb_line ("CPU:              " +:+ d_fixed 1 (cpu_percent m) +:+ "%" +:+ nl) b
  else sb_line ("CPU:              " +:+ UNAVAILABLE +:+ nl) b.

Definition render_pool (e : nexus_engine_metrics) (b : sb) : sb :=
  if on (has_pool e) then
    let b := sb_line ("Buffer target:    " +:+ dec (pool_target_frames e) +:+ " frames" +:+ nl) b in
    let b := sb_line ("Buffer actual:    " +:+ dec (pool_actual_frames e) +:+ " frames" +:+ nl) b in
    let b := sb_line ("Resident frames:  " +:+ dec (pool_resident_frames e) +:+ nl) b in
    sb_line ("Pinned frames:    " +:+ dec (pool_pinned_frames e) +:+ nl) b
  else
    let b := sb_line ("Buffer target:    " +:+ UNAVAILABLE +:+ nl) b in
    let b := sb_line ("Buffer actual:    " +:+ UNAVAILABLE +:+ nl) b in
    let b := sb_line ("Resident frames:  " +:+ UNAVAILABLE +:+ nl) b in
    sb_line ("Pinned frames:    " +:+ UNAVAILABLE +:+ nl) b.

(** A text of a format, or [UNAVAILABLE] when it failed. *)
Definition text_or (r : option string * Z) : string :=
  match r with (Some s, n) => if n <? 0 then UNAVAILABLE else s | _ => UNAVAILABLE end.

Definition render_cache (e : nexus_engine_metrics) (b : sb) : sb :=
  if on (has_cache_stats e) then
    let b := sb_line ("Cache hits:       " +:+ dec (cache_hits e) +:+ nl) b in
    let b := sb_line ("Cache misses:     " +:+ dec (cache_misses e) +:+ nl) b in
    sb_line ("Cache hit ratio:  " +:+ text_or (nexus_format_hit_ratio (cache_hits e) (cache_misses e) true 32) +:+ nl) b
  else
    let b := sb_line ("Cache hits:       " +:+ UNAVAILABLE +:+ nl) b in
    let b := sb_line ("Cache misses:     " +:+ UNAVAILABLE +:+ nl) b in
    sb_line ("Cache hit ratio:  " +:+ UNAVAILABLE +:+ nl) b.

Definition render_latency (e : nexus_engine_metrics) (b : sb) : sb :=
  if on (has_latency e) then
    sb_line ("Query latency:    " +:+ text_or (nexus_format_latency_ms (latency_ms e) true 32) +:+ nl) b
  else sb_line ("Query latency:    " +:+ UNAVAILABLE +:+ nl) b.

Definition render_adaptation (m : nexus_dashboard_metrics) (b : sb) : sb :=
  if on (has_adaptation m) then
    let d := adaptation m in
    let b := sb_line ("Action:           " +:+ nexus_adapt_action_str (action d) +:+ nl) b in
    let b := sb_line ("Reason:           " +:+ nexus_adapt_reason_str (reason d) +:+ nl) b in
    let b := sb_line ("Target frames:    " +:+ dec (target_frames d) +:+ nl) b in
    sb_line ("Pressure:         " +:+ d_fixed 1 (dmul (pressure d) (d_of_Z 100)) +:+ "%" +:+ nl) b
  else
    let b := sb_line ("Action:           " +:+ UNAVAILABLE +:+ nl) b in
    let b := sb_line ("Reason:           " +:+ UNAVAILABLE +:+ nl) b in
    let b := sb_line ("Target frames:    " +:+ UNAVAILABLE +:+ nl) b in
    sb_line ("Pressure:         " +:+ UNAVAILABLE +:+ nl) b.

(** The code and what the buffer of [len] bytes holds, when it is written. *)
Definition nexus_dashboard_render_text (metrics : option nexus_dashboard_metrics) (buf : bool) (len : Z) : Z * option string :=
  match metrics with
  | Some m =>
      if negb buf || (len =? 0) then (NEXUS_ERR_INVALID, None) else
      let b := MkSb "" len 0 false in
      let b := sb_line ("NexusDB Dashboard" +:+ nl) b in
      let b := sb_line ("=================" +:+ nl) b in
      let b := sb_line ("Resource" +:+ nl +:+ "--------" +:+ nl) b in
      let b := render_resource m b in
      let b := render_cpu m b in
      let b := sb_line ("Database Engine" +:+ nl +:+ "---------------" +:+ nl) b in
      let b := render_pool (engine m) b in
      let b := render_cache (engine m) b in
      let b := render_latency (engine m) b in
      let b := sb_line ("Adaptation" +:+ nl +:+ "----------" +:+ nl) b in
      let b := render_adaptation m b in
      (if sb_overflow b then NEXUS_ERR_PROCESS else NEXUS_OK, Some (sb_buf b))
  | None => (NEXUS_ERR_INVALID, None)
  end.

(** ** The buffer holds the beginning of the whole text *)

Lemma substring_skip a b k : String.substring 0 (String.length a + k) (a +:+ b) = a +:+ String.substring 0 k b.
Proof.
  induction a as [|c a IH]; [done|]. change (String c a +:+ b) with (String c (a +:+ b)). cbn [String.length Nat.add String.substring].
  rewrite IH. reflexivity.
Qed.

Lemma substring_within a b n : (n <= String.length a)%nat -> String.substring 0 n (a +:+ b) = String.substring 0 n a.
Proof.
  revert n. induction a as [|c a IH]; intros [|n] Hn; cbn [String.length] in Hn; [by destruct b|lia|done|].
  change (String c a +:+ b) with (String c (a +:+ b)). cbn [String.substring]. rewrite IH by lia. done.
Qed.

Lemma substring_all s : String.substring 0 (String.length s) s = s.
Proof. induction s as [|c s IH]; [done|]. cbn [String.length String.substring]. by rewrite IH. Qed.

Lemma strlen_nonneg s : 0 <= strlen s.
Proof. apply Nat2Z.is_nonneg. Qed.

Lemma truncate_long len t s : len <= strlen t -> truncate len (t +:+ s) = truncate len t.
Proof. intros Hl. unfold truncate, strlen in *. apply substring_within. lia. Qed.

Lemma truncate_after len t s : strlen t < len -> t +:+ truncate (len - strlen t) s = truncate len (t +:+ s).
Proof.
  intros Hl. unfold truncate, strlen in *. rewrite <- substring_skip. f_equal. lia.
Qed.

Lemma truncate_twice len s : 0 < len -> truncate len (truncate len s) = truncate len s.
Proof. intros Hl. apply truncate_fits. by apply truncate_length. Qed.

(** The buffer after the text [t] was written to it. *)
Definition sb_holds (len : Z) (t : string) (b : sb) : Prop :=
  if strlen t <? len then b = MkSb t len (strlen t) false
  else sb_buf b = truncate len t /\ sb_cap b = len /\ sb_overflow b = true.

Lemma sb_line_holds len t s b : 0 < len < 2 ^ 64 -> sb_holds len t b -> sb_holds len (t +:+ s) (sb_line s b).
Proof.
  unfold sb_holds. intros Hl Hb. pose proof (strlen_nonneg t). pose proof (strlen_nonneg s). rewrite strlen_append.
  destruct (strlen t <? len) eqn:Et; zb.
  - subst b. unfold sb_line, snprintf. cbn [sb_overflow sb_cap sb_used sb_buf]. rewrite wrap_small by lia.
    replace (Z.to_nat (strlen t)) with (String.length t) by (unfold strlen; lia). rewrite substring_all, truncate_after by lia.
    replace (strlen s <? 0) with false by lia. destruct (strlen t + strlen s <? len) eqn:Es; zb.
    + replace (len - strlen t <=? strlen s) with false by lia. rewrite truncate_fits by (rewrite strlen_append; lia).
      by rewrite wrap_small by lia.
    + replace (len - strlen t <=? strlen s) with true by lia. by rewrite truncate_twice by lia.
  - destruct Hb as (Hb & Hc & Ho). replace (strlen t + strlen s <? len) with false by lia. unfold sb_line. rewrite Ho, truncate_long by lia. done.
Qed.

#[export] Hint Resolve sb_line_holds : nexus.

(** ** What a frame shows *)

(** One row: a label and its value, if there is one. *)
Definition row (label : string) (value : option string) : string := label +:+ default UNAVAILABLE value +:+ nl.

Definition resource_rows (r : option nexus_resource_snapshot) : string :=
  row "Memory used:      " (fmap (fun s => truncate 48 (bytes_text (s_memory_current s))) r) +:+
  row "Memory limit:     " (fmap (fun s => if s_has_limit s then truncate 48 (bytes_text (s_memory_max s)) else "unlimited"%string) r) +:+
  row "Memory pressure:  " (fmap (fun s => percent_text (dmul (s_memory_pressure s) (d_of_Z 100))) r).

Definition cpu_row (c : option double) : string := row "CPU:              " (percent_text <$> c).

Definition pool_rows (e : option nexus_engine_metrics) : string :=
  row "Buffer target:    " (fmap (fun e => dec (pool_target_frames e) +:+ " frames") e) +:+
  row "Buffer actual:    " (fmap (fun e => dec (pool_actual_frames e) +:+ " frames") e) +:+
  row "Resident frames:  " (fmap (fun e => dec (pool_resident_frames e)) e) +:+
  row "Pinned frames:    " (fmap (fun e => dec (pool_pinned_frames e)) e).

Definition cache_rows (e : option nexus_engine_metrics) : string :=
  row "Cache hits:       " (fmap (fun e => dec (cache_hits e)) e) +:+
  row "Cache misses:     " (fmap (fun e => dec (cache_misses e)) e) +:+
  row "Cache hit ratio:  " (fmap (fun e => truncate 32 (ratio_text (cache_hits e) (cache_misses e))) e).

Definition latency_row (e : option nexus_engine_metrics) : string :=
  row "Query latency:    " (fmap (fun e => truncate 32 (latency_text (latency_ms e))) e).

Definition adaptation_rows (d : option nexus_adapt_decision) : string :=
  row "Action:           " (fmap (fun d => nexus_adapt_action_str (action d)) d) +:+
  row "Reason:           " (fmap (fun d => nexus_adapt_reason_str (reason d)) d) +:+
  row "Target frames:    " (fmap (fun d => dec (target_frames d)) d) +:+
  row "Pressure:         " (fmap (fun d => percent_text (dmul (pressure d) (d_of_Z 100))) d).

(** The whole text for the sources that there are. *)
Definition frame (r : option nexus_resource_snapshot) (c : option double) (pool cache latency : option nexus_engine_metrics)
    (d : option nexus_adapt_decision) : string :=
  "NexusDB Dashboard" +:+ nl +:+ "=================" +:+ nl +:+ "Resource" +:+ nl +:+ "--------" +:+ nl +:+
  resource_rows r +:+ cpu_row c +:+
  "Database Engine" +:+ nl +:+ "---------------" +:+ nl +:+ pool_rows pool +:+ cache_rows cache +:+ latency_row latency +:+
  "Adaptation" +:+ nl +:+ "----------" +:+ nl +:+ adaptation_rows d.

(** A group that its flag makes available. *)
Definition avail {A} (flag : Z) (x : A) : option A := if on flag then Some x else None.

Lemma sb_holds_eq len t t' b : t = t' -> sb_holds len t b -> sb_holds len t' b.
Proof. by intros ->. Qed.

Lemma put_bytes_eq bytes b : put_bytes bytes b = sb_line (truncate 48 (bytes_text bytes)) b.
Proof.
  unfold put_bytes, nexus_format_bytes, formatted. cbn [negb orb Z.eqb]. unfold snprintf.
  by replace (strlen (bytes_text bytes) <? 0) with false by (pose proof (strlen_nonneg (bytes_text bytes)); lia).
Qed.

Lemma text_or_eq len s : 0 < len -> text_or (formatted true len s) = truncate len s.
Proof.
  intros Hl. unfold formatted, text_or, snprintf. cbn [negb orb]. replace (len =? 0) with false by lia.
  by replace (strlen s <? 0) with false by (pose proof (strlen_nonneg s); lia).
Qed.

(** Write lines one by one, and compare the texts. *)
Ltac lines :=
  eapply sb_holds_eq; [|repeat (apply sb_line_holds; [assumption|]); eassumption];
  unfold row; cbn [fmap option_fmap option_map default]; unfold percent_text, id; rewrite <- ?append_assoc; reflexivity.

Section Render.
Context (len : Z) (Hlen : 0 < len < 2 ^ 64).

Lemma render_resource_holds m t b :
  sb_holds len t b -> sb_holds len (t +:+ resource_rows (avail (has_resource m) (resource m))) (render_resource m b).
Proof.
  intros Hb. unfold render_resource, avail, resource_rows. destruct (on (has_resource m)); [|lines].
  rewrite !put_bytes_eq. destruct (s_has_limit (resource m)) eqn:E; cbn [fmap option_fmap option_map]; rewrite ?E; lines.
Qed.

Lemma render_cpu_holds m t b :
  sb_holds len t b -> sb_holds len (t +:+ cpu_row (avail (has_cpu_percent m) (cpu_percent m))) (render_cpu m b).
Proof. intros Hb. unfold render_cpu, avail, cpu_row. destruct (on (has_cpu_percent m)); lines. Qed.

Lemma render_pool_holds e t b : sb_holds len t b -> sb_holds len (t +:+ pool_rows (avail (has_pool e) e)) (render_pool e b).
Proof. intros Hb. unfold render_pool, avail, pool_rows. destruct (on (has_pool e)); lines. Qed.

Lemma render_cache_holds e t b : sb_holds len t b -> sb_holds len (t +:+ cache_rows (avail (has_cache_stats e) e)) (render_cache e b).
Proof.
  intros Hb. unfold render_cache, avail, cache_rows, nexus_format_hit_ratio. rewrite text_or_eq by lia.
  destruct (on (has_cache_stats e)); lines.
Qed.

Lemma render_latency_holds e t b : sb_holds len t b -> sb_holds len (t +:+ latency_row (avail (has_latency e) e)) (render_latency e b).
Proof.
  intros Hb. unfold render_latency, avail, latency_row, nexus_format_latency_ms. rewrite text_or_eq by lia.
  destruct (on (has_latency e)); lines.
Qed.

Lemma render_adaptation_holds m t b :
  sb_holds len t b -> sb_holds len (t +:+ adaptation_rows (avail (has_adaptation m) (adaptation m))) (render_adaptation m b).
Proof. intros Hb. unfold render_adaptation, avail, adaptation_rows. destruct (on (has_adaptation m)); lines. Qed.

Definition frame_of (m : nexus_dashboard_metrics) : string :=
  let e := engine m in
  frame (avail (has_resource m) (resource m)) (avail (has_cpu_percent m) (cpu_percent m)) (avail (has_pool e) e)
    (avail (has_cache_stats e) e) (avail (has_latency e) e) (avail (has_adaptation m) (adaptation m)).

Lemma render_text_frame m :
  nexus_dashboard_render_text (Some m) true len =
    (if strlen (frame_of m) <? len then NEXUS_OK else NEXUS_ERR_PROCESS, Some (truncate len (frame_of m))).
Proof.
  unfold nexus_dashboard_render_text. cbn [negb orb]. replace (len =? 0) with false by lia. cbv zeta.
  set (b := render_adaptation m _). assert (sb_holds len (frame_of m) b) as Hb.
  { assert (sb_holds len ""%string (MkSb "" len 0 false)) as H0.
    { unfold sb_holds. change (strlen "") with 0. by replace (0 <? len) with true by lia. }
    eapply sb_holds_eq; [|apply render_adaptation_holds, sb_line_holds, render_latency_holds, render_cache_holds, render_pool_holds,
      sb_line_holds, render_cpu_holds, render_resource_holds, sb_line_holds, sb_line_holds, sb_line_holds; eassumption].
    unfold frame_of, frame. rewrite <- !append_assoc. reflexivity. }
  unfold sb_holds in Hb. destruct (strlen (frame_of m) <? len) eqn:E; zb.
  - rewrite Hb. by rewrite truncate_fits.
  - destruct Hb as (-> & _ & ->). done.
Qed.
End Render.

(** ** The hit ratio *)

Lemma dadd_pos m1 e1 m2 e2 :
  - 1074 <= e1 -> - 1074 <= e2 ->
  (exists m e, dadd (S754_finite false m1 e1) (S754_finite false m2 e2) = S754_finite false m e) \/
  dadd (S754_finite false m1 e1) (S754_finite false m2 e2) = S754_infinity false.
Proof.
  intros H1 H2. unfold dadd, SFadd. cbn [cond_Zopp]. set (ez := Z.min e1 e2).
  destruct (fst (shl_align m1 e1 ez) + fst (shl_align m2 e2 ez))%positive as [p|p|] eqn:E;
    change (Zpos ?a + Zpos ?b) with (Zpos (a + b)); rewrite E; unfold binary_normalize, binary_round;
    match goal with |- context[shl_align ?p ez ?f] =>
      assert (- 1074 <= snd (shl_align p ez f)) as Hz by
        (unfold shl_align; destruct (f - ez) eqn:Ed; cbn [snd]; unfold fexp, emin in *; lia);
      destruct (shl_align p ez f) as [mz e'] end; cbn [snd] in Hz; apply round_aux_pos; lia.
Qed.

(** It is -1 exactly when there was no access, and a number that is zero or
    positive otherwise. *)
Lemma hit_ratio_honest hits misses :
  0 <= hits <= ULONG_MAX -> 0 <= misses <= ULONG_MAX ->
  if (hits =? 0) && (misses =? 0) then nexus_hit_ratio hits misses = d_minus_one else nonneg (nexus_hit_ratio hits misses).
Proof.
  intros Hh Hm. unfold nexus_hit_ratio. destruct (hits =? 0) eqn:Eh, (misses =? 0) eqn:Em; zb; subst; cbn [andb]; [done| | |].
  - destruct (d_of_Z_finite misses) as (m & e & -> & He); [lia|]. cbn. constructor.
  - destruct (d_of_Z_finite hits) as (m & e & E & He); [lia|].
    pose proof (d_of_Z_nonneg hits ltac:(lia)) as Hn. rewrite E in Hn |- *. exact (ddiv_nonneg _ m e Hn).
  - destruct (d_of_Z_finite hits) as (m1 & e1 & E1 & He1); [lia|]. destruct (d_of_Z_finite misses) as (m2 & e2 & E2 & He2); [lia|].
    pose proof (d_of_Z_nonneg hits ltac:(lia)) as Hn. rewrite E1 in Hn |- *. rewrite E2.
    destruct (dadd_pos m1 e1 m2 e2) as [(m & e & ->)| ->]; [lia..|exact (ddiv_nonneg _ m e Hn)|constructor].
Qed.

(** ** What the dashboard promises *)

(** The sources that have something to say. *)
Definition shown_resource (inputs : option nexus_dashboard_inputs) : option nexus_resource_snapshot :=
  i ← inputs; r ← in_resource i; if s_valid r then Some r else None.
Definition shown_cpu (inputs : option nexus_dashboard_inputs) : option double :=
  i ← inputs; avail (in_has_cpu_percent i) (in_cpu_percent i).
Definition shown_adaptation (inputs : option nexus_dashboard_inputs) : option nexus_adapt_decision := i ← inputs; in_adaptation i.
Definition shown_engine (provider : option (nexus_engine_metrics -> Z * nexus_engine_metrics))
    (flag : nexus_engine_metrics -> Z) : option nexus_engine_metrics :=
  p ← provider; let '(rc, e) := p zero_engine in if rc =? NEXUS_OK then avail (flag e) e else None.

(** C40: The dashboard shows what its sources report and nothing else.  Whatever
    inputs and engine provider there are, collecting succeeds, and rendering into
    a buffer of [len] bytes leaves there the frame of the valid snapshot, the CPU
    rate, the engine groups a successful provider flags and the decision, every
    missing value written as unavailable; a frame that does not fit is cut at
    the end of the buffer and reported. *)
Theorem dashboard_shows_sources inputs provider len :
  0 < len < 2 ^ 64 ->
  let text := frame (shown_resource inputs) (shown_cpu inputs) (shown_engine provider has_pool)
    (shown_engine provider has_cache_stats) (shown_engine provider has_latency) (shown_adaptation inputs) in
  exists m, nexus_dashboard_collect inputs provider true = (NEXUS_OK, Some m) /\
    nexus_dashboard_render_text (Some m) true len =
      (if strlen text <? len then NEXUS_OK else NEXUS_ERR_PROCESS, Some (truncate len text)).
Proof.
  intros Hlen text. eexists. split; [reflexivity|]. rewrite render_text_frame by done.
  match goal with |- context[frame_of ?m] => assert (frame_of m = text) as ->; [|done] end.
  unfold text, frame_of, shown_resource, shown_cpu, shown_engine, shown_adaptation.
  destruct inputs as [[r hc c d]|]; cbn [collect_inputs nexus_dashboard_metrics_init in_resource in_has_cpu_percent in_cpu_percent in_adaptation
    mbind option_bind].
  - assert (avail (if negb (hc =? 0) then 1 else 0) c = avail hc c) as Hc by (unfold avail, on; by destruct (hc =? 0)).
    destruct r as [r|], d as [d|], provider as [p|]; cbn [mbind option_bind]; try (destruct (s_valid r));
      try (destruct (p zero_engine) as [rc e]; destruct (rc =? NEXUS_OK));
      cbn [has_resource resource has_cpu_percent cpu_percent has_adaptation adaptation engine]; rewrite Hc; reflexivity.
  - destruct provider as [p|]; cbn [mbind option_bind]; [destruct (p zero_engine) as [rc e]; destruct (rc =? NEXUS_OK)|]; reflexivity.
Qed.

Lemma dashboard_shows_sources_witness : exists m,
  nexus_dashboard_collect None (Some (fun _ => (NEXUS_OK, MkEngine 1 256 256 40 0 1 3 1 0 dzero))) true = (NEXUS_OK, Some m) /\
  nexus_dashboard_render_text (Some m) true 2048 = (NEXUS_OK, Some (frame None None (Some (MkEngine 1 256 256 40 0 1 3 1 0 dzero))
    (Some (MkEngine 1 256 256 40 0 1 3 1 0 dzero)) None None)).
Proof.
  destruct (dashboard_shows_sources None (Some (fun _ => (NEXUS_OK, MkEngine 1 256 256 40 0 1 3 1 0 dzero))) 2048 ltac:(lia)) as (m & HC & HR).
  exists m. split; [exact HC|]. rewrite HR. vm_compute. reflexivity.
Defined.
