(* ===== verification/DashboardLive.v ===== *)
(** * The live dashboard

    [src/dashboard/dashboard_ncurses.c], built with ncurses.  That library is not
    part of the repository: what the code asks of it is the list of its calls,
    and what it answers, the size of the terminal and the keys, comes from the
    environment, as do the samples, one of each in every round of the loop. *)

From stdpp Require Import list.
From S2P Require Import Prelude Bytes Common CStr Double Telemetry AdaptationPolicy Process Cgroup Dashboard.

Local Open Scope Z_scope.

Inductive curses_call :=
  | Initscr | Cbreak | Noecho | CursSet (visibility : Z) | Keypad (on : bool) | Timeout (ms : Z)
  | Erase | Mvprintw (row col : Z) (text : string) | Refresh | Getch | Endwin.

(** What one round of the loop meets: the sample, [LINES] and the key. *)
Record round := MkRound { rd_sample : Z * nexus_dashboard_metrics; rd_lines : Z; rd_key : Z }.

(** [strchr(p, '\n')]: what comes before it, and after it. *)
Fixpoint cut_line (p : string) : string * option string :=
  match p with
  | EmptyString => (EmptyString, None)
  | String c p => if code_of c =? 10 then (EmptyString, Some p) else let '(line, rest) := cut_line p in (String c line, rest)
  end.

(** The loop of [draw_frame], with [n] bytes at most to go. *)
Fixpoint draw_rows (n : nat) (p : string) (row lines : Z) : list curses_call :=
  match n with
  | O => []
  | S n =>
      if (p =? "")%string || negb (row <? lines - 1) then [] else
      match cut_line p with
      | (line, None) => [Mvprintw row 0 line]
      | (line, Some rest) => Mvprintw row 0 line :: draw_rows n rest (row + 1) lines
      end
  end.

Definition frame_text (m : nexus_dashboard_metrics) : string :=
  match nexus_dashboard_render_text (Some m) true 2048 with
  | (rc, Some text) => if negb (rc =? NEXUS_OK) then "render error (buffer too small)" else text
  | (_, None) => "render error (buffer too small)"
  end.

Definition draw_frame (m : nexus_dashboard_metrics) (refresh_ms lines : Z) : list curses_call :=
  [Erase] ++ draw_rows (String.length (frame_text m)) (frame_text m) 0 lines ++
  [Mvprintw (lines - 1) 0 ("q: quit   refresh: " +:+ dec_signed refresh_ms +:+ " ms"); Refresh].

Definition quit_key (ch : Z) : bool := (ch =? 113) || (ch =? 81).

Section Loop.
Context (refresh_ms max_iterations : Z) (rounds : nat -> round).

(** [for (;;)] from round [k]; [None] when [fuel] rounds did not end it. *)
Fixpoint ncurses_loop (fuel k : nat) (iterations : Z) : option (Z * list curses_call) :=
  match fuel with
  | O => None
  | S fuel =>
      let 'MkRound (rc, m) lines key := rounds k in
      if negb (rc =? NEXUS_OK) then Some (NEXUS_ERR_PROCESS, []) else
      let drawn := draw_frame m refresh_ms lines ++ [Getch] in
      if quit_key key then Some (NEXUS_OK, drawn) else
      let iterations := u32 (iterations + 1) in
      if negb (max_iterations =? 0) && (max_iterations <=? iterations) then Some (NEXUS_OK, drawn) else
      '(rc, calls) ← ncurses_loop fuel (S k) iterations; Some (rc, drawn ++ calls)
  end.
End Loop.

Definition clamp_ms (refresh_ms : Z) : Z := if refresh_ms <? 0 then 0 else refresh_ms.
Definition live_setup (ms : Z) : list curses_call := [Initscr; Cbreak; Noecho; CursSet 0; Keypad true; Timeout ms].

(** [rounds] is [None] when the sampling function is null. *)
Definition nexus_dashboard_run_ncurses (fuel : nat) (rounds : option (nat -> round)) (refresh_ms max_iterations : Z) : option (Z * list curses_call) :=
  match rounds with
  | None => Some (NEXUS_ERR_INVALID, [])
  | Some rounds =>
      let ms := clamp_ms refresh_ms in
      '(rc, calls) ← ncurses_loop ms max_iterations rounds fuel 0 0;
      Some (rc, live_setup ms ++ calls ++ [Endwin])
  end.

(** ** What is on the screen *)

(** The lines of a text; a line break at its end starts no line. *)
Fixpoint text_rows (s : string) : list string :=
  match s with
  | EmptyString => []
  | String c s =>
      if code_of c =? 10 then EmptyString :: text_rows s
      else match text_rows s with [] => [String c EmptyString] | r :: rs => String c r :: rs end
  end.

Definition mv_rows (row : Z) (rows : list string) : list curses_call := imap (fun i r => Mvprintw (row + Z.of_nat i) 0 r) rows.

Lemma cut_line_rows s : s <> EmptyString ->
  match cut_line s with
  | (line, None) => text_rows s = [line]
  | (line, Some rest) => text_rows s = line :: text_rows rest /\ (String.length rest < String.length s)%nat
  end.
Proof.
  induction s as [|c s IH]; intros Hs; [done|]. cbn [cut_line text_rows String.length]. destruct (code_of c =? 10); [split; [done|lia]|].
  destruct s as [|c' s']; [done|]. specialize (IH ltac:(done)). destruct (cut_line (String c' s')) as [line [rest|]].
  - destruct IH as [-> Hl]. split; [done|lia].
  - by rewrite IH.
Qed.

(** The loop of [draw_frame] prints the first [LINES - 1] lines, one a row. *)
Lemma draw_rows_eq n s row lines : (String.length s <= n)%nat -> draw_rows n s row lines = mv_rows row (take (Z.to_nat (lines - 1 - row)) (text_rows s)).
Proof.
  revert s row. induction n as [|n IH]; intros s row Hn; cbn [draw_rows].
  { destruct s; [|cbn in Hn; lia]. cbn [text_rows]. by rewrite take_nil. }
  destruct (s =? "")%string eqn:Es; [apply String.eqb_eq in Es; subst s; cbn [text_rows orb]; by rewrite take_nil|]. cbn [orb].
  apply String.eqb_neq in Es. destruct (row <? lines - 1) eqn:Er; cbn [negb]; zb.
  2: { replace (Z.to_nat (lines - 1 - row)) with 0%nat by lia. done. }
  pose proof (cut_line_rows s Es) as Hc. replace (Z.to_nat (lines - 1 - row)) with (S (Z.to_nat (lines - 1 - (row + 1)))) by lia.
  destruct (cut_line s) as [line [rest|]].
  - destruct Hc as [-> Hl]. rewrite IH by lia. cbn [take]. unfold mv_rows. rewrite imap_cons, Z.add_0_r. f_equal. apply imap_ext. intros i x _. cbn. f_equal. lia.
  - rewrite Hc. cbn [take]. rewrite take_nil. unfold mv_rows. by rewrite imap_cons, Z.add_0_r.
Qed.

(** One frame on a terminal of [lines] lines. *)
Definition screen (m : nexus_dashboard_metrics) (ms lines : Z) : list curses_call :=
  Erase :: mv_rows 0 (take (Z.to_nat (lines - 1)) (text_rows (frame_text m))) ++
  [Mvprintw (lines - 1) 0 ("q: quit   refresh: " +:+ dec_signed ms +:+ " ms"); Refresh; Getch].

Definition shown (ms : Z) (r : round) : list curses_call := screen (snd (rd_sample r)) ms (rd_lines r).

Lemma draw_frame_screen m ms lines : draw_frame m ms lines ++ [Getch] = screen m ms lines.
Proof. unfold draw_frame, screen. rewrite draw_rows_eq by done. rewrite Z.sub_0_r. cbn. f_equal. by rewrite <- app_assoc. Qed.

(** Round [k] goes on to the next. *)
Definition goes_on (r : round) : bool := (fst (rd_sample r) =? NEXUS_OK) && negb (quit_key (rd_key r)).

Section Live.
Context (ms max_iterations : Z) (rounds : nat -> round).
Context (Hmax : 0 <= max_iterations < 2 ^ 32).

Definition frames_shown (k n : nat) : list curses_call := concat (map (fun i => shown ms (rounds i)) (seq k n)).

(** The iterations counted when round [k] starts. *)
Definition counted (k : nat) : Z := u32 (Z.of_nat k).

(** The limit lets round [k] be followed by another. *)
Definition below_limit (k : nat) : Prop := max_iterations = 0 \/ Z.of_nat k + 1 < max_iterations.

Lemma counted_next k : u32 (counted k + 1) = counted (S k).
Proof. unfold counted, wrap. rewrite Zplus_mod_idemp_l. f_equal. lia. Qed.

Lemma live_round fuel k : goes_on (rounds k) = true -> below_limit k ->
  ncurses_loop ms max_iterations rounds (S fuel) k (counted k) =
    ('(rc, calls) ← ncurses_loop ms max_iterations rounds fuel (S k) (counted (S k)); Some (rc, shown ms (rounds k) ++ calls)).
Proof.
  unfold goes_on, shown. cbn [ncurses_loop]. destruct (rounds k) as [[rc m] lines key]. cbn [rd_sample rd_lines rd_key fst snd]. intros [-> Hq]%andb_true_iff Hb.
  apply negb_true_iff in Hq. rewrite Hq, draw_frame_screen, counted_next. cbn [negb].
  replace (negb (max_iterations =? 0) && (max_iterations <=? counted (S k))) with false; [done|].
  destruct Hb as [->|Hb]; [done|]. symmetry. apply andb_false_iff. right. unfold counted. rewrite wrap_small by lia. apply Z.leb_gt. lia.
Qed.

Lemma live_rounds n fuel k : (forall i, (k <= i < k + n)%nat -> goes_on (rounds i) = true /\ below_limit i) ->
  ncurses_loop ms max_iterations rounds (n + fuel) k (counted k) =
    ('(rc, calls) ← ncurses_loop ms max_iterations rounds fuel (k + n) (counted (k + n)); Some (rc, frames_shown k n ++ calls)).
Proof.
  revert k. induction n as [|n IH]; intros k Hk.
  { rewrite Nat.add_0_r. cbn. by destruct (ncurses_loop _ _ _ fuel k (counted k)) as [[]|]. }
  destruct (Hk k ltac:(lia)) as [Hg Hb]. cbn [Nat.add]. rewrite live_round by done. rewrite IH by (intros i Hi; apply Hk; lia).
  replace (S k + n)%nat with (k + S n)%nat by lia. destruct (ncurses_loop _ _ _ fuel (k + S n) _) as [[rc calls]|]; [|done]. cbn [mbind option_bind]. unfold frames_shown. cbn [seq map concat]. by rewrite app_assoc.
Qed.
End Live.

(** What the live dashboard does.  If every round before round [n] gets a
    sample and no quit key, within the limit of iterations, and round [n] gets a
    failed sample, a quit key or is the last one allowed, then the loop ends
    there: it answers [NEXUS_ERR_PROCESS] exactly on a failed sample.  It set the
    terminal up once, drew in each round the rendered frame of its sample, line
    by line, clipped to the terminal, with the help line in the last row, and
    restored the terminal at the end, on every path.  So with a limit the loop
    always ends.  Without a sampling function it touches nothing. *)
Theorem live_dashboard_exact fuel rounds refresh_ms max_iterations n :
  0 <= max_iterations < 2 ^ 32 ->
  (forall i, (i < n)%nat -> goes_on (rounds i) = true /\ below_limit max_iterations i) ->
  goes_on (rounds n) = false \/ Z.of_nat n + 1 = max_iterations ->
  (n < fuel)%nat ->
  let ms := clamp_ms refresh_ms in
  let sampled := fst (rd_sample (rounds n)) =? NEXUS_OK in
  nexus_dashboard_run_ncurses fuel (Some rounds) refresh_ms max_iterations =
    Some (if sampled then NEXUS_OK else NEXUS_ERR_PROCESS,
      live_setup ms ++ frames_shown ms rounds 0 n ++ (if sampled then shown ms (rounds n) else []) ++ [Endwin]) /\
  nexus_dashboard_run_ncurses fuel None refresh_ms max_iterations = Some (NEXUS_ERR_INVALID, []).
Proof.
  intros Hmax Hgo Hend Hf ms sampled. split; [|done]. unfold nexus_dashboard_run_ncurses. fold ms.
  replace fuel with (n + S (fuel - n - 1))%nat by lia. change 0 with (counted 0) at 1.
  rewrite (live_rounds ms max_iterations rounds Hmax n _ 0) by (intros i Hi; apply Hgo; lia). cbn [Nat.add].
  assert (ncurses_loop ms max_iterations rounds (S (fuel - n - 1)) n (counted n) =
    Some (if sampled then NEXUS_OK else NEXUS_ERR_PROCESS, if sampled then shown ms (rounds n) else [])) as ->.
  2: { cbn. by rewrite <- app_assoc. }
  unfold sampled, goes_on, shown in *. cbn [ncurses_loop]. destruct (rounds n) as [[rc m] lines key]. cbn [rd_sample rd_lines rd_key fst snd] in *.
  destruct (rc =? NEXUS_OK); cbn [negb andb] in *; [|done]. rewrite draw_frame_screen, counted_next. destruct (quit_key key); [done|]. cbn [negb] in Hend.
  destruct Hend as [?|He]; [done|]. replace (negb (max_iterations =? 0) && (max_iterations <=? counted (S n))) with true; [done|].
  symmetry. apply andb_true_iff. unfold counted. rewrite wrap_small by lia. split; [apply negb_true_iff, Z.eqb_neq; lia|apply Z.leb_le; lia].
Qed.

(** Three rounds of ten allowed; the third sees the quit key. *)
Definition demo_rounds (k : nat) : round := MkRound (NEXUS_OK, nexus_dashboard_metrics_init) 24 (if (k =? 2)%nat then 113 else 65).

Lemma live_dashboard_exact_witness :
  nexus_dashboard_run_ncurses 5 (Some demo_rounds) (-1) 10 = Some (NEXUS_OK, live_setup 0 ++ frames_shown 0 demo_rounds 0 2 ++ shown 0 (demo_rounds 2) ++ [Endwin]).
Proof.
  apply (live_dashboard_exact 5 demo_rounds (-1) 10 2); [lia| |by left|lia].
  intros i Hi. split; [|right; lia]. destruct i as [|[|i]]; [reflexivity|reflexivity|lia].
Defined.
