(* ===== verification/Harness.v ===== *)
(** * The benchmark harness

    [include/benchmark/harness.h] and [src/benchmark/harness.c], the POSIX build:
    a workload runs step by step while the memory of its container is sampled and
    the adaptation policy resizes its pool.  The workload is a record of
    operations on a context of its own.  The monotonic clock is a function of the
    number of the reading, and a sampler one of the number of the sample. *)

From stdpp Require Import gmap.
From S2P Require Import Prelude Bytes Common CStr Double Format Telemetry AdaptationPolicy Os Process Cgroup Container Bridge Dashboard.

Local Open Scope Z_scope.

(** ** Data *)

Record nexus_bench_config := MkBenchConfig {
  scenario : option string; container_name : option string; db_path : option string; engine_path : option string;
  limit_mb : Z; page_count : Z; iterations : Z; sample_every : Z; pool_frames_start : Z; dirty_every : Z;
  random : Z; random_seed : Z; manage_container : Z }.

Record nexus_bench_workload (X : Type) := MkWorkload {
  wl_open : option (nexus_bench_config -> X -> Z * X);
  wl_step : option (Z -> X -> Z * Z * X);
  wl_capacity : option (X -> Z);
  wl_resident : option (X -> Z);
  wl_pinned : option (X -> Z);
  wl_resize : option (Z -> X -> Z * X);
  wl_close : option (X -> X) }.
Arguments MkWorkload {X}. Arguments wl_open {X}. Arguments wl_step {X}. Arguments wl_capacity {X}. Arguments wl_resident {X}.
Arguments wl_pinned {X}. Arguments wl_resize {X}. Arguments wl_close {X}.

Record nexus_bench_pool_stats := MkPoolStats {
  start_frames : Z; end_frames : Z; ps_min : Z; ps_max : Z; resident_last : Z; pinned_last : Z;
  grow_requests : Z; shrink_requests : Z; hold_decisions : Z; failed_resizes : Z }.

Record nexus_bench_resource_stats := MkResourceStats {
  samples : Z; saw_limit : Z; memory_max_bytes : Z; memory_current_last : Z;
  pressure_min : double; pressure_max : double; pressure_last : double;
  rs_have_cpu : Z; cpu_percent_min : double; cpu_percent_max : double; cpu_percent_avg : double }.

(** The members of the result that are set once, and those that are counted. *)
Record bench_header := MkHeader {
  h_scenario : string; h_limit_mb : Z; h_page_count : Z; h_iterations : Z; h_sample_every : Z; h_pool_frames_start : Z;
  h_dirty_every : Z; h_random : Z; h_random_seed : Z; platform_linux : Z; container_managed : Z; self_bound_to_cgroup : Z;
  engine_reports_cache_counters : Z; engine_reports_query_latency : Z }.
Record bench_counts := MkCounts {
  steps_run : Z; b_hits : Z; b_misses : Z; fetch_errors : Z;
  fetch_ms_min : double; fetch_ms_max : double; fetch_ms_avg : double; fetch_ms_total : double; hit_ratio : double }.
Record nexus_bench_result := MkBenchResult {
  header : bench_header; counts : bench_counts; pool : nexus_bench_pool_stats; resources : nexus_bench_resource_stats }.

Definition pool_stats0 : nexus_bench_pool_stats := MkPoolStats 0 0 0 0 0 0 0 0 0 0.
Definition resource_stats0 : nexus_bench_resource_stats := MkResourceStats 0 0 0 0 dzero dzero dzero 0 dzero dzero dzero.
Definition counts0 : bench_counts := MkCounts 0 0 0 0 dzero dzero dzero dzero d_minus_one.

(** [bench_run_ctx_t], with the registry, the workload's context and the number
    of readings of the clock. *)
Record bench_run_ctx (X : Type) := MkRun {
  reg : registry; ctx : X; ticks : nat; counts_ : bench_counts; pool_ : nexus_bench_pool_stats; resources_ : nexus_bench_resource_stats;
  policy : nexus_policy; prev : nexus_resource_snapshot; have_prev : bool; prev_ms : double;
  have_pressure : bool; have_cpu : bool; have_latency : bool; cpu_sum : double; cpu_count : Z }.
Arguments MkRun {X}. Arguments reg {X}. Arguments ctx {X}. Arguments ticks {X}. Arguments counts_ {X}. Arguments pool_ {X}. Arguments resources_ {X}.
Arguments policy {X}. Arguments prev {X}. Arguments have_prev {X}. Arguments prev_ms {X}. Arguments have_pressure {X}. Arguments have_cpu {X}.
Arguments have_latency {X}. Arguments cpu_sum {X}. Arguments cpu_count {X}.

Section Set_.
Context {X : Type}.
Implicit Types rc : bench_run_ctx X.
Definition set_ctx (x : X) rc : bench_run_ctx X := let '(MkRun r _ t c p s po pv hp pm hpr hc hl cs cc) := rc in MkRun r x t c p s po pv hp pm hpr hc hl cs cc.
Definition set_ticks t rc : bench_run_ctx X := let '(MkRun r x _ c p s po pv hp pm hpr hc hl cs cc) := rc in MkRun r x t c p s po pv hp pm hpr hc hl cs cc.
Definition set_counts c rc : bench_run_ctx X := let '(MkRun r x t _ p s po pv hp pm hpr hc hl cs cc) := rc in MkRun r x t c p s po pv hp pm hpr hc hl cs cc.
Definition set_pool p rc : bench_run_ctx X := let '(MkRun r x t c _ s po pv hp pm hpr hc hl cs cc) := rc in MkRun r x t c p s po pv hp pm hpr hc hl cs cc.
Definition set_resources s rc : bench_run_ctx X := let '(MkRun r x t c p _ po pv hp pm hpr hc hl cs cc) := rc in MkRun r x t c p s po pv hp pm hpr hc hl cs cc.
Definition set_policy po rc : bench_run_ctx X := let '(MkRun r x t c p s _ pv hp pm hpr hc hl cs cc) := rc in MkRun r x t c p s po pv hp pm hpr hc hl cs cc.
Definition set_prev pv hp pm rc : bench_run_ctx X := let '(MkRun r x t c p s po _ _ _ hpr hc hl cs cc) := rc in MkRun r x t c p s po pv hp pm hpr hc hl cs cc.
Definition set_have_pressure hpr rc : bench_run_ctx X := let '(MkRun r x t c p s po pv hp pm _ hc hl cs cc) := rc in MkRun r x t c p s po pv hp pm hpr hc hl cs cc.
Definition set_cpu hc cs cc rc : bench_run_ctx X := let '(MkRun r x t c p s po pv hp pm hpr _ hl _ _) := rc in MkRun r x t c p s po pv hp pm hpr hc hl cs cc.
Definition set_have_latency hl rc : bench_run_ctx X := let '(MkRun r x t c p s po pv hp pm hpr hc _ cs cc) := rc in MkRun r x t c p s po pv hp pm hpr hc hl cs cc.
End Set_.

Definition dsub : double -> double -> double := SFsub 53 1024.
(** [(long long)x]; [None] outside its range. *)
Definition d_to_llong (x : double) : option Z :=
  match d_trunc x with Some z => if (- 2 ^ 63 <=? z) && (z <? 2 ^ 63) then Some z else None | None => None end.

Definition nexus_bench_config_default : nexus_bench_config :=
  MkBenchConfig (Some "default"%string) (Some "nexusbench"%string) (Some "data/benchmark.db"%string) (Some ""%string)
    512 4096 4096 32 256 8 0 1 1.

Definition copy_label (len : Z) (src : option string) : string := truncate len (default "unnamed"%string src).

(** ** One run *)

Section Run.
Context {W : Type} `{Os W} (fuel : nat) (clock : nat -> Z * Z) (pid : Z) {X : Type}.
Implicit Types rc : bench_run_ctx X.

(** A reading in milliseconds; [clock] gives seconds and nanoseconds. *)
Definition bench_now_ms (t : nat) : double :=
  let '(sec, nsec) := clock t in dadd (dmul (d_of_Z sec) (d_of_Z 1000)) (ddiv (d_of_Z nsec) (d_of_Z 1000000)).

Definition now rc : double * bench_run_ctx X := (bench_now_ms (ticks rc), set_ticks (S (ticks rc)) rc).

Definition write_pid (procs : string) : M W Z :=
  f ← call (os_fopen_w procs);
  match f with
  | None => mret NEXUS_ERR_PROCESS
  | Some f =>
      p ← call (os_fprintf f (dec_signed pid +:+ newline));
      if negb p then (_ ← call (os_fclose f); mret NEXUS_ERR_PROCESS)
      else (c ← call (os_fclose f); mret (if (c : bool) then NEXUS_OK else NEXUS_ERR_PROCESS))
  end.

Definition bench_bind_self (cgroup_path : string) : M W Z :=
  if (cgroup_path =? "")%string then mret NEXUS_ERR_INVALID else
  write_pid (fst (snprintf (NEXUS_PATH_MAX + 32) (cgroup_path +:+ "/cgroup.procs"))).

(** What comes before the last slash, or everything. *)
Fixpoint before_slash (s : string) : option string :=
  match s with
  | EmptyString => None
  | String c s =>
      match before_slash s with
      | Some p => Some (String c p)
      | None => if code_of c =? 47 then Some EmptyString else None
      end
  end.

Definition bench_unbind_self (cgroup_path : string) : M W Z :=
  if (cgroup_path =? "")%string then mret NEXUS_ERR_INVALID else
  let parent := truncate NEXUS_PATH_MAX (default cgroup_path (before_slash cgroup_path)) in
  write_pid (fst (snprintf (NEXUS_PATH_MAX + 32) (parent +:+ "/cgroup.procs"))).

Context (cfg : nexus_bench_config) (wl : nexus_bench_workload X) (sampler : option (Z -> Z * nexus_resource_snapshot)).

Definition bench_capacity rc : Z := match wl_capacity wl with Some f => f (ctx rc) | None => 0 end.

(** [max_frames] and [min_frames] follow the capacity. *)
Definition follow (cap : Z) (p : nexus_bench_pool_stats) : nexus_bench_pool_stats :=
  let 'MkPoolStats s e lo hi rl pl g sh h f := p in
  MkPoolStats s e (if cap <? lo then cap else lo) (if hi <? cap then cap else hi) rl pl g sh h f.

Definition bench_resize_request rc (target_frames : Z) : Z * bench_run_ctx X :=
  match wl_resize wl with
  | None => (NEXUS_ERR_PROCESS, rc)
  | Some resize =>
      let '(status, x) := resize target_frames (ctx rc) in
      let rc := set_ctx x rc in
      (status, set_pool (follow (bench_capacity rc) (pool_ rc)) rc)
  end.

Definition count_sample (r : nexus_bench_resource_stats) : nexus_bench_resource_stats :=
  let 'MkResourceStats n l mm mc p1 p2 p3 hc c1 c2 c3 := r in MkResourceStats (u64 (n + 1)) l mm mc p1 p2 p3 hc c1 c2 c3.

(** The pressures and the memory of a valid snapshot. *)
Definition note_memory (have_pressure : bool) (snap : nexus_resource_snapshot) (r : nexus_bench_resource_stats) : nexus_bench_resource_stats :=
  let 'MkResourceStats n l mm mc p1 p2 p3 hc c1 c2 c3 := r in
  let p := s_memory_pressure snap in
  MkResourceStats n (if s_has_limit snap then 1 else l) (if s_has_limit snap then s_memory_max snap else mm) (s_memory_current snap)
    (if negb have_pressure then p else if dlt p p1 then p else p1) (if dgt p p2 then p else p2) p hc c1 c2 c3.

Definition note_cpu (have_cpu : bool) (pct : double) (r : nexus_bench_resource_stats) : nexus_bench_resource_stats :=
  let 'MkResourceStats n l mm mc p1 p2 p3 hc c1 c2 c3 := r in
  MkResourceStats n l mm mc p1 p2 p3 1 (if negb have_cpu then pct else if dlt pct c1 then pct else c1)
    (if negb have_cpu then pct else if dgt pct c2 then pct else c2) c3.

(** The CPU rate since the last valid snapshot. *)
Definition sample_cpu (t : double) (snap : nexus_resource_snapshot) rc : option (bench_run_ctx X) :=
  if have_prev rc && s_has_cpu snap then
    elapsed ← d_to_llong (dsub t (prev_ms rc));
    let pct := nexus_bridge_cpu_percent (Some (prev rc)) (Some snap) elapsed in
    if dge pct dzero then
      Some (set_cpu true (dadd (cpu_sum rc) pct) (u64 (cpu_count rc + 1)) (set_resources (note_cpu (have_cpu rc) pct (resources_ rc)) rc))
    else Some rc
  else Some rc.

(** A valid snapshot taken at [t]. *)
Definition sample_valid (t : double) (snap : nexus_resource_snapshot) rc : option (bench_run_ctx X) :=
  let rc := set_have_pressure true (set_resources (note_memory (have_pressure rc) snap (resources_ rc)) rc) in
  rc ← sample_cpu t snap rc;
  Some (set_prev snap true t rc).

Definition count_decision (failed : bool) (a : nexus_adapt_action) (p : nexus_bench_pool_stats) : nexus_bench_pool_stats :=
  let 'MkPoolStats s e lo hi rl pl g sh h f := p in
  let f := if failed then u64 (f + 1) else f in
  match a with
  | NEXUS_ADAPT_GROW => MkPoolStats s e lo hi rl pl (u64 (g + 1)) sh h f
  | NEXUS_ADAPT_SHRINK => MkPoolStats s e lo hi rl pl g (u64 (sh + 1)) h f
  | NEXUS_ADAPT_HOLD => MkPoolStats s e lo hi rl pl g sh (u64 (h + 1)) f
  end.

(** The policy on a snapshot. *)
Definition adapt (snap : nexus_resource_snapshot) rc : option (bench_run_ctx X) :=
  '(status, pol, rc, dec) ← nexus_policy_apply (Some (policy rc)) (Some nexus_policy_config_default) (Some snap) (bench_capacity rc)
    (Some bench_resize_request) rc (Some zero_decision);
  pol ← pol;
  dec ← dec;
  let rc := set_policy pol rc in
  Some (set_pool (count_decision (negb (status =? NEXUS_OK)) (action dec) (pool_ rc)) rc).

Definition of_option {A} (x : option A) : M W A := fun w => a ← x; Some (a, w).

Definition bench_sample rc : M W (bench_run_ctx X) :=
  let '(t, rc) := now rc in
  r ← (match sampler with
       | Some sampler => mret (sampler (samples (resources_ rc)))
       | None => r ← nexus_bridge_read_container (reg rc) (container_name cfg); mret (fst r, default zero_snapshot (snd r))
       end);
  let '(status, snap) := r in
  let rc := set_resources (count_sample (resources_ rc)) rc in
  rc ← of_option (if (status =? NEXUS_OK) && s_valid snap then sample_valid t snap rc
                  else Some (set_prev (prev rc) false (prev_ms rc) rc));
  of_option (adapt snap rc).

Definition count_step (s hit : Z) (have_latency : bool) (lat : double) (c : bench_counts) : bench_counts :=
  let 'MkCounts n h m e lo hi avg total ratio := c in
  if negb (s =? NEXUS_OK) then MkCounts n h m (u64 (e + 1)) lo hi avg total ratio else
  MkCounts (u64 (n + 1)) (if negb (hit =? 0) then u64 (h + 1) else h) (if negb (hit =? 0) then m else u64 (m + 1)) e
    (if negb have_latency then lat else if dlt lat lo then lat else lo) (if negb have_latency then lat else if dgt lat hi then lat else hi)
    avg (dadd total lat) ratio.

(** One step of the workload, with its latency. *)
Definition bench_step (step : Z -> X -> Z * Z * X) (i : Z) rc : bench_run_ctx X :=
  let '(t0, rc) := now rc in
  let '(s, hit, x) := step i (ctx rc) in
  let '(t1, rc) := now (set_ctx x rc) in
  let rc' := set_counts (count_step s hit (have_latency rc) (dsub t1 t0) (counts_ rc)) rc in
  if negb (s =? NEXUS_OK) then rc' else set_have_latency true rc'.

(** [for (i = 0; i < cfg->iterations; i++)], with [n] rounds left. *)
Fixpoint bench_loop (step : Z -> X -> Z * Z * X) (every : Z) (n : nat) (i : Z) rc : M W (bench_run_ctx X) :=
  match n with
  | O => mret rc
  | S n =>
      rc ← (if i mod every =? 0 then bench_sample rc else mret rc);
      bench_loop step every n (i + 1) (bench_step step i rc)
  end.

Definition averages (c : bench_counts) : bench_counts :=
  let 'MkCounts n h m e lo hi avg total ratio := c in
  MkCounts n h m e lo hi (if 0 <? n then ddiv total (d_of_Z n) else avg) total
    (if 0 <? u64 (h + m) then ddiv (d_of_Z h) (d_of_Z (u64 (h + m))) else ratio).

(** The counters of the pool before and after the run. *)
Definition pool_begin (cap : Z) : nexus_bench_pool_stats := MkPoolStats cap 0 cap cap 0 0 0 0 0 0.
Definition pool_end rc : nexus_bench_pool_stats :=
  let cap := bench_capacity rc in
  let 'MkPoolStats s _ lo hi rl pl g sh h f := follow cap (pool_ rc) in
  MkPoolStats s cap lo hi (match wl_resident wl with Some r => r (ctx rc) | None => rl end)
    (match wl_pinned wl with Some p => p (ctx rc) | None => pl end) g sh h f.

Definition finish rc : bench_run_ctx X :=
  let rc := set_pool (pool_end rc) rc in
  let rc := set_counts (averages (counts_ rc)) rc in
  let 'MkResourceStats n l mm mc p1 p2 p3 hc c1 c2 c3 := resources_ rc in
  set_resources (MkResourceStats n l mm mc p1 p2 p3 hc c1 c2 (if 0 <? cpu_count rc then ddiv (cpu_sum rc) (d_of_Z (cpu_count rc)) else c3)) rc.

Definition echo (bound : bool) : bench_header :=
  MkHeader (copy_label 64 (scenario cfg)) (limit_mb cfg) (page_count cfg) (iterations cfg) (sample_every cfg) (pool_frames_start cfg)
    (dirty_every cfg) (if negb (random cfg =? 0) then 1 else 0) (random_seed cfg) 1 (if negb (manage_container cfg =? 0) then 1 else 0)
    (if bound then 1 else 0) 0 0.

(** [container_stop] and [container_delete], their codes ignored. *)
Definition discard (r : registry) : M W registry :=
  a ← container_stop r (container_name cfg);
  b ← container_delete (snd a) (container_name cfg);
  mret (snd b).

Definition release (bound : bool) (cgroup_path : string) (r : registry) : M W registry :=
  _ ← (if bound then bench_unbind_self cgroup_path else mret 0);
  discard r.

Definition limit_bytes : Z := u64 (u64 (limit_mb cfg * 1024) * 1024).

(** The container: its code, and whether the process joined it, where it is and
    the registry. *)
Definition acquire (r : registry) : M W (Z * bool * string * registry) :=
  let create r := container_create r (container_name cfg) limit_bytes 50 (engine_path cfg) in
  a ← create r;
  a ← (if fst a =? NEXUS_ERR_EXISTS then r ← discard (snd a); create r else mret a);
  let '(status, r) := a in
  if negb (status =? NEXUS_OK) then mret (status, false, ""%string, r) else
  match container_get r (container_name cfg) with
  | None => mret (NEXUS_ERR_STATE, false, ""%string, r)
  | Some c =>
      let path := copy_label NEXUS_PATH_MAX (Some (c_cgroup_path c)) in
      b ← (if negb (path =? "")%string then bench_bind_self path else mret NEXUS_ERR_INVALID);
      let bound := b =? NEXUS_OK in
      s ← container_start fuel r (container_name cfg);
      if negb (fst s =? NEXUS_OK) then (r ← release bound path (snd s); mret (fst s, bound, path, r))
      else mret (NEXUS_OK, bound, path, snd s)
  end.

(** The code, what [out] then holds when the run completed, the registry and the
    workload; [args] says that the pointers are not null. *)
Definition nexus_bench_run (args : bool) (r : registry) (x : X) : M W (Z * option nexus_bench_result * registry * X) :=
  match wl_open wl, wl_step wl, wl_close wl with
  | Some open, Some step, Some close =>
      let managed := negb (manage_container cfg =? 0) in
      if negb args || (negb managed && match sampler with None => true | _ => false end) then mret (NEXUS_ERR_INVALID, None, r, x) else
      a ← (if managed then acquire r else mret (NEXUS_OK, false, ""%string, r));
      let '(status, bound, path, r) := a in
      if negb (status =? NEXUS_OK) then mret (status, None, r, x) else
      let '(status, x) := open cfg x in
      if negb (status =? NEXUS_OK) then
        (r ← (if managed then release bound path r else mret r); mret (status, None, r, x)) else
      let rc := MkRun r x 0 counts0 pool_stats0 resource_stats0 nexus_policy_init zero_snapshot false dzero false false false dzero 0 in
      let rc := set_pool (pool_begin (bench_capacity rc)) rc in
      rc ← bench_loop step (if sample_every cfg =? 0 then 1 else sample_every cfg) (Z.to_nat (iterations cfg)) 0 rc;
      rc ← bench_sample rc;
      let rc := finish rc in
      let x := close (ctx rc) in
      r ← (if managed then release bound path (reg rc) else mret (reg rc));
      mret (NEXUS_OK, Some (MkBenchResult (echo bound) (counts_ rc) (pool_ rc) (resources_ rc)), r, x)
  | _, _, _ => mret (NEXUS_ERR_INVALID, None, r, x)
  end.
End Run.

(** ** The report *)

Definition nexus_bench_environment (buf : bool) (len : Z) : Z * option string :=
  if negb buf || (len =? 0) then (NEXUS_ERR_INVALID, None) else
  (NEXUS_OK, Some (truncate len ("platform: Linux (cgroups v2)" +:+ newline +:+ "pointer_width_bits: " +:+ dec 64 +:+ newline +:+
    "page_size_bytes: 4096" +:+ newline))).

Definition field (label : string) (value : string) : string := label +:+ ": " +:+ value +:+ newline.
Definition section_ (title rule : string) : string := newline +:+ title +:+ newline +:+ rule +:+ newline.

(** The texts of the calls of [fprintf], in order. *)
Definition report_header (h : bench_header) : list string :=
  [ "NexusDB Benchmark Result" +:+ newline; "========================" +:+ newline; "status: RUN (completed)" +:+ newline;
    field "scenario" (h_scenario h); field "limit_mb" (dec (h_limit_mb h)); field "page_count" (dec (h_page_count h));
    field "iterations" (dec (h_iterations h)); field "sample_every" (dec (h_sample_every h));
    field "pool_frames_start" (dec (h_pool_frames_start h)); field "dirty_every" (dec (h_dirty_every h));
    field "order" (if negb (h_random h =? 0) then "random" else "sequential"); field "random_seed" (dec (h_random_seed h));
    section_ "environment" "-----------"; field "platform_linux" (dec_signed (platform_linux h));
    field "container_managed" (dec_signed (container_managed h)); field "self_bound_to_cgroup" (dec_signed (self_bound_to_cgroup h)) ].

Definition report_counts (c : bench_counts) : list string :=
  [ section_ "workload (measured)" "-------------------"; field "steps_run" (dec (steps_run c)); field "cache_hits" (dec (b_hits c));
    field "cache_misses" (dec (b_misses c));
    field "cache_hit_ratio" (if dlt (hit_ratio c) dzero then "n/a" else d_fixed 4 (hit_ratio c));
    field "fetch_errors" (dec (fetch_errors c));
    field "operation_latency_ms" ("min=" +:+ d_fixed 4 (fetch_ms_min c) +:+ " max=" +:+ d_fixed 4 (fetch_ms_max c) +:+
      " avg=" +:+ d_fixed 4 (fetch_ms_avg c) +:+ " total=" +:+ d_fixed 4 (fetch_ms_total c)) ].

Definition report_pool (p : nexus_bench_pool_stats) : list string :=
  [ section_ "buffer_pool (measured)" "----------------------"; field "start_frames" (dec (start_frames p));
    field "end_frames" (dec (end_frames p)); field "min_frames" (dec (ps_min p)); field "max_frames" (dec (ps_max p));
    field "resident_frames_last" (dec (resident_last p)); field "pinned_frames_last" (dec (pinned_last p));
    field "grow_requests" (dec (grow_requests p)); field "shrink_requests" (dec (shrink_requests p));
    field "hold_decisions" (dec (hold_decisions p)); field "failed_resizes" (dec (failed_resizes p)) ].

Definition report_resources (r : nexus_bench_resource_stats) : list string :=
  [ section_ "resources (measured)" "--------------------"; field "samples" (dec (samples r));
    field "memory_limit_bytes" (dec (memory_max_bytes r) +:+ " (saw_limit=" +:+ dec_signed (saw_limit r) +:+ ")");
    field "memory_current_last" (dec (memory_current_last r));
    field "pressure" ("min=" +:+ d_fixed 4 (pressure_min r) +:+ " max=" +:+ d_fixed 4 (pressure_max r) +:+ " last=" +:+ d_fixed 4 (pressure_last r));
    field "cpu_percent" ("min=" +:+ d_fixed 2 (cpu_percent_min r) +:+ " max=" +:+ d_fixed 2 (cpu_percent_max r) +:+ " avg=" +:+
      d_fixed 2 (cpu_percent_avg r) +:+ " (have_cpu=" +:+ dec_signed (rs_have_cpu r) +:+ ")");
    section_ "unavailable_metrics (NOT measured; never fabricated)" "---------------------------------------------------";
    field "engine_reported_cache_counters" "unavailable (BufferPool exposes none; hit/miss observed by the harness via Contains())";
    field "engine_reported_query_latency" "unavailable (no query processor on this branch; per-step Fetch time reported above)" ].

Definition report (out : nexus_bench_result) (env_block : option string) : list string :=
  report_header (header out) ++ report_counts (counts out) ++ report_pool (pool out) ++ report_resources (resources out) ++
  match env_block with
  | Some env => [section_ "environment_capture" "-------------------"; env +:+ newline]
  | None => []
  end.

Section Write.
Context {W : Type} `{Os W} (stdout : Z).

(** [fprintf] calls whose results are not looked at. *)
Fixpoint fprintf_all (f : Z) (texts : list string) : M W unit :=
  match texts with
  | [] => mret tt
  | t :: texts => _ ← call (os_fprintf f t); fprintf_all f texts
  end.

Definition nexus_bench_result_write (out : option nexus_bench_result) (path : option string) (env_block : option string) : M W Z :=
  match out with
  | None => mret NEXUS_ERR_INVALID
  | Some out =>
      match path with
      | None => _ ← fprintf_all stdout (report out env_block); mret NEXUS_OK
      | Some path =>
          f ← call (os_fopen_w path);
          match f with
          | None => mret NEXUS_ERR_PROCESS
          | Some f =>
              _ ← fprintf_all f (report out env_block);
              c ← call (os_fclose f);
              mret (if negb c then NEXUS_ERR_PROCESS else NEXUS_OK)
          end
      end
  end.
End Write.

Definition nexus_bench_strerror (rc : Z) : string :=
  if rc =? NEXUS_OK then "ok"
  else if rc =? NEXUS_ERR_INVALID then "invalid argument"
  else if rc =? NEXUS_ERR_NOT_FOUND then "container not found"
  else if rc =? NEXUS_ERR_EXISTS then "container already exists"
  else if rc =? NEXUS_ERR_STATE then "illegal state for this operation"
  else if rc =? NEXUS_ERR_NOMEM then "container registry full"
  else if rc =? NEXUS_ERR_PROCESS then "operation failed"
  else "unknown error".
