(* ===== verification/HarnessSpec.v ===== *)
(** * The benchmark harness: its numbers

    A run of the harness returns, gives back the streams and children it took,
    and its counters add up: steps and errors to the iterations, hits and misses
    to the steps, decisions to the samples. *)

From stdpp Require Import gmap.
From S2P Require Import Prelude Bytes Common CStr Double Telemetry AdaptationPolicy Os Sim Process Cgroup Container ContainerSpec Bridge Dashboard Harness.

Local Open Scope Z_scope.

(** ** Counters *)

Record counts_ok (i : Z) (c : bench_counts) : Prop := {
  ct_steps : 0 <= steps_run c;
  ct_errors : 0 <= fetch_errors c;
  ct_all : steps_run c + fetch_errors c = i;
  ct_hits : 0 <= b_hits c;
  ct_misses : 0 <= b_misses c;
  ct_accesses : b_hits c + b_misses c = steps_run c }.

Record pool_counted (s : Z) (p : nexus_bench_pool_stats) : Prop := {
  pc_grow : 0 <= grow_requests p;
  pc_shrink : 0 <= shrink_requests p;
  pc_hold : 0 <= hold_decisions p;
  pc_all : grow_requests p + shrink_requests p + hold_decisions p = s;
  pc_failed : 0 <= failed_resizes p <= s;
  pc_range : ps_min p <= start_frames p <= ps_max p }.

Lemma count_step_ok i st hit hl lat c : 0 <= i -> i + 1 < 2 ^ 64 -> counts_ok i c -> counts_ok (i + 1) (count_step st hit hl lat c).
Proof.
  intros Hi Hw [H1 H2 H3 H4 H5 H6]. destruct c as [n h m e lo hi avg total ratio]. cbn in *.
  destruct (negb (st =? NEXUS_OK)); [|destruct (negb (hit =? 0))]; split; cbn; rewrite ?wrap_small by lia; lia.
Qed.

Lemma follow_ok s cap p : pool_counted s p -> pool_counted s (follow cap p) /\ ps_min (follow cap p) <= cap <= ps_max (follow cap p).
Proof.
  intros [H1 H2 H3 H4 H5 H6]. destruct p as [st e lo hi rl pl g sh h f]. cbn in *.
  destruct (cap <? lo) eqn:E1, (hi <? cap) eqn:E2; zb; split; try lia; split; cbn; lia.
Qed.

Lemma count_decision_ok s failed a p :
  0 <= s -> s + 1 < 2 ^ 64 -> pool_counted s p -> pool_counted (s + 1) (count_decision failed a p).
Proof.
  intros Hs Hw [H1 H2 H3 H4 H5 H6]. destruct p as [st e lo hi rl pl g sh h f]. cbn in *.
  destruct a, failed; split; cbn; rewrite ?wrap_small by lia; lia.
Qed.

(** ** One sample *)

(** The members that the policy leaves alone. *)
Definition same_rest {X} (rc rc' : bench_run_ctx X) : Prop :=
  reg rc' = reg rc /\ ticks rc' = ticks rc /\ counts_ rc' = counts_ rc /\ resources_ rc' = resources_ rc /\
  have_prev rc' = have_prev rc /\ prev_ms rc' = prev_ms rc.

#[export] Instance same_rest_preorder {X} : PreOrder (same_rest (X := X)).
Proof. split; [by intros rc|]. unfold same_rest. intros a b c (? & ? & ? & ? & ? & ?) (? & ? & ? & ? & ? & ?). split_and!; congruence. Qed.

Lemma default_config_ok : config_ok nexus_policy_config_default.
Proof. split; unfold ulong, ULONG_MAX; cbn; lia. Qed.

Section Sample.
Context {X : Type} (wl : nexus_bench_workload X).
Context (Hcap : forall f x, wl_capacity wl = Some f -> ulong (f x)).

Lemma capacity_ulong rc : ulong (bench_capacity wl rc).
Proof. unfold bench_capacity. destruct (wl_capacity wl) as [f|] eqn:E; [by apply Hcap|]. unfold ulong, ULONG_MAX. lia. Qed.

Lemma resize_request_ok s rc target :
  pool_counted s (pool_ rc) ->
  let '(status, rc') := bench_resize_request wl rc target in pool_counted s (pool_ rc') /\ same_rest rc rc'.
Proof.
  intros Hp. unfold bench_resize_request. destruct (wl_resize wl) as [resize|]; [|by split].
  destruct (resize target (ctx rc)) as [status x]. destruct rc. cbn. split; [by apply follow_ok|done].
Qed.

Lemma adapt_ok s snap rc :
  0 <= s -> s + 1 < 2 ^ 64 -> ulong (s_memory_max snap) -> pool_counted s (pool_ rc) ->
  exists rc', adapt wl snap rc = Some rc' /\ pool_counted (s + 1) (pool_ rc') /\ same_rest rc rc'.
Proof.
  intros Hs Hw Hm Hp. unfold adapt.
  destruct (evaluate_decision _ default_config_ok eq_refl (policy rc) snap (bench_capacity wl rc) zero_decision (capacity_ulong rc) Hm)
    as (ceiling & pol & d & _ & HE & _).
  assert (forall failed pol' rc' a, pool_counted s (pool_ rc') -> same_rest rc rc' ->
    exists rc2, Some (set_pool (count_decision failed a (pool_ (set_policy pol' rc'))) (set_policy pol' rc')) = Some rc2 /\
      pool_counted (s + 1) (pool_ rc2) /\ same_rest rc rc2) as Hend.
  { intros failed pol' rc' a Hp' Hs'. eexists. split; [done|]. destruct rc'. cbn in Hp' |- *. split; [by apply count_decision_ok|exact Hs']. }
  unfold nexus_policy_apply. rewrite HE. change (negb (NEXUS_OK =? NEXUS_OK)) with false. cbn iota.
  case_bool_decide; [by apply Hend|]. pose proof (resize_request_ok s rc (target_frames d) Hp) as Hr.
  destruct (bench_resize_request wl rc (target_frames d)) as [status rc']. destruct Hr as [Hp' Hs'].
  destruct (negb (status =? NEXUS_OK)); cbn [mbind option_bind fmap option_fmap option_map]; by apply Hend.
Qed.

Context (clock : nat -> Z * Z).

(** The difference of two readings of the clock is a [long long]. *)
Definition clock_ok : Prop := forall i j, (i < j)%nat -> is_Some (d_to_llong (dsub (bench_now_ms clock j) (bench_now_ms clock i))).

(** The baseline of the CPU rate is an earlier reading. *)
Definition baseline (rc : bench_run_ctx X) (n : nat) : Prop :=
  have_prev rc = true -> exists t, (t < n)%nat /\ prev_ms rc = bench_now_ms clock t.

Definition note_same (rc rc' : bench_run_ctx X) : Prop :=
  reg rc' = reg rc /\ ticks rc' = ticks rc /\ counts_ rc' = counts_ rc /\ pool_ rc' = pool_ rc /\
  samples (resources_ rc') = samples (resources_ rc).

Lemma sample_valid_ok t snap rc :
  clock_ok -> baseline rc t -> exists rc', sample_valid (bench_now_ms clock t) snap rc = Some rc' /\ note_same rc rc' /\ baseline rc' (S t).
Proof.
  intros Hck Hb. unfold sample_valid.
  set (rc1 := set_have_pressure true _). assert (note_same rc rc1 /\ have_prev rc1 = have_prev rc /\ prev_ms rc1 = prev_ms rc) as (H1 & Hp1 & Hm1).
  { unfold rc1, note_memory. destruct rc as [? ? ? ? ? [] ? ? ? ? ? ? ? ? ?]. cbn. by split_and!. }
  clearbody rc1. assert (exists rc2, sample_cpu (bench_now_ms clock t) snap rc1 = Some rc2 /\ note_same rc1 rc2) as (rc2 & -> & H2).
  { unfold sample_cpu. destruct (have_prev rc1 && s_has_cpu snap) eqn:E; [|by exists rc1]. apply andb_true_iff in E as [E _]. rewrite Hp1 in E.
    destruct (Hb E) as (t0 & Ht & Hpm). rewrite Hm1, Hpm. destruct (Hck t0 t Ht) as [z ->]. cbn [mbind option_bind].
    destruct (SFleb _ _); [|by exists rc1]. eexists. split; [done|]. destruct rc1 as [? ? ? ? ? [] ? ? ? ? ? ? ? ? ?]. cbn. by split_and!. }
  cbn [mbind option_bind]. eexists. split; [done|]. destruct H1 as (A1 & A2 & A3 & A4 & A5), H2 as (B1 & B2 & B3 & B4 & B5).
  destruct rc2 as [r x tk c p rs po pv hp pm hpr hc hl cs cc]. cbn in *. split; [unfold note_same; cbn; split_and!; congruence|]. intros _. exists t. split; [lia|done].
Qed.

(** ** The run *)

(** After [i] steps and [s] samples. *)
Record run_ok (i s : Z) (rc : bench_run_ctx X) : Prop := {
  ro_counts : counts_ok i (counts_ rc);
  ro_samples : samples (resources_ rc) = s;
  ro_pool : pool_counted s (pool_ rc);
  ro_base : baseline rc (ticks rc) }.

Lemma bench_step_ok step i s rc : 0 <= i -> i + 1 < 2 ^ 64 -> run_ok i s rc -> run_ok (i + 1) s (bench_step clock step i rc) /\
  reg (bench_step clock step i rc) = reg rc.
Proof.
  intros Hi Hw [Hc Hs Hp Hb]. unfold bench_step, now.
  destruct (step i (ctx (set_ticks (S (ticks rc)) rc))) as [[st hit] x]. destruct rc as [r x0 tk c p rs po pv hp pm hpr hc hl cs cc]. cbn in *.
  assert (baseline (MkRun r x (S (S tk)) c p rs po pv hp pm hpr hc hl cs cc) (S (S tk))) as Hb'.
  { intros E. destruct (Hb E) as (t & Ht & Hpm). exists t. split; [lia|done]. }
  destruct (negb (st =? NEXUS_OK)); (split; [split; cbn; [by apply count_step_ok|done|done|exact Hb']|done]).
Qed.

Context {W : Type} `{OsLaws W} (fuel : nat) (pid : Z) (cfg : nexus_bench_config) (sampler : option (Z -> Z * nexus_resource_snapshot)).
Context (Hsampler : forall f n, sampler = Some f -> ulong (s_memory_max (snd (f n)))) (Hclock : clock_ok).

Lemma ulong_0 : ulong 0.
Proof. unfold ulong, ULONG_MAX. lia. Qed.

Lemma read_metrics_max path : yields (W := W) (cgroup_read_metrics path) (fun x => ulong (m_memory_max (snd x))).
Proof.
  pose proof ulong_0 as Hz. unfold cgroup_read_metrics. case_match; [by apply yields_ret|].
  apply yields_bind. intros [[[cur r1]|]|]; [|by apply yields_ret..]. apply yields_bind. intros [[[buf r2]|]|]; [|by apply yields_ret..].
  destruct (parse_max buf) as [mx|] eqn:E; [|by apply yields_ret]. apply parse_max_range in E. apply yields_bind.
  intros [[v|]|]; [by apply yields_ret|by intros ? ? ?|by apply yields_ret].
Qed.

(** Reading a container's files gives back the streams, and an [unsigned long]. *)
Lemma read_container_ok r name w0 (w : W) u :
  becomes w0 w u -> wp (nexus_bridge_read_container r name) (fun x w' => becomes w0 w' u /\ ulong (s_memory_max (default zero_snapshot (snd x)))) w.
Proof.
  intros Hb. assert (forall x, ulong (s_memory_max (default zero_snapshot x)) -> forall rc : Z,
    wp (mret (rc, x)) (fun x w' => becomes w0 w' u /\ ulong (s_memory_max (default zero_snapshot (snd x)))) w) as Hret.
  { intros x Hx rc. by apply wp_ret. }
  pose proof ulong_0 as Hz.
  unfold nexus_bridge_read_container. destruct name as [[|ch n]|]; [by apply Hret| |by apply Hret].
  destruct (container_get r _) as [c|]; [|by apply Hret]. case_bool_decide; [by apply Hret|].
  unfold nexus_bridge_read_cgroup. destruct (c_cgroup_path c) as [|ch' s']; [by apply Hret|].
  apply wp_bind. eapply wp_mono; [eapply wp_yields; [by apply cgroup_read_metrics_steady|apply read_metrics_max]|].
  cbv beta. intros [rc m] w1 [Hb1 Hm]. cbn [snd] in Hm. destruct (negb (rc =? NEXUS_OK)); [by apply wp_ret|].
  apply wp_bind. eapply wp_mono; [by apply cpu_stat_present_steady|]. intros b w2 Hb2. by apply wp_ret.
Qed.

Lemma bench_sample_ok i s rc w0 (w : W) u :
  0 <= s -> s + 1 < 2 ^ 64 -> run_ok i s rc -> becomes w0 w u ->
  wp (bench_sample clock cfg wl sampler rc) (fun rc' w' => becomes w0 w' u /\ run_ok i (s + 1) rc' /\ reg rc' = reg rc) w.
Proof.
  intros Hs Hw [Hc Hsm Hp Hba] Hb. unfold bench_sample, now. apply wp_bind.
  apply (wp_mono _ (fun r w' => becomes w0 w' u /\ ulong (s_memory_max (snd r)))).
  { destruct sampler as [f|] eqn:Es; [apply wp_ret; split; [done|by eapply Hsampler]|].
    apply wp_bind. eapply wp_mono; [by apply read_container_ok|]. intros r w1 [Hb1 Hm]. by apply wp_ret. }
  intros [status snap] w1 [Hb1 Hm]. cbn [snd] in Hm. set (rc1 := set_resources _ _).
  assert (counts_ rc1 = counts_ rc /\ samples (resources_ rc1) = s + 1 /\ pool_ rc1 = pool_ rc /\ ticks rc1 = S (ticks rc) /\ reg rc1 = reg rc /\
    baseline rc1 (ticks rc)) as (Q1 & Q2 & Q3 & Q4 & Q5 & Q6).
  { unfold rc1, count_sample. destruct rc as [r x tk c p [] po pv hp pm hpr hc hl cs cc]. cbn in *. subst s. rewrite wrap_small by lia. by split_and!. }
  clearbody rc1.
  assert (exists rc2, (if (status =? NEXUS_OK) && s_valid snap then sample_valid (bench_now_ms clock (ticks rc)) snap rc1
      else Some (set_prev (prev rc1) false (prev_ms rc1) rc1)) = Some rc2 /\ note_same rc1 rc2 /\ baseline rc2 (S (ticks rc))) as (rc2 & HX & N2 & B2).
  { destruct (_ && _); [by apply sample_valid_ok|]. eexists. split; [done|]. destruct rc1. by split. }
  rewrite HX. apply wp_bind. unfold wp at 1, of_option. cbn [mbind option_bind].
  destruct N2 as (N1 & N2 & N3 & N4 & N5). destruct (adapt_ok s snap rc2) as (rc3 & HA & Hp3 & (S1 & S2 & S3 & S4 & S5 & S6)); [done|done|done|by rewrite N4, Q3|].
  rewrite HA. unfold wp, of_option. cbn [mbind option_bind]. split; [exact Hb1|]. split; [|congruence].
  split; [by rewrite S3, N3, Q1|by rewrite S4, N5, Q2|done|]. unfold baseline in *. by rewrite S5, S6, S2, N2, Q4.
Qed.

(** How many of the first [i] rounds take a sample. *)
Definition rounds_sampled (every i : Z) : Z := (i + every - 1) / every.

Lemma rounds_sampled_next every i : 0 < every -> 0 <= i ->
  rounds_sampled every (i + 1) = if i mod every =? 0 then rounds_sampled every i + 1 else rounds_sampled every i.
Proof.
  intros He Hi. unfold rounds_sampled. pose proof (Z.div_mod i every ltac:(lia)). pose proof (Z.mod_pos_bound i every He).
  set (q := i / every) in *. set (r := i mod every) in *. replace (i + 1 + every - 1) with (r + (q + 1) * every) by lia.
  rewrite Z.div_add, (Z.div_small r) by lia. destruct (r =? 0) eqn:E; zb.
  - replace (i + every - 1) with ((every - 1) + q * every) by lia. rewrite Z.div_add, Z.div_small by lia. lia.
  - replace (i + every - 1) with ((r - 1) + (q + 1) * every) by lia. rewrite Z.div_add, Z.div_small by lia. lia.
Qed.

Lemma rounds_sampled_le every i : 0 < every -> 0 <= i -> 0 <= rounds_sampled every i <= i.
Proof.
  intros He Hi. unfold rounds_sampled. split; [apply Z.div_pos; lia|]. destruct (decide (i = 0)) as [->|]; [rewrite Z.div_small; lia|].
  apply Z.div_le_upper_bound; nia.
Qed.

Lemma bench_loop_ok step every n i rc w0 (w : W) u :
  0 < every -> 0 <= i -> i + Z.of_nat n + 1 < 2 ^ 64 -> run_ok i (rounds_sampled every i) rc -> becomes w0 w u ->
  wp (bench_loop clock cfg wl sampler step every n i rc) (fun rc' w' => becomes w0 w' u /\
    run_ok (i + Z.of_nat n) (rounds_sampled every (i + Z.of_nat n)) rc' /\ reg rc' = reg rc) w.
Proof.
  intros He. revert i rc w. induction n as [|n IH]; intros i rc w Hi Hw Hr Hb; cbn [bench_loop].
  { apply wp_ret. split; [done|]. by rewrite Z.add_0_r. }
  pose proof (rounds_sampled_le every i He Hi) as Hle.
  apply wp_bind, (wp_mono _ (fun rc' w' => becomes w0 w' u /\ run_ok i (rounds_sampled every (i + 1)) rc' /\ reg rc' = reg rc)).
  { rewrite rounds_sampled_next by done. destruct (i mod every =? 0); [|by apply wp_ret]. apply bench_sample_ok; [lia|lia|done|done]. }
  intros rc1 w1 (Hb1 & Hr1 & Hg1). destruct (bench_step_ok step i _ rc1 Hi ltac:(lia) Hr1) as [Hr2 Hg2].
  eapply wp_mono; [apply (IH (i + 1)); [lia|lia|exact Hr2|exact Hb1]|]. intros rc3 w3 (Hb3 & Hr3 & Hg3).
  replace (i + 1 + Z.of_nat n) with (i + Z.of_nat (S n)) in Hr3 by lia. split; [done|]. split; [done|congruence].
Qed.

(** ** The container of the run *)

(** The registry is well formed, and the children of the process are its
    workloads. *)
Definition good (u0 : usage) (r : registry) (w : W) : Prop := reg_ok r /\ tracks u0 r (use w) /\ (interrupts w < fuel)%nat.

Lemma good_steady u0 r (w w' : W) : good u0 r w -> steady w w' -> good u0 r w'.
Proof. intros (Hr & Ht & Hi) [Hu Hi']. split; [done|]. rewrite Hu. split; [done|lia]. Qed.

Lemma cop_good u0 op r w :
  is_adopt op = false -> cop_typed op -> good u0 r w -> wp (run_cop fuel op r) (fun y w' => good u0 (snd y) w') w.
Proof.
  intros Ha Hop (Hr & Ht & Hf). apply (wp_mono _ (fun x w' => step_ok op r w x w')).
  { destruct op; [by apply create_step|done|by apply start_step|by apply stop_step|by apply delete_step]. }
  intros [rc r1] w1 [(Hr1 & _) Htr]. cbn [snd] in *. destruct (Htr u0 Ht) as [Ht1 Hi]. split; [done|]. split; [done|lia].
Qed.

Lemma write_pid_steady path : returns_steady (W := W) (write_pid pid path).
Proof.
  intros w0 w u Hb. unfold write_pid. apply wp_bind. eapply wp_fopen_w; [done| |].
  - intros f w1 Hf Hb1. apply wp_bind. eapply wp_steady; [done|intros ?; apply law_fprintf|]. intros b w2 Hb2.
    destruct (negb b); apply wp_bind; (eapply wp_fclose; [done|done|]); intros c w3 Hb3; by apply wp_ret.
  - intros w1 Hb1. by apply wp_ret.
Qed.

Lemma discard_good u0 r w : good u0 r w -> wp (discard cfg r) (fun r' w' => good u0 r' w') w.
Proof.
  intros G. unfold discard. apply wp_bind. eapply wp_mono; [apply (cop_good u0 (OpStop (container_name cfg))); [done|done|exact G]|].
  intros a w1 G1. apply wp_bind. eapply wp_mono; [apply (cop_good u0 (OpDelete (container_name cfg))); [done|done|exact G1]|].
  intros b w2 G2. by apply wp_ret.
Qed.

Lemma release_good u0 bound path r w : good u0 r w -> wp (release pid cfg bound path r) (fun r' w' => good u0 r' w') w.
Proof.
  intros G. unfold release. apply wp_bind. apply (wp_mono _ (fun _ w' => steady w w')).
  { destruct bound; [|by apply wp_ret]. unfold bench_unbind_self. destruct (_ =? _)%string; [by apply wp_ret|]. apply (write_pid_steady _ w w (use w)). by split. }
  intros _ w1 S1. eapply discard_good, good_steady; [exact G|exact S1].
Qed.

Lemma acquire_good u0 r w : good u0 r w -> wp (acquire fuel pid cfg r) (fun a w' => good u0 (snd a) w') w.
Proof.
  intros G. unfold acquire. assert (forall r w, good u0 r w ->
    wp (container_create r (container_name cfg) (limit_bytes cfg) 50 (engine_path cfg)) (fun a w' => good u0 (snd a) w') w) as Hcr.
  { intros r0 w1 G1. apply (cop_good u0 (OpCreate (container_name cfg) (limit_bytes cfg) 50 (engine_path cfg) None)); [done| |exact G1].
    split; [|lia]. unfold limit_bytes, ULONG_MAX. pose proof (wrap_range 64 (u64 (limit_mb cfg * 1024) * 1024) ltac:(lia)). lia. }
  apply wp_bind. eapply wp_mono; [by apply Hcr|]. intros a w1 G1.
  apply wp_bind, (wp_mono _ (fun a w' => good u0 (snd a) w')).
  { destruct (fst a =? _); [|by apply wp_ret]. apply wp_bind. eapply wp_mono; [apply discard_good, G1|]. intros r2 w2 G2. by apply Hcr. }
  intros [status r2] w2 G2. cbn [snd] in G2. destruct (negb _); [by apply wp_ret|]. destruct (container_get r2 _) as [c|]; [|by apply wp_ret].
  apply wp_bind, (wp_mono _ (fun _ w' => good u0 r2 w')).
  { eapply wp_mono; [|intros b w3; apply good_steady, G2]. destruct (negb _); [|by apply wp_ret]. unfold bench_bind_self.
    destruct (_ =? _)%string; [by apply wp_ret|]. apply (write_pid_steady _ w2 w2 (use w2)). by split. }
  intros b w3 G3. apply wp_bind. eapply wp_mono; [apply (cop_good u0 (OpStart (container_name cfg))); [done|done|exact G3]|].
  intros [st r3] w4 G4. cbn [fst snd] in G4 |- *. destruct (negb _); [|by apply wp_ret].
  apply wp_bind. eapply wp_mono; [by apply release_good|]. intros r5 w5 G5. by apply wp_ret.
Qed.

(** ** The result *)

Definition every : Z := if sample_every cfg =? 0 then 1 else sample_every cfg.

(** What a result says of the run that it is of. *)
Record accounts (res : nexus_bench_result) : Prop := {
  ac_iterations : h_iterations (header res) = iterations cfg;
  ac_counts : counts_ok (iterations cfg) (counts res);
  ac_samples : samples (resources res) = rounds_sampled every (iterations cfg) + 1;
  ac_pool : pool_counted (samples (resources res)) (pool res);
  ac_end : ps_min (pool res) <= end_frames (pool res) <= ps_max (pool res) }.

Lemma finish_ok i s rc : run_ok i s rc ->
  let rc' := finish wl rc in counts_ok i (counts_ rc') /\ samples (resources_ rc') = s /\ pool_counted s (pool_ rc') /\
    ps_min (pool_ rc') <= end_frames (pool_ rc') <= ps_max (pool_ rc') /\ reg rc' = reg rc.
Proof.
  intros [Hc Hs Hp _]. unfold finish, pool_end. destruct (follow_ok s (bench_capacity wl rc) (pool_ rc) Hp) as [[P1 P2 P3 P4 P5 P6] Hr].
  destruct (follow (bench_capacity wl rc) (pool_ rc)) as [st e lo hi rl pl g sh h f].
  destruct rc as [r x tk [] p [] po pv hp pm hpr hc hl cs cc]. cbn in *. destruct Hc as [C1 C2 C3 C4 C5 C6]. cbn in *.
  split_and!; [by split|done|by split|lia..|done].
Qed.

(** A run without a container whose workload opens. *)
Definition ready (args : bool) (x : X) : Prop :=
  args = true /\ manage_container cfg = 0 /\ is_Some sampler /\
  exists open step close, wl_open wl = Some open /\ wl_step wl = Some step /\ wl_close wl = Some close /\ fst (open cfg x) = NEXUS_OK.

Lemma every_pos : 0 <= sample_every cfg -> 0 < every.
Proof. unfold every. case_match; zb; lia. Qed.

Lemma run_begins r x : 0 <= sample_every cfg ->
  let rc := MkRun r x 0 counts0 pool_stats0 resource_stats0 nexus_policy_init zero_snapshot false dzero false false false dzero 0 in
  run_ok 0 (rounds_sampled every 0) (set_pool (pool_begin (bench_capacity wl rc)) rc).
Proof.
  intros He rc. apply every_pos in He. unfold rounds_sampled. rewrite Z.div_small by lia.
  split; cbn; [by split|done|split; cbn; lia|by intros ?].
Qed.

(** The measured part of a run: the loop and the last sample. *)
Lemma measured_ok {A} step rc w0 (w : W) u (k : bench_run_ctx X -> M W A) Q :
  0 <= sample_every cfg -> 0 <= iterations cfg -> iterations cfg + 2 < 2 ^ 64 -> run_ok 0 (rounds_sampled every 0) rc -> becomes w0 w u ->
  (forall rc' w', becomes w0 w' u -> run_ok (iterations cfg) (rounds_sampled every (iterations cfg) + 1) rc' -> reg rc' = reg rc -> wp (k rc') Q w') ->
  wp (rc ← bench_loop clock cfg wl sampler step every (Z.to_nat (iterations cfg)) 0 rc; rc ← bench_sample clock cfg wl sampler rc; k rc) Q w.
Proof.
  intros He Hi Hw Hr Hb Hk. apply every_pos in He. apply wp_bind. eapply wp_mono; [apply bench_loop_ok; [done|lia|lia|exact Hr|exact Hb]|].
  rewrite Z2Nat.id, Z.add_0_l by done. intros rc1 w1 (Hb1 & Hr1 & Hg1). pose proof (rounds_sampled_le every _ He Hi).
  apply wp_bind. eapply wp_mono; [eapply (bench_sample_ok (iterations cfg) (rounds_sampled every (iterations cfg))); [lia|lia|exact Hr1|exact Hb1]|].
  intros rc2 w2 (Hb2 & Hr2 & Hg2). apply Hk; [done|done|congruence].
Qed.

(** What a run leaves. *)
Definition run_post (u0 : usage) (args : bool) (x : X) (y : Z * option nexus_bench_result * registry * X) (w' : W) : Prop :=
  let '(rc, out, r', _) := y in
  good u0 r' w' /\ (ready args x -> is_Some out) /\
  match out with Some res => rc = NEXUS_OK /\ accounts res | None => rc <> NEXUS_OK end.

Lemma run_error u0 args x rc r' (x' : X) (w' : W) :
  rc <> NEXUS_OK -> good u0 r' w' -> ~ ready args x -> wp (mret (rc, None, r', x')) (run_post u0 args x) w'.
Proof. intros Hrc G Hn. apply wp_ret. split; [done|]. split; [|done]. intros Q. by destruct (Hn Q). Qed.

(** A run of the benchmark always returns, whatever the workload and the
    kernel do, and its numbers add up.  A result comes with [NEXUS_OK] and only
    with it: the steps that ran and those that failed are the iterations asked
    for, the hits and misses are the steps that ran, one sample was taken in
    every [sample_every] rounds and one at the end, each sample ends in one
    decision, no more resizes failed than decisions were made, and the first and
    last capacities lie between the recorded least and greatest.  On every path
    the registry stays well formed and the process keeps no stream or child but
    the workloads of the registry's containers.  Without a container, a workload
    that opens gives a result. *)
Theorem bench_run_accounts u0 args r x (w : W) :
  0 <= sample_every cfg -> 0 <= iterations cfg -> iterations cfg + 2 < 2 ^ 64 -> good u0 r w ->
  wp (nexus_bench_run fuel clock pid cfg wl sampler args r x) (run_post u0 args x) w.
Proof.
  intros He Hi Hw G. unfold nexus_bench_run. pose proof (run_error u0 args x) as Herr.
  unfold ready in *.
  destruct (wl_open wl) as [open|]; [|apply Herr; [done|done|naive_solver]]. destruct (wl_step wl) as [step|]; [|apply Herr; [done|done|naive_solver]].
  destruct (wl_close wl) as [close|]; [|apply Herr; [done|done|naive_solver]].
  set (managed := negb (manage_container cfg =? 0)) in *. destruct (negb args || _) eqn:Ea.
  { apply Herr; [done|done|]. intros (-> & Em & [f Ef] & _). unfold managed in Ea. rewrite Em, Ef in Ea. done. }
  apply wp_bind, (wp_mono _ (fun a w' => good u0 (snd a) w' /\ (managed = false -> a = (NEXUS_OK, false, ""%string, r)))).
  { destruct managed; [|by apply wp_ret]. eapply wp_mono; [apply acquire_good, G|]. by intros a w' Ga. }
  intros [[[status bound] path] r1] w1 [G1 Hm]. cbn [snd] in G1. destruct (negb (status =? NEXUS_OK)) eqn:Es.
  { apply Herr; [zb; done|done|]. intros (_ & Em & _). unfold managed in Hm. rewrite Em in Hm. by injection (Hm eq_refl) as -> -> -> ->. }
  assert (forall r' w', good u0 r' w' -> wp (if managed then release pid cfg bound path r' else mret r') (fun r' w' => good u0 r' w') w') as Hrel.
  { intros r' w' G'. destruct managed; [by apply release_good|by apply wp_ret]. }
  destruct (open cfg x) as [st x1] eqn:Eo. destruct (negb (st =? NEXUS_OK)) eqn:Est.
  { apply wp_bind. eapply wp_mono; [by apply Hrel|]. intros r2 w2 G2. apply Herr; [zb; done|done|].
    intros (_ & _ & _ & ? & ? & ? & [= <-] & _ & _ & E). rewrite Eo in E. cbn in E. by subst st. }
  eapply (measured_ok _ _ w1 w1 (use w1)); [done|done|done|by apply run_begins|by split|]. intros rc w2 Hb Hr Hg.
  destruct (finish_ok _ _ _ Hr) as (F1 & F2 & F3 & F4 & F5). apply wp_bind. eapply wp_mono.
  { apply Hrel. eapply good_steady; [|exact Hb]. rewrite F5, Hg. exact G1. }
  intros r3 w3 G3. apply wp_ret. split; [done|]. split; [done|]. split; [done|]. by split; cbn; rewrite ?F2.
Qed.
End Sample.

(** ** A run *)

(** A pool of [x] frames, in which the even steps hit and every fifth fails. *)
Definition toy_workload : nexus_bench_workload Z :=
  MkWorkload (Some (fun cfg _ => (NEXUS_OK, pool_frames_start cfg)))
    (Some (fun i x => if i mod 5 =? 4 then (NEXUS_ERR_PROCESS, 0, x) else (NEXUS_OK, if i mod 2 =? 0 then 1 else 0, x)))
    (Some (fun x => if x <=? ULONG_MAX then Z.max 0 x else 0)) (Some (fun _ => 3)) (Some (fun _ => 0)) (Some (fun n _ => (NEXUS_OK, n))) (Some (fun x => x)).

(** Twelve rounds in a container, a sample in every fifth. *)
Definition toy_config : nexus_bench_config :=
  MkBenchConfig (Some "toy"%string) (Some "db"%string) (Some "toy.db"%string) (Some "/bin/db"%string) 1 64 12 5 256 8 0 1 1.

Definition toy_clock : nat -> Z * Z := fun _ => (0, 0).

Definition toy_run : option (Z * option nexus_bench_result * registry * Z * sim) :=
  nexus_bench_run 1 toy_clock 41 toy_config toy_workload None true empty_registry 0 (boot []).

Lemma toy_run_returns : exists rc res r x w, toy_run = Some (rc, Some res, r, x, w) /\ steps_run (counts res) = 10 /\ samples (resources res) = 4.
Proof. do 5 eexists. split; [vm_compute; reflexivity|by split]. Qed.

Lemma toy_capacity f x : wl_capacity toy_workload = Some f -> ulong (f x).
Proof. intros [= <-]. unfold ulong. case_match; zb; unfold ULONG_MAX in *; lia. Qed.

Lemma toy_clock_ok : clock_ok toy_clock.
Proof. intros i j _. exists 0. by vm_compute. Qed.

Lemma bench_run_accounts_witness :
  exists rc res r x w, toy_run = Some (rc, Some res, r, x, w) /\ good 1 (use (boot [])) r w /\ accounts toy_config res /\
    steps_run (counts res) = 10 /\ samples (resources res) = 4.
Proof.
  assert (good 1 (use (boot [])) empty_registry (boot [])) as G0.
  { split; [apply empty_registry_ok|]. split; [apply empty_registry_tracks|]. apply Nat.ltb_lt. reflexivity. }
  pose proof (bench_run_accounts toy_workload toy_capacity toy_clock 1 41 toy_config None (fun f n => ltac:(discriminate)) toy_clock_ok
    (use (boot [])) true empty_registry 0 (boot []) ltac:(done) ltac:(done) ltac:(done) G0) as T.
  unfold wp in T. destruct toy_run_returns as (rc & res & r & x & w & E & Hc). unfold toy_run in E. rewrite E in T.
  destruct T as (G & _ & _ & Ha). exists rc, res, r, x, w. split; [exact E|]. split; [exact G|]. split; [exact Ha|exact Hc].
Defined.
