(* ===== verification/BenchEngine.v ===== *)
(** * The benchmark's engine workload

    [src/benchmark/engine_workload.cpp]: the callbacks that drive a buffer pool
    over a page storage for the harness.  The workload comes with the file at its
    path and with the outcomes of the allocations of its resizes.  The pointers
    that the harness passes are not null, it opens a workload that is closed, and
    there is memory for the first pool. *)

From stdpp Require Import gmap.
From S2P Require Import Prelude Bytes Common CStr Telemetry AdaptationPolicy PageStorage BufferPool BufferPoolSpec Os Sim Process Container ContainerSpec Bridge Dashboard Harness HarnessSpec.

Local Open Scope Z_scope.

(** ** State *)

Record EngineWorkload := MkEngine {
  ew_storage : option storage; ew_pool : option BufferPool; ew_page_count : Z; ew_dirty_every : Z; ew_rng : Z; ew_random : Z }.

Record host := MkHost { h_found : at_path; h_allocs : list alloc }.
Abbreviation workload := (EngineWorkload * host)%type.

Definition set_file (file : option (list Z)) (future : list io) (h : host) : host :=
  let 'MkHost (MkAtPath _ rw se cr ro _) allocs := h in MkHost (MkAtPath file rw se cr ro future) allocs.
(** The file as a storage that is gone leaves it. *)
Definition leave (st : storage) (h : host) : host := set_file (Some (st_bytes st)) (fs_future (st_file st)) h.

#[global] Arguments set_file : simpl never.
#[global] Arguments leave : simpl never.

Definition next_alloc (h : host) : alloc * host := (hd AllocOk (h_allocs h), MkHost (h_found h) (tl (h_allocs h))).

Definition NextRand (state : Z) : Z :=
  let x := Z.lxor state (u64 (Z.shiftl state 13)) in
  let x := Z.lxor x (Z.shiftr x 7) in
  Z.lxor x (u64 (Z.shiftl x 17)).

(** ** Operations *)

(** [while (have < w->page_count)]: [n] is their difference, and [have] cannot
    pass the last page id, beyond which [AllocatePage] fails. *)
Fixpoint fill (n : nat) (st : storage) : Status * storage :=
  match n with
  | O => (StatusOk, st)
  | S n =>
      let '(s, _, st) := AllocatePage (Some PageDefault) st in
      if negb (ok s) then (s, st) else fill n st
  end.

Definition bench_path (cfg : nexus_bench_config) : string :=
  match db_path cfg with
  | Some p => if (p =? "")%string then "data/benchmark.db"%string else p
  | None => "data/benchmark.db"%string
  end.

Definition bench_engine_open (cfg : nexus_bench_config) (x : workload) : Z * workload :=
  let '(w, h) := x in
  let pages := if page_count cfg =? 0 then 1 else page_count cfg in
  let w := MkEngine (ew_storage w) (ew_pool w) pages (dirty_every cfg) (if negb (random_seed cfg =? 0) then random_seed cfg else 1) (random cfg) in
  let '(s, st, file) := PageStorage.Open (bench_path cfg) (h_found h) in
  match st with
  | None => (NEXUS_ERR_PROCESS, (w, set_file file (ap_future (h_found h)) h))
  | Some st =>
      let '(s, have, st) := NumPages st in
      if negb (ok s) then (NEXUS_ERR_PROCESS, (w, leave st h)) else
      let '(s, st) := fill (Z.to_nat (pages - have)) st in
      if negb (ok s) then (NEXUS_ERR_PROCESS, (w, leave st h)) else
      match BufferPool.Create true true (if pool_frames_start cfg =? 0 then 1 else pool_frames_start cfg) with
      | (s, Some pool) =>
          if negb (ok s) then (NEXUS_ERR_PROCESS, (w, leave st h)) else
          (NEXUS_OK, (MkEngine (Some st) (Some pool) pages (ew_dirty_every w) (ew_rng w) (ew_random w), h))
      | (_, None) => (NEXUS_ERR_PROCESS, (w, leave st h))
      end
  end.

(** The page of a step, and the generator after it. *)
Definition pick (index : Z) (w : EngineWorkload) : Z * Z :=
  if negb (ew_random w =? 0) then let r := NextRand (ew_rng w) in (u32 (r mod ew_page_count w), r)
  else (u32 (index mod ew_page_count w), ew_rng w).

(** The code, the flag (which keeps the caller's zero on the first return) and
    the workload. *)
Definition bench_engine_step (index : Z) (x : workload) : Z * Z * workload :=
  let '(w, h) := x in
  match ew_pool w, ew_storage w with
  | Some pool, Some st =>
      let '(id, rng) := pick index w in
      let cache_hit := if Contains id pool then 1 else 0 in
      let '(s, handle, pool, st) := Fetch true id pool st in
      let w pool := MkEngine (Some st) (Some pool) (ew_page_count w) (ew_dirty_every w) rng (ew_random w) in
      if negb (ok s) then (NEXUS_ERR_PROCESS, cache_hit, (w (DestroyHandle handle pool), h)) else
      let pool := if negb (ew_dirty_every (w pool) =? 0) && (index mod ew_dirty_every (w pool) =? 0)
                  then match handle with Some i => HandleMarkDirty i pool | None => pool end else pool in
      (NEXUS_OK, cache_hit, (w (DestroyHandle handle pool), h))
  | _, _ => (NEXUS_ERR_STATE, 0, x)
  end.

Definition bench_engine_capacity (x : workload) : Z := match ew_pool (fst x) with Some pool => u64 (bp_capacity pool) | None => 0 end.
Definition bench_engine_resident (x : workload) : Z := match ew_pool (fst x) with Some pool => u64 (pool_size pool) | None => 0 end.
Definition bench_engine_pinned (x : workload) : Z := match ew_pool (fst x) with Some pool => u64 (pinned_frames pool) | None => 0 end.

Definition bench_engine_resize (target_frames : Z) (x : workload) : Z * workload :=
  let '(w, h) := x in
  match ew_pool w, ew_storage w with
  | Some pool, Some st =>
      let '(a, h) := next_alloc h in
      match nexus_bridge_buffer_pool_request a (Some (pool, st)) target_frames with
      | (rc, Some (pool, st)) => (rc, (MkEngine (Some st) (Some pool) (ew_page_count w) (ew_dirty_every w) (ew_rng w) (ew_random w), h))
      | (rc, None) => (rc, (w, h))
      end
  | _, _ => (NEXUS_ERR_STATE, x)
  end.

Definition bench_engine_close (x : workload) : workload :=
  let '(w, h) := x in
  let st := match ew_pool w, ew_storage w with
            | Some pool, Some st =>
                (* [FlushAll], and once more in the destructor of the pool. *)
                let '(_, pool, st) := FlushAll pool st in
                let '(_, _, st) := FlushAll pool st in Some st
            | _, st => st
            end in
  (MkEngine None None (ew_page_count w) (ew_dirty_every w) (ew_rng w) (ew_random w),
   match st with Some st => leave (snd (PageStorage.Close st)) h | None => h end).

Definition nexus_bench_engine_workload : nexus_bench_workload workload :=
  MkWorkload (Some bench_engine_open) (Some bench_engine_step) (Some bench_engine_capacity) (Some bench_engine_resident)
    (Some bench_engine_pinned) (Some bench_engine_resize) (Some bench_engine_close).

(** ** A session *)

Inductive bench_op := BStep (index : Z) | BResize (target : Z).
Definition bench_op_ok (op : bench_op) : Prop := match op with BStep i => 0 <= i | BResize n => 0 <= n end.

Definition bench_do (op : bench_op) (x : workload) : Z * workload :=
  match op with
  | BStep i => let '(rc, _, x) := bench_engine_step i x in (rc, x)
  | BResize n => bench_engine_resize n x
  end.
Fixpoint bench_session (ops : list bench_op) (x : workload) : list Z * workload :=
  match ops with
  | [] => ([], x)
  | op :: ops => let '(rc, x) := bench_do op x in let '(rcs, x) := bench_session ops x in (rc :: rcs, x)
  end.

(** The pages of the file are [init], whatever the pool holds, and no frame is
    pinned. *)
Definition engine_ok (init : Z -> option (list Z)) (x : workload) : Prop :=
  exists st bp, ew_storage (fst x) = Some st /\ ew_pool (fst x) = Some bp /\ 0 < ew_page_count (fst x) /\ client_ok init (MkClient [] bp st []).

Lemma mark_dirty_write i bp f : bp_frames bp !! i = Some f -> HandleMarkDirty i bp = HandleWrite i (page_data (f_page f)) bp.
Proof.
  intros Hl. unfold HandleWrite, HandleMarkDirty, upd_frame. cbn. unfold with_frames. f_equal.
  set (g := fun f0 => set_page (set_data _ _) f0). rewrite (BufferPool.alter_insert g _ _ _ Hl), (BufferPool.alter_insert _ _ _ _ Hl).
  rewrite (BufferPool.alter_insert _ _ (g f)) by (apply list_lookup_insert_eq; by eapply lookup_lt_Some).
  rewrite list_insert_insert_eq. by destruct f as [[] ? ? ?].
Qed.

Section Session.
Context (init : Z -> option (list Z)).

(** Marking a page dirty through a handle, and dropping the handle. *)
Lemma mark_ok i id bp (st : storage) : client_ok init (MkClient [(i, id)] bp st []) -> client_ok init (MkClient [(i, id)] (HandleMarkDirty i bp) st []).
Proof.
  intros C. pose proof C as (I & Hh & Hlog). cbn [c_pool c_env c_handles c_writes] in *.
  destruct (handles_frame _ _ Hh i id) as (f & Hl & Hu & Hid); [by left|].
  destruct (inv_frames _ _ I _ _ Hl) as (_ & _ & Hf). destruct (Hf Hu) as ((Hb1 & Hb2 & _) & _). pose proof (conj Hb1 Hb2 : buf_ok kPageSize _) as Hb.
  rewrite (mark_dirty_write _ _ _ Hl). destruct (write_step init 0 (page_data (f_page f)) _ _ _ C Hb eq_refl) as (I' & Hh' & Hlog').
  cbn [c_pool c_env c_handles c_writes] in *. split; [done|]. split; [done|]. cbn. intros j. rewrite Hlog', after_writes_cons.
  case_decide as E; [|done]. subst j. unfold after_writes. cbn. change (init id) with (after_writes [] init id). rewrite <- Hlog.
  destruct (resident_at _ _ _ _ I Hl Hu) as [_ Hr]. unfold logical. rewrite <- Hid, Hr. done.
Qed.

Lemma drop_ok i id bp (st : storage) : client_ok init (MkClient [(i, id)] bp st []) -> client_ok init (MkClient [] (DestroyHandle (Some i) bp) st []).
Proof. intros C. exact (unpin_step init 0 _ _ _ C eq_refl). Qed.

Lemma pick_range index w : 0 <= fst (pick index w) <= kInvalidId.
Proof.
  unfold pick, kInvalidId. destruct (negb _); cbn [fst].
  - pose proof (wrap_range 32 (NextRand (ew_rng w) mod ew_page_count w) ltac:(lia)). lia.
  - pose proof (wrap_range 32 (index mod ew_page_count w) ltac:(lia)). lia.
Qed.

Lemma step_kept index x rc hit x' :
  engine_ok init x -> bench_engine_step index x = (rc, hit, x') -> engine_ok init x' /\ (rc = NEXUS_OK \/ rc = NEXUS_ERR_PROCESS).
Proof.
  destruct x as [[ost obp pages dirty rng rnd] h]. intros (st & bp & Hst & Hbp & Hpc & C). cbn in Hst, Hbp, Hpc. subst ost obp. unfold bench_engine_step.
  cbn [ew_pool ew_storage ew_page_count ew_dirty_every ew_random].
  pose proof (pick_range index (MkEngine (Some st) (Some bp) pages dirty rng rnd)) as Hid. destruct (pick index _) as [id rng']. cbn [fst] in Hid.
  destruct (Fetch true id bp st) as [[[s hd] bp1] st1] eqn:HF.
  pose proof (fetch_step init id (MkClient [] bp st []) s (MkClient (match hd with Some i => [(i, id)] | None => [] end) bp1 st1 []) C Hid) as C1.
  cbn [pool_step] in C1. rewrite HF in C1. specialize (C1 eq_refl). pose proof C as (I & _). destruct (Fetch_spec _ _ _ _ _ _ _ I Hid HF) as (_ & _ & Hr).
  destruct hd as [i|].
  - destruct Hr as [-> _]. cbn [ok code negb]. intros [= <- <- <-]. split; [|by left]. eexists _, _. split; [done|]. split; [done|]. split; [done|].
    eapply drop_ok. destruct (_ && _); [by apply mark_ok|done].
  - destruct Hr as [-> _]. intros [= <- <- <-]. split; [|by right]. by eexists _, _.
Qed.

Lemma resize_kept n x rc x' :
  0 <= n -> engine_ok init x -> bench_engine_resize n x = (rc, x') -> engine_ok init x' /\ (rc = NEXUS_OK \/ rc = NEXUS_ERR_PROCESS \/ rc = NEXUS_ERR_INVALID).
Proof.
  destruct x as [[ost obp pages dirty rng rnd] h]. intros Hn (st & bp & Hst & Hbp & Hpc & C). cbn in Hst, Hbp, Hpc. subst ost obp. unfold bench_engine_resize.
  cbn [ew_pool ew_storage]. destruct (next_alloc h) as [a h']. unfold nexus_bridge_buffer_pool_request.
  destruct (n =? 0). { intros [= <- <-]. split; [by eexists _, _|auto]. }
  destruct (Resize a n bp st) as [[s bp1] st1] eqn:HR. intros [= <- <-]. split; [|destruct (ok s); auto].
  eexists _, _. split; [done|]. split; [done|]. split; [done|].
  eapply (pool_step_ok init (PResize a n) (MkClient [] bp st []) s); [exact C|exact Hn|]. cbn [pool_step]. by rewrite HR.
Qed.

Lemma session_kept ops x rcs x' :
  Forall bench_op_ok ops -> engine_ok init x -> bench_session ops x = (rcs, x') ->
  engine_ok init x' /\ Forall (fun rc => rc = NEXUS_OK \/ rc = NEXUS_ERR_PROCESS \/ rc = NEXUS_ERR_INVALID) rcs.
Proof.
  intros Hops. revert x rcs. induction Hops as [|op ops Hop _ IH]; intros x rcs C; cbn [bench_session]; [by intros [= <- <-]|].
  destruct (bench_do op x) as [rc x1] eqn:Ed. destruct (bench_session ops x1) as [rcs1 x2] eqn:Es. intros [= <- <-].
  assert (engine_ok init x1 /\ (rc = NEXUS_OK \/ rc = NEXUS_ERR_PROCESS \/ rc = NEXUS_ERR_INVALID)) as [C1 Hrc].
  { destruct op as [i|n]; cbn [bench_do] in Ed; [|by eapply resize_kept].
    destruct (bench_engine_step i x) as [[rc' hit] x0] eqn:E. injection Ed as <- <-. apply (step_kept _ _ _ _ _ C) in E. tauto. }
  destruct (IH _ _ C1 Es) as [C2 Hf]. split; [done|by constructor].
Qed.
End Session.

(** ** Opening and closing *)

(** Page [id] of a file. *)
Definition page_of (bytes : list Z) (id : Z) : option (list Z) :=
  if (0 <=? id) && (id <? zlen bytes / kPageSize) then Some (sub bytes (PageOffset id) kPageSize) else None.

Lemma contents_page_of st id : contents st id = page_of (st_bytes st) id.
Proof. done. Qed.

Definition file_ok (bytes : list Z) : Prop := bytes_ok bytes /\ zlen bytes / kPageSize <= kInvalidId.

Lemma open_ok path ap s st file :
  file_ok (default [] (ap_file ap)) -> PageStorage.Open path ap = (s, Some st, file) -> st_ok st /\ st_bytes st = default [] (ap_file ap).
Proof.
  assert (forall bytes fut s st, file_ok bytes -> Open_checked path (fresh_stream bytes fut) = (s, Some st) -> st_ok st /\ st_bytes st = bytes) as Hc.
  { intros bytes fut s0 st0 [Hb Hp]. unfold Open_checked, FileSize, fs_tellg, fs_seek_end, fresh_stream, next_io. pose proof (zlen_nonneg bytes).
    destruct fut as [|[|] [|[|] fut]]; cbn; try done; (destruct (zlen bytes =? -1) eqn:?; [done|]); cbn;
      (destruct (zlen bytes <? 0) eqn:?; [done|]); cbn; (destruct (Z.rem _ _ =? 0) eqn:R; cbn; [|done]); intros [= <- <-]; zb;
      (split; [split_and!; [done|done|by apply Z.rem_divide|exact Hp]|done]). }
  intros Hf. unfold PageStorage.Open. case_bool_decide; [done|]. destruct ap as [[bytes|] rw se cr ro fut]; cbn in *.
  - destruct rw; [|by destruct se]. destruct (Open_checked _ _) as [s1 [st1|]] eqn:E; [|done]. intros [= <- <- <-]. by eapply Hc.
  - destruct se, cr, ro; cbn; try done. destruct (Open_checked _ _) as [s1 [st1|]] eqn:E; [|done]. intros [= <- <- <-]. by eapply Hc.
Qed.

Lemma open_failed path ap s file bytes : PageStorage.Open path ap = (s, None, file) -> ap_file ap = Some bytes -> file = Some bytes.
Proof. unfold PageStorage.Open. intros E Hb. rewrite Hb in E. destruct (bool_decide _), (ap_rw ap), (ap_stat_error ap); congruence. Qed.

Lemma fill_ok n st s st' : st_ok st -> fill n st = (s, st') ->
  (forall j, j < npages st -> contents st' j = contents st j) /\
  (ok s = true -> st_ok st' /\ npages st' = npages st + Z.of_nat n /\ forall j, npages st <= j < npages st' -> contents st' j = Some zero_data).
Proof.
  revert st. induction n as [|n IH]; intros st Hok; cbn [fill].
  { intros [= <- <-]. split; [done|]. intros _. split; [done|]. split; [lia|]. intros j Hj. lia. }
  destruct (AllocatePage_spec PageDefault st Hok) as (s1 & out & st1 & -> & _ & Hkeep & [(-> & _ & Hok1 & Hn & Hz)|(Hc & _)]).
  - cbn [ok code negb]. intros HF. destruct (IH st1 Hok1 HF) as [Hk Hs]. split; [intros j Hj; rewrite Hk by lia; by apply Hkeep|].
    intros Ho. destruct (Hs Ho) as (Hok2 & Hn2 & Hz2). split; [done|]. split; [lia|]. intros j Hj.
    destruct (decide (j = npages st)) as [->|]; [by rewrite Hk by lia|]. apply Hz2. lia.
  - rewrite (not_ok_code _ _ Hc) by done. cbn [negb]. intros [= <- <-]. split; [done|]. by rewrite (not_ok_code _ _ Hc).
Qed.

(** The file with at least [n] pages. *)
Definition filled (n : Z) (old bytes : list Z) : Prop :=
  forall id, page_of bytes id = match page_of old id with Some d => Some d | None => if (0 <=? id) && (id <? n) then Some zero_data else None end.

(** Every page that was in the file still is. *)
Definition pages_kept (old : list Z) (file : option (list Z)) : Prop :=
  forall id d, page_of old id = Some d -> exists bytes, file = Some bytes /\ page_of bytes id = Some d.

Definition flushes (x : workload) : bool :=
  match ew_pool (fst x), ew_storage (fst x) with Some bp, Some st => ok (fst (fst (FlushAll bp st))) | _, _ => false end.

Lemma filled_fill n st s st' : st_ok st -> 0 < n -> fill (Z.to_nat (n - npages st)) st = (s, st') -> ok s = true ->
  st_ok st' /\ filled n (st_bytes st) (st_bytes st').
Proof.
  intros Hok Hn HF Ho. destruct (fill_ok _ _ _ _ Hok HF) as [Hk Hs]. destruct (Hs Ho) as (Hok' & Hn' & Hz). split; [done|]. intros id.
  rewrite <- !contents_page_of. pose proof (npages_nonneg st). destruct (decide (0 <= id < npages st)) as [Hid|Hid].
  - rewrite Hk by lia. unfold contents. by replace ((0 <=? id) && (id <? npages st)) with true by lia.
  - replace (contents st id) with (None : option (list Z)) by (unfold contents; by replace ((0 <=? id) && (id <? npages st)) with false by lia).
    destruct ((0 <=? id) && (id <? n)) eqn:E; zb; [apply Hz; lia|]. unfold contents. by replace ((0 <=? id) && (id <? npages st')) with false by lia.
Qed.

Definition pages_wanted (cfg : nexus_bench_config) : Z := if page_count cfg =? 0 then 1 else page_count cfg.

Lemma open_engine cfg w h rc x :
  file_ok (default [] (ap_file (h_found h))) -> 0 <= page_count cfg -> 0 <= pool_frames_start cfg <= kMaxFrames ->
  bench_engine_open cfg (w, h) = (rc, x) ->
  rc = NEXUS_OK /\ (exists bytes, filled (pages_wanted cfg) (default [] (ap_file (h_found h))) bytes /\ engine_ok (page_of bytes) x) \/
  rc = NEXUS_ERR_PROCESS /\ pages_kept (default [] (ap_file (h_found h))) (ap_file (h_found (snd x))).
Proof.
  intros Hf Hp Hfr. unfold bench_engine_open. fold (pages_wanted cfg). assert (0 < pages_wanted cfg) as Hpos by (unfold pages_wanted; case_match; zb; lia).
  destruct h as [ap allocs]. cbn [h_found] in *.
  assert (forall file fut, ap_file (h_found (set_file file fut (MkHost ap allocs))) = file) as Hset by (intros file fut; by destruct ap).
  assert (forall st, (forall j, j < zlen (default [] (ap_file ap)) / kPageSize -> contents st j = page_of (default [] (ap_file ap)) j) ->
    pages_kept (default [] (ap_file ap)) (ap_file (h_found (leave st (MkHost ap allocs))))) as Hleave.
  { intros st Hst id d Hd. exists (st_bytes st). unfold leave. rewrite Hset. split; [done|]. rewrite <- contents_page_of, Hst; [done|].
    unfold page_of in Hd. destruct (_ && _) eqn:E; [zb; lia|done]. }
  destruct (PageStorage.Open (bench_path cfg) ap) as [[s [st|]] file] eqn:EO.
  2: { intros [= <- <-]. right. split; [done|]. cbn [snd]. rewrite Hset. intros id d Hd. destruct (ap_file ap) as [bytes|] eqn:Eb; cbn [default] in Hd.
       - exists bytes. split; [by eapply open_failed|done].
       - unfold page_of in Hd. change (zlen [] / kPageSize) with 0 in Hd. destruct (_ && _) eqn:E; [zb; lia|done]. }
  destruct (open_ok _ _ _ _ _ Hf EO) as [Hok Hb]. rewrite <- Hb in Hleave |- *. fold (npages st) in Hleave.
  destruct (NumPages_spec st Hok) as (s1 & have & st1 & -> & Q & Hcase). pose proof (quiet_ok _ _ Q Hok) as Hok1.
  assert (st_bytes st1 = st_bytes st) as Hb1 by exact (proj1 Q).
  assert (forall j, contents st1 j = page_of (st_bytes st) j) as Hc1 by (intros j; rewrite contents_page_of; by rewrite Hb1).
  destruct (negb (ok s1)) eqn:Es1; [intros [= <- <-]; right; split; [done|]; cbn [snd]; by apply Hleave|].
  destruct Hcase as [[-> ->]|[Hc _]]; [|by rewrite (not_ok_code _ _ Hc) in Es1].
  assert (npages st = npages st1) as Hn by (unfold npages; by rewrite Hb1). rewrite Hn.
  destruct (fill _ st1) as [s2 st2] eqn:EF. destruct (fill_ok _ _ _ _ Hok1 EF) as [Hk _].
  destruct (ok s2) eqn:Es2; cbn [negb]. 2: { intros [= <- <-]. right. split; [done|]. cbn [snd]. apply Hleave. intros j Hj. rewrite Hk by lia. apply Hc1. }
  destruct (filled_fill _ _ _ _ Hok1 Hpos EF Es2) as [Hok2 Hfill]. rewrite Hb1 in Hfill.
  set (frames := if pool_frames_start cfg =? 0 then 1 else pool_frames_start cfg). assert (0 < frames <= kMaxFrames) as Hfr'.
  { unfold frames. case_match; zb; [|lia]. split; [lia|]. by vm_compute. }
  destruct (BufferPool.Create true true frames) as [s3 [bp|]] eqn:EC.
  2: { exfalso. unfold Create in EC. replace (frames =? 0) with false in EC by lia. done. }
  assert (s3 = StatusOk) as ->. { unfold Create in EC. replace (frames =? 0) with false in EC by lia. cbn in EC. congruence. }
  cbn [ok code negb]. intros [= <- <-]. left. split; [done|]. exists (st_bytes st2). split; [done|]. exists st2, bp. split; [done|]. split; [done|]. split; [done|].
  exact (Create_ok frames st2 bp (st_ok_sound _ Hok2) Hfr' EC).
Qed.

Lemma close_bytes st : st_bytes (snd (PageStorage.Close st)) = st_bytes st.
Proof. destruct st as [[b p g gc fut] path op]. by destruct op, g, fut as [|[] fut]. Qed.

(** The flush of the destructor finds nothing to write after one that succeeded. *)
Lemma flush_twice {E} `{PageEnvLaws E} bp (e : E) s bp' e' :
  pool_inv bp e -> FlushAll bp e = (s, bp', e') -> ok s = true -> exists s', FlushAll bp' e' = (s', bp', e').
Proof. intros I HF Hs. apply FlushAll_again. by apply (FlushAll_clean _ _ _ _ _ I HF Hs). Qed.

Lemma close_engine bytes x :
  engine_ok (page_of bytes) x -> flushes x = true ->
  exists bytes', ap_file (h_found (snd (bench_engine_close x))) = Some bytes' /\ forall id, page_of bytes' id = page_of bytes id.
Proof.
  destruct x as [[ost obp pages dirty rng rnd] [ap allocs]]. intros (st & bp & Hst & Hbp & Hpc & (I & _ & Hlog)). cbn in Hst, Hbp, I, Hlog. subst ost obp.
  unfold flushes, bench_engine_close. cbn [fst snd ew_pool ew_storage]. destruct (FlushAll bp st) as [[s bp1] st1] eqn:EF. cbn [fst]. intros Ho.
  destruct (flush_twice _ _ _ _ _ I EF Ho) as (s2 & ->).
  destruct (FlushAll_clean _ _ _ _ _ I EF Ho) as [_ Hd]. exists (st_bytes st1). split.
  - unfold leave. rewrite close_bytes. by destruct ap.
  - intros id. rewrite <- contents_page_of. destruct (Hd id) as [Hd1 _]. exact (eq_trans Hd1 (Hlog id)).
Qed.

(** C39: The benchmark leaves the database as it found it.  Opening the engine's
    workload answers [NEXUS_OK] or [NEXUS_ERR_PROCESS].  A failed opening loses no
    page of the file.  After a successful one the file has its old pages followed
    by zeroed ones up to the page count asked for; then, whatever steps and
    resizes run, in whatever order, and whichever reads, writes and allocations
    fail, every page seen through the pool has those bytes, the pool keeps its
    invariant and no frame stays pinned.  Closing drops the pool and the storage,
    and when its flush succeeds the file holds exactly those pages. *)
Theorem bench_engine_transparent cfg w h rc x :
  file_ok (default [] (ap_file (h_found h))) -> 0 <= page_count cfg -> 0 <= pool_frames_start cfg <= kMaxFrames ->
  bench_engine_open cfg (w, h) = (rc, x) ->
  rc = NEXUS_ERR_PROCESS /\ pages_kept (default [] (ap_file (h_found h))) (ap_file (h_found (snd x))) \/
  rc = NEXUS_OK /\ exists bytes, filled (pages_wanted cfg) (default [] (ap_file (h_found h))) bytes /\
    forall ops rcs x', Forall bench_op_ok ops -> bench_session ops x = (rcs, x') ->
      engine_ok (page_of bytes) x' /\ Forall (fun rc => rc = NEXUS_OK \/ rc = NEXUS_ERR_PROCESS \/ rc = NEXUS_ERR_INVALID) rcs /\
      ew_pool (fst (bench_engine_close x')) = None /\ ew_storage (fst (bench_engine_close x')) = None /\
      (flushes x' = true -> exists bytes', ap_file (h_found (snd (bench_engine_close x'))) = Some bytes' /\ forall id, page_of bytes' id = page_of bytes id).
Proof.
  intros Hf Hp Hfr HO. destruct (open_engine _ _ _ _ _ Hf Hp Hfr HO) as [(-> & bytes & Hfill & C)|[-> Hk]]; [right|left; done].
  split; [done|]. exists bytes. split; [done|]. intros ops rcs x' Hops HS. destruct (session_kept _ _ _ _ _ Hops C HS) as [C' Hrcs].
  split; [done|]. split; [done|]. destruct x' as [w' h']. split; [done|]. split; [done|]. by apply close_engine.
Qed.

Lemma contains_resident id bp : Contains id bp = true <-> is_Some (resident bp id).
Proof.
  unfold Contains, resident. rewrite bool_decide_eq_true. split.
  - intros [i Hi]. rewrite Hi. destruct (FindFrame_Some _ _ _ Hi) as (f & Hl & _). exists f. exact Hl.
  - intros [f Hf]. destruct (FindFrame id bp) as [i|]; [by exists i|done].
Qed.

(** A page whose handle is dropped stays in the pool. *)
Lemma dropped_resident init i id bp (st : storage) :
  client_ok init (MkClient [(i, id)] bp st []) -> is_Some (resident (DestroyHandle (Some i) bp) id).
Proof.
  intros (I & Hh & _). cbn [c_pool c_env c_handles] in *. destruct (handles_frame _ _ Hh i id) as (f & Hl & Hu & Hid); [by left|].
  destruct (handle_pinned _ _ i id f Hh) as (Hpos & _); [by left|done|].
  destruct (UnpinFrame_spec i bp st f I Hl Hpos Hu) as (I' & _ & Hfs). cbn [DestroyHandle].
  destruct (resident_at (UnpinFrame i bp) st i (set_pin (f_pin f - 1) f) I') as [_ Hr]; [|done|by exists (set_pin (f_pin f - 1) f); rewrite <- Hid].
  rewrite Hfs. apply list_lookup_insert_eq. by eapply lookup_lt_Some.
Qed.

(** The cache flag is the truth about the pool.  In a workload in any state
    that a session reaches, a step reports a hit exactly when its page was in the
    pool before the fetch; a hit succeeds and touches no file, so it costs no
    I/O; and after a step that succeeds its page is in the pool, whose capacity
    has not changed and bounds the pages in it. *)
Theorem bench_engine_hits init index x rc hit x' bp st :
  engine_ok init x -> ew_pool (fst x) = Some bp -> ew_storage (fst x) = Some st -> bench_engine_step index x = (rc, hit, x') ->
  let id := fst (pick index (fst x)) in
  exists bp' st', ew_pool (fst x') = Some bp' /\ ew_storage (fst x') = Some st' /\
    (hit = 0 \/ hit = 1) /\ (hit = 1 <-> is_Some (resident bp id)) /\ (hit = 1 -> rc = NEXUS_OK /\ st' = st) /\
    (rc = NEXUS_OK -> is_Some (resident bp' id)) /\ bp_capacity bp' = bp_capacity bp /\ pool_size bp' <= bp_capacity bp'.
Proof.
  destruct x as [[ost obp pages dirty rng rnd] h]. intros (st0 & bp0 & Hst & Hbp & Hpc & C) Hbp' Hst'. cbn in Hst, Hbp, Hpc, Hbp', Hst'. simplify_eq.
  pose proof C as (I & _). cbn [c_pool c_env] in I. unfold bench_engine_step. cbn [fst ew_pool ew_storage ew_page_count ew_dirty_every ew_random].
  pose proof (pick_range index (MkEngine (Some st) (Some bp) pages dirty rng rnd)) as Hid. destruct (pick index _) as [id rng']. cbn [fst] in Hid |- *.
  destruct (Fetch true id bp st) as [[[s hd] bp1] st1] eqn:HF. pose proof (contains_resident id bp) as Hres.
  pose proof (fetch_step init id (MkClient [] bp st []) s (MkClient (match hd with Some i => [(i, id)] | None => [] end) bp1 st1 []) C Hid) as C1.
  cbn [pool_step] in C1. rewrite HF in C1. specialize (C1 eq_refl). destruct (Fetch_spec _ _ _ _ _ _ _ I Hid HF) as (_ & _ & Hr).
  assert (Contains id bp = true -> s = StatusOk /\ st1 = st) as Hhit.
  { intros [f Hf]%Hres. pose proof Hf as (i & Hl & Hu & Hfid)%resident_Some. destruct (inv_frames _ _ I _ _ Hl) as (_ & _ & Hok). destruct (Hok Hu) as (_ & Hne & _).
    destruct (resident_at _ _ _ _ I Hl Hu) as [Hfind _]. rewrite Hfid in Hne, Hfind.
    destruct (Fetch_hit_spec _ _ _ _ _ _ _ _ I Hne Hfind HF) as (-> & -> & _). done. }
  assert (forall b : bool, (if b then 1 else 0) = 0 \/ (if b then 1 else 0) = 1) as Hflag by (intros []; auto).
  destruct hd as [i|].
  - destruct Hr as (-> & bp2 & f' & Hc & P & _). cbn [ok code negb]. set (bp3 := if _ && _ then _ else _). intros [= <- <- <-].
    assert (client_ok init (MkClient [(i, id)] bp3 st1 []) /\ bp_capacity bp3 = bp_capacity bp) as [C3 Hcap].
    { assert (bp_capacity bp1 = bp_capacity bp) as Hc1 by (rewrite (prom_capacity _ _ _ _ P); apply Hc).
      unfold bp3. destruct (_ && _); [|done]. split; [by apply mark_ok|exact Hc1]. }
    exists (DestroyHandle (Some i) bp3), st1. pose proof (drop_ok _ _ _ _ _ C3) as (I4 & _).
    split; [done|]. split; [done|]. split; [apply Hflag|]. split; [rewrite <- Hres; by destruct (Contains id bp)|].
    split; [intros E; split; [done|]; apply Hhit; by destruct (Contains id bp)|]. split; [intros _; by eapply dropped_resident|].
    split; [|apply I4]. rewrite <- Hcap. unfold DestroyHandle, UnpinFrame. by repeat case_match.
  - destruct Hr as [Hs Hc]. rewrite Hs. cbn [negb]. intros [= <- <- <-]. exists bp1, st1. destruct C1 as (I1 & _). cbn in I1.
    split; [done|]. split; [done|]. split; [apply Hflag|]. split; [rewrite <- Hres; by destruct (Contains id bp)|].
    split; [|split; [done|split; [apply Hc|apply I1]]]. intros E. destruct (Contains id bp); [|done]. destruct (Hhit eq_refl) as [-> _]. done.
Qed.

(** ** A run on a new file of three pages, with two frames *)

Definition small_config : nexus_bench_config :=
  MkBenchConfig (Some "small"%string) (Some "db"%string) (Some "small.db"%string) (Some ""%string) 1 3 12 5 2 2 0 1 0.
Definition small_host : host := MkHost (MkAtPath None true false true true []) [].
Definition closed_engine : EngineWorkload := MkEngine None None 0 0 1 0.
Definition small_opened : Z * workload := bench_engine_open small_config (closed_engine, small_host).
Definition small_ops : list bench_op := [BStep 0; BStep 1; BStep 1; BStep 2; BResize 1; BResize 0; BStep 0].

Lemma small_opened_ok : fst small_opened = NEXUS_OK.
Proof. by vm_compute. Qed.
Lemma small_file_ok : file_ok (default [] (ap_file (h_found small_host))).
Proof. split; [by constructor|by vm_compute]. Qed.
Lemma small_ops_ok : Forall bench_op_ok small_ops.
Proof. repeat constructor; cbn; lia. Qed.
Lemma small_frames_ok : 0 <= pool_frames_start small_config <= kMaxFrames.
Proof. split; [done|]. by vm_compute. Qed.

Lemma small_session : exists rcs x', bench_session small_ops (snd small_opened) = (rcs, x') /\ rcs = [0; 0; 0; 0; 0; NEXUS_ERR_INVALID; 0] /\ flushes x' = true.
Proof.
  destruct (bench_session small_ops (snd small_opened)) as [rcs x'] eqn:E. exists rcs, x'. split; [done|].
  assert (rcs = fst (bench_session small_ops (snd small_opened))) as -> by (by rewrite E).
  assert (x' = snd (bench_session small_ops (snd small_opened))) as -> by (by rewrite E). split; [vm_compute; reflexivity|vm_compute; reflexivity].
Qed.

Lemma bench_engine_transparent_witness : exists bytes x' bytes',
  filled 3 [] bytes /\ engine_ok (page_of bytes) x' /\ ap_file (h_found (snd (bench_engine_close x'))) = Some bytes' /\ forall id, page_of bytes' id = page_of bytes id.
Proof.
  pose proof (bench_engine_transparent small_config closed_engine small_host (fst small_opened) (snd small_opened)
    small_file_ok ltac:(done) small_frames_ok (surjective_pairing _)) as T. rewrite small_opened_ok in T.
  destruct T as [[T _]|(_ & bytes & Hf & T)]; [discriminate T|]. destruct small_session as (rcs & x' & E & _ & Hfl).
  destruct (T small_ops rcs x' small_ops_ok E) as (C & _ & _ & _ & Hc). destruct (Hc Hfl) as (bytes' & Hb & Hp).
  exists bytes, x', bytes'. split; [exact Hf|]. split; [exact C|]. split; [exact Hb|exact Hp].
Defined.

(** The second fetch of page 0 hits. *)
Definition small_step : workload := snd (bench_engine_step 0 (snd small_opened)).

Lemma bench_engine_hits_witness : exists bp, ew_pool (fst small_step) = Some bp /\ is_Some (resident bp 0) /\ snd (fst (bench_engine_step 3 small_step)) = 1.
Proof.
  assert (exists init, engine_ok init small_step) as [init C].
  { destruct (open_engine small_config closed_engine small_host (fst small_opened) (snd small_opened) small_file_ok ltac:(done) small_frames_ok
      (surjective_pairing _)) as [(_ & bytes & _ & C)|[E _]]; [|by rewrite small_opened_ok in E].
    exists (page_of bytes). unfold small_step. destruct (bench_engine_step 0 (snd small_opened)) as [[rc hit] x'] eqn:E. by eapply step_kept in E as [C' _]. }
  pose proof C as (st & bp & Hst & Hbp & _). destruct (bench_engine_step 3 small_step) as [[rc hit] x'] eqn:E.
  assert (hit = 1) as -> by (transitivity (snd (fst (bench_engine_step 3 small_step))); [by rewrite E|vm_compute; reflexivity]).
  destruct (bench_engine_hits init 3 small_step rc 1 x' bp st C Hbp Hst E) as (bp' & st' & _ & _ & _ & Hh & _).
  exists bp. split; [exact Hbp|]. split; [|reflexivity].
  assert (fst (pick 3 (fst small_step)) = 0) as Hp by (vm_compute; reflexivity). rewrite Hp in Hh. by apply Hh.
Defined.
