(* ===== verification/BenchMain.v ===== *)
(** * The benchmark program

    [benchmarks/nexus_benchmark.c], built with the database engine: options, one
    run of the harness on the engine's workload, and the report.  Printing to the
    standard streams is [fprintf] on their handles; the program does not look at
    its results. *)

From stdpp Require Import gmap.
From S2P Require Import Prelude Bytes Common CStr Double Telemetry AdaptationPolicy PageStorage BufferPool Os Sim Process Cgroup Container ContainerSpec Format Bridge Dashboard Harness HarnessSpec BenchEngine.

Local Open Scope Z_scope.

(** ** Options *)

Section Setters.
Implicit Types c : nexus_bench_config.
Definition set_scenario v c := let '(MkBenchConfig _ n d e l p i se f de r s m) := c in MkBenchConfig v n d e l p i se f de r s m.
Definition set_container v c := let '(MkBenchConfig sc _ d e l p i se f de r s m) := c in MkBenchConfig sc v d e l p i se f de r s m.
Definition set_db v c := let '(MkBenchConfig sc n _ e l p i se f de r s m) := c in MkBenchConfig sc n v e l p i se f de r s m.
Definition set_engine v c := let '(MkBenchConfig sc n d _ l p i se f de r s m) := c in MkBenchConfig sc n d v l p i se f de r s m.
Definition set_limit_mb v c := let '(MkBenchConfig sc n d e _ p i se f de r s m) := c in MkBenchConfig sc n d e v p i se f de r s m.
Definition set_pages v c := let '(MkBenchConfig sc n d e l _ i se f de r s m) := c in MkBenchConfig sc n d e l v i se f de r s m.
Definition set_iterations v c := let '(MkBenchConfig sc n d e l p _ se f de r s m) := c in MkBenchConfig sc n d e l p v se f de r s m.
Definition set_sample_every v c := let '(MkBenchConfig sc n d e l p i _ f de r s m) := c in MkBenchConfig sc n d e l p i v f de r s m.
Definition set_pool_frames v c := let '(MkBenchConfig sc n d e l p i se _ de r s m) := c in MkBenchConfig sc n d e l p i se v de r s m.
Definition set_dirty_every v c := let '(MkBenchConfig sc n d e l p i se f _ r s m) := c in MkBenchConfig sc n d e l p i se f v r s m.
Definition set_random v c := let '(MkBenchConfig sc n d e l p i se f de _ s m) := c in MkBenchConfig sc n d e l p i se f de v s m.
Definition set_seed v c := let '(MkBenchConfig sc n d e l p i se f de r _ m) := c in MkBenchConfig sc n d e l p i se f de r v m.
Definition set_manage v c := let '(MkBenchConfig sc n d e l p i se f de r s _) := c in MkBenchConfig sc n d e l p i se f de r s v.
End Setters.

Definition quote : string := String (Ascii.ascii_of_nat 34) "".

(** [strtoul(text, NULL, 10)] *)
Definition number (text : string) : Z := let '(v, _, _, _) := strtoul text in v.

(** An option with a value: what it does to the configuration and the path of
    the report. *)
Definition value_option (name value : string) (cfg : nexus_bench_config) (out : option string) : option (nexus_bench_config * option string) :=
  if (name =? "--limit-mb")%string then Some (set_limit_mb (number value) cfg, out)
  else if (name =? "--iterations")%string then Some (set_iterations (number value) cfg, out)
  else if (name =? "--pages")%string then Some (set_pages (number value) cfg, out)
  else if (name =? "--pool")%string then Some (set_pool_frames (number value) cfg, out)
  else if (name =? "--sample-every")%string then Some (set_sample_every (number value) cfg, out)
  else if (name =? "--dirty-every")%string then Some (set_dirty_every (number value) cfg, out)
  else if (name =? "--seed")%string then Some (set_seed (number value) cfg, out)
  else if (name =? "--scenario")%string then Some (set_scenario (Some value) cfg, out)
  else if (name =? "--container")%string then Some (set_container (Some value) cfg, out)
  else if (name =? "--db")%string then Some (set_db (Some value) cfg, out)
  else if (name =? "--engine")%string then Some (set_engine (Some value) cfg, out)
  else if (name =? "--out")%string then Some (cfg, Some value)
  else None.

Inductive bench_request := BenchHelp | BenchUnknown (arg : string) | BenchRun (cfg : nexus_bench_config) (out_path : option string).

Fixpoint bench_args (args : list string) (cfg : nexus_bench_config) (out : option string) : bench_request :=
  match args with
  | [] => BenchRun cfg out
  | arg :: rest =>
      if (arg =? "--help")%string then BenchHelp
      else if (arg =? "--random")%string then bench_args rest (set_random 1 cfg) out
      else if (arg =? "--no-container")%string then bench_args rest (set_manage 0 cfg) out
      else match rest with
           | value :: rest =>
               match value_option arg value cfg out with
               | Some (cfg, out) => bench_args rest cfg out
               | None => BenchUnknown arg
               end
           | [] => BenchUnknown arg
           end
  end.

Definition usage_text (argv0 : string) : list string :=
  ("Usage: " +:+ argv0 +:+ " [options]" +:+ newline) ::
  map (fun line => line +:+ newline)
  [ "  --limit-mb N        memory limit in MiB (default 512)"; "  --iterations N      workload steps (default 4096)";
    "  --pages N           logical pages walked (default 4096)"; "  --pool N            initial buffer-pool frames (default 256)";
    "  --sample-every N    cgroup sample interval in steps (default 32)";
    "  --dirty-every N     mark every Nth fetched page dirty, 0=read-only (default 8)";
    "  --random            random page order (default sequential)"; "  --seed N            random seed (default 1)";
    "  --scenario S        scenario label (default " +:+ quote +:+ "default" +:+ quote +:+ ")";
    "  --container S       container name (default " +:+ quote +:+ "nexusbench" +:+ quote +:+ ")";
    "  --db PATH           database file (default data/benchmark.db)";
    "  --engine PATH       recorded db_engine path (default " +:+ quote +:+ quote +:+ ")";
    "  --no-container      do not manage a container (needs external sampler)";
    "  --out PATH          write the result here (default: stdout)"; "  --help              show this help" ].

Section Program.
Context {W : Type} `{Os W} (fuel : nat) (clock : nat -> Z * Z) (pid stdout stderr : Z).

(** The exit code, and the result that was reported. *)
Definition bench_program (cfg : nexus_bench_config) (out_path : option string) (r : registry) (x : workload)
    : M W (Z * option nexus_bench_result * registry * workload) :=
  let env := default ""%string (snd (nexus_bench_environment true 256)) in
  a ← nexus_bench_run fuel clock pid cfg nexus_bench_engine_workload None true r x;
  match a with
  | (rc, Some res, r, x) =>
      if negb (rc =? NEXUS_OK) then (_ ← fprintf_all stderr ["benchmark failed: " +:+ nexus_bench_strerror rc +:+ newline]; mret (1, None, r, x)) else
      rc ← nexus_bench_result_write stdout (Some res) out_path (Some env);
      if negb (rc =? NEXUS_OK) then
        (_ ← fprintf_all stderr ["failed to write result" +:+ match out_path with Some p => " to " +:+ p | None => "" end +:+ newline];
         mret (1, None, r, x))
      else
        _ ← fprintf_all stdout (match out_path with Some p => ["result written to " +:+ p +:+ newline] | None => [] end ++
          ["steps=" +:+ dec (steps_run (counts res)) +:+ " hits=" +:+ dec (b_hits (counts res)) +:+ " misses=" +:+ dec (b_misses (counts res)) +:+
           " pool " +:+ dec (start_frames (pool res)) +:+ "->" +:+ dec (end_frames (pool res)) +:+ " frames" +:+ newline]);
        mret (0, Some res, r, x)
  | (rc, None, r, x) => _ ← fprintf_all stderr ["benchmark failed: " +:+ nexus_bench_strerror rc +:+ newline]; mret (1, None, r, x)
  end.

Definition bench_main (argv0 : string) (args : list string) (r : registry) (x : workload) : M W (Z * option nexus_bench_result * registry * workload) :=
  match bench_args args nexus_bench_config_default None with
  | BenchHelp => _ ← fprintf_all stdout (usage_text argv0); mret (0, None, r, x)
  | BenchUnknown arg =>
      _ ← fprintf_all stderr ["unknown or incomplete argument: " +:+ arg +:+ newline];
      _ ← fprintf_all stdout (usage_text argv0);
      mret (2, None, r, x)
  | BenchRun cfg out_path =>
      _ ← fprintf_all stdout ["=== NexusDB Benchmark ===" +:+ newline];
      bench_program cfg out_path r x
  end.
End Program.

(** ** Options and configurations *)

Definition given (name : string) (value : option string) : list string := match value with Some v => [name; v] | None => [] end.
Definition flag_ (name : string) (set : bool) : list string := if set then [name] else [].

(** A command line for a configuration. *)
Definition bench_command (cfg : nexus_bench_config) (out : option string) : list string :=
  ["--limit-mb"; dec (limit_mb cfg); "--iterations"; dec (iterations cfg); "--pages"; dec (page_count cfg); "--pool"; dec (pool_frames_start cfg);
   "--sample-every"; dec (sample_every cfg); "--dirty-every"; dec (dirty_every cfg); "--seed"; dec (random_seed cfg)]%string ++
  given "--scenario" (scenario cfg) ++ given "--container" (container_name cfg) ++ given "--db" (db_path cfg) ++ given "--engine" (engine_path cfg) ++
  flag_ "--random" (random cfg =? 1) ++ flag_ "--no-container" (manage_container cfg =? 0) ++ given "--out" out.

(** What a command line can say. *)
Record config_typed (cfg : nexus_bench_config) : Prop := {
  ty_numbers : Forall ulong [limit_mb cfg; iterations cfg; page_count cfg; pool_frames_start cfg; sample_every cfg; dirty_every cfg; random_seed cfg];
  ty_names : is_Some (scenario cfg) /\ is_Some (container_name cfg) /\ is_Some (db_path cfg) /\ is_Some (engine_path cfg);
  ty_random : random cfg = 0 \/ random cfg = 1;
  ty_manage : manage_container cfg = 0 \/ manage_container cfg = 1 }.

Lemma number_ulong text : ulong (number text).
Proof. unfold number. pose proof (strtoul_range text) as Hr. destruct (strtoul text) as [[[v ?] ?] ?]. exact Hr. Qed.

Lemma number_dec n : ulong n -> number (dec n) = n.
Proof. intros Hn. unfold number. by rewrite strtoul_dec. Qed.

Lemma value_option_typed name value cfg out cfg' out' :
  config_typed cfg -> value_option name value cfg out = Some (cfg', out') -> config_typed cfg'.
Proof.
  intros [Hn (Hs & Hc & Hd & He) Hr Hm]. pose proof (number_ulong value) as Hv. destruct cfg as [sc n d e l p i se f de r s m]. unfold value_option. cbn in *.
  rewrite !Forall_cons in Hn. destruct Hn as (H1 & H2 & H3 & H4 & H5 & H6 & H7 & _).
  repeat (destruct (_ =? _)%string; [intros [= <- <-]; split; cbn; [rewrite !Forall_cons; repeat (split; [assumption|]); constructor|split_and!; first [done|by eexists]|done|done]|]). done.
Qed.

Lemma bench_args_typed argv c o : bench_args argv nexus_bench_config_default None = BenchRun c o -> config_typed c.
Proof.
  assert (forall n args cfg out cfg' out', (length args <= n)%nat -> config_typed cfg -> bench_args args cfg out = BenchRun cfg' out' -> config_typed cfg') as Hgen.
  { induction n as [|n IH]; intros [|arg rest] cfg out cfg' out' Hl Hc; cbn [length] in Hl; [by intros [= <- <-]|lia|by intros [= <- <-]|]. cbn [bench_args].
    destruct (_ =? "--help")%string; [done|].
    destruct (_ =? "--random")%string; [apply IH; [lia|]; destruct Hc, cfg; split; cbn; auto|].
    destruct (_ =? "--no-container")%string; [apply IH; [lia|]; destruct Hc, cfg; split; cbn; auto|].
    destruct rest as [|value rest]; [done|]. destruct (value_option arg value cfg out) as [[cfg1 out1]|] eqn:E; [|done].
    cbn [length] in Hl. apply IH; [lia|by eapply value_option_typed]. }
  apply (Hgen (length argv)); [done|]. split; cbn; [repeat constructor; unfold ULONG_MAX; lia|split_and!; by eexists|auto|auto].
Qed.

(** The options of the benchmark.  Whatever the arguments, they are a request
    for help, an argument that is refused, or a configuration whose numbers are
    [unsigned long]s and whose names are set; and every such configuration, with
    or without a path for the report, is what the command line that spells it out
    is read as. *)
Theorem bench_args_exact :
  (forall args cfg' out', bench_args args nexus_bench_config_default None = BenchRun cfg' out' -> config_typed cfg') /\
  (forall cfg out, config_typed cfg -> bench_args (bench_command cfg out) nexus_bench_config_default None = BenchRun cfg out).
Proof.
  split.
  - exact bench_args_typed.
  - intros cfg out [Hn ([sc Hs] & [n Hc] & [d Hd] & [e He]) Hr Hm]. destruct cfg as [sc' n' d' e' l p i se f de r s m]. cbn in Hn, Hs, Hc, Hd, He, Hr, Hm. subst.
    rewrite !Forall_cons in Hn. destruct Hn as (H1 & H2 & H3 & H4 & H5 & H6 & H7 & _).
    destruct Hr as [->| ->], Hm as [->| ->], out as [out|]; cbn -[dec number]; by rewrite !number_dec.
Qed.

(** ** The program *)

Section Main.
Context {W : Type} `{OsLaws W} (fuel : nat) (clock : nat -> Z * Z) (pid stdout stderr : Z).

Lemma fprintf_all_steady f texts : returns_steady (W := W) (fprintf_all f texts).
Proof. induction texts as [|t texts IH]; cbn [fprintf_all]; [apply steady_ret|]. apply steady_bind; [apply steady_call, law_fprintf|done]. Qed.

Lemma result_write_steady out path env : returns_steady (W := W) (nexus_bench_result_write stdout out path env).
Proof.
  unfold nexus_bench_result_write. destruct out as [out|]; [|apply steady_ret].
  destruct path as [path|]; [|apply steady_bind; [apply fprintf_all_steady|intros ?; apply steady_ret]].
  intros w0 w u Hb. apply wp_bind. eapply wp_fopen_w; [done| |intros w1 Hb1; by apply wp_ret]. intros f w1 Hf Hb1.
  apply wp_bind. eapply wp_mono; [apply (fprintf_all_steady f _ _ _ _ Hb1)|]. intros ? w2 Hb2. cbv beta in Hb2. apply wp_bind. eapply wp_fclose; [done|done|]. intros c w3 Hb3. by apply wp_ret.
Qed.

Lemma good_after {A} u0 r (m : M W A) w : returns_steady m -> good fuel u0 r w -> wp m (fun _ w' => good fuel u0 r w') w.
Proof. intros Hm G. eapply wp_mono; [apply (Hm w w (use w)); by split|]. intros a w' Hb. by eapply good_steady. Qed.

Lemma engine_capacity_ulong f x : wl_capacity nexus_bench_engine_workload = Some f -> ulong (f x).
Proof.
  intros [= <-]. unfold bench_engine_capacity, ulong, ULONG_MAX. destruct (ew_pool _) as [bp|]; [|lia]. pose proof (wrap_range 64 (bp_capacity bp) ltac:(lia)). lia.
Qed.

(** Without a container there is no sampler. *)
Lemma unmanaged_refused cfg r x (w : W) : manage_container cfg = 0 ->
  nexus_bench_run fuel clock pid cfg nexus_bench_engine_workload None true r x w = Some ((NEXUS_ERR_INVALID, None, r, x), w).
Proof. intros E. unfold nexus_bench_run. cbn [wl_open wl_step wl_close nexus_bench_engine_workload]. by rewrite E. Qed.

(** What the program leaves, for the request it was given. *)
Definition main_post (u0 : usage) (request : bench_request) (y : Z * option nexus_bench_result * registry * workload) (w' : W) : Prop :=
  let '(code, res, r', _) := y in
  good fuel u0 r' w' /\
  match request with
  | BenchHelp => code = 0 /\ res = None
  | BenchUnknown _ => code = 2 /\ res = None
  | BenchRun cfg _ =>
      match res with
      | Some res => code = 0 /\ accounts cfg res /\ manage_container cfg <> 0
      | None => code = 1
      end
  end.

(** C38: The benchmark program as a whole: the options, the container, the
    engine's workload, the adaptation of its pool and the report.  Whatever the
    arguments, the workload's file and the kernel do, the program ends; it exits
    with 0 on a request for help, with 2 on an argument it refuses, with 0 after
    a run whose result was reported and with 1 otherwise.  The numbers of a
    reported result add up as the iterations, samples and decisions of its
    configuration, and the process keeps no stream, and no child but the
    workloads of the registry.  Without a container no run is ever reported. *)
Theorem bench_main_accounts u0 argv0 args r x (w : W) :
  clock_ok clock -> good fuel u0 r w ->
  (forall cfg out, bench_args args nexus_bench_config_default None = BenchRun cfg out -> iterations cfg + 2 < 2 ^ 64) ->
  wp (bench_main fuel clock pid stdout stderr argv0 args r x) (main_post u0 (bench_args args nexus_bench_config_default None)) w.
Proof.
  intros Hck G Hit. unfold bench_main. destruct (bench_args args _ _) as [|arg|cfg out] eqn:Ea.
  - apply wp_bind. eapply wp_mono; [apply good_after; [apply fprintf_all_steady|exact G]|]. intros ? w1 G1. by apply wp_ret.
  - apply wp_bind. eapply wp_mono; [apply good_after; [apply fprintf_all_steady|exact G]|]. intros ? w1 G1.
    apply wp_bind. eapply wp_mono; [apply good_after; [apply fprintf_all_steady|exact G1]|]. intros ? w2 G2. by apply wp_ret.
  - apply wp_bind. eapply wp_mono; [apply good_after; [apply fprintf_all_steady|exact G]|]. intros ? w1 G1.
    destruct (bench_args_typed _ _ _ Ea) as [Hn _ _ _]. rewrite !Forall_cons in Hn. destruct Hn as (_ & Hi & _ & _ & Hs & _).
    unfold bench_program. apply wp_bind. destruct (decide (manage_container cfg = 0)) as [Em|Em].
    { unfold wp at 1. rewrite unmanaged_refused by done. apply wp_bind. eapply wp_mono; [apply good_after; [apply fprintf_all_steady|exact G1]|].
      intros ? w3 G3. by apply wp_ret. }
    eapply wp_mono.
    { apply (bench_run_accounts _ engine_capacity_ulong clock fuel pid cfg None (fun f n => ltac:(discriminate)) Hck u0 true r x w1); [apply Hs|apply Hi|by eapply Hit|exact G1]. }
    intros [[[rc [res|]] r2] x2] w2 (G2 & _ & Hres); cbn beta iota.
    2: { apply wp_bind. eapply wp_mono; [apply good_after; [apply fprintf_all_steady|exact G2]|]. intros ? w3 G3. by apply wp_ret. }
    destruct Hres as [-> Hacc]. change (negb (NEXUS_OK =? NEXUS_OK)) with false. cbn iota.
    apply wp_bind. eapply wp_mono; [apply good_after; [apply result_write_steady|exact G2]|]. intros rc w3 G3. destruct (negb (rc =? NEXUS_OK)).
    + apply wp_bind. eapply wp_mono; [apply good_after; [apply fprintf_all_steady|exact G3]|]. intros ? w4 G4. by apply wp_ret.
    + apply wp_bind. eapply wp_mono; [apply good_after; [apply fprintf_all_steady|exact G3]|]. intros ? w4 G4. by apply wp_ret.
Qed.
End Main.

(** ** A run of the program *)

Definition small_args : list string := ["--iterations"; "3"; "--pages"; "2"; "--pool"; "1"; "--container"; "db"]%string.
Definition small_main : option (Z * option nexus_bench_result * registry * workload * sim) :=
  bench_main 1 toy_clock 41 1 2 "nexus_benchmark" small_args empty_registry (closed_engine, small_host) (boot []).

Lemma small_main_code : (match small_main with Some (code, Some res, _, _, _) => (code, steps_run (counts res)) | _ => (-1, 0) end) = (0, 3).
Proof. by vm_compute. Qed.

Lemma bench_main_accounts_witness : exists res r x w cfg out,
  small_main = Some (0, Some res, r, x, w) /\ bench_args small_args nexus_bench_config_default None = BenchRun cfg out /\
  good 1 (use (boot [])) r w /\ accounts cfg res /\ steps_run (counts res) = 3.
Proof.
  assert (good 1 (use (boot [])) empty_registry (boot [])) as G0.
  { split; [apply empty_registry_ok|]. split; [apply empty_registry_tracks|]. apply Nat.ltb_lt. reflexivity. }
  destruct (bench_args small_args nexus_bench_config_default None) as [| |cfg out] eqn:Ea; [discriminate Ea..|].
  assert (forall c o, bench_args small_args nexus_bench_config_default None = BenchRun c o -> iterations c + 2 < 2 ^ 64) as Hit.
  { intros c o E. vm_compute in E. injection E as <- <-. reflexivity. }
  pose proof (bench_main_accounts 1 toy_clock 41 1 2 (use (boot [])) "nexus_benchmark" small_args empty_registry (closed_engine, small_host) (boot [])
    toy_clock_ok G0 Hit) as T. rewrite Ea in T. unfold wp in T. pose proof small_main_code as Hc. unfold small_main in *.
  destruct (bench_main _ _ _ _ _ _ _ _ _ _) as [[[[[code [res|]] r] x] w]|]; [|discriminate Hc..]. injection Hc as -> Hs.
  destruct T as (G & _ & Hacc & _). exists res, r, x, w, cfg, out. repeat (split; [first [reflexivity|exact G|exact Hacc]|]). exact Hs.
Defined.
