(* ===== verification/Wal.v ===== *)
(** * The write-ahead log

    [include/db/wal.h] and [src/db/wal/wal.cpp]: the record format with its
    CRC-32, the append stream, scanning, recovery and truncation.  The log's
    [std::fstream] is modelled as the bytes of the file, the bytes still in the
    stream's buffer and the [good] state; its calls take their outcome from
    [lg_future], so that a record may reach the file early, late, in part or
    not at all.  A crash of the process keeps the bytes of the file. *)

From stdpp Require Import sorting.
From S2P Require Import Prelude Bytes Common PageStorage.

(** ** Constants and helpers *)

Definition kHeaderSize : Z := 32.
Definition kVersion : Z := 1.
Definition kMaxPayload : Z := 64 * 1024.
Definition kPageImagePayload : Z := kPageSize.
Definition kPageImage : Z := 1.

Definition kMagic0 : Z := 0x4E.
Definition kMagic1 : Z := 0x57.
Definition kMagic2 : Z := 0x41.
Definition kMagic3 : Z := 0x31.

Definition kOffMagic : Z := 0.
Definition kOffVersion : Z := 4.
Definition kOffType : Z := 6.
Definition kOffLsn : Z := 8.
Definition kOffPageId : Z := 16.
Definition kOffPayloadLen : Z := 20.
Definition kOffChecksum : Z := 28.

Definition BadState (msg : string) : Status := StatusError kBadState msg.

(** [crc = (crc >> 1) ^ (0xEDB88320u & (0u - (crc & 1u)))] *)
Definition crc_bit (crc : Z) : Z :=
  Z.lxor (Z.shiftr crc 1) (Z.land 0xEDB88320 (u32 (0 - Z.land crc 1))).

Definition crc_byte (crc b : Z) : Z := Nat.iter 8 crc_bit (Z.lxor crc b).

Definition Crc32Update (crc : Z) (data : list Z) : Z := foldl crc_byte crc data.

(** The header is read up to its checksum field. *)
Definition Crc32 (header payload : list Z) : Z :=
  let crc := Crc32Update 0xFFFFFFFF (sub header 0 kOffChecksum) in
  let crc := Crc32Update crc payload in
  Z.lxor crc 0xFFFFFFFF.

(** ** Reading records *)

Record ParsedRecord := MkParsed {
  rec_type : Z; rec_lsn : Z; rec_page_id : Z; rec_payload_len : Z; rec_payload : list Z }.

(** [kRecord] carries the parsed record and what is left of the stream; [kEnd]
    says whether an incomplete trailing record was seen. *)
Inductive ReadResult :=
  | kRecord (rec : ParsedRecord) (rest : list Z)
  | kEnd (truncated : bool)
  | kCorrupt (err : string).

(** The stream is given by the bytes it will still deliver. *)
Definition ReadRecord (inp : list Z) : option ReadResult :=
  let header := sub inp 0 kHeaderSize in
  let inp := drop (length header) inp in
  if zlen header =? 0 then Some (kEnd false) else
  if zlen header <? kHeaderSize then Some (kEnd true) else
  m0 ← at_ header (kOffMagic + 0); m1 ← at_ header (kOffMagic + 1);
  m2 ← at_ header (kOffMagic + 2); m3 ← at_ header (kOffMagic + 3);
  if negb ((m0 =? kMagic0) && (m1 =? kMagic1) && (m2 =? kMagic2) && (m3 =? kMagic3)) then
    Some (kCorrupt "wal: record has bad magic") else
  version ← ReadU16 header kOffVersion;
  if negb (version =? kVersion) then Some (kCorrupt "wal: unsupported record version") else
  type ← ReadU16 header kOffType;
  if negb (type =? kPageImage) then Some (kCorrupt "wal: unknown record type") else
  payload_len ← ReadU32 header kOffPayloadLen;
  if kMaxPayload <? payload_len then Some (kCorrupt "wal: payload length out of range") else
  if negb (payload_len =? kPageImagePayload) then
    Some (kCorrupt "wal: page image has an unexpected length") else
  page_id ← ReadU32 header kOffPageId;
  if page_id =? kInvalidId then Some (kCorrupt "wal: record names an invalid page") else
  lsn ← ReadU64 header kOffLsn;
  let payload := sub inp 0 payload_len in
  let inp := drop (length payload) inp in
  if zlen payload <? payload_len then Some (kEnd true) else
  stored ← ReadU32 header kOffChecksum;
  let computed := Crc32 header payload in
  if negb (stored =? computed) then Some (kCorrupt "wal: record checksum mismatch") else
  Some (kRecord (MkParsed type lsn page_id payload_len payload) inp).

(** What an [std::ifstream] on the log delivers: all the bytes of the file, the
    bytes before a read error, or nothing because it does not open. *)
Inductive rd := RdAll | RdStop (n : Z) | RdFail.

Definition ifstream (r : rd) (disk : list Z) : option (list Z) :=
  match r with
  | RdAll => Some disk
  | RdStop n => Some (take (Z.to_nat n) disk)
  | RdFail => None
  end.

(** ** The log stream *)

(** The outcome of a call on the append stream: how many pending bytes reach the
    file although the call need not write them, or a failure after some bytes,
    with whatever the stream then holds, which is no more than was pending. *)
Inductive aio := AOk (spill : Z) | AFail (spill : Z) (held : list Z).

Record logstream := MkLog {
  lg_disk : list Z; lg_buf : list Z; lg_good : bool; lg_future : list aio }.

Definition next_aio (f : logstream) : aio := hd (AOk 0) (lg_future f).

Definition lg_write (f : logstream) (src : list Z) : logstream :=
  if negb (lg_good f) then f else
  let pending := lg_buf f ++ src in
  match next_aio f with
  | AOk k => MkLog (lg_disk f ++ take (Z.to_nat k) pending) (drop (Z.to_nat k) pending)
               true (tl (lg_future f))
  | AFail k held => MkLog (lg_disk f ++ take (Z.to_nat k) pending) (take (length pending) held) false (tl (lg_future f))
  end.

Definition lg_flush (f : logstream) : logstream :=
  if negb (lg_good f) then f else
  match next_aio f with
  | AOk _ => MkLog (lg_disk f ++ lg_buf f) [] true (tl (lg_future f))
  | AFail k held => MkLog (lg_disk f ++ take (Z.to_nat k) (lg_buf f)) (take (length (lg_buf f)) held) false
                      (tl (lg_future f))
  end.

(** [close] writes what is pending, also on a stream that is not good. *)
Definition lg_close (f : logstream) : logstream :=
  match next_aio f with
  | AOk _ => MkLog (lg_disk f ++ lg_buf f) [] (lg_good f) (tl (lg_future f))
  | AFail k _ => MkLog (lg_disk f ++ take (Z.to_nat k) (lg_buf f)) [] false (tl (lg_future f))
  end.

(** ** The log *)

Record wal := MkWal {
  w_file : logstream; w_path : string; w_open : bool; w_next : Z; w_durable : Z }.

Definition with_log (w : wal) (f : logstream) : wal :=
  MkWal f (w_path w) (w_open w) (w_next w) (w_durable w).

(** [next_lsn()], [durable_lsn()] *)
Definition next_lsn (w : wal) : Z := w_next w.
Definition durable_lsn (w : wal) : Z := w_durable w.

(** The header of a page-image record, as [AppendPageImage] fills it in. *)
Definition MakeHeader (lsn page_id : Z) (data : list Z) : option (list Z) :=
  header ← put (replicate (Z.to_nat kHeaderSize) 0) kOffMagic [kMagic0; kMagic1; kMagic2; kMagic3];
  header ← WriteU16 header kOffVersion kVersion;
  header ← WriteU16 header kOffType kPageImage;
  header ← WriteU64 header kOffLsn lsn;
  header ← WriteU32 header kOffPageId page_id;
  header ← WriteU32 header kOffPayloadLen kPageImagePayload;
  WriteU32 header kOffChecksum (Crc32 header data).

(** [data] is the buffer the pointer designates, absent when it is null; the LSN
    is what [out_lsn] receives. *)
Definition AppendPageImage (page_id : Z) (data : option (list Z)) (len : Z) (w : wal)
    : option (Status * Z * wal) :=
  if negb (w_open w) then Some (BadState "Wal::AppendPageImage: log is closed", 0, w) else
  match data with
  | None => Some (Bad "Wal::AppendPageImage: bad data or length", 0, w)
  | Some d =>
  if negb (len =? kPageImagePayload) then
    Some (Bad "Wal::AppendPageImage: bad data or length", 0, w) else
  if page_id =? kInvalidId then Some (Bad "Wal::AppendPageImage: invalid page id", 0, w) else
  data ← get d 0 len;
  header ← MakeHeader (w_next w) page_id data;
  let f := lg_write (lg_write (w_file w) header) data in
  if negb (lg_good f) then
    Some (StatusError kIoError ("wal: append failed at lsn " +:+ to_string (w_next w)), 0,
          with_log w f)
  else Some (StatusOk, w_next w,
             MkWal f (w_path w) (w_open w) (u64 (w_next w + 1)) (w_durable w))
  end.

Definition Flush (w : wal) : Status * wal :=
  if negb (w_open w) then (BadState "Wal::Flush: log is closed", w) else
  let f := lg_flush (w_file w) in
  if negb (lg_good f) then (StatusError kIoError "wal: flush failed", with_log w f) else
  (StatusOk, MkWal f (w_path w) (w_open w) (w_next w) (u64 (w_next w - 1))).

Definition BeforePageWrite (page : Page) (w : wal) : option (Status * wal) :=
  if negb (IsValid page) then Some (Bad "Wal::BeforePageWrite: invalid page", w) else
  '(s, _, w) ← AppendPageImage (page_id page) (Some (page_data page)) kPageSize w;
  if negb (ok s) then Some (s, w) else Some (Flush w).

Definition Close (w : wal) : Status * wal :=
  if negb (w_open w) then (StatusOk, w) else
  let '(s, w) := Flush w in
  (s, MkWal (lg_close (w_file w)) (w_path w) false (w_next w) (w_durable w)).

(** [reopen] says whether the file can be opened again for truncation. *)
Definition Reset (reopen : bool) (w : wal) : Status * wal :=
  if negb (w_open w) then (BadState "Wal::Reset: log is closed", w) else
  let f := lg_close (w_file w) in
  if negb reopen then
    (StatusError kIoError ("wal: cannot truncate " +:+ w_path w),
     with_log w (MkLog (lg_disk f) [] false (lg_future f)))
  else (StatusOk, MkWal (MkLog [] [] true (lg_future f)) (w_path w) (w_open w) 1 0).

(** The loop of [Scan]; each record shortens the stream, so that the length of
    the stream bounds the rounds. *)
Fixpoint Scan_loop (fuel : nat) (inp : list Z) (last_lsn : Z) : option (Status * Z * bool) :=
  match fuel with
  | O => None
  | S fuel =>
      r ← ReadRecord inp;
      match r with
      | kEnd tail => Some (StatusOk, last_lsn, tail)
      | kCorrupt err => Some (BadState err, 0, false)
      | kRecord rec rest =>
          if rec_lsn rec <=? last_lsn then
            Some (BadState "wal: log sequence numbers are not increasing", 0, false)
          else Scan_loop fuel rest (rec_lsn rec)
      end
  end.

Definition Scan (r : rd) (w : wal) : option (Status * Z * bool) :=
  if negb (w_open w) then Some (BadState "Wal::Scan: log is closed", 0, false) else
  match ifstream r (lg_disk (w_file w)) with
  | None => Some (StatusError kIoError ("wal: cannot read " +:+ w_path w), 0, false)
  | Some inp => Scan_loop (S (length inp)) inp 0
  end.

(** What [Open] finds: the log file, if there is one, whether the file opens for
    append at the first attempt, whether it can be created (which truncates
    it) and then opened, and what reading and writing it will do. *)
Record wal_path := MkWalPath {
  wp_file : option (list Z); wp_append : bool; wp_create : bool; wp_reopen : bool;
  wp_read : rd; wp_future : list aio }.

(** The tail of [Open], on the stream that is open. *)
Definition Open_scanned (path : string) (r : rd) (f : logstream) : option (Status * option wal) :=
  let w := MkWal f path true 1 0 in
  '(s, last_lsn, _) ← Scan r w;
  if negb (ok s) then Some (s, None) else
  Some (StatusOk, Some (MkWal f path true (u64 (last_lsn + 1)) last_lsn)).

(** The result also has the file at the path as [Open] leaves it. *)
Definition Open (path : string) (e : wal_path) : option (Status * option wal * option (list Z)) :=
  if bool_decide (path = ""%string) then
    Some (Bad "Wal::Open: empty path or null out", None, wp_file e) else
  if wp_append e then
    let bytes := default [] (wp_file e) in
    '(s, w) ← Open_scanned path (wp_read e) (MkLog bytes [] true (wp_future e));
    Some (s, w, Some bytes)
  else if negb (wp_create e) then
    Some (StatusError kIoError ("cannot create wal file: " +:+ path), None, wp_file e)
  else if negb (wp_reopen e) then
    Some (StatusError kIoError ("cannot open wal file: " +:+ path), None, Some [])
  else
    '(s, w) ← Open_scanned path (wp_read e) (MkLog [] [] true (wp_future e));
    Some (s, w, Some []).

(** ** Recovery *)

Record RecoveryStats := MkStats {
  records_applied : Z; last_lsn_seen : Z; truncated_tail : bool }.
Definition RecoveryStats0 : RecoveryStats := MkStats 0 0 false.

Fixpoint Recover_loop (fuel : nat) (inp : list Z) (last_lsn applied : Z) (st : storage)
    : option (Status * RecoveryStats * storage) :=
  match fuel with
  | O => None
  | S fuel =>
      r ← ReadRecord inp;
      match r with
      | kEnd tail => Some (StatusOk, MkStats applied last_lsn tail, st)
      | kCorrupt err => Some (BadState err, RecoveryStats0, st)
      | kRecord rec rest =>
          if rec_lsn rec <=? last_lsn then
            Some (BadState "wal: log sequence numbers are not increasing", RecoveryStats0, st)
          else
            let '(exists_, st) := PageExists (rec_page_id rec) st in
            if negb exists_ then
              Some (BadState "wal: record names an unallocated page", RecoveryStats0, st)
            else
              let page := PageOf (rec_page_id rec) in
              data ← put (page_data page) 0 (sub (rec_payload rec) 0 (rec_payload_len rec));
              let '(s, st) := WritePage (set_data page data) st in
              if negb (ok s) then Some (s, RecoveryStats0, st)
              else Recover_loop fuel rest (rec_lsn rec) (u64 (applied + 1)) st
      end
  end.

(** [storage] is absent when the pointer is null. *)
Definition Recover (r : rd) (w : wal) (storage : option storage)
    : option (Status * RecoveryStats * option PageStorage.storage) :=
  match storage with
  | None => Some (Bad "Wal::Recover: null storage", RecoveryStats0, None)
  | Some st =>
      if negb (w_open w) then
        Some (BadState "Wal::Recover: log is closed", RecoveryStats0, Some st) else
      match ifstream r (lg_disk (w_file w)) with
      | None => Some (StatusError kIoError ("wal: cannot read " +:+ w_path w), RecoveryStats0,
                      Some st)
      | Some inp =>
          '(s, stats, st) ← Recover_loop (S (length inp)) inp 0 0 st;
          Some (s, stats, Some st)
      end
  end.

(** ** Specification: the log as a list of page images *)

Record image := MkImage { im_lsn : Z; im_page : Z; im_data : list Z }.

Definition image_ok (r : image) : Prop :=
  0 < im_lsn r < 2 ^ 64 /\ 0 <= im_page r < kInvalidId /\ buf_ok kPageSize (im_data r).

(** The bytes the checksum covers, the checksum and the record. *)
Definition header28 (lsn id : Z) : list Z :=
  [kMagic0; kMagic1; kMagic2; kMagic3] ++ le_bytes 2 kVersion ++ le_bytes 2 kPageImage ++
  le_bytes 8 lsn ++ le_bytes 4 id ++ le_bytes 4 kPageImagePayload ++ [0; 0; 0; 0].
Definition checksum (covered : list Z) : Z := Z.lxor (Crc32Update 0xFFFFFFFF covered) 0xFFFFFFFF.
Definition record_of (r : image) : list Z :=
  header28 (im_lsn r) (im_page r) ++
  le_bytes 4 (checksum (header28 (im_lsn r) (im_page r) ++ im_data r)) ++ im_data r.

#[global] Arguments header28 : simpl never.
#[global] Arguments record_of : simpl never.

Definition kRecordSize : Z := kHeaderSize + kPageImagePayload.

Definition log_bytes (rs : list image) : list Z := concat (record_of <$> rs).

(** The incomplete trailing record a crash can leave. *)
Definition torn (tail : list Z) : Prop :=
  exists r rest, image_ok r /\ record_of r = tail ++ rest /\ rest <> [].

Definition lsn_lt (a b : image) : Prop := im_lsn a < im_lsn b.
Definition log_ok (rs : list image) : Prop := Forall image_ok rs /\ StronglySorted lsn_lt rs.

Definition last_lsn_of (from : Z) (rs : list image) : Z := from_option im_lsn from (last rs).

(** ** The checksum detects a changed byte *)

Definition u32_ok (c : Z) : Prop := 0 <= c < 2 ^ 32.

Lemma u32_bits c : u32_ok c <-> 0 <= c /\ forall i, 32 <= i -> Z.testbit c i = false.
Proof.
  unfold u32_ok. split.
  - intros H. split; [lia|]. intros i Hi. destruct (decide (c = 0)) as [->|]; [apply Z.bits_0|].
    apply Z.bits_above_log2; [lia|]. enough (Z.log2 c < 32) by lia.
    apply Z.log2_lt_pow2; lia.
  - intros [H0 H]. split; [done|]. rewrite <- (Z.mod_small c (2 ^ 32)); [by apply Z.mod_pos_bound|].
    split; [done|]. destruct (decide (c < 2 ^ 32)); [done|]. exfalso.
    assert (32 <= Z.log2 c) by (apply Z.log2_le_pow2; lia).
    specialize (H (Z.log2 c) ltac:(lia)). rewrite Z.bit_log2 in H by lia. done.
Qed.

Lemma crc_mask c : Z.land 0xEDB88320 (u32 (0 - Z.land c 1)) = if Z.odd c then 0xEDB88320 else 0.
Proof.
  change 1 with (Z.ones 1). rewrite Z.land_ones by lia. change (2 ^ 1) with 2.
  rewrite Zmod_odd. by destruct (Z.odd c).
Qed.

Lemma crc_bit_ok c : u32_ok c -> u32_ok (crc_bit c).
Proof.
  rewrite !u32_bits. intros [H0 H]. unfold crc_bit. rewrite crc_mask. split.
  - apply Z.lxor_nonneg. rewrite Z.shiftr_nonneg. by destruct (Z.odd c).
  - intros i Hi. rewrite Z.lxor_spec, Z.shiftr_spec, H by lia. simpl.
    destruct (Z.odd c); [|apply Z.bits_0]. apply Z.bits_above_log2; [done|]. by cbn; lia.
Qed.

(** Bit 31 of the result is the bit that was shifted out. *)
Lemma crc_bit_top c : u32_ok c -> Z.testbit (crc_bit c) 31 = Z.odd c.
Proof.
  rewrite u32_bits. intros [H0 H]. unfold crc_bit.
  rewrite crc_mask, Z.lxor_spec, Z.shiftr_spec, H by lia. by destruct (Z.odd c).
Qed.

Lemma crc_bit_inj a b : u32_ok a -> u32_ok b -> crc_bit a = crc_bit b -> a = b.
Proof.
  intros Ha Hb E. assert (Z.odd a = Z.odd b) as Ho by (by rewrite <- !crc_bit_top, E).
  unfold crc_bit in E. rewrite !crc_mask, Ho in E.
  assert (Z.shiftr a 1 = Z.shiftr b 1) as Hs.
  { set (m := if Z.odd b then _ else _) in E.
    rewrite <- (Z.lxor_0_r (Z.shiftr a 1)), <- (Z.lxor_0_r (Z.shiftr b 1)), <- (Z.lxor_nilpotent m).
    by rewrite <- !Z.lxor_assoc, E. }
  rewrite !Z.shiftr_div_pow2 in Hs by lia. change (2 ^ 1) with 2 in Hs.
  rewrite (Z.div_mod a 2), (Z.div_mod b 2), Hs, !Zmod_odd, Ho by lia. done.
Qed.

Lemma lxor_byte_ok c b : u32_ok c -> byte_ok b -> u32_ok (Z.lxor c b).
Proof.
  intros Hc Hb. assert (u32_ok b) as Hb' by (unfold byte_ok, u32_ok in *; lia).
  rewrite u32_bits in *. destruct Hc as [H0 H], Hb' as [H1 H']. split.
  - apply Z.lxor_nonneg. tauto.
  - intros i Hi. by rewrite Z.lxor_spec, H, H'.
Qed.

Lemma iter_crc_ok n c : u32_ok c -> u32_ok (Nat.iter n crc_bit c).
Proof. intros. induction n; simpl; auto using crc_bit_ok. Qed.

Lemma iter_crc_inj n a b :
  u32_ok a -> u32_ok b -> Nat.iter n crc_bit a = Nat.iter n crc_bit b -> a = b.
Proof.
  intros Ha Hb. induction n as [|n IH]; simpl; [done|].
  intros E%crc_bit_inj; auto using iter_crc_ok.
Qed.

Lemma crc_byte_ok c b : u32_ok c -> byte_ok b -> u32_ok (crc_byte c b).
Proof. intros. unfold crc_byte. auto using iter_crc_ok, lxor_byte_ok. Qed.

Lemma lxor_cancel_l a b c : Z.lxor a b = Z.lxor a c -> b = c.
Proof.
  intros E. rewrite <- (Z.lxor_0_l b), <- (Z.lxor_0_l c), <- (Z.lxor_nilpotent a).
  by rewrite !Z.lxor_assoc, E.
Qed.

Lemma crc_byte_inj c c' b b' :
  u32_ok c -> u32_ok c' -> byte_ok b -> byte_ok b' -> crc_byte c b = crc_byte c' b' ->
  Z.lxor c b = Z.lxor c' b'.
Proof. unfold crc_byte. intros ? ? ? ? E. eapply iter_crc_inj; eauto using lxor_byte_ok. Qed.

Lemma Crc32Update_ok l c : u32_ok c -> bytes_ok l -> u32_ok (Crc32Update c l).
Proof.
  unfold Crc32Update. intros Hc Hl. revert c Hc.
  induction Hl; intros c Hc; simpl; auto using crc_byte_ok.
Qed.

Lemma Crc32Update_inj l c c' :
  u32_ok c -> u32_ok c' -> bytes_ok l -> Crc32Update c l = Crc32Update c' l -> c = c'.
Proof.
  unfold Crc32Update. intros Hc Hc' Hl. revert c c' Hc Hc'.
  induction Hl as [|b l Hb Hl IH]; intros c c' Hc Hc' E; [done|]. simpl in E.
  apply IH in E; [|by apply crc_byte_ok..]. apply crc_byte_inj in E; [|done..].
  rewrite (Z.lxor_comm c), (Z.lxor_comm c') in E. by apply lxor_cancel_l in E.
Qed.

Lemma Crc32Update_app c a b : Crc32Update c (a ++ b) = Crc32Update (Crc32Update c a) b.
Proof. apply foldl_app. Qed.

Lemma checksum_change a x y b :
  bytes_ok (a ++ x :: b) -> byte_ok y -> x <> y -> checksum (a ++ x :: b) <> checksum (a ++ y :: b).
Proof.
  rewrite Forall_app, Forall_cons. intros (Ha & Hx & Hb) Hy Hne E. unfold checksum in E.
  rewrite (Z.lxor_comm _ 0xFFFFFFFF), (Z.lxor_comm (Crc32Update _ (a ++ y :: b))) in E.
  apply lxor_cancel_l in E. rewrite !Crc32Update_app in E.
  assert (u32_ok (Crc32Update 0xFFFFFFFF a)) by (apply Crc32Update_ok; [unfold u32_ok; lia|done]).
  apply (Crc32Update_inj b) in E; [|by apply crc_byte_ok..|done].
  by apply crc_byte_inj, lxor_cancel_l in E.
Qed.

Lemma checksum_ok l : bytes_ok l -> u32_ok (checksum l).
Proof.
  intros Hl. unfold checksum.
  assert (u32_ok (Crc32Update 0xFFFFFFFF l)) as Hc by (apply Crc32Update_ok; [unfold u32_ok; lia|done]).
  assert (u32_ok 0xFFFFFFFF) as Hf by (unfold u32_ok; lia).
  rewrite u32_bits in *. destruct Hc as [H0 H], Hf as [H1 H']. split.
  - apply Z.lxor_nonneg. tauto.
  - intros i Hi. by rewrite Z.lxor_spec, H, H'.
Qed.

Lemma Crc32_checksum h p : Crc32 h p = checksum (sub h 0 kOffChecksum ++ p).
Proof. unfold Crc32, checksum. by rewrite Crc32Update_app. Qed.

(** ** Records *)

Lemma zlen_header28 lsn id : zlen (header28 lsn id) = 28.
Proof. done. Qed.

Lemma bytes_header28 lsn id : bytes_ok (header28 lsn id).
Proof.
  unfold header28. repeat apply Forall_app_2; auto with nexus;
    repeat constructor; unfold byte_ok, kMagic0, kMagic1, kMagic2, kMagic3; lia.
Qed.
#[export] Hint Resolve bytes_header28 : nexus.

Lemma header_fill lsn id :
  (header ← put (replicate (Z.to_nat kHeaderSize) 0) kOffMagic [kMagic0; kMagic1; kMagic2; kMagic3];
   header ← WriteU16 header kOffVersion kVersion;
   header ← WriteU16 header kOffType kPageImage;
   header ← WriteU64 header kOffLsn lsn;
   header ← WriteU32 header kOffPageId id;
   WriteU32 header kOffPayloadLen kPageImagePayload) = Some (header28 lsn id ++ [0; 0; 0; 0]).
Proof.
  etransitivity; [|reflexivity].
  change (put (replicate (Z.to_nat kHeaderSize) 0) kOffMagic [kMagic0; kMagic1; kMagic2; kMagic3])
    with (Some ([kMagic0; kMagic1; kMagic2; kMagic3] ++ replicate 28 0)). cbn [mbind option_bind].
  rewrite WriteU16_put. cbn [mbind option_bind].
  match goal with |- context [put ?d kOffVersion ?s] =>
    change (put d kOffVersion s) with (Some (take 4 d ++ s ++ drop 6 d)) end.
  cbn [mbind option_bind]. rewrite WriteU16_put.
  match goal with |- context [put ?d kOffType ?s] =>
    change (put d kOffType s) with (Some (take 6 d ++ s ++ drop 8 d)) end.
  cbn [mbind option_bind]. rewrite WriteU64_put.
  match goal with |- context [put ?d kOffLsn ?s] =>
    change (put d kOffLsn s) with (Some (take 8 d ++ s ++ drop 16 d)) end.
  cbn [mbind option_bind]. rewrite WriteU32_put.
  match goal with |- context [put ?d kOffPageId ?s] =>
    change (put d kOffPageId s) with (Some (take 16 d ++ s ++ drop 20 d)) end.
  cbn [mbind option_bind]. rewrite WriteU32_put. reflexivity.
Qed.

Lemma MakeHeader_spec r :
  MakeHeader (im_lsn r) (im_page r) (im_data r) =
  Some (header28 (im_lsn r) (im_page r) ++
        le_bytes 4 (checksum (header28 (im_lsn r) (im_page r) ++ im_data r))).
Proof.
  pose proof (header_fill (im_lsn r) (im_page r)) as H. unfold MakeHeader.
  repeat (match goal with |- mbind _ ?x = _ => destruct x eqn:?; [cbn [mbind option_bind] in *|done] end).
  injection H as ->. rewrite WriteU32_put, Crc32_checksum.
  set (h := header28 (im_lsn r) (im_page r)).
  replace (sub (h ++ [0; 0; 0; 0]) 0 kOffChecksum) with h by done.
  set (c := checksum _). done.
Qed.

Lemma zlen_record r : image_ok r -> zlen (record_of r) = kRecordSize.
Proof.
  intros (_ & _ & Hd & _). unfold record_of. rewrite !zlen_app, Hd, zlen_header28, zlen_le_bytes. done.
Qed.

Lemma bytes_record r : image_ok r -> bytes_ok (record_of r).
Proof. intros (_ & _ & _ & Hd). unfold record_of. auto using Forall_app_2 with nexus. Qed.

(** What a complete record says. *)
Definition valid_at (inp : list Z) (rec : ParsedRecord) : Prop :=
  rec = MkParsed kPageImage (field 8 inp 8) (field 4 inp 16) kPageImagePayload
          (sub inp kHeaderSize kPageSize) /\
  rec_page_id rec <> kInvalidId /\
  field 4 inp 28 = checksum (sub inp 0 28 ++ sub inp kHeaderSize kPageSize).

Definition header_valid (inp : list Z) : Prop :=
  sub inp 0 4 = [kMagic0; kMagic1; kMagic2; kMagic3] /\ field 2 inp 4 = kVersion /\
  field 2 inp 6 = kPageImage /\ field 4 inp 20 = kPageImagePayload /\ field 4 inp 16 <> kInvalidId.

Lemma magic_sub h b0 b1 b2 b3 :
  4 <= zlen h -> at_ h 0 = Some b0 -> at_ h 1 = Some b1 -> at_ h 2 = Some b2 -> at_ h 3 = Some b3 ->
  sub h 0 4 = [b0; b1; b2; b3].
Proof.
  intros. rewrite (sub_cons h 0 4 b0) by (done || lia). change (0 + 1) with 1. change (4 - 1) with 3.
  rewrite (sub_cons h 1 3 b1) by (done || lia). change (1 + 1) with 2. change (3 - 1) with 2.
  rewrite (sub_cons h 2 2 b2) by (done || lia). change (2 + 1) with 3. change (2 - 1) with 1.
  by rewrite (sub_cons h 3 1 b3) by (done || lia).
Qed.

(** [ReadRecord] classifies every stream of bytes. *)
Lemma ReadRecord_cases inp :
  bytes_ok inp ->
  match ReadRecord inp with
  | None => False
  | Some (kEnd tail) => zlen inp < kRecordSize /\ (tail = false <-> inp = [])
  | Some (kCorrupt _) => kHeaderSize <= zlen inp /\
      (header_valid inp -> kRecordSize <= zlen inp /\
         field 4 inp 28 <> checksum (sub inp 0 28 ++ sub inp kHeaderSize kPageSize))
  | Some (kRecord rec rest) =>
      kRecordSize <= zlen inp /\ header_valid inp /\ valid_at inp rec /\
      rest = drop (Z.to_nat kRecordSize) inp
  end.
Proof.
  intros Hb. unfold ReadRecord. set (h := sub inp 0 kHeaderSize).
  assert (zlen h = Z.min (zlen inp) kHeaderSize) as Hz.
  { unfold h, sub, zlen. rewrite length_take, length_drop. unfold kHeaderSize. lia. }
  pose proof (zlen_nonneg inp). unfold kRecordSize, kPageImagePayload, kPageSize in *.
  case (Z.eqb_spec (zlen h) 0); intros H0.
  { split; [unfold kHeaderSize in *; lia|]. split; [intros _|done].
    apply length_zero_iff_nil. unfold zlen, kHeaderSize in *. lia. }
  case (Z.ltb_spec (zlen h) kHeaderSize); intros Hlt.
  { split; [lia|]. split; [done|]. intros ->. by destruct H0. }
  assert (zlen h = 32) as Hh by (unfold kHeaderSize in *; lia).
  assert (bytes_ok h) as Hbh by (by apply bytes_ok_sub).
  assert (forall k p, 0 <= p -> p + Z.of_nat k <= 32 -> field k h p = field k inp p) as Hf.
  { intros k p Hp Hk. unfold h. by rewrite field_sub by (unfold kHeaderSize; lia). }
  destruct (at_in h 0) as (b0 & H1 & _); [lia|]. destruct (at_in h 1) as (b1 & H2 & _); [lia|].
  destruct (at_in h 2) as (b2 & H3 & _); [lia|]. destruct (at_in h 3) as (b3 & H4 & _); [lia|].
  unfold kOffMagic. rewrite !Z.add_0_l, H1, H2, H3, H4. cbn [mbind option_bind].
  assert (sub inp 0 4 = [b0; b1; b2; b3]) as Hm.
  { rewrite <- (magic_sub h) by (done || lia). unfold h. by rewrite sub_sub by done. }
  assert (kHeaderSize <= zlen inp) as Hin by (unfold kHeaderSize in *; lia).
  unfold header_valid. rewrite Hm.
  rewrite !ReadU16_field, !ReadU32_field, !ReadU64_field by (done || unfold kOffVersion, kOffType, kOffLsn, kOffPageId, kOffPayloadLen, kOffChecksum; lia).
  unfold kOffVersion, kOffType, kOffLsn, kOffPageId, kOffPayloadLen, kOffChecksum.
  rewrite !Hf by lia. cbn [mbind option_bind].
  destruct (negb (_ && _)) eqn:E1.
  { split; [done|]. intros (Hmm & _). by simplify_eq. }
  destruct (negb (_ =? kVersion)) eqn:E2.
  { split; [done|]. intros (_ & Hv & _). zb. done. }
  destruct (negb (_ =? kPageImage)) eqn:E3.
  { split; [done|]. intros (_ & _ & Hv & _). zb. done. }
  destruct (kMaxPayload <? _) eqn:E4.
  { split; [done|]. intros (_ & _ & _ & Hv & _). zb. rewrite Hv in E4. done. }
  destruct (negb (_ =? 4096)) eqn:E5.
  { split; [done|]. intros (_ & _ & _ & Hv & _). zb. done. }
  destruct (_ =? kInvalidId) eqn:E6.
  { split; [done|]. intros (_ & _ & _ & _ & Hv). zb. done. }
  zb. rewrite E5. unfold kHeaderSize in *.
  assert (length h = 32%nat) as Hln by (unfold zlen in *; lia). rewrite Hln.
  assert (sub (drop 32 inp) 0 4096 = sub inp 32 4096) as -> by done.
  assert (zlen (sub inp 32 4096) = Z.min 4096 (zlen inp - 32)) as Hzp.
  { unfold sub, zlen in *. rewrite length_take, length_drop. lia. }
  destruct (_ <? 4096) eqn:E7; zb.
  { split; [lia|]. split; [done|]. intros ->. done. }
  assert (Crc32 h (sub inp 32 4096) = checksum (sub inp 0 28 ++ sub inp 32 4096)) as ->.
  { rewrite Crc32_checksum. unfold h. by rewrite sub_sub by done. }
  destruct (negb _) eqn:E8; zb.
  - split; [done|]. intros _. split; [lia|done].
  - split; [lia|]. split; [split_and!; [by subst|done..]|]. split; [split_and!; [by rewrite E3|done..]|]. rewrite drop_drop. f_equal.
    unfold zlen in *. lia.
Qed.

Lemma record_fields r rest :
  image_ok r ->
  let inp := record_of r ++ rest in
  header_valid inp /\ field 8 inp 8 = im_lsn r /\ field 4 inp 16 = im_page r /\
  sub inp 0 28 = header28 (im_lsn r) (im_page r) /\
  sub inp kHeaderSize kPageSize = im_data r /\
  field 4 inp 28 = checksum (header28 (im_lsn r) (im_page r) ++ im_data r).
Proof.
  intros Hr inp. pose proof Hr as (Hlsn & Hid & Hd & Hb).
  set (c := checksum (header28 (im_lsn r) (im_page r) ++ im_data r)).
  assert (u32_ok c) as Hc by (apply checksum_ok, Forall_app_2; auto with nexus).
  assert (inp = header28 (im_lsn r) (im_page r) ++ le_bytes 4 c ++ im_data r ++ rest) as Hi.
  { unfold inp, record_of. fold c. by rewrite <- !app_assoc. }
  assert (field 2 inp 4 = kVersion) as H4 by (rewrite Hi; reflexivity).
  assert (field 2 inp 6 = kPageImage) as H6 by (rewrite Hi; reflexivity).
  assert (field 4 inp 20 = kPageImagePayload) as H20 by (rewrite Hi; reflexivity).
  assert (field 8 inp 8 = im_lsn r) as H8.
  { rewrite Hi. change (le_val (le_bytes 8 (im_lsn r)) = im_lsn r).
    rewrite le_val_le_bytes. apply Z.mod_small. lia. }
  assert (field 4 inp 16 = im_page r) as H16.
  { rewrite Hi. change (le_val (le_bytes 4 (im_page r)) = im_page r).
    rewrite le_val_le_bytes. apply Z.mod_small. unfold kInvalidId in *. lia. }
  split; [unfold header_valid; rewrite H16; split_and!; [by rewrite Hi|done..|lia]|].
  split; [done|]. split; [done|]. split; [by rewrite Hi|]. split.
  - rewrite Hi, !app_assoc. rewrite <- app_assoc. unfold sub.
    rewrite drop_app_length' by done. apply take_app_length'. unfold zlen in Hd. lia.
  - rewrite Hi. change (le_val (le_bytes 4 c) = c). rewrite le_val_le_bytes. by apply Z.mod_small.
Qed.

Lemma ReadRecord_record r rest :
  image_ok r -> bytes_ok rest ->
  ReadRecord (record_of r ++ rest) =
  Some (kRecord (MkParsed kPageImage (im_lsn r) (im_page r) kPageImagePayload (im_data r)) rest).
Proof.
  intros Hr Hrest. pose proof (zlen_record r Hr) as Hz.
  destruct (record_fields r rest Hr) as (Hh & H8 & H16 & H0 & H32 & H28).
  pose proof (ReadRecord_cases (record_of r ++ rest)) as H.
  rewrite zlen_app, H0, H32, H28 in H.
  specialize (H (Forall_app_2 _ _ _ (bytes_record r Hr) Hrest)). pose proof (zlen_nonneg rest).
  destruct (ReadRecord _) as [[rec rest'|tail|err]|]; [| |by destruct H as [_ H]; destruct (H Hh)|done].
  - destruct H as (_ & _ & (-> & _) & ->). rewrite H8, H16, H32. do 2 f_equal.
    apply drop_app_length'. unfold zlen, kRecordSize, kPageImagePayload, kPageSize, kHeaderSize in *. lia.
  - destruct H. lia.
Qed.

(** A strict prefix of a record reads as the end of the log. *)
Lemma ReadRecord_torn tail :
  torn tail -> ReadRecord tail = Some (kEnd (negb (bool_decide (tail = [])))).
Proof.
  intros (r & rest & Hr & Ht & Hne). pose proof (zlen_record r Hr) as Hz. rewrite Ht, zlen_app in Hz.
  pose proof (bytes_record r Hr) as Hb. rewrite Ht in Hb. apply Forall_app in Hb as [Hbt Hbr].
  assert (0 < zlen rest) as Hpos by (unfold zlen; destruct rest; [done|simpl; lia]).
  pose proof (ReadRecord_cases tail Hbt) as H.
  destruct (ReadRecord tail) as [[rec rest'|t|err]|]; [lia| | |done].
  - destruct H as [_ H]. do 2 f_equal. case_bool_decide as E; [by apply H|].
    destruct t; [done|]. by destruct E; apply H.
  - destruct H as [H32 Hc].
    assert (header_valid tail) as Hv.
    { destruct (record_fields r [] Hr) as ((Hm & H4 & H6 & H20 & H16) & _).
      rewrite app_nil_r, Ht in *.
      assert (forall p n, 0 <= p -> 0 <= n -> p + n <= 32 -> sub (tail ++ rest) p n = sub tail p n) as Hs.
      { intros p n Hp Hn Hpn. unfold sub. unfold kHeaderSize, zlen in *.
        rewrite drop_app_le, take_app_le; [done|rewrite length_drop; lia|lia]. }
      unfold field in *. rewrite Hs in * by lia. by split_and!. }
    destruct (Hc Hv). unfold kRecordSize in *. lia.
Qed.

Lemma torn_nil r : image_ok r -> torn [].
Proof.
  intros Hr. exists r, (record_of r). split_and!; [done..|]. intros E.
  pose proof (zlen_record r Hr) as H. by rewrite E in H.
Qed.

Lemma three_parts h cs d rest :
  zlen h = 28 -> zlen cs = 4 -> zlen d = kPageSize ->
  let inp := h ++ cs ++ d ++ rest in
  sub inp 0 28 = h /\ field 4 inp 28 = le_val cs /\ sub inp kHeaderSize kPageSize = d.
Proof.
  intros Hh Hcs Hd inp. unfold zlen, inp, field, sub in *. split_and!.
  - rewrite drop_0. apply take_app_length'. lia.
  - rewrite drop_app_length' by lia. f_equal. apply take_app_length'. lia.
  - rewrite (app_assoc h), drop_app_length' by (rewrite length_app; unfold kHeaderSize; lia).
    apply take_app_length'. lia.
Qed.

Lemma list_insert_split (l : list Z) i x y :
  l !! i = Some x -> exists a b, l = a ++ x :: b /\ <[i:=y]> l = a ++ y :: b.
Proof.
  intros Hl. exists (take i l), (drop (S i) l). split; [by rewrite take_drop_middle|].
  apply insert_take_drop. by apply lookup_lt_Some in Hl.
Qed.

Lemma le_val_change l i x y :
  l !! i = Some x -> x <> y -> le_val (<[i:=y]> l) <> le_val l.
Proof.
  intros Hl Hne. destruct (list_insert_split _ _ _ y Hl) as (a & b & -> & ->). rewrite !le_val_app. simpl.
  pose proof (zlen_nonneg a). assert (0 < 256 ^ zlen a) by (apply Z.pow_pos_nonneg; lia). nia.
Qed.

Lemma checksum_insert pre l i x y post :
  bytes_ok (pre ++ l ++ post) -> byte_ok y -> l !! i = Some x -> x <> y ->
  checksum (pre ++ <[i:=y]> l ++ post) <> checksum (pre ++ l ++ post).
Proof.
  intros Hb Hy Hl Hne. destruct (list_insert_split _ _ _ y Hl) as (a & b & -> & ->).
  rewrite <- !(app_assoc a), !(app_assoc pre), <- !app_comm_cons in *. intros E. symmetry in E.
  by eapply checksum_change in E.
Qed.

(** Any single changed byte of a complete record is reported as corruption. *)
Lemma ReadRecord_flip r i x b rest :
  image_ok r -> bytes_ok rest -> record_of r !! i = Some x -> byte_ok b -> x <> b ->
  exists err, ReadRecord (<[i := b]> (record_of r) ++ rest) = Some (kCorrupt err).
Proof.
  intros Hr Hrest Hi Hb Hne. pose proof Hr as (_ & _ & Hd & Hdb).
  pose proof (zlen_record r Hr) as Hz. pose proof (bytes_record r Hr) as Hrb.
  set (h := header28 (im_lsn r) (im_page r)) in *. set (c := checksum (h ++ im_data r)).
  assert (record_of r = h ++ le_bytes 4 c ++ im_data r) as He by done.
  assert (bytes_ok (h ++ im_data r)) as Hcov by (apply Forall_app_2; [apply bytes_header28|done]).
  assert (u32_ok c) as Hc by (by apply checksum_ok).
  assert (le_val (le_bytes 4 c) = c) as Hlc by (rewrite le_val_le_bytes; by apply Z.mod_small).
  assert (zlen (le_bytes 4 c) = 4) as Hz4 by done.
  assert (zlen h = 28) as Hz28 by done.
  set (inp := <[i := b]> (record_of r) ++ rest).
  enough (field 4 inp 28 <> checksum (sub inp 0 28 ++ sub inp kHeaderSize kPageSize)) as Hbad.
  { pose proof (ReadRecord_cases inp) as H. pose proof (zlen_nonneg rest).
    assert (zlen (<[i := b]> (record_of r)) = kRecordSize) as Hzi.
    { unfold zlen. by rewrite length_insert. }
    assert (kRecordSize <= zlen inp) by (unfold inp; rewrite zlen_app; lia).
    destruct (ReadRecord inp) as [[rec rest'|t|err]|];
      specialize (H (Forall_app_2 _ _ _ (Forall_insert _ _ _ _ Hrb Hb) Hrest)).
    - by destruct H as (_ & _ & (_ & _ & H) & _).
    - destruct H. lia.
    - by exists err.
    - done. }
  unfold inp. rewrite He in *. clear inp.
  destruct (decide (i < 28)%nat); [|destruct (decide (i < 32)%nat)].
  - rewrite insert_app_l by (unfold zlen in *; lia). rewrite <- !app_assoc.
    rewrite lookup_app_l in Hi by (unfold zlen in *; lia).
    destruct (three_parts (<[i:=b]> h) (le_bytes 4 c) (im_data r) rest) as (-> & -> & ->);
      [unfold zlen in *; rewrite length_insert; lia|done..|].
    rewrite Hlc. intros E. symmetry in E. revert E.
    by apply (checksum_insert [] h i x b).
  - rewrite insert_app_r_alt by (unfold zlen in *; lia).
    rewrite insert_app_l by (unfold zlen in *; lia). rewrite <- !app_assoc.
    rewrite lookup_app_r, lookup_app_l in Hi by (unfold zlen in *; lia).
    destruct (three_parts h (<[(i - length h)%nat:=b]> (le_bytes 4 c)) (im_data r) rest) as (-> & -> & ->);
      [done|unfold zlen in *; rewrite length_insert; lia|done|].
    fold c. rewrite <- Hlc at 2. by eapply le_val_change.
  - rewrite !insert_app_r_alt by (unfold zlen in *; lia). rewrite <- !app_assoc.
    rewrite !lookup_app_r in Hi by (unfold zlen in *; lia).
    set (j := (i - length h - length (le_bytes 4 c))%nat) in *.
    destruct (three_parts h (le_bytes 4 c) (<[j:=b]> (im_data r)) rest) as (-> & -> & ->);
      [done..|unfold zlen in *; rewrite length_insert; lia|].
    rewrite Hlc. intros E. symmetry in E. revert E.
    pose proof (checksum_insert h (im_data r) j x b []) as H. rewrite !app_nil_r in H.
    by apply H.
Qed.

(** ** Scanning a log *)

Lemma log_bytes_app a b : log_bytes (a ++ b) = log_bytes a ++ log_bytes b.
Proof. unfold log_bytes. by rewrite fmap_app, concat_app. Qed.

Lemma log_bytes_cons r rs : log_bytes (r :: rs) = record_of r ++ log_bytes rs.
Proof. done. Qed.

Lemma bytes_log rs : Forall image_ok rs -> bytes_ok (log_bytes rs).
Proof.
  induction 1; [constructor|]. rewrite log_bytes_cons.
  apply Forall_app_2; [by apply bytes_record|done].
Qed.

Lemma zlen_log rs : Forall image_ok rs -> zlen (log_bytes rs) = zlen rs * kRecordSize.
Proof.
  induction 1 as [|r rs Hr _ IH]; [done|]. rewrite log_bytes_cons, zlen_app, zlen_cons, IH, zlen_record by done. lia.
Qed.

Lemma bytes_torn tail : torn tail -> bytes_ok tail.
Proof.
  intros (r & rest & Hr & Ht & _). pose proof (bytes_record r Hr) as Hb. rewrite Ht in Hb.
  by apply Forall_app in Hb as [? _].
Qed.

(** The log continues after [from]. *)
Definition above (from : Z) (rs : list image) : Prop := Forall (fun r => from < im_lsn r) rs.

Lemma log_ok_cons r rs : log_ok (r :: rs) <-> image_ok r /\ above (im_lsn r) rs /\ log_ok rs.
Proof.
  unfold log_ok, above. rewrite Forall_cons. split.
  - intros [[? ?] Hs]. apply StronglySorted_inv in Hs as [? ?]. by split_and!.
  - intros (? & ? & ? & ?). split_and!; [done..|by constructor].
Qed.

Lemma last_lsn_cons from r rs : last_lsn_of from (r :: rs) = last_lsn_of (im_lsn r) rs.
Proof. unfold last_lsn_of. destruct rs; [done|]. rewrite last_cons. by destruct (last (_ :: _)) eqn:E. Qed.

Lemma Scan_loop_log rs from rest fuel :
  log_ok rs -> above from rs -> bytes_ok rest -> (length rs <= fuel)%nat ->
  Scan_loop fuel (log_bytes rs ++ rest) from =
  Scan_loop (fuel - length rs) rest (last_lsn_of from rs).
Proof.
  intros Hok Hab Hrest. revert from fuel Hab.
  induction rs as [|r rs IH]; intros from fuel Hab Hf; [by rewrite Nat.sub_0_r|].
  apply log_ok_cons in Hok as (Hr & Ha & Hok). inversion Hab; subst.
  destruct fuel as [|fuel]; [simpl in Hf; lia|]. simpl in Hf.
  rewrite log_bytes_cons, <- app_assoc. cbn [Scan_loop].
  rewrite ReadRecord_record; [|done|apply Forall_app_2; [apply bytes_log, Hok|done]].
  cbn [mbind option_bind rec_lsn]. rewrite (proj2 (Z.leb_gt _ _)) by done.
  rewrite IH, last_lsn_cons; [done..|lia].
Qed.

Lemma Scan_loop_torn tail from fuel :
  torn tail -> (0 < fuel)%nat ->
  Scan_loop fuel tail from = Some (StatusOk, from, negb (bool_decide (tail = []))).
Proof.
  intros Ht Hf. destruct fuel; [lia|]. cbn [Scan_loop]. by rewrite ReadRecord_torn.
Qed.

Lemma log_length rs : Forall image_ok rs -> (length rs <= length (log_bytes rs))%nat.
Proof. intros H. pose proof (zlen_log rs H). pose proof (zlen_nonneg rs). unfold zlen, kRecordSize, kHeaderSize, kPageImagePayload, kPageSize in *. lia. Qed.

(** Every stream is scanned to an answer. *)
Lemma Scan_loop_total inp from fuel :
  bytes_ok inp -> (length inp < fuel)%nat ->
  exists s lsn tail, Scan_loop fuel inp from = Some (s, lsn, tail) /\ (ok s = true \/ code s = kBadState).
Proof.
  revert inp from. induction fuel as [|fuel IH]; intros inp from Hb Hf; [lia|]. cbn [Scan_loop].
  pose proof (ReadRecord_cases inp Hb) as H.
  destruct (ReadRecord inp) as [[rec rest|t|err]|]; cbn [mbind option_bind]; [|eauto 6..|done].
  destruct (_ <=? _); [eauto 6|]. destruct H as (Hl & _ & _ & ->).
  apply IH; [by apply Forall_drop|]. rewrite length_drop.
  unfold zlen, kRecordSize, kHeaderSize, kPageImagePayload, kPageSize in *. lia.
Qed.
