(* ===== verification/WalSpec.v ===== *)
(** * What the write-ahead log guarantees

    Durability and recovery of [Wal.v]: a crash at any moment leaves a log whose
    valid records include everything reported durable; recovery replays them and
    may itself be interrupted and repeated; a changed byte is detected.  A crash
    in the middle of a call leaves the file as a call that failed there does, so
    that the runs below, whose calls fail anywhere, cover every crash point. *)

From stdpp Require Import sorting.
From S2P Require Import Prelude Bytes Common PageStorage Wal.

(** ** Prefixes of a log *)

Lemma prefix_sorted a b : a `prefix_of` b -> log_ok b -> log_ok a.
Proof.
  intros [k ->] [Hf Hs]. apply Forall_app in Hf as [? _]. split; [done|].
  by apply StronglySorted_app_1_l in Hs.
Qed.

Lemma above_prefix from a b : a `prefix_of` b -> above from b -> above from a.
Proof. intros [k ->]. unfold above. by intros [? _]%Forall_app. Qed.

Lemma torn_record r tail :
  image_ok r -> tail `prefix_of` record_of r -> tail <> record_of r -> torn tail.
Proof.
  intros Hr [rest Ht] Hne. exists r, rest. split_and!; [done..|]. intros ->.
  by rewrite app_nil_r in Ht.
Qed.

(** The bytes a crash leaves are some whole records and a torn tail. *)
Lemma crash_prefix rs d :
  Forall image_ok rs -> d `prefix_of` log_bytes rs ->
  exists rs' tail, d = log_bytes rs' ++ tail /\ rs' `prefix_of` rs /\ (torn tail \/ tail = []).
Proof.
  intros Hok. revert d. induction Hok as [|r rs Hr Hok IH]; intros d Hd.
  - apply prefix_nil_inv in Hd as ->. exists [], []. by split_and!; [done|exists []|right].
  - rewrite log_bytes_cons in Hd. destruct Hd as [k Hk].
    symmetry in Hk. apply app_eq_inv in Hk as [(m & -> & Hm)|(m & Hd & _)].
    + destruct (IH m) as (rs' & tail & -> & [l ->] & Ht); [by exists k|].
      exists (r :: rs'), tail. rewrite log_bytes_cons, <- app_assoc.
      split_and!; [done|by exists l|done].
    + destruct (decide (m = [])) as [->|Hne].
      * exists [r], []. rewrite app_nil_r in Hd. subst d. rewrite log_bytes_cons, !app_nil_r.
        split_and!; [done|by exists rs|by right].
      * exists [], d. split_and!; [done|by exists (r :: rs)|]. left. by exists r, m.
Qed.

(** A whole log inside [d] is inside the records a crash keeps. *)
Lemma durable_prefix all rs ds tail :
  Forall image_ok all -> rs `prefix_of` all -> ds `prefix_of` all ->
  (torn tail \/ tail = []) -> log_bytes ds `prefix_of` log_bytes rs ++ tail -> ds `prefix_of` rs.
Proof.
  intros Hall Hrs Hds Ht Hp.
  destruct (prefix_weak_total ds rs all) as [?|[k ->]]; [done..|].
  destruct k as [|r k]; [by rewrite app_nil_r|]. exfalso.
  assert (image_ok r) as Hr.
  { destruct Hds as [l ->]. rewrite !Forall_app, Forall_cons in Hall. tauto. }
  destruct Hp as [l Hl]. rewrite log_bytes_app, <- app_assoc in Hl. apply app_inv_head in Hl.
  rewrite log_bytes_cons in Hl. pose proof (zlen_record r Hr) as Hz.
  assert (kRecordSize <= zlen tail) as Hle.
  { rewrite Hl, !zlen_app, Hz. pose proof (zlen_nonneg (log_bytes k)). pose proof (zlen_nonneg l). lia. }
  destruct Ht as [(r' & rest & Hr' & Ht & Hne)| ->]; [|done].
  pose proof (zlen_record r' Hr') as Hz'. rewrite Ht, zlen_app in Hz'.
  destruct rest; [done|]. rewrite zlen_cons in Hz'. pose proof (zlen_nonneg rest). lia.
Qed.

(** ** The append stream *)

(** The stream has taken the bytes [L]: while it is good they are in the file or
    in the buffer, and the file never has anything else. *)
Definition stream_of (L : list Z) (f : logstream) : Prop :=
  lg_disk f `prefix_of` L /\ (lg_good f = true -> lg_disk f ++ lg_buf f = L).

Lemma take_prefix {A} n (l : list A) : take n l `prefix_of` l.
Proof. exists (drop n l). by rewrite take_drop. Qed.

Lemma lg_write_spec L f src :
  stream_of L f -> lg_good f = true ->
  let f' := lg_write f src in
  stream_of (L ++ src) f' /\ lg_disk f `prefix_of` lg_disk f'.
Proof.
  intros [_ Hb] Hg. specialize (Hb Hg). unfold lg_write. rewrite Hg. cbn [negb].
  destruct (next_aio f) as [k|k held]; unfold stream_of; simpl; split.
  2, 4: by apply prefix_app_r.
  - split; [|intros _]; rewrite <- Hb, <- app_assoc; [apply prefix_app, take_prefix|].
    by rewrite <- app_assoc, take_drop.
  - split; [|done]. rewrite <- Hb, <- app_assoc. apply prefix_app, take_prefix.
Qed.

Lemma lg_flush_spec L f :
  stream_of L f ->
  let f' := lg_flush f in
  stream_of L f' /\ lg_disk f `prefix_of` lg_disk f' /\ (lg_good f' = true -> lg_disk f' = L).
Proof.
  intros [Hp Hb]. unfold lg_flush. destruct (lg_good f) eqn:Hg; cbn [negb].
  2: { split_and!; [|done|by rewrite Hg]. split; [done|by rewrite Hg]. }
  specialize (Hb eq_refl). destruct (next_aio f) as [k|k held]; unfold stream_of; simpl.
  - rewrite app_nil_r, Hb. split_and!; done.
  - split_and!; [|done|by apply prefix_app_r|done]. rewrite <- Hb. apply prefix_app, take_prefix.
Qed.

(** ** Sessions *)

Inductive wal_op :=
  | WAppend (page_id : Z) (data : list Z)
  | WFlush
  | WBefore (page : Page).

Definition wal_op_ok (o : wal_op) : Prop :=
  match o with
  | WAppend id d => 0 <= id <= kInvalidId /\ buf_ok kPageSize d
  | WFlush => True
  | WBefore p => page_ok p
  end.

Definition wal_step (o : wal_op) (w : wal) : option (Status * wal) :=
  match o with
  | WAppend id d => '(s, _, w) ← AppendPageImage id (Some d) (zlen d) w; Some (s, w)
  | WFlush => Some (Flush w)
  | WBefore p => BeforePageWrite p w
  end.

(** The image an operation has appended: its LSN was handed out. *)
Definition op_image (o : wal_op) (w : wal) : image :=
  match o with
  | WAppend id d => MkImage (w_next w) id d
  | WBefore p => MkImage (w_next w) (page_id p) (page_data p)
  | WFlush => MkImage 0 0 []
  end.
Definition appended (o : wal_op) (w w' : wal) : list image :=
  if w_next w' =? w_next w then [] else [op_image o w].

(** The run, with the images appended. *)
Fixpoint wal_run (os : list wal_op) (w : wal) : option (list image * wal) :=
  match os with
  | [] => Some ([], w)
  | o :: os =>
      '(_, w1) ← wal_step o w;
      '(rs, w2) ← wal_run os w1;
      Some (appended o w w1 ++ rs, w2)
  end.

(** ** The invariant of an open log *)

Section Invariant.
(** What is known of the pages that are logged. *)
Context (Q : Z -> Prop).

(** [rs] was appended in full, [extra] is what a failed append may have left;
    [ds] is in the file. *)
Record wal_inv (rs : list image) (w : wal) : Prop := {
  wi_open : w_open w = true;
  wi_next : w_next w = last_lsn_of 0 rs + 1 /\ w_next w < 2 ^ 64;
  wi_log : exists extra, (length extra <= 1)%nat /\ log_ok (rs ++ extra) /\
    Forall (fun r => Q (im_page r)) (rs ++ extra) /\
    (lg_good (w_file w) = true -> extra = []) /\
    stream_of (log_bytes (rs ++ extra)) (w_file w);
  wi_durable : exists ds, ds `prefix_of` rs /\ log_bytes ds `prefix_of` lg_disk (w_file w) /\
    forall r, r ∈ rs -> im_lsn r <= w_durable w -> r ∈ ds }.

Lemma last_lsn_snoc from rs r : last_lsn_of from (rs ++ [r]) = im_lsn r.
Proof. unfold last_lsn_of. by rewrite last_snoc. Qed.

Lemma log_ok_last rs : log_ok rs -> 0 <= last_lsn_of 0 rs.
Proof.
  intros [Hf _]. unfold last_lsn_of. destruct (last rs) as [r|] eqn:E; [|done]. simpl.
  apply last_Some_elem_of in E. rewrite Forall_forall in Hf. destruct (Hf r E). lia.
Qed.

Lemma log_ok_le rs r : log_ok rs -> r ∈ rs -> im_lsn r <= last_lsn_of 0 rs.
Proof.
  intros [_ Hs] Ha. unfold last_lsn_of.
  destruct rs as [|x rs _] using rev_ind; [by apply not_elem_of_nil in Ha|].
  rewrite last_snoc. simpl. apply elem_of_app in Ha as [Ha| ->%list_elem_of_singleton]; [|done].
  assert (lsn_lt r x) by (by apply (StronglySorted_app_1_elem_of lsn_lt rs [x] r x Hs), list_elem_of_singleton).
  unfold lsn_lt in *. lia.
Qed.

Lemma log_ok_snoc rs r :
  log_ok rs -> image_ok r -> last_lsn_of 0 rs < im_lsn r -> log_ok (rs ++ [r]).
Proof.
  intros Hok Hr Hl. pose proof Hok as [Hf Hs]. split; [by apply Forall_app_2; [|constructor]|].
  apply StronglySorted_app_2; [|done|repeat constructor].
  intros a b Ha ->%list_elem_of_singleton. pose proof (log_ok_le rs a Hok Ha). unfold lsn_lt. lia.
Qed.

Lemma next_image_ok rs w id d :
  log_ok rs -> wal_inv rs w -> 0 <= id < kInvalidId -> buf_ok kPageSize d ->
  image_ok (MkImage (w_next w) id d).
Proof.
  intros Hok [_ [Hn Hb] _ _] Hid Hd. pose proof (log_ok_last rs Hok). split_and!; simpl; try done; lia.
Qed.

Lemma wal_inv_log_ok rs w : wal_inv rs w -> log_ok rs.
Proof. intros [_ _ (extra & _ & Hok & _) _]. eapply prefix_sorted; [|exact Hok]. by exists extra. Qed.

Lemma durable_grow rs rs' w f d :
  (exists ds, ds `prefix_of` rs /\ log_bytes ds `prefix_of` lg_disk (w_file w) /\
    forall r, r ∈ rs -> im_lsn r <= w_durable w -> r ∈ ds) ->
  lg_disk (w_file w) `prefix_of` lg_disk f -> d = w_durable w ->
  Forall (fun r => w_durable w < im_lsn r) rs' ->
  exists ds, ds `prefix_of` rs ++ rs' /\ log_bytes ds `prefix_of` lg_disk f /\
    forall r, r ∈ rs ++ rs' -> im_lsn r <= d -> r ∈ ds.
Proof.
  intros (ds & Hp & Hl & Hd) Hf -> Hnew. exists ds.
  split_and!; [by apply prefix_app_r|by etrans|].
  intros r [Hr|Hr]%elem_of_app Hle; [by apply Hd|].
  rewrite Forall_forall in Hnew. specialize (Hnew r Hr). lia.
Qed.

Lemma durable_keep rs w f d :
  (exists ds, ds `prefix_of` rs /\ log_bytes ds `prefix_of` lg_disk (w_file w) /\
    forall r, r ∈ rs -> im_lsn r <= w_durable w -> r ∈ ds) ->
  lg_disk (w_file w) `prefix_of` lg_disk f -> d = w_durable w ->
  exists ds, ds `prefix_of` rs /\ log_bytes ds `prefix_of` lg_disk f /\
    forall r, r ∈ rs -> im_lsn r <= d -> r ∈ ds.
Proof.
  intros H Hf Hd. pose proof (durable_grow rs [] w f d H Hf Hd) as G. rewrite app_nil_r in G.
  by apply G.
Qed.

Lemma AppendPageImage_spec rs w id d :
  wal_inv rs w -> 0 <= id <= kInvalidId -> Q id -> buf_ok kPageSize d ->
  w_next w + 1 < 2 ^ 64 -> w_durable w < w_next w ->
  exists s lsn w', AppendPageImage id (Some d) kPageSize w = Some (s, lsn, w') /\
    w_durable w' = w_durable w /\
    (s = StatusOk /\ lsn = w_next w /\ w_next w' = w_next w + 1 /\ lg_good (w_file w) = true /\
       wal_inv (rs ++ [MkImage (w_next w) id d]) w' \/
     ok s = false /\ w_next w' = w_next w /\ (id <> kInvalidId -> lg_good (w_file w') = false) /\
       wal_inv rs w').
Proof.
  intros Hw Hid HQid Hd Hbound Hdur. pose proof Hw as [Ho [Hn Hlt] (extra & Hlen & Hok & HQ & Hgood & Hst) Hds].
  pose proof (wal_inv_log_ok _ _ Hw) as Hrs. pose proof (log_ok_last rs Hrs).
  unfold AppendPageImage. rewrite Ho. cbn [negb].
  rewrite (proj2 (Z.eqb_eq kPageSize kPageImagePayload)) by done. cbn [negb].
  case (Z.eqb_spec id kInvalidId); intros Hi; [by eexists _, _, _; split_and!; [done..|right]|].
  pose proof Hd as [Hz _].
  rewrite get_in, (sub_all d) by (done || rewrite ?Hz; unfold kPageSize; lia). cbn [mbind option_bind].
  set (r := MkImage (w_next w) id d).
  assert (image_ok r) as Hr by (apply (next_image_ok rs); auto; lia).
  change (MakeHeader (w_next w) id d) with (MakeHeader (im_lsn r) (im_page r) (im_data r)).
  rewrite MakeHeader_spec. cbn [mbind option_bind].
  set (h := header28 (im_lsn r) (im_page r) ++ _).
  assert (record_of r = h ++ d) as Hrec by (unfold record_of, h; by rewrite <- app_assoc).
  destruct (lg_good (w_file w)) eqn:Hg.
  2: { assert (forall src, lg_write (w_file w) src = w_file w) as Hno by (intros; unfold lg_write; by rewrite Hg).
       rewrite !Hno, Hg. cbn [negb]. eexists _, _, _. split_and!; [done..|]. right. split_and!; [done..|].
       constructor; [done|done| |done]. exists extra. split_and!; [done|done|done|simpl; by rewrite Hg|done]. }
  rewrite (Hgood eq_refl), app_nil_r in Hst, HQ.
  assert (Forall (fun q => Q (im_page q)) (rs ++ [r])) as HQr by (by apply Forall_app_2; [|constructor]).
  destruct (lg_write_spec _ _ h Hst Hg) as [Hst1 Hp1].
  assert (log_ok (rs ++ [r])) as Hokr by (apply log_ok_snoc; simpl; auto; lia).
  set (f1 := lg_write (w_file w) h) in *. set (f2 := lg_write f1 d).
  assert (stream_of (log_bytes (rs ++ [r])) f2 /\ lg_disk (w_file w) `prefix_of` lg_disk f2) as [Hst2 Hp2].
  { rewrite log_bytes_app, log_bytes_cons, app_nil_r, Hrec, app_assoc.
    destruct (lg_good f1) eqn:Hg1.
    - destruct (lg_write_spec _ _ d Hst1 Hg1) as [? ?]. split; [done|by etrans].
    - unfold f2, lg_write. rewrite Hg1. simpl. split; [|done]. destruct Hst1 as [Hpre _].
      split; [by apply prefix_app_r|by rewrite Hg1]. }
  destruct (lg_good f2) eqn:Hg2; cbn [negb]; eexists _, _, _; (split; [done|]); (split; [done|]); [left|right].
  - rewrite wrap_small by lia. split_and!; [done..|]. constructor; [done| | |].
    + simpl. rewrite last_lsn_snoc. simpl. lia.
    + exists []. rewrite app_nil_r. simpl. split_and!; [lia|done..].
    + apply (durable_grow rs [r] w); [done..|]. by constructor.
  - split_and!; [done..|]. constructor; [done|done| |].
    + exists [r]. simpl. split_and!; [lia|done|done|by rewrite Hg2|done].
    + by apply (durable_keep rs w).
Qed.

Lemma Flush_spec rs w :
  wal_inv rs w ->
  exists s w', Flush w = (s, w') /\ w_next w' = w_next w /\ wal_inv rs w' /\
    (w_durable w' = w_durable w \/ w_durable w' = w_next w - 1) /\
    (ok s = true -> lg_disk (w_file w') = log_bytes rs /\ w_durable w' = w_next w - 1 /\
       lg_good (w_file w') = true) /\
    (ok s = false -> lg_good (w_file w') = false /\ w_durable w' = w_durable w).
Proof.
  intros Hw. pose proof Hw as [Ho [Hn Hlt] (extra & Hlen & Hok & HQ & Hgood & Hst) Hds].
  pose proof (wal_inv_log_ok _ _ Hw) as Hrs. pose proof (log_ok_last rs Hrs).
  unfold Flush. rewrite Ho. cbn [negb].
  destruct (lg_flush_spec _ _ Hst) as (Hst' & Hp & Hall). set (f := lg_flush (w_file w)) in *.
  assert (lg_good f = true -> extra = []) as Hex.
  { intros Hg. apply Hgood. unfold f, lg_flush in Hg. by destruct (lg_good (w_file w)) eqn:E; [|cbn in Hg; congruence]. }
  destruct (lg_good f) eqn:Hg; cbn [negb]; eexists _, _; (split; [done|]).
  - rewrite (Hex eq_refl), app_nil_r in *. specialize (Hall eq_refl). simpl.
    rewrite wrap_small by lia. split_and!; [done| |by right|done|done]. constructor; simpl; [done..| |].
    + exists []. rewrite app_nil_r. simpl. split_and!; [lia|done..].
    + exists rs. split_and!; [done|by rewrite Hall|done].
  - split_and!; [done| |by left|done|done]. constructor; simpl; [done..| |].
    + exists extra. split_and!; [done|done|done|by rewrite Hg|done].
    + by apply (durable_keep rs w).
Qed.

(** The barrier: it succeeds with the image in the file, or leaves a stream that
    will never succeed again. *)
Lemma BeforePageWrite_spec rs w p :
  wal_inv rs w -> page_ok p -> page_id p <> kInvalidId -> Q (page_id p) ->
  w_next w + 1 < 2 ^ 64 -> w_durable w < w_next w ->
  let r := MkImage (w_next w) (page_id p) (page_data p) in
  exists s w', BeforePageWrite p w = Some (s, w') /\
    (ok s = true /\ lg_good (w_file w) = true /\ wal_inv (rs ++ [r]) w' /\
       w_next w' = w_next w + 1 /\ w_durable w' = w_next w /\ lg_good (w_file w') = true \/
     ok s = false /\ lg_good (w_file w') = false /\ w_durable w' = w_durable w /\
       (wal_inv rs w' /\ w_next w' = w_next w \/
        lg_good (w_file w) = true /\ wal_inv (rs ++ [r]) w' /\ w_next w' = w_next w + 1)).
Proof.
  intros Hw (Hz & Hbp & Hid) Hi HQ Hb Hd r. unfold BeforePageWrite, IsValid.
  rewrite (proj2 (Z.eqb_neq _ _)) by done. cbn [negb].
  destruct (AppendPageImage_spec rs w (page_id p) (page_data p)) as (s & lsn & w1 & -> & Hdur & C); [done..|].
  cbn [mbind option_bind].
  destruct C as [(-> & -> & Hn & Hg & Hw1)|(Hs & Hn & Hg & Hw1)]; [|rewrite Hs]; cbn [negb].
  2: { eexists _, _. split; [done|]. right. split_and!; [done|by apply Hg|done|by left]. }
  rewrite ok_StatusOk. cbn [negb].
  destruct (Flush_spec _ w1 Hw1) as (s & w' & -> & Hn' & Hw' & _ & Hok & Hbad). eexists _, _.
  split; [done|]. destruct (ok s) eqn:Hs.
  - left. destruct (Hok eq_refl) as (_ & ? & ?). split_and!; [done..|lia|lia|done].
  - right. destruct (Hbad eq_refl). split_and!; [done..|congruence|]. right. split_and!; [done..|lia].
Qed.

Definition op_pages (o : wal_op) : Prop :=
  match o with WAppend id _ => Q id | WBefore p => Q (page_id p) | WFlush => True end.

Definition flushes (o : wal_op) : bool := match o with WAppend _ _ => false | _ => true end.

Lemma wal_step_spec rs o w :
  wal_inv rs w -> wal_op_ok o -> op_pages o -> w_next w + 1 < 2 ^ 64 -> w_durable w < w_next w ->
  exists s w', wal_step o w = Some (s, w') /\ wal_inv (rs ++ appended o w w') w' /\
    w_durable w' < w_next w' /\ w_next w' <= w_next w + 1 /\
    (ok s = true -> flushes o = true -> w_durable w' = w_next w' - 1).
Proof.
  intros Hw Ho HQ Hb Hd. unfold appended. destruct o as [id d| |p]; simpl in Ho, HQ |- *.
  - destruct Ho as [Hid Hbuf]. rewrite (proj1 Hbuf).
    destruct (AppendPageImage_spec rs w id d) as (s & lsn & w' & -> & Hdur & C); [done..|].
    cbn [mbind option_bind]. eexists _, _. split; [done|].
    destruct C as [(-> & -> & Hn & _ & Hw')|(Hs & Hn & _ & Hw')]; rewrite Hn.
    + replace (w_next w + 1 =? w_next w) with false by lia. split_and!; [done|lia|lia|done].
    + rewrite Z.eqb_refl, app_nil_r. split_and!; [done|lia|lia|congruence].
  - destruct (Flush_spec rs w Hw) as (s & w' & -> & Hn & Hw' & Hdur & Hok & _). eexists _, _.
    split; [done|]. rewrite Hn, Z.eqb_refl, app_nil_r. split_and!; [done|lia|lia|].
    intros Hs _. by apply Hok.
  - destruct (decide (page_id p = kInvalidId)) as [Hi|Hi].
    { unfold BeforePageWrite, IsValid. rewrite Hi, Z.eqb_refl. cbn [negb]. eexists _, _.
      split; [done|]. rewrite Z.eqb_refl, app_nil_r. by split_and!; [| |lia|]. }
    destruct (BeforePageWrite_spec rs w p) as (s & w' & -> & C); [done..|]. eexists _, _. split; [done|].
    assert (forall w', w_next w' = w_next w + 1 -> (w_next w' =? w_next w) = false) as Heq by lia.
    destruct C as [(Hs & _ & Hw' & Hn & Hd' & _)|(Hs & _ & Hd' & [[Hw' Hn]|(_ & Hw' & Hn)])].
    + rewrite Heq by done. split_and!; [done|lia|lia|lia].
    + rewrite Hn, Z.eqb_refl, app_nil_r. split_and!; [done|lia|lia|congruence].
    + rewrite Heq by done. split_and!; [done|lia|lia|congruence].
Qed.

Lemma wal_run_spec os rs w :
  wal_inv rs w -> Forall wal_op_ok os -> Forall op_pages os -> w_next w + zlen os < 2 ^ 64 -> w_durable w < w_next w ->
  exists rs' w', wal_run os w = Some (rs', w') /\ wal_inv (rs ++ rs') w'.
Proof.
  intros Hw Hos. revert rs w Hw. induction Hos as [|o os Ho _ IH]; intros rs w Hw HQ Hb Hd.
  { exists [], w. by rewrite app_nil_r. }
  rewrite zlen_cons in Hb. pose proof (zlen_nonneg os). apply Forall_cons in HQ as [HQo HQ].
  destruct (wal_step_spec rs o w Hw Ho HQo) as (s & w1 & E & Hw1 & Hd1 & Hn1 & _); [lia..|].
  destruct (IH _ w1 Hw1 HQ) as (rs' & w' & E' & Hw'); [lia..|].
  cbn [wal_run]. rewrite E. cbn [mbind option_bind]. rewrite E'. cbn [mbind option_bind].
  exists (appended o w w1 ++ rs'), w'. split; [done|]. by rewrite app_assoc.
Qed.

Lemma Scan_kept kept tail w :
  w_open w = true -> lg_disk (w_file w) = log_bytes kept ++ tail -> log_ok kept ->
  (torn tail \/ tail = []) ->
  Scan RdAll w = Some (StatusOk, last_lsn_of 0 kept, negb (bool_decide (tail = []))).
Proof.
  intros Ho E Hok Ht. unfold Scan. rewrite Ho, E. cbn [negb ifstream].
  pose proof (log_length kept (proj1 Hok)) as Hlen.
  rewrite Scan_loop_log; [|done| | |rewrite length_app; lia].
  - destruct Ht as [Ht| ->].
    + by rewrite Scan_loop_torn by (done || rewrite length_app; lia).
    + rewrite app_nil_r. by replace (S (length (log_bytes kept)) - length kept)%nat
        with (S (length (log_bytes kept) - length kept)) by lia.
  - unfold above. eapply Forall_impl; [apply Hok|]. intros r (Hl & _). lia.
  - destruct Ht as [?| ->]; [by apply bytes_torn|constructor].
Qed.

(** Opening a log that ends with a whole record. *)
Lemma Open_log path e rs :
  path <> ""%string -> wp_append e = true -> wp_read e = RdAll ->
  default [] (wp_file e) = log_bytes rs -> log_ok rs -> Forall (fun r => Q (im_page r)) rs ->
  last_lsn_of 0 rs < UINT64_MAX ->
  exists w, Open path e = Some (StatusOk, Some w, Some (log_bytes rs)) /\ wal_inv rs w /\
    w_next w = last_lsn_of 0 rs + 1 /\ w_durable w < w_next w.
Proof.
  intros Hpath Ha Hr Hf Hok HQ Hlast. unfold Open. rewrite bool_decide_eq_false_2 by done.
  rewrite Ha, Hr, Hf. unfold Open_scanned. pose proof (log_ok_last rs Hok).
  rewrite (Scan_kept rs []) by (done || by rewrite app_nil_r || by right).
  cbn. eexists. unfold UINT64_MAX in *. rewrite wrap_small by lia.
  split_and!; [done| |done|simpl; lia]. constructor; [done|split; [done|simpl; lia]| |].
  - exists []. rewrite app_nil_r. simpl. split_and!; [lia|done..|]. split; simpl; [done|].
    intros _. by rewrite app_nil_r.
  - exists rs. by split_and!.
Qed.

(** What the valid part of a crashed log has. *)
Lemma wal_inv_crash rs w :
  wal_inv rs w ->
  exists kept tail extra, lg_disk (w_file w) = log_bytes kept ++ tail /\
    (torn tail \/ tail = []) /\ log_ok kept /\
    Forall (fun r => Q (im_page r)) kept /\
    kept `prefix_of` rs ++ extra /\ ((length extra <= 1)%nat /\ log_ok (rs ++ extra) /\ (lg_good (w_file w) = true -> extra = [])) /\
    (forall r, r ∈ rs -> im_lsn r <= w_durable w -> r ∈ kept).
Proof.
  intros [_ _ (extra & Hlen & Hok & HQ & Hg & [Hp _]) (ds & Hds & Hl & Hd)].
  destruct (crash_prefix (rs ++ extra) _ (proj1 Hok) Hp) as (kept & tail & E & Hk & Ht).
  exists kept, tail, extra. split; [done|]. split; [done|].
  split; [by eapply prefix_sorted|]. split; [|split; [done|split; [done|]]].
  { destruct Hk as [l Hk]. rewrite Hk in HQ. by apply Forall_app in HQ as [? _]. }
  intros r Hr Hle. specialize (Hd r Hr Hle). rewrite E in Hl.
  assert (ds `prefix_of` kept) as [l ->].
  { eapply durable_prefix; [exact (proj1 Hok)|done|by apply prefix_app_r|done|done]. }
  apply elem_of_app. by left.
Qed.

End Invariant.

(** ** A sample log *)

Definition page_of (b : Z) : list Z := replicate (Z.to_nat kPageSize) b.
Definition image1 : image := MkImage 1 0 (page_of 7).
Definition image2 : image := MkImage 2 1 (page_of 9).

Lemma page_of_ok b : byte_ok b -> buf_ok kPageSize (page_of b).
Proof. intros. split; [by apply zlen_replicate|by apply bytes_ok_replicate]. Qed.

Lemma image1_ok : image_ok image1.
Proof. split_and!; try (by apply page_of_ok); simpl; unfold kInvalidId; lia. Qed.
Lemma image2_ok : image_ok image2.
Proof. split_and!; try (by apply page_of_ok); simpl; unfold kInvalidId; lia. Qed.

Lemma demo_log_ok : log_ok [image1; image2].
Proof.
  split; [by apply Forall_cons_2, Forall_cons_2, Forall_nil_2; [apply image1_ok|apply image2_ok]|].
  apply SSorted_cons; [apply SSorted_cons; [apply SSorted_nil|apply Forall_nil_2]|].
  apply Forall_cons_2; [unfold lsn_lt; simpl; lia|apply Forall_nil_2].
Qed.

Lemma demo_torn : torn (take 40 (record_of image1)).
Proof.
  exists image1, (drop 40 (record_of image1)). split_and!; [apply image1_ok|by rewrite take_drop|].
  intros E. apply (f_equal length) in E. rewrite length_drop in E.
  pose proof (zlen_record image1 image1_ok). unfold zlen, kRecordSize, kHeaderSize, kPageImagePayload, kPageSize in *.
  simpl length in E. lia.
Qed.

(** A good stream over the file [d]. *)
Definition on_disk (d : list Z) : wal := MkWal (MkLog d [] true []) "nexus.wal" true 1 0.

(** C10: Durability across a crash.  The log opened is missing or consists of
    whole valid records, it can be opened, and the scan at opening reads it to
    its end; a log with a torn tail is not covered, since records appended after
    one are lost to a scan ([append_after_torn_tail_corrupts]), and a database
    empties its log before it appends.  Run any appends, flushes and barriers on
    it, any of which may fail and may leave any part of its bytes in the file.  If the process dies
    there, the file holds whole valid records [kept] and a torn tail; [kept] has
    every record whose LSN was reported durable, in order, and nothing but
    what was appended, one failed append at most aside; a scan of the file
    accepts it and finds the last of [kept]; and a flush that reports success
    has put every appended record in the file. *)
Theorem wal_crash_safe path e rs0 os :
  path <> ""%string -> wp_append e = true -> wp_read e = RdAll ->
  default [] (wp_file e) = log_bytes rs0 -> log_ok rs0 ->
  last_lsn_of 0 rs0 + zlen os < UINT64_MAX -> Forall wal_op_ok os ->
  exists w0 rs w, Open path e = Some (StatusOk, Some w0, Some (log_bytes rs0)) /\
    wal_run os w0 = Some (rs, w) /\
    (exists kept tail extra, lg_disk (w_file w) = log_bytes kept ++ tail /\
       (torn tail \/ tail = []) /\ log_ok kept /\
       kept `prefix_of` (rs0 ++ rs) ++ extra /\ (length extra <= 1)%nat /\
       (forall r, r ∈ rs0 ++ rs -> im_lsn r <= durable_lsn w -> r ∈ kept) /\
       Scan RdAll w = Some (StatusOk, last_lsn_of 0 kept, negb (bool_decide (tail = [])))) /\
    (forall s w', Flush w = (s, w') -> ok s = true ->
       lg_disk (w_file w') = log_bytes (rs0 ++ rs) /\ durable_lsn w' = next_lsn w' - 1).
Proof.
  intros Hpath Ha Hr Hf Hok Hb Hos. pose proof (zlen_nonneg os).
  destruct (Open_log (fun _ => True) path e rs0 Hpath Ha Hr Hf Hok
    (Forall_true _ _ (fun _ => I)) ltac:(lia)) as (w0 & HO & Hw0 & Hn & Hd).
  destruct (wal_run_spec (fun _ => True) os rs0 w0 Hw0 Hos) as (rs & w & HR & Hw);
    [apply Forall_true; by intros []|unfold UINT64_MAX in Hb; lia|done|].
  exists w0, rs, w. split_and!; [done|done| |].
  - destruct (wal_inv_crash _ _ _ Hw) as (kept & tail & extra & E & Ht & Hk & _ & Hpre & [Hlen _] & Hdur).
    exists kept, tail, extra. split_and!; try done. apply Scan_kept; [apply Hw|done..].
  - intros s w' HF Hs. destruct (Flush_spec _ _ w Hw) as (s1 & w1 & HF1 & Hn1 & _ & _ & Hok1 & _).
    rewrite HF1 in HF. injection HF as <- <-. destruct (Hok1 Hs) as (-> & Hdur & _). unfold durable_lsn, next_lsn.
    split; [done|lia].
Qed.

(** The header and the first bytes of the page reach the file, then the disk is full. *)
Definition full_disk : wal_path := MkWalPath None true true true RdAll [AOk 0; AFail 40 []].

Definition demo_ops : list wal_op := [WFlush; WBefore (MkPage 0 true (page_of 7)); WFlush].

Lemma demo_ops_ok : Forall wal_op_ok demo_ops.
Proof.
  assert (wal_op_ok (WBefore (MkPage 0 true (page_of 7)))) as H.
  { destruct (page_of_ok 7) as [? ?]; [unfold byte_ok; lia|].
    split_and!; [done|done|simpl; lia|simpl; unfold kInvalidId; lia]. }
  apply Forall_cons_2; [done|]. apply Forall_cons_2; [exact H|]. by apply Forall_cons_2, Forall_nil_2.
Qed.

Lemma wal_crash_safe_witness :
  exists w0 rs w, Open "nexus.wal" full_disk = Some (StatusOk, Some w0, Some []) /\
    wal_run demo_ops w0 = Some (rs, w) /\
    exists kept tail extra, lg_disk (w_file w) = log_bytes kept ++ tail /\
      (torn tail \/ tail = []) /\ kept `prefix_of` rs ++ extra /\
      Scan RdAll w = Some (StatusOk, last_lsn_of 0 kept, negb (bool_decide (tail = []))).
Proof.
  destruct (wal_crash_safe "nexus.wal" full_disk [] demo_ops)
    as (w0 & rs & w & HO & HR & (kept & tail & extra & ? & ? & _ & ? & _ & _ & ?) & _).
  - discriminate.
  - reflexivity.
  - reflexivity.
  - reflexivity.
  - split; constructor.
  - vm_compute. reflexivity.
  - exact demo_ops_ok.
  - exists w0, rs, w. split; [exact HO|]. split; [exact HR|]. exists kept, tail, extra. auto.
Defined.

(** ** Recovery *)

(** Replaying the images over page contents [c]: the last image of a page wins. *)
Definition redo (rs : list image) (c : Z -> option (list Z)) : Z -> option (list Z) :=
  foldl (fun c r id => if id =? im_page r then Some (im_data r) else c id) c rs.

Lemma redo_cons r rs c :
  redo (r :: rs) c = redo rs (fun id => if id =? im_page r then Some (im_data r) else c id).
Proof. done. Qed.

Lemma redo_snoc rs r c id :
  redo (rs ++ [r]) c id = if id =? im_page r then Some (im_data r) else redo rs c id.
Proof. unfold redo. by rewrite foldl_snoc. Qed.

(** Pages with an image do not depend on the contents replayed over. *)
Lemma redo_agree rs c c' :
  (forall id, id ∉ (im_page <$> rs) -> c id = c' id) -> forall id, redo rs c id = redo rs c' id.
Proof.
  revert c c'. induction rs as [|r rs IH]; intros c c' H id; [apply H, not_elem_of_nil|].
  rewrite !redo_cons. apply IH. intros j Hj. case (Z.eqb_spec j (im_page r)); intros Hne; [done|].
  apply H. by rewrite fmap_cons, not_elem_of_cons.
Qed.

Lemma redo_other rs c id : id ∉ (im_page <$> rs) -> redo rs c id = c id.
Proof.
  revert c. induction rs as [|r rs IH]; intros c H; [done|].
  rewrite fmap_cons, not_elem_of_cons in H. destruct H as [Hne H]. rewrite redo_cons, IH by done.
  by rewrite (proj2 (Z.eqb_neq _ _)).
Qed.

Lemma PageExists_spec id st :
  st_ok st -> exists b st', PageExists id st = (b, st') /\ quiet st st' /\
    (b = (id <? npages st) \/ b = false /\ ~ healthy st).
Proof.
  intros Hok. unfold PageExists. counted Hok; [eauto 6|].
  rewrite (not_ok_code _ _ Hs) by done. simpl. eauto 8.
Qed.

(** The pages the log names are allocated. *)
Definition allocated (rs : list image) (st : storage) : Prop :=
  Forall (fun r => im_page r < npages st) rs.

(** One round of the loop replays its record or fails with the I/O. *)
Lemma Recover_step r rest from applied st fuel :
  image_ok r -> bytes_ok rest -> from < im_lsn r -> st_ok st -> im_page r < npages st ->
  exists st2, st_ok st2 /\ npages st2 = npages st /\ (healthy st -> healthy st2) /\
    (forall id, id <> im_page r -> contents st2 id = contents st id) /\
    (contents st2 (im_page r) = Some (im_data r) /\
       Recover_loop (S fuel) (record_of r ++ rest) from applied st =
       Recover_loop fuel rest (im_lsn r) (u64 (applied + 1)) st2 \/
     ~ healthy st /\ exists s, ok s = false /\
       Recover_loop (S fuel) (record_of r ++ rest) from applied st = Some (s, RecoveryStats0, st2)).
Proof.
  intros Hr Hrest Hab Hst Hal. cbn [Recover_loop]. rewrite ReadRecord_record by done.
  cbn [mbind option_bind rec_lsn rec_page_id rec_payload rec_payload_len].
  rewrite (proj2 (Z.leb_gt _ _)) by done.
  destruct (PageExists_spec (im_page r) st Hst) as (b & st1 & -> & Q & Hb).
  pose proof (quiet_ok _ _ Q Hst) as Hst1. pose proof Q as (_ & _ & Hq).
  assert (npages st1 = npages st) as Hn1 by (by apply npages_same_len; rewrite (proj1 Q)).
  rewrite (proj2 (Z.ltb_lt _ _)) in Hb by done.
  destruct Hb as [->|[-> Hh]]; cbn [negb].
  2: { exists st1. split_and!; [done..|intros; by apply quiet_contents|]. right. split; [done|]. eexists. split; [|reflexivity]. done. }
  pose proof Hr as (_ & Hid & Hd). pose proof Hd as [Hz Hbd].
  rewrite (sub_all (im_data r)) by done. unfold PageOf. cbn [page_data].
  rewrite put_in by (rewrite ?zero_data_len, ?Hz; unfold kPageSize; lia). cbn [mbind option_bind].
  rewrite (splice_all kPageSize) by (done || apply zero_data_len).
  unfold set_data. cbn [page_id page_dirty].
  set (p := MkPage (im_page r) false (im_data r)).
  assert (page_ok p) as Hp by (split_and!; simpl; [done|done|lia..]).
  destruct (WritePage_spec p st1 Hst1 Hp) as (s & st2 & -> & Hst2 & Hheal & Hn2 & Hoth & C). simpl page_id in *.
  exists st2. split_and!; [done|lia|tauto|intros; rewrite Hoth by done; by apply quiet_contents|].
  destruct C as [(-> & _ & Hc)|[([Hc|Hc] & Hle & _)|[Hc Hh]]]; [by left|lia|lia|].
  right. rewrite (not_ok_code _ _ Hc) by done. cbn [negb]. split; [tauto|]. exists s.
  by rewrite (not_ok_code _ _ Hc).
Qed.

Lemma redo_step r rs st st2 id :
  (forall id, id <> im_page r -> contents st2 id = contents st id) ->
  contents st2 (im_page r) = Some (im_data r) ->
  redo rs (contents st2) id = redo (r :: rs) (contents st) id.
Proof.
  intros Hoth Hc. rewrite redo_cons. apply redo_agree. intros j _.
  case (Z.eqb_spec j (im_page r)); intros Hj; [by subst|by apply Hoth].
Qed.

(** The loop over a log that starts with the records [rs]. *)
Lemma Recover_loop_log rs rest from applied st fuel :
  log_ok rs -> above from rs -> bytes_ok rest -> (length rs <= fuel)%nat ->
  st_ok st -> allocated rs st ->
  exists st', st_ok st' /\ npages st' = npages st /\ (healthy st -> healthy st') /\
    (forall id, id ∉ (im_page <$> rs) -> contents st' id = contents st id) /\
    ((forall id, contents st' id = redo rs (contents st) id) /\
     (exists applied', (0 <= applied -> applied + zlen rs < 2 ^ 64 -> applied' = applied + zlen rs) /\
       Recover_loop fuel (log_bytes rs ++ rest) from applied st =
       Recover_loop (fuel - length rs) rest (last_lsn_of from rs) applied' st') \/
     ~ healthy st /\ exists s, ok s = false /\
       Recover_loop fuel (log_bytes rs ++ rest) from applied st = Some (s, RecoveryStats0, st')).
Proof.
  intros Hok Hab Hrest. revert from applied st fuel Hab.
  induction rs as [|r rs IH]; intros from applied st fuel Hab Hf Hst Hal.
  { exists st. rewrite Nat.sub_0_r. split_and!; [done..|]. left. split; [done|]. exists applied.
    split; [|done]. change (zlen []) with 0. lia. }
  apply log_ok_cons in Hok as (Hr & Ha & Hok). inversion Hab; subst. inversion Hal; subst.
  destruct fuel as [|fuel]; [simpl in Hf; lia|]. simpl in Hf.
  rewrite log_bytes_cons, <- app_assoc.
  destruct (Recover_step r (log_bytes rs ++ rest) from applied st fuel Hr) as
    (st2 & Hst2 & Hn2 & Hh2 & Hoth & C); [apply Forall_app_2; [apply bytes_log, Hok|done]|done..|].
  destruct C as [[Hc ->]|(Hh & s & Hs & ->)].
  2: { exists st2. split_and!; [done..| |right; by eauto].
       intros id Hni. rewrite fmap_cons, not_elem_of_cons in Hni. apply Hoth. tauto. }
  destruct (IH Hok (im_lsn r) (u64 (applied + 1)) st2 fuel Ha) as
    (st' & Hst' & Hn' & Hh' & Hoth' & C); [lia|done|by unfold allocated; rewrite Hn2|].
  exists st'. split_and!; [done|lia|tauto| |].
  { intros id Hni. rewrite fmap_cons, not_elem_of_cons in Hni. rewrite Hoth' by tauto. apply Hoth. tauto. }
  destruct C as [(Hred & applied' & Hcnt & ->)|(Hh & s & Hs & ->)];
    [left|right; split; [tauto|by exists s]].
  split; [intros id; rewrite Hred; by apply redo_step|].
  exists applied'. rewrite last_lsn_cons. split; [|done]. intros H0 Hlt. rewrite zlen_cons in *.
  pose proof (zlen_nonneg rs). rewrite wrap_small in Hcnt by lia. rewrite Hcnt by lia. lia.
Qed.

(** Then the loop ends at a torn tail. *)
Lemma Recover_loop_torn rs tail st fuel :
  log_ok rs -> (torn tail \/ tail = []) -> (length rs < fuel)%nat -> zlen rs < 2 ^ 64 ->
  st_ok st -> allocated rs st ->
  exists s stats st', Recover_loop fuel (log_bytes rs ++ tail) 0 0 st = Some (s, stats, st') /\
    st_ok st' /\ npages st' = npages st /\
    (forall id, id ∉ (im_page <$> rs) -> contents st' id = contents st id) /\
    (healthy st -> s = StatusOk /\ healthy st') /\
    (ok s = true -> (forall id, contents st' id = redo rs (contents st) id) /\
       stats = MkStats (zlen rs) (last_lsn_of 0 rs) (negb (bool_decide (tail = [])))).
Proof.
  intros Hok Ht Hf Hlen Hst Hal.
  assert (bytes_ok tail) as Hbt by (destruct Ht as [?| ->]; [by apply bytes_torn|constructor]).
  assert (above 0 rs) as Hab by (eapply Forall_impl; [apply Hok|]; intros r (Hl & _); lia).
  destruct (Recover_loop_log rs tail 0 0 st fuel Hok Hab Hbt) as (st' & Hst' & Hn & Hhe & Hoth & C);
    [lia|done..|].
  destruct C as [(Hred & applied' & Hcnt & ->)|(Hh & s & Hs & ->)].
  2: { eexists _, _, _. split_and!; [done..|congruence]. }
  rewrite Hcnt by lia. destruct (fuel - length rs)%nat eqn:Ef; [lia|]. cbn [Recover_loop].
  assert (ReadRecord tail = Some (kEnd (negb (bool_decide (tail = []))))) as ->.
  { destruct Ht as [?| ->]; [by apply ReadRecord_torn|done]. }
  cbn [mbind option_bind]. eexists _, _, _. split_and!; try done. by split; [|apply Hhe].
Qed.

Lemma log_ok_length rs : log_ok rs -> zlen rs <= last_lsn_of 0 rs.
Proof.
  induction rs as [|r rs IH] using rev_ind; [done|]. intros Hok. rewrite last_lsn_snoc, zlen_app, zlen_single.
  assert (log_ok rs) as Hrs by (by eapply prefix_sorted; [exists [r]|]).
  specialize (IH Hrs). enough (last_lsn_of 0 rs < im_lsn r) by lia.
  unfold last_lsn_of. destruct (last rs) as [q|] eqn:E; simpl.
  - apply last_Some_elem_of in E. destruct Hok as [_ Hs].
    apply (StronglySorted_app_1_elem_of lsn_lt rs [r] q r Hs E), list_elem_of_singleton. done.
  - destruct Hok as [Hf _]. apply Forall_app in Hf as [_ Hf]. apply Forall_cons in Hf as [[? _] _]. lia.
Qed.

(** Recovery over a log of whole records and a torn tail. *)
Lemma Recover_log w rs tail st :
  w_open w = true -> lg_disk (w_file w) = log_bytes rs ++ tail -> log_ok rs ->
  (torn tail \/ tail = []) -> st_ok st -> allocated rs st ->
  exists s stats st', Recover RdAll w (Some st) = Some (s, stats, Some st') /\
    st_ok st' /\ npages st' = npages st /\
    (forall id, id ∉ (im_page <$> rs) -> contents st' id = contents st id) /\
    (healthy st -> s = StatusOk /\ healthy st') /\
    (ok s = true -> (forall id, contents st' id = redo rs (contents st) id) /\
       stats = MkStats (zlen rs) (last_lsn_of 0 rs) (negb (bool_decide (tail = [])))).
Proof.
  intros Ho E Hok Ht Hst Hal. unfold Recover. rewrite Ho, E. cbn [negb ifstream].
  assert (length rs < S (length (log_bytes rs ++ tail)))%nat as Hfuel.
  { pose proof (log_length rs (proj1 Hok)). rewrite length_app. lia. }
  assert (zlen rs < 2 ^ 64) as Hlen.
  { pose proof (log_ok_length rs Hok). unfold last_lsn_of in *. destruct (last rs) as [r|] eqn:El; simpl in *; [|lia].
    apply last_Some_elem_of in El. destruct Hok as [Hf _]. rewrite Forall_forall in Hf. destruct (Hf r El). lia. }
  destruct (Recover_loop_torn rs tail st _ Hok Ht Hfuel Hlen Hst Hal) as (s & stats & st1 & -> & H).
  by exists s, stats, st1.
Qed.

Lemma recover_run w rs tail st :
  w_open w = true -> lg_disk (w_file w) = log_bytes rs ++ tail -> log_ok rs ->
  (torn tail \/ tail = []) -> st_ok st -> allocated rs st -> healthy st ->
  exists stats st', Recover RdAll w (Some st) = Some (StatusOk, stats, Some st') /\
    forall id, contents st' id = redo rs (contents st) id.
Proof.
  intros Ho E Hok Ht Hst Hal Hh.
  destruct (Recover_log w rs tail st Ho E Hok Ht Hst Hal) as (s & stats & st1 & HR & _ & _ & _ & Hheal & Hres).
  rewrite (proj1 (Hheal Hh)) in *. exists stats, st1. split; [done|]. by apply Hres.
Qed.

(** The storage as the next process finds it: the same file, I/O that works. *)
Definition restarted (st st' : storage) : Prop :=
  st_bytes st' = st_bytes st /\ st_open st' = true /\ healthy st'.

(** C31: Recovery is redo, and may be interrupted.  Over a log of whole records
    and a torn tail whose pages are allocated, a successful [Recover] leaves
    every page with its last image in the log, pages the log does not name with
    what they had, and reports the records replayed, the last LSN and the torn
    tail; it succeeds when the storage's I/O does.  A recovery that fails at any
    point, or dies there, is repaired by the next: recovering again gives the
    same contents as one undisturbed recovery of the original storage. *)
Theorem recover_is_redo w rs tail st :
  w_open w = true -> lg_disk (w_file w) = log_bytes rs ++ tail -> log_ok rs ->
  (torn tail \/ tail = []) -> st_ok st -> allocated rs st ->
  exists s stats st1, Recover RdAll w (Some st) = Some (s, stats, Some st1) /\
    (healthy st -> s = StatusOk) /\
    (ok s = true -> (forall id, contents st1 id = redo rs (contents st) id) /\
       stats = MkStats (zlen rs) (last_lsn_of 0 rs) (negb (bool_decide (tail = [])))) /\
    (forall st1', restarted st1 st1' ->
       exists stats' st2, Recover RdAll w (Some st1') = Some (StatusOk, stats', Some st2) /\
         forall id, contents st2 id = redo rs (contents st) id).
Proof.
  intros Ho E Hok Ht Hst Hal.
  destruct (Recover_log w rs tail st Ho E Hok Ht Hst Hal) as (s & stats & st1 & HR & Hst1 & Hn & Hoth & Hheal & Hres).
  exists s, stats, st1. split; [done|]. split; [by apply Hheal|]. split; [done|]. intros st1' (Hb & Ho' & Hh).
  assert (npages st1' = npages st1) as Hn' by (apply npages_same_len; by rewrite Hb).
  destruct (recover_run w rs tail st1') as (stats' & st2 & HR' & Hc); try done.
  { unfold st_ok. rewrite Hn', Hb. destruct Hst1. tauto. }
  { unfold allocated in *. by rewrite Hn', Hn. }
  exists stats', st2. split; [done|]. intros id. rewrite Hc. apply redo_agree. intros j Hj.
  rewrite <- (Hoth j Hj). unfold contents. by rewrite Hn', Hb.
Qed.

Lemma recover_is_redo_witness :
  exists s stats st1,
    Recover RdAll (on_disk (log_bytes [image1; image2] ++ take 40 (record_of image1)))
      (Some (two_pages [IoOk; IoOk; IoOk; IoFail 100])) = Some (s, stats, Some st1) /\
    (forall st1', restarted st1 st1' -> exists stats' st2,
       Recover RdAll (on_disk (log_bytes [image1; image2] ++ take 40 (record_of image1))) (Some st1') =
         Some (StatusOk, stats', Some st2) /\
       contents st2 0 = Some (page_of 7) /\ contents st2 1 = Some (page_of 9)).
Proof.
  destruct (recover_is_redo (on_disk (log_bytes [image1; image2] ++ take 40 (record_of image1)))
    [image1; image2] (take 40 (record_of image1)) (two_pages [IoOk; IoOk; IoOk; IoFail 100]))
    as (s & stats & st1 & E & _ & _ & H).
  - reflexivity.
  - reflexivity.
  - exact demo_log_ok.
  - left. exact demo_torn.
  - apply two_pages_ok.
  - constructor; [reflexivity|]. constructor; [reflexivity|]. constructor.
  - exists s, stats, st1. split; [exact E|]. intros st1' Hr. destruct (H st1' Hr) as (stats' & st2 & E2 & Hc).
    exists stats', st2. split; [exact E2|]. split; exact (Hc _).
Defined.

(** ** Every file is read to an answer *)

Lemma sub_length inp off n :
  0 <= off -> 0 <= n -> off + n <= zlen inp -> zlen (sub inp off n) = n.
Proof. apply zlen_sub. Qed.

Lemma Recover_loop_total inp from applied st fuel :
  bytes_ok inp -> (length inp < fuel)%nat -> is_Some (Recover_loop fuel inp from applied st).
Proof.
  revert inp from applied st. induction fuel as [|fuel IH]; intros inp from applied st Hb Hf; [lia|].
  cbn [Recover_loop]. pose proof (ReadRecord_cases inp Hb) as H.
  destruct (ReadRecord inp) as [[rec rest|t|err]|]; cbn [mbind option_bind]; [|by eexists..|done].
  destruct (_ <=? _); [by eexists|]. destruct H as (Hl & _ & (-> & _) & ->).
  destruct (PageExists _ st) as [[] st1]; cbn [negb]; [|by eexists].
  unfold PageOf. cbn [page_data rec_payload rec_payload_len].
  assert (zlen (sub inp kHeaderSize kPageSize) = kPageSize) as Hz.
  { apply sub_length; unfold kRecordSize, kHeaderSize, kPageImagePayload, kPageSize in *; lia. }
  rewrite (sub_all (sub inp _ _)) by done.
  rewrite put_in by (rewrite ?zero_data_len, ?Hz; unfold kPageSize; lia). cbn [mbind option_bind].
  destruct (WritePage _ st1) as [s st2]. destruct (negb (ok s)); [by eexists|].
  apply IH; [by apply Forall_drop|]. rewrite length_drop.
  unfold zlen, kRecordSize, kHeaderSize, kPageImagePayload, kPageSize in *. lia.
Qed.

Lemma ifstream_bytes r disk inp : bytes_ok disk -> ifstream r disk = Some inp -> bytes_ok inp.
Proof. destruct r; simpl; intros Hb [= <-]; [done|by apply Forall_take]. Qed.

(** C33: Scanning and recovery end on every file.  Whatever bytes the log has,
    and wherever reading them stops, [Scan] and [Recover] return, [Scan] with
    success, corruption or an I/O error; their loops consume the file and no
    read leaves its buffer. *)
Theorem wal_reads_terminate r w st :
  bytes_ok (lg_disk (w_file w)) ->
  (exists s lsn tail, Scan r w = Some (s, lsn, tail) /\
     (ok s = true \/ code s = kBadState \/ code s = kIoError)) /\
  is_Some (Recover r w (Some st)).
Proof.
  intros Hb. unfold Scan, Recover. destruct (w_open w); cbn [negb]; [|split; [by eauto 8|by eexists]].
  destruct (ifstream r _) as [inp|] eqn:E; [|split; [by eauto 8|by eexists]].
  pose proof (ifstream_bytes _ _ _ Hb E) as Hi. split.
  - destruct (Scan_loop_total inp 0 (S (length inp)) Hi) as (s & lsn & tail & -> & H); [lia|].
    exists s, lsn, tail. tauto.
  - destruct (Recover_loop_total inp 0 0 st (S (length inp)) Hi) as [[[s stats] st'] ->]; [lia|].
    by eexists.
Qed.

(** C32: A changed byte is never replayed.  Change any one byte of any complete
    record, in its header, its checksum or its payload: the scan stops there
    with [kBadState], whatever follows, so that [Open] refuses the log; and
    [Recover] fails too, having replayed the records before it and nothing
    else. *)
Theorem wal_detects_corruption w rs r i x b rest st :
  w_open w = true -> log_ok rs -> image_ok r -> bytes_ok rest ->
  record_of r !! i = Some x -> byte_ok b -> b <> x ->
  lg_disk (w_file w) = log_bytes rs ++ <[i := b]> (record_of r) ++ rest ->
  st_ok st -> allocated rs st -> healthy st ->
  exists msg stats st', Scan RdAll w = Some (BadState msg, 0, false) /\
    Recover RdAll w (Some st) = Some (BadState msg, stats, Some st') /\
    forall id, contents st' id = redo rs (contents st) id.
Proof.
  intros Ho Hok Hr Hrest Hi Hb Hne E Hst Hal Hh.
  destruct (ReadRecord_flip r i x b rest) as [err Herr]; [done..|].
  set (bad := <[i := b]> (record_of r) ++ rest) in *.
  assert (bytes_ok bad) as Hbad.
  { apply Forall_app_2; [|done]. apply Forall_insert; [by apply bytes_record|done]. }
  assert (above 0 rs) as Hab by (eapply Forall_impl; [apply Hok|]; intros q (Hl & _); lia).
  pose proof (log_length rs (proj1 Hok)) as Hlen. unfold Scan, Recover. rewrite Ho, E. cbn [negb ifstream].
  assert (exists n, S (length (log_bytes rs ++ bad)) = (length rs + S n)%nat) as [n Hn].
  { exists (length (log_bytes rs ++ bad) - length rs)%nat. rewrite length_app in *. lia. }
  rewrite Hn, Scan_loop_log by (done || lia).
  replace (length rs + S n - length rs)%nat with (S n) by lia. cbn [Scan_loop]. rewrite Herr.
  cbn [mbind option_bind]. exists err.
  destruct (Recover_loop_log rs bad 0 0 st (length rs + S n) Hok Hab Hbad) as
    (st' & _ & _ & _ & _ & [(Hred & applied' & _ & ->)|(Hh' & _)]); [lia|done|done| |done].
  replace (length rs + S n - length rs)%nat with (S n) by lia. cbn [Recover_loop]. rewrite Herr.
  cbn [mbind option_bind]. by exists RecoveryStats0, st'.
Qed.

Lemma wal_reads_terminate_witness :
  is_Some (Recover (RdStop 5000) (on_disk (log_bytes [image1; image2])) (Some (two_pages []))).
Proof.
  apply (wal_reads_terminate (RdStop 5000) (on_disk (log_bytes [image1; image2])) (two_pages [])).
  apply bytes_log. apply (proj1 demo_log_ok).
Defined.

Lemma wal_detects_corruption_witness :
  exists msg stats st',
    Scan RdAll (on_disk (log_bytes [image1] ++ <[100%nat := 8]> (record_of image2) ++ [])) =
      Some (BadState msg, 0, false) /\
    Recover RdAll (on_disk (log_bytes [image1] ++ <[100%nat := 8]> (record_of image2) ++ []))
      (Some (two_pages [])) = Some (BadState msg, stats, Some st') /\
    contents st' 0 = Some (page_of 7).
Proof.
  destruct (wal_detects_corruption
    (on_disk (log_bytes [image1] ++ <[100%nat := 8]> (record_of image2) ++ [])) [image1] image2 100 9 8 []
    (two_pages [])) as (msg & stats & st' & ? & ? & Hc).
  - reflexivity.
  - apply (prefix_sorted [image1] [image1; image2]); [exists [image2]; reflexivity|exact demo_log_ok].
  - exact image2_ok.
  - constructor.
  - reflexivity.
  - unfold byte_ok. lia.
  - lia.
  - reflexivity.
  - apply two_pages_ok.
  - constructor; [reflexivity|constructor].
  - reflexivity.
  - exists msg, stats, st'. split; [assumption|]. split; [assumption|]. exact (Hc 0).
Defined.

(** ** Observations *)

(** A log with a torn tail is opened for append, but what is appended after the
    tail makes it unreadable: the records do not start where a reader looks. *)
Definition reopened_after_torn : option wal :=
  '(_, w, _) ← Open "nexus.wal" (MkWalPath (Some (take 40 (record_of image1))) true true true RdAll []);
  w ← w;
  '(s, w) ← BeforePageWrite (MkPage 1 true (page_of 9)) w;
  if ok s then Some w else None.

Lemma append_after_torn_tail_corrupts : exists w msg,
  reopened_after_torn = Some w /\ durable_lsn w = 1 /\
  Scan RdAll w = Some (BadState msg, 0, false).
Proof.
  assert (exists w, reopened_after_torn = Some w /\ durable_lsn w = 1 /\
    Scan RdAll w = Some (BadState "wal: record checksum mismatch", 0, false)) as (w & H).
  { destruct reopened_after_torn as [w|] eqn:E; [|by vm_compute in E].
    exists w. split; [done|]. revert E. unfold reopened_after_torn. 
    intros E. assert (Some w = reopened_after_torn) as E2 by done. clear E.
    replace w with (default (on_disk []) reopened_after_torn) by (by rewrite <- E2). clear E2.
    by split; vm_compute. }
  by exists w, "wal: record checksum mismatch"%string.
Qed.

(** When the first attempt to open an existing log fails, [Open] truncates it. *)
Lemma open_fallback_erases bytes fut :
  Open "nexus.wal" (MkWalPath (Some bytes) false true true RdAll fut) =
  Some (StatusOk, Some (MkWal (MkLog [] [] true fut) "nexus.wal" true 1 0), Some []).
Proof. done. Qed.

(** A read error in the middle of the log passes for its end. *)
Lemma read_error_is_end :
  Scan (RdStop 40) (on_disk (log_bytes [image1; image2])) = Some (StatusOk, 0, true).
Proof. by vm_compute. Qed.

(** An I/O error while the page count is read is reported as corruption. *)
Lemma recover_io_error_is_bad_state :
  exists st', Recover RdAll (on_disk (log_bytes [image1])) (Some (two_pages [IoFail 0])) =
    Some (BadState "wal: record names an unallocated page", RecoveryStats0, Some st').
Proof. eexists. vm_compute. reflexivity. Qed.
