(* ===== verification/Recovery.v ===== *)
(** * Crash recovery of the engine

    The buffer pool, the write-ahead log and the page storage together:
    [logged_env] is the environment of a pool whose log sink is a [Wal].  The
    theorem of this file follows a client session to a crash at any moment and
    through the recovery that the next process runs. *)

From stdpp Require Import sorting sets.
From S2P Require Import Prelude Bytes Common PageStorage BufferPool BufferPoolSpec Wal WalSpec.

(** ** The storage behind a log *)

Record logged := MkLogged { lg_wal : wal; lg_storage : storage }.

(** [BufferPool::FlushFrame] calls [Wal::BeforePageWrite] through the sink; its
    reads stay inside a page buffer, so that the [None] case never runs. *)
#[export] Instance logged_env : PageEnv logged := {
  env_read id e :=
    let '(s, out, st) := ReadPage id (Some PageDefault) (lg_storage e) in
    (s, out, MkLogged (lg_wal e) st);
  env_write p e :=
    let '(s, st) := WritePage p (lg_storage e) in (s, MkLogged (lg_wal e) st);
  env_log p e :=
    match BeforePageWrite p (lg_wal e) with
    | Some (s, w) => (s, MkLogged w (lg_storage e))
    | None => (BadState "", e)
    end }.

#[export, refine] Instance logged_env_laws : PageEnvLaws logged :=
  {| env_inv e := st_sound (lg_storage e); disk e := contents (lg_storage e) |}.
Proof.
  - intros [w st] id s out e' Hok Hid Hr. unfold env_read, env_write, env_log, logged_env in Hr. cbn [lg_storage lg_wal] in *.
    destruct (ReadPage id (Some PageDefault) st) as [[s1 o1] st1] eqn:E. injection Hr as <- <- <-.
    exact (env_read_law st id s1 o1 st1 Hok Hid E).
  - intros [w st] p s e' Hok Hp Hr. unfold env_read, env_write, env_log, logged_env in Hr. cbn [lg_storage lg_wal] in *.
    destruct (WritePage p st) as [s1 st1] eqn:E. injection Hr as <- <-.
    exact (env_write_law st p s1 st1 Hok Hp E).
  - intros [w st] p s e' Hok Hp Hr. unfold env_read, env_write, env_log, logged_env in Hr. cbn [lg_storage lg_wal] in *.
    destruct (BeforePageWrite p w) as [[s1 w1]|]; by simplify_eq.
Defined.

(** ** What holds at every moment of a session *)

(** The pages whose barrier succeeded, in order; the trace has the latest first. *)
Fixpoint barriers (tr : list event) : list (Z * list Z) :=
  match tr with
  | [] => []
  | EvLog p true :: tr => barriers tr ++ [(page_id p, page_data p)]
  | _ :: tr => barriers tr
  end.

Fixpoint log_calls (tr : list event) : Z :=
  match tr with
  | [] => 0
  | EvLog _ _ :: tr => 1 + log_calls tr
  | _ :: tr => log_calls tr
  end.

(** The pages whose barrier failed. *)
Fixpoint failed (tr : list event) : list Z :=
  match tr with
  | [] => []
  | EvLog p false :: tr => page_id p :: failed tr
  | _ :: tr => failed tr
  end.

Lemma log_calls_nonneg tr : 0 <= log_calls tr.
Proof. induction tr as [|[] tr IH]; simpl; lia. Qed.

Definition page_image (r : image) : Z * list Z := (im_page r, im_data r).

(** Replaying the pages of the barriers. *)
Definition redo_pages (bs : list (Z * list Z)) (c : Z -> option (list Z)) : Z -> option (list Z) :=
  foldl (fun c b id => if id =? b.1 then Some b.2 else c id) c bs.

Lemma redo_pages_snoc bs b c id :
  redo_pages (bs ++ [b]) c id = if id =? b.1 then Some b.2 else redo_pages bs c id.
Proof. unfold redo_pages. by rewrite foldl_snoc. Qed.

Lemma redo_images rs c : redo rs c = redo_pages (page_image <$> rs) c.
Proof. unfold redo_pages, redo. by rewrite foldl_fmap. Qed.

(** The calls of a traced session. *)
Lemma traced_read id tr w st :
  env_read id (MkTraced tr (MkLogged w st)) =
  let '(s, out, st1) := ReadPage id (Some PageDefault) st in
  (s, out, MkTraced (EvRead id :: tr) (MkLogged w st1)).
Proof.
  unfold env_read, traced_env, env_read, logged_env. cbn [tr_env tr_events lg_storage lg_wal].
  by destruct (ReadPage id (Some PageDefault) st) as [[]].
Qed.

Lemma traced_write p tr w st :
  env_write p (MkTraced tr (MkLogged w st)) =
  let '(s, st1) := WritePage p st in (s, MkTraced (EvWrite p :: tr) (MkLogged w st1)).
Proof.
  unfold env_write, traced_env, env_write, logged_env. cbn [tr_env tr_events lg_storage lg_wal].
  by destruct (WritePage p st).
Qed.

Lemma traced_log p tr w st :
  env_log p (MkTraced tr (MkLogged w st)) =
  match BeforePageWrite p w with
  | Some (s, w1) => (s, MkTraced (EvLog p (ok s) :: tr) (MkLogged w1 st))
  | None => (BadState "", MkTraced (EvLog p false :: tr) (MkLogged w st))
  end.
Proof.
  unfold env_log, traced_env, env_log, logged_env. cbn [tr_env tr_events lg_storage lg_wal].
  by destruct (BeforePageWrite p w) as [[]|].
Qed.

Section Session.
Context (st0 : storage).

(** The page ids of the database. *)
Definition in_db (id : Z) : Prop := id < npages st0.

(** The log has the images of all successful barriers; a page of the storage
    differs from its initial contents only when the log covers it durably. *)
Record log_inv (t : traced logged) (rs : list image) : Prop := {
  li_wal : wal_inv in_db rs (lg_wal (tr_env t));
  li_next : w_durable (lg_wal (tr_env t)) < w_next (lg_wal (tr_env t)) <= 1 + log_calls (tr_events t);
  li_images : exists k, page_image <$> rs = barriers (tr_events t) ++ k /\
    (lg_good (w_file (lg_wal (tr_env t))) = true -> k = []);
  li_failed : failed (tr_events t) = [] <-> lg_good (w_file (lg_wal (tr_env t))) = true;
  li_durable : Forall (fun r => im_lsn r <= w_durable (lg_wal (tr_env t)))
    (take (length (barriers (tr_events t))) rs) }.

Record session_inv (t : traced logged) : Prop := {
  si_storage : st_ok (lg_storage (tr_env t));
  si_pages : npages (lg_storage (tr_env t)) = npages st0;
  si_log : exists rs, log_inv t rs;
  si_covered : forall id, contents (lg_storage (tr_env t)) id <> contents st0 id ->
    id ∈ (fst <$> barriers (tr_events t)) }.

(** The invariant, as long as the 64-bit LSNs last. *)
Definition session_ok (t : traced logged) : Prop :=
  log_calls (tr_events t) < 2 ^ 64 - 2 -> session_inv t.

(** The pages the pool may hold. *)
Definition page_in_db (id : Z) (d : list Z) : Prop := 0 <= id < npages st0 /\ buf_ok kPageSize d.

Lemma session_read id t s out t' :
  st_ok st0 -> session_ok t -> 0 <= id -> env_read id t = (s, out, t') ->
  session_ok t' /\ (st_ok (lg_storage (tr_env t)) -> npages (lg_storage (tr_env t)) = npages st0 ->
    ok s = true -> let p := default PageDefault out in page_in_db (page_id p) (page_data p)).
Proof.
  intros H0 Ht Hid Hr. destruct t as [tr [w st]]. rewrite traced_read in Hr.
  destruct (ReadPage id (Some PageDefault) st) as [[s1 o1] st1] eqn:E. injection Hr as <- <- <-. split.
  - intros Hb. destruct (Ht Hb) as [Hst Hn Hlog Hcov]. cbn [tr_env tr_events lg_wal lg_storage] in *.
    destruct (ReadPage_spec id PageDefault st Hst Hid) as (s2 & o2 & st2 & E2 & Q & _).
    rewrite E in E2. injection E2 as <- <- <-. split; cbn [tr_env tr_events lg_wal lg_storage barriers log_calls failed].
    + by eapply quiet_ok.
    + rewrite <- Hn. apply npages_same_len. by rewrite (proj1 Q).
    + destruct Hlog as [rs [? ? ? ? ?]]. exists rs. by split.
    + intros j. rewrite (quiet_contents _ _ j Q). apply Hcov.
  - cbn [tr_env lg_storage]. intros Hst Hn Hs. destruct (@env_read_law storage _ storage_env_laws st id s1 o1 st1 (st_ok_sound _ Hst) Hid E) as (_ & _ & H).
    destruct (H Hs) as (d & -> & Hd & Hbuf). simpl. split; [|done]. simpl in Hd.
    unfold contents in Hd. destruct (_ && _) eqn:C; [|done]. zb. lia.
Qed.

(** Extending the list the barriers are read from does not change its beginning. *)
Lemma take_barriers (rs : list image) bs k x :
  page_image <$> rs = bs ++ k -> take (length bs) (rs ++ x) = take (length bs) rs.
Proof.
  intros H. apply take_app_le. apply (f_equal length) in H. rewrite length_fmap, length_app in H. lia.
Qed.

Lemma wal_inv_all_below Q rs w : wal_inv Q rs w -> Forall (fun r => im_lsn r < w_next w) rs.
Proof.
  intros Hw. pose proof (wal_inv_log_ok _ _ _ Hw) as Hok. destruct Hw as [_ [-> _] _ _].
  apply Forall_forall. intros r Hr. pose proof (log_ok_le rs r Hok Hr). lia.
Qed.

Lemma page_in_db_ok p :
  st_ok st0 -> page_in_db (page_id p) (page_data p) ->
  page_ok p /\ page_id p <> kInvalidId /\ in_db (page_id p).
Proof.
  intros (_ & _ & _ & Hmax) [Hid [Hz Hb]]. unfold in_db. split_and!; [split_and!; [done..|lia|lia]|lia|lia].
Qed.

(** A barrier keeps the log's invariant, and succeeds only on a log that never
    failed. *)
Lemma barrier_step p t rs s t1 :
  st_ok st0 -> page_in_db (page_id p) (page_data p) -> log_inv t rs ->
  log_calls (tr_events t) < 2 ^ 64 - 2 -> env_log p t = (s, t1) ->
  tr_events t1 = EvLog p (ok s) :: tr_events t /\ lg_storage (tr_env t1) = lg_storage (tr_env t) /\
  (exists rs', log_inv t1 rs') /\ (ok s = true -> failed (tr_events t) = []).
Proof.
  intros H0 Hpg [Hw Hx (k & Hk & Hg) Hf Hdur] Hb Hl. destruct t as [tr [w st]]. rewrite traced_log in Hl.
  cbn [tr_env tr_events lg_wal lg_storage] in *. pose proof (log_calls_nonneg tr) as Hc0.
  destruct (page_in_db_ok p H0 Hpg) as (Hp & Hi & HQ).
  destruct (BeforePageWrite_spec in_db rs w p Hw Hp Hi HQ) as (s2 & w2 & E2 & C); [lia|lia|].
  rewrite E2 in Hl. injection Hl as <- <-. cbn [tr_env tr_events lg_wal lg_storage].
  set (r := MkImage (w_next w) (page_id p) (page_data p)) in *.
  pose proof (wal_inv_all_below _ _ _ Hw) as Hbelow.
  destruct C as [(Hs & Hgood & Hw1 & Hn1 & Hd1 & Hlive)|(Hs & Hgood & Hd1 & C)]; rewrite Hs;
    (split_and!; [done|done| |]).
  - exists (rs ++ [r]). specialize (Hg Hgood) as ->. rewrite app_nil_r in Hk.
    split; cbn [tr_env tr_events lg_wal lg_storage barriers log_calls failed]; [done|lia| | |].
    + exists []. by rewrite fmap_app, Hk, app_nil_r.
    + by rewrite Hf, Hgood, Hlive.
    + apply Forall_take, Forall_app_2; [|constructor; [simpl; lia|constructor]].
      eapply Forall_impl; [exact Hbelow|]. intros q. simpl. lia.
  - intros _. by apply Hf.
  - destruct C as [[Hw1 Hn1]|(Hgood' & Hw1 & Hn1)].
    + exists rs. split; cbn [tr_env tr_events lg_wal lg_storage barriers log_calls failed];
        [done|lia| |rewrite Hgood; by split|by rewrite Hd1].
      exists k. split; [done|]. by rewrite Hgood.
    + exists (rs ++ [r]). split; cbn [tr_env tr_events lg_wal lg_storage barriers log_calls failed];
        [done|lia| |rewrite Hgood; by split|].
      * exists (k ++ [page_image r]). split; [by rewrite fmap_app, Hk, app_assoc|by rewrite Hgood].
      * by rewrite (take_barriers _ _ _ _ Hk), Hd1.
  - done.
Qed.

Lemma session_log p t s t1 :
  st_ok st0 -> session_ok t -> page_in_db (page_id p) (page_data p) -> env_log p t = (s, t1) ->
  session_ok t1 /\ tr_events t1 = EvLog p (ok s) :: tr_events t /\
  lg_storage (tr_env t1) = lg_storage (tr_env t) /\
  (log_calls (tr_events t1) < 2 ^ 64 - 2 -> ok s = true -> failed (tr_events t) = []).
Proof.
  intros H0 Ht Hp Hl.
  assert (tr_events t1 = EvLog p (ok s) :: tr_events t /\
    lg_storage (tr_env t1) = lg_storage (tr_env t)) as [Htr Hst].
  { destruct t as [tr [w st]]. rewrite traced_log in Hl.
    by destruct (BeforePageWrite p w) as [[]|]; injection Hl as <- <-. }
  assert (log_calls (tr_events t1) = 1 + log_calls (tr_events t)) as Hc by (by rewrite Htr).
  split_and!; [|done|done|].
  - intros Hb. destruct (Ht ltac:(lia)) as [Hok Hn (rs & Hinv) Hcov].
    destruct (barrier_step p t rs s t1 H0 Hp Hinv ltac:(lia) Hl) as (_ & _ & Hinv' & _).
    split; [by rewrite Hst|by rewrite Hst|done|]. rewrite Hst. intros id Hid%Hcov. rewrite Htr. simpl.
    destruct (ok s); [|done]. rewrite fmap_app. apply elem_of_app. by left.
  - intros Hb. destruct (Ht ltac:(lia)) as [Hok Hn (rs & Hinv) Hcov].
    by destruct (barrier_step p t rs s t1 H0 Hp Hinv ltac:(lia) Hl) as (_ & _ & _ & ?).
Qed.

Lemma session_write p t s t1 :
  st_ok st0 -> session_ok t -> page_in_db (page_id p) (page_data p) ->
  page_id p ∈ (fst <$> barriers (tr_events t)) -> env_write p t = (s, t1) -> session_ok t1.
Proof.
  intros H0 Ht Hpg Hin Hw. destruct t as [tr [w st]]. rewrite traced_write in Hw.
  destruct (WritePage p st) as [s1 st1] eqn:E. injection Hw as <- <-. intros Hb.
  destruct (Ht Hb) as [Hst Hn (rs & [? ? ? ? ?]) Hcov]. cbn [tr_env tr_events lg_wal lg_storage] in *.
  destruct (page_in_db_ok p H0 Hpg) as (Hp & _).
  destruct (WritePage_spec p st Hst Hp) as (s2 & st2 & E2 & Hst2 & _ & Hn2 & Hoth & _).
  rewrite E in E2. injection E2 as <- <-.
  split; cbn [tr_env tr_events lg_wal lg_storage barriers log_calls failed]; [done|lia|exists rs; by split|].
  intros j Hj. destruct (decide (j = page_id p)) as [->|Hne]; [done|]. apply Hcov. by rewrite <- Hoth.
Qed.

(** The storage stays a whole number of pages, and the invariant holds. *)
Definition running (t : traced logged) : Prop :=
  st_ok (lg_storage (tr_env t)) /\ npages (lg_storage (tr_env t)) = npages st0 /\ session_ok t.

(** The page is not what its last successful barrier said, or a barrier for it
    failed: its last flush did not succeed. *)
Definition unsynced (t : traced logged) (id : Z) : Prop :=
  log_calls (tr_events t) < 2 ^ 64 - 2 /\
  (contents (lg_storage (tr_env t)) id <> redo_pages (barriers (tr_events t)) (contents st0) id \/
   id ∈ failed (tr_events t)).

Lemma running_read id t s out t' :
  st_ok st0 -> running t -> 0 <= id -> env_read id t = (s, out, t') ->
  running t' /\ (forall j, unsynced t' j -> unsynced t j) /\
  (ok s = true -> let p := default PageDefault out in page_in_db (page_id p) (page_data p)).
Proof.
  intros H0 (Hst & Hn & Ht) Hid Hr. destruct (session_read id t s out t' H0 Ht Hid Hr) as [Ht' Hp].
  destruct t as [tr [w st]]. rewrite traced_read in Hr.
  destruct (ReadPage_spec id PageDefault st Hst Hid) as (s2 & o2 & st2 & E2 & Q & _). rewrite E2 in Hr.
  injection Hr as <- <- <-. split_and!; [split_and!; [by eapply quiet_ok| |done]| |by intros; apply Hp].
  - cbn [tr_env lg_storage] in *. rewrite <- Hn. apply npages_same_len. by rewrite (proj1 Q).
  - intros j. unfold unsynced. cbn [tr_env tr_events lg_wal lg_storage barriers log_calls failed].
    by rewrite (quiet_contents _ _ j Q).
Qed.

Lemma running_flush p t s t' :
  st_ok st0 -> running t -> page_in_db (page_id p) (page_data p) -> flush_env true p t = (s, t') ->
  running t' /\
  forall j, unsynced t' j -> if ok s then unsynced t j /\ j <> page_id p else unsynced t j \/ j = page_id p.
Proof.
  intros H0 (Hst & Hn & Ht) Hp Hfl. unfold flush_env in Hfl.
  destruct (env_log p t) as [ls t1] eqn:Hl.
  destruct (session_log p t ls t1 H0 Ht Hp Hl) as (Ht1 & Htr & Hsame & Hfail).
  pose proof Hst as Hst1. rewrite <- Hsame in Hst1. pose proof Hn as Hn1. rewrite <- Hsame in Hn1.
  unfold unsynced. destruct (ok ls) eqn:Els; cbn [negb] in Hfl.
  2: { injection Hfl as <- <-. rewrite Els. split; [done|]. intros j. rewrite Htr, Hsame. cbn [log_calls barriers failed].
       rewrite elem_of_cons. intros [Hb [?|[?|?]]]; [left|by right|left]; (split; [lia|auto]). }
  assert (page_id p ∈ (fst <$> barriers (tr_events t1))) as Hcov.
  { rewrite Htr. simpl. rewrite fmap_app. apply elem_of_app. right. by apply list_elem_of_singleton. }
  pose proof (session_write p t1 s t' H0 Ht1 Hp Hcov Hfl) as Ht2.
  destruct t1 as [tr [w st]]. rewrite traced_write in Hfl.
  destruct (page_in_db_ok p H0 Hp) as (Hpok & _). cbn [tr_env tr_events lg_storage] in *.
  destruct (WritePage_spec p st Hst1 Hpok) as (s2 & st2 & E2 & Hst2 & _ & Hn2 & Hoth & C). rewrite E2 in Hfl.
  injection Hfl as <- <-. split; [split_and!; [done|cbn [tr_env lg_storage]; lia|done]|].
  intros j. cbn [tr_env tr_events lg_wal lg_storage barriers log_calls failed]. rewrite Htr.
  cbn [barriers log_calls failed]. rewrite redo_pages_snoc. cbn [fst snd].
  rewrite Htr in Hfail. cbn [log_calls] in Hfail.
  intros [Hb Hbad]. specialize (Hfail Hb eq_refl). rewrite Hfail in *.
  case (Z.eqb_spec j (page_id p)); intros Hj; [subst j; rewrite (proj2 (Z.eqb_eq _ _)) in Hbad by done
    |rewrite (proj2 (Z.eqb_neq _ _)) in Hbad by done; rewrite Hoth, Hsame in Hbad by done].
  - destruct C as [(-> & _ & Hc)|[([Hc|Hc] & _)|[Hc _]]]; [|by rewrite (not_ok_code _ _ Hc) by done; right..].
    exfalso. destruct Hbad as [?|Hx]; [done|by apply not_elem_of_nil in Hx].
  - destruct (ok s2); [split; [|done]|left]; (split; [lia|done]).
Qed.
End Session.

(** ** Crash and recovery *)

(** A log opened on a missing or empty file, or reset. *)
Definition fresh_log (path : string) (future : list aio) : wal :=
  MkWal (MkLog [] [] true future) path true 1 0.

Lemma open_fresh path create reopen future :
  path <> ""%string ->
  Wal.Open path (MkWalPath None true create reopen RdAll future) =
  Some (StatusOk, Some (fresh_log path future), Some []).
Proof. intros H. unfold Wal.Open. by rewrite bool_decide_eq_false_2. Qed.

Definition session_start (bp : BufferPool) (st0 : storage) (path : string) (future : list aio)
    : client (traced logged) :=
  MkClient [] (SetLogSink true bp) (MkTraced [] (MkLogged (fresh_log path future) st0)) [].

Lemma session_start_guarded capacity bp st0 path future :
  st_ok st0 -> Create true true capacity = (StatusOk, Some bp) ->
  let c := session_start bp st0 path future in
  guarded true (running st0) (unsynced st0) (page_in_db st0) (c_pool c) (c_env c).
Proof.
  intros H0 HC. split; simpl; [done| | |].
  - unfold Create in HC. destruct (negb true), (capacity =? 0); try done. simpl in HC.
    injection HC as <-. simpl. by apply Forall_replicate.
  - split_and!; [done..|]. intros _. split; simpl; [done..| |done].
    exists []. split; simpl; [|lia|by exists []|done|constructor].
    split; [done|done| |].
    + exists []. simpl. split_and!; [lia|by split; constructor|constructor|done|]. by split.
    + exists []. split_and!; [done|done|]. intros r Hr'. by apply not_elem_of_nil in Hr'.
  - intros id [_ [Hx|Hx]]; [done|by apply not_elem_of_nil in Hx].
Qed.

Lemma session_guarded capacity bp st0 path future os cs c :
  st_ok st0 -> Create true true capacity = (StatusOk, Some bp) -> Forall pool_op_ok os ->
  pool_run os (session_start bp st0 path future) = (cs, c) ->
  guarded true (running st0) (unsynced st0) (page_in_db st0) (c_pool c) (c_env c).
Proof.
  intros H0 HC Hos Hr.
  refine (pool_run_guarded true (running st0) (unsynced st0) (page_in_db st0) (fun id => 0 <= id)
    (buf_ok kPageSize) _ _ _ os (session_start bp st0 path future) cs c _ _ Hr).
  - intros id t s out t'. by apply running_read.
  - intros p t s t'. by apply running_flush.
  - intros id d d' [? _] ?. by split.
  - by eapply session_start_guarded.
  - eapply Forall_impl; [exact Hos|]. intros [] Ho; simpl in *; try done. lia.
Qed.

Lemma session_flush_all st0 bp t s bp' t' :
  st_ok st0 -> guarded true (running st0) (unsynced st0) (page_in_db st0) bp t ->
  FlushAll bp t = (s, bp', t') -> guarded true (running st0) (unsynced st0) (page_in_db st0) bp' t'.
Proof.
  intros H0 Hg HF.
  refine (pool_step_guarded true (running st0) (unsynced st0) (page_in_db st0) (fun id => 0 <= id)
    (buf_ok kPageSize) _ _ _ PFlushAll (MkClient [] bp t []) s (MkClient [] bp' t' []) Hg I _).
  - intros id t0 s0 out t0'. by apply running_read.
  - intros p t0 s0 t0'. by apply running_flush.
  - intros id d d' [? _] ?. by split.
  - simpl. by rewrite HF.
Qed.

(** Members of a sorted prefix that are all kept are a prefix of what is kept. *)
Lemma kept_covers all a kept :
  log_ok all -> a `prefix_of` all -> kept `prefix_of` all -> (forall r, r ∈ a -> r ∈ kept) ->
  a `prefix_of` kept.
Proof.
  intros Hok Ha Hk Hin. destruct (prefix_weak_total a kept all) as [?|[k ->]]; [done..|].
  destruct k as [|r k]; [by rewrite app_nil_r|]. exfalso.
  assert (r ∈ kept) as Hr by (apply Hin, elem_of_app; right; by left).
  pose proof (prefix_sorted _ _ Ha Hok) as [_ Hs].
  assert (lsn_lt r r) as Hlt by (by apply (StronglySorted_app_1_elem_of lsn_lt kept (r :: k) r r Hs), list_elem_of_here).
  unfold lsn_lt in Hlt. lia.
Qed.

(** The log when every page is in step with its last barrier. *)
Lemma synced_log st0 t :
  st_ok st0 -> running st0 t -> log_calls (tr_events t) < 2 ^ 64 - 2 -> (forall id, ~ unsynced st0 t id) ->
  exists rs, lg_disk (w_file (lg_wal (tr_env t))) = log_bytes rs /\ lg_buf (w_file (lg_wal (tr_env t))) = [] /\
    w_open (lg_wal (tr_env t)) = true /\ log_ok rs /\ Forall (fun r => in_db st0 (im_page r)) rs /\
    forall id, contents (lg_storage (tr_env t)) id = redo rs (contents st0) id.
Proof.
  intros H0 (Hst & Hn & Hs) Hb Hsync. destruct (Hs Hb) as [_ _ (rs & [Hw Hx (k & Hk & Hgk) Hf Hdur]) _].
  set (st := lg_storage (tr_env t)) in *. set (bs := barriers (tr_events t)) in *.
  assert (failed (tr_events t) = []) as Hnil.
  { destruct (failed (tr_events t)) as [|id l] eqn:E; [done|]. destruct (Hsync id). split; [done|].
    right. rewrite E. by left. }
  pose proof (proj1 Hf Hnil) as Hgood. rewrite (Hgk Hgood), app_nil_r in Hk.
  destruct (wal_inv_crash _ _ _ Hw) as (kept & tail & extra & E & Ht & Hok & HQ & Hpre & (_ & Hall & Hex) & Hin).
  rewrite (Hex Hgood), app_nil_r in *.
  assert (take (length bs) rs = rs) as Hlen by (apply take_ge; by rewrite <- Hk, length_fmap).
  rewrite Hlen in Hdur. assert (rs `prefix_of` kept) as Hrk.
  { apply (kept_covers rs); [done..|]. intros r Hr. apply Hin; [done|].
    rewrite Forall_forall in Hdur. by apply Hdur. }
  assert (kept = rs) as ->.
  { destruct Hpre as [x Hx1], Hrk as [y Hy]. rewrite Hy, <- app_assoc in Hx1.
    apply (f_equal length) in Hx1. rewrite !length_app in Hx1.
    destruct y; [by rewrite app_nil_r in Hy|simpl in Hx1; lia]. }
  assert (tail = [] /\ lg_buf (w_file (lg_wal (tr_env t))) = []) as [-> Hbuf].
  { destruct Hw as [_ _ (extra' & _ & _ & _ & Hex' & [_ Hall']) _]. specialize (Hall' Hgood).
    rewrite (Hex' Hgood), app_nil_r, E in Hall'. rewrite <- app_assoc in Hall'.
    apply (f_equal length) in Hall'. rewrite !length_app in Hall'.
    destruct tail, (lg_buf _); simpl in Hall'; try lia. done. }
  rewrite app_nil_r in E. exists rs. do 2 (split; [done|]). split; [apply Hw|]. do 2 (split; [done|]).
  intros id. destruct (decide (contents st id = redo rs (contents st0) id)) as [|Hne]; [done|].
  destruct (Hsync id). split; [done|]. left. fold st bs. by rewrite redo_images, Hk in Hne.
Qed.

(** A crash in such a state. *)
Lemma crashed_session st0 t st1 w1 :
  st_ok st0 -> running st0 t -> log_calls (tr_events t) < 2 ^ 64 - 2 ->
  (forall id, ~ unsynced st0 t id) -> restarted (lg_storage (tr_env t)) st1 ->
  w_open w1 = true -> lg_disk (w_file w1) = lg_disk (w_file (lg_wal (tr_env t))) ->
  exists stats st2, Recover RdAll w1 (Some st1) = Some (StatusOk, stats, Some st2) /\
    forall id, contents st2 id = contents (lg_storage (tr_env t)) id.
Proof.
  intros H0 Hrun Hb Hsync (Hbytes & Ho1 & Hh1) Hw1 Hdisk.
  destruct (synced_log st0 t H0 Hrun Hb Hsync) as (rs & E & _ & _ & Hok & HQ & Hcont).
  destruct Hrun as (Hst & Hn & _). set (st := lg_storage (tr_env t)) in *.
  assert (npages st1 = npages st) as Hn1 by (apply npages_same_len; by rewrite Hbytes).
  destruct (recover_run w1 rs [] st1) as (stats & st2 & HR & Hc); [done|by rewrite app_nil_r, Hdisk|done|by right| | |done|].
  { unfold st_ok. rewrite Hn1, Hbytes. destruct Hst. tauto. }
  { eapply Forall_impl; [exact HQ|]. intros r Hr'. unfold in_db in Hr'. lia. }
  exists stats, st2. split; [done|]. intros id. rewrite Hc, Hcont. apply redo_agree. intros j Hj.
  unfold contents. rewrite Hn1, Hbytes. change (contents st j = contents st0 j).
  by rewrite Hcont, redo_other.
Qed.

(** C6: The engine survives a crash.  Run any client session on a pool over a
    database of whole pages and a fresh log, where any read, page write, log
    write or flush may fail, and let the process die.  Recovery on what is left
    of the two files, with I/O that works, succeeds, and makes every page its
    last logged image, or leaves it as it was before the session: the images
    replayed begin with the pages whose log barrier succeeded, in order, so
    that a page write that a crash or a failure tore is always repaired. *)
Theorem crash_recovery capacity bp st0 path future os cs c st1 w1 :
  st_ok st0 -> Create true true capacity = (StatusOk, Some bp) -> Forall pool_op_ok os ->
  pool_run os (session_start bp st0 path future) = (cs, c) ->
  log_calls (tr_events (c_env c)) < 2 ^ 64 - 2 ->
  restarted (lg_storage (tr_env (c_env c))) st1 ->
  w_open w1 = true -> lg_disk (w_file w1) = lg_disk (w_file (lg_wal (tr_env (c_env c)))) ->
  exists kept k stats st2,
    Recover RdAll w1 (Some st1) = Some (StatusOk, stats, Some st2) /\
    page_image <$> kept = barriers (tr_events (c_env c)) ++ k /\
    (forall id, contents st2 id = redo kept (contents st0) id).
Proof.
  intros H0 HC Hos Hr Hb (Hbytes & Ho1 & Hh1) Hw1 Hdisk.
  destruct (session_guarded _ _ _ _ _ _ _ _ H0 HC Hos Hr) as [_ _ (Hst & Hn & Hs) _].
  destruct (Hs Hb) as [_ _ (rs & [Hw Hx (k & Hk & _) _ Hdur]) Hcov].
  set (t := c_env c) in *. set (w := lg_wal (tr_env t)) in *. set (st := lg_storage (tr_env t)) in *.
  destruct (wal_inv_crash _ _ _ Hw) as (kept & tail & extra & E & Ht & Hok & HQ & Hpre & (_ & Hall & _) & Hin).
  set (bs := barriers (tr_events t)) in *.
  assert (take (length bs) rs `prefix_of` kept) as [k1 Hk1].
  { apply (kept_covers (rs ++ extra)); [done|by apply prefix_app_r, take_prefix|done|].
    intros r (i & Hi & Hlt)%elem_of_take. apply Hin; [by eapply list_elem_of_lookup_2|].
    rewrite Forall_forall in Hdur. apply Hdur, elem_of_take. by eauto. }
  assert (page_image <$> take (length bs) rs = bs) as Hbs.
  { rewrite fmap_take, Hk. apply take_app_length. }
  assert (forall id, redo kept (contents st) id = redo kept (contents st0) id) as Hredo.
  { apply redo_agree. intros id Hid. destruct (decide (contents st id = contents st0 id)) as [|Hne]; [done|].
    destruct Hid. rewrite Hk1, fmap_app. apply elem_of_app. left.
    apply Hcov in Hne. fold bs in Hne. rewrite <- Hbs, <- list_fmap_compose in Hne. done. }
  assert (npages st1 = npages st) as Hn1 by (apply npages_same_len; by rewrite Hbytes).
  assert (st_ok st1) as Hst1 by (unfold st_ok; rewrite Hn1, Hbytes; destruct Hst; tauto).
  destruct (recover_run w1 kept tail st1) as (stats & st2 & HR & Hc); [done|by rewrite Hdisk|done..| |done|].
  { eapply Forall_impl; [exact HQ|]. intros r Hr'. unfold in_db in Hr'. lia. }
  exists kept, (page_image <$> k1), stats, st2. split_and!; [done|rewrite Hk1, fmap_app; by f_equal|].
  intros id. rewrite Hc, <- Hredo. apply redo_agree. intros j _. unfold contents. by rewrite Hn1, Hbytes.
Qed.

(** What the next process finds after the environment [t]. *)
Definition next_storage (t : traced logged) : storage :=
  MkStorage (fresh_stream (st_bytes (lg_storage (tr_env t))) []) "db" true.
Definition next_wal (t : traced logged) : wal := on_disk (lg_disk (w_file (lg_wal (tr_env t)))).

Lemma next_restarted t : restarted (lg_storage (tr_env t)) (next_storage t).
Proof. by split_and!. Qed.

Lemma next_wal_disk t : lg_disk (w_file (next_wal t)) = lg_disk (w_file (lg_wal (tr_env t))).
Proof. done. Qed.

(** A client changes both pages of a database through a one-frame pool; the page
    write of the first eviction is torn and the fetch is repeated. *)
Definition crash_ops : list pool_op :=
  [PFetch 0; PWrite 0 sevens; PUnpin 0; PFetch 1; PFetch 1; PWrite 0 sevens; PUnpin 0].
Definition torn_storage : storage := two_pages [IoOk; IoOk; IoOk; IoOk; IoOk; IoOk; IoOk; IoOk; IoOk; IoOk; IoOk; IoFail 100].
Definition torn_session : list DbError * client (traced logged) :=
  pool_run crash_ops (session_start one_frame torn_storage "nexus.wal" [AOk 5]).

Lemma crash_ops_ok : Forall pool_op_ok crash_ops.
Proof.
  assert (pool_op_ok (PWrite 0 sevens)) as Hw by exact sevens_buf.
  assert (forall id, 0 <= id <= 1 -> pool_op_ok (PFetch id)) as Hf by (intros id ?; simpl; unfold kInvalidId; lia).
  unfold crash_ops. repeat (apply Forall_cons_2; [first [exact Hw|apply Hf; lia|exact I]|]). apply Forall_nil_2.
Qed.

Lemma torn_session_eq :
  pool_run crash_ops (session_start one_frame torn_storage "nexus.wal" [AOk 5]) =
  (fst torn_session, snd torn_session).
Proof. rewrite <- surjective_pairing. unfold torn_session. reflexivity. Qed.

Lemma torn_session_calls : (log_calls (tr_events (c_env (snd torn_session))) =? 2) = true.
Proof. by vm_compute. Qed.

Lemma crash_recovery_witness : exists kept k stats st2,
  Recover RdAll (next_wal (c_env (snd torn_session))) (Some (next_storage (c_env (snd torn_session)))) =
    Some (StatusOk, stats, Some st2) /\
  page_image <$> kept = barriers (tr_events (c_env (snd torn_session))) ++ k /\
  (forall id, contents st2 id = redo kept (contents torn_storage) id).
Proof.
  apply (crash_recovery 1 one_frame torn_storage "nexus.wal" [AOk 5] crash_ops (fst torn_session)
    (snd torn_session) (next_storage (c_env (snd torn_session))) (next_wal (c_env (snd torn_session)))).
  - apply two_pages_ok.
  - reflexivity.
  - exact crash_ops_ok.
  - exact torn_session_eq.
  - rewrite (proj1 (Z.eqb_eq _ _) torn_session_calls). reflexivity.
  - apply next_restarted.
  - reflexivity.
  - apply next_wal_disk.
Defined.

(** What FlushAll reports durable survives a crash.  Run any client session
    as before, through any failures, and let FlushAll succeed at its end: if
    the process then dies, recovery leaves every page with the last bytes a
    client wrote to it, or with what it had before the session. *)
Theorem flush_all_survives_crash capacity bp st0 path future os cs c s bp' t st1 w1 :
  st_ok st0 -> 0 < capacity <= kMaxFrames -> Create true true capacity = (StatusOk, Some bp) ->
  Forall pool_op_ok os -> pool_run os (session_start bp st0 path future) = (cs, c) ->
  FlushAll (c_pool c) (c_env c) = (s, bp', t) -> ok s = true ->
  log_calls (tr_events t) < 2 ^ 64 - 2 ->
  restarted (lg_storage (tr_env t)) st1 ->
  w_open w1 = true -> lg_disk (w_file w1) = lg_disk (w_file (lg_wal (tr_env t))) ->
  exists stats st2, Recover RdAll w1 (Some st1) = Some (StatusOk, stats, Some st2) /\
    forall id, contents st2 id = after_writes (c_writes c) (contents st0) id.
Proof.
  intros H0 Hcap HC Hos Hr HF Hs Hb Hre Hw1 Hdisk.
  pose proof (session_guarded _ _ _ _ _ _ _ _ H0 HC Hos Hr) as Hg.
  pose proof (session_flush_all _ _ _ _ _ _ H0 Hg HF) as [_ _ Hrun Hbad].
  assert (client_ok (contents st0) (session_start bp st0 path future)) as Hstart.
  { pose proof (Create_ok capacity (MkTraced [] (MkLogged (fresh_log path future) st0)) bp (st_ok_sound _ H0) Hcap HC) as (I & Hh & Hl).
    split_and!; [destruct I; by split|destruct Hh; by split|exact Hl]. }
  destruct (pool_run_ok _ _ _ _ _ Hstart Hos Hr) as (I & _ & Hlog).
  destruct (FlushAll_clean _ _ _ _ _ I HF Hs) as [Hclean Hcont].
  assert (forall id, ~ unsynced st0 t id) as Hsync.
  { intros id (i & f & _ & Hl & Hu & Hd & _)%Hbad. by rewrite (Hclean i f Hl Hu) in Hd. }
  destruct (crashed_session st0 t st1 w1 H0 Hrun Hb Hsync Hre Hw1 Hdisk) as (stats & st2 & HR & Hc).
  exists stats, st2. split; [done|]. intros id. rewrite Hc. destruct (Hcont id) as [H1 _].
  simpl in H1. by rewrite H1, Hlog.
Qed.

Definition flushed_session : Status * BufferPool * traced logged :=
  FlushAll (c_pool (snd torn_session)) (c_env (snd torn_session)).

Lemma flushed_session_eq :
  FlushAll (c_pool (snd torn_session)) (c_env (snd torn_session)) =
  (fst (fst flushed_session), snd (fst flushed_session), snd flushed_session).
Proof. rewrite <- (pair3 flushed_session). unfold flushed_session. reflexivity. Qed.

Lemma flushed_session_ok :
  ok (fst (fst flushed_session)) && (log_calls (tr_events (snd flushed_session)) =? 3) = true.
Proof. by vm_compute. Qed.

Lemma flushed_contents :
  after_writes (c_writes (snd torn_session)) (contents torn_storage) 0 = Some sevens /\
  after_writes (c_writes (snd torn_session)) (contents torn_storage) 1 = Some sevens.
Proof. by split; vm_compute. Qed.

Lemma flush_all_survives_crash_witness : exists stats st2,
  Recover RdAll (next_wal (snd flushed_session)) (Some (next_storage (snd flushed_session))) =
    Some (StatusOk, stats, Some st2) /\
  contents st2 0 = Some sevens /\ contents st2 1 = Some sevens.
Proof.
  destruct (andb_prop _ _ flushed_session_ok) as [Hs Hc].
  destruct (flush_all_survives_crash 1 one_frame torn_storage "nexus.wal" [AOk 5] crash_ops
    (fst torn_session) (snd torn_session) (fst (fst flushed_session)) (snd (fst flushed_session))
    (snd flushed_session) (next_storage (snd flushed_session)) (next_wal (snd flushed_session)))
    as (stats & st2 & HR & Hcont).
  - apply two_pages_ok.
  - exact one_frame_capacity.
  - reflexivity.
  - exact crash_ops_ok.
  - exact torn_session_eq.
  - exact flushed_session_eq.
  - exact Hs.
  - rewrite (proj1 (Z.eqb_eq _ _) Hc). reflexivity.
  - apply next_restarted.
  - reflexivity.
  - apply next_wal_disk.
  - exists stats, st2. split; [exact HR|]. split; rewrite Hcont; apply flushed_contents.
Defined.
