(* ===== verification/PageAccess.v ===== *)
(** * Working on pages through the pool

    The record, catalog and database layers share one discipline: page bytes are
    reached through buffer pool handles, new pages come from the storage.  This
    file has the interface of allocation ([PageAlloc], which [PageStorage]
    implements), the computations of those layers as a monad [Code] (an object's
    members, the pool and the storage as state; a [Status] other than ok ends a
    computation early; [None] is an access outside a buffer), and the rules
    their proofs use, in terms of the page contents alone. *)

From S2P Require Import Prelude Bytes Common PageStorage BufferPool BufferPoolSpec.

(** ** Allocation *)

Class PageAlloc (E : Type) := {
  env_alloc : E -> Status * option Page * E;
  env_num_pages : E -> Status * Z * E;
  env_exists : Z -> E -> bool * E }.

Class PageAllocLaws (E : Type) `{PageEnvLaws E} `{PageAlloc E} := {
  alloc_law e s out e' :
    env_inv e -> env_alloc e = (s, out, e') ->
    env_inv e' /\ (forall j, is_Some (disk e j) -> disk e' j = disk e j) /\
    (ok s = true -> exists id, out = Some (PageOf id) /\ 0 <= id < kInvalidId /\ disk e id = None /\
       forall j, disk e' j = if j =? id then Some zero_data else disk e j);
  num_law e s n e' :
    env_inv e -> env_num_pages e = (s, n, e') ->
    env_inv e' /\ (forall j, disk e' j = disk e j) /\
    (ok s = true -> 0 <= n <= kInvalidId /\ forall id, is_Some (disk e id) <-> 0 <= id < n);
  exists_law id e b e' :
    env_inv e -> 0 <= id -> env_exists id e = (b, e') ->
    env_inv e' /\ (forall j, disk e' j = disk e j) /\ (b = true -> is_Some (disk e id));
  write_same_pages p e s e' :
    env_inv e -> page_ok p -> env_write p e = (s, e') ->
    forall j, is_Some (disk e' j) <-> is_Some (disk e j) }.

#[export] Instance storage_alloc : PageAlloc storage := {
  env_alloc st := AllocatePage (Some PageDefault) st;
  env_num_pages := NumPages;
  env_exists := PageExists }.

Lemma contents_is_Some st id : is_Some (contents st id) <-> 0 <= id < npages st.
Proof.
  unfold contents. destruct (_ && _) eqn:C; zb.
  - split; [lia|by eexists].
  - split; [by intros [? ?]|]. intros. lia.
Qed.

#[export] Instance storage_alloc_laws : PageAllocLaws storage.
Proof.
  split; unfold env_inv, disk, storage_env_laws, env_alloc, env_num_pages, env_exists, storage_alloc.
  - intros st s out st' Hs Ha. destruct (st_sound_cases st Hs) as [Hok|Hrag].
    + pose proof (AllocatePage_sound _ st Hok _ _ _ Ha) as Hs'.
      destruct (AllocatePage_spec PageDefault st Hok) as (s1 & out1 & st1 & Ha1 & _ & Hold & C).
      rewrite Ha1 in Ha. injection Ha as <- <- <-. split_and!; [done| |].
      * intros j Hj%contents_is_Some. apply Hold. lia.
      * intros Ho. destruct C as [(-> & -> & Hok1 & Hn1 & Hnew)|(Hc & _)];
          [|by rewrite (not_ok_code _ _ Hc) in Ho].
        pose proof (npages_nonneg st). exists (npages st). split_and!; [done|lia| | |].
        -- destruct Hok1 as (_ & _ & _ & ?). lia.
        -- apply contents_None; lia.
        -- intros j. case (Z.eqb_spec j (npages st)); intros Hj; [by subst|].
           destruct (decide (j < npages st)); [by apply Hold|].
           transitivity (None : option (list Z)); [|symmetry]; apply contents_None; lia.
    + destruct (ragged_ops st Hs Hrag) as (_ & _ & Hal & _).
      destruct (Hal PageDefault) as (s1 & st1 & Ha1 & Q & Hf). rewrite Ha1 in Ha. injection Ha as <- <- <-.
      split_and!; [by eapply quiet_sound|by intros; apply quiet_contents|congruence].
  - intros st s n st' Hs HN. destruct (st_sound_cases st Hs) as [Hok|Hrag].
    + destruct (NumPages_spec st Hok) as (s1 & n1 & st1 & HN1 & Q & C). rewrite HN1 in HN.
      injection HN as <- <- <-. split_and!; [by eapply quiet_sound|by intros; apply quiet_contents|].
      intros Ho. destruct C as [[-> ->]|[Hc _]]; [|by rewrite (not_ok_code _ _ Hc) in Ho].
      pose proof (npages_nonneg st). destruct Hs as (_ & _ & ?). split; [lia|]. apply contents_is_Some.
    + destruct (NumPages_ragged st Hs Hrag) as (s1 & n1 & st1 & HN1 & Q & Hc). rewrite HN1 in HN.
      injection HN as <- <- <-. split_and!; [by eapply quiet_sound|by intros; apply quiet_contents|].
      by rewrite (not_ok_code _ _ Hc).
  - intros id st b st' Hs Hid HE. destruct (st_sound_cases st Hs) as [Hok|Hrag].
    + unfold PageExists in HE. rewrite (proj1 Hok) in HE. cbn [negb] in HE.
      destruct (NumPages_spec st Hok) as (s1 & n1 & st1 & HN1 & Q & C). rewrite HN1 in HE.
      destruct (ok s1) eqn:Ho; cbn [negb] in HE; injection HE as <- <-;
        (split_and!; [by eapply quiet_sound|by intros; apply quiet_contents|]); [|done].
      destruct C as [[-> ->]|[Hc _]]; [|by rewrite (not_ok_code _ _ Hc) in Ho].
      intros Hlt. zb. apply contents_is_Some. lia.
    + destruct (ragged_ops st Hs Hrag) as (_ & _ & _ & Hex). destruct (Hex id) as (st1 & HE1 & Q).
      rewrite HE1 in HE. injection HE as <- <-.
      split_and!; [by eapply quiet_sound|by intros; apply quiet_contents|done].
  - intros p st s st' Hs Hp Hw j. unfold env_write, storage_env in Hw.
    destruct (st_sound_cases st Hs) as [Hok|Hrag].
    + destruct (WritePage_spec p st Hok Hp) as (s1 & st1 & Hw1 & _ & _ & Hn & _). rewrite Hw1 in Hw.
      injection Hw as <- <-. by rewrite !contents_is_Some, Hn.
    + destruct (ragged_ops st Hs Hrag) as (_ & Hwr & _). destruct (Hwr p) as (s1 & st1 & Hw1 & Q & _).
      rewrite Hw1 in Hw. injection Hw as <- <-. by rewrite (quiet_contents _ _ j Q).
Qed.

(** ** Computations

    What a method of a layer above the pool does, with members of type [T]. *)

Abbreviation db E := (BufferPool * E)%type.

Section Code.
Context {E T : Type} `{PageEnv E} `{!PageAlloc E}.

Definition Code (A : Type) : Type := T * db E -> option ((Status + A) * (T * db E)).

#[export] Instance Code_ret : MRet Code := fun A x s => Some (inr x, s).
#[export] Instance Code_bind : MBind Code := fun A B k m s =>
  '(r, s) ← m s;
  match r with inl st => Some (inl st, s) | inr x => k x s end.

(** [return status;] with an error, and [if (!s.ok()) return s;] *)
Definition throw {A} (st : Status) : Code A := fun s => Some (inl st, s).
Definition check (st : Status) : Code unit := if negb (ok st) then throw st else mret tt.

(** A status the caller looks at. *)
Definition attempt {A} (m : Code A) : Code (Status + A) := fun s =>
  '(r, s) ← m s; Some (inr r, s).

(** An access to the bytes of a page. *)
Definition access {A} (o : option A) : Code A := fun s => x ← o; Some (inr x, s).

Definition members : Code T := fun s => Some (inr (fst s), s).
Definition update (f : T -> T) : Code unit := fun s => Some (inr tt, (f (fst s), snd s)).

(** The calls on [storage_]. *)
Definition storage_AllocatePage : Code Page := fun '(t, (bp, e)) =>
  let '(s, p, e) := env_alloc e in
  Some (if negb (ok s) then inl s else inr (default PageDefault p), (t, (bp, e))).
Definition storage_WritePage (p : Page) : Code unit := fun '(t, (bp, e)) =>
  let '(s, e) := env_write p e in
  Some (if negb (ok s) then inl s else inr tt, (t, (bp, e))).
Definition storage_NumPages : Code Z := fun '(t, (bp, e)) =>
  let '(s, n, e) := env_num_pages e in
  Some (if negb (ok s) then inl s else inr n, (t, (bp, e))).
Definition storage_PageExists (id : Z) : Code bool := fun '(t, (bp, e)) =>
  let '(b, e) := env_exists id e in Some (inr b, (t, (bp, e))).

(** A scope with a local [BufferPool::Handle] that fetches page [id]; the
    destructor unpins the frame on every way out. *)
Definition with_handle {A} (id : Z) (body : nat -> Code A) : Code A := fun '(t, (bp, e)) =>
  let '(s, h, bp, e) := Fetch true id bp e in
  if negb (ok s) then Some (inl s, (t, (DestroyHandle h bp, e))) else
  i ← h;
  '(r, (t, (bp, e))) ← body i (t, (bp, e));
  Some (r, (t, (DestroyHandle (Some i) bp, e))).

(** [handle.page()], read and written through the reference. *)
Definition handle_page (i : nat) : Code Page := fun '(t, (bp, e)) =>
  f ← bp_frames bp !! i; Some (inr (f_page f), (t, (bp, e))).
Definition set_handle_page (i : nat) (p : Page) : Code unit := fun '(t, (bp, e)) =>
  Some (inr tt, (t, (upd_frame i (set_page p) bp, e))).

(** A call that works on the pool and the storage only. *)
Definition call {A} (f : db E -> option (A * db E)) : Code A := fun '(t, d) =>
  '(x, d) ← f d; Some (inr x, (t, d)).
End Code.
#[global] Arguments Code E T A : clear implicits.

(** A method of a local object, and a method of a member object. *)
Definition with_object {E T U A} (u : U) (m : Code E U A) : Code E T A := fun '(t, d) =>
  '(r, (_, d)) ← m (u, d); Some (r, (t, d)).
Definition on_member {E T U A} (get : T -> U) (set : U -> T -> T) (m : Code E U A) : Code E T A := fun '(t, d) =>
  '(r, (u, d)) ← m (get t, d); Some (r, (set u t, d)).

(** ** Devices that work

    Laws for an environment none of whose pending operations fails. *)

Class PageHealthy (E : Type) `{PageAllocLaws E} := {
  env_healthy : E -> Prop;
  healthy_read id e s out e' :
    env_inv e -> env_healthy e -> 0 <= id -> env_read id e = (s, out, e') ->
    env_healthy e' /\ (is_Some (disk e id) -> ok s = true);
  healthy_write p e s e' :
    env_inv e -> env_healthy e -> page_ok p -> env_write p e = (s, e') ->
    env_healthy e' /\ (is_Some (disk e (page_id p)) -> ok s = true);
  healthy_log p e s e' :
    env_inv e -> env_healthy e -> page_ok p -> env_log p e = (s, e') ->
    env_healthy e' /\ (page_id p <> kInvalidId -> ok s = true);
  healthy_alloc e s out e' :
    env_inv e -> env_healthy e -> env_alloc e = (s, out, e') ->
    (exists id, 0 <= id < kInvalidId /\ disk e id = None) -> env_healthy e' /\ ok s = true;
  healthy_num e s n e' :
    env_inv e -> env_healthy e -> env_num_pages e = (s, n, e') -> env_healthy e' /\ ok s = true;
  healthy_exists id e b e' :
    env_inv e -> env_healthy e -> 0 <= id -> env_exists id e = (b, e') ->
    env_healthy e' /\ (is_Some (disk e id) -> b = true) }.

(** The stream of the storage has no error pending. *)
Definition good (st : storage) : Prop := fs_good (st_file st) = true.

Lemma NumPages_good st s n st' : st_open st = true -> healthy st -> NumPages st = (s, n, st') -> good st'.
Proof.
  unfold NumPages, FileSize, fs_tellg, fs_seek_end, next_io, healthy, good. intros ->.
  destruct st as [[bytes pos gd got fut] path op]. cbn. intros ->. cbn. repeat case_match; intros; by simplify_eq/=.
Qed.

Lemma ReadPage_good id st s out st' :
  ReadPage id (Some PageDefault) st = (s, out, st') -> ok s = true -> good st'.
Proof.
  unfold ReadPage, good. destruct (negb (st_open st)); [by intros [= <- _ _]|].
  destruct (NumPages st) as [[s1 n] st1]. destruct (ok s1) eqn:Es; cbn [negb]; [|intros [= <- _ _]; congruence].
  destruct (n <=? id); [by intros [= <- _ _]|]. destruct (negb (fs_good (fs_seek_beg _ _))); [by intros [= <- _ _]|].
  destruct (fs_read _ _) as [r f]. destruct (fs_good f) eqn:Eg; cbn [negb orb]; [|by intros [= <- _ _]].
  destruct (negb _); [by intros [= <- _ _]|]. by intros [= _ _ <-] _.
Qed.

Lemma WritePage_good p st s st' : WritePage p st = (s, st') -> ok s = true -> good st'.
Proof.
  unfold WritePage, good. destruct (negb (IsValid p)); [by intros [= <- <-]|]. destruct (negb (st_open st)); [by intros [= <- <-]|].
  destruct (NumPages st) as [[s1 n] st1]. destruct (ok s1) eqn:Es; cbn [negb]; [|intros [= <- <-]; congruence].
  destruct (n <=? page_id p); [by intros [= <- <-]|]. set (f := fs_seek_beg _ _).
  destruct (negb (fs_good f)); [by intros [= <- <-]|]. set (f' := fs_flush _).
  destruct (fs_good f') eqn:Eg; cbn [negb]; by intros [= <- <-].
Qed.

Lemma AllocatePage_good st s out st' :
  AllocatePage (Some PageDefault) st = (s, out, st') -> ok s = true -> good st'.
Proof.
  unfold AllocatePage, good. destruct (negb (st_open st)); [by intros [= <- _ _]|].
  destruct (NumPages st) as [[s1 n] st1]. destruct (ok s1) eqn:Es; cbn [negb]; [|intros [= <- _ _]; congruence].
  destruct (n =? kInvalidId); [by intros [= <- _ _]|]. set (f := fs_seek_beg _ _).
  destruct (negb (fs_good f)); [by intros [= <- _ _]|]. set (f' := fs_flush _).
  destruct (fs_good f') eqn:Eg; cbn [negb]; [|by intros [= <- _ _]]. by intros [= _ _ <-] _.
Qed.

(** On a healthy storage a read or a write that is refused has only looked at the
    size of the file. *)
Lemma refused_good id st s out st' :
  st_ok st -> healthy st -> 0 <= id -> ReadPage id (Some PageDefault) st = (s, out, st') -> good st'.
Proof.
  intros Hok Hh Hid HR. destruct (ok s) eqn:Hs; [by eapply ReadPage_good|].
  destruct (ReadPage_spec id PageDefault st Hok Hid) as (s1 & out1 & st1 & HR1 & _ & C).
  rewrite HR in HR1. injection HR1 as <- <- <-. destruct C as [(-> & _)|[(Hc & Hn & _)|(_ & Hx & _)]]; [done| |done].
  apply contents_None in Hn; [|done]. unfold ReadPage in HR. rewrite (proj1 Hok) in HR. cbn [negb] in HR.
  destruct (NumPages st) as [[s1 n] st1] eqn:EN. pose proof (NumPages_good _ _ _ _ (proj1 Hok) Hh EN) as Hg.
  destruct (NumPages_spec st Hok) as (s2 & n2 & st2 & EN2 & _ & [[-> ->]|[_ ?]]); [|done]. rewrite EN in EN2. injection EN2 as -> -> ->.
  rewrite ok_StatusOk in HR. cbn [negb] in HR. replace (npages st <=? id) with true in HR by lia. by injection HR as <- <- <-.
Qed.

Lemma refused_write_good p st s st' :
  st_ok st -> healthy st -> good st -> page_ok p -> WritePage p st = (s, st') -> good st'.
Proof.
  intros Hok Hh Hg Hp HW. destruct (ok s) eqn:Hs; [by eapply WritePage_good|].
  destruct (WritePage_spec p st Hok Hp) as (s1 & st1 & HW1 & _ & _ & _ & _ & C).
  rewrite HW in HW1. injection HW1 as <- <-. destruct C as [(-> & _)|[(Hc & Hn & _)|(_ & Hx)]]; [done| |done].
  unfold WritePage in HW. destruct (negb (IsValid p)); [by injection HW as <- <-|]. rewrite (proj1 Hok) in HW. cbn [negb] in HW.
  destruct (NumPages st) as [[s1 n] st1] eqn:EN. pose proof (NumPages_good _ _ _ _ (proj1 Hok) Hh EN) as Hg1.
  destruct (NumPages_spec st Hok) as (s2 & n2 & st2 & EN2 & _ & [[-> ->]|[_ ?]]); [|done]. rewrite EN in EN2. injection EN2 as -> -> ->.
  rewrite ok_StatusOk in HW. cbn [negb] in HW. replace (npages st <=? page_id p) with true in HW by lia. by injection HW as <- <-.
Qed.

#[export, refine] Instance storage_healthy : PageHealthy storage :=
  {| env_healthy st := st_ok st /\ healthy st /\ good st |}.
Proof.
  all: unfold env_inv, disk, storage_env_laws, env_alloc, env_num_pages, env_exists, storage_alloc,
    env_read, env_write, env_log, storage_env.
  - intros id st s out st' _ (Hok & Hh & Hg) Hid Hr. pose proof (refused_good _ _ _ _ _ Hok Hh Hid Hr) as Hg'.
    destruct (ReadPage_spec id PageDefault st Hok Hid) as (s1 & out1 & st1 & Hr1 & Q & C).
    rewrite Hr1 in Hr. injection Hr as <- <- <-.
    split; [split_and!; [by eapply quiet_ok|by apply Q|done]|].
    intros [d Hd]. destruct C as [(-> & _)|[(_ & Hn & _)|(_ & Hn & _)]]; [done|congruence|done].
  - intros p st s st' _ (Hok & Hh & Hg) Hp Hw. pose proof (refused_write_good _ _ _ _ Hok Hh Hg Hp Hw) as Hg'.
    destruct (WritePage_spec p st Hok Hp) as (s1 & st1 & Hw1 & Hok1 & Hh1 & _ & _ & C).
    rewrite Hw1 in Hw. injection Hw as <- <-. split; [by auto|]. intros Hd%contents_is_Some.
    destruct C as [(-> & _)|[(_ & ? & _)|(_ & ?)]]; [done|lia|done].
  - by intros p st s st' _ Hh _ [= <- <-].
  - intros st s out st' _ (Hok & Hh & Hg) Ha (id & Hid & Hn%contents_None); [|lia]. pose proof (AllocatePage_good _ _ _ _ Ha) as Hg'.
    destruct (AllocatePage_spec PageDefault st Hok) as (s1 & out1 & st1 & Ha1 & Hh1 & _ & C).
    rewrite Ha1 in Ha. injection Ha as <- <- <-.
    destruct C as [(-> & _ & ? & _)|(_ & _ & Hf)]; [by auto|]. specialize (Hf Hh). lia.
  - intros st s n st' _ (Hok & Hh & Hg) HN. pose proof (NumPages_good _ _ _ _ (proj1 Hok) Hh HN).
    destruct (NumPages_spec st Hok) as (s1 & n1 & st1 & HN1 & Q & C). rewrite HN1 in HN.
    injection HN as <- <- <-. split; [split_and!; [by eapply quiet_ok|by apply Q|done]|].
    by destruct C as [[-> _]|[_ ?]].
  - intros id st b st' _ (Hok & Hh & Hg) Hid HE. unfold PageExists in HE. rewrite (proj1 Hok) in HE.
    cbn [negb] in HE. destruct (NumPages_spec st Hok) as (s1 & n1 & st1 & HN1 & Q & C). rewrite HN1 in HE.
    pose proof (NumPages_good _ _ _ _ (proj1 Hok) Hh HN1).
    destruct C as [[-> ->]|[_ ?]]; [|done]. cbn in HE. injection HE as <- <-.
    split; [split_and!; [by eapply quiet_ok|by apply Q|done]|]. intros ?%contents_is_Some. lia.
Defined.

(** ** Relations that using the pool keeps

    [ghost] relates a pool to its device.  A layer above the pool fetches,
    unpins and overwrites pages, looks at the device, and writes to it directly
    only to fill in a page it has just allocated; every such use keeps [ghost],
    so that a fact about the layers below (that the log covers what the device
    may lose) holds after any computation of the layers above. *)

Class PoolKeeps (E : Type) `{PageHealthy E} := {
  ghost : BufferPool -> E -> Prop;
  ghost_fetch id bp e s h bp' e' :
    pool_inv bp e -> ghost bp e -> 0 <= id <= kInvalidId -> Fetch true id bp e = (s, h, bp', e') -> ghost bp' e';
  ghost_unpin i bp e : ghost bp e -> ghost (UnpinFrame i bp) e;
  ghost_write i data bp e : ghost bp e -> buf_ok kPageSize data -> ghost (HandleWrite i data bp) e;
  ghost_num bp e s n e' : env_inv e -> ghost bp e -> env_num_pages e = (s, n, e') -> ghost bp e';
  ghost_exists id bp e r e' :
    env_inv e -> ghost bp e -> 0 <= id -> env_exists id e = (r, e') -> ghost bp e';
  ghost_alloc bp e s out e' : env_inv e -> ghost bp e -> env_alloc e = (s, out, e') -> ghost bp e';
  ghost_init bp e s p e1 s2 e2 :
    env_inv e -> ghost bp e -> env_alloc e = (s, Some (PageOf (page_id p)), e1) -> ok s = true ->
    page_ok p -> env_write p e1 = (s2, e2) -> ghost bp e2 }.

#[export, refine] Instance storage_keeps : PoolKeeps storage := {| ghost _ _ := True |}.
Proof. all: done. Defined.

(** ** Assertions

    [c] gives the content of each page that exists, as a client of the pool sees
    it; [held] is the handle that is open and its page.  A budget [b >= 0] says
    that the device works, no other frame is pinned, and the pool's clock leaves
    room for [b] fetches below the last stamp. *)

Section Owns.
Context {E : Type} `{PK : PoolKeeps E}.
Implicit Types (c : Z -> option (list Z)) (bp : BufferPool) (e : E) (held : option (nat * Z)).

Record calm (b : Z) held bp e : Prop := {
  calm_env : env_healthy e;
  calm_clock : bp_clock bp + b < UINT64_MAX;
  calm_pins : forall j f, bp_frames bp !! j = Some f -> f_pin f = (if decide (fst <$> held = Some j) then 1 else 0) }.

Record owns (b : Z) c held (d : db E) : Prop := {
  own_inv : pool_inv (fst d) (snd d);
  own_logical : forall id, logical (fst d) (snd d) id = c id;
  own_backed : forall id, is_Some (c id) <-> is_Some (disk (snd d) id);
  own_held : forall i id, held = Some (i, id) -> exists f, bp_frames (fst d) !! i = Some f /\
    f_in_use f = true /\ page_id (f_page f) = id /\ 0 < f_pin f;
  own_ghost : ghost (fst d) (snd d);
  own_calm : 0 <= b -> calm b held (fst d) (snd d) }.

Definition upd_page c (id : Z) (d : list Z) (j : Z) : option (list Z) :=
  if decide (j = id) then Some d else c j.

(** [c'] differs from [c] only on pages that were not there, or in [ids]. *)
Definition only_changes (ids : Z -> Prop) c c' : Prop :=
  forall j, is_Some (c j) -> ~ ids j -> c' j = c j.
End Owns.

(** ** A pool in which nothing is pinned *)

Section Live.
Context {E : Type} `{PH : PageHealthy E}.
Implicit Types (bp : BufferPool) (e : E).

(** The environment part of an assertion, kept by every pool operation. *)
Definition on_device (h : Prop) (D : Z -> Prop) (e : E) : Prop :=
  env_inv e /\ (h -> env_healthy e) /\ forall j, is_Some (disk e j) <-> D j.

Definition page_fits (id : Z) (d : list Z) : Prop := page_ok (MkPage id false d).

Lemma pool_inv_guarded (h : Prop) bp e :
  pool_inv bp e -> (h -> env_healthy e) ->
  guarded (bp_sink bp) (on_device h (fun j => is_Some (disk e j))) (fun _ _ => False) page_fits bp e.
Proof.
  intros I Hh. split; [done| |split_and!; [apply I|done|done]|done].
  apply Forall_lookup_2. intros i f Hl Hu. destruct (inv_frames _ _ I _ _ Hl) as (_ & _ & Hf).
  destruct (Hf Hu) as (Hp & _). exact Hp.
Qed.

Lemma Fetch_device (h : Prop) id bp e s hd bp' e' :
  pool_inv bp e -> (h -> env_healthy e) -> 0 <= id <= kInvalidId ->
  Fetch true id bp e = (s, hd, bp', e') ->
  (h -> env_healthy e') /\ forall j, is_Some (disk e' j) <-> is_Some (disk e j).
Proof.
  intros I Hh Hid HF.
  assert (guarded (bp_sink bp) (on_device h (fun j => is_Some (disk e j))) (fun _ _ => False) page_fits bp' e')
    as [_ _ (_ & ? & ?) _]; [|done].
  eapply (Fetch_guarded _ _ _ _ (fun id => 0 <= id <= kInvalidId));
    [| |by apply pool_inv_guarded|exact Hid|exact HF].
  - intros i e1 s1 out e2 (Hi & Hhe & HD) Hr Er.
    destruct (env_read_law _ _ _ _ _ Hi (proj1 Hr) Er) as (Hi2 & Hd2 & Hok). split; [split; [done|split]|split; [done|]].
    + intros Hp. exact (proj1 (healthy_read _ _ _ _ _ Hi (Hhe Hp) (proj1 Hr) Er)).
    + intros j. by rewrite Hd2.
    + intros (d & -> & _ & [Hz Hb])%Hok. exact (conj Hz (conj Hb Hr)).
  - intros p e1 s1 e2 (Hi & Hhe & HD) Hp Ef. split; [|done].
    assert (page_ok p) as Hpok by exact Hp.
    unfold flush_env in Ef.
    assert (exists ls e3, (if bp_sink bp then env_log p e1 else (StatusOk, e1)) = (ls, e3) /\
      on_device h (fun j => is_Some (disk e j)) e3) as (ls & e3 & El & Hi3 & Hh3 & HD3).
    { destruct (bp_sink bp); [|by eexists _, _]. destruct (env_log p e1) as [ls e3] eqn:El.
      exists ls, e3. split; [done|]. destruct (env_log_law _ _ _ _ Hi Hpok El) as [Hi3 Hd3]. split; [done|split].
      - intros Hx. exact (proj1 (healthy_log _ _ _ _ Hi (Hhe Hx) Hpok El)).
      - intros j. by rewrite Hd3. }
    rewrite El in Ef. destruct (ok ls); simpl in Ef; [|by injection Ef as <- <-].
    destruct (env_write_law _ _ _ _ Hi3 Hpok Ef) as [Hi4 _]. split; [done|split].
    + intros Hx. exact (proj1 (healthy_write _ _ _ _ Hi3 (Hh3 Hx) Hpok Ef)).
    + intros j. by rewrite (write_same_pages _ _ _ _ Hi3 Hpok Ef j).
Qed.

(** Every resident page is on the device. *)
Definition backed bp e : Prop := forall id, is_Some (logical bp e id) -> is_Some (disk e id).

Lemma FlushFrame_live i bp e s bp' e' :
  pool_inv bp e -> env_healthy e -> backed bp e -> FlushFrame i bp e = (s, bp', e') -> ok s = true.
Proof.
  intros I Hh Hb. unfold FlushFrame. destruct (bp_frames bp !! i) as [f|] eqn:Hl; [|by intros [= <- <- <-]].
  destruct (negb (f_in_use f) || _) eqn:Eu; [by intros [= <- <- <-]|].
  apply orb_false_iff in Eu as [Eu%negb_false_iff _].
  destruct (inv_frames _ _ I _ _ Hl) as (_ & _ & Hf). destruct (Hf Eu) as (Hp & Hv & _).
  destruct (if bp_sink bp then _ else _) as [ls e1] eqn:El.
  assert (env_inv e1 /\ env_healthy e1 /\ (forall j, disk e1 j = disk e j) /\ ok ls = true) as (Hi1 & Hh1 & Hd1 & ->).
  { destruct (bp_sink bp); [|injection El as <- <-; split_and!; [apply I|done..]].
    destruct (env_log_law _ _ _ _ (inv_env _ _ I) Hp El). destruct (healthy_log _ _ _ _ (inv_env _ _ I) Hh Hp El).
    by split_and!; auto. }
  cbn [negb]. destruct (env_write (f_page f) e1) as [s2 e2] eqn:Ew.
  destruct (healthy_write _ _ _ _ Hi1 Hh1 Hp Ew) as [_ ->]; [by intros [= <- <- <-]|].
  rewrite Hd1. apply Hb. unfold logical. destruct (resident_at _ _ _ _ I Hl Eu) as [_ ->]. by eexists.
Qed.

(** Flushing on a device that works succeeds, and the device goes on working. *)
Lemma FlushFrame_device i bp e s bp' e' :
  pool_inv bp e -> env_healthy e -> backed bp e -> FlushFrame i bp e = (s, bp', e') ->
  env_healthy e' /\ backed bp' e'.
Proof.
  intros I Hh Hb HF. destruct (FlushFrame_spec _ _ _ _ _ _ I HF) as (I' & Hcl & Hk & _).
  assert (env_healthy e' /\ forall j, is_Some (disk e' j) <-> is_Some (disk e j)) as [Hh' Hd].
  { revert HF. unfold FlushFrame. destruct (bp_frames bp !! i) as [f|] eqn:Hl; [|by intros [= <- <- <-]].
    destruct (negb (f_in_use f) || _) eqn:Eu; [by intros [= <- <- <-]|]. apply orb_false_iff in Eu as [Eu%negb_false_iff _].
    destruct (inv_frames _ _ I _ _ Hl) as (_ & _ & Hf). destruct (Hf Eu) as (Hp & _).
    destruct (if bp_sink bp then _ else _) as [ls e1] eqn:El.
    assert (env_inv e1 /\ env_healthy e1 /\ forall j, disk e1 j = disk e j) as (Hi1 & Hh1 & Hd1).
    { destruct (bp_sink bp); [|injection El as <- <-; split_and!; [apply I|done..]].
      destruct (env_log_law _ _ _ _ (inv_env _ _ I) Hp El). destruct (healthy_log _ _ _ _ (inv_env _ _ I) Hh Hp El). done. }
    destruct (negb (ok ls)); [intros [= <- <- <-]; split; [done|]; intros j; by rewrite Hd1|].
    destruct (env_write (f_page f) e1) as [s2 e2] eqn:Ew. destruct (healthy_write _ _ _ _ Hi1 Hh1 Hp Ew) as [Hh2 _].
    assert (forall j, is_Some (disk e2 j) <-> is_Some (disk e j)) as Hd2.
    { intros j. by rewrite (write_same_pages _ _ _ _ Hi1 Hp Ew j), Hd1. }
    destruct (negb (ok s2)); by intros [= <- <- <-]. }
  split; [done|]. intros id Hl. apply Hd, Hb. unfold logical in *. destruct (resident bp' id) as [f'|] eqn:Er.
  - apply resident_Some in Er as (j & Hj & Hu & <-).
    destruct (Forall2_lookup_r _ _ _ _ _ (cleaned_frames _ _ Hcl) Hj) as (f & Hf & Hcf).
    assert (f_in_use f = true /\ page_id (f_page f) = page_id (f_page f')) as [Hu' <-] by (by destruct Hcf as [->| ->]).
    destruct (resident_at _ _ _ _ I Hf Hu') as [_ ->]. by eexists.
  - apply Hd in Hl. destruct (resident bp id); [by eexists|done].
Qed.

Lemma FlushAll_live bp e s bp' e' :
  pool_inv bp e -> env_healthy e -> backed bp e -> FlushAll bp e = (s, bp', e') -> ok s = true /\ env_healthy e'.
Proof.
  intros I Hh Hb. unfold FlushAll. rewrite (inv_storage _ _ I). cbn [negb].
  assert (ok StatusOk = true) as Hok by done. revert Hok. generalize StatusOk as first. generalize O as i.
  generalize (length (bp_frames bp)) as n. intros n. revert bp e I Hh Hb.
  induction n as [|n IH]; intros bp e I Hh Hb i first Hok; [by intros [= <- <- <-]|]. cbn [FlushAll_loop].
  destruct (bp_frames bp !! i) as [f|]; [|by intros [= <- <- <-]]. destruct (_ || _); [by apply IH|].
  destruct (FlushFrame i bp e) as [[s1 bp1] e1] eqn:Ef.
  rewrite (FlushFrame_live _ _ _ _ _ _ I Hh Hb Ef). cbn [negb andb].
  destruct (FlushFrame_device _ _ _ _ _ _ I Hh Hb Ef). destruct (FlushFrame_spec _ _ _ _ _ _ I Ef) as (I1 & _). by apply IH.
Qed.

Lemma AcquireFrame_live bp e s slot bp' e' :
  pool_inv bp e -> env_healthy e -> backed bp e -> bp_clock bp < UINT64_MAX ->
  (forall j f, bp_frames bp !! j = Some f -> f_pin f = 0) ->
  AcquireFrame bp e = (s, slot, bp', e') -> ok s = true.
Proof.
  intros I Hh Hb Hclk Hpins HA. destruct (ok s) eqn:Es; [done|]. exfalso.
  destruct (AcquireFrame_spec _ _ _ _ _ _ I HA) as (_ & _ & _ & Hslot).
  destruct slot as [i|]; [destruct Hslot; by subst|]. destruct Hslot as [_ Hsz].
  unfold AcquireFrame, evict_frame in HA. replace (pool_size bp <? bp_capacity bp) with false in HA by lia.
  destruct (victim_scan_spec 0 (bp_frames bp) None UINT64_MAX) as [[Hv Hall]|(j & f & Hv & _)]; rewrite Hv in HA.
  - pose proof (inv_capacity _ _ I). assert (pool_size bp = 0); [|lia].
    apply count_none. intros j f Hl. destruct (f_in_use f) eqn:Hu; [|done].
    destruct (inv_frames _ _ I _ _ Hl) as (_ & _ & Hf). destruct (Hf Hu) as (_ & _ & Ht & _).
    specialize (Hall j f Hl). unfold evictable in Hall. rewrite Hu, (Hpins j f Hl) in Hall.
    specialize (Hall eq_refl). lia.
  - simpl in HA. destruct (FlushFrame j bp e) as [[s1 bp1] e1] eqn:Ef.
    rewrite (FlushFrame_live _ _ _ _ _ _ I Hh Hb Ef) in HA. by injection HA as <- _ _ _.
Qed.

(** A fetch of a page that exists succeeds on such a pool. *)
Lemma Fetch_live id bp e s h bp' e' :
  pool_inv bp e -> env_healthy e -> backed bp e -> bp_clock bp < UINT64_MAX ->
  (forall j f, bp_frames bp !! j = Some f -> f_pin f = 0) ->
  0 <= id < kInvalidId -> is_Some (logical bp e id) ->
  Fetch true id bp e = (s, h, bp', e') -> ok s = true /\ bp_clock bp' = bp_clock bp + 1.
Proof.
  intros I Hh Hb Hclk Hpins Hid Hlog HF. unfold Fetch in HF.
  rewrite (inv_storage _ _ I) in HF. cbn [negb] in HF. replace (id =? kInvalidId) with false in HF by lia.
  pose proof (inv_clock _ _ I) as Hc0.
  assert (forall bp0 t bp1, bp_clock bp0 = bp_clock bp -> NextTimestamp bp0 = (t, bp1) ->
    bp_clock bp1 = bp_clock bp + 1) as Hnext.
  { intros bp0 t bp1 Hc. unfold NextTimestamp. rewrite Hc. replace (bp_clock bp =? UINT64_MAX) with false by lia.
    intros [= <- <-]. simpl. unfold UINT64_MAX in *. rewrite Hc. apply wrap_small. lia. }
  destruct (FindFrame id bp) as [i|] eqn:Ef.
  { destruct (NextTimestamp _) as [t bp1] eqn:En. injection HF as <- <- <- <-. split; [done|].
    cbn [bp_clock upd_frame with_frames]. eapply Hnext; [|exact En]. done. }
  assert (resident bp id = None) as Hres by (unfold resident; by rewrite Ef).
  destruct (env_read id e) as [[rs out] e1] eqn:Er.
  destruct (env_read_law _ _ _ _ _ (inv_env _ _ I) (proj1 Hid) Er) as (Hi1 & Hd1 & _).
  destruct (healthy_read _ _ _ _ _ (inv_env _ _ I) Hh (proj1 Hid) Er) as [Hh1 Hok].
  rewrite Hok in HF by (by apply Hb). cbn [negb] in HF.
  pose proof (inv_disk _ _ _ I Hi1 Hd1) as I1.
  destruct (AcquireFrame bp e1) as [[[s1 slot] bp1] e2] eqn:HA.
  assert (backed bp e1) as Hb1.
  { intros j. rewrite Hd1. intros Hj. apply Hb. unfold logical in *. by rewrite Hd1 in Hj. }
  pose proof (AcquireFrame_live _ _ _ _ _ _ I1 Hh1 Hb1 Hclk Hpins HA) as Hs1.
  destruct (AcquireFrame_spec _ _ _ _ _ _ I1 HA) as (_ & Hcl & _ & Hslot).
  destruct slot as [i|]; [|destruct Hslot; congruence].
  destruct (NextTimestamp _) as [t bp2] eqn:En. injection HF as <- <- <- <-. split; [done|].
  cbn [bp_clock upd_frame with_frames]. eapply Hnext; [|exact En]. apply Hcl.
Qed.
End Live.

(** ** The pool calls and assertions *)

Section OwnsLemmas.
Context {E : Type} `{PK : PoolKeeps E}.
Implicit Types (c : Z -> option (list Z)) (bp : BufferPool) (e : E) (held : option (nat * Z)).

Lemma owns_fetch b c id bp e s h bp' e' :
  owns b c None (bp, e) -> 0 <= id <= kInvalidId -> Fetch true id bp e = (s, h, bp', e') ->
  if ok s then exists i, h = Some i /\ owns (b - 1) c (Some (i, id)) (bp', e')
  else h = None /\ owns (-1) c None (bp', e') /\ (b < 1 \/ c id = None \/ id = kInvalidId).
Proof.
  intros [I Hlog Hbk _ Hgh Hcalm] Hid HF. cbn [fst snd] in *.
  pose proof (ghost_fetch _ _ _ _ _ _ _ I Hgh Hid HF) as Hgh'.
  destruct (Fetch_spec _ _ _ _ _ _ _ I Hid HF) as (I' & Hlog' & Hr).
  destruct (Fetch_device (0 <= b) _ _ _ _ _ _ _ I (fun Hb => calm_env _ _ _ _ (Hcalm Hb)) Hid HF) as [Hh' Hd'].
  assert (forall j, logical bp' e' j = c j) as Hl' by (intros; by rewrite Hlog').
  assert (forall j, is_Some (c j) <-> is_Some (disk e' j)) as Hbk' by (intros; by rewrite Hd').
  assert (1 <= b -> is_Some (c id) -> id <> kInvalidId -> ok s = true /\ bp_clock bp' = bp_clock bp + 1) as Hlive.
  { intros Hb Hc Hne. destruct (Hcalm ltac:(lia)) as [He Hk Hp].
    apply (Fetch_live id bp e s h bp' e'); [done|done| |lia|done|lia|by rewrite Hlog|done].
    intros j. rewrite Hlog. apply Hbk. }
  destruct h as [i|].
  - destruct Hr as (-> & bp1 & f' & Hcl & P & Hu & Hfid & Hlid & Hcase). simpl. exists i. split; [done|].
    assert (forall j f, bp_frames bp1 !! j = Some f -> exists g, bp_frames bp !! j = Some g /\ f_pin f = f_pin g)
      as Hpin1.
    { intros j f Hl. destruct (cleaned_lookup _ _ _ _ Hcl Hl) as (g & Hg & Hcf).
      exists g. split; [done|]. by destruct Hcf as [->| ->]. }
    split; cbn [fst snd]; try done.
    + intros j id' [= <- <-]. exists f'. split; [apply P|]. split_and!; [done..|].
      destruct Hcase as [(_ & f & Hl & _ & ->)|(_ & -> & _)]; [|lia]. simpl.
      destruct (inv_frames _ _ I _ _ Hl). lia.
    + intros Hb. destruct (Hcalm ltac:(lia)) as [He Hk Hp].
      destruct (Hlive ltac:(lia)) as [_ Hclk]; [rewrite <- Hlog, Hlid; by eexists| |].
      { intros ->. destruct (inv_frames _ _ I' _ _ (prom_at _ _ _ _ P)) as (_ & _ & Hf).
        by destruct (Hf Hu) as (_ & Hn & _). }
      split; [by apply Hh'; lia|lia|]. intros j f Hl. destruct (prom_lookup _ _ _ _ _ _ P Hl) as [[-> ->]|(Hj & g & t & Hg & ->)].
      * rewrite decide_True by done. destruct Hcase as [(_ & f & Hf & _ & ->)|(_ & -> & _)]; [|done]. simpl.
        rewrite (Hp _ _ Hf). by rewrite decide_False.
      * rewrite decide_False by (simpl; congruence). simpl. destruct (Hpin1 _ _ Hg) as (g' & Hg' & ->).
        rewrite (Hp _ _ Hg'). by rewrite decide_False.
  - destruct Hr as [Hs _]. rewrite Hs. split; [done|]. split; [by split|].
    destruct (decide (b < 1)); [by left|right]. destruct (decide (id = kInvalidId)); [by right|left].
    destruct (c id) eqn:Ec; [|done]. destruct Hlive as [? _]; [lia|by eexists|done|congruence].
Qed.

Lemma owns_unpin b c i id bp e :
  owns b c (Some (i, id)) (bp, e) -> owns b c None (UnpinFrame i bp, e).
Proof.
  intros [I Hlog Hbk Hheld Hgh Hcalm]. cbn [fst snd] in *.
  pose proof (ghost_unpin i _ _ Hgh) as Hgh'.
  destruct (Hheld i id eq_refl) as (f & Hl & Hu & _ & Hp).
  destruct (UnpinFrame_spec i bp e f I Hl Hp Hu) as (I' & Hsp & Hfs).
  split; cbn [fst snd]; try done.
  - intros j. rewrite <- Hlog. by apply logical_same.
  - intros Hb. destruct (Hcalm Hb) as [He Hk Hpin]. split; [done| |].
    + unfold UnpinFrame. rewrite Hl. by destruct (0 <? f_pin f).
    + intros j g. rewrite Hfs. pose proof (lookup_lt_Some _ _ _ Hl). rewrite (decide_False (P := _ <$> None = _)) by done.
      destruct (decide (j = i)) as [->|Hj].
      * rewrite list_lookup_insert_eq by done. intros [= <-]. simpl. rewrite (Hpin _ _ Hl). by rewrite decide_True.
      * rewrite list_lookup_insert_ne by done. intros Hg. rewrite (Hpin _ _ Hg). apply decide_False.
        simpl. congruence.
Qed.

Lemma owns_page b c i id bp e :
  owns b c (Some (i, id)) (bp, e) -> exists f, bp_frames bp !! i = Some f /\ page_id (f_page f) = id /\
    c id = Some (page_data (f_page f)) /\ page_ok (f_page f) /\ id <> kInvalidId.
Proof.
  intros [I Hlog _ Hheld _ _]. cbn [fst snd] in *. destruct (Hheld i id eq_refl) as (f & Hl & Hu & <- & _).
  exists f. destruct (inv_frames _ _ I _ _ Hl) as (_ & _ & Hf). destruct (Hf Hu) as (? & ? & _).
  split_and!; [done|done| |done..]. rewrite <- Hlog. unfold logical.
  by destruct (resident_at _ _ _ _ I Hl Hu) as [_ ->].
Qed.

Lemma owns_set_page b c i id p bp e :
  owns b c (Some (i, id)) (bp, e) -> page_id p = id -> page_dirty p = true ->
  buf_ok kPageSize (page_data p) ->
  owns b (upd_page c id (page_data p)) (Some (i, id)) (upd_frame i (set_page p) bp, e).
Proof.
  intros O Hid Hd Hb. destruct (owns_page _ _ _ _ _ _ O) as (f & Hl & Hfid & Hcid & _).
  destruct O as [I Hlog Hbk Hheld Hgh Hcalm]. cbn [fst snd] in *.
  pose proof (ghost_write i _ _ _ Hgh Hb) as Hgh'.
  destruct (Hheld i id eq_refl) as (f0 & Hl0 & Hu & _ & Hp). rewrite Hl in Hl0. injection Hl0 as <-.
  destruct (HandleWrite_spec i (page_data p) bp e f I Hl Hu Hb) as (I' & Hlog' & Hfs).
  assert (upd_frame i (set_page p) bp = HandleWrite i (page_data p) bp) as ->.
  { assert (bp_frames (upd_frame i (set_page p) bp) = bp_frames (HandleWrite i (page_data p) bp)) as Heq.
    { rewrite Hfs. simpl. rewrite (alter_insert _ _ _ _ Hl). f_equal. unfold set_page, MarkDirty, set_data. simpl.
      f_equal. destruct p as [pid pd pdata]. simpl in *. by subst. }
    unfold HandleWrite, HandleMarkDirty, upd_frame, with_frames in *. simpl in *. by rewrite Heq. }
  pose proof (lookup_lt_Some _ _ _ Hl) as Hlt. split; cbn [fst snd]; try done.
  - intros j. rewrite Hlog'. unfold upd_page. rewrite Hfid. case_decide; [done|apply Hlog].
  - intros j. unfold upd_page. case_decide; [subst|apply Hbk]. rewrite <- Hbk, Hcid. split; by eexists.
  - intros i' id' [= <- <-]. rewrite Hfs. eexists. split; [by apply list_lookup_insert_eq|]. by split_and!.
  - intros Hb0. destruct (Hcalm Hb0) as [He Hk Hpin]. split; [done|done|].
    intros j g. rewrite Hfs. destruct (decide (j = i)) as [->|Hj].
    + rewrite list_lookup_insert_eq by done. intros [= <-]. simpl. by apply (Hpin _ _ Hl).
    + rewrite list_lookup_insert_ne by done. apply Hpin.
Qed.

(** The environment changes under the pool, on pages that are not resident. *)
Lemma owns_env b c held bp e e' :
  owns b c held (bp, e) -> env_inv e' -> (forall j, is_Some (resident bp j) -> disk e' j = disk e j) ->
  (forall j, is_Some (c j) -> is_Some (disk e' j)) -> (0 <= b -> env_healthy e') -> ghost bp e' ->
  owns b (fun j => match resident bp j with Some _ => c j | None => disk e' j end) held (bp, e').
Proof.
  intros [I Hlog Hbk Hheld Hgh Hcalm] He' Hres Hkeep Hh Hgh'. cbn [fst snd] in *. split; cbn [fst snd]; try done.
  - eapply inv_env_change; [done..|]. intros i f Hl.
    destruct (inv_frames _ _ I _ _ Hl) as (H1' & H2' & H3'). split_and!; [done..|].
    intros Hu. destruct (H3' Hu) as (? & ? & ? & Hd). split_and!; [done..|lia|lia|].
    intros Hc. rewrite Hres; [by apply Hd|]. destruct (resident_at _ _ _ _ I Hl Hu) as [_ ->]. by eexists.
  - intros j. rewrite <- Hlog. unfold logical. by destruct (resident bp j).
  - intros j. rewrite <- Hlog. unfold logical. destruct (resident bp j) eqn:Ej; [|done].
    split; [|by eexists]. intros _. apply Hkeep. rewrite <- Hlog. unfold logical. rewrite Ej. by eexists.
  - intros Hb. destruct (Hcalm Hb). by split; [apply Hh| |].
Qed.

Lemma owns_ext b c c' held d : (forall j, c' j = c j) -> owns b c held d -> owns b c' held d.
Proof.
  intros Hc [I Hlog Hbk Hheld Hgh Hcalm]. split; try done; intros j; rewrite Hc; [apply Hlog|apply Hbk].
Qed.

(** The environment only looked at its pages. *)
Lemma owns_look b c held bp e e' :
  owns b c held (bp, e) -> env_inv e' -> (forall j, disk e' j = disk e j) ->
  (0 <= b -> env_healthy e') -> ghost bp e' -> owns b c held (bp, e').
Proof.
  intros O He' Hd Hh Hgh. eapply owns_ext, owns_env; [|exact O|done|by auto| |done|done].
  - intros j. simpl. rewrite Hd, <- (own_logical _ _ _ _ O). unfold logical. cbn [fst snd].
    by destruct (resident bp j).
  - intros j. rewrite Hd. apply (own_backed _ _ _ _ O).
Qed.

Lemma owns_weaken b b' c held d : (0 <= b' -> b' <= b) -> owns b c held d -> owns b' c held d.
Proof.
  intros Hb [I Hlog Hbk Hheld Hgh Hcalm]. split; [done..|]. intros H0'. destruct (Hcalm ltac:(lia)) as [? ? ?].
  split; [done|lia|done].
Qed.

(** A new page: it is not resident. *)
Lemma owns_alloc b c held bp e s out e' :
  owns b c held (bp, e) -> env_alloc e = (s, out, e') ->
  if ok s then exists id, out = Some (PageOf id) /\ 0 <= id < kInvalidId /\ c id = None /\
    resident bp id = None /\ owns b (upd_page c id zero_data) held (bp, e')
  else (exists c', owns (-1) c' held (bp, e') /\ only_changes (fun _ => False) c c') /\
    (b < 0 \/ forall id, 0 <= id < kInvalidId -> is_Some (c id)).
Proof.
  intros O Ha. pose proof O as [I Hlog Hbk Hheld Hgh Hcalm]. cbn [fst snd] in *.
  pose proof (ghost_alloc _ _ _ _ _ (inv_env _ _ I) Hgh Ha) as Hgh'.
  destruct (alloc_law _ _ _ _ (inv_env _ _ I) Ha) as (He' & Hold & Hnew).
  assert (forall j, is_Some (resident bp j) -> disk e' j = disk e j) as Hres.
  { intros j Hj. apply Hold, Hbk. rewrite <- Hlog. unfold logical. destruct (resident bp j); [by eexists|by destruct Hj]. }
  assert (forall j, is_Some (c j) -> is_Some (disk e' j)) as Hkeep.
  { intros j Hj. rewrite Hold; by apply Hbk. }
  destruct (ok s) eqn:Es.
  - destruct (Hnew eq_refl) as (id & -> & Hid & Hnone & Hd').
    assert (c id = None) as Hc.
    { destruct (c id) eqn:Ec; [|done]. destruct (proj1 (Hbk id) ltac:(by eexists)). congruence. }
    assert (resident bp id = None) as Hr.
    { rewrite <- Hlog in Hc. unfold logical in Hc. by destruct (resident bp id). }
    exists id. split_and!; [done|lia|lia|done|done|].
    eapply owns_ext, owns_env; [|exact O|done|done|done| |done].
    + intros j. simpl. unfold upd_page. case_decide as Hj; [subst; by rewrite Hr, Hd', Z.eqb_refl|].
      rewrite Hd', <- Hlog. unfold logical. replace (j =? id) with false by lia. by destruct (resident bp j).
    + intros Hb. destruct (Hcalm Hb) as [Hh _ _].
      refine (proj1 (healthy_alloc _ _ _ _ (inv_env _ _ I) Hh Ha _)). by exists id.
  - split.
    + eexists. split; [eapply owns_env; [by eapply (owns_weaken b (-1))|done..|lia|done]|].
      intros j Hj _. simpl. destruct (resident bp j) eqn:Er; [done|].
      rewrite Hold by (by apply Hbk). rewrite <- Hlog. unfold logical. by rewrite Er.
    + destruct (decide (b < 0)); [by left|right]. intros id Hid. apply Hbk.
      destruct (disk e id) eqn:Ed; [by eexists|]. destruct (Hcalm ltac:(lia)) as [Hh _ _].
      destruct (healthy_alloc _ _ _ _ (inv_env _ _ I) Hh Ha) as [_ ?]; [by exists id|congruence].
Qed.

(** Writing a page that is not resident straight to the device. *)
Lemma owns_write b c held bp e p s e' :
  owns b c held (bp, e) -> page_ok p -> resident bp (page_id p) = None ->
  is_Some (c (page_id p)) -> env_write p e = (s, e') -> ghost bp e' ->
  if ok s then owns b (upd_page c (page_id p) (page_data p)) held (bp, e')
  else b < 0 /\ exists c', owns (-1) c' held (bp, e') /\ only_changes (fun j => j = page_id p) c c'.
Proof.
  intros O Hp Hr Hc Hw Hgh'. pose proof O as [I Hlog Hbk Hheld _ Hcalm]. cbn [fst snd] in *.
  destruct (env_write_law _ _ _ _ (inv_env _ _ I) Hp Hw) as (He' & Hold & Hnew).
  pose proof (write_same_pages _ _ _ _ (inv_env _ _ I) Hp Hw) as Hsame.
  assert (forall j, is_Some (resident bp j) -> disk e' j = disk e j) as Hres.
  { intros j Hj. apply Hold. intros ->. rewrite Hr in Hj. by destruct Hj. }
  assert (forall j, is_Some (c j) -> is_Some (disk e' j)) as Hkeep by (intros j; by rewrite Hsame, Hbk).
  assert (forall b', owns b' c held (bp, e) -> (0 <= b' -> env_healthy e') ->
    owns b' (fun j => match resident bp j with Some _ => c j | None => disk e' j end) held (bp, e')) as Hgo.
  { intros b' O' Hh. by eapply owns_env. }
  assert (0 <= b -> env_healthy e' /\ ok s = true) as Hlive.
  { intros Hb. destruct (Hcalm Hb) as [Hh _ _].
    destruct (healthy_write _ _ _ _ (inv_env _ _ I) Hh Hp Hw) as [Hh' Hok]. split; [done|]. by apply Hok, Hbk. }
  destruct (ok s) eqn:Es.
  - eapply owns_ext; [|apply (Hgo b O); by apply Hlive]. intros j. simpl. unfold upd_page.
    case_decide as Hj; [subst; by rewrite Hr, Hnew|].
    rewrite <- Hlog. unfold logical. rewrite Hold by done. by destruct (resident bp j).
  - split; [destruct (decide (b < 0)); [done|]; by destruct (Hlive ltac:(lia))|].
    eexists. split; [apply (Hgo (-1)); [by eapply owns_weaken; [|exact O]|lia]|].
    intros j Hj Hne. simpl. rewrite Hold by done. rewrite <- Hlog. unfold logical. by destruct (resident bp j).
Qed.

Lemma owns_num b c held bp e s n e' :
  owns b c held (bp, e) -> env_num_pages e = (s, n, e') ->
  owns (if ok s then b else -1) c held (bp, e') /\
  if ok s then 0 <= n <= kInvalidId /\ (forall id, is_Some (c id) <-> 0 <= id < n) else b < 0.
Proof.
  intros O HN. pose proof O as [I Hlog Hbk Hheld Hgh Hcalm]. cbn [fst snd] in *.
  pose proof (ghost_num _ _ _ _ _ (inv_env _ _ I) Hgh HN) as Hgh'.
  destruct (num_law _ _ _ _ (inv_env _ _ I) HN) as (He' & Hd & Hn).
  assert (0 <= b -> env_healthy e' /\ ok s = true) as Hlive.
  { intros Hb. destruct (Hcalm Hb) as [Hh _ _]. by eapply healthy_num; [apply I| |exact HN]. }
  destruct (ok s) eqn:Es.
  - split; [by eapply owns_look; [exact O|..|apply Hlive|]|]. destruct (Hn eq_refl) as [? Hiff]. split; [done|].
    intros id. by rewrite Hbk.
  - assert (b < 0) by (destruct (decide (b < 0)); [done|]; by destruct (Hlive ltac:(lia))).
    split; [|done]. eapply owns_look; [by eapply owns_weaken; [|exact O]|done|done|lia|done].
Qed.

Lemma owns_exists b c held bp e id r e' :
  owns b c held (bp, e) -> 0 <= id -> env_exists id e = (r, e') ->
  owns b c held (bp, e') /\ (r = true -> is_Some (c id)) /\ (0 <= b -> is_Some (c id) -> r = true).
Proof.
  intros O Hid HE. pose proof O as [I Hlog Hbk Hheld Hgh Hcalm]. cbn [fst snd] in *.
  pose proof (ghost_exists _ _ _ _ _ (inv_env _ _ I) Hgh Hid HE) as Hgh'.
  destruct (exists_law _ _ _ _ (inv_env _ _ I) Hid HE) as (He' & Hd & Hr).
  assert (0 <= b -> env_healthy e' /\ (is_Some (disk e id) -> r = true)) as Hlive.
  { intros Hb. destruct (Hcalm Hb) as [Hh _ _]. by eapply healthy_exists; [apply I| | |exact HE]. }
  split_and!.
  - by eapply owns_look; [exact O|..|apply Hlive|].
  - intros ->. by apply Hbk, Hr.
  - intros Hb Hc. by apply Hlive, Hbk.
Qed.
End OwnsLemmas.

(** ** Rules *)

Section Rules.
Context {E T : Type} `{PK : PoolKeeps E}.
Implicit Types (c : Z -> option (list Z)) (d : db E) (held : option (nat * Z)) (t : T).

(** [m] ends, inside its buffers, in a result and state satisfying [Q]. *)
Definition wp {A} (m : Code E T A) (Q : Status + A -> T -> db E -> Prop) (t : T) (d : db E) : Prop :=
  exists r t' d', m (t, d) = Some (r, (t', d')) /\ Q r t' d'.

Lemma wpc_ret {A} (x : A) Q t d : Q (inr x) t d -> wp (mret x) Q t d.
Proof. intros HQ. by exists (inr x), t, d. Qed.

Lemma wp_throw {A} s Q t d : Q (inl s) t d -> wp (throw (A := A) s) Q t d.
Proof. intros HQ. by exists (inl s), t, d. Qed.

Lemma wpc_bind {A B} (m : Code E T A) (k : A -> Code E T B) Q t d :
  wp m (fun r t d => match r with inl s => Q (inl s) t d | inr x => wp (k x) Q t d end) t d ->
  wp (m ≫= k) Q t d.
Proof.
  intros (r & t' & d' & Hm & HQ). unfold wp, mbind, Code_bind. rewrite Hm. simpl.
  destruct r as [s|x]; [|done]. by exists (inl s), t', d'.
Qed.

Lemma wpc_mono {A} (m : Code E T A) (Q Q' : Status + A -> T -> db E -> Prop) t d :
  wp m Q t d -> (forall r t d, Q r t d -> Q' r t d) -> wp m Q' t d.
Proof. intros (r & t' & d' & Hm & HQ) HQ'. exists r, t', d'. auto. Qed.

Lemma wp_check s Q t d :
  (ok s = false -> Q (inl s) t d) -> (ok s = true -> Q (inr tt) t d) -> wp (check s) Q t d.
Proof. intros Hn Hy. unfold check. destruct (ok s); simpl; [by apply wpc_ret, Hy|by apply wp_throw, Hn]. Qed.

Lemma wp_attempt {A} (m : Code E T A) Q t d :
  wp m (fun r => Q (inr r)) t d -> wp (attempt m) Q t d.
Proof. intros (r & t' & d' & Hm & HQ). exists (inr r), t', d'. unfold attempt. by rewrite Hm. Qed.

Lemma wp_access {A} (o : option A) x Q t d : o = Some x -> Q (inr x) t d -> wp (access o) Q t d.
Proof. intros -> HQ. by exists (inr x), t, d. Qed.

Lemma wp_members Q t d : Q (inr t) t d -> wp members Q t d.
Proof. intros HQ. by exists (inr t), t, d. Qed.

Lemma wp_update f Q t d : Q (inr tt) (f t) d -> wp (update f) Q t d.
Proof. intros HQ. by exists (inr tt), (f t), d. Qed.

(** Inside a scope with a handle on page [id]. *)
Lemma wp_handle {A} b c id (body : nat -> Code E T A) Q t d :
  owns b c None d -> 0 <= id <= kInvalidId ->
  (forall s d', ok s = false -> b < 1 \/ c id = None \/ id = kInvalidId -> owns (-1) c None d' -> Q (inl s) t d') ->
  (forall i d', owns (b - 1) c (Some (i, id)) d' ->
     wp (body i) (fun r t' d' => exists b' c', owns b' c' (Some (i, id)) d' /\
       forall d', owns b' c' None d' -> Q r t' d') t d') ->
  wp (with_handle id body) Q t d.
Proof.
  destruct d as [bp e]. intros O Hid Hbad Hbody. unfold wp, with_handle.
  destruct (Fetch true id bp e) as [[[s h] bp'] e'] eqn:HF. pose proof (owns_fetch _ _ _ _ _ _ _ _ _ O Hid HF) as Hr.
  destruct (ok s) eqn:Es; cbn [negb].
  - destruct Hr as (i & -> & O'). destruct (Hbody i (bp', e') O') as (r & t' & [bp2 e2] & Hm & b' & c' & O2 & HQ).
    eexists _, _, _. split; [cbn; by rewrite Hm|]. by eapply HQ, owns_unpin.
  - destruct Hr as (-> & O' & Hwhy). eexists _, _, _. split; [done|]. by eapply Hbad.
Qed.

(** The page behind handle [i]. *)
Definition page_at d (i : nat) : option Page := f_page <$> bp_frames (fst d) !! i.

Lemma wp_handle_page b c i id Q t d :
  owns b c (Some (i, id)) d ->
  (forall p, page_at d i = Some p -> page_id p = id -> c id = Some (page_data p) ->
     buf_ok kPageSize (page_data p) -> Q (inr p) t d) ->
  wp (handle_page i) Q t d.
Proof.
  destruct d as [bp e]. intros O HQ. destruct (owns_page _ _ _ _ _ _ O) as (f & Hl & Hid & Hc & (? & ? & _) & _).
  exists (inr (f_page f)), t, (bp, e). unfold handle_page. rewrite Hl. split; [done|].
  apply HQ; [|done..]. unfold page_at. simpl. by rewrite Hl.
Qed.

Lemma wp_set_handle_page b c i id p Q t d :
  owns b c (Some (i, id)) d -> page_id p = id -> page_dirty p = true -> buf_ok kPageSize (page_data p) ->
  (forall d', owns b (upd_page c id (page_data p)) (Some (i, id)) d' -> Q (inr tt) t d') ->
  wp (set_handle_page i p) Q t d.
Proof.
  destruct d as [bp e]. intros O Hid Hd Hb HQ. eexists (inr tt), t, _. split; [done|].
  by apply HQ, owns_set_page.
Qed.

(** Leaving the page as it is. *)
Lemma wp_set_handle_same b c i id p Q t d :
  owns b c (Some (i, id)) d -> page_at d i = Some p -> Q (inr tt) t d -> wp (set_handle_page i p) Q t d.
Proof.
  destruct d as [bp e]. intros O Hp HQ. exists (inr tt), t, (bp, e). split; [|done]. unfold set_handle_page.
  do 4 f_equal. unfold page_at in Hp. simpl in Hp. apply fmap_Some in Hp as (f & Hl & ->).
  unfold upd_frame. rewrite (alter_insert _ _ _ _ Hl), list_insert_id by (rewrite Hl; by destruct f).
  by destruct bp.
Qed.

(** Allocating a page, preparing it in memory and writing it out. *)
Lemma wp_alloc_write {A} b c (k : Page -> Code E T A) prep p' Q t d :
  owns b c None d -> (forall id, 0 <= id < kInvalidId -> prep (PageOf id) = Some (p' id)) ->
  (forall s d' c', ok s = false -> b < 0 \/ (forall id, 0 <= id < kInvalidId -> is_Some (c id)) ->
     owns (-1) c' None d' -> only_changes (fun _ => False) c c' -> Q (inl s) t d') ->
  (forall id, page_id (p' id) = id) -> (forall id, 0 <= id < kInvalidId -> page_ok (p' id)) ->
  (forall id d', 0 <= id < kInvalidId -> c id = None ->
     owns b (upd_page c id (page_data (p' id))) None d' -> wp (k (p' id)) Q t d') ->
  wp (p ← storage_AllocatePage; q ← access (prep p); storage_WritePage q ;; k q) Q t d.
Proof.
  destruct d as [bp e]. intros O Hprep Hbad Hpid Hpok Hk. apply wpc_bind. unfold wp at 1, storage_AllocatePage.
  destruct (env_alloc e) as [[s out] e1] eqn:Ha. pose proof (owns_alloc _ _ _ _ _ _ _ _ O Ha) as Hr.
  eexists _, _, _. split; [done|]. destruct (ok s) eqn:Es; cbn [negb].
  2: { destruct Hr as ((c' & O' & Hc') & Hwhy). by eapply Hbad. }
  destruct Hr as (id & -> & Hid & Hc & Hr & O1).
  change (default PageDefault (Some (PageOf id))) with (PageOf id).
  apply wpc_bind. eapply wp_access; [by apply Hprep|]. apply wpc_bind. unfold wp at 1, storage_WritePage.
  destruct (env_write (p' id) e1) as [s2 e2] eqn:Hw.
  assert (upd_page c id zero_data id = Some zero_data) as Hz by (unfold upd_page; by rewrite decide_True).
  pose proof (owns_write _ _ _ _ _ (p' id) s2 e2 O1 (Hpok id Hid)) as Hr2. rewrite Hpid in Hr2.
  specialize (Hr2 Hr ltac:(rewrite Hz; by eexists) Hw).
  specialize (Hr2 (ghost_init _ _ _ (p' id) _ _ _ (inv_env _ _ (own_inv _ _ _ _ O)) (own_ghost _ _ _ _ O)
    ltac:(by rewrite Hpid) Es (Hpok id Hid) Hw)).
  eexists _, _, _. split; [done|]. destruct (ok s2) eqn:Es2; cbn [negb].
  - apply (Hk id); [done|done|]. eapply owns_ext; [|exact Hr2]. intros j. unfold upd_page. by case_decide.
  - destruct Hr2 as (Hb & c' & O' & Hc'). eapply Hbad; [done|by left|done|].
    intros j [x Hj] _. rewrite Hc'; [unfold upd_page; by rewrite decide_False by congruence| |congruence].
    unfold upd_page. rewrite decide_False by congruence. by eexists.
Qed.

Lemma wp_num_pages b c held Q t d :
  owns b c held d ->
  (forall s d', ok s = false -> b < 0 -> owns (-1) c held d' -> Q (inl s) t d') ->
  (forall n d', owns b c held d' -> 0 <= n <= kInvalidId -> (forall id, is_Some (c id) <-> 0 <= id < n) ->
     Q (inr n) t d') ->
  wp storage_NumPages Q t d.
Proof.
  destruct d as [bp e]. intros O Hbad Hk. unfold wp, storage_NumPages.
  destruct (env_num_pages e) as [[s n] e'] eqn:HN. destruct (owns_num _ _ _ _ _ _ _ _ O HN) as [O' Hr].
  eexists _, _, _. split; [done|]. destruct (ok s) eqn:Es; cbn [negb]; [|by apply Hbad].
  destruct Hr. by apply Hk.
Qed.

Lemma wp_exists b c held id Q t d :
  owns b c held d -> 0 <= id ->
  (forall r d', owns b c held d' -> (r = true -> is_Some (c id)) -> (0 <= b -> is_Some (c id) -> r = true) ->
     Q (inr r) t d') ->
  wp (storage_PageExists id) Q t d.
Proof.
  destruct d as [bp e]. intros O Hid Hk. unfold wp, storage_PageExists.
  destruct (env_exists id e) as [r e'] eqn:HE. destruct (owns_exists _ _ _ _ _ _ _ _ O Hid HE) as (O' & ? & ?).
  eexists _, _, _. split; [done|]. by apply Hk.
Qed.

Lemma wpc_call {A} (f : db E -> option (A * db E)) x Q t d d' :
  f d = Some (x, d') -> Q (inr x) t d' -> wp (call f) Q t d.
Proof. intros Hf HQ. exists (inr x), t, d'. unfold call. by rewrite Hf. Qed.
End Rules.

Lemma wp_object {E T U A} (u : U) (m : Code E U A) Q (t : T) (d : db E) :
  wp m (fun r _ d' => Q r t d') u d -> wp (with_object u m) Q t d.
Proof. intros (r & u' & d' & Hm & HQ). exists r, t, d'. unfold with_object. by rewrite Hm. Qed.

Lemma wp_member {E T U A} (get : T -> U) set (m : Code E U A) Q (t : T) (d : db E) :
  wp m (fun r u d' => Q r (set u t) d') (get t) d -> wp (on_member get set m) Q t d.
Proof. intros (r & u' & d' & Hm & HQ). eexists r, _, d'. unfold on_member. by rewrite Hm. Qed.
