(* ===== verification/PageChain.v ===== *)
(** * Chains of pages

    The directory of a heap table and the catalog keep their lists the same way:
    pages with a fixed header, each with some items and the id of the next one,
    walked from a root page under a counter.  This file has the relation between
    such a chain and the page contents, for any page format [linked], the walk,
    and what extending a chain does. *)

From S2P Require Import Prelude Bytes Common PageStorage BufferPool BufferPoolSpec PageAccess.

(** Execute one step of a method. *)
Ltac wp_step :=
  lazymatch goal with
  | |- wp (mbind _ _) _ _ _ => apply wpc_bind
  | |- wp (mret _) _ _ _ => apply wpc_ret
  | |- wp (throw _) _ _ _ => apply wp_throw
  | |- wp members _ _ _ => apply wp_members
  | |- wp (update _) _ _ _ => apply wp_update
  | |- wp (attempt _) _ _ _ => apply wp_attempt
  end; cbn beta iota.

(** ** Page headers *)

(** The four bytes of the magic number. *)
Lemma read_magic d :
  buf_ok kPageSize d ->
  exists m0 m1 m2 m3, at_ d (0 + 0) = Some m0 /\ at_ d (0 + 1) = Some m1 /\ at_ d (0 + 2) = Some m2 /\
    at_ d (0 + 3) = Some m3 /\ sub d 0 4 = [m0; m1; m2; m3].
Proof.
  intros [Hl _]. unfold kPageSize in Hl.
  destruct (at_in d (0 + 0)) as (m0 & E0 & _); [lia|]. destruct (at_in d (0 + 1)) as (m1 & E1 & _); [lia|].
  destruct (at_in d (0 + 2)) as (m2 & E2 & _); [lia|]. destruct (at_in d (0 + 3)) as (m3 & E3 & _); [lia|].
  exists m0, m1, m2, m3. split_and!; [done..|].
  by rewrite (sub_cons d 0 4 m0), (sub_cons d (0 + 1) (4 - 1) m1),
    (sub_cons d (0 + 1 + 1) (4 - 1 - 1) m2), (sub_cons d (0 + 1 + 1 + 1) (4 - 1 - 1 - 1) m3) by (done || lia).
Qed.

(** Clearing a page. *)
Lemma memset_page d :
  zlen d = kPageSize -> exists d', memset d 0 0 kPageSize = Some d' /\ buf_ok kPageSize d'.
Proof.
  intros Hl. rewrite memset_in by (unfold kPageSize in *; lia). eexists. split; [done|]. unfold splice.
  rewrite length_replicate. change (Z.to_nat 0) with 0%nat.
  rewrite Nat.add_0_l, take_0, app_nil_l, drop_ge by (unfold zlen in Hl; lia). rewrite app_nil_r.
  split; [by apply zlen_replicate|apply bytes_ok_replicate; unfold byte_ok; lia].
Qed.

(** Step over a checked write; [side] proves that it is inside the page. *)
Ltac put_step side :=
  rewrite ?WriteU16_put, ?WriteU32_put;
  match goal with
  | B : buf_ok kPageSize ?d |- context [put ?d ?off ?src] =>
      let d' := fresh "d" in let E := fresh "E" in
      let W := fresh "W" in let B' := fresh "B" in
      destruct (put_wr kPageSize d off src B) as (d' & E & W & B');
      [side|side|first [by auto with nexus|constructor; [unfold byte_ok; done|constructor]]
      |rewrite E; clear E; cbn [mbind option_bind fmap option_fmap option_map]]
  end.

(** The magic number after its four bytes have been written. *)
Ltac read_magic_back side :=
  rewrite (sub_app_split _ 0 1 3), (sub_app_split _ (0 + 1) 1 2), (sub_app_split _ (0 + 1 + 1) 1 1) by lia;
  chase side; done.

(** ** Page contents *)

Section Contents.
Implicit Types (c : Z -> option (list Z)).

Lemma upd_page_other c id d j : j <> id -> upd_page c id d j = c j.
Proof. intros. unfold upd_page. by rewrite decide_False. Qed.

Lemma upd_page_same c id d : upd_page c id d id = Some d.
Proof. unfold upd_page. by rewrite decide_True. Qed.

Lemma upd_page_new c id d j : c id = None -> is_Some (c j) -> upd_page c id d j = c j.
Proof. intros Hn [x Hj]. apply upd_page_other. congruence. Qed.

Lemma upd_page_twice c id d d' j : upd_page (upd_page c id d) id d' j = upd_page c id d' j.
Proof. unfold upd_page. by case_decide. Qed.

(** Every page id is taken. *)
Definition device_full c : Prop := forall id, 0 <= id < kInvalidId -> is_Some (c id).

(** A page id, or two, are free below the last three. *)
Definition some_room c : Prop := exists x, 0 <= x <= kInvalidId - 3 /\ c x = None.
Definition has_room c : Prop :=
  exists i j, i <> j /\ 0 <= i <= kInvalidId - 3 /\ 0 <= j <= kInvalidId - 3 /\ c i = None /\ c j = None.

Lemma has_some_room c : has_room c -> some_room c.
Proof. intros (i & _ & _ & Hi & _ & Hn & _). by exists i. Qed.

Lemma full_no_room c : device_full c -> ~ has_room c.
Proof. intros Hf (i & _ & _ & Hi & _ & Hn & _). destruct (Hf i ltac:(lia)). congruence. Qed.

(** One more page leaves room for one. *)
Lemma upd_some_room c id dt : has_room c -> some_room (upd_page c id dt).
Proof.
  intros (i & j & Hne & Hi & Hj & Hci & Hcj).
  destruct (decide (i = id)) as [->|Hx]; [exists j|exists i]; by rewrite upd_page_other by done.
Qed.

Lemma full_some_room c : device_full c -> ~ some_room c.
Proof. intros Hf (i & Hi & Hn). destruct (Hf i ltac:(lia)). congruence. Qed.

Lemma full_upd_no_room c id dt : device_full (upd_page c id dt) -> ~ has_room c.
Proof. intros Hf%full_some_room Hr. by apply Hf, upd_some_room. Qed.
End Contents.

(** A duplicate-free list of ids below [n] has at most [n] elements. *)
Lemma NoDup_below (l : list Z) n : NoDup l -> (forall x, x ∈ l -> 0 <= x < n) -> zlen l <= Z.max 0 n.
Proof.
  intros Hnd Hin. assert (l ⊆+ seqZ 0 n) as Hs%submseteq_length.
  { apply NoDup_submseteq; [done|]. intros x Hx%Hin. apply elem_of_seqZ. lia. }
  rewrite length_seqZ in Hs. unfold zlen. lia.
Qed.

(** ** Chains *)

Section Chain.
Context {B : Type} (linked : list Z -> list B -> Z -> Prop).
Implicit Types (c : Z -> option (list Z)) (pages : list (Z * list B)).

(** The page that a list of pages starts with, or [stop]. *)
Definition head_of pages (stop : Z) : Z :=
  match pages with [] => stop | (p, _) :: _ => p end.

(** [pages] are there with the items each has, linked in order. *)
Fixpoint chain c pages (stop : Z) : Prop :=
  match pages with
  | [] => True
  | (p, items) :: pages => (exists d, c p = Some d /\ linked d items (head_of pages stop)) /\ chain c pages stop
  end.

Lemma head_of_app a b stop : head_of (a ++ b) stop = head_of a (head_of b stop).
Proof. by destruct a as [|[]]. Qed.

Lemma chain_app c a b stop : chain c (a ++ b) stop <-> chain c a (head_of b stop) /\ chain c b stop.
Proof. induction a as [|[p ids] a IH]; simpl; [tauto|]. rewrite IH, head_of_app. tauto. Qed.

Lemma chain_agree c c' pages stop :
  (forall p, p ∈ fst <$> pages -> c' p = c p) -> chain c pages stop -> chain c' pages stop.
Proof.
  induction pages as [|[p ids] pages IH]; simpl; [done|]. intros Hc [Hd Hr]. split.
  - rewrite Hc; [done|]. by apply elem_of_cons; left.
  - apply IH; [|done]. intros q Hq. apply Hc. by apply elem_of_cons; right.
Qed.

Lemma chain_page c pages stop p : chain c pages stop -> p ∈ fst <$> pages -> is_Some (c p).
Proof.
  induction pages as [|[q ids] pages IH]; simpl; [by intros _ ?%elem_of_nil|].
  intros [(d & Hd & _) Hr] [->|Hp]%elem_of_cons; [by exists d|by apply IH].
Qed.

Lemma head_of_in pages stop : pages <> [] -> head_of pages stop ∈ fst <$> pages.
Proof. destruct pages as [|[p items] pages]; [done|]. intros _. simpl. apply elem_of_cons. by left. Qed.

Lemma fst_snoc (init : list (Z * list B)) p items : fst <$> (init ++ [(p, items)]) = (fst <$> init) ++ [p].
Proof. by rewrite fmap_app. Qed.

(** Rewriting the last page of a chain. *)
Lemma chain_last c init p items items' dp stop :
  chain c (init ++ [(p, items)]) stop -> NoDup (fst <$> (init ++ [(p, items)])) -> linked dp items' stop ->
  chain (upd_page c p dp) (init ++ [(p, items')]) stop.
Proof.
  rewrite fst_snoc. intros [Hci _]%chain_app (_ & Hn & _)%NoDup_app D. apply chain_app. split.
  - eapply chain_agree; [|exact Hci]. intros q Hq. apply upd_page_other. intros ->.
    apply (Hn p Hq). by apply list_elem_of_singleton.
  - split; [|done]. exists dp. split; [apply upd_page_same|done].
Qed.

(** Linking a page behind the last one. *)
Lemma chain_link c init p items n dn dp stop :
  chain c (init ++ [(p, items)]) stop -> NoDup (fst <$> (init ++ [(p, items)])) -> n <> p ->
  linked dp items n -> c n = Some dn -> linked dn [] stop ->
  chain (upd_page c p dp) ((init ++ [(p, items)]) ++ [(n, [])]) stop.
Proof.
  rewrite fst_snoc. intros [Hci _]%chain_app (_ & Hn & _)%NoDup_app Hne D Hc Dn. rewrite <- app_assoc. apply chain_app. split.
  - eapply chain_agree; [|exact Hci]. intros q Hq. apply upd_page_other. intros ->.
    apply (Hn p Hq). by apply list_elem_of_singleton.
  - split; [exists dp; split; [apply upd_page_same|done]|]. split; [|done].
    exists dn. split; [by rewrite upd_page_other|done].
Qed.

(** A page says what is on it. *)
Context (linked_inj : forall d items next items' next',
  linked d items next -> linked d items' next' -> items' = items /\ next' = next).

Lemma chain_inj c pages pages' :
  chain c pages kInvalidId -> chain c pages' kInvalidId -> kInvalidId ∉ fst <$> pages -> kInvalidId ∉ fst <$> pages' ->
  head_of pages kInvalidId = head_of pages' kInvalidId -> pages = pages'.
Proof.
  revert pages'. induction pages as [|[p ids] pages IH]; intros [|[q ids'] pages'] Hc Hc' Hn Hn' Hh; [done|..].
  - simpl in *. subst. destruct Hn'. apply elem_of_cons. by left.
  - simpl in *. subst. destruct Hn. apply elem_of_cons. by left.
  - simpl in *. subst q. destruct Hc as [(d & Hd & D) Hc], Hc' as [(d' & Hd' & D') Hc'].
    assert (d' = d) as -> by congruence. destruct (linked_inj _ _ _ _ _ D D') as [-> Hh].
    apply not_elem_of_cons in Hn as [_ Hn], Hn' as [_ Hn']. by rewrite (IH pages').
Qed.
End Chain.

(** ** Walking a chain *)

Section WalkCode.
Context {E T : Type} `{PageEnv E} `{!PageAlloc E}.

(** [for (;;) { if (walked++ > max_walk) return ...; ... }] over the pages from
    [page]; [visit] does one page and says which is next.  The counter stops the
    loop after [max_walk + 1] pages; with fuel [max_walk + 2] the fuel runs out
    only when [max_walk] is the largest 32-bit integer, for which the source's
    loop need not end either. *)
Fixpoint walk {A} (cyclic : Status) (visit : Z -> Z -> A -> Code E T (option Z * A))
    (fuel : nat) (max_walk walked page prev : Z) (acc : A) : Code E T A :=
  match fuel with
  | O => access None
  | S fuel =>
      if max_walk <? walked then throw cyclic else
      '(next, acc) ← visit page prev acc;
      match next with
      | None => mret acc
      | Some next => walk cyclic visit fuel max_walk (u32 (walked + 1)) next page acc
      end
  end.
End WalkCode.

(** The chains a walk accepts: [good acc prev page items next] says that the page
    is as the loop wants it after [prev], with [acc] loaded from the pages before. *)

Section Good.
Context {A B : Type} (good : A -> Z -> Z -> list B -> Z -> Prop) (loadA : A -> Z * list B -> A).
Implicit Types (acc : A) (pages : list (Z * list B)).

Fixpoint good_chain acc (prev : Z) pages : Prop :=
  match pages with
  | [] => True
  | (p, items) :: pages =>
      good acc prev p items (head_of pages kInvalidId) /\ good_chain (loadA acc (p, items)) p pages
  end.
End Good.

(** Both loops want a page in their format [linked] whose items satisfy [P], and
    a link that goes neither to the page itself nor back. *)
Section GoodPage.
Context {A B : Type} (linked : list Z -> list B -> Z -> Prop) (P : A -> list B -> Prop) (loadA : A -> Z * list B -> A).
Context (c : Z -> option (list Z)).
Implicit Types (acc : A) (pages : list (Z * list B)).

Definition good_page acc (prev page : Z) (items : list B) (next : Z) : Prop :=
  exists dt, c page = Some dt /\ linked dt items next /\ P acc items /\
    (next = kInvalidId \/ next <> page /\ next <> prev).

Lemma good_page_inj :
  (forall d items next items' next', linked d items next -> linked d items' next' -> items' = items /\ next' = next) ->
  forall acc prev page items next items' next',
  good_page acc prev page items next -> good_page acc prev page items' next' -> items' = items /\ next' = next.
Proof.
  intros Hinj acc prev page items next items' next' (dt & Hdt & D & _) (dt' & Hdt' & D' & _).
  assert (dt' = dt) as -> by congruence. by eapply Hinj.
Qed.

Fixpoint all_good acc pages : Prop :=
  match pages with
  | [] => True
  | (p, items) :: pages => P acc items /\ all_good (loadA acc (p, items)) pages
  end.

Lemma good_chain_chain acc prev pages :
  good_chain good_page loadA acc prev pages -> chain linked c pages kInvalidId /\ all_good acc pages.
Proof.
  revert acc prev. induction pages as [|[p items] pages IH]; intros acc prev; simpl; [done|].
  intros [(dt & Hdt & D & HP & _) Hc]. destruct (IH _ _ Hc). split; [split; [by exists dt|done]|done].
Qed.

Lemma chain_good_chain acc prev pages :
  chain linked c pages kInvalidId -> NoDup (prev :: (fst <$> pages)) -> kInvalidId ∉ fst <$> pages ->
  all_good acc pages -> good_chain good_page loadA acc prev pages.
Proof.
  revert acc prev. induction pages as [|[p items] pages IH]; intros acc prev; simpl; [done|].
  intros [(dt & Hdt & D) Hc] Hnd Hni [HP Hgs].
  apply NoDup_cons in Hnd as [Hp1 Hnd]. apply not_elem_of_cons in Hni as [Hn1 Hn2]. split; [|by apply IH].
  exists dt. split_and!; [done..|]. destruct pages as [|[q l] pages]; [by left|right]. simpl in *.
  apply NoDup_cons in Hnd as [Hq _]. apply not_elem_of_cons in Hq as [? _].
  apply not_elem_of_cons in Hp1 as [_ Hp1]. apply not_elem_of_cons in Hp1 as [? _]. split; congruence.
Qed.
End GoodPage.

Section Walk.
Context {E T A B : Type} `{PK : PoolKeeps E}.
Implicit Types (c : Z -> option (list Z)) (t : T) (d : db E) (acc : A) (pages : list (Z * list B)).
Context (good : A -> Z -> Z -> list B -> Z -> Prop) (loadT : T -> Z * list B -> T) (loadA : A -> Z * list B -> A).
Abbreviation good_chain := (good_chain good loadA).

Context (good_inj : forall acc prev page items next items' next',
  good acc prev page items next -> good acc prev page items' next' -> items' = items /\ next' = next).

(** What one visit does. *)
Definition visit_post b c (I : T -> Prop) t acc prev page (r : Status + (option Z * A)) t' d' : Prop :=
  exists b', owns b' c None d' /\ I t' /\
  match r with
  | inr (nxt, acc') => b - 1 <= b' /\ exists items next, good acc prev page items next /\
      t' = loadT t (page, items) /\ acc' = loadA acc (page, items) /\
      nxt = (if next =? kInvalidId then None else Some next) /\ 0 <= next <= kInvalidId
  | inl s => ok s = false /\ (b < 1 \/ page = kInvalidId \/ forall items next, ~ good acc prev page items next)
  end.

Context (c : Z -> option (list Z)) (I : T -> Prop) (cyclic : Status) (visit : Z -> Z -> A -> Code E T (option Z * A)).
Context (cyclic_bad : ok cyclic = false).
Context (Hvisit : forall b t d acc page prev, owns b c None d -> I t -> 0 <= page <= kInvalidId ->
  wp (visit page prev acc) (visit_post b c I t acc prev page) t d).

(** Whatever the pages hold, the walk ends; it succeeds on a chain of good pages
    only. *)
Lemma walk_any b fuel max_walk walked page prev acc t d :
  owns b c None d -> I t -> 0 <= page < kInvalidId -> 0 <= walked <= max_walk + 1 -> max_walk + 1 < 2 ^ 32 ->
  max_walk + 2 - walked <= Z.of_nat fuel ->
  wp (walk cyclic visit fuel max_walk walked page prev acc) (fun r t' d' => exists b', owns b' c None d' /\ I t' /\
    match r with
    | inr acc' => exists pages, pages <> [] /\ head_of pages kInvalidId = page /\ good_chain acc prev pages /\
        kInvalidId ∉ fst <$> pages /\ b - zlen pages <= b' /\ t' = foldl loadT t pages /\ acc' = foldl loadA acc pages
    | inl s => ok s = false
    end) t d.
Proof.
  revert b walked page prev acc t d.
  induction fuel as [|fuel IH]; intros b walked page prev acc t d O Ht Hp Hw Hm Hf; [lia|].
  cbn [walk]. destruct (max_walk <? walked) eqn:E0; zb.
  { wp_step. exists b. by split_and!. }
  wp_step. eapply wpc_mono; [eapply Hvisit; [exact O|done|lia]|].
  intros r t1 d1 (b1 & O1 & Ht1 & Hr). destruct r as [s|[nxt acc1]]; [exists b1; by destruct Hr|].
  destruct Hr as (Hb1 & items & next & Hg & -> & -> & -> & Hnext). cbn beta iota. destruct (next =? kInvalidId) eqn:E1; zb.
  { wp_step. exists b1. split; [done|]. split; [done|]. exists [(page, items)]. split; [done|]. split; [done|].
    split; [split; [by subst next|done]|]. split; [simpl; intros Hx%list_elem_of_singleton; lia|].
    split; [rewrite zlen_single; lia|done]. }
  rewrite (wrap_small 32) by lia. eapply wpc_mono; [eapply (IH b1 (walked + 1) next page); [exact O1|done|lia..]|].
  cbn beta. intros r t2 d2 (b2 & O2 & Ht2 & Hr). exists b2. split; [done|]. split; [done|]. destruct r as [s|acc2]; [done|].
  destruct Hr as (pages & Hne & Hh & Hc & Hni & Hb2 & -> & ->). exists ((page, items) :: pages).
  split; [done|]. split; [done|]. split; [split; [by rewrite Hh|done]|].
  split; [simpl; intros [?|?]%elem_of_cons; [lia|done]|]. split; [rewrite zlen_cons; lia|done].
Qed.

(** On a chain of good pages the walk finds it, unless the device fails or the
    counter is too small. *)
Lemma walk_chain b fuel max_walk walked prev acc pages t d :
  owns b c None d -> I t -> pages <> [] -> good_chain acc prev pages ->
  (forall p, p ∈ fst <$> pages -> 0 <= p < kInvalidId) -> 0 <= walked <= max_walk + 1 ->
  walked + zlen pages <= 2 ^ 32 -> max_walk + 2 - walked <= Z.of_nat fuel ->
  wp (walk cyclic visit fuel max_walk walked (head_of pages kInvalidId) prev acc) (fun r t' d' =>
    exists b', owns b' c None d' /\ I t' /\
    match r with
    | inr acc' => b - zlen pages <= b' /\ t' = foldl loadT t pages /\ acc' = foldl loadA acc pages
    | inl s => ok s = false /\ (b < zlen pages \/ max_walk + 1 < walked + zlen pages)
    end) t d.
Proof.
  revert b walked prev acc pages t d.
  induction fuel as [|fuel IH]; intros b walked prev acc pages t d O Ht Hne Hg Hids Hw Hl Hf; [lia|].
  destruct pages as [|[page items] pages]; [done|]. cbn [walk head_of]. destruct Hg as [Hg Hgs]. rewrite zlen_cons in *.
  pose proof (zlen_nonneg pages). assert (0 <= page < kInvalidId) as Hp by (apply Hids, elem_of_cons; by left).
  destruct (max_walk <? walked) eqn:E0; zb.
  { wp_step. exists b. split_and!; [done|done|done|lia]. }
  wp_step. eapply wpc_mono; [eapply Hvisit; [exact O|done|lia]|].
  intros r t1 d1 (b1 & O1 & Ht1 & Hr). destruct r as [s|[nxt acc1]].
  { exists b1. destruct Hr as (Hs & Hwhy). split_and!; [done..|]. left.
    destruct Hwhy as [?|[?|Hn]]; [lia|lia|]. by destruct (Hn _ _ Hg). }
  destruct Hr as (Hb1 & items' & next & Hg' & -> & -> & -> & Hnext). cbn beta iota.
  destruct (good_inj _ _ _ _ _ _ _ Hg Hg') as [-> ->].
  destruct pages as [|[q items2] pages].
  { cbn [head_of]. rewrite Z.eqb_refl. wp_step. exists b1. split_and!; [done|done|lia|done|done]. }
  assert (0 <= q < kInvalidId) as Hq by (apply Hids, elem_of_cons; right; apply elem_of_cons; by left).
  cbn [head_of]. replace (q =? kInvalidId) with false by lia. rewrite zlen_cons in *. pose proof (zlen_nonneg pages).
  rewrite (wrap_small 32) by lia.
  eapply wpc_mono; [apply (IH b1 (walked + 1) page _ ((q, items2) :: pages)); [exact O1|done|done|done| |lia| |lia]|].
  - intros p Hx. apply Hids, elem_of_cons. by right.
  - rewrite zlen_cons. lia.
  - cbn beta. intros r t2 d2 (b2 & O2 & Ht2 & Hr). exists b2. split; [done|]. split; [done|]. rewrite zlen_cons in Hr.
    destruct r as [s|acc2]; [destruct Hr; split; [done|lia]|]. destruct Hr as (? & -> & ->). split_and!; [lia|done|done].
Qed.
End Walk.

(** ** New pages *)

Section New.
Context {E T : Type} `{PK : PoolKeeps E}.
Implicit Types (c : Z -> option (list Z)) (d : db E) (t : T).

(** Allocating and preparing a page in the format [fmt]. *)
Lemma wp_new_page {A} b c (k : Page -> Code E T A) (prep : Page -> option Page) (fmt : list Z -> Prop) Q t d :
  (forall x, fmt x -> buf_ok kPageSize x) ->
  (forall p, zlen (page_data p) = kPageSize -> exists x, prep p = Some (MarkDirty (set_data p x)) /\ fmt x) ->
  owns b c None d ->
  (forall s d' c', ok s = false -> b < 0 \/ device_full c -> owns (-1) c' None d' ->
     (forall j, is_Some (c j) -> c' j = c j) -> Q (inl s) t d') ->
  (forall p dn d', 0 <= page_id p < kInvalidId -> c (page_id p) = None -> fmt dn ->
     owns b (upd_page c (page_id p) dn) None d' -> wp (k p) Q t d') ->
  wp (p ← storage_AllocatePage; q ← access (prep p); storage_WritePage q ;; k q) Q t d.
Proof.
  intros Hfmt Hp O Hbad Hk. pose (p' := fun id => default (PageOf id) (prep (PageOf id))).
  assert (forall id, exists dn, prep (PageOf id) = Some (p' id) /\ page_id (p' id) = id /\
    page_data (p' id) = dn /\ fmt dn) as Hprep.
  { intros nd. destruct (Hp (PageOf nd) zero_data_len) as (dn & Hi & Dn).
    exists dn. unfold p'. rewrite Hi. by split_and!. }
  clearbody p'. eapply wp_alloc_write with (p' := p'); [exact O|..].
  - intros nd _. by destruct (Hprep nd) as (dn & ? & _).
  - intros s dp c' Hs Hwhy O' Hcc. eapply Hbad; [done|exact Hwhy|exact O'|]. intros j Hj. apply Hcc; [done|tauto].
  - intros nd. by destruct (Hprep nd) as (dn & _ & ? & _).
  - intros nd Hnd. destruct (Hprep nd) as (dn & _ & Hpid & Hdn & [Hbl Hbb]%Hfmt).
    split; [by rewrite Hdn|]. split; [by rewrite Hdn|]. rewrite Hpid. lia.
  - intros nd d' Hnd Hc O'. destruct (Hprep nd) as (dn & _ & Hpid & Hdn & Dn). rewrite Hdn in O'.
    apply (Hk (p' nd) dn); rewrite ?Hpid; done.
Qed.
End New.
