(* ===== verification/HeapTable.v ===== *)
(** * Heap tables

    [include/db/heap_table.h] and [src/db/record/heap_table.cpp]: records of any
    length over many slotted pages, and the chain of directory pages that lists
    them.  [HeapTable] holds the members of the object; the methods are [Code]
    over them, the pool and the storage. *)

From S2P Require Import Prelude Bytes Common PageStorage BufferPool BufferPoolSpec PageAccess PageChain.
From S2P Require SlottedPage.

(** ** Directory pages *)

Definition kDirMagic0 : Z := 0x4E.
Definition kDirMagic1 : Z := 0x48.
Definition kDirMagic2 : Z := 0x54.
Definition kDirMagic3 : Z := 0x31.
Definition kDirectoryHeaderSize : Z := 16.
Definition kDirectoryIdSize : Z := 4.
Definition kDirectoryCapacity : Z := (kPageSize - kDirectoryHeaderSize) / kDirectoryIdSize.
Definition kDirectoryVersion : Z := 1.
Definition kOffMagic : Z := 0.
Definition kOffVersion : Z := 4.
Definition kOffReserved : Z := 6.
Definition kOffCount : Z := 8.
Definition kOffNext : Z := 12.
Definition kOffIds : Z := kDirectoryHeaderSize.

Definition InitDirectoryPage (page : Page) : option Page :=
  d ← memset (page_data page) 0 0 kPageSize;
  d ← put d (kOffMagic + 0) [kDirMagic0];
  d ← put d (kOffMagic + 1) [kDirMagic1];
  d ← put d (kOffMagic + 2) [kDirMagic2];
  d ← put d (kOffMagic + 3) [kDirMagic3];
  d ← WriteU16 d kOffVersion kDirectoryVersion;
  d ← WriteU16 d kOffReserved 0;
  d ← WriteU32 d kOffCount 0;
  d ← WriteU32 d kOffNext kInvalidId;
  Some (MarkDirty (set_data page d)).

Definition ValidateDirectoryHeader (page : Page) : option Status :=
  let d := page_data page in
  m0 ← at_ d (kOffMagic + 0);
  m1 ← at_ d (kOffMagic + 1);
  m2 ← at_ d (kOffMagic + 2);
  m3 ← at_ d (kOffMagic + 3);
  if negb (m0 =? kDirMagic0) || negb (m1 =? kDirMagic1) ||
     negb (m2 =? kDirMagic2) || negb (m3 =? kDirMagic3) then
    Some (Bad "heap table: directory page has bad magic") else
  version ← ReadU16 d kOffVersion;
  if negb (version =? kDirectoryVersion) then
    Some (Bad "heap table: unsupported directory version") else
  count ← ReadU32 d kOffCount;
  if kDirectoryCapacity <? count then
    Some (Bad "heap table: directory page count out of range") else
  Some StatusOk.

Definition DirectoryCount (page : Page) : option Z := ReadU32 (page_data page) kOffCount.
Definition DirectoryNext (page : Page) : option Z := ReadU32 (page_data page) kOffNext.
Definition DirectoryIdAt (page : Page) (index : Z) : option Z :=
  ReadU32 (page_data page) (kOffIds + index * kDirectoryIdSize).
Definition SetDirectoryCount (page : Page) (count : Z) : option Page :=
  set_data page <$> WriteU32 (page_data page) kOffCount count.
Definition SetDirectoryNext (page : Page) (next : Z) : option Page :=
  set_data page <$> WriteU32 (page_data page) kOffNext next.
Definition SetDirectoryIdAt (page : Page) (index id : Z) : option Page :=
  set_data page <$> WriteU32 (page_data page) (kOffIds + index * kDirectoryIdSize) id.

(** ** Tables *)

Record RecordId := MkRecordId { page : Z; slot : Z }.
Definition RecordId0 : RecordId := MkRecordId kInvalidId SlottedPage.kInvalidSlot.
Definition valid (id : RecordId) : bool :=
  negb (page id =? kInvalidId) && negb (slot id =? SlottedPage.kInvalidSlot).

#[export] Instance RecordId_eq_dec : EqDecision RecordId.
Proof. solve_decision. Defined.

Record HeapTable := MkHeapTable {
  ht_attached : bool;  (** [storage_] and [pool_] are non-null *)
  ht_root : Z;
  last_dir : Z; last_dir_count : Z; data_pages : list Z; last_data_page : Z }.

Definition set_directory (dir count : Z) (t : HeapTable) : HeapTable :=
  MkHeapTable (ht_attached t) (ht_root t) dir count (data_pages t) (last_data_page t).
Definition push_data_page (id : Z) (t : HeapTable) : HeapTable :=
  MkHeapTable (ht_attached t) (ht_root t) (last_dir t) (last_dir_count t) (data_pages t ++ [id])
    (last_data_page t).
Definition set_last_data_page (id : Z) (t : HeapTable) : HeapTable :=
  MkHeapTable (ht_attached t) (ht_root t) (last_dir t) (last_dir_count t) (data_pages t) id.
Definition data_page_count (t : HeapTable) : Z := zlen (data_pages t).

(** The constructor. *)
Definition NewHeapTable (root : Z) : HeapTable := MkHeapTable true root kInvalidId 0 [] kInvalidId.

Section Methods.
Context {E : Type} `{PageEnv E} `{!PageAlloc E}.
Abbreviation Code := (Code E HeapTable).

(** The loop over the ids of one directory page, from index [i]. *)
Fixpoint LoadDirectory_ids (n : nat) (i : Z) (handle : nat) : Code unit :=
  match n with
  | O => mret tt
  | S n =>
      p ← handle_page handle;
      pid ← access (DirectoryIdAt p i);
      t ← members;
      if (pid =? kInvalidId) || (pid =? ht_root t) then
        throw (StatusError kBadState "heap table: invalid data page id in directory") else
      found ← storage_PageExists pid;
      if negb found then
        throw (StatusError kBadState "heap table: directory references a missing page") else
      update (push_data_page pid) ;;
      LoadDirectory_ids n (i + 1) handle
  end.

(** One directory page: its ids are loaded, and the next page of the chain, if
    there is one, is returned. *)
Definition LoadDirectory_page (dir prev : Z) : Code (option Z) :=
  with_handle dir (fun handle =>
    p ← handle_page handle;
    s ← access (ValidateDirectoryHeader p);
    check s ;;
    count ← access (DirectoryCount p);
    next ← access (DirectoryNext p);
    LoadDirectory_ids (Z.to_nat count) 0 handle ;;
    update (set_directory dir count) ;;
    if next =? kInvalidId then mret None else
    if (next =? dir) || (next =? prev) then
      throw (StatusError kBadState "heap table: directory chain loops on itself") else
    mret (Some next)).

(** The walk along the chain. *)
Definition LoadDirectory_walk (fuel : nat) (max_walk walked dir prev : Z) : Code unit :=
  walk (StatusError kBadState "heap table: directory chain is cyclic")
    (fun dir prev _ => next ← LoadDirectory_page dir prev; mret (next, tt)) fuel max_walk walked dir prev tt.

Definition LoadDirectory : Code unit :=
  update (fun t => MkHeapTable (ht_attached t) (ht_root t) kInvalidId 0 [] kInvalidId) ;;
  total_pages ← storage_NumPages;
  let max_walk := u32 (total_pages + 2) in
  t ← members;
  LoadDirectory_walk (Z.to_nat (max_walk + 2)) max_walk 0 (ht_root t) kInvalidId ;;
  update (fun t => set_last_data_page (default kInvalidId (last (data_pages t))) t).

Definition IsDataPage (id : Z) (t : HeapTable) : bool := existsb (fun p => p =? id) (data_pages t).

Definition AllocateDataPage : Code Z :=
  p ← storage_AllocatePage;
  q ← access ('(_, q) ← SlottedPage.Init (Some p); q);
  storage_WritePage q ;;
  mret (page_id q).

(** The last directory page is full: a new one is linked in and used. *)
Definition AppendDataPageId_extend (id : Z) : Code unit :=
  t ← members;
  p ← storage_AllocatePage;
  new_dir ← access (InitDirectoryPage p);
  storage_WritePage new_dir ;;
  with_handle (last_dir t) (fun handle =>
    p ← handle_page handle;
    p ← access (SetDirectoryNext p (page_id new_dir));
    set_handle_page handle (MarkDirty p)) ;;
  update (set_directory (page_id new_dir) 0) ;;
  with_handle (page_id new_dir) (fun handle =>
    p ← handle_page handle;
    p ← access (SetDirectoryIdAt p 0 id);
    p ← access (SetDirectoryCount p 1);
    set_handle_page handle (MarkDirty p)) ;;
  update (set_directory (page_id new_dir) 1) ;;
  update (push_data_page id).

Definition AppendDataPageId (id : Z) : Code unit :=
  t ← members;
  if last_dir_count t <? kDirectoryCapacity then
    with_handle (last_dir t) (fun handle =>
      p ← handle_page handle;
      s ← access (ValidateDirectoryHeader p);
      check s ;;
      p ← access (SetDirectoryIdAt p (last_dir_count t) id);
      p ← access (SetDirectoryCount p (u32 (last_dir_count t + 1)));
      set_handle_page handle (MarkDirty p) ;;
      update (set_directory (last_dir t) (u32 (last_dir_count t + 1))) ;;
      update (push_data_page id))
  else AppendDataPageId_extend id.

(** [out] says whether the caller's pointer is non-null: it is dereferenced
    without a check. *)
Definition TryInsertIntoPage (id : Z) (data : list Z) (out : bool) : Code RecordId :=
  with_handle id (fun handle =>
    p ← handle_page handle;
    '(s, q, slot) ← access ('(s, q, slot) ← SlottedPage.Insert (Some p) (Some data); q ← q; Some (s, q, slot));
    set_handle_page handle q ;;
    check s ;;
    if out then mret (MkRecordId id slot) else access None).

(** The loop over the other pages; [None] when none has room. *)
Fixpoint Insert_pages (pages : list Z) (data : list Z) (out : bool) : Code (option RecordId) :=
  match pages with
  | [] => mret None
  | id :: pages =>
      t ← members;
      if id =? last_data_page t then Insert_pages pages data out else
      r ← attempt (TryInsertIntoPage id data out);
      match r with
      | inr rid => update (set_last_data_page id) ;; mret (Some rid)
      | inl s => if bool_decide (code s = kBufferFull) then Insert_pages pages data out else throw s
      end
  end.

(** The status, and [*out] as the call leaves it. *)
Definition Insert_fresh (data : list Z) (out : bool) : Code (Status * RecordId) :=
  fresh ← AllocateDataPage;
  rid ← TryInsertIntoPage fresh data out;
  s ← attempt (AppendDataPageId fresh);
  match s with
  | inl s => mret (s, rid)
  | inr _ => update (set_last_data_page fresh) ;; mret (StatusOk, rid)
  end.

Definition Insert_body (data : option (list Z)) (out : bool) : Code (Status * RecordId) :=
  t ← members;
  if negb (ht_attached t) then throw (Bad "HeapTable::Insert: table is not attached to storage/pool") else
  let data := default [] data in
  if zlen data =? 0 then throw (Bad "HeapTable::Insert: null or empty record") else
  if SlottedPage.kMaxRecordSize <? zlen data then
    throw (StatusError kBufferFull "record is larger than a page can ever hold") else
  first ← (if negb (last_data_page t =? kInvalidId) then
             r ← attempt (TryInsertIntoPage (last_data_page t) data out);
             match r with
             | inr rid => mret (Some rid)
             | inl s => if negb (bool_decide (code s = kBufferFull)) then throw s else mret None
             end
           else mret None);
  match first with
  | Some rid => mret (StatusOk, rid)
  | None =>
      r ← Insert_pages (data_pages t) data out;
      match r with
      | Some rid => mret (StatusOk, rid)
      | None => Insert_fresh data out
      end
  end.

(** What [Create] and [Open] return: the status, and the table on success. *)
Definition opened (r : Status + unit) (t : HeapTable) : Status * option HeapTable :=
  match r with inl s => (s, None) | inr _ => (StatusOk, Some t) end.

(** [args] says that [storage], [pool] and [out] are non-null; [*out_root] is
    the root of the table. *)
Definition Create (args : bool) (d : db E) : option (Status * option HeapTable * db E) :=
  if negb args then Some (Bad "HeapTable::Create: null storage, pool, or out", None, d) else
  '(r, (t, d)) ← (p ← storage_AllocatePage;
                  root_page ← access (InitDirectoryPage p);
                  storage_WritePage root_page ;;
                  update (fun _ => NewHeapTable (page_id root_page)) ;;
                  LoadDirectory) (NewHeapTable kInvalidId, d);
  Some (opened r t, d).

Definition Open (args : bool) (root : Z) (d : db E) : option (Status * option HeapTable * db E) :=
  if negb args then Some (Bad "HeapTable::Open: null storage, pool, or out", None, d) else
  if root =? kInvalidId then Some (Bad "HeapTable::Open: invalid root page id", None, d) else
  '(r, (t, d)) ← LoadDirectory (NewHeapTable root, d);
  Some (opened r t, d).

(** A method's status. *)
Definition status {A} (r : Status + A) : Status := match r with inl s => s | inr _ => StatusOk end.

Definition Insert (data : option (list Z)) (out : bool) (s : HeapTable * db E)
    : option (Status * RecordId * (HeapTable * db E)) :=
  '(r, s) ← Insert_body data out s;
  Some (match r with inl e => (e, RecordId0) | inr (e, rid) => (e, rid) end, s).

(** [out] says whether both out-parameters are non-null.  The bytes are those
    [*out_data] points at when the call returns. *)
Definition Get (id : RecordId) (out : bool) : Code (list Z) :=
  if negb out then throw (Bad "HeapTable::Get: null out-parameter") else
  if negb (valid id) then throw (Bad "HeapTable::Get: invalid record id") else
  t ← members;
  if negb (IsDataPage (page id) t) then
    throw (StatusError kNotFound "heap table: record id does not name a table page") else
  with_handle (page id) (fun handle =>
    p ← handle_page handle;
    '(s, r) ← access (SlottedPage.Read (Some p) (slot id));
    check s ;;
    access r).

Definition Update (id : RecordId) (data : option (list Z)) : Code unit :=
  if zlen (default [] data) =? 0 then throw (Bad "HeapTable::Update: null or empty record") else
  if SlottedPage.kMaxRecordSize <? zlen (default [] data) then
    throw (StatusError kBufferFull "record is larger than a page can ever hold") else
  if negb (valid id) then throw (Bad "HeapTable::Update: invalid record id") else
  t ← members;
  if negb (IsDataPage (page id) t) then
    throw (StatusError kNotFound "heap table: record id does not name a table page") else
  with_handle (page id) (fun handle =>
    p ← handle_page handle;
    '(s, q) ← access ('(s, q) ← SlottedPage.Update (Some p) (slot id) data; q ← q; Some (s, q));
    set_handle_page handle q ;;
    check s).

Definition Delete (id : RecordId) : Code unit :=
  if negb (valid id) then throw (Bad "HeapTable::Delete: invalid record id") else
  t ← members;
  if negb (IsDataPage (page id) t) then
    throw (StatusError kNotFound "heap table: record id does not name a table page") else
  with_handle (page id) (fun handle =>
    p ← handle_page handle;
    '(s, q) ← access ('(s, q) ← SlottedPage.Delete (Some p) (slot id); q ← q; Some (s, q));
    set_handle_page handle q ;;
    check s).

(** The visitor gets and returns a context; [ScanBridgeCb] records in
    [stopped] that it asked to stop. *)
Definition ScanBridgeCb {C} (id : Z) (fn : RecordId -> list Z -> C -> bool * C)
    (slot : Z) (data : list Z) (ctx : C * bool) : bool * (C * bool) :=
  let '(go, c) := fn (MkRecordId id slot) data (fst ctx) in
  if negb go then (false, (c, true)) else (true, (c, snd ctx)).

Fixpoint Scan_pages {C} (pages : list Z) (fn : RecordId -> list Z -> C -> bool * C) (ctx : C) : Code C :=
  match pages with
  | [] => mret ctx
  | id :: pages =>
      '(ctx, stopped) ← with_handle id (fun handle =>
        p ← handle_page handle;
        '(s, ctx) ← access (SlottedPage.Scan (ScanBridgeCb id fn) (Some p) (ctx, false));
        check s ;;
        mret ctx);
      if stopped : bool then mret ctx else Scan_pages pages fn ctx
  end.

Definition Scan {C} (fn : option (RecordId -> list Z -> C -> bool * C)) (ctx : C) : Code C :=
  match fn with
  | None => throw (Bad "HeapTable::Scan: null callback")
  | Some fn => t ← members; Scan_pages (data_pages t) fn ctx
  end.
End Methods.

(** ** Directory pages: specification

    [d] is a directory page that lists [ids] and links to [next]. *)

Record dir_page (d ids : list Z) (next : Z) : Prop := {
  dir_buf : buf_ok kPageSize d;
  dir_magic : sub d 0 4 = [kDirMagic0; kDirMagic1; kDirMagic2; kDirMagic3];
  dir_version : field 2 d kOffVersion = kDirectoryVersion;
  dir_count : field 4 d kOffCount = zlen ids;
  dir_fits : zlen ids <= kDirectoryCapacity;
  dir_next : field 4 d kOffNext = next;
  dir_ids : forall i id, ids !! i = Some id -> field 4 d (kOffIds + Z.of_nat i * kDirectoryIdSize) = id }.

Lemma capacity_1020 : kDirectoryCapacity = 1020.
Proof. done. Qed.

Ltac hlia :=
  rewrite ?capacity_1020 in *;
  unfold kOffMagic, kOffVersion, kOffReserved, kOffCount, kOffNext, kOffIds, kDirectoryHeaderSize,
    kDirectoryIdSize, kDirectoryVersion, kInvalidId, kPageSize in *;
  rewrite ?zlen_le_bytes, ?zlen_single in *; lia.

Ltac hstep := put_step hlia.

Lemma InitDirectoryPage_spec p :
  zlen (page_data p) = kPageSize ->
  exists d', InitDirectoryPage p = Some (MarkDirty (set_data p d')) /\ dir_page d' [] kInvalidId.
Proof.
  intros Hl. unfold InitDirectoryPage. destruct (memset_page _ Hl) as (d & -> & B). cbn [mbind option_bind].
  do 8 hstep. exists d7. split; [done|]. split; try (chase hlia; done). read_magic_back hlia.
Qed.

Section Directory.
Context (p : Page) (ids : list Z) (next : Z) (D : dir_page (page_data p) ids next).

Lemma ValidateDirectoryHeader_ok : ValidateDirectoryHeader p = Some StatusOk.
Proof.
  destruct D as [B Hm Hv Hc Hf _ _]. unfold ValidateDirectoryHeader. set (d := page_data p) in *.
  destruct (read_magic d B) as (m0 & m1 & m2 & m3 & E0 & E1 & E2 & E3 & Hm'). rewrite Hm' in Hm.
  injection Hm as -> -> -> ->. unfold kOffMagic. rewrite E0, E1, E2, E3. cbn [mbind option_bind].
  rewrite !Z.eqb_refl. cbn [negb orb].
  rewrite ReadU16_field by (destruct B; hlia || done). cbn [mbind option_bind]. rewrite Hv, Z.eqb_refl. cbn [negb].
  rewrite ReadU32_field by (destruct B; hlia || done). cbn [mbind option_bind]. rewrite Hc.
  by replace (kDirectoryCapacity <? zlen ids) with false by lia.
Qed.

Lemma DirectoryCount_ok : DirectoryCount p = Some (zlen ids).
Proof. destruct D as [[? ?] _ _ <- _ _ _]. apply ReadU32_field; hlia || done. Qed.

Lemma DirectoryNext_ok : DirectoryNext p = Some next.
Proof. destruct D as [[? ?] _ _ _ _ <- _]. apply ReadU32_field; hlia || done. Qed.

Lemma DirectoryIdAt_ok i id : ids !! i = Some id -> DirectoryIdAt p (Z.of_nat i) = Some id.
Proof.
  intros Hi. destruct D as [[? ?] _ _ _ Hf _ Hids]. rewrite <- (Hids i id Hi).
  apply lookup_lt_Some in Hi. unfold zlen in Hf. apply ReadU32_field; hlia || done.
Qed.

(** Adding an id. *)
Lemma SetDirectoryIdAt_ok id :
  zlen ids < kDirectoryCapacity -> 0 <= id <= kInvalidId ->
  exists p1, SetDirectoryIdAt p (zlen ids) id = Some p1 /\
  exists p2, SetDirectoryCount p1 (zlen ids + 1) = Some p2 /\
    page_id p2 = page_id p /\ dir_page (page_data p2) (ids ++ [id]) next.
Proof.
  intros Hc Hid. destruct D as [B Hm Hv Hcnt Hf Hn Hids].
  unfold SetDirectoryIdAt, SetDirectoryCount. set (d := page_data p) in *. pose proof (zlen_nonneg ids).
  hstep. eexists. split; [done|]. cbn [page_data set_data]. hstep. eexists. split; [done|]. split; [done|].
  cbn [page_data set_data]. split; try (chase hlia; done).
  - by rewrite zlen_app, zlen_single; chase hlia.
  - rewrite zlen_app, zlen_single. hlia.
  - intros i x Hx. apply lookup_app_Some in Hx as [Hx|[Hge Hx]].
    + pose proof (lookup_lt_Some _ _ _ Hx). unfold zlen in *. chase hlia. by apply Hids.
    + apply list_lookup_singleton_Some in Hx as [Hi <-]. unfold zlen in *. chase hlia. done.
Qed.

(** Changing the link. *)
Lemma SetDirectoryNext_ok next' :
  0 <= next' <= kInvalidId ->
  exists p', SetDirectoryNext p next' = Some p' /\ page_id p' = page_id p /\ dir_page (page_data p') ids next'.
Proof.
  intros Hid. destruct D as [B Hm Hv Hcnt Hf Hn Hids]. unfold SetDirectoryNext. set (d := page_data p) in *.
  hstep. eexists. split; [done|]. split; [done|]. cbn [page_data set_data]. split; try (chase hlia; done).
  intros i x Hx. pose proof (lookup_lt_Some _ _ _ Hx). unfold zlen in *. chase hlia. by apply Hids.
Qed.
End Directory.

(** The ids and the link that a directory page's bytes give. *)
Definition ids_of (d : list Z) : list Z :=
  (fun i => field 4 d (kOffIds + i * kDirectoryIdSize)) <$> seqZ 0 (field 4 d kOffCount).

(** Whatever a page holds, its header is read inside the page, and what is
    accepted is a directory page. *)
Lemma ValidateDirectoryHeader_safe p :
  buf_ok kPageSize (page_data p) ->
  exists s, ValidateDirectoryHeader p = Some s /\
    (ok s = true -> dir_page (page_data p) (ids_of (page_data p)) (field 4 (page_data p) kOffNext)).
Proof.
  intros B. unfold ValidateDirectoryHeader. set (d := page_data p) in *.
  destruct (read_magic d B) as (m0 & m1 & m2 & m3 & E0 & E1 & E2 & E3 & Hm').
  unfold kOffMagic. rewrite E0, E1, E2, E3. cbn [mbind option_bind].
  destruct (_ || _) eqn:Hm; [by eexists|]. zb.
  rewrite ReadU16_field by (destruct B; hlia || done). cbn [mbind option_bind].
  destruct (negb _) eqn:Hv; [by eexists|]. zb.
  rewrite ReadU32_field by (destruct B; hlia || done). cbn [mbind option_bind].
  destruct (_ <? _) eqn:Hc; zb; eexists; (split; [done|]); intros Hs; [done|].
  pose proof (field_bound 4 d kOffCount (proj2 B)).
  assert (zlen (ids_of d) = field 4 d kOffCount) as Hz.
  { unfold ids_of, zlen. rewrite length_fmap, length_seqZ. lia. }
  split; [done| |done|by rewrite Hz|by rewrite Hz|done|].
  - rewrite Hm'. by subst.
  - intros i id Hi. unfold ids_of in Hi. rewrite list_lookup_fmap in Hi.
    apply fmap_Some in Hi as (k & Hk & ->). by apply lookup_seqZ in Hk as [-> _].
Qed.

Lemma dir_page_inj d ids next ids' next' :
  dir_page d ids next -> dir_page d ids' next' -> ids' = ids /\ next' = next.
Proof.
  intros [_ _ _ Hc _ Hn Hi] [_ _ _ Hc' _ Hn' Hi']. split; [|congruence].
  assert (length ids' = length ids) as Hl by (unfold zlen in *; lia).
  apply list_eq_same_length with (length ids); [done..|]. intros i x y Hlt Hx Hy.
  rewrite <- (Hi i y Hy), <- (Hi' i x Hx). done.
Qed.
