(* ===== verification/HeapTableSpec.v ===== *)
(** * Heap tables as maps

    A heap table is a finite map from record ids to byte strings.  [heap_ok]
    relates a table object to the pages it owns, [heap_map] reads the map off
    them; the specifications of the methods are over page contents: under any I/O
    failures each method is an operation of that map or changes nothing, and a
    reopened table is the same map. *)

From S2P Require Import Prelude Bytes Common PageStorage BufferPool BufferPoolSpec PageAccess PageChain HeapTable.
From S2P Require SlottedPage.

(** ** The pages of a table *)

Abbreviation dir_chain := (chain dir_page).

Definition page_wf (d : list Z) : Prop := SlottedPage.wf (MkPage 0 false d).

Definition table_pages (dirs : list (Z * list Z)) (t : HeapTable) : list Z := (fst <$> dirs) ++ data_pages t.

Record heap_ok (c : Z -> option (list Z)) (dirs : list (Z * list Z)) (t : HeapTable) : Prop := {
  heap_attached : ht_attached t = true;
  heap_chain : dir_chain c dirs kInvalidId;
  heap_root : head_of dirs kInvalidId = ht_root t;
  heap_last : exists init ids, dirs = init ++ [(last_dir t, ids)] /\ last_dir_count t = zlen ids;
  heap_pages : data_pages t = mjoin (snd <$> dirs);
  heap_nodup : NoDup (table_pages dirs t);
  heap_ids : forall id, id ∈ table_pages dirs t -> 0 <= id < kInvalidId;
  heap_data : forall id, id ∈ data_pages t -> exists d, c id = Some d /\ page_wf d;
  heap_recent : last_data_page t = kInvalidId \/ last_data_page t ∈ data_pages t }.

(** The map a table stands for. *)
Definition heap_map (c : Z -> option (list Z)) (t : HeapTable) (id : RecordId) : option (list Z) :=
  if decide (page id ∈ data_pages t /\ 0 <= slot id) then
    d ← c (page id); mjoin (SlottedPage.records d !! Z.to_nat (slot id))
  else None.

(** What a method may do to the pages around the table: pages of others stay,
    and the pages it takes did not exist. *)
Record grows c dirs t c' dirs' t' : Prop := {
  grows_ok : heap_ok c' dirs' t';
  grows_root : ht_root t' = ht_root t;
  grows_frame : forall j, is_Some (c j) -> j ∉ table_pages dirs t -> c' j = c j;
  grows_pages : forall j, j ∈ table_pages dirs' t' -> j ∈ table_pages dirs t \/ c j = None }.

(** ** Lemmas on chains *)

Lemma heap_last_page c dirs t :
  heap_ok c dirs t -> exists init ids d, dirs = init ++ [(last_dir t, ids)] /\ last_dir_count t = zlen ids /\
    c (last_dir t) = Some d /\ dir_page d ids kInvalidId /\ dir_chain c init (last_dir t).
Proof.
  intros K. destruct (heap_last _ _ _ K) as (init & ids & Hd & Hn). exists init, ids.
  pose proof (heap_chain _ _ _ K) as Hc. rewrite Hd in Hc. apply chain_app in Hc as [Hi (Hl & _)].
  destruct Hl as (d & ? & ?). by exists d.
Qed.

Lemma heap_page_exists c dirs t id : heap_ok c dirs t -> id ∈ table_pages dirs t -> is_Some (c id).
Proof.
  intros K [Hi|Hi]%elem_of_app; [by eapply chain_page; [apply K|]|].
  destruct (heap_data _ _ _ K id Hi) as (d & -> & _). by eexists.
Qed.

(** A table depends on its own pages only. *)
Lemma heap_ok_agree c c' dirs t :
  (forall j, j ∈ table_pages dirs t -> c' j = c j) -> heap_ok c dirs t -> heap_ok c' dirs t.
Proof.
  intros Hc [Ha Hch Hr Hl Hp Hn Hi Hd Hre]. split; try done.
  - eapply chain_agree; [|exact Hch]. intros p Hp'. apply Hc, elem_of_app. by left.
  - intros id Hid. rewrite Hc by (apply elem_of_app; by right). by apply Hd.
Qed.

Lemma heap_map_agree c c' t t' id :
  data_pages t' = data_pages t -> (forall j, j ∈ data_pages t -> c' j = c j) -> heap_map c' t' id = heap_map c t id.
Proof.
  intros Ht Hc. unfold heap_map. rewrite Ht. case_decide as Hin; [|done]. by rewrite Hc by apply Hin.
Qed.

Lemma only_changes_agree c c' (P : Z -> Prop) dirs t :
  heap_ok c dirs t -> only_changes P c c' -> (forall j, P j -> j ∉ table_pages dirs t) ->
  forall j, j ∈ table_pages dirs t -> c' j = c j.
Proof. intros K Hc HP j Hj. apply Hc; [by eapply heap_page_exists|]. by intros ?%HP. Qed.

(** Changing the records of one data page. *)
Lemma heap_ok_data c dirs t id d :
  heap_ok c dirs t -> id ∈ data_pages t -> page_wf d -> heap_ok (upd_page c id d) dirs t.
Proof.
  intros [Ha Hch Hr Hl Hp Hn Hi Hd Hre] Hid Hw. split; try done.
  - eapply chain_agree; [|exact Hch]. intros p Hp'. apply upd_page_other. intros ->.
    apply NoDup_app in Hn as (_ & Hn & _). by destruct (Hn id Hp').
  - intros j Hj. unfold upd_page. case_decide; [by exists d|by apply Hd].
Qed.

Lemma heap_map_data c t id d rid :
  id ∈ data_pages t -> heap_map (upd_page c id d) t rid =
    if decide (page rid = id /\ 0 <= slot rid) then mjoin (SlottedPage.records d !! Z.to_nat (slot rid))
    else heap_map c t rid.
Proof.
  intros Hid. unfold heap_map, upd_page. destruct (decide (page rid = id)) as [->|Hne].
  - destruct (decide (0 <= slot rid)); [by rewrite !decide_True|by rewrite !decide_False by tauto].
  - by rewrite (decide_False (P := page rid = id /\ _)) by tauto.
Qed.

Lemma grows_refl c dirs t : heap_ok c dirs t -> grows c dirs t c dirs t.
Proof. intros K. split; [done|done|done|]. auto. Qed.

Lemma grows_trans c1 d1 t1 c2 d2 t2 c3 d3 t3 :
  grows c1 d1 t1 c2 d2 t2 -> grows c2 d2 t2 c3 d3 t3 -> grows c1 d1 t1 c3 d3 t3.
Proof.
  intros [K2 R2 F2 P2] [K3 R3 F3 P3]. split; [done|congruence| |].
  - intros j [x Hj] Hn. rewrite <- (F2 j) by (done || by eexists).
    apply F3; [rewrite F2; by (done || eexists)|]. intros [?|?]%P2; [done|congruence].
  - intros j [Hj|Hj]%P3; [by apply P2|]. destruct (decide (j ∈ table_pages d1 t1)); [by left|right].
    destruct (c1 j) eqn:Ej; [|done]. rewrite (F2 j) in Hj by (done || by eexists). congruence.
Qed.

(** ** The map under insertion *)

Definition inserts (m m' : RecordId -> option (list Z)) (rid : RecordId) (data : list Z) : Prop :=
  m rid = None /\ forall r, m' r = if decide (r = rid) then Some data else m r.

Lemma inserts_snoc c t id dt dt' data :
  id ∈ data_pages t -> c id = Some dt ->
  SlottedPage.records dt' = SlottedPage.records dt ++ [Some data] ->
  inserts (heap_map c t) (heap_map (upd_page c id dt') t) (MkRecordId id (zlen (SlottedPage.records dt))) data.
Proof.
  intros Hid Hc Hrec. pose proof (zlen_nonneg (SlottedPage.records dt)). unfold zlen in *. split.
  - unfold heap_map. rewrite decide_True by done. simpl. rewrite Hc. simpl.
    by rewrite lookup_ge_None_2 by lia.
  - intros [pg sl]. rewrite heap_map_data by done. simpl. case_decide as Hd1; [destruct Hd1 as [-> Hsl]|].
    + rewrite Hrec. case_decide as Heq.
      * injection Heq as ->. rewrite Nat2Z.id. by rewrite list_lookup_middle.
      * unfold heap_map. rewrite decide_True by done. simpl. rewrite Hc. simpl. f_equal.
        destruct (decide (Z.to_nat sl < length (SlottedPage.records dt))%nat).
        -- by rewrite lookup_app_l.
        -- assert (sl <> Z.of_nat (length (SlottedPage.records dt))) by (intros ->; done).
           rewrite !lookup_ge_None_2; [done|lia|rewrite length_app; simpl; lia].
    + rewrite decide_False; [done|]. intros [= -> ->]. apply Hd1. split; [done|lia].
Qed.

Lemma page_wf_slots dt : page_wf dt -> zlen (SlottedPage.records dt) <= 1020.
Proof.
  intros (B & L & _). simpl in *. rewrite SlottedPage.zlen_records by done.
  destruct L as [_ _ Hd Hf He _]. unfold SlottedPage.entry, SlottedPage.kHeaderSize, SlottedPage.kSlotEntrySize, kPageSize in *.
  lia.
Qed.

Lemma new_rid_valid id dt :
  0 <= id < kInvalidId -> page_wf dt -> valid (MkRecordId id (zlen (SlottedPage.records dt))) = true.
Proof.
  intros Hid Hw%page_wf_slots. unfold valid. simpl. unfold SlottedPage.kInvalidSlot. lia.
Qed.

(** ** Data pages *)

Section Methods.
Context {E : Type} `{PK : PoolKeeps E}.
Implicit Types (c : Z -> option (list Z)) (t : HeapTable) (d : db E).

(** A slotted-page operation on the page behind a handle. *)
Lemma wp_put_page b c i id p q s (Q : Status + unit -> HeapTable -> db E -> Prop) t d :
  owns b c (Some (i, id)) d -> page_at d i = Some p -> page_id p = id -> c id = Some (page_data p) ->
  SlottedPage.wf q -> page_id q = page_id p -> (if ok s then page_dirty q = true else q = p) ->
  (forall d', owns b (upd_page c id (page_data q)) (Some (i, id)) d' -> Q (inr tt) t d') ->
  wp (set_handle_page i q) Q t d.
Proof.
  intros O Hp Hid Hc (Hb & _) Hq Hs HQ. destruct (ok s).
  - eapply wp_set_handle_page; [exact O|congruence|done|done|done].
  - subst q. eapply wp_set_handle_same; [exact O|done|]. apply HQ.
    eapply owns_ext; [|exact O]. intros j. unfold upd_page. case_decide; [by subst|done].
Qed.

Lemma TryInsertIntoPage_spec b c id dt data t d :
  owns b c None d -> 0 <= id < kInvalidId -> c id = Some dt -> page_wf dt -> bytes_ok data ->
  0 < zlen data <= SlottedPage.kMaxRecordSize ->
  wp (TryInsertIntoPage id data true) (fun r t' d' => t' = t /\
    match r with
    | inr rid => exists dt', owns (b - 1) (upd_page c id dt') None d' /\ page_wf dt' /\
        rid = MkRecordId id (zlen (SlottedPage.records dt)) /\
        SlottedPage.records dt' = SlottedPage.records dt ++ [Some data]
    | inl s => ok s = false /\ (b < 1 /\ owns (-1) c None d' \/
        code s = kBufferFull /\ owns (b - 1) c None d' /\
        SlottedPage.fend dt - SlottedPage.fstart dt < SlottedPage.kSlotEntrySize + zlen data)
    end) t d.
Proof.
  intros O Hid Hc Hw Hb Hlen. eapply wp_handle; [exact O|lia| |].
  { intros s d' Hs Hwhy O'. split; [done|]. split; [done|]. left. split; [|done].
    destruct Hwhy as [?|[?|?]]; [done|congruence|lia]. }
  intros i d' O'. wp_step. eapply wp_handle_page; [exact O'|]. intros p Hp Hpid Hcp Hbuf.
  assert (page_data p = dt) as Hdt by congruence.
  assert (SlottedPage.wf p) as Hwp by (unfold page_wf, SlottedPage.wf in *; simpl in *; by rewrite Hdt).
  destruct (SlottedPage.Insert_refines p Hwp data Hb) as (s & q & sl & Hins & Hwq & Hq & Hspec & Hs).
  wp_step. eapply wp_access; [by rewrite Hins|]. cbn beta iota.
  wp_step. eapply wp_put_page; [exact O'|done|done|done|done|done|exact Hs|]. intros d2 O2.
  cbn [SlottedPage.spec_step SlottedPage.abs SlottedPage.sp_hi SlottedPage.sp_lo SlottedPage.sp_slots] in Hspec.
  replace (zlen data =? 0) with false in Hspec by lia.
  replace (SlottedPage.kMaxRecordSize <? zlen data) with false in Hspec by lia. rewrite Hdt in Hspec.
  wp_step. apply wp_check; intros Hok; rewrite Hok in Hs.
  - eexists _, _. split; [exact O2|]. intros d3 O3. split; [done|]. split; [done|]. right.
    destruct (_ <? _) eqn:Hfull in Hspec; [|by injection Hspec as Hcode _ _; unfold ok in Hok; rewrite <- Hcode in Hok].
    zb. injection Hspec as Hcode _ _. split; [done|]. split; [|lia].
    eapply owns_ext; [|exact O3]. intros j. unfold upd_page. case_decide; [subst; by rewrite Hcp|done].
  - destruct (_ <? _) eqn:Hfull in Hspec; [by injection Hspec as Hcode _ _; unfold ok in Hok; rewrite <- Hcode in Hok|].
    injection Hspec as _ Hrec _ _ ->. wp_step. eexists _, _. split; [exact O2|]. intros d3 O3. split; [done|].
    exists (page_data q). split_and!; [done|exact Hwq| |done]. done.
Qed.

(** [set_last_data_page] does not change the table's map. *)
Lemma heap_ok_recent c dirs t id :
  heap_ok c dirs t -> id ∈ data_pages t -> heap_ok c dirs (set_last_data_page id t).
Proof. intros [] Hid. split; try done. by right. Qed.

(** What an insertion into an existing page achieves. *)
Definition insert_done c dirs t data rid c' dirs' t' : Prop :=
  grows c dirs t c' dirs' t' /\ valid rid = true /\ inserts (heap_map c t) (heap_map c' t') rid data.

Lemma insert_done_page c dirs t id dt dt' data t' :
  heap_ok c dirs t -> id ∈ data_pages t -> c id = Some dt -> page_wf dt -> page_wf dt' ->
  SlottedPage.records dt' = SlottedPage.records dt ++ [Some data] -> t' = t \/ t' = set_last_data_page id t ->
  insert_done c dirs t data (MkRecordId id (zlen (SlottedPage.records dt))) (upd_page c id dt') dirs t'.
Proof.
  intros K Hid Hc Hw Hw' Hrec Ht. pose proof (heap_ok_data _ _ _ _ _ K Hid Hw') as K'.
  assert (data_pages t' = data_pages t /\ ht_root t' = ht_root t) as [Hp Hr] by (by destruct Ht as [->| ->]).
  split_and!.
  - split; [destruct Ht as [->| ->]; [done|by apply heap_ok_recent]|done| |].
    + intros j Hj Hn. apply upd_page_other. intros ->. apply Hn, elem_of_app. by right.
    + intros j. unfold table_pages. rewrite Hp. by left.
  - apply new_rid_valid; [|done]. apply (heap_ids _ _ _ K), elem_of_app. by right.
  - destruct (inserts_snoc c t id dt dt' data Hid Hc Hrec) as [Hn Hi]. split; [done|].
    intros r. rewrite <- Hi. by apply heap_map_agree.
Qed.

(** Trying the pages of a list. *)
Lemma Insert_pages_spec b c dirs t pages data d :
  owns b c None d -> heap_ok c dirs t -> (forall id, id ∈ pages -> id ∈ data_pages t) ->
  bytes_ok data -> 0 < zlen data <= SlottedPage.kMaxRecordSize ->
  wp (Insert_pages pages data true) (fun r t' d' =>
    match r with
    | inl s => ok s = false /\ b < zlen pages /\ t' = t /\ owns (-1) c None d'
    | inr None => t' = t /\ exists b', b - zlen pages <= b' /\ owns b' c None d'
    | inr (Some rid) => exists b' c', b - zlen pages <= b' /\ owns b' c' None d' /\
        insert_done c dirs t data rid c' dirs t'
    end) t d.
Proof.
  intros O K Hin Hb Hlen. revert b d O Hin. induction pages as [|id pages IH]; intros b d O Hin; simpl.
  { wp_step. split; [done|]. exists b. split; [|done]. change (zlen []) with 0. lia. }
  rewrite zlen_cons. pose proof (zlen_nonneg pages). wp_step. wp_step.
  assert (forall j, j ∈ pages -> j ∈ data_pages t) as Hin' by (intros; apply Hin, elem_of_cons; by right).
  assert (forall b' d', b - 1 <= b' -> owns b' c None d' -> wp (Insert_pages pages data true) (fun r t' d' =>
    match r with
    | inl s => ok s = false /\ b < 1 + zlen pages /\ t' = t /\ owns (-1) c None d'
    | inr None => t' = t /\ exists b', b - (1 + zlen pages) <= b' /\ owns b' c None d'
    | inr (Some rid) => exists b' c', b - (1 + zlen pages) <= b' /\ owns b' c' None d' /\
        insert_done c dirs t data rid c' dirs t'
    end) t d') as Hgo.
  { intros b' d' Hb' O'. eapply wpc_mono; [by eapply (IH b')|]. intros [s|[rid|]] t' d2.
    - intros (? & ? & ? & ?). split_and!; [done|lia|done..].
    - intros (b2 & c' & ? & ? & ?). exists b2, c'. split_and!; [lia|done|done].
    - intros (? & b2 & ? & ?). split; [done|]. exists b2. split; [lia|done]. }
  destruct (id =? last_data_page t) eqn:E0; [apply (Hgo b); [lia|done]|].
  assert (id ∈ data_pages t) as Hid by (apply Hin, elem_of_cons; by left).
  destruct (heap_data _ _ _ K id Hid) as (dt & Hc & Hw).
  wp_step. wp_step. eapply wpc_mono.
  { eapply TryInsertIntoPage_spec; [exact O| |exact Hc|done..].
    apply (heap_ids _ _ _ K), elem_of_app. by right. }
  intros r t' d' (-> & Hr). destruct r as [s|rid].
  - destruct Hr as (Hs & Hcase). case_bool_decide as Hfull.
    + destruct Hcase as [(Hb1 & O')|(_ & O' & _)]; eapply Hgo; [|exact O'|..]; [lia| |exact O']. lia.
    + wp_step. destruct Hcase as [(Hb1 & O')|(? & _)]; [|done]. split_and!; [done|lia|done..].
  - destruct Hr as (dt' & O' & Hw' & -> & Hrec). wp_step. wp_step. wp_step.
    eexists _, _. split; [|split; [exact O'|]]; [lia|]. eapply insert_done_page; eauto.
Qed.

(** ** The directory grows *)

Lemma heap_append c init ids t id dp :
  heap_ok c (init ++ [(last_dir t, ids)]) t -> dir_page dp (ids ++ [id]) kInvalidId ->
  id ∉ table_pages (init ++ [(last_dir t, ids)]) t -> 0 <= id < kInvalidId ->
  (exists dt, c id = Some dt /\ page_wf dt) ->
  heap_ok (upd_page c (last_dir t) dp) (init ++ [(last_dir t, ids ++ [id])])
    (push_data_page id (set_directory (last_dir t) (zlen ids + 1) t)).
Proof.
  intros [Ha Hch Hr Hl Hp Hn Hi Hd Hre] D Hnew Hid Hdt. set (ld := last_dir t) in *.
  assert (forall f : list Z, fst <$> (init ++ [(ld, f)]) = (fst <$> init) ++ [ld]) as Hfst by (intros; by rewrite fmap_app).
  unfold table_pages in *. rewrite Hfst in *.
  pose proof Hn as (Hn1 & Hn2 & Hn3)%NoDup_app.
  split; try done; unfold table_pages; rewrite ?Hfst; cbn [data_pages push_data_page set_directory] in *.
  - eapply chain_last; [exact Hch|by rewrite fst_snoc|exact D].
  - etransitivity; [|exact Hr]. by destruct init as [|[]].
  - exists init, (ids ++ [id]). split; [done|]. cbn [last_dir_count]. by rewrite zlen_app, zlen_single.
  - rewrite Hp, !fmap_app, !join_app. simpl. by rewrite !app_nil_r, app_assoc.
  - rewrite app_assoc. apply NoDup_app. split; [done|]. split; [|apply NoDup_singleton].
    intros x Hx ->%list_elem_of_singleton. done.
  - intros x. rewrite app_assoc. intros [Hx|Hx]%elem_of_app; [by apply Hi|].
    apply list_elem_of_singleton in Hx as ->. done.
  - intros x [Hx|Hx]%elem_of_app.
    + rewrite upd_page_other; [by apply Hd|]. intros ->. apply (Hn2 ld); [|done].
      apply elem_of_app. right. by apply list_elem_of_singleton.
    + apply list_elem_of_singleton in Hx as ->. rewrite upd_page_other; [done|].
      intros Heq. apply Hnew. rewrite Heq. apply elem_of_app. left. apply elem_of_app. right. by apply list_elem_of_singleton.
  - destruct Hre as [?|?]; [by left|right]. apply elem_of_app. by left.
Qed.

Lemma heap_link c init ids t nd dn dp :
  heap_ok c (init ++ [(last_dir t, ids)]) t -> dir_page dp ids nd ->
  nd ∉ table_pages (init ++ [(last_dir t, ids)]) t -> 0 <= nd < kInvalidId ->
  c nd = Some dn -> dir_page dn [] kInvalidId ->
  heap_ok (upd_page c (last_dir t) dp) ((init ++ [(last_dir t, ids)]) ++ [(nd, [])]) (set_directory nd 0 t).
Proof.
  intros [Ha Hch Hr Hl Hp Hn Hi Hd Hre] D Hnew Hid Hc Hdn. set (ld := last_dir t) in *.
  unfold table_pages in *. rewrite !fmap_app in *. cbn [fmap list_fmap fst] in *.
  pose proof Hn as (Hn1 & Hn2 & Hn3)%NoDup_app.
  assert (nd <> ld) as Hne.
  { intros ->. apply Hnew, elem_of_app. left. apply elem_of_app. right. by apply list_elem_of_singleton. }
  split; try done; unfold table_pages; rewrite ?fmap_app; cbn [data_pages set_directory fmap list_fmap fst] in *.
  - eapply chain_link; [exact Hch|by rewrite fst_snoc|done|done|done|done].
  - etransitivity; [|exact Hr]. by destruct init as [|[]].
  - by exists (init ++ [(ld, ids)]), [].
  - rewrite Hp, ?fmap_app, !join_app. simpl. by rewrite !app_nil_r.
  - rewrite <- app_assoc. apply NoDup_app in Hn as (_ & _ & Hnd). apply NoDup_app. split; [done|]. split.
    + intros x Hx [->%list_elem_of_singleton|Hx']%elem_of_app; [|by apply (Hn2 x)].
      apply Hnew, elem_of_app. by left.
    + apply NoDup_cons. split; [|done]. intros Hx. apply Hnew, elem_of_app. by right.
  - intros x [[Hx|Hx]%elem_of_app|Hx]%elem_of_app.
    + apply Hi, elem_of_app. by left.
    + by apply list_elem_of_singleton in Hx as ->.
    + apply Hi, elem_of_app. by right.
  - intros x Hx. rewrite upd_page_other; [by apply Hd|]. intros ->. apply (Hn2 ld); [|done].
    apply elem_of_app. right. by apply list_elem_of_singleton.
Qed.

Lemma AllocateDataPage_spec b c t d :
  owns b c None d ->
  wp AllocateDataPage (fun r t' d' => t' = t /\
    match r with
    | inl s => ok s = false /\ (b < 0 \/ device_full c) /\
        exists c', owns (-1) c' None d' /\ only_changes (fun _ => False) c c'
    | inr id => 0 <= id < kInvalidId /\ c id = None /\ exists dt, owns b (upd_page c id dt) None d' /\
        page_wf dt /\ SlottedPage.abs (MkPage 0 false dt) = SlottedPage.MkSpage [] SlottedPage.kHeaderSize kPageSize
    end) t d.
Proof.
  intros O. unfold AllocateDataPage.
  set (prep := fun p => '(_, q) ← SlottedPage.Init (Some p); q).
  assert (forall id, exists dt, prep (PageOf id) = Some (MarkDirty (set_data (PageOf id) dt)) /\ page_wf dt /\
    SlottedPage.abs (MkPage 0 false dt) = SlottedPage.MkSpage [] SlottedPage.kHeaderSize kPageSize) as Hprep.
  { intros id. destruct (SlottedPage.Init_ok (PageOf id) zero_data_len) as (dt & Hi & Hw & Ha).
    exists dt. unfold prep. rewrite Hi. by split_and!. }
  assert (forall id, page_id (default (PageOf id) (prep (PageOf id))) = id) as Hpid.
  { intros id. by destruct (Hprep id) as (dt & -> & _). }
  eapply (wp_alloc_write _ _ (fun q => mret (page_id q)) prep (fun id => default (PageOf id) (prep (PageOf id)))); [exact O|..].
  - intros id _. by destruct (Hprep id) as (dt & -> & _).
  - intros s dp c' Hs Hwhy O' Hc. split; [done|]. split; [done|]. split; [exact Hwhy|]. by exists c'.
  - exact Hpid.
  - intros id Hid. destruct (Hprep id) as (dt & -> & ((Hl & Hb) & _) & _). split; [done|]. split; [done|]. simpl. lia.
  - intros id dp Hid Hc O'. wp_step. rewrite Hpid. split; [done|]. split; [done|]. split; [done|].
    destruct (Hprep id) as (dt & Hi & Hw & Ha).
    assert (page_data (default (PageOf id) (prep (PageOf id))) = dt) as Hdt by by rewrite Hi.
    rewrite Hdt in O'. exists dt. split; [exact O'|]. split; [exact Hw|exact Ha].
Qed.

(** How the directory may change. *)
Record dir_grows c (dirs : list (Z * list Z)) t (new : list Z) c' (dirs' : list (Z * list Z)) t' : Prop := {
  dg_ok : heap_ok c' dirs' t';
  dg_root : ht_root t' = ht_root t;
  dg_pages : data_pages t' = data_pages t ++ new;
  dg_frame : forall j, is_Some (c j) -> j ∉ fst <$> dirs -> c' j = c j;
  dg_dirs : forall j, j ∈ fst <$> dirs' -> j ∈ fst <$> dirs \/ c j = None }.

Lemma dir_grows_same c c' dirs t :
  heap_ok c dirs t -> (forall j, is_Some (c j) -> c' j = c j) -> dir_grows c dirs t [] c' dirs t.
Proof.
  intros K Hsame. split; [|done|by rewrite app_nil_r|by auto|by auto].
  eapply heap_ok_agree; [|exact K]. intros j Hj. by eapply Hsame, heap_page_exists.
Qed.

Lemma last_in_table init (ids : list Z) t : last_dir t ∈ table_pages (init ++ [(last_dir t, ids)]) t.
Proof.
  apply elem_of_app. left. rewrite fmap_app. apply elem_of_app. right. by apply list_elem_of_singleton.
Qed.

(** Entering an id through a handle on a directory page. *)
Lemma wp_enter_id b c i dir ids id (Q : Status + unit -> HeapTable -> db E -> Prop) t d p :
  owns b c (Some (i, dir)) d -> page_id p = dir -> dir_page (page_data p) ids kInvalidId ->
  zlen ids < kDirectoryCapacity -> 0 <= id < kInvalidId ->
  (forall dp d', dir_page dp (ids ++ [id]) kInvalidId -> owns b (upd_page c dir dp) (Some (i, dir)) d' -> Q (inr tt) t d') ->
  wp (p ← access (SetDirectoryIdAt p (zlen ids) id); p ← access (SetDirectoryCount p (zlen ids + 1));
      set_handle_page i (MarkDirty p)) Q t d.
Proof.
  intros O Hp D Hcap Hid HQ.
  destruct (SetDirectoryIdAt_ok p ids kInvalidId D id Hcap ltac:(lia)) as (p1 & Hp1 & p2 & Hp2 & Hp2id & D2).
  wp_step. eapply wp_access; [exact Hp1|]. wp_step. eapply wp_access; [exact Hp2|].
  eapply (wp_set_handle_page _ _ _ _ (MarkDirty p2));
    [exact O|by rewrite <- Hp|done|exact (dir_buf _ _ _ D2)|].
  intros d' O'. by eapply HQ.
Qed.

Lemma AppendDataPageId_room b c init ids t id dt d :
  owns b c None d -> heap_ok c (init ++ [(last_dir t, ids)]) t -> last_dir_count t = zlen ids ->
  zlen ids < kDirectoryCapacity ->
  id ∉ table_pages (init ++ [(last_dir t, ids)]) t -> 0 <= id < kInvalidId -> c id = Some dt -> page_wf dt ->
  wp (AppendDataPageId id) (fun r t' d' => exists b' c' dirs', owns b' c' None d' /\
    match r with
    | inl s => ok s = false /\ b < 1 /\ dir_grows c (init ++ [(last_dir t, ids)]) t [] c' dirs' t'
    | inr _ => b - 1 <= b' /\ dir_grows c (init ++ [(last_dir t, ids)]) t [id] c' dirs' t'
    end) t d.
Proof.
  intros O K Hn Hcap Hnew Hid Hc Hw. unfold AppendDataPageId. wp_step. wp_step. rewrite Hn.
  replace (zlen ids <? kDirectoryCapacity) with true by lia.
  pose proof (heap_ids _ _ _ K _ (last_in_table init ids t)) as Hld.
  pose proof (heap_chain _ _ _ K) as [_ ((dl & Hcl & D) & _)]%chain_app. cbn [head_of] in D.
  pose proof (zlen_nonneg ids). eapply wp_handle; [exact O|lia| |].
  { intros s dp Hs Hwhy O'. exists (-1), c, (init ++ [(last_dir t, ids)]). split; [done|]. split; [done|].
    split; [|by apply dir_grows_same]. destruct Hwhy as [?|[?|?]]; [lia|congruence|lia]. }
  intros i d2 O2. wp_step. eapply wp_handle_page; [exact O2|]. intros p _ Hpid Hcp _.
  assert (page_data p = dl) as Hdl by congruence. rewrite <- Hdl in D.
  wp_step. eapply wp_access; [by eapply ValidateDirectoryHeader_ok|]. wp_step. apply wp_check; [done|intros _].
  rewrite (wrap_small 32) by hlia.
  destruct (SetDirectoryIdAt_ok p ids kInvalidId D id Hcap ltac:(lia)) as (p1 & Hp1 & p2 & Hp2 & Hp2id & D2).
  wp_step. eapply wp_access; [exact Hp1|]. wp_step. eapply wp_access; [exact Hp2|]. wp_step.
  eapply (wp_set_handle_page _ _ _ _ (MarkDirty p2)); [exact O2|by rewrite <- Hpid|done|exact (dir_buf _ _ _ D2)|].
  intros d3 O3. wp_step. wp_step. wp_step. eexists _, _. split; [exact O3|]. intros d4 O4.
  eexists _, _, (init ++ [(last_dir t, ids ++ [id])]). split; [exact O4|]. split; [lia|].
  split; [apply heap_append; eauto|done|done| |].
  - intros j Hj Hne. apply upd_page_other. intros ->. apply Hne. rewrite fmap_app. apply elem_of_app. right.
    by apply list_elem_of_singleton.
  - intros j. rewrite !fmap_app. by left.
Qed.

(** Allocating and preparing a directory page. *)
Lemma wp_new_directory {A} b c (k : Page -> Code E HeapTable A) Q t d :
  owns b c None d ->
  (forall s d' c', ok s = false -> b < 0 \/ device_full c -> owns (-1) c' None d' ->
     (forall j, is_Some (c j) -> c' j = c j) -> Q (inl s) t d') ->
  (forall p dn d', 0 <= page_id p < kInvalidId -> c (page_id p) = None -> dir_page dn [] kInvalidId ->
     owns b (upd_page c (page_id p) dn) None d' -> wp (k p) Q t d') ->
  wp (p ← storage_AllocatePage; q ← access (InitDirectoryPage p); storage_WritePage q ;; k q) Q t d.
Proof.
  apply (wp_new_page _ _ _ _ (fun x => dir_page x [] kInvalidId)); [by intros x []|].
  intros p Hp. by apply InitDirectoryPage_spec.
Qed.

Lemma AppendDataPageId_link b c init ids t id dt d :
  owns b c None d -> heap_ok c (init ++ [(last_dir t, ids)]) t ->
  id ∉ table_pages (init ++ [(last_dir t, ids)]) t -> 0 <= id < kInvalidId -> c id = Some dt -> page_wf dt ->
  wp (AppendDataPageId_extend id) (fun r t' d' => exists b' c' dirs', owns b' c' None d' /\
    match r with
    | inl s => ok s = false /\ (b < 2 \/ device_full c) /\
        dir_grows c (init ++ [(last_dir t, ids)]) t [] c' dirs' t'
    | inr _ => b - 2 <= b' /\ dir_grows c (init ++ [(last_dir t, ids)]) t [id] c' dirs' t'
    end) t d.
Proof.
  set (dirs := init ++ [(last_dir t, ids)]). intros O K Hnew Hid Hc Hw. unfold AppendDataPageId_extend.
  pose proof (heap_ids _ _ _ K _ (last_in_table init ids t)) as Hld.
  pose proof (heap_chain _ _ _ K) as [_ ((dl & Hcl & D) & _)]%chain_app. cbn [head_of] in D.
  wp_step. wp_step. eapply wp_new_directory; [exact O|..].
  { intros s d' c' Hs Hwhy O' Hcc. exists (-1), c', dirs. split; [done|]. split; [done|].
    split; [destruct Hwhy as [?|?]; [left; lia|by right]|by apply dir_grows_same]. }
  intros nd dn d2 Hnd Hcnd Dn O2. set (n := page_id nd) in *.
  assert (n ∉ table_pages dirs t) as Hnd2.
  { intros Hin2. destruct (heap_page_exists _ _ _ _ K Hin2). congruence. }
  assert (n <> last_dir t) as Hne by (intros Heq; by rewrite Heq, Hcl in Hcnd).
  wp_step. eapply wp_handle; [exact O2|lia| |].
  { intros s d' Hs Hwhy O'. eexists (-1), _, dirs. split; [exact O'|]. split; [done|].
    split; [|apply dir_grows_same; [done|]; intros j [x Hj]; apply upd_page_other; congruence].
    destruct Hwhy as [?|[Hx|?]]; [left; lia| |lia]. rewrite upd_page_other in Hx by done. congruence. }
  intros i d3 O3. wp_step. eapply wp_handle_page; [exact O3|]. intros p _ Hpp Hcp _.
  rewrite upd_page_other in Hcp by done. assert (page_data p = dl) as Hdl by congruence. rewrite <- Hdl in D.
  destruct (SetDirectoryNext_ok p ids kInvalidId D n ltac:(lia)) as (p2 & Hp2 & Hp2id & D2).
  wp_step. eapply wp_access; [exact Hp2|].
  eapply (wp_set_handle_page _ _ _ _ (MarkDirty p2)); [exact O3|by rewrite <- Hpp|done|exact (dir_buf _ _ _ D2)|].
  intros d4 O4. eexists _, _. split; [exact O4|]. clear d4 O4. intros d4 O4. wp_step. wp_step. wp_step.
  set (c2 := upd_page (upd_page c n dn) (last_dir t) (page_data (MarkDirty p2))) in *.
  assert (heap_ok c2 (dirs ++ [(n, [])]) (set_directory n 0 t)) as K2.
  { eapply heap_link; [|exact D2|done|done|by apply upd_page_same|done].
    eapply heap_ok_agree; [|exact K]. intros j Hj. apply upd_page_other. intros ->. contradiction. }
  assert (c2 n = Some dn) as Hc2n by (unfold c2; by rewrite upd_page_other, upd_page_same).
  assert (forall j, is_Some (c j) -> j ∉ fst <$> dirs -> c2 j = c j) as Hfr.
  { intros j [x Hj] Hout. unfold c2. rewrite upd_page_other; [apply upd_page_other; congruence|].
    intros ->. apply Hout. unfold dirs. rewrite fmap_app. apply elem_of_app. right. by apply list_elem_of_singleton. }
  assert (forall l j, j ∈ fst <$> (dirs ++ [(n, l : list Z)]) -> j ∈ fst <$> dirs \/ c j = None) as Hdirs.
  { intros l j. rewrite (fmap_app _ dirs). intros [?|Hj]%elem_of_app; [by left|right].
    by apply list_elem_of_singleton in Hj as ->. }
  eapply wp_handle; [exact O4|lia| |].
  { intros s d' Hs Hwhy O'. eexists (-1), _, _. split; [exact O'|]. split; [done|].
    split; [destruct Hwhy as [?|[Hx|?]]; [left; lia|congruence|lia]|].
    split; [exact K2|done|by rewrite app_nil_r|done|apply Hdirs]. }
  intros i2 d5 O5. wp_step. eapply wp_handle_page; [exact O5|]. intros q _ Hqid Hcq _.
  rewrite Hc2n in Hcq. injection Hcq as Hdq. rewrite Hdq in Dn.
  change 1 with (zlen (@nil Z) + 1) at 1. change 0 with (zlen (@nil Z)) at 1.
  eapply wp_enter_id; [exact O5|exact Hqid|exact Dn|done|done|].
  intros dp d6 D3 O6. eexists _, _. split; [exact O6|]. clear d6 O6. intros d6 O6. wp_step. wp_step. wp_step.
  eexists _, _, (dirs ++ [(n, [id])]). split; [exact O6|]. split; [lia|].
  assert (c2 id = c id) as Hcid.
  { apply Hfr; [by eexists|]. intros Hx. apply Hnew, elem_of_app. by left. }
  split; [|done|done| |apply Hdirs].
  - refine (heap_append c2 _ [] (set_directory n 0 t) id _ K2 D3 _ Hid _); [|exists dt; by rewrite Hcid].
    unfold table_pages. cbn [data_pages set_directory]. intros [[Hx|Hx]%Hdirs|Hx]%elem_of_app; [|congruence|];
      apply Hnew, elem_of_app; [by left|by right].
  - intros j Hj Hout. rewrite upd_page_other; [by apply Hfr|]. intros ->. destruct Hj. congruence.
Qed.

Lemma AppendDataPageId_spec b c dirs t id dt d :
  owns b c None d -> heap_ok c dirs t -> id ∉ table_pages dirs t -> 0 <= id < kInvalidId ->
  c id = Some dt -> page_wf dt ->
  wp (AppendDataPageId id) (fun r t' d' => exists b' c' dirs', owns b' c' None d' /\
    match r with
    | inl s => ok s = false /\ (b < 2 \/ device_full c) /\ dir_grows c dirs t [] c' dirs' t'
    | inr _ => b - 2 <= b' /\ dir_grows c dirs t [id] c' dirs' t'
    end) t d.
Proof.
  intros O K Hnew Hid Hc Hw. destruct (heap_last _ _ _ K) as (init & ids & -> & Hn).
  destruct (decide (zlen ids < kDirectoryCapacity)) as [Hcap|Hcap].
  - eapply wpc_mono; [by eapply AppendDataPageId_room|]. cbn beta.
    intros r t' d' (b' & c' & dirs' & O' & Hr). exists b', c', dirs'. split; [done|].
    destruct r; [destruct Hr as (? & ? & ?); split_and!; [done|left; lia|done]|destruct Hr; split; [lia|done]].
  - unfold AppendDataPageId. wp_step. wp_step. rewrite Hn.
    replace (zlen ids <? kDirectoryCapacity) with false by lia. by eapply AppendDataPageId_link.
Qed.

(** ** Insertion *)

(** The directory changed, over contents that extend those of before. *)
Lemma dir_grows_grows c c2 dirs t new c' dirs' t' :
  heap_ok c dirs t -> (forall j, is_Some (c j) -> c2 j = c j) -> (forall j, j ∈ new -> c j = None) ->
  dir_grows c2 dirs t new c' dirs' t' -> grows c dirs t c' dirs' t'.
Proof.
  intros K Hc Hnew [K' Hr Hp Hf Hd]. split; [done|done| |].
  - intros j Hj Hn. rewrite Hf; [by apply Hc|by rewrite Hc|]. intros Hx. apply Hn, elem_of_app. by left.
  - intros j [Hj|Hj]%elem_of_app.
    + destruct (Hd j Hj) as [?|Hj']; [left; apply elem_of_app; by left|right].
      destruct (c j) eqn:Ej; [|done]. rewrite Hc in Hj' by by eexists. congruence.
    + rewrite Hp in Hj. apply elem_of_app in Hj as [?|?]; [left; apply elem_of_app; by right|right; by apply Hnew].
Qed.

Lemma dir_grows_data c c2 dirs t new c' dirs' t' j :
  heap_ok c dirs t -> (forall j, is_Some (c j) -> c2 j = c j) -> dir_grows c2 dirs t new c' dirs' t' ->
  j ∈ data_pages t -> c' j = c j.
Proof.
  intros K Hc [_ _ _ Hf _] Hj. destruct (heap_data _ _ _ K j Hj) as (dt & Hdt & _).
  rewrite Hf; [apply Hc; by eexists|rewrite Hc; by eexists|]. intros Hx.
  by destruct (proj1 (proj2 (proj1 (NoDup_app _ _) (heap_nodup _ _ _ K))) j Hx).
Qed.

(** A failed insertion leaves the map as it was. *)
Definition insert_failed c dirs t c' dirs' t' : Prop :=
  grows c dirs t c' dirs' t' /\ forall r, heap_map c' t' r = heap_map c t r.

Lemma insert_failed_dir c c2 dirs t c' dirs' t' :
  heap_ok c dirs t -> (forall j, is_Some (c j) -> c2 j = c j) -> dir_grows c2 dirs t [] c' dirs' t' ->
  insert_failed c dirs t c' dirs' t'.
Proof.
  intros K Hc Hg. split; [eapply dir_grows_grows; [done|exact Hc| |exact Hg]; by intros j ?%elem_of_nil|].
  intros r. apply heap_map_agree; [by rewrite (dg_pages _ _ _ _ _ _ _ Hg), app_nil_r|].
  intros j. by eapply dir_grows_data.
Qed.

Lemma insert_done_fresh c c2 dirs t id data dt c' dirs' t' :
  heap_ok c dirs t -> (forall j, is_Some (c j) -> c2 j = c j) -> 0 <= id < kInvalidId -> c id = None ->
  c2 id = Some dt -> SlottedPage.records dt = [Some data] -> dir_grows c2 dirs t [id] c' dirs' t' ->
  insert_done c dirs t data (MkRecordId id 0) c' dirs' (set_last_data_page id t').
Proof.
  intros K Hc Hid Hnone Hdt Hrec Hg. pose proof (dg_pages _ _ _ _ _ _ _ Hg) as Hp.
  assert (id ∉ table_pages dirs t) as Hout.
  { intros Hx. destruct (heap_page_exists _ _ _ _ K Hx). congruence. }
  assert (id ∉ data_pages t) as Hout2 by (intros Hx; apply Hout, elem_of_app; by right).
  assert (c' id = Some dt) as Hc'.
  { rewrite (dg_frame _ _ _ _ _ _ _ Hg), Hdt; [done|by eexists|]. intros Hx. apply Hout, elem_of_app. by left. }
  split_and!.
  - destruct (dir_grows_grows c c2 dirs t [id] c' dirs' t' K Hc) as [K' Hr Hf Ht]; [|done|].
    { by intros j ->%list_elem_of_singleton. }
    split; [|done|done|exact Ht]. apply heap_ok_recent; [done|]. rewrite Hp. apply elem_of_app. right.
    by apply list_elem_of_singleton.
  - unfold valid. simpl. unfold SlottedPage.kInvalidSlot. lia.
  - split; [unfold heap_map; cbn [page slot]; by rewrite decide_False by tauto|].
    intros [pg sl]. unfold heap_map. cbn [data_pages set_last_data_page page slot]. rewrite Hp.
    destruct (decide (pg = id)) as [->|Hne].
    + rewrite Hc'. simpl. rewrite Hrec. rewrite (decide_False (P := id ∈ data_pages t /\ _)) by tauto.
      destruct (decide (MkRecordId id sl = MkRecordId id 0)) as [Heq|Heq]; case_decide as Hin.
      * by injection Heq as ->.
      * destruct Hin. split; [apply elem_of_app; right; by apply list_elem_of_singleton|].
        injection Heq as ->. lia.
      * destruct Hin. assert (sl <> 0) by congruence. by rewrite lookup_ge_None_2 by (simpl; lia).
      * done.
    + rewrite (decide_False (P := _ = _)) by congruence.
      assert (pg ∈ data_pages t ++ [id] <-> pg ∈ data_pages t) as Hiff.
      { rewrite elem_of_app, list_elem_of_singleton. tauto. }
      destruct (decide (pg ∈ data_pages t /\ 0 <= sl)) as [Hd|Hd].
      * rewrite decide_True by tauto. by rewrite (dir_grows_data _ _ _ _ _ _ _ _ _ K Hc Hg) by tauto.
      * by rewrite decide_False by tauto.
Qed.

Lemma Insert_fresh_spec b c dirs t data d :
  owns b c None d -> heap_ok c dirs t -> bytes_ok data -> 0 < zlen data <= SlottedPage.kMaxRecordSize ->
  wp (Insert_fresh data true) (fun r t' d' => exists b' c' dirs', owns b' c' None d' /\
    match r with
    | inr (s, rid) =>
        if ok s then s = StatusOk /\ b - 3 <= b' /\ insert_done c dirs t data rid c' dirs' t'
        else (b < 3 \/ ~ has_room c) /\ insert_failed c dirs t c' dirs' t'
    | inl s => ok s = false /\ (b < 3 \/ ~ has_room c) /\ insert_failed c dirs t c' dirs' t'
    end) t d.
Proof.
  intros O K Hb Hlen. unfold Insert_fresh. wp_step. eapply wpc_mono; [by eapply AllocateDataPage_spec|].
  cbn beta. intros r t1 d1 (-> & Hr). destruct r as [s|id].
  { destruct Hr as (Hs & Hwhy & c' & O' & Hcc). exists (-1), c', dirs. split; [done|]. split; [done|]. split.
    - destruct Hwhy as [?|?]; [left; lia|right; by apply full_no_room].
    - apply (insert_failed_dir c c'); [done| |].
      + intros j Hj. apply Hcc; [done|tauto].
      + apply dir_grows_same; [|done]. eapply heap_ok_agree; [|exact K].
        intros j Hj. apply Hcc; [by eapply heap_page_exists|tauto]. }
  destruct Hr as (Hid & Hnone & dt & O1 & Hw & Ha).
  assert (forall x j, is_Some (c j) -> upd_page c id x j = c j) as Hc1.
  { intros x j [y Hj]. apply upd_page_other. congruence. }
  assert (id ∉ table_pages dirs t) as Hout.
  { intros Hx. destruct (heap_page_exists _ _ _ _ K Hx). congruence. }
  assert (forall x, heap_ok (upd_page c id x) dirs t) as K1.
  { intros x. eapply heap_ok_agree; [|exact K]. intros j Hj. by eapply Hc1, heap_page_exists. }
  unfold SlottedPage.abs in Ha. cbn [page_data] in Ha. injection Ha as Hrec Hlo Hhi.
  wp_step. eapply wpc_mono; [by eapply TryInsertIntoPage_spec; [exact O1|done|apply upd_page_same|..]|].
  cbn beta. intros r t2 d2 (-> & Hr). destruct r as [s|rid].
  { destruct Hr as (Hs & [(Hb1 & O2)|(_ & _ & Hfull)]).
    - exists (-1), (upd_page c id dt), dirs. split; [done|]. split; [done|]. split; [left; lia|].
      apply (insert_failed_dir c (upd_page c id dt)); [done|apply Hc1|by apply dir_grows_same].
    - exfalso. rewrite Hlo, Hhi in Hfull. unfold SlottedPage.kMaxRecordSize, SlottedPage.kHeaderSize,
        SlottedPage.kSlotEntrySize, kPageSize in *. lia. }
  destruct Hr as (dt' & O2 & Hw' & -> & Hrec'). rewrite Hrec in *. change (zlen []) with 0.
  assert (forall j, upd_page (upd_page c id dt) id dt' j = upd_page c id dt' j) as Hupd.
  { intros j. unfold upd_page. by case_decide. }
  assert (owns (b - 1) (upd_page c id dt') None d2) as O3 by (eapply owns_ext; [|exact O2]; intros; by rewrite Hupd).
  wp_step. wp_step. eapply wpc_mono.
  { eapply AppendDataPageId_spec; [exact O3|apply K1|exact Hout|exact Hid|apply upd_page_same|exact Hw']. }
  cbn beta. intros r t3 d3 (b' & c' & dirs' & O' & Hr). destruct r as [s|_].
  - destruct Hr as (Hs & Hwhy & Hg). wp_step. exists b', c', dirs'. split; [done|]. rewrite Hs.
    split; [destruct Hwhy as [?|?%full_upd_no_room]; [left; lia|by right]|].
    apply (insert_failed_dir c (upd_page c id dt')); [done|apply Hc1|exact Hg].
  - destruct Hr as (Hb' & Hg). wp_step. wp_step. wp_step. exists b', c', dirs'. split; [done|].
    rewrite ok_StatusOk. split; [done|]. split; [lia|].
    eapply insert_done_fresh; [done|apply (Hc1 dt')|done|done|apply upd_page_same|done|exact Hg].
Qed.

(** The whole insertion: with budget for every page and three more, and two
    free page ids, it succeeds. *)
Definition insert_post b c dirs t data (r : Status + (Status * RecordId)) t' d' : Prop :=
  let fails := (b < zlen (data_pages t) + 4 \/ ~ has_room c) in
  exists b' c' dirs', owns b' c' None d' /\
  match r with
  | inr (s, rid) =>
      if ok s then s = StatusOk /\ b - (zlen (data_pages t) + 4) <= b' /\ insert_done c dirs t data rid c' dirs' t'
      else fails /\ insert_failed c dirs t c' dirs' t'
  | inl s => ok s = false /\ fails /\ insert_failed c dirs t c' dirs' t'
  end.

Lemma insert_failed_refl c dirs t : heap_ok c dirs t -> insert_failed c dirs t c dirs t.
Proof. intros K. split; [by apply grows_refl|done]. Qed.

Lemma Insert_rest_spec b b0 c dirs t data d :
  owns b c None d -> b0 - 1 <= b -> heap_ok c dirs t -> bytes_ok data -> 0 < zlen data <= SlottedPage.kMaxRecordSize ->
  wp (r ← Insert_pages (data_pages t) data true;
      match r with Some rid => mret (StatusOk, rid) | None => Insert_fresh data true end)
    (insert_post b0 c dirs t data) t d.
Proof.
  intros O Hb0 K Hb Hlen. pose proof (zlen_nonneg (data_pages t)). wp_step.
  eapply wpc_mono; [eapply Insert_pages_spec; [exact O|exact K|done|done|done]|]. cbn beta.
  intros r t' d' Hr. destruct r as [s|[rid|]].
  - destruct Hr as (Hs & Hlt & -> & O'). exists (-1), c, dirs. split; [done|]. split; [done|].
    split; [left; lia|by apply insert_failed_refl].
  - destruct Hr as (b' & c' & Hb' & O' & Hdone). wp_step. exists b', c', dirs. split; [done|]. rewrite ok_StatusOk.
    split; [done|]. split; [lia|done].
  - destruct Hr as (-> & b' & Hb' & O'). eapply wpc_mono; [by eapply Insert_fresh_spec|]. cbn beta.
    intros r t2 d2 (b2 & c2 & dirs2 & O2 & Hr). exists b2, c2, dirs2. split; [done|]. destruct r as [s|[s rid]].
    + destruct Hr as (? & Hwhy & ?). split; [done|]. split; [|done]. destruct Hwhy; [left; lia|by right].
    + destruct (ok s); [destruct Hr as (? & ? & ?); split_and!; [done|lia|done]|].
      destruct Hr as (Hwhy & ?). split; [|done]. destruct Hwhy; [left; lia|by right].
Qed.

Lemma Insert_body_spec b c dirs t data d :
  owns b c None d -> heap_ok c dirs t -> bytes_ok data -> 0 < zlen data <= SlottedPage.kMaxRecordSize ->
  wp (Insert_body (Some data) true) (insert_post b c dirs t data) t d.
Proof.
  intros O K Hb Hlen. unfold Insert_body. pose proof (zlen_nonneg (data_pages t)). wp_step. wp_step.
  rewrite (heap_attached _ _ _ K). cbn [negb]. cbv zeta.
  change (default [] (Some data)) with data.
  replace (zlen data =? 0) with false by lia. replace (SlottedPage.kMaxRecordSize <? zlen data) with false by lia.
  wp_step. destruct (last_data_page t =? kInvalidId) eqn:E0; zb; cbn [negb].
  { wp_step. eapply Insert_rest_spec; [exact O|lia|done..]. }
  destruct (heap_recent _ _ _ K) as [?|Hin]; [done|].
  destruct (heap_data _ _ _ K _ Hin) as (dt & Hc & Hw). wp_step. wp_step. eapply wpc_mono.
  { eapply TryInsertIntoPage_spec; [exact O| |exact Hc|done..]. apply (heap_ids _ _ _ K), elem_of_app. by right. }
  cbn beta. intros r t' d' (-> & Hr). destruct r as [s|rid].
  - destruct Hr as (Hs & Hcase). destruct (bool_decide (code s = kBufferFull)) eqn:Ef; cbn [negb].
    + wp_step. destruct Hcase as [(Hb1 & O')|(_ & O' & _)]; eapply Insert_rest_spec; try done; lia.
    + wp_step. apply bool_decide_eq_false in Ef. destruct Hcase as [(Hb1 & O')|(? & _)]; [|done].
      exists (-1), c, dirs. split; [done|]. split; [done|]. split; [left; lia|by apply insert_failed_refl].
  - destruct Hr as (dt' & O' & Hw' & -> & Hrec). wp_step. wp_step. eexists _, _, dirs. split; [exact O'|].
    rewrite ok_StatusOk. split; [done|]. split; [lia|]. eapply insert_done_page; eauto.
Qed.

(** ** Reading, updating and deleting *)

Lemma IsDataPage_spec id t : IsDataPage id t = true <-> id ∈ data_pages t.
Proof.
  unfold IsDataPage. rewrite existsb_exists. split.
  - intros (x & Hx%list_elem_of_In & ->%Z.eqb_eq). done.
  - intros Hx%list_elem_of_In. exists id. split; [done|]. by apply Z.eqb_refl.
Qed.

Lemma heap_map_page c dirs t rid dt :
  heap_ok c dirs t -> page rid ∈ data_pages t -> 0 <= slot rid -> c (page rid) = Some dt ->
  heap_map c t rid = mjoin (SlottedPage.records dt !! Z.to_nat (slot rid)).
Proof. intros K Hin Hs Hc. unfold heap_map. by rewrite decide_True, Hc by done. Qed.

(** Reading gives the map's value, or fails where there is none. *)
Lemma Get_spec b c dirs t rid d :
  owns b c None d -> heap_ok c dirs t -> valid rid = true -> 0 <= slot rid ->
  wp (Get rid true) (fun r t' d' => t' = t /\ exists b', owns b' c None d' /\
    match r with
    | inr data => b - 1 <= b' /\ heap_map c t rid = Some data
    | inl s => ok s = false /\ (b < 1 \/ b - 1 <= b' /\ heap_map c t rid = None /\
        (code s = kNotFound \/ code s = kInvalidArgument))
    end) t d.
Proof.
  intros O K Hv Hs. unfold Get. rewrite Hv. cbn [negb]. wp_step. wp_step.
  destruct (IsDataPage (page rid) t) eqn:Ei; cbn [negb].
  2: { wp_step. split; [done|]. exists b. split; [done|]. split; [done|]. right. split; [lia|]. split; [|by left].
       unfold heap_map. rewrite decide_False; [done|]. intros [Hx%IsDataPage_spec _]. congruence. }
  apply IsDataPage_spec in Ei. destruct (heap_data _ _ _ K _ Ei) as (dt & Hc & Hw).
  rewrite (heap_map_page _ _ _ _ _ K Ei Hs Hc).
  assert (0 <= page rid < kInvalidId) as Hpg by (apply (heap_ids _ _ _ K), elem_of_app; by right).
  eapply wp_handle; [exact O|lia| |].
  { intros s d' Hok Hwhy O'. split; [done|]. exists (-1). split; [done|]. split; [done|]. left.
    destruct Hwhy as [?|[?|?]]; [done|congruence|lia]. }
  intros i d2 O2. wp_step. eapply wp_handle_page; [exact O2|]. intros p _ _ Hcp Hbuf.
  assert (page_data p = dt) as <- by congruence. destruct Hw as (_ & L & _). cbn [page_data] in L.
  wp_step. eapply wp_access; [by apply SlottedPage.Read_spec|].
  destruct (SlottedPage.records (page_data p) !! Z.to_nat (slot rid)) as [[r|]|]; cbn beta iota; wp_step;
    (apply wp_check; [intros Hok|intros Hok]; [try done|try done]); simpl mjoin.
  - eapply wp_access; [done|]. eexists _, _. split; [exact O2|]. intros d3 O3. split; [done|]. exists (b - 1).
    split; [done|]. split; [lia|done].
  - eexists _, _. split; [exact O2|]. intros d3 O3. split; [done|]. exists (b - 1).
    split; [done|]. split; [done|]. right. split; [lia|]. split; [done|by left].
  - eexists _, _. split; [exact O2|]. intros d3 O3. split; [done|]. exists (b - 1).
    split; [done|]. split; [done|]. right. split; [lia|]. split; [done|by right].
Qed.

(** Replacing or removing the record of one slot. *)
Lemma heap_map_set c dirs t rid dt dt' (x : option (list Z)) :
  heap_ok c dirs t -> page rid ∈ data_pages t -> 0 <= slot rid -> c (page rid) = Some dt ->
  is_Some (SlottedPage.records dt !! Z.to_nat (slot rid)) ->
  SlottedPage.records dt' = <[Z.to_nat (slot rid) := x]> (SlottedPage.records dt) ->
  forall r, heap_map (upd_page c (page rid) dt') t r = if decide (r = rid) then x else heap_map c t r.
Proof.
  intros K Hin Hs Hc Hlt Hrec r. rewrite heap_map_data by done. apply lookup_lt_is_Some in Hlt.
  destruct (decide (r = rid)) as [->|Hne].
  - rewrite decide_True by done. rewrite Hrec, list_lookup_insert_eq by done. done.
  - case_decide as Hd; [|done]. destruct Hd as [Hp Hsr].
    rewrite (heap_map_page c dirs t r dt) by (rewrite ?Hp; done).
    rewrite Hrec, list_lookup_insert_ne; [done|]. intros Heq. apply Hne. destruct r, rid. simpl in *.
    f_equal; lia.
Qed.

(** A slotted-page operation that changes at most one record. *)
Lemma wp_mutate b c dirs t rid (op : Page -> option (Status * Page)) (Post : Status -> list Z -> Prop) d dt :
  owns b c None d -> heap_ok c dirs t -> page rid ∈ data_pages t -> c (page rid) = Some dt ->
  (forall p, page_data p = dt -> exists s q, op p = Some (s, q) /\ SlottedPage.wf q /\ page_id q = page_id p /\
     (if ok s then page_dirty q = true else q = p) /\ Post s (page_data q)) ->
  wp (with_handle (page rid) (fun handle =>
        p ← handle_page handle; '(s, q) ← access (op p); set_handle_page handle q ;; check s))
    (fun r t' d' => t' = t /\ match r with
      | inr _ => exists dt', owns (b - 1) (upd_page c (page rid) dt') None d' /\ page_wf dt' /\
          (exists s, ok s = true /\ Post s dt')
      | inl s => ok s = false /\ (b < 1 /\ owns (-1) c None d' \/ owns (b - 1) c None d' /\ Post s dt)
      end) t d.
Proof.
  intros O K Ei Hc Hop.
  assert (0 <= page rid < kInvalidId) as Hpg by (apply (heap_ids _ _ _ K), elem_of_app; by right).
  eapply wp_handle; [exact O|lia| |].
  { intros s d' Hok Hwhy O'. split; [done|]. split; [done|]. left. split; [|done].
    destruct Hwhy as [?|[?|?]]; [done|congruence|lia]. }
  intros i d2 O2. wp_step. eapply wp_handle_page; [exact O2|]. intros p Hpage Hpid Hcp Hbuf.
  assert (page_data p = dt) as Hdt by congruence.
  destruct (Hop p Hdt) as (s & q & Hq & Hwq & Hqid & Hs & HP). wp_step. eapply wp_access; [exact Hq|].
  cbn beta iota. wp_step. eapply wp_put_page; [exact O2|exact Hpage|done|done|done|done|exact Hs|]. intros d3 O3.
  apply wp_check; intros Hok; rewrite Hok in Hs; eexists _, _; (split; [exact O3|]); intros d4 O4; (split; [done|]).
  - split; [done|]. right. subst q. rewrite Hdt in *. split; [|done].
    eapply owns_ext; [|exact O4]. intros j. unfold upd_page. by case_decide; [subst|].
  - exists (page_data q). split; [done|]. split; [exact Hwq|]. by exists s.
Qed.

Lemma refines_pair p (x : option (Status * option Page)) k a r :
  SlottedPage.refines p ('(s, q) ← x; Some (s, q, 0)) (k, a, r) ->
  exists s q, x = Some (s, Some q) /\ SlottedPage.wf q /\ page_id q = page_id p /\
    (if ok s then page_dirty q = true else q = p) /\ k = code s /\ a = SlottedPage.abs q.
Proof.
  intros (s & q & r' & Hx & Hw & Hid & Hspec & Hs). destruct x as [[s' q']|]; simpl in Hx; [|done].
  injection Hx as -> -> _. injection Hspec as -> -> _. exists s, q. by split_and!.
Qed.

Lemma Update_spec b c dirs t rid data d :
  owns b c None d -> heap_ok c dirs t -> valid rid = true -> 0 <= slot rid <= SlottedPage.kInvalidSlot ->
  bytes_ok data -> 0 < zlen data <= SlottedPage.kMaxRecordSize ->
  wp (Update rid (Some data)) (fun r t' d' => t' = t /\ exists b' c', owns b' c' None d' /\
    match r with
    | inr _ => b - 1 <= b' /\ grows c dirs t c' dirs t /\ is_Some (heap_map c t rid) /\
        forall r, heap_map c' t r = if decide (r = rid) then Some data else heap_map c t r
    | inl s => ok s = false /\ c' = c /\ (b < 1 \/ b - 1 <= b' /\
        (heap_map c t rid = None /\ (code s = kNotFound \/ code s = kInvalidArgument) \/
         code s = kBufferFull /\ exists old, heap_map c t rid = Some old /\ zlen old < zlen data))
    end) t d.
Proof.
  intros O K Hv Hs Hb Hlen. unfold Update. change (default [] (Some data)) with data.
  replace (zlen data =? 0) with false by lia. replace (SlottedPage.kMaxRecordSize <? zlen data) with false by lia.
  rewrite Hv. cbn [negb]. wp_step. wp_step. destruct (IsDataPage (page rid) t) eqn:Ei; cbn [negb].
  2: { wp_step. split; [done|]. exists b, c. split; [done|]. split; [done|]. split; [done|]. right. split; [lia|]. left.
       split; [|by left].
       unfold heap_map. rewrite decide_False; [done|]. intros [Hx%IsDataPage_spec _]. congruence. }
  apply IsDataPage_spec in Ei. destruct (heap_data _ _ _ K _ Ei) as (dt & Hc & Hw).
  pose proof (heap_map_page _ _ _ _ _ K Ei (proj1 Hs) Hc) as Hmap.
  eapply wpc_mono.
  { eapply (wp_mutate b c dirs t rid _ (fun s dq => exists a, SlottedPage.records dq = SlottedPage.sp_slots a /\
      (code s, a, 0) = SlottedPage.spec_step (SlottedPage.OpUpdate (slot rid) data)
        (SlottedPage.abs (MkPage 0 false dt)))); [exact O|exact K|exact Ei|exact Hc|].
    intros p Hdt. assert (SlottedPage.wf p) as Hwp by (unfold page_wf, SlottedPage.wf in *; simpl in *; by rewrite Hdt).
    destruct (SlottedPage.spec_step (SlottedPage.OpUpdate (slot rid) data) (SlottedPage.abs p)) as [[k a] r] eqn:Est.
    pose proof (SlottedPage.Update_refines p Hwp (slot rid) data (proj1 Hs) Hb) as Hr. rewrite Est in Hr.
    assert (r = 0) as -> by (cbn in Est; repeat case_match; congruence).
    apply refines_pair in Hr as (s & q & Hx & Hwq & Hqid & Hsq & -> & ->). exists s, q. rewrite Hx.
    split_and!; [done..|]. exists (SlottedPage.abs q). split; [done|]. rewrite <- Est. unfold SlottedPage.abs. by rewrite Hdt. }
  cbn beta. intros r t' d' (-> & Hr). split; [done|].
  cbn [SlottedPage.spec_step SlottedPage.abs SlottedPage.sp_slots SlottedPage.sp_hi SlottedPage.sp_lo page_data] in Hr.
  replace (zlen data =? 0) with false in Hr by lia.
  replace (SlottedPage.kMaxRecordSize <? zlen data) with false in Hr by lia.
  destruct r as [s|_].
  - destruct Hr as (Hok & [(Hb1 & O')|(O' & a & _ & Hspec)]).
    { exists (-1), c. split; [done|]. split; [done|]. split; [done|]. by left. }
    exists (b - 1), c. split; [done|]. split; [done|]. split; [done|]. right. split; [lia|]. rewrite Hmap.
    destruct (SlottedPage.records dt !! Z.to_nat (slot rid)) as [[old|]|]; simpl mjoin.
    + right. destruct (zlen data <=? zlen old) eqn:El; zb;
        [injection Hspec as Hk _; unfold ok in Hok; rewrite Hk in Hok; done|].
      destruct (_ <? _); injection Hspec as Hk _; [|unfold ok in Hok; rewrite Hk in Hok; done].
      split; [done|]. exists old. split; [done|lia].
    + injection Hspec as Hk _. left. auto.
    + injection Hspec as Hk _. left. auto.
  - destruct Hr as (dt' & O' & Hw' & s & Hok & a & Hrec & Hspec). eexists _, _. split; [exact O'|]. split; [lia|].
    destruct (SlottedPage.records dt !! Z.to_nat (slot rid)) as [[old|]|] eqn:El.
    2, 3: injection Hspec as Hk _; unfold ok in Hok; rewrite Hk in Hok; done.
    assert (SlottedPage.sp_slots a = <[Z.to_nat (slot rid) := Some data]> (SlottedPage.records dt)) as Ha.
    { repeat case_match; injection Hspec as Hk ->; try done. unfold ok in Hok. by rewrite Hk in Hok. }
    rewrite Ha in Hrec. split_and!.
    + split; [by apply heap_ok_data|done| |by auto]. intros j Hj Hn. apply upd_page_other. intros ->.
      apply Hn, elem_of_app. by right.
    + rewrite Hmap. by eexists.
    + eapply heap_map_set; eauto. lia.
Qed.

Lemma Delete_spec b c dirs t rid d :
  owns b c None d -> heap_ok c dirs t -> valid rid = true -> 0 <= slot rid <= SlottedPage.kInvalidSlot ->
  wp (Delete rid) (fun r t' d' => t' = t /\ exists b' c', owns b' c' None d' /\
    match r with
    | inr _ => b - 1 <= b' /\ grows c dirs t c' dirs t /\ is_Some (heap_map c t rid) /\
        forall r, heap_map c' t r = if decide (r = rid) then None else heap_map c t r
    | inl s => ok s = false /\ c' = c /\ (b < 1 \/ b - 1 <= b' /\
        heap_map c t rid = None /\ (code s = kNotFound \/ code s = kInvalidArgument))
    end) t d.
Proof.
  intros O K Hv Hs. unfold Delete. rewrite Hv. cbn [negb]. wp_step. wp_step.
  destruct (IsDataPage (page rid) t) eqn:Ei; cbn [negb].
  2: { wp_step. split; [done|]. exists b, c. split; [done|]. split; [done|]. split; [done|]. right. split; [lia|].
       split; [|by left].
       unfold heap_map. rewrite decide_False; [done|]. intros [Hx%IsDataPage_spec _]. congruence. }
  apply IsDataPage_spec in Ei. destruct (heap_data _ _ _ K _ Ei) as (dt & Hc & Hw).
  pose proof (heap_map_page _ _ _ _ _ K Ei (proj1 Hs) Hc) as Hmap.
  eapply wpc_mono.
  { eapply (wp_mutate b c dirs t rid _ (fun s dq => exists a, SlottedPage.records dq = SlottedPage.sp_slots a /\
      (code s, a, 0) = SlottedPage.spec_step (SlottedPage.OpDelete (slot rid))
        (SlottedPage.abs (MkPage 0 false dt)))); [exact O|exact K|exact Ei|exact Hc|].
    intros p Hdt. assert (SlottedPage.wf p) as Hwp by (unfold page_wf, SlottedPage.wf in *; simpl in *; by rewrite Hdt).
    destruct (SlottedPage.spec_step (SlottedPage.OpDelete (slot rid)) (SlottedPage.abs p)) as [[k a] r] eqn:Est.
    pose proof (SlottedPage.Delete_refines p Hwp (slot rid) (proj1 Hs)) as Hr. rewrite Est in Hr.
    assert (r = 0) as -> by (cbn in Est; repeat case_match; congruence).
    apply refines_pair in Hr as (s & q & Hx & Hwq & Hqid & Hsq & -> & ->). exists s, q. rewrite Hx.
    split_and!; [done..|]. exists (SlottedPage.abs q). split; [done|]. rewrite <- Est. unfold SlottedPage.abs. by rewrite Hdt. }
  cbn beta. intros r t' d' (-> & Hr). split; [done|].
  cbn [SlottedPage.spec_step SlottedPage.abs SlottedPage.sp_slots page_data] in Hr.
  destruct r as [s|_].
  - destruct Hr as (Hok & [(Hb1 & O')|(O' & a & _ & Hspec)]).
    { exists (-1), c. split; [done|]. split; [done|]. split; [done|]. by left. }
    exists (b - 1), c. split; [done|]. split; [done|]. split; [done|]. right. split; [lia|]. rewrite Hmap.
    destruct (SlottedPage.records dt !! Z.to_nat (slot rid)) as [[old|]|]; simpl mjoin;
      injection Hspec as Hk _; [|auto..]. unfold ok in Hok. by rewrite Hk in Hok.
  - destruct Hr as (dt' & O' & Hw' & s & Hok & a & Hrec & Hspec). eexists _, _. split; [exact O'|]. split; [lia|].
    destruct (SlottedPage.records dt !! Z.to_nat (slot rid)) as [[old|]|] eqn:El.
    2, 3: injection Hspec as Hk _; unfold ok in Hok; rewrite Hk in Hok; done.
    injection Hspec as _ ->. cbn [SlottedPage.sp_slots] in Hrec. split_and!.
    + split; [by apply heap_ok_data|done| |by auto]. intros j Hj Hn. apply upd_page_other. intros ->.
      apply Hn, elem_of_app. by right.
    + rewrite Hmap. by eexists.
    + eapply heap_map_set; eauto. lia.
Qed.

(** ** Scanning *)

(** The records in directory order, slot by slot, tombstones left out. *)
Definition page_records (id : Z) (dt : list Z) : list (RecordId * list Z) :=
  omap (fun '(i, r) => (MkRecordId id i,.) <$> (r : option (list Z)))
    (zip (seqZ 0 (SlottedPage.nslots dt)) (SlottedPage.records dt)).
Definition heap_records c t : list (RecordId * list Z) :=
  mjoin ((fun id => page_records id (default [] (c id))) <$> data_pages t).

(** What a visitor leaves: it sees the records one by one until it declines. *)
Fixpoint visit {C} (fn : RecordId -> list Z -> C -> bool * C) (rs : list (RecordId * list Z)) (ctx : C) : C * bool :=
  match rs with
  | [] => (ctx, false)
  | (id, r) :: rs => let '(go, ctx) := fn id r ctx in if go then visit fn rs ctx else (ctx, true)
  end.

Lemma scan_spec_visit {C} id (fn : RecordId -> list Z -> C -> bool * C) l i ctx :
  SlottedPage.scan_spec (ScanBridgeCb id fn) i l (ctx, false) =
  visit fn (omap (fun '(i, r) => (MkRecordId id i,.) <$> (r : option (list Z))) (zip (seqZ i (zlen l)) l)) ctx.
Proof.
  revert i ctx. induction l as [|[r|] l IH]; intros i ctx; [done|..]; rewrite zlen_cons, seqZ_cons by (pose proof (zlen_nonneg l); lia);
    replace (Z.pred (1 + zlen l)) with (zlen l) by lia; replace (Z.succ i) with (i + 1) by lia;
    cbn [SlottedPage.scan_spec zip zip_with omap list_omap fmap option_fmap option_map visit].
  - unfold ScanBridgeCb at 1. cbn [fst snd]. destruct (fn _ r ctx) as [[] ctx']; cbn [negb]; [apply IH|done].
  - apply IH.
Qed.

Lemma visit_app {C} (fn : RecordId -> list Z -> C -> bool * C) a b ctx :
  visit fn (a ++ b) ctx = let '(ctx, stopped) := visit fn a ctx in if stopped then (ctx, true) else visit fn b ctx.
Proof.
  revert ctx. induction a as [|[id r] a IH]; intros ctx; simpl; [done|].
  destruct (fn id r ctx) as [[] ctx']; [apply IH|done].
Qed.

Lemma Scan_pages_spec {C} b c dirs t (fn : RecordId -> list Z -> C -> bool * C) pages ctx d :
  owns b c None d -> heap_ok c dirs t -> (forall id, id ∈ pages -> id ∈ data_pages t) ->
  wp (Scan_pages pages fn ctx) (fun r t' d' => t' = t /\ exists b', owns b' c None d' /\
    match r with
    | inr ctx' => b - zlen pages <= b' /\
        ctx' = fst (visit fn (mjoin ((fun id => page_records id (default [] (c id))) <$> pages)) ctx)
    | inl s => ok s = false /\ b < zlen pages
    end) t d.
Proof.
  intros O K. revert b ctx d O. induction pages as [|id pages IH]; intros b ctx d O Hin; simpl.
  { wp_step. split; [done|]. exists b. split; [done|]. split; [change (zlen []) with 0; lia|done]. }
  rewrite zlen_cons. pose proof (zlen_nonneg pages).
  assert (id ∈ data_pages t) as Hid by (apply Hin, elem_of_cons; by left).
  destruct (heap_data _ _ _ K id Hid) as (dt & Hc & (_ & L & _)). cbn [page_data] in L.
  assert (0 <= id < kInvalidId) as Hpg by (apply (heap_ids _ _ _ K), elem_of_app; by right).
  wp_step. eapply wp_handle; [exact O|lia| |].
  { intros s d' Hs Hwhy O'. split; [done|]. exists (-1). split; [done|]. split; [done|].
    destruct Hwhy as [?|[?|?]]; [lia|congruence|lia]. }
  intros i d2 O2. wp_step. eapply wp_handle_page; [exact O2|]. intros p _ _ Hcp Hbuf.
  assert (page_data p = dt) as <- by congruence.
  wp_step. eapply wp_access; [by apply SlottedPage.Scan_spec|]. rewrite scan_spec_visit.
  rewrite SlottedPage.zlen_records by done. fold (page_records id (page_data p)).
  rewrite Hc. change (default [] (Some (page_data p))) with (page_data p). rewrite visit_app.
  destruct (visit fn (page_records id (page_data p)) ctx) as [ctx' stopped] eqn:Ev. cbn beta iota.
  wp_step. apply wp_check; [by rewrite ok_StatusOk|intros _]. wp_step. eexists _, _. split; [exact O2|].
  intros d3 O3. destruct stopped.
  - wp_step. split; [done|]. exists (b - 1). split; [done|]. split; [lia|done].
  - eapply wpc_mono; [eapply IH; [exact O3|intros j Hj; apply Hin, elem_of_cons; by right]|]. cbn beta.
    intros r t' d' (-> & b' & O' & Hr). split; [done|]. exists b'. split; [done|].
    destruct r; [destruct Hr; split; [done|lia]|destruct Hr; split; [lia|done]].
Qed.

(** The records a scan shows are the map's. *)
Lemma heap_records_map c dirs t rid data :
  heap_ok c dirs t -> (rid, data) ∈ heap_records c t <-> heap_map c t rid = Some data.
Proof.
  intros K. unfold heap_records. rewrite list_elem_of_join. setoid_rewrite list_elem_of_fmap.
  assert (forall id dt, c id = Some dt -> id ∈ data_pages t ->
    (rid, data) ∈ page_records id dt <-> page rid = id /\ heap_map c t rid = Some data) as Hpage.
  { intros id dt Hc Hid. destruct (heap_data _ _ _ K id Hid) as (dt' & Hc' & (B & _)).
    rewrite Hc in Hc'. injection Hc' as <-. cbn [page_data] in B. pose proof (SlottedPage.nslots_bound _ B).
    unfold page_records. rewrite list_elem_of_omap. split.
    - intros ([i r] & Hin & Hx). destruct r as [r|]; [|done]. injection Hx as <- ->. split; [done|].
      apply list_elem_of_lookup_1 in Hin as [k Hk]. apply lookup_zip_with_Some in Hk as (i' & r' & [= <- <-] & Hi & Hr).
      apply lookup_seqZ in Hi as [-> Hk].
      rewrite (heap_map_page c dirs t _ dt) by (done || simpl; lia). cbn [slot]. rewrite Z.add_0_l, Nat2Z.id. by rewrite Hr.
    - intros [<- Hm]. unfold heap_map in Hm. case_decide as Hd; [|done]. rewrite Hc in Hm. simpl in Hm.
      destruct (SlottedPage.records dt !! Z.to_nat (slot rid)) as [r|] eqn:Er; simpl in Hm; [|done]. subst r.
      exists (slot rid, Some data). split; [|by destruct rid].
      apply list_elem_of_lookup_2 with (Z.to_nat (slot rid)). apply lookup_zip_with_Some.
      exists (slot rid), (Some data). split; [done|]. split; [|done].
      pose proof (lookup_lt_Some _ _ _ Er) as Hl. pose proof (SlottedPage.zlen_records _ B) as Hz. unfold zlen in Hz.
      rewrite lookup_seqZ. lia. }
  split.
  - intros (l & Hin & id & -> & Hid). destruct (heap_data _ _ _ K id Hid) as (dt & Hc & _).
    rewrite Hc in Hin. by apply (Hpage id dt Hc Hid) in Hin as [_ ?].
  - intros Hm. pose proof Hm as Hm'. unfold heap_map in Hm'. case_decide as Hd; [|done]. destruct Hd as [Hid _].
    destruct (c (page rid)) as [dt|] eqn:Hc; [|done]. exists (page_records (page rid) dt).
    split; [by apply Hpage|]. exists (page rid). by rewrite Hc.
Qed.

(** ** Opening a table *)

Definition push_ids (ids : list Z) (t : HeapTable) : HeapTable :=
  MkHeapTable (ht_attached t) (ht_root t) (last_dir t) (last_dir_count t) (data_pages t ++ ids) (last_data_page t).

(** What the source demands of an id in a directory page. *)
Definition good_id c (root id : Z) : Prop := id <> kInvalidId /\ id <> root /\ is_Some (c id).

Lemma LoadDirectory_ids_spec b c i dir dt ids next n k t d :
  owns b c (Some (i, dir)) d -> c dir = Some dt -> dir_page dt ids next -> (k + n = length ids)%nat ->
  wp (LoadDirectory_ids n (Z.of_nat k) i) (fun r t' d' => owns b c (Some (i, dir)) d' /\ ht_root t' = ht_root t /\
    match r with
    | inr _ => t' = push_ids (drop k ids) t /\ Forall (good_id c (ht_root t)) (drop k ids)
    | inl s => ok s = false /\ (b < 0 \/ ~ Forall (good_id c (ht_root t)) (drop k ids))
    end) t d.
Proof.
  intros O Hc D. revert k t d O. induction n as [|n IH]; intros k t d O Hk; simpl.
  { wp_step. split; [done|]. split; [done|]. rewrite drop_ge by lia. split; [|done].
    unfold push_ids. rewrite app_nil_r. by destruct t. }
  destruct (lookup_lt_is_Some_2 ids k ltac:(lia)) as [pid Hpid]. rewrite (drop_S ids pid k Hpid).
  wp_step. eapply wp_handle_page; [exact O|]. intros p _ _ Hcp _. assert (page_data p = dt) as <- by congruence.
  wp_step. eapply wp_access; [by eapply DirectoryIdAt_ok|]. wp_step. wp_step.
  assert (0 <= pid) as Hpos.
  { rewrite <- (dir_ids _ _ _ D k pid Hpid). apply (field_bound 4), (dir_buf _ _ _ D). }
  destruct (_ || _) eqn:Hbad.
  { wp_step. split; [done|]. split; [done|]. split; [done|]. right. intros [(? & ? & _) _]%Forall_cons. lia. }
  apply orb_false_iff in Hbad as [Hb1%Z.eqb_neq Hb2%Z.eqb_neq].
  wp_step. eapply wp_exists; [exact O|done|]. intros found d2 O2 Hf1 Hf2. destruct found; cbn [negb].
  2: { wp_step. split; [done|]. split; [done|]. split; [done|].
       destruct (decide (b < 0)); [by left|right]. intros [(_ & _ & Hs) _]%Forall_cons. by specialize (Hf2 ltac:(lia) Hs). }
  wp_step. wp_step. replace (Z.of_nat k + 1) with (Z.of_nat (S k)) by lia.
  eapply wpc_mono; [apply (IH (S k)); [exact O2|lia]|]. cbn beta. intros r t' d' (O' & Hr & Hpost).
  split; [done|]. split; [done|]. change (ht_root (push_data_page pid t)) with (ht_root t) in Hpost. destruct r as [s|_].
  - destruct Hpost as (Hs & Hwhy). split; [done|]. destruct Hwhy as [?|Hn]; [by left|right].
    by intros [_ ?]%Forall_cons.
  - destruct Hpost as (-> & Hg). split; [|constructor; [by split_and!; [| |apply Hf1]|done]].
    unfold push_ids, push_data_page. simpl. by rewrite <- app_assoc.
Qed.

(** A directory page of the chain as the source checks it, after page [prev]. *)
Abbreviation good_dir c root := (good_page dir_page (fun _ : unit => Forall (good_id c root)) c tt).

Lemma LoadDirectory_page_spec b c dir prev t d :
  owns b c None d -> 0 <= dir <= kInvalidId ->
  wp (LoadDirectory_page dir prev) (fun r t' d' => exists b', owns b' c None d' /\ ht_root t' = ht_root t /\
    match r with
    | inr nxt => b - 1 <= b' /\ exists ids next, good_dir c (ht_root t) prev dir ids next /\
        t' = set_directory dir (zlen ids) (push_ids ids t) /\
        nxt = (if next =? kInvalidId then None else Some next) /\ 0 <= next <= kInvalidId
    | inl s => ok s = false /\ (b < 1 \/ dir = kInvalidId \/ forall ids next, ~ good_dir c (ht_root t) prev dir ids next)
    end) t d.
Proof.
  intros O Hdir. unfold LoadDirectory_page. eapply wp_handle; [exact O|done| |].
  { intros s d' Hs Hwhy O'. exists (-1). split; [done|]. split; [done|]. split; [done|].
    destruct Hwhy as [?|[Hn|?]]; [by left| |by right; left]. right. right. intros ids next (dt & Hdt & _). congruence. }
  intros i d2 O2. wp_step. eapply wp_handle_page; [exact O2|]. intros p _ _ Hcp Hbuf.
  assert (forall s d', ok s = false -> (b < 1 \/ forall ids next, ~ good_dir c (ht_root t) prev dir ids next) ->
    forall t', ht_root t' = ht_root t -> owns (b - 1) c (Some (i, dir)) d' ->
    exists b' c', owns b' c' (Some (i, dir)) d' /\ forall d', owns b' c' None d' -> exists b', owns b' c None d' /\
      ht_root t' = ht_root t /\ ok s = false /\
      (b < 1 \/ dir = kInvalidId \/ forall ids next, ~ good_dir c (ht_root t) prev dir ids next)) as Hfail.
  { intros s d' Hs Hwhy t' Ht' O'. exists (b - 1), c. split; [done|]. intros d3 O3. exists (b - 1).
    split_and!; [done..|]. destruct Hwhy; [by left|by right; right]. }
  destruct (ValidateDirectoryHeader_safe p Hbuf) as (s & Hs & Hvalid). wp_step. eapply wp_access; [exact Hs|].
  assert (forall ids next, good_dir c (ht_root t) prev dir ids next -> dir_page (page_data p) ids next) as Hgd.
  { intros ids next (dt & Hdt & D & _). congruence. }
  wp_step. apply wp_check; intros Hok.
  { apply Hfail; [done| |done|done]. right. intros ids next Hg. pose proof (ValidateDirectoryHeader_ok p ids next (Hgd _ _ Hg)).
    assert (s = StatusOk) by congruence. by subst. }
  specialize (Hvalid Hok). set (ids := ids_of (page_data p)) in *. set (next := field 4 (page_data p) kOffNext) in *.
  assert (0 <= next <= kInvalidId) as Hnext.
  { pose proof (field_bound 4 (page_data p) kOffNext (proj2 Hbuf)). unfold kInvalidId. lia. }
  assert (forall ids' next', good_dir c (ht_root t) prev dir ids' next' -> ids' = ids /\ next' = next) as Huniq.
  { intros ids' next' Hg%Hgd. by eapply dir_page_inj. }
  wp_step. eapply wp_access; [by eapply DirectoryCount_ok|]. wp_step. eapply wp_access; [by eapply DirectoryNext_ok|].
  wp_step. eapply wpc_mono.
  { eapply (LoadDirectory_ids_spec _ _ _ _ _ ids next _ 0); [exact O2|exact Hcp|exact Hvalid|unfold zlen; lia]. }
  cbn beta. intros r t' d' (O' & Ht' & Hr). rewrite drop_0 in Hr. destruct r as [s'|_].
  { destruct Hr as (Hs' & Hwhy). apply Hfail; [done| |done|done]. destruct Hwhy as [?|Hn]; [left; lia|right].
    intros ids' next' Hg. destruct (Huniq _ _ Hg) as [-> ->]. by destruct Hg as (_ & _ & _ & ? & _). }
  destruct Hr as (-> & Hgood). wp_step. wp_step.
  assert ((next = kInvalidId \/ next <> dir /\ next <> prev) -> good_dir c (ht_root t) prev dir ids next) as Hgd'.
  { intros Hl. exists (page_data p). by split_and!. }
  destruct (next =? kInvalidId) eqn:E1; [|destruct ((next =? dir) || (next =? prev)) eqn:E2].
  - wp_step. eexists _, _. split; [exact O'|]. intros d3 O3. exists (b - 1). split; [done|]. split; [done|]. split; [lia|].
    exists ids, next. rewrite E1. split; [apply Hgd'; left; lia|done].
  - wp_step. apply Hfail; [done| |done|done]. right. intros ids' next' Hg. destruct (Huniq _ _ Hg) as [-> ->].
    destruct Hg as (_ & _ & _ & _ & Hl). lia.
  - wp_step. eexists _, _. split; [exact O'|]. intros d3 O3. exists (b - 1). split; [done|]. split; [done|]. split; [lia|].
    exists ids, next. rewrite E1. split; [apply Hgd'; right; lia|done].
Qed.

Abbreviation dir_good c root := (good_chain (good_page dir_page (fun _ : unit => Forall (good_id c root)) c) (fun a _ => a) tt).

(** The members after the pages of a chain have been loaded. *)
Definition load_dir t (x : Z * list Z) : HeapTable := set_directory (fst x) (zlen (snd x)) (push_ids (snd x) t).
Definition loaded dirs t : HeapTable := foldl load_dir t dirs.

Lemma LoadDirectory_visit b c root dir prev (u : unit) t d :
  owns b c None d -> ht_root t = root -> 0 <= dir <= kInvalidId ->
  wp (next ← LoadDirectory_page dir prev; mret (next, tt))
    (visit_post (good_page dir_page (fun _ : unit => Forall (good_id c root)) c) load_dir (fun a _ => a) b c (fun t => ht_root t = root) t u prev dir) t d.
Proof.
  intros O <- Hdir. destruct u. wp_step. eapply wpc_mono; [by eapply LoadDirectory_page_spec|]. cbn beta.
  intros r t' d' (b' & O' & Ht' & Hr). destruct r as [s|nxt]; [by exists b'|]. wp_step. exists b'.
  split; [done|]. split; [done|]. destruct Hr as (Hb' & ids & next & Hg & -> & -> & Hn). split; [done|].
  exists ids, next. by do 4 (split; [done|]).
Qed.

(** ** Facts about chains *)

Lemma loaded_spec dirs t :
  data_pages (loaded dirs t) = data_pages t ++ mjoin (snd <$> dirs) /\ ht_root (loaded dirs t) = ht_root t /\
  ht_attached (loaded dirs t) = ht_attached t /\ last_data_page (loaded dirs t) = last_data_page t.
Proof.
  revert t. induction dirs as [|x dirs IH]; intros t; simpl; [by rewrite app_nil_r|].
  destruct (IH (load_dir t x)) as (-> & -> & -> & ->). split; [|done]. simpl. by rewrite <- app_assoc.
Qed.

Lemma loaded_last init p ids t :
  last_dir (loaded (init ++ [(p, ids)]) t) = p /\ last_dir_count (loaded (init ++ [(p, ids)]) t) = zlen ids.
Proof. unfold loaded. by rewrite foldl_app. Qed.

Lemma all_good_ids c root dirs :
  all_good (fun _ : unit => Forall (good_id c root)) (fun a _ => a) tt dirs <-> Forall (good_id c root) (mjoin (snd <$> dirs)).
Proof. induction dirs as [|[p ids] dirs IH]; simpl; [done|]. by rewrite IH, Forall_app. Qed.

(** The table that [Open] makes of a chain. *)
Definition opened_table (root : Z) (dirs : list (Z * list Z)) : HeapTable :=
  let t := loaded dirs (NewHeapTable root) in set_last_data_page (default kInvalidId (last (data_pages t))) t.

Lemma opened_table_spec root dirs :
  data_pages (opened_table root dirs) = mjoin (snd <$> dirs) /\ ht_root (opened_table root dirs) = root /\
  ht_attached (opened_table root dirs) = true.
Proof. destruct (loaded_spec dirs (NewHeapTable root)) as (Hp & Hr & Ha & _). by split_and!. Qed.

Lemma heap_ok_reopen c dirs t :
  heap_ok c dirs t -> heap_ok c dirs (opened_table (ht_root t) dirs) /\
  data_pages (opened_table (ht_root t) dirs) = data_pages t.
Proof.
  intros [Ha Hch Hr Hl Hp Hn Hi Hd Hre].
  destruct (opened_table_spec (ht_root t) dirs) as (Hp' & Hr' & Ha'). split; [|congruence].
  assert (table_pages dirs (opened_table (ht_root t) dirs) = table_pages dirs t) as Ht.
  { unfold table_pages. by rewrite Hp', Hp. }
  split; rewrite ?Ht; try done; rewrite ?Hp'; try done.
  - by rewrite Hr'.
  - destruct Hl as (init & ids & -> & _). destruct (loaded_last init (last_dir t) ids (NewHeapTable (ht_root t))) as [Hl1 Hl2].
    exists init, ids. unfold opened_table. cbn [last_dir last_dir_count set_last_data_page]. rewrite Hl1, Hl2. done.
  - by rewrite <- Hp.
  - unfold opened_table. cbn [last_data_page set_last_data_page].
    change (data_pages (loaded dirs (NewHeapTable (ht_root t)))) with (data_pages (opened_table (ht_root t) dirs)).
    rewrite Hp'. destruct (last (mjoin (snd <$> dirs))) as [x|] eqn:El; [right; by apply last_Some_elem_of|by left].
Qed.

(** Chains whose pages are all there. *)
Lemma heap_good_chain c dirs t :
  heap_ok c dirs t -> dir_good c (ht_root t) kInvalidId dirs /\ kInvalidId ∉ fst <$> dirs /\ dirs <> [].
Proof.
  intros K. pose proof (heap_nodup _ _ _ K) as Hn. unfold table_pages in Hn.
  apply NoDup_app in Hn as (Hn1 & Hn2 & _).
  assert (kInvalidId ∉ fst <$> dirs) as Hni.
  { intros Hx. assert (0 <= kInvalidId < kInvalidId); [|lia]. apply (heap_ids _ _ _ K), elem_of_app. by left. }
  destruct (heap_last _ _ _ K) as (init & ids & Hd & _).
  assert (dirs <> []) as Hne by (intros ->; by destruct init). split; [|done].
  apply chain_good_chain; [apply K|by apply NoDup_cons|done|apply all_good_ids].
  apply Forall_forall. intros id Hid. rewrite <- (heap_pages _ _ _ K) in Hid.
  assert (0 <= id < kInvalidId) by (apply (heap_ids _ _ _ K), elem_of_app; by right). split; [lia|]. split.
  - intros ->. apply (Hn2 (ht_root t)); [|done]. rewrite <- (heap_root _ _ _ K).
    destruct dirs as [|[p l] dirs]; [done|]. simpl. apply elem_of_cons. by left.
  - destruct (heap_data _ _ _ K id Hid) as (dt & -> & _). by eexists.
Qed.

(** A table's directory has at most as many pages as the file. *)
Lemma heap_dirs_below c dirs t n :
  heap_ok c dirs t -> 0 <= n -> (forall id, is_Some (c id) <-> 0 <= id < n) -> zlen dirs <= n.
Proof.
  intros K Hn Hiff. pose proof (heap_nodup _ _ _ K) as Hnd. unfold table_pages in Hnd. apply NoDup_app in Hnd as (Hnd & _).
  pose proof (NoDup_below (fst <$> dirs) n Hnd) as Hle. unfold zlen in *. rewrite length_fmap in Hle.
  rewrite Hle; [lia|]. intros x Hx. apply Hiff. eapply (heap_page_exists _ _ _ _ K), elem_of_app. by left.
Qed.

Lemma room_pages c n : 0 <= n -> some_room c -> (forall id, is_Some (c id) <-> 0 <= id < n) -> n <= kInvalidId - 3.
Proof.
  intros Hn (y & Hy & Hnone) Hiff. destruct (decide (n <= kInvalidId - 3)); [done|].
  destruct (proj2 (Hiff y) ltac:(lia)). congruence.
Qed.

(** Whatever the file holds, with room in it, loading ends, and what it accepts
    is a chain of good directory pages. *)
Lemma LoadDirectory_any b c root t d :
  owns b c None d -> ht_attached t = true -> ht_root t = root -> 0 <= root < kInvalidId -> some_room c ->
  wp LoadDirectory (fun r t' d' => exists b', owns b' c None d' /\
    match r with
    | inr _ => exists dirs, dirs <> [] /\ head_of dirs kInvalidId = root /\ dir_good c root kInvalidId dirs /\
        kInvalidId ∉ fst <$> dirs /\ b - zlen dirs <= b' /\ t' = opened_table root dirs
    | inl s => ok s = false
    end) t d.
Proof.
  intros O Ha Hr Hroot Hroom. unfold LoadDirectory. wp_step. wp_step. wp_step.
  eapply wp_num_pages; [exact O|by intros s d' Hs Hb O'; exists (-1)|].
  intros n d2 O2 Hn Hiff. wp_step. wp_step. cbn [ht_root]. rewrite Hr.
  pose proof (room_pages c n ltac:(lia) Hroom Hiff).
  rewrite (wrap_small 32) by (unfold kInvalidId in *; lia). wp_step. eapply wpc_mono.
  { eapply walk_any; [done|intros; by apply LoadDirectory_visit|exact O2|done|done|lia|unfold kInvalidId in *; lia|lia]. }
  cbn beta. intros r t' d' (b' & O' & _ & Hpost). destruct r as [s|u]; [by exists b'|].
  rewrite Ha, Hr in Hpost. destruct Hpost as (dirs & Hne & Hh & Hg & Hni & Hb' & -> & _).
  wp_step. exists b'. split; [done|]. exists dirs. by split_and!.
Qed.

(** Loading the directory of a table that is on the pages finds it, or stops on
    an error: the device fails, or the file is full. *)
Lemma LoadDirectory_found b c dirs t0 t d :
  owns b c None d -> heap_ok c dirs t0 -> ht_attached t = true -> ht_root t = ht_root t0 ->
  wp LoadDirectory (fun r t' d' => exists b', owns b' c None d' /\
    match r with
    | inr _ => b - zlen dirs <= b' /\ t' = opened_table (ht_root t0) dirs
    | inl s => ok s = false /\ (b < zlen dirs \/ ~ some_room c)
    end) t d.
Proof.
  intros O K Ha Hr. unfold LoadDirectory. wp_step. wp_step. wp_step. pose proof (zlen_nonneg dirs).
  eapply wp_num_pages; [exact O|..].
  { intros s d' Hs Hb O'. exists (-1). split_and!; [done..|left; lia]. }
  intros n d2 O2 Hn Hiff. wp_step. wp_step. cbn [ht_root].
  pose proof (heap_dirs_below c dirs t0 n K ltac:(lia) Hiff) as Hle.
  destruct (heap_good_chain _ _ _ K) as (Hg & Hni & Hne).
  pose proof (wrap_range 32 (n + 2) ltac:(lia)) as Hw. rewrite Hr, <- (heap_root _ _ _ K). wp_step. eapply wpc_mono.
  { eapply (walk_chain _ _ _ (good_page_inj _ _ _ dir_page_inj) c (fun t => ht_root t = ht_root t0));
      [done|intros; by apply LoadDirectory_visit|exact O2|by rewrite (heap_root _ _ _ K)|done|exact Hg| |lia| |lia].
    - intros p Hp. apply (heap_ids _ _ _ K), elem_of_app. by left.
    - unfold kInvalidId in *. lia. }
  cbn beta. intros r t' d' (b' & O' & _ & Hpost). destruct r as [s|u].
  - destruct Hpost as (Hs & Hwhy). exists b'. split; [done|]. split; [done|]. destruct Hwhy as [?|Hlong]; [by left|right].
    intros Hroom. pose proof (room_pages c n ltac:(lia) Hroom Hiff).
    rewrite (wrap_small 32) in Hlong by (unfold kInvalidId in *; lia). lia.
  - destruct Hpost as (Hb' & -> & _). wp_step. exists b'. split; [done|]. split; [done|]. by rewrite Ha.
Qed.

Lemma heap_root_id c dirs t : heap_ok c dirs t -> 0 <= ht_root t < kInvalidId.
Proof.
  intros K. apply (heap_ids _ _ _ K). destruct (heap_good_chain _ _ _ K) as (_ & _ & Hne).
  rewrite <- (heap_root _ _ _ K). apply elem_of_app. left. by apply head_of_in.
Qed.

Lemma Open_found b c dirs t0 d :
  owns b c None d -> heap_ok c dirs t0 ->
  exists s ot d' b', Open true (ht_root t0) d = Some (s, ot, d') /\ owns b' c None d' /\
    match ot with
    | Some t => s = StatusOk /\ t = opened_table (ht_root t0) dirs /\ b - zlen dirs <= b'
    | None => ok s = false /\ (b < zlen dirs \/ ~ some_room c)
    end.
Proof.
  intros O K. pose proof (heap_root_id _ _ _ K). unfold Open. cbn [negb].
  replace (ht_root t0 =? kInvalidId) with false by lia.
  destruct (LoadDirectory_found b c dirs t0 (NewHeapTable (ht_root t0)) d O K eq_refl eq_refl)
    as (r & t & d' & -> & b' & O' & Hr).
  exists (fst (opened r t)), (snd (opened r t)), d', b'. split; [by destruct r|]. split; [done|].
  destruct r as [s|u]; [done|]. destruct Hr. by split_and!.
Qed.
End Methods.

Abbreviation dir_good c root := (good_chain (good_page dir_page (fun _ : unit => Forall (good_id c root)) c) (fun a _ => a) tt).
