(* ===== verification/HeapTableMap.v ===== *)
(** * Heap tables: the theorems

    Sequences of calls on a table against the finite map they stand for, one
    call on a device that works, and opening a root page whatever the file
    holds. *)

From S2P Require Import Prelude Bytes Common PageStorage BufferPool BufferPoolSpec PageAccess PageChain HeapTable HeapTableSpec.
From S2P Require SlottedPage.

(** ** Calls and the map they stand for *)

Inductive heap_op :=
  | HInsert (data : option (list Z))
  | HGet (id : RecordId)
  | HUpdate (id : RecordId) (data : option (list Z))
  | HDelete (id : RecordId)
  | HScan.

Inductive heap_res :=
  | RInsert (s : Status) (id : RecordId)
  | RGet (r : Status + list Z)
  | RStatus (s : Status)
  | RScan (r : Status + list (RecordId * list Z)).

(** A visitor that collects what it is shown. *)
Definition collect (id : RecordId) (data : list Z) (acc : list (RecordId * list Z)) :
    bool * list (RecordId * list Z) := (true, acc ++ [(id, data)]).

Section Calls.
Context {E : Type} `{PageEnv E} `{!PageAlloc E}.

Definition heap_step (o : heap_op) (s : HeapTable * db E) : option (heap_res * (HeapTable * db E)) :=
  match o with
  | HInsert data => '(st, id, s) ← Insert data true s; Some (RInsert st id, s)
  | HGet id => '(r, s) ← Get id true s; Some (RGet r, s)
  | HUpdate id data => '(r, s) ← Update id data s; Some (RStatus (status r), s)
  | HDelete id => '(r, s) ← Delete id s; Some (RStatus (status r), s)
  | HScan => '(r, s) ← Scan (Some collect) [] s; Some (RScan r, s)
  end.

Fixpoint heap_run (os : list heap_op) (s : HeapTable * db E) : option (list heap_res * (HeapTable * db E)) :=
  match os with
  | [] => Some ([], s)
  | o :: os => '(r, s) ← heap_step o s; '(rs, s) ← heap_run os s; Some (r :: rs, s)
  end.
End Calls.

(** Arguments in the range of their C++ types. *)
Definition id_ok (id : RecordId) : Prop := 0 <= slot id <= SlottedPage.kInvalidSlot.
Definition heap_op_ok (o : heap_op) : Prop :=
  match o with
  | HInsert data => bytes_ok (default [] data)
  | HGet id | HDelete id => id_ok id
  | HUpdate id data => id_ok id /\ bytes_ok (default [] data)
  | HScan => True
  end.

Definition record_fits (data : option (list Z)) : Prop :=
  0 < zlen (default [] data) <= SlottedPage.kMaxRecordSize.
Abbreviation records_map := (RecordId -> option (list Z)).

(** What a call may answer on the map [m], and the map after it.  With [sure],
    which stands for a device that works, the answer is exact. *)
Definition map_step (sure : Prop) (o : heap_op) (r : heap_res) (m m' : records_map) : Prop :=
  match o, r with
  | HInsert data, RInsert s id =>
      if ok s then record_fits data /\ valid id = true /\ inserts m m' id (default [] data)
      else (forall x, m' x = m x) /\ (sure -> ~ record_fits data)
  | HGet id, RGet (inr data) => m id = Some data /\ forall x, m' x = m x
  | HGet id, RGet (inl s) => ok s = false /\ (forall x, m' x = m x) /\
      (sure -> m id = None /\ (code s = kNotFound \/ code s = kInvalidArgument))
  | HUpdate id data, RStatus s =>
      if ok s then record_fits data /\ is_Some (m id) /\
        forall x, m' x = if decide (x = id) then data else m x
      else (forall x, m' x = m x) /\ (sure ->
        ~ record_fits data \/ m id = None /\ (code s = kNotFound \/ code s = kInvalidArgument) \/
        code s = kBufferFull /\ exists old, m id = Some old /\ zlen old < zlen (default [] data))
  | HDelete id, RStatus s =>
      if ok s then is_Some (m id) /\ forall x, m' x = if decide (x = id) then None else m x
      else (forall x, m' x = m x) /\ (sure -> m id = None /\ (code s = kNotFound \/ code s = kInvalidArgument))
  | HScan, RScan (inr l) => (forall x, m' x = m x) /\ NoDup (fst <$> l) /\ forall x data, (x, data) ∈ l <-> m x = Some data
  | HScan, RScan (inl s) => ok s = false /\ (forall x, m' x = m x) /\ ~ sure
  | _, _ => False
  end.

Inductive map_run : list heap_op -> list heap_res -> records_map -> records_map -> Prop :=
  | map_run_nil m m' : (forall x, m' x = m x) -> map_run [] [] m m'
  | map_run_cons o os r rs m m1 m' :
      map_step False o r m m1 -> map_run os rs m1 m' -> map_run (o :: os) (r :: rs) m m'.

(** ** One call *)

Section Step.
Context {E : Type} `{PK : PoolKeeps E}.
Implicit Types (c : Z -> option (list Z)) (t : HeapTable) (d : db E).

Lemma heap_map_invalid c dirs t id : heap_ok c dirs t -> valid id = false -> heap_map c t id = None.
Proof.
  intros K Hv. unfold heap_map. case_decide as Hd; [|done]. destruct Hd as [Hp Hs].
  destruct (heap_data _ _ _ K _ Hp) as (dt & -> & Hw%page_wf_slots). simpl.
  assert (0 <= page id < kInvalidId) by (apply (heap_ids _ _ _ K), elem_of_app; by right).
  unfold valid, SlottedPage.kInvalidSlot in Hv. rewrite lookup_ge_None_2; [done|].
  unfold zlen in Hw. apply andb_false_iff in Hv as [Hx|Hx]; zb; lia.
Qed.

(** The record ids of a page. *)
Lemma page_records_from id (l : list (option (list Z))) i n :
  let rs := omap (fun '(i, r) => (MkRecordId id i,.) <$> (r : option (list Z))) (zip (seqZ i n) l) in
  NoDup (fst <$> rs) /\ forall x, x ∈ fst <$> rs -> page x = id /\ i <= slot x.
Proof.
  revert i n. induction l as [|r l IH]; intros i n; cbn zeta.
  { destruct (seqZ i n); (split; [constructor|by intros x ?%elem_of_nil]). }
  destruct (decide (0 < n)); [|rewrite seqZ_nil by lia; split; [constructor|by intros x ?%elem_of_nil]].
  rewrite seqZ_cons by lia. destruct (IH (Z.succ i) (Z.pred n)) as [Hn Hin]. cbn zeta in *.
  destruct r as [r|]; cbn [zip zip_with omap list_omap fmap option_fmap option_map list_fmap fst].
  - split.
    + apply NoDup_cons. split; [|exact Hn]. intros Hx. apply Hin in Hx as [_ Hx]. simpl in Hx. lia.
    + intros x [->|Hx]%elem_of_cons; [done|]. apply Hin in Hx as [? ?]. split; [done|lia].
  - split; [exact Hn|]. intros x Hx. apply Hin in Hx as [? ?]. split; [done|lia].
Qed.

Lemma heap_records_NoDup c dirs t : heap_ok c dirs t -> NoDup (fst <$> heap_records c t).
Proof.
  intros K. pose proof (heap_nodup _ _ _ K) as Hn. unfold table_pages in Hn. apply NoDup_app in Hn as (_ & _ & Hn).
  unfold heap_records. induction (data_pages t) as [|id ids IH]; [constructor|].
  apply NoDup_cons in Hn as [Hid Hn]. rewrite fmap_cons. cbn [mjoin list_join]. rewrite fmap_app.
  apply NoDup_app. split_and!; [apply page_records_from| |by apply IH].
  intros x Hx Hin. apply page_records_from in Hx as [Hp _]. apply Hid. rewrite <- Hp.
  apply list_elem_of_fmap in Hin as (y & -> & (l & Hy & Hl)%list_elem_of_join).
  apply list_elem_of_fmap in Hl as (j & -> & Hj).
  assert (page (fst y) = j) as ->; [|done]. eapply page_records_from, list_elem_of_fmap. by exists y.
Qed.

(** The budget a call may use. *)
Definition call_cost t : Z := zlen (data_pages t) + 4.

Lemma grows_same c dirs t t' : heap_ok c dirs t -> t' = t -> grows c dirs t c dirs t'.
Proof. intros K ->. by apply grows_refl. Qed.

Lemma visit_collect rs acc : visit collect rs acc = (acc ++ rs, false).
Proof.
  revert acc. induction rs as [|[id r] rs IH]; intros acc; simpl; [by rewrite app_nil_r|].
  rewrite IH. by rewrite <- app_assoc.
Qed.

(** What every call guarantees. *)
Definition step_post b c dirs t o (r : heap_res) t' d' : Prop :=
  let sure := call_cost t <= b /\ has_room c in
  exists b' c' dirs', owns b' c' None d' /\ grows c dirs t c' dirs' t' /\
    map_step sure o r (heap_map c t) (heap_map c' t') /\ (sure -> b - call_cost t <= b').

Lemma post_same b c dirs t o r b' d' :
  heap_ok c dirs t -> owns b' c None d' -> (call_cost t <= b -> b - call_cost t <= b') ->
  map_step (call_cost t <= b /\ has_room c) o r (heap_map c t) (heap_map c t) -> step_post b c dirs t o r t d'.
Proof. intros K O Hb Hm. exists b', c, dirs. split; [done|]. split; [by apply grows_refl|]. split; [done|]. tauto. Qed.

Lemma Insert_step b c dirs t data d :
  owns b c None d -> heap_ok c dirs t -> bytes_ok (default [] data) ->
  exists r t' d', heap_step (HInsert data) (t, d) = Some (r, (t', d')) /\ step_post b c dirs t (HInsert data) r t' d'.
Proof.
  intros O K Hb. unfold heap_step, Insert.
  assert (call_cost t >= 4) by (unfold call_cost; pose proof (zlen_nonneg (data_pages t)); lia).
  assert (forall s, ok s = false -> ~ record_fits data -> Insert_body data true (t, d) = Some (inl s, (t, d)) ->
    exists r t' d', ('(st, id, s) ← ('(r, s) ← Insert_body data true (t, d);
      Some (match r with inl e => (e, RecordId0) | inr (e, rid) => (e, rid) end, s)); Some (RInsert st id, s))
      = Some (r, (t', d')) /\ step_post b c dirs t (HInsert data) r t' d') as Hbad.
  { intros s Hs Hf ->. eexists _, t, d. split; [done|]. eapply post_same; [done|exact O|lia|].
    cbn [map_step]. rewrite Hs. by split. }
  destruct (decide (record_fits data)) as [Hf|Hf].
  - destruct data as [data|]; [|unfold record_fits in Hf; simpl in Hf; change (zlen []) with 0 in Hf; lia].
    destruct (Insert_body_spec b c dirs t data d O K Hb Hf) as (r & t' & d' & -> & b' & c' & dirs' & O' & Hr).
    assert (forall s, ok s = false -> ((b < zlen (data_pages t) + 4 \/ ~ has_room c) /\ insert_failed c dirs t c' dirs' t') ->
      forall id, step_post b c dirs t (HInsert (Some data)) (RInsert s id) t' d') as Hfail.
    { intros s Hs (Hwhy & Hg & Hm) id. exists b', c', dirs'. split; [done|]. unfold call_cost.
      split; [done|]. split; [|intros [? ?]; destruct Hwhy; [lia|tauto]].
      cbn [map_step]. rewrite Hs. split; [exact Hm|]. intros [? ?]. destruct Hwhy; [lia|tauto]. }
    destruct r as [s|[s id]]; (eexists _, t', d'; split; [done|]); [destruct Hr; by apply Hfail|].
    destruct (ok s) eqn:Es; [|by apply Hfail].
    destruct Hr as (-> & Hb' & Hg & Hv & Hi). exists b', c', dirs'. split; [done|]. unfold call_cost.
    split; [done|]. split; [|done]. cbn [map_step]. rewrite ok_StatusOk.
    split; [exact Hf|]. split; [exact Hv|exact Hi].
  - destruct (decide (zlen (default [] data) = 0)) as [Hz|Hz].
    + eapply Hbad; [|done|].
      2: { unfold Insert_body, mbind, Code_bind, members. cbn [mbind option_bind fst]. rewrite (heap_attached _ _ _ K).
           cbn [negb]. cbv zeta. rewrite Hz. done. }
      done.
    + assert (SlottedPage.kMaxRecordSize < zlen (default [] data)) as Hbig.
      { unfold record_fits in Hf. pose proof (zlen_nonneg (default [] data)). lia. }
      eapply Hbad; [|done|].
      2: { unfold Insert_body, mbind, Code_bind, members. cbn [mbind option_bind fst]. rewrite (heap_attached _ _ _ K).
           cbn [negb]. cbv zeta. replace (zlen (default [] data) =? 0) with false by lia.
           replace (SlottedPage.kMaxRecordSize <? zlen (default [] data)) with true by lia. done. }
      done.
Qed.

Lemma Get_step b c dirs t id d :
  owns b c None d -> heap_ok c dirs t -> id_ok id ->
  exists r t' d', heap_step (HGet id) (t, d) = Some (r, (t', d')) /\ step_post b c dirs t (HGet id) r t' d'.
Proof.
  intros O K Hid. unfold heap_step. pose proof (zlen_nonneg (data_pages t)).
  destruct (valid id) eqn:Hv.
  - destruct (Get_spec b c dirs t id d O K Hv (proj1 Hid)) as (r & t' & d' & -> & -> & b' & O' & Hr).
    eexists _, t, d'. split; [done|]. destruct r as [s|data].
    + destruct Hr as (Hs & Hwhy). unfold step_post.
      eapply post_same; [done|exact O'|unfold call_cost; lia|]. cbn [map_step]. split; [done|]. split; [done|].
      unfold call_cost. intros [? _]. destruct Hwhy as [?|(? & ? & ?)]; [lia|done].
    + destruct Hr as (Hb' & Hm). eapply post_same; [done|exact O'|unfold call_cost; lia|]. by cbn [map_step].
  - unfold Get. cbn [negb]. rewrite Hv. cbn [negb]. eexists _, t, d. split; [done|].
    eapply post_same; [done|exact O|unfold call_cost; lia|]. cbn [map_step]. split; [done|]. split; [done|].
    intros _. split; [by eapply heap_map_invalid|by right].
Qed.

Lemma Update_step b c dirs t id data d :
  owns b c None d -> heap_ok c dirs t -> id_ok id -> bytes_ok (default [] data) ->
  exists r t' d', heap_step (HUpdate id data) (t, d) = Some (r, (t', d')) /\ step_post b c dirs t (HUpdate id data) r t' d'.
Proof.
  intros O K Hid Hb. unfold heap_step. pose proof (zlen_nonneg (data_pages t)).
  destruct (decide (record_fits data)) as [Hf|Hf].
  - destruct data as [data|]; [|unfold record_fits in Hf; simpl in Hf; change (zlen []) with 0 in Hf; lia].
    change (default [] (Some data)) with data in *. destruct (valid id) eqn:Hv.
    + destruct (Update_spec b c dirs t id data d O K Hv Hid Hb Hf) as (r & t' & d' & -> & -> & b' & c' & O' & Hr).
      eexists _, t, d'. split; [done|]. destruct r as [s|u]; cbn [status].
      * destruct Hr as (Hs & -> & Hwhy). eapply post_same; [done|exact O'|unfold call_cost; lia|].
        cbn [map_step]. rewrite Hs. split; [done|]. unfold call_cost. intros [? _].
        destruct Hwhy as [?|(_ & Hwhy)]; [lia|by right].
      * destruct Hr as (Hb' & Hg & Hs & Hm). exists b', c', dirs. split; [done|]. split; [done|].
        split; [|unfold call_cost; lia]. cbn [map_step]. rewrite ok_StatusOk. by split_and!.
    + unfold Update. change (default [] (Some data)) with data. unfold record_fits in Hf. simpl in Hf.
      replace (zlen data =? 0) with false by lia. replace (SlottedPage.kMaxRecordSize <? zlen data) with false by lia.
      rewrite Hv. cbn [negb]. eexists _, t, d. split; [done|]. eapply post_same; [done|exact O|unfold call_cost; lia|].
      cbn [map_step status]. rewrite ok_Bad. split; [done|]. intros _. right. left.
      split; [by eapply heap_map_invalid|by right].
  - assert (forall s, ok s = false -> step_post b c dirs t (HUpdate id data) (RStatus s) t d) as Hbad.
    { intros s Hs. eapply post_same; [done|exact O|unfold call_cost; lia|]. cbn [map_step]. rewrite Hs.
      split; [done|]. intros _. by left. }
    unfold Update. destruct (zlen (default [] data) =? 0) eqn:Hz.
    { eexists _, t, d. split; [done|]. by apply Hbad. }
    assert (SlottedPage.kMaxRecordSize < zlen (default [] data)) as Hbig.
    { unfold record_fits in Hf. zb. pose proof (zlen_nonneg (default [] data)). lia. }
    replace (SlottedPage.kMaxRecordSize <? zlen (default [] data)) with true by lia.
    eexists _, t, d. split; [done|]. by apply Hbad.
Qed.

Lemma Delete_step b c dirs t id d :
  owns b c None d -> heap_ok c dirs t -> id_ok id ->
  exists r t' d', heap_step (HDelete id) (t, d) = Some (r, (t', d')) /\ step_post b c dirs t (HDelete id) r t' d'.
Proof.
  intros O K Hid. unfold heap_step. pose proof (zlen_nonneg (data_pages t)). destruct (valid id) eqn:Hv.
  - destruct (Delete_spec b c dirs t id d O K Hv Hid) as (r & t' & d' & -> & -> & b' & c' & O' & Hr).
    eexists _, t, d'. split; [done|]. destruct r as [s|u]; cbn [status].
    + destruct Hr as (Hs & -> & Hwhy). eapply post_same; [done|exact O'|unfold call_cost; lia|].
      cbn [map_step]. rewrite Hs. split; [done|]. unfold call_cost. intros [? _].
      destruct Hwhy as [?|(_ & Hwhy)]; [lia|done].
    + destruct Hr as (Hb' & Hg & Hs & Hm). exists b', c', dirs. split; [done|]. split; [done|].
      split; [|unfold call_cost; lia]. cbn [map_step]. rewrite ok_StatusOk. by split_and!.
  - unfold Delete. rewrite Hv. cbn [negb]. eexists _, t, d. split; [done|].
    eapply post_same; [done|exact O|unfold call_cost; lia|].
    cbn [map_step status]. rewrite ok_Bad. split; [done|]. intros _. split; [by eapply heap_map_invalid|by right].
Qed.

Lemma Scan_step b c dirs t d :
  owns b c None d -> heap_ok c dirs t ->
  exists r t' d', heap_step HScan (t, d) = Some (r, (t', d')) /\ step_post b c dirs t HScan r t' d'.
Proof.
  intros O K. unfold heap_step, Scan. pose proof (zlen_nonneg (data_pages t)).
  assert (wp (t ← members; Scan_pages (data_pages t) collect []) (fun r t' d' => step_post b c dirs t HScan (RScan r) t' d') t d)
    as (r & t' & d' & -> & Hp); [|by eexists _, t', d'].
  wp_step. wp_step. eapply wpc_mono; [eapply (Scan_pages_spec b c dirs); [exact O|exact K|done]|]. cbn beta.
  intros r t' d' (-> & b' & O' & Hr). destruct r as [s|l].
  - destruct Hr as (Hs & Hb). eapply post_same; [done|exact O'|unfold call_cost; lia|]. cbn [map_step].
    split; [done|]. split; [done|]. unfold call_cost. lia.
  - destruct Hr as (Hb & ->). eapply post_same; [done|exact O'|unfold call_cost; lia|].
    fold (heap_records c t). rewrite visit_collect. cbn [map_step fst app]. split; [done|].
    split; [by eapply heap_records_NoDup|]. intros x data. by eapply heap_records_map.
Qed.

Lemma heap_step_spec b c dirs t o d :
  owns b c None d -> heap_ok c dirs t -> heap_op_ok o ->
  exists r t' d', heap_step o (t, d) = Some (r, (t', d')) /\ step_post b c dirs t o r t' d'.
Proof.
  intros O K Ho. destruct o; simpl in Ho.
  - by apply Insert_step.
  - by apply Get_step.
  - destruct Ho. by apply Update_step.
  - by apply Delete_step.
  - by apply Scan_step.
Qed.

(** The calls of a run, one after the other. *)
Lemma map_step_imp (sure sure' : Prop) o r m m' :
  (sure' -> sure) -> map_step sure o r m m' -> map_step sure' o r m m'.
Proof.
  destruct o, r as [s id'|[s|x]|s|[s|l]]; cbn [map_step]; try destruct (ok s); tauto.
Qed.

Lemma heap_run_spec b c dirs t os d :
  owns b c None d -> heap_ok c dirs t -> Forall heap_op_ok os ->
  exists rs t' d', heap_run os (t, d) = Some (rs, (t', d')) /\
    exists b' c' dirs', owns b' c' None d' /\ grows c dirs t c' dirs' t' /\
      map_run os rs (heap_map c t) (heap_map c' t').
Proof.
  intros O K Hos. revert b c dirs t d O K. induction Hos as [|o os Ho _ IH]; intros b c dirs t d O K; simpl.
  { eexists _, t, d. split; [done|]. exists b, c, dirs. split; [done|]. split; [by apply grows_refl|by constructor]. }
  destruct (heap_step_spec b c dirs t o d O K Ho) as (r & t1 & d1 & -> & b1 & c1 & dirs1 & O1 & G1 & M1 & _).
  destruct (IH b1 c1 dirs1 t1 d1 O1 (grows_ok _ _ _ _ _ _ G1)) as (rs & t2 & d2 & Hr & b2 & c2 & dirs2 & O2 & G2 & M2).
  simpl. rewrite Hr. eexists _, t2, d2. split; [done|]. exists b2, c2, dirs2. split; [done|].
  split; [by eapply grows_trans|]. econstructor; [by eapply map_step_imp; [|exact M1]|done].
Qed.

(** ** A new table *)

Lemma Create_spec b c d :
  owns b c None d ->
  exists s ot d', Create true d = Some (s, ot, d') /\ exists b' c', owns b' c' None d' /\
    (forall j, is_Some (c j) -> c' j = c j) /\
    match ot with
    | Some t => s = StatusOk /\ exists ids, heap_ok c' [(ht_root t, ids)] t /\ (forall id, heap_map c' t id = None) /\
        c (ht_root t) = None /\ data_pages t = [] /\ b - 1 <= b' /\ forall j, j <> ht_root t -> c' j = c j
    | None => ok s = false /\ (b < 1 \/ ~ has_room c)
    end.
Proof.
  intros O. unfold Create. cbn [negb].
  match goal with |- context [mbind (M := Code E HeapTable) ?k ?m] => set (body := mbind (M := Code E HeapTable) k m) end.
  assert (wp body (fun r t d' => exists b' c', owns b' c' None d' /\ (forall j, is_Some (c j) -> c' j = c j) /\
    match r with
    | inr _ => exists ids, heap_ok c' [(ht_root t, ids)] t /\ (forall id, heap_map c' t id = None) /\
        c (ht_root t) = None /\ data_pages t = [] /\ b - 1 <= b' /\ forall j, j <> ht_root t -> c' j = c j
    | inl s => ok s = false /\ (b < 1 \/ ~ has_room c)
    end) (NewHeapTable kInvalidId) d) as (r & t & d' & Hb & b' & c' & O' & Hsame & Hr).
  2: { rewrite Hb. destruct r as [s|u]; eexists _, _, d'; (split; [done|]); exists b', c'; (split; [done|]); (split; [done|]);
         cbn [opened]; [exact Hr|split; [done|exact Hr]]. }
  unfold body. eapply wp_new_directory; [exact O|..].
  { intros s d' c' Hs Hwhy O' Hc. exists (-1), c'. split; [done|]. split; [exact Hc|]. split; [done|].
    destruct Hwhy as [?|?%full_no_room]; [left; lia|by right]. }
  intros p dn d1 Hp Hnone Dn O1. wp_step. wp_step. set (n := page_id p) in *.
  assert (forall j, is_Some (c j) -> upd_page c n dn j = c j) as Hsame.
  { intros j [x Hj]. apply upd_page_other. congruence. }
  assert (heap_ok (upd_page c n dn) [(n, [])] (opened_table n [(n, [])])) as K.
  { split; try done.
    - split; [|done]. exists dn. split; [apply upd_page_same|done].
    - by exists [], [].
    - apply NoDup_singleton.
    - intros id Hid%list_elem_of_singleton. by subst.
    - intros id Hid. by apply elem_of_nil in Hid.
    - by left. }
  eapply wpc_mono; [by eapply LoadDirectory_found|].
  cbn beta. intros r t d2 (b' & O2 & Hr). exists b', (upd_page c n dn). split; [done|]. split; [exact Hsame|].
  rewrite zlen_single in Hr. destruct r as [s|u].
  - destruct Hr as (Hs & Hwhy). split; [done|]. destruct Hwhy as [?|Hn]; [by left|right].
    intros Hroom. by apply Hn, upd_some_room.
  - destruct Hr as (Hb' & ->). exists []. split; [done|]. split; [|split_and!; [done|done|lia|by apply upd_page_other]].
    intros id. unfold heap_map. rewrite decide_False; [done|]. intros [Hx _]. by apply elem_of_nil in Hx.
Qed.
End Step.

(** ** Theorems *)

Section Fresh.
Context {E : Type} `{PK : PoolKeeps E}.

(** A process that has just created its pool, with or without a log. *)
Lemma fresh_owns_sink sink capacity (e : E) bp b :
  env_inv e -> 0 < capacity <= kMaxFrames -> BufferPool.Create true true capacity = (StatusOk, Some bp) ->
  ghost (SetLogSink sink bp) e -> (0 <= b -> env_healthy e /\ b < UINT64_MAX) ->
  owns b (disk e) None (SetLogSink sink bp, e).
Proof.
  intros He Hc Hbp Hg Hb. destruct (Create_ok capacity e bp He Hc Hbp) as (I & _ & Hlog).
  unfold BufferPool.Create in Hbp. replace (capacity =? 0) with false in Hbp by lia. injection Hbp as <-.
  split; cbn [fst snd]; [by destruct I; split|exact Hlog|done|done|done|].
  intros H0'. destruct (Hb H0') as [Hh Hlt]. split; [exact Hh|exact Hlt|].
  intros j f [-> _]%lookup_replicate. by rewrite decide_False.
Qed.

Lemma fresh_owns capacity (e : E) bp b :
  env_inv e -> 0 < capacity <= kMaxFrames -> BufferPool.Create true true capacity = (StatusOk, Some bp) ->
  ghost bp e -> (0 <= b -> env_healthy e /\ b < UINT64_MAX) -> owns b (disk e) None (bp, e).
Proof.
  intros He Hc Hbp. assert (SetLogSink false bp = bp) as Hs; [|rewrite <- Hs; by apply (fresh_owns_sink _ capacity)].
  unfold BufferPool.Create in Hbp. destruct (capacity =? 0); simpl in Hbp; [done|]. by injection Hbp as <-.
Qed.
End Fresh.

(** Maps with the same values are the same map. *)
Lemma map_step_ext (sure : Prop) o r (m0 m m' : records_map) :
  (forall x, m0 x = m x) -> map_step sure o r m m' -> map_step sure o r m0 m'.
Proof.
  intros Hm. destruct o, r as [s id'|[s|x]|s|[s|l]]; cbn [map_step]; unfold inserts; try destruct (ok s);
    repeat setoid_rewrite Hm; try done; intros Hs; destruct_and?; split_and?; try done;
    intros y; rewrite Hm; auto.
Qed.

Lemma map_run_ext os rs (m0 m m' : records_map) :
  (forall x, m0 x = m x) -> map_run os rs m m' -> map_run os rs m0 m'.
Proof.
  intros Hm Hr. destruct Hr as [m m' Hx|o os r rs m m1 m' Hs Hr]; [constructor; intros; by rewrite Hx|].
  econstructor; [by eapply map_step_ext|done].
Qed.

(** C8: A heap table is a finite map.  Create a table over any pool and
    device, then make any calls on it, whatever fails: every call returns
    without leaving a buffer; insertions that succeed give a valid id the map
    did not have and bind it to the record, a successful Get returns what the
    map holds, Update and Delete change exactly their record, a successful Scan
    shows every record once, and a call that fails leaves the map unchanged.  No
    page that existed before the table is ever changed. *)
Theorem heap_refines_map {E} `{PoolKeeps E} b c (d : db E) os :
  owns b c None d -> Forall heap_op_ok os ->
  exists s ot d1, Create true d = Some (s, ot, d1) /\
    match ot with
    | None => ok s = false
    | Some t => s = StatusOk /\ exists rs t2 d2 b2 c2 dirs2 m, heap_run os (t, d1) = Some (rs, (t2, d2)) /\
        map_run os rs (fun _ => None) m /\
        owns b2 c2 None d2 /\ heap_ok c2 dirs2 t2 /\ (forall id, heap_map c2 t2 id = m id) /\
        forall j, is_Some (c j) -> c2 j = c j
    end.
Proof.
  intros O Hos. destruct (Create_spec b c d O) as (s & ot & d1 & HC & b1 & c1 & O1 & Hsame & Hr).
  exists s, ot, d1. split; [done|]. destruct ot as [t|]; [|tauto].
  destruct Hr as (-> & ids & K & Hm & Hroot & Hp & _). split; [done|].
  destruct (heap_run_spec b1 c1 _ t os d1 O1 K Hos) as (rs & t2 & d2 & Hrun & b2 & c2 & dirs2 & O2 & G & M).
  exists rs, t2, d2, b2, c2, dirs2, (heap_map c2 t2). split; [done|]. split.
  - eapply map_run_ext; [|exact M]. intros id. by rewrite Hm.
  - split; [done|]. split; [apply G|]. split; [done|]. intros j Hj. rewrite <- (Hsame j Hj).
    apply (grows_frame _ _ _ _ _ _ G); [by rewrite Hsame|]. unfold table_pages. rewrite Hp. simpl.
    intros ->%list_elem_of_singleton. destruct Hj. congruence.
Qed.

(** On a device that works, with nothing pinned and room for two pages,
    every call gives the exact answer of the map: an insertion of a record that
    fits succeeds, Get succeeds exactly on the map's records, Delete and Update
    succeed on them and fail elsewhere with kNotFound or kInvalidArgument, except
    that growing a record may report kBufferFull, and Scan succeeds. *)
Theorem heap_calls_exact {E} `{PoolKeeps E} b c dirs t (d : db E) o :
  owns b c None d -> heap_ok c dirs t -> heap_op_ok o -> call_cost t <= b -> has_room c ->
  exists r t' d' c' dirs', heap_step o (t, d) = Some (r, (t', d')) /\
    map_step True o r (heap_map c t) (heap_map c' t') /\
    owns (b - call_cost t) c' None d' /\ heap_ok c' dirs' t'.
Proof.
  intros O K Ho Hb Hroom.
  destruct (heap_step_spec b c dirs t o d O K Ho) as (r & t' & d' & Hs & b' & c' & dirs' & O' & G & M & Hb').
  exists r, t', d', c', dirs'. split; [done|]. split; [by eapply map_step_imp; [|exact M]|].
  split; [|apply G]. eapply owns_weaken; [|exact O']. intros _. by apply Hb'.
Qed.

Lemma heap_dirs_short c dirs t : heap_ok c dirs t -> zlen dirs < UINT64_MAX.
Proof.
  intros K. pose proof (heap_nodup _ _ _ K) as Hnd. unfold table_pages in Hnd. apply NoDup_app in Hnd as (Hnd & _).
  assert (zlen (fst <$> dirs) <= Z.max 0 kInvalidId) as Hle.
  { apply (NoDup_below _ _ Hnd). intros x Hx. apply (heap_ids _ _ _ K), elem_of_app. by left. }
  unfold zlen in *. rewrite length_fmap in Hle. unfold UINT64_MAX, kInvalidId in *. lia.
Qed.

(** Opening a table ends, whatever the file holds.  For any contents and
    any failures Open returns without reading outside a page and without
    changing a page; when it succeeds, the root starts a finite chain of
    directory pages with the right magic, version and counts, linked as the
    table recorded, and every data page listed exists and is not the root. *)
Theorem heap_open_total {E} `{PoolKeeps E} b c root (d : db E) :
  owns b c None d -> some_room c -> 0 <= root <= kInvalidId ->
  exists s ot d' b', Open true root d = Some (s, ot, d') /\ owns b' c None d' /\
    if ok s then exists t dirs, ot = Some t /\ head_of dirs kInvalidId = root /\ dirs <> [] /\
      dir_chain c dirs kInvalidId /\ dir_good c root kInvalidId dirs /\
      ht_root t = root /\ data_pages t = mjoin (snd <$> dirs) /\ Forall (good_id c root) (data_pages t)
    else ot = None.
Proof.
  intros O Hroom Hroot. unfold Open. cbn [negb].
  destruct (root =? kInvalidId) eqn:E0; zb.
  { exists (Bad "HeapTable::Open: invalid root page id"), None, d, b. by rewrite ok_Bad. }
  destruct (LoadDirectory_any b c root (NewHeapTable root) d O eq_refl eq_refl ltac:(lia) Hroom)
    as (r & t & d' & -> & b' & O' & Hr).
  exists (fst (opened r t)), (snd (opened r t)), d', b'. split; [by destruct r|]. split; [done|].
  destruct r as [s|u]; cbn [opened fst snd]; [by rewrite Hr|]. rewrite ok_StatusOk.
  destruct Hr as (dirs & Hne & Hh & Hg & _ & _ & ->). destruct (opened_table_spec root dirs) as (Hp & Hr' & _).
  exists (opened_table root dirs), dirs. split_and!; [done..|by eapply good_chain_chain|done|done|done|].
  rewrite Hp. by apply all_good_ids, (good_chain_chain _ _ _ _ _ _ _ Hg).
Qed.

(** ** The theorems on a small database *)

(** An empty file, and a pool of two frames. *)
Definition blank : storage := MkStorage (fresh_stream [] []) "db" true.
Definition two_frames : BufferPool := MkPool true 2 [Frame0; Frame0] 0 false.
Definition demo_db : db storage := (two_frames, blank).
Definition heap_demo_ops : list heap_op :=
  [HInsert (Some [1; 2; 3]); HGet (MkRecordId 1 0); HUpdate (MkRecordId 1 0) (Some [4]); HDelete (MkRecordId 9 0); HScan].

Lemma blank_ok : st_ok blank.
Proof. split_and!; [done|constructor|by exists 0|done]. Qed.

Lemma demo_owns b : b < UINT64_MAX -> owns b (@disk _ _ storage_env_laws blank) None demo_db.
Proof.
  intros Hb. apply (fresh_owns 2 blank); [apply st_ok_sound, blank_ok|by split; vm_compute|done|done|].
  intros _. split; [split; [apply blank_ok|done]|done].
Qed.

Lemma demo_room : has_room (@disk _ _ storage_env_laws blank).
Proof. exists 0, 1. by split_and!. Qed.

Lemma heap_demo_ops_ok : Forall heap_op_ok heap_demo_ops.
Proof.
  assert (forall l, forallb (fun x => (0 <=? x) && (x <? 256))%Z l = true -> bytes_ok l) as Hb.
  { intros l Hl. apply Forall_forall. intros x Hx%list_elem_of_In. rewrite forallb_forall in Hl.
    apply Hl in Hx. unfold byte_ok. lia. }
  apply Forall_cons_2; [by apply Hb|]. apply Forall_cons_2; [by split|].
  apply Forall_cons_2; [split; [by split|by apply Hb]|]. apply Forall_cons_2; [by split|].
  by apply Forall_cons_2.
Qed.

(** The answers of a run on the table that a [Create] gave. *)
Definition results_of (r : option (Status * option HeapTable * db storage)) (os : list heap_op) : option (list heap_res) :=
  match r with
  | Some (_, Some t, d) => fst <$> heap_run os (t, d)
  | _ => None
  end.

Lemma results_of_run r s ot d os res (P : list heap_res -> Prop) :
  r = Some (s, ot, d) ->
  match ot with
  | None => True
  | Some t => exists rs t2 d2, heap_run os (t, d) = Some (rs, (t2, d2)) /\ P rs
  end -> results_of r os = Some res -> P res.
Proof.
  intros -> Ht Hr. destruct ot as [t|]; [|done]. destruct Ht as (rs & t2 & d2 & Hrun & HP).
  unfold results_of in Hr. rewrite Hrun in Hr. by injection Hr as <-.
Qed.

Definition demo_answers : list heap_res :=
  [RInsert StatusOk (MkRecordId 1 0); RGet (inr [1; 2; 3]); RStatus StatusOk;
   RStatus (StatusError kNotFound "heap table: record id does not name a table page");
   RScan (inr [(MkRecordId 1 0, [4])])].

Lemma demo_results : results_of (Create true demo_db) heap_demo_ops = Some demo_answers.
Proof. by vm_compute. Qed.

Lemma heap_refines_map_witness : exists m, map_run heap_demo_ops demo_answers (fun _ => None) m.
Proof.
  destruct (heap_refines_map (-1) _ demo_db heap_demo_ops (demo_owns (-1) eq_refl) heap_demo_ops_ok)
    as (s & ot & d1 & HC & Hot).
  apply (results_of_run (Create true demo_db) s ot d1 heap_demo_ops demo_answers
    (fun rs => exists m, map_run heap_demo_ops rs (fun _ => None) m) HC); [|exact demo_results].
  destruct ot as [t|]; [|exact Logic.I].
  destruct Hot as (_ & rs & t2 & d2 & b2 & c2 & dirs2 & m & Hrun & HM & _).
  exists rs, t2, d2. split; [exact Hrun|]. exists m. exact HM.
Defined.

Lemma heap_calls_exact_witness : exists t d1 s id t' d',
  heap_step (HInsert (Some [7])) (t, d1) = Some (RInsert s id, (t', d')) /\ ok s = true.
Proof.
  destruct (Create_spec 10 _ demo_db (demo_owns 10 eq_refl))
    as (s & [t|] & d1 & _ & b' & c' & O' & _ & Hr); [|destruct Hr as (_ & [?|Hn]); [lia|by destruct (Hn demo_room)]].
  destruct Hr as (_ & ids & K & _ & _ & Hp & Hb & Hc).
  assert (call_cost t <= b') as Hcost by (unfold call_cost; rewrite Hp; change (zlen []) with 0; lia).
  assert (has_room c') as Hroom.
  { destruct (decide (ht_root t = 0)); [exists 1, 2|destruct (decide (ht_root t = 1)); [exists 0, 2|exists 0, 1]];
      (split; [lia|]); (split; [by split|]); (split; [by split|]); rewrite !Hc by lia; by split. }
  assert (heap_op_ok (HInsert (Some [7]))) as Ho by (apply Forall_cons_2; [by split|done]).
  destruct (heap_calls_exact b' c' _ t d1 (HInsert (Some [7])) O' K Ho Hcost Hroom)
    as (r & t' & d' & c2 & dirs2 & Hs & HM & _).
  destruct r as [s' id|?|?|?]; [|done..]. cbn [map_step] in HM. exists t, d1, s', id, t', d'. split; [exact Hs|].
  destruct (ok s') eqn:Eo; [done|]. destruct HM as [_ Hbad]. by destruct (Hbad Logic.I).
Defined.

Lemma heap_open_total_witness : exists s ot d', Open true 0 (two_frames, two_pages []) = Some (s, ot, d').
Proof.
  assert (owns (-1) (@disk _ _ storage_env_laws (two_pages [])) None (two_frames, two_pages [])) as O.
  { apply (fresh_owns 2 (two_pages [])); [apply two_pages_sound|by split; vm_compute|done|done|lia]. }
  assert (some_room (@disk _ _ storage_env_laws (two_pages []))) as Hroom.
  { exists 2. split; [by split|]. apply (contents_None (two_pages []) 2); by vm_compute. }
  destruct (heap_open_total (-1) _ 0 _ O Hroom ltac:(by split)) as (s & ot & d' & b' & HO & _).
  exists s, ot, d'. exact HO.
Defined.

(** ** What modelling showed *)

(** [heap_table.h] promises kBadState for a malformed directory chain; a bad
    magic, version or count is reported as kInvalidArgument. *)
Lemma open_bad_magic :
  (fun r => code (fst (fst r))) <$> Open true 0 (two_frames, two_pages []) = Some kInvalidArgument.
Proof. by vm_compute. Qed.

(** [Insert] tests [out] for null before it clears it, then stores through it
    without a test. *)
Lemma insert_null_out :
  match Create true demo_db with
  | Some (_, Some t, d) => Insert (Some [1]) false (t, d)
  | _ => Some (StatusOk, RecordId0, (NewHeapTable 0, demo_db))
  end = None.
Proof. by vm_compute. Qed.

(** When every frame is pinned, [Insert] takes the pool's kBufferFull for a full
    page and allocates a page, which no one owns afterwards. *)
Definition leaking_insert : option (DbError * Z) :=
  match Create true (MkPool true 1 [Frame0] 0 false, blank) with
  | Some (_, Some t, (bp, st)) =>
      let '(_, _, bp, st) := Fetch true (ht_root t) bp st in
      '(s, _, (t, (_, st))) ← Insert (Some [1]) true (t, (bp, st));
      Some (code s, npages st - 1 - data_page_count t)
  | _ => None
  end.

Lemma pinned_insert_leaks_page : leaking_insert = Some (kBufferFull, 1).
Proof. by vm_compute. Qed.
