(* ===== verification/Catalog.v ===== *)
(** * The catalog

    [include/db/catalog.h] and [src/db/catalog/catalog.cpp]: the names of the
    heap tables and their root pages, on a chain of catalog pages.  [Catalog]
    holds the members of the object; the methods are [Code] over them, the pool
    and the storage.  A [std::string] is the list of its bytes. *)

From S2P Require Import Prelude Bytes Common PageStorage BufferPool BufferPoolSpec PageAccess PageChain HeapTable.

(** ** Catalog pages *)

Definition kMagic0 : Z := 0x4E.
Definition kMagic1 : Z := 0x43.
Definition kMagic2 : Z := 0x41.
Definition kMagic3 : Z := 0x31.
Definition kHeaderSize : Z := 16.
Definition kNameFieldSize : Z := 32.
Definition kEntrySize : Z := kNameFieldSize + 4.
Definition kCapacity : Z := (kPageSize - kHeaderSize) / kEntrySize.
Definition kMaxTableNameLength : Z := kNameFieldSize - 1.
Definition kVersion : Z := 1.
Definition kOffMagic : Z := 0.
Definition kOffVersion : Z := 4.
Definition kOffReserved : Z := 6.
Definition kOffCount : Z := 8.
Definition kOffNext : Z := 12.
Definition kOffEntries : Z := kHeaderSize.

Definition BadState (msg : string) : Status := StatusError kBadState msg.

Definition EntryOffset (index : Z) : Z := kOffEntries + index * kEntrySize.

Definition InitCatalogPage (page : Page) : option Page :=
  d ← memset (page_data page) 0 0 kPageSize;
  d ← put d (kOffMagic + 0) [kMagic0];
  d ← put d (kOffMagic + 1) [kMagic1];
  d ← put d (kOffMagic + 2) [kMagic2];
  d ← put d (kOffMagic + 3) [kMagic3];
  d ← WriteU16 d kOffVersion kVersion;
  d ← WriteU16 d kOffReserved 0;
  d ← WriteU32 d kOffCount 0;
  d ← WriteU32 d kOffNext kInvalidId;
  Some (MarkDirty (set_data page d)).

Definition ValidateCatalogHeader (page : Page) : option Status :=
  let d := page_data page in
  m0 ← at_ d (kOffMagic + 0);
  m1 ← at_ d (kOffMagic + 1);
  m2 ← at_ d (kOffMagic + 2);
  m3 ← at_ d (kOffMagic + 3);
  if negb (m0 =? kMagic0) || negb (m1 =? kMagic1) || negb (m2 =? kMagic2) || negb (m3 =? kMagic3) then
    Some (Bad "catalog: page has bad magic") else
  version ← ReadU16 d kOffVersion;
  if negb (version =? kVersion) then Some (Bad "catalog: unsupported version") else
  count ← ReadU32 d kOffCount;
  if kCapacity <? count then Some (Bad "catalog: page count out of range") else
  Some StatusOk.

Definition CatalogCount (page : Page) : option Z := ReadU32 (page_data page) kOffCount.
Definition CatalogNext (page : Page) : option Z := ReadU32 (page_data page) kOffNext.
Definition SetCatalogCount (page : Page) (count : Z) : option Page :=
  set_data page <$> WriteU32 (page_data page) kOffCount count.
Definition SetCatalogNext (page : Page) (next : Z) : option Page :=
  set_data page <$> WriteU32 (page_data page) kOffNext next.

(** The name in the field of [d] at [off], from its [i]-th byte on; [Some None]
    when the field has no terminator. *)
Fixpoint ReadNameField_from (n : nat) (d : list Z) (off i : Z) : option (option (list Z)) :=
  match n with
  | O => Some None
  | S n =>
      b ← at_ d (off + i);
      if b =? 0 then Some <$> get d off i else ReadNameField_from n d off (i + 1)
  end.
Definition ReadNameField (d : list Z) (off : Z) : option (option (list Z)) :=
  ReadNameField_from (Z.to_nat kNameFieldSize) d off 0.

Definition WriteNameField (d : list Z) (off : Z) (name : list Z) : option (list Z) :=
  d ← memset d off 0 kNameFieldSize;
  put d off name.

Record Entry := MkEntry { e_name : list Z; e_root : Z }.

Definition WriteEntry (page : Page) (index : Z) (name : list Z) (root : Z) : option Page :=
  let off := EntryOffset index in
  d ← WriteNameField (page_data page) off name;
  d ← WriteU32 d (off + kNameFieldSize) root;
  Some (set_data page d).

Definition ReadEntry (page : Page) (index : Z) : option (option Entry) :=
  let off := EntryOffset index in
  name ← ReadNameField (page_data page) off;
  match name with
  | None => Some None
  | Some name => root ← ReadU32 (page_data page) (off + kNameFieldSize); Some (Some (MkEntry name root))
  end.

(** [(ch >= 'A' && ch <= 'Z') || ...] *)
Definition name_char (ch : Z) : bool :=
  ((65 <=? ch) && (ch <=? 90)) || ((97 <=? ch) && (ch <=? 122)) || ((48 <=? ch) && (ch <=? 57)) || (ch =? 95).

Definition IsValidTableName (name : list Z) : bool :=
  if (zlen name =? 0) || (kMaxTableNameLength <? zlen name) then false else forallb name_char name.

(** ** The catalog object *)

Record Catalog := MkCatalog { cat_root : Z; last_page : Z; last_page_count : Z; entries : list Entry }.

Definition set_last (page count : Z) (k : Catalog) : Catalog := MkCatalog (cat_root k) page count (entries k).
Definition set_entries (es : list Entry) (k : Catalog) : Catalog :=
  MkCatalog (cat_root k) (last_page k) (last_page_count k) es.
Definition push_entry (e : Entry) (k : Catalog) : Catalog := set_entries (entries k ++ [e]) k.

(** The constructor. *)
Definition NewCatalog (root : Z) : Catalog := MkCatalog root kInvalidId 0 [].

Definition named (name : list Z) (e : Entry) : bool := bool_decide (e_name e = name).

Definition table_count (k : Catalog) : Z := zlen (entries k).
Definition Exists (name : list Z) (k : Catalog) : bool := existsb (named name) (entries k).

(** [out] says that [out_root] is non-null; the second result is [*out_root]. *)
Definition FindTable (name : list Z) (out : bool) (k : Catalog) : Status * Z :=
  if negb out then (Bad "Catalog::FindTable: null out_root", kInvalidId) else
  match List.find (named name) (entries k) with
  | Some e => (StatusOk, e_root e)
  | None => (StatusError kNotFound "catalog: no such table", kInvalidId)
  end.

Definition ListTables (out : bool) (k : Catalog) : Status * list (list Z) :=
  if negb out then (Bad "Catalog::ListTables: null out", []) else (StatusOk, e_name <$> entries k).

Section Methods.
Context {E : Type} `{PageEnv E} `{!PageAlloc E}.
Abbreviation Code := (Code E Catalog).

(** The loop over the entries of one page, from index [i]. *)
Fixpoint Load_entries (n : nat) (i : Z) (handle : nat) (found : list Entry) : Code (list Entry) :=
  match n with
  | O => mret found
  | S n =>
      p ← handle_page handle;
      r ← access (ReadEntry p i);
      match r with
      | None => throw (BadState "catalog: entry name is not terminated")
      | Some e =>
          if negb (IsValidTableName (e_name e)) then throw (BadState "catalog: entry has an invalid table name") else
          if existsb (named (e_name e)) found then throw (BadState "catalog: duplicate table name") else
          if e_root e =? kInvalidId then throw (BadState "catalog: entry has an invalid table root id") else
          Load_entries n (i + 1) handle (found ++ [e])
      end
  end.

(** One catalog page: the entries found so far with those of the page, and the
    next page of the chain, if there is one. *)
Definition Load_page (page prev : Z) (found : list Entry) : Code (option Z * list Entry) :=
  with_handle page (fun handle =>
    p ← handle_page handle;
    s ← access (ValidateCatalogHeader p);
    check s ;;
    count ← access (CatalogCount p);
    next ← access (CatalogNext p);
    found ← Load_entries (Z.to_nat count) 0 handle found;
    update (set_last page count) ;;
    if next =? kInvalidId then mret (None, found) else
    if (next =? page) || (next =? prev) then throw (BadState "catalog: chain loops on itself") else
    mret (Some next, found)).

(** Every recorded table must open. *)
Fixpoint Load_tables (found : list Entry) : Code unit :=
  match found with
  | [] => mret tt
  | e :: found =>
      there ← storage_PageExists (e_root e);
      if negb there then throw (BadState "catalog: entry references a missing table page") else
      '(s, _) ← call (HeapTable.Open true (e_root e));
      if negb (ok s) then throw (BadState "catalog: entry does not reference a valid table") else
      Load_tables found
  end.

Definition Load : Code unit :=
  update (fun k => NewCatalog (cat_root k)) ;;
  total_pages ← storage_NumPages;
  let max_walk := u32 (total_pages + 2) in
  k ← members;
  found ← walk (BadState "catalog: chain is cyclic") Load_page (Z.to_nat (max_walk + 2)) max_walk 0
            (cat_root k) kInvalidId [];
  Load_tables found ;;
  update (set_entries found).

(** What [Create] and [Open] return: the status, and the catalog on success. *)
Definition opened_catalog (r : Status + unit) (k : Catalog) : Status * option Catalog :=
  match r with inl s => (s, None) | inr _ => (StatusOk, Some k) end.

(** [args] says that [storage], [pool] and [out] are non-null; [*out_root] is
    the root of the catalog. *)
Definition Create (args : bool) (d : db E) : option (Status * option Catalog * db E) :=
  if negb args then Some (Bad "Catalog::Create: null storage, pool, or out", None, d) else
  '(r, (k, d)) ← (p ← storage_AllocatePage;
                  root_page ← access (InitCatalogPage p);
                  storage_WritePage root_page ;;
                  update (fun _ => NewCatalog (page_id root_page)) ;;
                  Load) (NewCatalog kInvalidId, d);
  Some (opened_catalog r k, d).

Definition Open (args : bool) (root : Z) (d : db E) : option (Status * option Catalog * db E) :=
  if negb args then Some (Bad "Catalog::Open: null storage, pool, or out", None, d) else
  if root =? kInvalidId then Some (Bad "Catalog::Open: invalid root page id", None, d) else
  '(r, (k, d)) ← Load (NewCatalog root, d);
  Some (opened_catalog r k, d).

(** [out] says that the out-parameter is non-null. *)
Definition OpenTable (name : list Z) (out : bool) : Code HeapTable :=
  if negb out then throw (Bad "Catalog::OpenTable: null out") else
  k ← members;
  let '(s, table_root) := FindTable name true k in
  check s ;;
  '(s, t) ← call (HeapTable.Open true table_root);
  check s ;;
  access t.

(** The last catalog page is full: a new one is linked in and used. *)
Definition AppendEntry_extend (name : list Z) (root : Z) : Code unit :=
  k ← members;
  p ← storage_AllocatePage;
  new_page ← access (InitCatalogPage p);
  storage_WritePage new_page ;;
  with_handle (last_page k) (fun handle =>
    p ← handle_page handle;
    p ← access (SetCatalogNext p (page_id new_page));
    set_handle_page handle (MarkDirty p)) ;;
  update (set_last (page_id new_page) 0) ;;
  with_handle (page_id new_page) (fun handle =>
    p ← handle_page handle;
    p ← access (WriteEntry p 0 name root);
    p ← access (SetCatalogCount p 1);
    set_handle_page handle (MarkDirty p)) ;;
  update (set_last (page_id new_page) 1) ;;
  update (push_entry (MkEntry name root)).

Definition AppendEntry (name : list Z) (root : Z) : Code unit :=
  k ← members;
  if last_page_count k <? kCapacity then
    with_handle (last_page k) (fun handle =>
      p ← handle_page handle;
      s ← access (ValidateCatalogHeader p);
      check s ;;
      p ← access (WriteEntry p (last_page_count k) name root);
      p ← access (SetCatalogCount p (u32 (last_page_count k + 1)));
      set_handle_page handle (MarkDirty p) ;;
      update (set_last (last_page k) (u32 (last_page_count k + 1))) ;;
      update (push_entry (MkEntry name root)))
  else AppendEntry_extend name root.

(** The root of the new table is what [*out_table_root] receives. *)
Definition CreateTable (name : list Z) : Code Z :=
  if negb (IsValidTableName name) then throw (Bad "Catalog::CreateTable: invalid table name") else
  k ← members;
  if Exists name k then throw (Bad "Catalog::CreateTable: table already exists") else
  '(s, t) ← call (HeapTable.Create true);
  check s ;;
  t ← access t;
  AppendEntry name (ht_root t) ;;
  mret (ht_root t).
End Methods.

(** ** Catalog pages: specification *)

(** The name in a 32-byte field. *)
Fixpoint name_of (field : list Z) : option (list Z) :=
  match field with
  | [] => None
  | b :: field => if b =? 0 then Some [] else cons b <$> name_of field
  end.

(** The entry with index [i] of a page. *)
Definition entry_of (d : list Z) (i : Z) : option Entry :=
  name ← name_of (sub d (EntryOffset i) kNameFieldSize);
  Some (MkEntry name (field 4 d (EntryOffset i + kNameFieldSize))).

(** [d] is a catalog page with [count] entries that links to [next]; these are
    its entries. *)
Record cat_header (d : list Z) (count next : Z) : Prop := {
  ch_buf : buf_ok kPageSize d;
  ch_magic : sub d 0 4 = [kMagic0; kMagic1; kMagic2; kMagic3];
  ch_version : field 2 d kOffVersion = kVersion;
  ch_count : field 4 d kOffCount = count;
  ch_fits : count <= kCapacity;
  ch_next : field 4 d kOffNext = next }.

Record cat_page (d : list Z) (es : list Entry) (next : Z) : Prop := {
  cp_header : cat_header d (zlen es) next;
  cp_entries : forall i e, es !! i = Some e -> entry_of d (Z.of_nat i) = Some e }.

Lemma capacity_113 : kCapacity = 113.
Proof. done. Qed.

Ltac clia :=
  rewrite ?capacity_113 in *;
  unfold EntryOffset, kOffMagic, kOffVersion, kOffReserved, kOffCount, kOffNext, kOffEntries, kHeaderSize,
    kEntrySize, kNameFieldSize, kVersion, kInvalidId, kPageSize in *;
  rewrite ?zlen_le_bytes, ?zlen_single in *; lia.

Lemma InitCatalogPage_spec p :
  zlen (page_data p) = kPageSize ->
  exists d', InitCatalogPage p = Some (MarkDirty (set_data p d')) /\ cat_page d' [] kInvalidId.
Proof.
  intros Hl. unfold InitCatalogPage. destruct (memset_page _ Hl) as (d & -> & B). cbn [mbind option_bind].
  do 8 (put_step clia). exists d7. split; [done|]. split; [|done].
  split; try (chase clia; done). read_magic_back clia.
Qed.

(** Whatever a page holds, its header is read inside the page. *)
Lemma ValidateCatalogHeader_spec p :
  buf_ok kPageSize (page_data p) ->
  exists s, ValidateCatalogHeader p = Some s /\
    (ok s = true <-> cat_header (page_data p) (field 4 (page_data p) kOffCount) (field 4 (page_data p) kOffNext)).
Proof.
  intros B. unfold ValidateCatalogHeader. set (d := page_data p) in *.
  destruct (read_magic d B) as (m0 & m1 & m2 & m3 & E0 & E1 & E2 & E3 & Hm).
  unfold kOffMagic. rewrite E0, E1, E2, E3. cbn [mbind option_bind].
  destruct (_ || _) eqn:Hbad.
  { eexists. split; [done|]. split; [done|]. intros [_ Hm' _ _ _ _]. rewrite Hm in Hm'. injection Hm' as -> -> -> ->. done. }
  zb. rewrite ReadU16_field by (destruct B; clia || done). cbn [mbind option_bind].
  destruct (negb _) eqn:Hv; zb.
  { eexists. split; [done|]. split; [done|]. by intros []. }
  rewrite ReadU32_field by (destruct B; clia || done). cbn [mbind option_bind].
  destruct (_ <? _) eqn:Hc; zb; eexists; (split; [done|]).
  - split; [done|]. intros []. lia.
  - split; [|done]. intros _. split; [done| |done|done|done|done]. rewrite Hm. by subst.
Qed.

Lemma name_of_app a b :
  name_of (a ++ b) = match name_of a with Some n => Some n | None => app a <$> name_of b end.
Proof.
  induction a as [|x a IH]; simpl; [by destruct (name_of b)|]. destruct (x =? 0); [done|]. rewrite IH.
  destruct (name_of a); [done|]. by destruct (name_of b).
Qed.

Lemma name_of_clean a : 0 ∉ a -> name_of a = None.
Proof.
  induction a as [|x a IH]; simpl; [done|]. intros [Hx Ha]%not_elem_of_cons.
  replace (x =? 0) with false by lia. by rewrite IH.
Qed.

Lemma ReadNameField_from_spec n d off i :
  0 <= off -> 0 <= i -> off + i + Z.of_nat n <= zlen d -> name_of (sub d off i) = None ->
  ReadNameField_from n d off i = Some (name_of (sub d off (i + Z.of_nat n))).
Proof.
  revert i. induction n as [|n IH]; intros i Ho Hi Hl Hn; cbn [ReadNameField_from].
  { by rewrite Z.add_0_r, Hn. }
  destruct (at_in d (off + i)) as (b & Hb & Hs); [lia|]. rewrite Hb. cbn [mbind option_bind].
  destruct (b =? 0) eqn:Hz.
  - rewrite get_in by lia. simpl. rewrite sub_app_split, (sub_cons d (off + i) _ b), name_of_app, Hn by (done || lia).
    simpl. rewrite Hz. simpl. by rewrite app_nil_r.
  - rewrite IH; [do 3 f_equal; lia|lia..|]. rewrite sub_app_split, Hs, name_of_app, Hn by lia. simpl. by rewrite Hz.
Qed.

Lemma ReadEntry_spec p i :
  buf_ok kPageSize (page_data p) -> 0 <= i < kCapacity -> ReadEntry p i = Some (entry_of (page_data p) i).
Proof.
  intros [Hl Hb] Hi. unfold ReadEntry, entry_of, ReadNameField.
  rewrite ReadNameField_from_spec by (clia || done). rewrite Z2Nat.id, Z.add_0_l by clia. cbn [mbind option_bind].
  destruct (name_of _); [|done]. rewrite ReadU32_field by (clia || done). done.
Qed.

Section CatalogPage.
Context (p : Page) (es : list Entry) (next : Z) (D : cat_page (page_data p) es next).

Lemma ValidateCatalogHeader_ok : exists s, ValidateCatalogHeader p = Some s /\ ok s = true.
Proof.
  destruct D as [Hh _]. destruct (ValidateCatalogHeader_spec p (ch_buf _ _ _ Hh)) as (s & Hs & Hok).
  exists s. split; [done|]. apply Hok. destruct Hh as [? ? ? Hc ? Hn]. by rewrite Hc, Hn.
Qed.

(** Adding an entry. *)
Lemma WriteEntry_ok name root :
  zlen es < kCapacity -> 0 <= root <= kInvalidId -> bytes_ok name -> 0 ∉ name -> zlen name <= kMaxTableNameLength ->
  exists p1, WriteEntry p (zlen es) name root = Some p1 /\
  exists p2, SetCatalogCount p1 (zlen es + 1) = Some p2 /\
    page_id p2 = page_id p /\ cat_page (page_data p2) (es ++ [MkEntry name root]) next.
Proof.
  intros Hc Hr Hb Hz Hn. unfold kMaxTableNameLength in Hn. destruct D as [[B Hm Hv Hcnt Hf Hnext] Hes].
  unfold WriteEntry, WriteNameField, SetCatalogCount, memset. set (d := page_data p) in *.
  pose proof (zlen_nonneg es). pose proof (zlen_nonneg name).
  assert (zlen (replicate (Z.to_nat kNameFieldSize) 0) = kNameFieldSize) as Hz32 by (by apply zlen_replicate).
  destruct (put_wr kPageSize d (EntryOffset (zlen es)) (replicate (Z.to_nat kNameFieldSize) 0) B) as (d1 & -> & W1 & B1);
    [clia|rewrite Hz32; clia|apply bytes_ok_replicate; unfold byte_ok; lia|]. cbn [mbind option_bind].
  do 2 (put_step clia). eexists. split; [done|]. cbn [page_data set_data]. put_step clia. eexists. split; [done|].
  split; [done|]. cbn [page_data set_data].
  assert (forall k q, 0 <= q -> q + Z.of_nat k <= EntryOffset (zlen es) -> q + Z.of_nat k <= 8 \/ 12 <= q -> field k d3 q = field k d q) as Hlow.
  { intros k q Hq Hlt Hdis. chase ltac:(rewrite ?Hz32; clia). done. }
  assert (forall i, 0 <= i < zlen es -> entry_of d3 i = entry_of d i) as Hold.
  { intros i Hi. unfold entry_of. by chase ltac:(rewrite ?Hz32; clia). }
  split; [split|]; rewrite ?Hlow by clia; try done.
  - by chase ltac:(rewrite ?Hz32; clia).
  - rewrite zlen_app, zlen_single. by chase clia.
  - rewrite zlen_app, zlen_single. lia.
  - intros i e Hi. apply lookup_app_Some in Hi as [Hi|[Hge Hi]].
    { pose proof (lookup_lt_Some _ _ _ Hi). rewrite Hold by (unfold zlen; lia). by apply Hes. }
    apply list_lookup_singleton_Some in Hi as [Hi <-]. assert (Z.of_nat i = zlen es) as -> by (unfold zlen; lia).
    unfold entry_of. replace kNameFieldSize with (zlen name + (kNameFieldSize - zlen name)) at 1 by lia.
    rewrite sub_app_split by clia. chase ltac:(rewrite ?Hz32; clia).
    rewrite (wr_sub_inside _ _ _ _ _ _ W1), sub_replicate by (rewrite ?Hz32; clia).
    rewrite name_of_app, name_of_clean by done.
    replace (Z.to_nat (kNameFieldSize - zlen name)) with (S (Z.to_nat (31 - zlen name))) by clia. simpl. by rewrite app_nil_r.
Qed.

(** Changing the link. *)
Lemma SetCatalogNext_ok next' :
  0 <= next' <= kInvalidId ->
  exists p', SetCatalogNext p next' = Some p' /\ page_id p' = page_id p /\ cat_page (page_data p') es next'.
Proof.
  intros Hid. destruct D as [[B Hm Hv Hcnt Hf Hn] Hes]. unfold SetCatalogNext. set (d := page_data p) in *.
  put_step clia. eexists. split; [done|]. split; [done|]. cbn [page_data set_data].
  split; [split; try (chase clia; done)|]. intros i e Hi. pose proof (lookup_lt_Some _ _ _ Hi).
  rewrite <- (Hes i e Hi). unfold entry_of. unfold zlen in *. by chase clia.
Qed.
End CatalogPage.

Lemma cat_page_inj d es next es' next' :
  cat_page d es next -> cat_page d es' next' -> es' = es /\ next' = next.
Proof.
  intros [[_ _ _ Hc _ Hn] Hi] [[_ _ _ Hc' _ Hn'] Hi']. split; [|congruence].
  assert (length es' = length es) as Hl by (unfold zlen in *; lia).
  apply list_eq_same_length with (length es); [done..|]. intros i x y Hlt Hx Hy.
  specialize (Hi i y Hy). specialize (Hi' i x Hx). congruence.
Qed.
