(* ===== verification/CatalogSpec.v ===== *)
(** * The catalog: specification of its methods

    [cat_ok] relates a catalog object to the pages it and its tables own.  Each
    method is specified over page contents: loading finds the catalog that is on
    the pages, an entry is appended, a table is created or opened, and no method
    touches a page of anyone else. *)

From S2P Require Import Prelude Bytes Common PageStorage BufferPool BufferPoolSpec PageAccess PageChain HeapTable HeapTableSpec HeapTableMap Catalog.

(** ** Entries *)

(** What [Load] asks of an entry, and of entries that follow [found]. *)
Definition entry_ok (e : Entry) : Prop := IsValidTableName (e_name e) = true /\ e_root e <> kInvalidId.

Fixpoint good_entries (found es : list Entry) : Prop :=
  match es with
  | [] => True
  | e :: es => entry_ok e /\ e_name e ∉ e_name <$> found /\ good_entries (found ++ [e]) es
  end.

Lemma existsb_named name es : existsb (named name) es = true <-> name ∈ e_name <$> es.
Proof.
  rewrite existsb_exists, list_elem_of_fmap. unfold named. split.
  - intros (e & Hin%list_elem_of_In & <-%bool_decide_eq_true). by exists e.
  - intros (e & -> & Hin%list_elem_of_In). exists e. split; [done|]. by apply bool_decide_eq_true.
Qed.

Lemma good_entries_app found a b :
  good_entries found (a ++ b) <-> good_entries found a /\ good_entries (found ++ a) b.
Proof.
  revert found. induction a as [|e a IH]; intros found; simpl; [rewrite app_nil_r; tauto|].
  rewrite IH, <- app_assoc. simpl. tauto.
Qed.

Lemma good_entries_nodup found es :
  NoDup (e_name <$> found) -> good_entries found es -> NoDup (e_name <$> found ++ es).
Proof.
  revert found. induction es as [|e es IH]; intros found Hn; simpl; [by rewrite app_nil_r|].
  intros (_ & Hout & Hg). replace (found ++ e :: es) with ((found ++ [e]) ++ es) by by rewrite <- app_assoc.
  apply IH; [|done]. rewrite fmap_app. apply NoDup_app. split_and!; [done| |apply NoDup_singleton].
  by intros x Hx ->%list_elem_of_singleton.
Qed.

Lemma good_entries_ok found es e : good_entries found es -> e ∈ es -> entry_ok e.
Proof.
  revert found. induction es as [|x es IH]; intros found; simpl; [by intros _ ?%elem_of_nil|].
  intros (Hx & _ & Hg) [->|Hin]%elem_of_cons; [done|by eapply IH].
Qed.

(** A valid name is what [WriteEntry] can store. *)
Lemma valid_name name :
  IsValidTableName name = true -> bytes_ok name /\ 0 ∉ name /\ zlen name <= kMaxTableNameLength.
Proof.
  unfold IsValidTableName. destruct (_ || _) eqn:Hl; [done|]. zb. intros Hc. rewrite forallb_forall in Hc.
  assert (forall x, x ∈ name -> 48 <= x <= 122) as Hr.
  { intros x Hx%list_elem_of_In. apply Hc in Hx. unfold name_char in Hx. lia. }
  split_and!; [|intros Hx%Hr; lia|lia]. apply Forall_forall. intros x Hx%Hr. unfold byte_ok. lia.
Qed.

(** ** Loading *)

Section Load.
Context {E : Type} `{PK : PoolKeeps E}.
Implicit Types (c : Z -> option (list Z)) (k : Catalog) (d : db E) (dt : list Z) (es found : list Entry).

(** The entries of a page from index [k] on. *)
Definition entries_at dt (k : nat) es : Prop :=
  forall i e, es !! i = Some e -> entry_of dt (Z.of_nat (k + i)) = Some e.

Lemma entries_at_cons dt (k : nat) e es :
  entries_at dt k (e :: es) <-> entry_of dt (Z.of_nat k) = Some e /\ entries_at dt (S k) es.
Proof.
  unfold entries_at. split.
  - intros Hes. split; [specialize (Hes 0%nat e eq_refl); by rewrite Nat.add_0_r in Hes|].
    intros i x Hx. specialize (Hes (S i) x Hx). by replace (k + S i)%nat with (S k + i)%nat in Hes by lia.
  - intros [He Hes] [|i] x Hx; [injection Hx as <-; by rewrite Nat.add_0_r|].
    replace (k + S i)%nat with (S k + i)%nat by lia. by apply Hes.
Qed.

Lemma Load_entries_spec b c i page dt count next n (k : nat) found t d :
  owns b c (Some (i, page)) d -> c page = Some dt -> cat_header dt count next -> Z.of_nat (k + n) = count ->
  wp (Load_entries n (Z.of_nat k) i found) (fun r t' d' => t' = t /\ owns b c (Some (i, page)) d' /\
    match r with
    | inr found' => exists es, found' = found ++ es /\ length es = n /\ good_entries found es /\ entries_at dt k es
    | inl s => ok s = false /\ forall es, length es = n -> entries_at dt k es -> ~ good_entries found es
    end) t d.
Proof.
  intros O Hc Hh. revert k found. induction n as [|n IH]; intros k found Hk; cbn [Load_entries].
  { wp_step. split; [done|]. split; [done|]. exists []. rewrite app_nil_r. split_and!; [done..|]. by intros i' e. }
  wp_step. eapply wp_handle_page; [exact O|]. intros p _ _ Hcp Hbuf. assert (page_data p = dt) as Hdt by congruence.
  wp_step. eapply wp_access; [apply ReadEntry_spec; [done|]; destruct Hh; lia|]. rewrite Hdt.
  destruct (entry_of dt (Z.of_nat k)) as [e|] eqn:He.
  2: { wp_step. split; [done|]. split; [done|]. split; [done|].
       intros [|e es] Hl; [done|]. intros [? _]%entries_at_cons. congruence. }
  assert (forall s, ok s = false -> ~ (entry_ok e /\ e_name e ∉ e_name <$> found) ->
    t = t /\ owns b c (Some (i, page)) d /\ ok s = false /\
      forall es, length es = S n -> entries_at dt k es -> ~ good_entries found es) as Hbad.
  { intros s Hs Hne. split_and!; [done..|]. intros [|e' es] Hl; [done|]. intros [He' _]%entries_at_cons.
    assert (e' = e) as -> by congruence. simpl. tauto. }
  destruct (IsValidTableName (e_name e)) eqn:Ev; cbn [negb].
  2: { wp_step. apply Hbad; [done|]. intros [[? _] _]. congruence. }
  destruct (existsb (named (e_name e)) found) eqn:Ed.
  { wp_step. apply Hbad; [done|]. intros [_ Hn]. by apply Hn, existsb_named. }
  destruct (e_root e =? kInvalidId) eqn:Er; zb.
  { wp_step. apply Hbad; [done|]. intros [[_ ?] _]. done. }
  assert (entry_ok e) as Hek by done.
  assert (e_name e ∉ e_name <$> found) as Hnew by (rewrite <- existsb_named; congruence).
  replace (Z.of_nat k + 1) with (Z.of_nat (S k)) by lia.
  eapply wpc_mono; [apply (IH (S k)); lia|]. cbn beta. intros r t' d' (-> & O' & Hr). split; [done|]. split; [done|].
  destruct r as [s|found'].
  - destruct Hr as (Hs & Hno). split; [done|]. intros [|e' es] Hl; [done|]. intros [He' Hes]%entries_at_cons.
    assert (e' = e) as -> by congruence. simpl. intros (_ & _ & Hg). eapply Hno; [|exact Hes|exact Hg]. by injection Hl.
  - destruct Hr as (es & -> & Hl & Hg & Hes). exists (e :: es). rewrite <- app_assoc. simpl.
    split_and!; [done|lia|done|done|done|]. by apply entries_at_cons.
Qed.

(** A catalog page as the source checks it, after page [prev] and the entries
    [found]. *)
Abbreviation good_cat c := (good_page cat_page good_entries c).

Definition load_cat k (x : Z * list Entry) : Catalog := set_last (fst x) (zlen (snd x)) k.
Abbreviation cat_good c := (good_chain (good_cat c) (fun found x => found ++ snd x)).

Lemma Load_page_spec b c root page prev found k d :
  owns b c None d -> cat_root k = root -> 0 <= page <= kInvalidId ->
  wp (Load_page page prev found)
    (visit_post (good_cat c) load_cat (fun found x => found ++ snd x) b c (fun k => cat_root k = root) k found prev page) k d.
Proof.
  intros O Hroot Hp. unfold Load_page. eapply wp_handle; [exact O|done| |].
  { intros s d' Hs Hwhy O'. exists (-1). split; [done|]. split; [done|]. split; [done|].
    destruct Hwhy as [?|[Hn|?]]; [by left| |by right; left]. right. right. intros es next (dt & Hdt & _). congruence. }
  intros i d2 O2. wp_step. eapply wp_handle_page; [exact O2|]. intros p _ _ Hcp Hbuf.
  assert (forall s d', ok s = false -> (forall es next, ~ good_cat c found prev page es next) ->
    forall k', cat_root k' = root -> owns (b - 1) c (Some (i, page)) d' ->
    exists b' c', owns b' c' (Some (i, page)) d' /\ forall d', owns b' c' None d' ->
      visit_post (good_cat c) load_cat (fun found x => found ++ snd x) b c (fun k => cat_root k = root) k found prev page (inl s) k' d') as Hfail.
  { intros s d' Hs Hwhy k' Hk' O'. exists (b - 1), c. split; [done|]. intros d3 O3. exists (b - 1).
    split_and!; [done..|]. by right; right. }
  destruct (ValidateCatalogHeader_spec p Hbuf) as (s & Hs & Hvalid). wp_step. eapply wp_access; [exact Hs|].
  set (count := field 4 (page_data p) kOffCount) in *. set (next := field 4 (page_data p) kOffNext) in *.
  assert (forall es next', good_cat c found prev page es next' -> cat_page (page_data p) es next' /\ zlen es = count /\ next' = next) as Hgd.
  { intros es next' (dt & Hdt & D & _). assert (dt = page_data p) as -> by congruence. split; [done|].
    destruct D as [[_ _ _ Hx _ Hy] _]. by split. }
  wp_step. apply wp_check; intros Hok.
  { apply Hfail; [done| |done|done]. intros es next' Hg. destruct (Hgd _ _ Hg) as ([Hh _] & Hl & ->). rewrite Hl in Hh.
    apply Hvalid in Hh. congruence. }
  apply Hvalid in Hok as Hh. pose proof (field_bound 4 (page_data p) kOffCount (proj2 Hbuf)) as Hcount.
  assert (0 <= next <= kInvalidId) as Hnext.
  { pose proof (field_bound 4 (page_data p) kOffNext (proj2 Hbuf)). unfold kInvalidId. lia. }
  wp_step. eapply wp_access; [apply ReadU32_field; destruct Hbuf; clia || done|]. fold count.
  wp_step. eapply wp_access; [apply ReadU32_field; destruct Hbuf; clia || done|]. fold next.
  wp_step. eapply wpc_mono.
  { eapply (Load_entries_spec _ _ _ _ _ count next _ 0); [exact O2|exact Hcp|exact Hh|lia]. }
  cbn beta. intros r k' d' (-> & O' & Hr). destruct r as [s'|found'].
  { destruct Hr as (Hs' & Hno). apply Hfail; [done| |done|done]. intros es next' Hg.
    destruct (Hgd _ _ Hg) as ([_ Hes] & Hl & _), Hg as (_ & _ & _ & Hg & _).
    eapply (Hno es); [unfold zlen in Hl; lia|exact Hes|exact Hg]. }
  destruct Hr as (es & -> & Hl & Hg & Hes). assert (zlen es = count) as Hz by (unfold zlen; lia).
  assert (cat_page (page_data p) es next) as D by (split; [by rewrite Hz|exact Hes]).
  wp_step. wp_step.
  assert ((next = kInvalidId \/ next <> page /\ next <> prev) -> forall d3, owns (b - 1) c None d3 ->
    visit_post (good_cat c) load_cat (fun found x => found ++ snd x) b c (fun k => cat_root k = root) k found prev page
      (inr (if next =? kInvalidId then None else Some next, found ++ es)) (set_last page count k) d3) as Hgood.
  { intros Hlink d3 O3. exists (b - 1). split; [done|]. split; [done|]. split; [lia|]. exists es, next.
    split; [exists (page_data p); by split_and!|]. unfold load_cat. simpl. by rewrite Hz. }
  destruct (next =? kInvalidId) eqn:E1; [|destruct ((next =? page) || (next =? prev)) eqn:E2].
  - wp_step. eexists _, _. split; [exact O'|]. apply Hgood. left. lia.
  - wp_step. apply Hfail; [done| |done|done]. intros es' next' Hg'. destruct (Hgd _ _ Hg') as (_ & _ & ->).
    destruct Hg' as (_ & _ & _ & _ & Hlink). lia.
  - wp_step. eexists _, _. split; [exact O'|]. apply Hgood. right. lia.
Qed.
End Load.

(** ** The pages of a catalog *)

(** A table of the catalog: its entry and its directory pages. *)
Abbreviation tab := (Entry * list (Z * list Z))%type.
Definition tab_table (x : tab) : HeapTable := opened_table (e_root (fst x)) (snd x).
Definition tab_pages (x : tab) : list Z := table_pages (snd x) (tab_table x).
Definition tabs_pages (tabs : list tab) : list Z := mjoin (tab_pages <$> tabs).
Abbreviation cat_pages := (list (Z * list Entry)).
Definition all_pages (pages : cat_pages) (tabs : list tab) : list Z := (fst <$> pages) ++ tabs_pages tabs.

Record cat_ok (c : Z -> option (list Z)) (pages : cat_pages) (tabs : list tab) (k : Catalog) : Prop := {
  co_chain : chain cat_page c pages kInvalidId;
  co_root : head_of pages kInvalidId = cat_root k;
  co_last : exists init es, pages = init ++ [(last_page k, es)] /\ last_page_count k = zlen es;
  co_pages : entries k = mjoin (snd <$> pages);
  co_tabs : entries k = fst <$> tabs;
  co_names : good_entries [] (entries k);
  co_tables : forall x, x ∈ tabs -> heap_ok c (snd x) (tab_table x);
  co_nodup : NoDup (all_pages pages tabs);
  co_ids : forall id, id ∈ fst <$> pages -> 0 <= id < kInvalidId }.

Lemma tab_root x : ht_root (tab_table x) = e_root (fst x).
Proof. by destruct (opened_table_spec (e_root (fst x)) (snd x)) as (_ & ? & _). Qed.

Lemma tab_data x : data_pages (tab_table x) = mjoin (snd <$> snd x).
Proof. by destruct (opened_table_spec (e_root (fst x)) (snd x)) as (? & _). Qed.

Section Contents.
Implicit Types (c : Z -> option (list Z)) (k : Catalog) (pages : cat_pages) (tabs : list tab) (x : tab).

Lemma elem_of_tabs_pages j tabs : j ∈ tabs_pages tabs <-> exists x, x ∈ tabs /\ j ∈ tab_pages x.
Proof.
  unfold tabs_pages. rewrite list_elem_of_join. setoid_rewrite list_elem_of_fmap. split.
  - intros (l & Hj & x & -> & Hx). by exists x.
  - intros (x & Hx & Hj). exists (tab_pages x). split; [done|]. by exists x.
Qed.

Lemma cat_page_exists c pages tabs k j : cat_ok c pages tabs k -> j ∈ all_pages pages tabs -> is_Some (c j).
Proof.
  intros K [Hj|(x & Hx & Hj)%elem_of_tabs_pages]%elem_of_app; [by eapply chain_page; [apply K|]|].
  eapply heap_page_exists; [by apply (co_tables _ _ _ _ K)|done].
Qed.

(** A catalog depends on its own pages only. *)
Lemma cat_ok_agree c c' pages tabs k :
  (forall j, j ∈ all_pages pages tabs -> c' j = c j) -> cat_ok c pages tabs k -> cat_ok c' pages tabs k.
Proof.
  intros Hc [Hch Hr Hl Hp Ht Hn Htab Hnd Hi]. split; try done.
  - eapply chain_agree; [|exact Hch]. intros p Hp'. apply Hc, elem_of_app. by left.
  - intros x Hx. eapply heap_ok_agree; [|by apply Htab]. intros j Hj. apply Hc, elem_of_app. right.
    apply elem_of_tabs_pages. by exists x.
Qed.

(** What a method may do around the catalog. *)
Record cat_grows c pages tabs k c' pages' tabs' k' : Prop := {
  cg_ok : cat_ok c' pages' tabs' k';
  cg_root : cat_root k' = cat_root k;
  cg_frame : forall j, is_Some (c j) -> j ∉ all_pages pages tabs -> c' j = c j;
  cg_pages : forall j, j ∈ all_pages pages' tabs' -> j ∈ all_pages pages tabs \/ c j = None }.

Lemma cat_grows_refl c pages tabs k : cat_ok c pages tabs k -> cat_grows c pages tabs k c pages tabs k.
Proof. intros K. split; [done|done|done|]. auto. Qed.

Lemma cat_grows_trans c1 p1 t1 k1 c2 p2 t2 k2 c3 p3 t3 k3 :
  cat_grows c1 p1 t1 k1 c2 p2 t2 k2 -> cat_grows c2 p2 t2 k2 c3 p3 t3 k3 -> cat_grows c1 p1 t1 k1 c3 p3 t3 k3.
Proof.
  intros [K2 R2 F2 P2] [K3 R3 F3 P3]. split; [done|congruence| |].
  - intros j [x Hj] Hn. rewrite <- (F2 j) by (done || by eexists).
    apply F3; [rewrite F2; by (done || eexists)|]. intros [?|?]%P2; [done|congruence].
  - intros j [Hj|Hj]%P3; [by apply P2|]. destruct (decide (j ∈ all_pages p1 t1)); [by left|right].
    destruct (c1 j) eqn:Ej; [|done]. rewrite (F2 j) in Hj by (done || by eexists). congruence.
Qed.

(** Pages no one had may appear. *)
Lemma cat_grows_new c c' pages tabs k :
  cat_ok c pages tabs k -> (forall j, is_Some (c j) -> c' j = c j) -> cat_grows c pages tabs k c' pages tabs k.
Proof.
  intros K Hc. split; [|done|by auto|by auto]. eapply cat_ok_agree; [|exact K].
  intros j Hj. by eapply Hc, cat_page_exists.
Qed.

(** The tables a catalog stands for, in catalog order. *)
Abbreviation tables := (list (list Z * records_map)).
Definition tables_of c tabs : tables := (fun x : tab => (e_name (fst x), heap_map c (tab_table x))) <$> tabs.

(** Equal up to the values of the maps. *)
Definition same_tables (m m' : tables) : Prop :=
  Forall2 (fun a b => fst a = fst b /\ forall r, snd a r = snd b r) m m'.

#[global] Instance same_tables_equiv : Equivalence same_tables.
Proof.
  unfold same_tables. split.
  - intros m. by apply Forall_Forall2_diag, Forall_forall.
  - intros m m' Hm. induction Hm as [|a b m m' [? ?] Hm IH]; by constructor.
  - intros m1 m2 m3 H12. revert m3. induction H12 as [|a b m m' [Hf Hs] Hm IH]; intros m3 H23; inversion H23; subst; constructor.
    + destruct H1. split; [congruence|]. intros r. by rewrite Hs.
    + by apply IH.
Qed.

Lemma tables_of_agree c c' tabs :
  (forall x j, x ∈ tabs -> j ∈ tab_pages x -> c' j = c j) -> same_tables (tables_of c' tabs) (tables_of c tabs).
Proof.
  intros Hc. unfold tables_of, same_tables. rewrite Forall2_fmap. apply Forall_Forall2_diag, Forall_forall.
  intros x Hx. split; [done|]. intros r. simpl. apply heap_map_agree; [done|].
  intros j Hj. apply (Hc x); [done|]. apply elem_of_app. by right.
Qed.

Lemma cat_grows_same c c' pages tabs k :
  cat_ok c pages tabs k -> (forall j, is_Some (c j) -> c' j = c j) -> same_tables (tables_of c' tabs) (tables_of c tabs).
Proof.
  intros K Hc. apply tables_of_agree. intros x j Hx Hj. eapply Hc, cat_page_exists; [exact K|].
  apply elem_of_app. right. apply elem_of_tabs_pages. by exists x.
Qed.
End Contents.

(** ** The catalog of a file *)

Section LoadAll.
Context {E : Type} `{PK : PoolKeeps E}.
Implicit Types (c : Z -> option (list Z)) (k : Catalog) (d : db E) (es found : list Entry).
Abbreviation cat_good c := (good_chain (good_page cat_page good_entries c) (fun found x => found ++ snd x)).

(** Page accesses to open every table. *)
Definition tabs_cost (tabs : list tab) : Z := foldr (fun x n => zlen (snd x) + n) 0 tabs.

Lemma tabs_cost_nonneg tabs : 0 <= tabs_cost tabs.
Proof. induction tabs as [|x tabs IH]; simpl; [done|]. pose proof (zlen_nonneg (snd x)). lia. Qed.

Lemma Load_tables_found b c tabs k d :
  owns b c None d -> (forall x, x ∈ tabs -> heap_ok c (snd x) (tab_table x)) ->
  wp (Load_tables (fst <$> tabs)) (fun r k' d' => k' = k /\ exists b', owns b' c None d' /\
    match r with
    | inr _ => b - tabs_cost tabs <= b'
    | inl s => ok s = false /\ (b < tabs_cost tabs \/ ~ some_room c)
    end) k d.
Proof.
  revert b d. induction tabs as [|x tabs IH]; intros b d O Htab; cbn [Load_tables fmap list_fmap tabs_cost foldr].
  { wp_step. split; [done|]. exists b. split; [done|lia]. }
  assert (heap_ok c (snd x) (tab_table x)) as K by (apply Htab, elem_of_cons; by left).
  pose proof (heap_root_id _ _ _ K) as Hroot. rewrite tab_root in Hroot. fold (tabs_cost tabs).
  pose proof (tabs_cost_nonneg tabs). pose proof (zlen_nonneg (snd x)).
  assert (is_Some (c (e_root (fst x)))) as Hex.
  { rewrite <- tab_root. eapply heap_page_exists; [exact K|]. rewrite <- (heap_root _ _ _ K).
    apply elem_of_app. left. apply head_of_in. by destruct (heap_good_chain _ _ _ K) as (_ & _ & ?). }
  wp_step. eapply wp_exists; [exact O|lia|]. intros there d1 O1 _ Hthere. destruct there; cbn [negb].
  2: { wp_step. split; [done|]. exists b. split; [done|]. split; [done|]. left.
       destruct (decide (b < 0)); [lia|]. by specialize (Hthere ltac:(lia) Hex). }
  destruct (Open_found b c (snd x) (tab_table x) d1 O1 K) as (s & ot & d2 & b2 & HO & O2 & Hr). rewrite tab_root in HO.
  wp_step. eapply wpc_call; [exact HO|]. cbn beta iota. destruct ot as [t|].
  - destruct Hr as (-> & _ & Hb2). rewrite ok_StatusOk. cbn [negb].
    eapply wpc_mono; [apply (IH b2); [exact O2|]|].
    + intros y Hy. apply Htab, elem_of_cons. by right.
    + cbn beta. intros r k' d' (-> & b' & O' & Hr). split; [done|]. exists b'. split; [done|].
      destruct r; [destruct Hr as (? & [?|?]); split; [done|left; lia|done|by right]|lia].
  - destruct Hr as (-> & Hwhy). cbn [negb]. wp_step. split; [done|]. exists b2. split; [done|]. split; [done|].
    destruct Hwhy; [left; lia|by right].
Qed.

(** What [Load] accepts as a table. *)
Definition table_opens c (e : Entry) : Prop :=
  is_Some (c (e_root e)) /\ exists dirs, dirs <> [] /\ head_of dirs kInvalidId = e_root e /\
    dir_chain c dirs kInvalidId /\ Forall (good_id c (e_root e)) (mjoin (snd <$> dirs)).

Lemma Load_tables_any b c found k d :
  owns b c None d -> some_room c -> (forall e, e ∈ found -> 0 <= e_root e < kInvalidId) ->
  wp (Load_tables found) (fun r k' d' => k' = k /\ exists b', owns b' c None d' /\
    match r with inr _ => Forall (table_opens c) found | inl s => ok s = false end) k d.
Proof.
  intros O Hroom. revert b d O. induction found as [|e found IH]; intros b d O Hids; cbn [Load_tables].
  { wp_step. split; [done|]. exists b. split; [done|constructor]. }
  assert (0 <= e_root e < kInvalidId) as Hroot by (apply Hids, elem_of_cons; by left).
  wp_step. eapply wp_exists; [exact O|lia|]. intros there d1 O1 Hthere _. destruct there; cbn [negb].
  2: { wp_step. split; [done|]. by exists b. }
  wp_step. destruct (LoadDirectory_any b c (e_root e) (NewHeapTable (e_root e)) d1 O1 eq_refl eq_refl Hroot Hroom)
    as (r & t & d2 & Hl & b2 & O2 & Hr).
  eapply (wpc_call _ (opened r t) _ _ _ d2).
  { unfold HeapTable.Open. cbn [negb]. replace (e_root e =? kInvalidId) with false by lia. by rewrite Hl. }
  destruct r as [s|u]; cbn [opened]; cbn beta iota.
  { rewrite Hr. cbn [negb]. wp_step. split; [done|]. by exists b2. }
  rewrite ok_StatusOk. cbn [negb]. destruct Hr as (dirs & Hne & Hh & Hg & _). apply good_chain_chain in Hg as [Hc Hg%all_good_ids].
  eapply wpc_mono; [apply (IH b2 d2 O2)|].
  - intros y Hy. apply Hids, elem_of_cons. by right.
  - cbn beta. intros r k' d' (-> & b' & O' & Hr). split; [done|]. exists b'. split; [done|].
    destruct r; [done|]. constructor; [|done]. split; [by apply Hthere|]. by exists dirs.
Qed.

Lemma loaded_entries found pages :
  foldl (fun found x => found ++ snd x) found pages = found ++ mjoin (snd <$> (pages : cat_pages)).
Proof.
  revert found. induction pages as [|x pages IH]; intros found; simpl; [by rewrite app_nil_r|].
  by rewrite IH, <- app_assoc.
Qed.

Lemma loaded_members pages k :
  cat_root (foldl load_cat k pages) = cat_root k /\ entries (foldl load_cat k pages) = entries k.
Proof. revert k. induction pages as [|x pages IH]; intros k; simpl; [done|]. apply (IH (load_cat k x)). Qed.

Lemma loaded_last_page init p es k :
  last_page (foldl load_cat k (init ++ [(p, es)])) = p /\ last_page_count (foldl load_cat k (init ++ [(p, es)])) = zlen es.
Proof. by rewrite foldl_app. Qed.

Lemma all_good_entries found pages :
  all_good good_entries (fun found x => found ++ snd x) found pages <-> good_entries found (mjoin (snd <$> (pages : cat_pages))).
Proof.
  revert found. induction pages as [|[p es] pages IH]; intros found; simpl; [done|]. by rewrite IH, good_entries_app.
Qed.

Lemma cat_page_root dt es next e : cat_page dt es next -> e ∈ es -> 0 <= e_root e <= kInvalidId.
Proof.
  intros [[Hb _ _ _ _ _] Hes] [i Hi]%list_elem_of_lookup. specialize (Hes i e Hi). unfold entry_of in Hes.
  destruct (name_of _); [|done]. injection Hes as <-. simpl.
  pose proof (field_bound 4 dt (EntryOffset (Z.of_nat i) + kNameFieldSize) (proj2 Hb)). unfold kInvalidId. lia.
Qed.

Lemma chain_roots c pages stop e :
  chain cat_page c pages stop -> e ∈ mjoin (snd <$> pages) -> 0 <= e_root e <= kInvalidId.
Proof.
  induction pages as [|[p es] pages IH]; simpl; [by intros _ ?%elem_of_nil|].
  intros [(dt & _ & D) Hc] [He|He]%elem_of_app; [by eapply cat_page_root|by apply IH].
Qed.

(** The catalog that [Load] makes of a chain. *)
Definition loaded_catalog (root : Z) pages : Catalog :=
  set_entries (mjoin (snd <$> pages)) (foldl load_cat (NewCatalog root) pages).

(** Whatever the file holds, with room in it, loading ends; it accepts a chain of
    catalog pages with valid, distinct names, all of whose tables open. *)
Lemma Load_any b c root k d :
  owns b c None d -> cat_root k = root -> 0 <= root < kInvalidId -> some_room c ->
  wp Load (fun r k' d' => exists b', owns b' c None d' /\
    match r with
    | inr _ => exists pages, pages <> [] /\ head_of pages kInvalidId = root /\ chain cat_page c pages kInvalidId /\
        k' = loaded_catalog root pages /\ good_entries [] (entries k') /\ Forall (table_opens c) (entries k')
    | inl s => ok s = false
    end) k d.
Proof.
  intros O Hr Hroot Hroom. unfold Load. wp_step. wp_step. wp_step.
  eapply wp_num_pages; [exact O|by intros s d' Hs Hb O'; exists (-1)|].
  intros n d2 O2 Hn Hiff. wp_step. wp_step. cbn [cat_root NewCatalog]. rewrite Hr.
  pose proof (room_pages c n ltac:(lia) Hroom Hiff).
  rewrite (wrap_small 32) by (unfold kInvalidId in *; lia). wp_step. eapply wpc_mono.
  { eapply (walk_any _ _ _ c (fun k => cat_root k = root));
      [done|intros; by apply Load_page_spec|exact O2|done|done|lia|unfold kInvalidId in *; lia|lia]. }
  cbn beta. intros r k' d' (b' & O' & _ & Hpost). destruct r as [s|found]; [by exists b'|].
  destruct Hpost as (pages & Hne & Hh & Hg & Hni & Hb' & -> & ->).
  apply good_chain_chain in Hg as [Hc Hg%all_good_entries]. rewrite loaded_entries. cbn [app].
  wp_step. eapply wpc_mono; [eapply (Load_tables_any b' c); [exact O'|done|]|].
  { intros e He. pose proof (chain_roots _ _ _ _ Hc He). destruct (good_entries_ok _ _ _ Hg He). lia. }
  cbn beta. intros r k2 d3 (-> & b3 & O3 & Hr3). destruct r as [s|u]; [by exists b3|].
  wp_step. exists b3. split; [done|]. exists pages. by split_and!.
Qed.

(** ** Loading a catalog that is there *)

Lemma cat_below c pages tabs k n :
  cat_ok c pages tabs k -> 0 <= n -> (forall id, is_Some (c id) <-> 0 <= id < n) -> zlen pages <= n.
Proof.
  intros K Hn Hiff. pose proof (co_nodup _ _ _ _ K) as Hnd. apply NoDup_app in Hnd as (Hnd & _).
  pose proof (NoDup_below (fst <$> pages) n Hnd) as Hle. unfold zlen in *. rewrite length_fmap in Hle.
  rewrite Hle; [lia|]. intros x Hx. apply Hiff. eapply (cat_page_exists _ _ _ _ _ K), elem_of_app. by left.
Qed.

Lemma cat_good_chain c pages tabs k : cat_ok c pages tabs k -> cat_good c [] kInvalidId pages /\ pages <> [].
Proof.
  intros K. pose proof (co_nodup _ _ _ _ K) as Hnd. apply NoDup_app in Hnd as (Hnd & _).
  assert (kInvalidId ∉ fst <$> pages) as Hni by (intros Hx%(co_ids _ _ _ _ K); lia).
  split; [|destruct (co_last _ _ _ _ K) as (init & es & -> & _); by destruct init].
  apply chain_good_chain; [apply K|by apply NoDup_cons|done|]. apply all_good_entries.
  rewrite <- (co_pages _ _ _ _ K). apply K.
Qed.

Lemma loaded_catalog_same c pages tabs k : cat_ok c pages tabs k -> loaded_catalog (cat_root k) pages = k.
Proof.
  intros K. unfold loaded_catalog. rewrite <- (co_pages _ _ _ _ K). destruct (co_last _ _ _ _ K) as (init & es & Hp & Hc).
  pose proof (loaded_members pages (NewCatalog (cat_root k))) as [Hr _]. rewrite Hp in *.
  destruct (loaded_last_page init (last_page k) es (NewCatalog (cat_root k))) as [H1' H2'].
  unfold set_entries. rewrite Hr, H1', H2', <- Hc. by destruct k.
Qed.

Lemma Load_found b c pages tabs k0 k d :
  owns b c None d -> cat_ok c pages tabs k0 -> cat_root k = cat_root k0 ->
  wp Load (fun r k' d' => exists b', owns b' c None d' /\
    match r with
    | inr _ => k' = k0 /\ b - (zlen pages + tabs_cost tabs) <= b'
    | inl s => ok s = false /\ (b < zlen pages + tabs_cost tabs \/ ~ some_room c)
    end) k d.
Proof.
  intros O K Hr. unfold Load. wp_step. wp_step. wp_step. pose proof (zlen_nonneg pages). pose proof (tabs_cost_nonneg tabs).
  eapply wp_num_pages; [exact O|..].
  { intros s d' Hs Hb O'. exists (-1). split_and!; [done..|left; lia]. }
  intros n d2 O2 Hn Hiff. wp_step. wp_step. cbn [cat_root NewCatalog].
  pose proof (cat_below c pages tabs k0 n K ltac:(lia) Hiff) as Hle.
  destruct (cat_good_chain _ _ _ _ K) as (Hg & Hne).
  pose proof (wrap_range 32 (n + 2) ltac:(lia)) as Hw. rewrite Hr, <- (co_root _ _ _ _ K). wp_step. eapply wpc_mono.
  { eapply (walk_chain _ _ _ (good_page_inj _ _ _ cat_page_inj) c (fun k => cat_root k = head_of pages kInvalidId));
      [done|intros; by apply Load_page_spec|exact O2|done|done|exact Hg|apply (co_ids _ _ _ _ K)|lia| |lia].
    unfold kInvalidId in *. lia. }
  cbn beta. intros r k' d' (b' & O' & _ & Hpost). destruct r as [s|found].
  { destruct Hpost as (Hs & Hwhy). exists b'. split; [done|]. split; [done|]. destruct Hwhy as [?|Hlong]; [left; lia|right].
    intros Hroom. pose proof (room_pages c n ltac:(lia) Hroom Hiff).
    rewrite (wrap_small 32) in Hlong by (unfold kInvalidId in *; lia). lia. }
  destruct Hpost as (Hb' & -> & ->). rewrite loaded_entries. cbn [app].
  rewrite <- (co_pages _ _ _ _ K), (co_tabs _ _ _ _ K).
  wp_step. eapply wpc_mono; [eapply (Load_tables_found b' c); [exact O'|apply K]|].
  cbn beta. intros r k2 d3 (-> & b3 & O3 & Hr3). destruct r as [s|u].
  { exists b3. split; [done|]. destruct Hr3 as (? & [?|?]); split; [done|left; lia|done|by right]. }
  wp_step. exists b3. split; [done|]. split; [|lia]. rewrite <- (co_tabs _ _ _ _ K), (co_pages _ _ _ _ K).
  rewrite (co_root _ _ _ _ K). by eapply loaded_catalog_same.
Qed.
End LoadAll.

(** ** Appending an entry *)

Section Append.
Context {E : Type} `{PK : PoolKeeps E}.
Implicit Types (c : Z -> option (list Z)) (k : Catalog) (d : db E) (pages : cat_pages) (tabs : list tab) (x : tab).

(** A new table: its pages are its own, and its entry fits the catalog. *)
Record tab_new c pages tabs k x : Prop := {
  tn_ok : heap_ok c (snd x) (tab_table x);
  tn_pages : forall j, j ∈ tab_pages x -> j ∉ all_pages pages tabs;
  tn_entry : entry_ok (fst x);
  tn_name : e_name (fst x) ∉ e_name <$> entries k }.

Lemma tabs_pages_snoc tabs x : tabs_pages (tabs ++ [x]) = tabs_pages tabs ++ tab_pages x.
Proof. unfold tabs_pages. rewrite fmap_app, join_app. simpl. by rewrite app_nil_r. Qed.

(** Catalog pages are not table pages. *)
Lemma cat_page_not_tab c pages tabs k j x :
  cat_ok c pages tabs k -> j ∈ fst <$> pages -> x ∈ tabs -> j ∉ tab_pages x.
Proof.
  intros K Hj Hx Hin. pose proof (co_nodup _ _ _ _ K) as (_ & Hn & _)%NoDup_app. apply (Hn j Hj).
  apply elem_of_tabs_pages. by exists x.
Qed.

Lemma cat_append c init es tabs k x dp :
  cat_ok c (init ++ [(last_page k, es)]) tabs k -> tab_new c (init ++ [(last_page k, es)]) tabs k x ->
  cat_page dp (es ++ [fst x]) kInvalidId ->
  cat_ok (upd_page c (last_page k) dp) (init ++ [(last_page k, es ++ [fst x])]) (tabs ++ [x])
    (push_entry (fst x) (set_last (last_page k) (zlen es + 1) k)).
Proof.
  intros K [Hx Hxp Hxe Hxn] D. pose proof K as [Hch Hr Hl Hp Ht Hn Htab Hnd Hi].
  assert (last_page k ∈ fst <$> (init ++ [(last_page k, es)])) as Hlast.
  { rewrite fst_snoc. apply elem_of_app. right. by apply list_elem_of_singleton. }
  assert (forall y, y ∈ tabs ++ [x] -> last_page k ∉ tab_pages y) as Hout.
  { intros y [Hy|Hy%list_elem_of_singleton]%elem_of_app; [by eapply cat_page_not_tab|subst y].
    intros Hin. apply (Hxp _ Hin), elem_of_app. by left. }
  unfold all_pages in *. rewrite fst_snoc in *.
  split; cbn [push_entry set_entries set_last entries cat_root last_page last_page_count]; try done.
  - eapply chain_last; [exact Hch| |exact D]. rewrite fst_snoc. by apply NoDup_app in Hnd as (? & _).
  - by rewrite head_of_app in *.
  - exists init, (es ++ [fst x]). split; [done|]. by rewrite zlen_app, zlen_single.
  - rewrite Hp, !fmap_app, !join_app. simpl. by rewrite !app_nil_r, app_assoc.
  - by rewrite Ht, fmap_app.
  - apply good_entries_app. split; [done|]. simpl. tauto.
  - intros y Hy. eapply heap_ok_agree; [|apply elem_of_app in Hy as [Hy|Hy%list_elem_of_singleton]; [by apply Htab|by subst y]].
    intros j Hj. apply upd_page_other. intros ->. by destruct (Hout y Hy).
  - unfold all_pages. rewrite fst_snoc, tabs_pages_snoc, app_assoc. apply NoDup_app. split; [done|]. split.
    + intros j Hj Hin. by destruct (Hxp j Hin).
    + apply Hx.
  - by rewrite fst_snoc.
Qed.

Lemma cat_link c init es tabs k n dn dp :
  cat_ok c (init ++ [(last_page k, es)]) tabs k -> cat_page dp es n ->
  n ∉ all_pages (init ++ [(last_page k, es)]) tabs -> 0 <= n < kInvalidId ->
  c n = Some dn -> cat_page dn [] kInvalidId ->
  cat_ok (upd_page c (last_page k) dp) ((init ++ [(last_page k, es)]) ++ [(n, [])]) tabs (set_last n 0 k).
Proof.
  intros K D Hnew Hid Hc Dn. pose proof K as [Hch Hr Hl Hp Ht Hn Htab Hnd Hi].
  assert (last_page k ∈ fst <$> (init ++ [(last_page k, es)])) as Hlast.
  { rewrite fst_snoc. apply elem_of_app. right. by apply list_elem_of_singleton. }
  assert (n <> last_page k) as Hne by (intros ->; apply Hnew, elem_of_app; by left).
  unfold all_pages in *. pose proof Hnd as (Hn1 & Hn2 & Hn3)%NoDup_app.
  split; cbn [set_last entries cat_root last_page last_page_count]; try done.
  - by eapply chain_link.
  - by rewrite <- Hr, !head_of_app.
  - by exists (init ++ [(last_page k, es)]), [].
  - rewrite Hp, !fmap_app, !join_app. simpl. by rewrite !app_nil_r.
  - intros x Hx. eapply heap_ok_agree; [|by apply Htab]. intros j Hj. apply upd_page_other. intros ->.
    by destruct (cat_page_not_tab _ _ _ _ _ _ K Hlast Hx).
  - unfold all_pages. rewrite (fst_snoc (_ ++ _)), <- app_assoc. apply NoDup_app. split; [done|]. split.
    + intros j Hj [->|Hin]%elem_of_cons; [apply Hnew, elem_of_app; by left|by apply (Hn2 j)].
    + apply NoDup_cons. split; [|done]. intros Hx. apply Hnew, elem_of_app. by right.
  - intros j. rewrite (fst_snoc (_ ++ _)). intros [Hj|Hj%list_elem_of_singleton]%elem_of_app; [by apply Hi|by subst].
Qed.

(** How appending may change the catalog: [new] are the tables entered. *)
Record cat_enters c pages tabs k (new : list tab) c' pages' k' : Prop := {
  ce_ok : cat_ok c' pages' (tabs ++ new) k';
  ce_root : cat_root k' = cat_root k;
  ce_frame : forall j, is_Some (c j) -> j ∉ fst <$> pages -> c' j = c j;
  ce_pages : forall j, j ∈ fst <$> pages' -> j ∈ fst <$> pages \/ c j = None }.

Lemma cat_enters_none c c' pages tabs k :
  cat_ok c pages tabs k -> (forall j, is_Some (c j) -> c' j = c j) -> cat_enters c pages tabs k [] c' pages k.
Proof.
  intros K Hc. split; [|done|by auto|by auto]. rewrite app_nil_r. eapply cat_ok_agree; [|exact K].
  intros j Hj. by eapply Hc, cat_page_exists.
Qed.

(** Entering an entry through a handle on a catalog page. *)
Lemma wp_enter_entry b c i page es x (Q : Status + unit -> Catalog -> db E -> Prop) k d p :
  owns b c (Some (i, page)) d -> page_id p = page -> cat_page (page_data p) es kInvalidId ->
  zlen es < kCapacity -> 0 <= e_root (fst x) < kInvalidId -> entry_ok (fst x) ->
  (forall dp d', cat_page dp (es ++ [fst x]) kInvalidId -> owns b (upd_page c page dp) (Some (i, page)) d' -> Q (inr tt) k d') ->
  wp (p ← access (WriteEntry p (zlen es) (e_name (fst x)) (e_root (fst x))); p ← access (SetCatalogCount p (zlen es + 1));
      set_handle_page i (MarkDirty p)) Q k d.
Proof.
  intros O Hp D Hcap Hid [(Hb & Hz & Hl)%valid_name _] HQ.
  destruct (WriteEntry_ok p es kInvalidId D _ (e_root (fst x)) Hcap ltac:(lia) Hb Hz Hl) as (p1 & Hp1 & p2 & Hp2 & Hp2id & D2).
  wp_step. eapply wp_access; [exact Hp1|]. wp_step. eapply wp_access; [exact Hp2|].
  eapply (wp_set_handle_page _ _ _ _ (MarkDirty p2)); [exact O|by rewrite <- Hp|done|apply D2|].
  intros d' O'. eapply HQ; [|exact O']. by destruct x as [[nm rt] ds].
Qed.

Lemma last_in_catalog init (es : list Entry) k : last_page k ∈ fst <$> (init ++ [(last_page k, es)]).
Proof. rewrite fst_snoc. apply elem_of_app. right. by apply list_elem_of_singleton. Qed.

Lemma tab_root_id c x : heap_ok c (snd x) (tab_table x) -> 0 <= e_root (fst x) < kInvalidId.
Proof. intros K. rewrite <- tab_root. by eapply heap_root_id. Qed.

Lemma AppendEntry_room b c init es tabs k x d :
  owns b c None d -> cat_ok c (init ++ [(last_page k, es)]) tabs k -> last_page_count k = zlen es -> zlen es < kCapacity ->
  tab_new c (init ++ [(last_page k, es)]) tabs k x ->
  wp (AppendEntry (e_name (fst x)) (e_root (fst x))) (fun r k' d' => exists b' c' pages', owns b' c' None d' /\
    match r with
    | inl s => ok s = false /\ b < 1 /\ cat_enters c (init ++ [(last_page k, es)]) tabs k [] c' pages' k'
    | inr _ => b - 1 <= b' /\ cat_enters c (init ++ [(last_page k, es)]) tabs k [x] c' pages' k'
    end) k d.
Proof.
  intros O K Hn Hcap Hx. unfold AppendEntry. wp_step. wp_step. rewrite Hn.
  replace (zlen es <? kCapacity) with true by lia. pose proof (zlen_nonneg es).
  pose proof (co_ids _ _ _ _ K _ (last_in_catalog init es k)) as Hld.
  pose proof (co_chain _ _ _ _ K) as [_ ((dl & Hcl & D) & _)]%chain_app. cbn [head_of] in D.
  eapply wp_handle; [exact O|lia| |].
  { intros s dp Hs Hwhy O'. exists (-1), c, (init ++ [(last_page k, es)]). split; [done|]. split; [done|].
    split; [|by apply cat_enters_none]. destruct Hwhy as [?|[?|?]]; [lia|congruence|lia]. }
  intros i d2 O2. wp_step. eapply wp_handle_page; [exact O2|]. intros p _ Hpid Hcp _.
  assert (page_data p = dl) as Hdl by congruence. rewrite <- Hdl in D.
  destruct (ValidateCatalogHeader_ok p es kInvalidId D) as (s & Hs & Hok).
  wp_step. eapply wp_access; [exact Hs|]. wp_step. apply wp_check; [congruence|intros _].
  rewrite (wrap_small 32) by clia. pose proof (valid_name _ (proj1 (tn_entry _ _ _ _ _ Hx))) as (Hb & Hz & Hl).
  pose proof (tab_root_id _ _ (tn_ok _ _ _ _ _ Hx)) as Hid.
  destruct (WriteEntry_ok p es kInvalidId D _ (e_root (fst x)) Hcap ltac:(lia) Hb Hz Hl) as (p1 & Hp1 & p2 & Hp2 & Hp2id & D2).
  wp_step. eapply wp_access; [exact Hp1|]. wp_step. eapply wp_access; [exact Hp2|]. wp_step.
  eapply (wp_set_handle_page _ _ _ _ (MarkDirty p2)); [exact O2|by rewrite <- Hpid|done|apply D2|].
  intros d3 O3. wp_step. wp_step. wp_step. eexists _, _. split; [exact O3|]. intros d4 O4.
  eexists _, _, (init ++ [(last_page k, es ++ [fst x])]). split; [exact O4|]. split; [lia|].
  assert (MkEntry (e_name (fst x)) (e_root (fst x)) = fst x) as Hfx by by destruct x as [[] ?].
  rewrite Hfx in *. split; [by apply cat_append|done| |].
  - intros j Hj Hout. apply upd_page_other. intros ->. by apply Hout, last_in_catalog.
  - intros j. rewrite !fst_snoc. by left.
Qed.

(** The page [n] has been linked in behind the last one. *)
Lemma AppendEntry_linked c init es tabs k x n dn dp :
  let pages := init ++ [(last_page k, es)] in
  let c2 := upd_page (upd_page c n dn) (last_page k) dp in
  cat_ok c pages tabs k -> tab_new c pages tabs k x -> c n = None -> 0 <= n < kInvalidId ->
  cat_page dn [] kInvalidId -> cat_page dp es n ->
  cat_enters c pages tabs k [] c2 (pages ++ [(n, [])]) (set_last n 0 k) /\
  tab_new c2 (pages ++ [(n, [])]) tabs (set_last n 0 k) x /\ c2 n = Some dn.
Proof.
  intros pages c2 K Hx Hcn Hn Dn D2. pose proof (last_in_catalog init es k) as Hlast. fold pages in Hlast.
  assert (n <> last_page k) as Hne.
  { intros ->. destruct (chain_page _ _ _ _ _ (co_chain _ _ _ _ K) Hlast). congruence. }
  assert (n ∉ all_pages pages tabs) as Hnew by (intros Hin; destruct (cat_page_exists _ _ _ _ _ K Hin); congruence).
  assert (c2 n = Some dn) as Hc2 by (unfold c2; by rewrite upd_page_other, upd_page_same).
  assert (forall j, is_Some (c j) -> j <> last_page k -> c2 j = c j) as Hfr.
  { intros j Hj Hjl. unfold c2. rewrite upd_page_other by done. by apply upd_page_new. }
  split; [split|split; [split|done]].
  - rewrite app_nil_r. eapply cat_link; [|exact D2|done|done|by apply upd_page_same|done].
    eapply cat_ok_agree; [|exact K]. intros j Hj. apply upd_page_other. intros ->. contradiction.
  - done.
  - intros j Hj Hout. apply Hfr; [done|]. intros ->. contradiction.
  - intros j. rewrite (fst_snoc pages). intros [?|Hj%list_elem_of_singleton]%elem_of_app; [by left|subst j; by right].
  - eapply heap_ok_agree; [|apply Hx]. intros j Hj. apply Hfr; [by eapply heap_page_exists; [apply Hx|]|].
    intros ->. apply (tn_pages _ _ _ _ _ Hx _ Hj), elem_of_app. by left.
  - intros j Hj. unfold all_pages. rewrite (fst_snoc pages), <- app_assoc.
    destruct (heap_page_exists _ _ _ _ (tn_ok _ _ _ _ _ Hx) Hj) as [y Hy].
    intros [?|[->|?]%elem_of_cons]%elem_of_app; [|congruence|]; apply (tn_pages _ _ _ _ _ Hx _ Hj), elem_of_app; tauto.
  - apply Hx.
  - apply Hx.
Qed.

Lemma AppendEntry_link b c init es tabs k x d :
  owns b c None d -> cat_ok c (init ++ [(last_page k, es)]) tabs k -> tab_new c (init ++ [(last_page k, es)]) tabs k x ->
  wp (AppendEntry_extend (e_name (fst x)) (e_root (fst x))) (fun r k' d' => exists b' c' pages', owns b' c' None d' /\
    match r with
    | inl s => ok s = false /\ (b < 2 \/ device_full c) /\ cat_enters c (init ++ [(last_page k, es)]) tabs k [] c' pages' k'
    | inr _ => b - 2 <= b' /\ cat_enters c (init ++ [(last_page k, es)]) tabs k [x] c' pages' k'
    end) k d.
Proof.
  set (pages := init ++ [(last_page k, es)]). intros O K Hx. unfold AppendEntry_extend.
  pose proof (last_in_catalog init es k) as Hlast. fold pages in Hlast. pose proof (co_ids _ _ _ _ K _ Hlast) as Hld.
  pose proof (co_chain _ _ _ _ K) as [_ ((dl & Hcl & D) & _)]%chain_app. cbn [head_of] in D.
  wp_step. wp_step. eapply (wp_new_page _ _ _ _ (fun y => cat_page y [] kInvalidId)); [by intros y [[]]|apply InitCatalogPage_spec|exact O|..].
  { intros s d' c' Hs Hwhy O' Hcc. exists (-1), c', pages. split; [done|]. split; [done|].
    split; [destruct Hwhy as [?|?]; [left; lia|by right]|by apply cat_enters_none]. }
  intros nd dn d2 Hnd Hcnd Dn O2. set (n := page_id nd) in *.
  assert (n ∉ all_pages pages tabs) as Hnd2 by (intros Hin; destruct (cat_page_exists _ _ _ _ _ K Hin); congruence).
  assert (n <> last_page k) as Hne by (intros Heq; by rewrite Heq, Hcl in Hcnd).
  wp_step. eapply wp_handle; [exact O2|lia| |].
  { intros s d' Hs Hwhy O'. eexists (-1), _, pages. split; [exact O'|]. split; [done|].
    split; [|apply cat_enters_none; [done|]; intros j; by apply upd_page_new].
    destruct Hwhy as [?|[Hy|?]]; [left; lia| |lia]. rewrite upd_page_other in Hy by done. congruence. }
  intros i d3 O3. wp_step. eapply wp_handle_page; [exact O3|]. intros p _ Hpp Hcp _.
  rewrite upd_page_other in Hcp by done. assert (page_data p = dl) as Hdl by congruence. rewrite <- Hdl in D.
  destruct (SetCatalogNext_ok p es kInvalidId D n ltac:(lia)) as (p2 & Hp2 & Hp2id & D2).
  wp_step. eapply wp_access; [exact Hp2|].
  eapply (wp_set_handle_page _ _ _ _ (MarkDirty p2)); [exact O3|by rewrite <- Hpp|done|apply D2|].
  intros d4 O4. eexists _, _. split; [exact O4|]. clear d4 O4. intros d4 O4. wp_step. wp_step. wp_step.
  destruct (AppendEntry_linked c init es tabs k x n dn (page_data (MarkDirty p2)) K Hx Hcnd Hnd Dn D2) as (G2 & Hx2 & Hc2n). fold pages in G2, Hx2.
  set (c2 := upd_page (upd_page c n dn) (last_page k) (page_data (MarkDirty p2))) in *.
  eapply wp_handle; [exact O4|lia| |].
  { intros s d' Hs Hwhy O'. eexists (-1), _, _. split; [exact O'|]. split; [done|].
    split; [destruct Hwhy as [?|[Hy|?]]; [left; lia|congruence|lia]|exact G2]. }
  intros i2 d5 O5. wp_step. eapply wp_handle_page; [exact O5|]. intros q _ Hqid Hcq _.
  rewrite Hc2n in Hcq. injection Hcq as Hdq. rewrite Hdq in Dn.
  change 1 with (zlen (@nil Entry) + 1) at 1. change 0 with (zlen (@nil Entry)) at 1.
  eapply wp_enter_entry; [exact O5|exact Hqid|exact Dn|done|apply (tab_root_id _ _ (tn_ok _ _ _ _ _ Hx))|apply Hx|].
  intros dp d6 D3 O6. eexists _, _. split; [exact O6|]. clear d6 O6. intros d6 O6. wp_step. wp_step. wp_step.
  eexists _, _, (pages ++ [(n, [fst x])]). split; [exact O6|]. split; [lia|].
  assert (MkEntry (e_name (fst x)) (e_root (fst x)) = fst x) as -> by by destruct x as [[] ?].
  destruct G2 as [K2 R2 F2 P2]. rewrite app_nil_r in K2. split; [|done| |].
  - by apply (cat_append c2 pages [] tabs (set_last n 0 k) x dp).
  - intros j Hj Hout. rewrite upd_page_other; [by apply F2|]. intros ->. destruct Hj. congruence.
  - intros j. rewrite (fst_snoc pages), <- (fst_snoc pages n []). apply P2.
Qed.

Lemma AppendEntry_spec b c pages tabs k x d :
  owns b c None d -> cat_ok c pages tabs k -> tab_new c pages tabs k x ->
  wp (AppendEntry (e_name (fst x)) (e_root (fst x))) (fun r k' d' => exists b' c' pages', owns b' c' None d' /\
    match r with
    | inl s => ok s = false /\ (b < 2 \/ device_full c) /\ cat_enters c pages tabs k [] c' pages' k'
    | inr _ => b - 2 <= b' /\ cat_enters c pages tabs k [x] c' pages' k'
    end) k d.
Proof.
  intros O K Hx. destruct (co_last _ _ _ _ K) as (init & es & -> & Hn).
  destruct (decide (zlen es < kCapacity)) as [Hcap|Hcap].
  - eapply wpc_mono; [by eapply AppendEntry_room|]. cbn beta.
    intros r k' d' (b' & c' & pages' & O' & Hr). exists b', c', pages'. split; [done|].
    destruct r; [destruct Hr as (? & ? & ?); split_and!; [done|left; lia|done]|destruct Hr; split; [lia|done]].
  - unfold AppendEntry. wp_step. wp_step. rewrite Hn.
    replace (zlen es <? kCapacity) with false by lia. by eapply AppendEntry_link.
Qed.
End Append.

(** ** Creating and opening *)

Section Tables.
Context {E : Type} `{PK : PoolKeeps E}.
Implicit Types (c : Z -> option (list Z)) (k : Catalog) (d : db E) (pages : cat_pages) (tabs : list tab) (x : tab).

Lemma cat_enters_grows c c1 pages tabs k new c' pages' k' :
  cat_ok c pages tabs k -> (forall j, is_Some (c j) -> c1 j = c j) ->
  (forall x j, x ∈ new -> j ∈ tab_pages x -> c j = None) ->
  cat_enters c1 pages tabs k new c' pages' k' -> cat_grows c pages tabs k c' pages' (tabs ++ new) k'.
Proof.
  intros K Hc Hnew [K' Hr Hf Hp]. split; [done|done| |].
  - intros j Hj Hout. rewrite Hf; [by apply Hc|by rewrite Hc|]. intros Hx. apply Hout, elem_of_app. by left.
  - intros j [Hj|(x & Hx & Hj)%elem_of_tabs_pages]%elem_of_app.
    + destruct (Hp j Hj) as [?|Hn]; [left; apply elem_of_app; by left|right].
      destruct (c j) eqn:Ej; [|done]. rewrite Hc in Hn by by eexists. congruence.
    + apply elem_of_app in Hx as [Hx|Hx]; [|right; by eapply Hnew].
      left. apply elem_of_app. right. apply elem_of_tabs_pages. by exists x.
Qed.

Lemma cat_enters_tables c c1 pages tabs k new c' pages' k' :
  cat_ok c pages tabs k -> (forall j, is_Some (c j) -> c1 j = c j) -> cat_enters c1 pages tabs k new c' pages' k' ->
  same_tables (tables_of c' tabs) (tables_of c tabs).
Proof.
  intros K Hc [_ _ Hf _]. apply tables_of_agree. intros x j Hx Hj.
  assert (is_Some (c j)) as Hs by (eapply heap_page_exists; [by apply (co_tables _ _ _ _ K)|done]).
  rewrite Hf; [by apply Hc|by rewrite Hc|]. intros Hin. by destruct (cat_page_not_tab _ _ _ _ _ _ K Hin Hx).
Qed.

Lemma tables_of_app c a b : tables_of c (a ++ b) = tables_of c a ++ tables_of c b.
Proof. apply fmap_app. Qed.

(** A table that has just been created. *)
Lemma created_tab c c1 ids t pages tabs k name :
  cat_ok c pages tabs k -> (forall j, is_Some (c j) -> c1 j = c j) -> heap_ok c1 [(ht_root t, ids)] t ->
  c (ht_root t) = None -> data_pages t = [] -> IsValidTableName name = true -> name ∉ e_name <$> entries k ->
  let x := (MkEntry name (ht_root t), [(ht_root t, ids)]) in
  tab_new c1 pages tabs k x /\ (forall j, j ∈ tab_pages x -> j = ht_root t) /\ forall c' r, heap_map c' (tab_table x) r = None.
Proof.
  intros K Hc Kt Hnone Hp Hv Hn x. destruct (heap_ok_reopen _ _ _ Kt) as [Kx Hpx].
  assert (data_pages (tab_table x) = []) as Hd.
  { unfold tab_table, x. cbn [fst snd e_root]. congruence. }
  assert (forall j, j ∈ tab_pages x -> j = ht_root t) as Hpages.
  { intros j. unfold tab_pages, table_pages. rewrite Hd. by intros ->%list_elem_of_singleton. }
  split; [|split; [done|]].
  - split; [exact Kx| | |done].
    + intros j ->%Hpages Hin. destruct (cat_page_exists _ _ _ _ _ K Hin). congruence.
    + split; [done|]. simpl. pose proof (heap_root_id _ _ _ Kt). lia.
  - intros c' r. unfold heap_map. rewrite Hd, decide_False; [done|]. intros [Hx _]. by apply elem_of_nil in Hx.
Qed.

Lemma CreateTable_spec b c pages tabs k name d :
  owns b c None d -> cat_ok c pages tabs k ->
  wp (CreateTable name) (fun r k' d' => exists b' c' pages' tabs', owns b' c' None d' /\
    cat_grows c pages tabs k c' pages' tabs' k' /\
    match r with
    | inr _ => IsValidTableName name = true /\ name ∉ e_name <$> entries k /\ b - 3 <= b' /\
        same_tables (tables_of c' tabs') (tables_of c tabs ++ [(name, fun _ => None)])
    | inl s => ok s = false /\ same_tables (tables_of c' tabs') (tables_of c tabs) /\
        (code s = kInvalidArgument /\ (IsValidTableName name = false \/ name ∈ e_name <$> entries k) /\ b' = b \/
         b < 3 \/ ~ has_room c)
    end) k d.
Proof.
  intros O K. unfold CreateTable. destruct (IsValidTableName name) eqn:Hv; cbn [negb].
  2: { wp_step. exists b, c, pages, tabs. split; [done|]. split; [by apply cat_grows_refl|]. split; [done|].
       split; [reflexivity|]. left. auto. }
  wp_step. wp_step. unfold Exists. destruct (existsb (named name) (entries k)) eqn:Hex.
  { wp_step. exists b, c, pages, tabs. split; [done|]. split; [by apply cat_grows_refl|]. split; [done|].
    split; [reflexivity|]. left. apply existsb_named in Hex. auto. }
  assert (name ∉ e_name <$> entries k) as Hn by (rewrite <- existsb_named; congruence).
  destruct (Create_spec b c d O) as (s & ot & d1 & HC & b1 & c1 & O1 & Hsame & Hr).
  wp_step. eapply wpc_call; [exact HC|]. cbn beta iota. destruct ot as [t|].
  2: { destruct Hr as (Hs & Hwhy). wp_step. apply wp_check; [intros _|congruence].
       exists b1, c1, pages, tabs. split; [done|]. split; [by apply cat_grows_new|]. split; [done|].
       split; [by eapply cat_grows_same|]. right. destruct Hwhy; [left; lia|by right]. }
  destruct Hr as (-> & ids & Kt & _ & Hroot & Hp & Hb1 & Hother). wp_step. apply wp_check; [done|intros _].
  wp_step. eapply wp_access; [done|].
  destruct (created_tab c c1 ids t pages tabs k name K Hsame Kt Hroot Hp Hv Hn) as (Hx & Hxp & Hxm).
  set (x := (MkEntry name (ht_root t), [(ht_root t, ids)])) in *.
  assert (cat_ok c1 pages tabs k) as K1 by (by eapply cat_grows_new).
  wp_step. eapply wpc_mono; [by eapply (AppendEntry_spec b1 c1 pages tabs k x)|]. cbn beta.
  intros r k' d' (b' & c' & pages' & O' & Hr). destruct r as [s|u].
  - destruct Hr as (Hs & Hwhy & G). exists b', c', pages', tabs. split; [done|].
    split; [rewrite <- (app_nil_r tabs) at 2; eapply cat_enters_grows; [done|exact Hsame| |exact G]; by intros y j ?%elem_of_nil|].
    split; [done|]. split; [by eapply cat_enters_tables|]. right. destruct Hwhy as [?|Hfull]; [left; lia|right].
    intros (i & j & Hne & Hi & Hj & Hci & Hcj).
    destruct (decide (i = ht_root t)) as [->|Hx1]; [destruct (Hfull j ltac:(lia)) as [y Hy]|destruct (Hfull i ltac:(lia)) as [y Hy]];
      rewrite Hother in Hy by congruence; congruence.
  - destruct Hr as (Hb' & G). wp_step. exists b', c', pages', (tabs ++ [x]). split; [done|].
    split; [eapply cat_enters_grows; [done|exact Hsame| |exact G]|].
    { intros y j ->%list_elem_of_singleton ->%Hxp. done. }
    split_and!; [done..|lia|]. rewrite tables_of_app. apply Forall2_app; [by eapply cat_enters_tables|].
    constructor; [|constructor]. split; [done|]. intros r. apply Hxm.
Qed.

(** Looking a name up. *)
Definition find_tab (name : list Z) tabs : option tab := List.find (fun x => named name (fst x)) tabs.

Lemma find_fst name tabs : List.find (named name) (fst <$> tabs) = fst <$> find_tab name tabs.
Proof. induction tabs as [|x tabs IH]; simpl; [done|]. by destruct (named name (fst x)). Qed.

Lemma find_tab_Some name tabs x : find_tab name tabs = Some x -> x ∈ tabs /\ e_name (fst x) = name.
Proof. intros [Hin%list_elem_of_In Hn]%find_some. split; [done|]. by apply bool_decide_eq_true in Hn. Qed.

Lemma OpenTable_spec b c pages tabs k name d :
  owns b c None d -> cat_ok c pages tabs k ->
  wp (OpenTable name true) (fun r k' d' => k' = k /\ exists b', owns b' c None d' /\
    match find_tab name tabs, r with
    | Some x, inr t => t = tab_table x /\ b - zlen (snd x) <= b'
    | Some x, inl s => ok s = false /\ (b < zlen (snd x) \/ ~ some_room c)
    | None, inl s => code s = kNotFound /\ b' = b
    | None, inr _ => False
    end) k d.
Proof.
  intros O K. unfold OpenTable. cbn [negb]. wp_step. wp_step. unfold FindTable. cbn [negb].
  rewrite (co_tabs _ _ _ _ K), find_fst. destruct (find_tab name tabs) as [x|] eqn:Hf; cbn [fmap option_fmap option_map].
  2: { wp_step. apply wp_check; [intros _|done]. split; [done|]. by exists b. }
  apply find_tab_Some in Hf as [Hx _]. pose proof (co_tables _ _ _ _ K x Hx) as Kx.
  wp_step. apply wp_check; [done|intros _].
  destruct (Open_found b c (snd x) (tab_table x) d O Kx) as (s & ot & d1 & b1 & HO & O1 & Hr). rewrite tab_root in HO, Hr.
  wp_step. eapply wpc_call; [exact HO|]. cbn beta iota. wp_step. destruct ot as [t|].
  - destruct Hr as (-> & -> & Hb). apply wp_check; [done|intros _]. eapply wp_access; [done|].
    split; [done|]. by exists b1.
  - destruct Hr as (Hs & Hwhy). apply wp_check; [intros _|congruence]. split; [done|]. exists b1. by split_and!.
Qed.

(** A new catalog. *)
Lemma Catalog_Create_spec b c d :
  owns b c None d ->
  exists s ok' d', Catalog.Create true d = Some (s, ok', d') /\ exists b' c', owns b' c' None d' /\
    (forall j, is_Some (c j) -> c' j = c j) /\
    match ok' with
    | Some k => s = StatusOk /\ cat_ok c' [(cat_root k, [])] [] k /\ c (cat_root k) = None /\ b - 1 <= b' /\
        forall j, j <> cat_root k -> c' j = c j
    | None => ok s = false /\ (b < 1 \/ ~ has_room c)
    end.
Proof.
  intros O. unfold Catalog.Create. cbn [negb].
  match goal with |- context [mbind (M := Code E Catalog) ?k ?m] => set (body := mbind (M := Code E Catalog) k m) end.
  assert (wp body (fun r k d' => exists b' c', owns b' c' None d' /\ (forall j, is_Some (c j) -> c' j = c j) /\
    match r with
    | inr _ => cat_ok c' [(cat_root k, [])] [] k /\ c (cat_root k) = None /\ b - 1 <= b' /\
        forall j, j <> cat_root k -> c' j = c j
    | inl s => ok s = false /\ (b < 1 \/ ~ has_room c)
    end) (NewCatalog kInvalidId) d) as (r & k & d' & Hb & b' & c' & O' & Hsame & Hr).
  2: { rewrite Hb. destruct r as [s|u]; eexists _, _, d'; (split; [done|]); exists b', c'; (split; [done|]); (split; [done|]);
         cbn [opened_catalog]; [exact Hr|split; [done|exact Hr]]. }
  unfold body. eapply (wp_new_page _ _ _ _ (fun y => cat_page y [] kInvalidId)); [by intros y [[]]|apply InitCatalogPage_spec|exact O|..].
  { intros s d' c' Hs Hwhy O' Hc. exists (-1), c'. split; [done|]. split; [exact Hc|]. split; [done|].
    destruct Hwhy as [?|?%full_no_room]; [left; lia|by right]. }
  intros p dn d1 Hp Hnone Dn O1. wp_step. wp_step. set (n := page_id p) in *.
  assert (cat_ok (upd_page c n dn) [(n, [])] [] (MkCatalog n n 0 [])) as K.
  { split; try done.
    - split; [|done]. exists dn. split; [apply upd_page_same|done].
    - by exists [], [].
    - by intros x Hx%elem_of_nil.
    - apply NoDup_singleton.
    - by intros id ->%list_elem_of_singleton. }
  eapply wpc_mono; [by eapply Load_found|].
  cbn beta. intros r k d2 (b' & O2 & Hr). exists b', (upd_page c n dn). split; [done|].
  split; [intros j; by apply upd_page_new|]. rewrite zlen_single in Hr. cbn [tabs_cost foldr] in Hr. destruct r as [s|u].
  - destruct Hr as (Hs & Hwhy). split; [done|]. destruct Hwhy as [?|Hn]; [left; lia|right].
    intros Hroom. by apply Hn, upd_some_room.
  - destruct Hr as (-> & Hb'). split; [done|]. split; [done|]. split; [lia|]. by apply upd_page_other.
Qed.

(** Opening a catalog that is there. *)
Lemma Catalog_Open_found b c pages tabs k0 d :
  owns b c None d -> cat_ok c pages tabs k0 ->
  exists s ok' d' b', Catalog.Open true (cat_root k0) d = Some (s, ok', d') /\ owns b' c None d' /\
    match ok' with
    | Some k => s = StatusOk /\ k = k0 /\ b - (zlen pages + tabs_cost tabs) <= b'
    | None => ok s = false /\ (b < zlen pages + tabs_cost tabs \/ ~ some_room c)
    end.
Proof.
  intros O K. assert (0 <= cat_root k0 < kInvalidId) as Hroot.
  { rewrite <- (co_root _ _ _ _ K). apply (co_ids _ _ _ _ K), head_of_in. by destruct (cat_good_chain _ _ _ _ K). }
  unfold Catalog.Open. cbn [negb]. replace (cat_root k0 =? kInvalidId) with false by lia.
  destruct (Load_found b c pages tabs k0 (NewCatalog (cat_root k0)) d O K eq_refl) as (r & k & d' & -> & b' & O' & Hr).
  exists (fst (opened_catalog r k)), (snd (opened_catalog r k)), d', b'. split; [by destruct r|]. split; [done|].
  destruct r as [s|u]; [done|]. destruct Hr. by split_and!.
Qed.
End Tables.
