(* ===== verification/QueryExecutor.v ===== *)
(** * The query executor

    [include/db/query_executor.h] and [src/db/query/query_executor.cpp]: record
    operations on tables given by name.  Every operation opens its table through
    the catalog and drops it afterwards. *)

From S2P Require Import Prelude Bytes Common PageStorage BufferPool BufferPoolSpec PageAccess PageChain HeapTable Catalog.

Record QueryExecutor := MkExecutor { catalog_ : Catalog }.

Definition set_catalog (k : Catalog) (q : QueryExecutor) : QueryExecutor := MkExecutor k.
Definition catalog_root (q : QueryExecutor) : Z := cat_root (catalog_ q).
Definition executor_table_count (q : QueryExecutor) : Z := table_count (catalog_ q).
Definition TableExists (name : list Z) (q : QueryExecutor) : bool := Exists name (catalog_ q).
Definition ListTables (out : bool) (q : QueryExecutor) : Status * list (list Z) := Catalog.ListTables out (catalog_ q).

Section Methods.
Context {E : Type} `{PageEnv E} `{!PageAlloc E}.
Abbreviation Code := (Code E QueryExecutor).

Definition executor_of (r : Status * option Catalog * db E) : Status * option QueryExecutor * db E :=
  let '(s, k, d) := r in
  if negb (ok s) then (s, None, d) else (StatusOk, MkExecutor <$> k, d).

(** [args] says that [storage], [pool] and [out] are non-null;
    [*out_catalog_root] is the root of the catalog. *)
Definition Create (args : bool) (d : db E) : option (Status * option QueryExecutor * db E) :=
  if negb args then Some (Bad "QueryExecutor::Create: null storage, pool, or out", None, d) else
  executor_of <$> Catalog.Create true d.

Definition Open (args : bool) (root : Z) (d : db E) : option (Status * option QueryExecutor * db E) :=
  if negb args then Some (Bad "QueryExecutor::Open: null storage, pool, or out", None, d) else
  executor_of <$> Catalog.Open true root d.

Definition CreateTable (name : list Z) : Code unit :=
  on_member catalog_ set_catalog (Catalog.CreateTable name) ;; mret tt.

Definition OpenTable (name : list Z) : Code HeapTable :=
  q ← members;
  check (fst (FindTable name true (catalog_ q))) ;;
  on_member catalog_ set_catalog (Catalog.OpenTable name true).

(** The status and the id that [HeapTable::Insert] leaves; when the table does
    not open, [*out] is not written. *)
Definition Insert (table : list Z) (data : option (list Z)) (out : bool) : Code (Status * RecordId) :=
  heap ← OpenTable table;
  call (fun d => '(s, id, (_, d)) ← HeapTable.Insert data out (heap, d); Some (s, id, d)).

Definition Get (table : list Z) (id : RecordId) (out : bool) : Code (list Z) :=
  heap ← OpenTable table;
  with_object heap (HeapTable.Get id out).

Definition Update (table : list Z) (id : RecordId) (data : option (list Z)) : Code unit :=
  heap ← OpenTable table;
  with_object heap (HeapTable.Update id data).

Definition Delete (table : list Z) (id : RecordId) : Code unit :=
  heap ← OpenTable table;
  with_object heap (HeapTable.Delete id).

Definition Scan {C} (table : list Z) (fn : option (RecordId -> list Z -> C -> bool * C)) (ctx : C) : Code C :=
  heap ← OpenTable table;
  with_object heap (HeapTable.Scan fn ctx).
End Methods.
