(* ===== verification/QueryExecutorSpec.v ===== *)
(** * The query executor: the theorems

    A database is an ordered list of named tables, each a finite map from record
    ids to byte strings.  Sequences of calls on an executor against that list,
    one call on a device that works, and opening a catalog, on the pages of one
    or whatever the file holds. *)

From S2P Require Import Prelude Bytes Common PageStorage BufferPool BufferPoolSpec PageAccess PageChain HeapTable HeapTableSpec HeapTableMap.
From S2P Require Import Catalog CatalogSpec QueryExecutor.
From S2P Require SlottedPage.

(** ** Calls and the tables they stand for *)

Inductive exec_op :=
  | XCreateTable (name : list Z)
  | XTableExists (name : list Z)
  | XListTables
  | XOn (name : list Z) (o : heap_op).

Inductive exec_res :=
  | YStatus (s : Status)
  | YExists (b : bool)
  | YTables (r : Status * list (list Z))
  | YOn (r : heap_res).

(** The answer to a record operation whose table did not open. *)
Definition refused (o : heap_op) (s : Status) : heap_res :=
  match o with
  | HInsert _ => RInsert s RecordId0
  | HGet _ => RGet (inl s)
  | HUpdate _ _ | HDelete _ => RStatus s
  | HScan => RScan (inl s)
  end.

Section Calls.
Context {E : Type} `{PageEnv E} `{!PageAlloc E}.

Definition record_step (name : list Z) (o : heap_op) (s : QueryExecutor * db E) : option (heap_res * (QueryExecutor * db E)) :=
  match o with
  | HInsert data => '(r, s) ← Insert name data true s;
      Some (match r with inl st => RInsert st RecordId0 | inr (st, id) => RInsert st id end, s)
  | HGet id => '(r, s) ← Get name id true s; Some (RGet r, s)
  | HUpdate id data => '(r, s) ← Update name id data s; Some (RStatus (status r), s)
  | HDelete id => '(r, s) ← Delete name id s; Some (RStatus (status r), s)
  | HScan => '(r, s) ← Scan name (Some collect) [] s; Some (RScan r, s)
  end.

Definition exec_step (o : exec_op) (s : QueryExecutor * db E) : option (exec_res * (QueryExecutor * db E)) :=
  match o with
  | XCreateTable name => '(r, s) ← CreateTable name s; Some (YStatus (status r), s)
  | XTableExists name => Some (YExists (TableExists name (fst s)), s)
  | XListTables => Some (YTables (ListTables true (fst s)), s)
  | XOn name o => '(r, s) ← record_step name o s; Some (YOn r, s)
  end.

Fixpoint exec_run (os : list exec_op) (s : QueryExecutor * db E) : option (list exec_res * (QueryExecutor * db E)) :=
  match os with
  | [] => Some ([], s)
  | o :: os => '(r, s) ← exec_step o s; '(rs, s) ← exec_run os s; Some (r :: rs, s)
  end.

(** A record operation is the operation of the table that the name opens. *)
Lemma record_step_open name o q d r q' d' :
  OpenTable name (q, d) = Some (r, (q', d')) ->
  record_step name o (q, d) =
    match r with
    | inl s => Some (refused o s, (q', d'))
    | inr t => '(x, (_, d2)) ← heap_step o (t, d'); Some (x, (q', d2))
    end.
Proof.
  intros HO. destruct o; cbn [record_step heap_step]; unfold Insert, Get, Update, Delete, Scan;
    unfold mbind at 2, Code_bind; rewrite HO; cbn [mbind option_bind]; (destruct r as [s|t]; [done|]);
    unfold call, with_object; cbn [mbind option_bind].
  - by destruct (HeapTable.Insert data true (t, d')) as [[[? ?] [? ?]]|].
  - by destruct (HeapTable.Get id true (t, d')) as [[? [? ?]]|].
  - by destruct (HeapTable.Update id data (t, d')) as [[? [? ?]]|].
  - by destruct (HeapTable.Delete id (t, d')) as [[? [? ?]]|].
  - by destruct (HeapTable.Scan (Some collect) [] (t, d')) as [[? [? ?]]|].
Qed.
End Calls.

Definition exec_op_ok (o : exec_op) : Prop :=
  match o with XOn _ o => heap_op_ok o | _ => True end.

(** The status of a record operation's answer. *)
Definition res_status (r : heap_res) : Status :=
  match r with
  | RInsert s _ | RStatus s => s
  | RGet r => status r
  | RScan r => status r
  end.

Abbreviation tables := (list (list Z * records_map)).

(** What a call may answer on the tables [m], and the tables after it; with
    [sure], which stands for a device that works, the answer is exact. *)
Definition tables_step (sure : Prop) (o : exec_op) (r : exec_res) (m m' : tables) : Prop :=
  match o, r with
  | XCreateTable name, YStatus s =>
      if ok s then IsValidTableName name = true /\ name ∉ fst <$> m /\ same_tables m' (m ++ [(name, fun _ => None)])
      else same_tables m' m /\
        (sure -> code s = kInvalidArgument /\ (IsValidTableName name = false \/ name ∈ fst <$> m))
  | XTableExists name, YExists b => same_tables m' m /\ (b = true <-> name ∈ fst <$> m)
  | XListTables, YTables (s, names) => same_tables m' m /\ s = StatusOk /\ names = fst <$> m
  | XOn name o, YOn r =>
      (name ∉ fst <$> m /\ same_tables m' m /\ code (res_status r) = kNotFound) \/
      exists m1 f m2 f', m = m1 ++ (name, f) :: m2 /\ same_tables m' (m1 ++ (name, f') :: m2) /\ map_step sure o r f f'
  | _, _ => False
  end.

Inductive tables_run : list exec_op -> list exec_res -> tables -> tables -> Prop :=
  | tables_run_nil m m' : same_tables m' m -> tables_run [] [] m m'
  | tables_run_cons o os r rs m m1 m' :
      tables_step False o r m m1 -> tables_run os rs m1 m' -> tables_run (o :: os) (r :: rs) m m'.

(** ** One call *)

Section Step.
Context {E : Type} `{PK : PoolKeeps E}.
Implicit Types (c : Z -> option (list Z)) (q : QueryExecutor) (d : db E) (pages : cat_pages) (tabs : list tab) (x : tab).

Lemma tables_of_names c tabs : fst <$> tables_of c tabs = e_name <$> (fst <$> tabs).
Proof. unfold tables_of. induction tabs as [|x tabs IH]; simpl; [done|]. by f_equal. Qed.

Lemma NoDup_replace {A} (a x x' b : list A) :
  NoDup (a ++ x ++ b) -> NoDup x' -> (forall j, j ∈ x' -> j ∉ a /\ j ∉ b) -> NoDup (a ++ x' ++ b).
Proof.
  intros (Ha & Hab & (_ & _ & Hb)%NoDup_app)%NoDup_app Hx Hout. apply NoDup_app. split; [done|]. split.
  - intros j Hj [Hin|Hin]%elem_of_app; [by destruct (Hout j Hin)|]. apply (Hab j Hj), elem_of_app. by right.
  - apply NoDup_app. split; [done|]. split; [|done]. intros j Hj. by apply Hout.
Qed.

Lemma tabs_pages_mid l1 x l2 : tabs_pages (l1 ++ x :: l2) = tabs_pages l1 ++ tab_pages x ++ tabs_pages l2.
Proof. unfold tabs_pages. by rewrite fmap_app, join_app. Qed.

Lemma tables_of_mid c l1 x l2 :
  tables_of c (l1 ++ x :: l2) = tables_of c l1 ++ (e_name (fst x), heap_map c (tab_table x)) :: tables_of c l2.
Proof. by rewrite tables_of_app. Qed.

(** An operation on one table of the catalog. *)
Lemma cat_update c pages l1 x l2 k c' dirs' t' :
  cat_ok c pages (l1 ++ x :: l2) k -> grows c (snd x) (tab_table x) c' dirs' t' ->
  cat_grows c pages (l1 ++ x :: l2) k c' pages (l1 ++ (fst x, dirs') :: l2) k /\
  same_tables (tables_of c' (l1 ++ (fst x, dirs') :: l2))
    (tables_of c l1 ++ (e_name (fst x), heap_map c' t') :: tables_of c l2).
Proof.
  set (x' := (fst x, dirs')). intros K [Kt Hroot Hframe Hpages]. pose proof K as [Hch Hr Hl Hp Ht Hn Htab Hnd Hi].
  destruct (heap_ok_reopen _ _ _ Kt) as [Kx Hdx]. rewrite Hroot, tab_root in Kx, Hdx.
  change (opened_table (e_root (fst x)) dirs') with (tab_table x') in Kx, Hdx.
  assert (tab_pages x' = table_pages dirs' t') as Hpx by (unfold tab_pages, table_pages; by rewrite Hdx).
  unfold all_pages in *. rewrite tabs_pages_mid, (app_assoc (fst <$> pages)) in Hnd.
  set (a := (fst <$> pages) ++ tabs_pages l1) in *. set (b := tabs_pages l2) in *.
  assert (forall j, j ∈ a \/ j ∈ b -> is_Some (c j)) as Hex.
  { intros j Hj. eapply cat_page_exists; [exact K|]. unfold all_pages. rewrite tabs_pages_mid, !elem_of_app.
    unfold a in Hj. rewrite elem_of_app in Hj. tauto. }
  assert (forall j, j ∈ a \/ j ∈ b -> j ∉ tab_pages x) as Hdis.
  { pose proof Hnd as (_ & Hab & (_ & Hxb & _)%NoDup_app)%NoDup_app.
    intros j [Hj|Hj] Hx; [apply (Hab j Hj), elem_of_app; by left|by apply (Hxb j Hx)]. }
  assert (forall j, j ∈ a \/ j ∈ b -> c' j = c j) as Hsame by (intros j Hj; apply Hframe; auto).
  assert (forall y j, y ∈ l1 \/ y ∈ l2 -> j ∈ tab_pages y -> j ∈ a \/ j ∈ b) as Htp.
  { intros y j [Hy|Hy] Hj; [left; apply elem_of_app; right|right]; apply elem_of_tabs_pages; by exists y. }
  assert (forall j, j ∈ tab_pages x' -> j ∉ a /\ j ∉ b) as Hx'.
  { intros j Hj. rewrite Hpx in Hj. destruct (Hpages j Hj) as [Hin|Hnone].
    - split; intros Hj2; destruct (Hdis j); auto.
    - split; intros Hj2; destruct (Hex j ltac:(auto)); congruence. }
  split; [split; [split|..]|]; try done.
  - eapply chain_agree; [|exact Hch]. intros p Hp'. apply Hsame. left. apply elem_of_app. by left.
  - by rewrite Ht, !fmap_app.
  - intros y [Hy|[->|Hy]%elem_of_cons]%elem_of_app; [|exact Kx|];
      (eapply heap_ok_agree; [|apply Htab; rewrite elem_of_app, elem_of_cons; auto]);
      intros j Hj; apply Hsame, (Htp y); auto.
  - unfold all_pages. rewrite tabs_pages_mid, (app_assoc (fst <$> pages)). eapply NoDup_replace; [exact Hnd| |exact Hx'].
    apply Kx.
  - intros j Hj Hout. apply Hframe; [done|]. intros Hx. apply Hout. unfold all_pages. rewrite tabs_pages_mid, !elem_of_app. tauto.
  - intros j. unfold all_pages. rewrite !tabs_pages_mid, !elem_of_app. rewrite Hpx.
    intros [?|[?|[Hj|?]]]; [tauto|tauto| |tauto]. destruct (Hpages j Hj); tauto.
  - rewrite tables_of_app. apply Forall2_app; [|constructor].
    + apply tables_of_agree. intros y j Hy Hj. apply Hsame, (Htp y); auto.
    + split; [done|]. intros r. by apply heap_map_agree.
    + apply tables_of_agree. intros y j Hy Hj. apply Hsame, (Htp y); auto.
Qed.

Lemma exec_OpenTable_spec b c pages tabs q name d :
  owns b c None d -> cat_ok c pages tabs (catalog_ q) ->
  wp (OpenTable name) (fun r q' d' => q' = q /\ exists b', owns b' c None d' /\
    match find_tab name tabs, r with
    | Some x, inr t => t = tab_table x /\ b - zlen (snd x) <= b'
    | Some x, inl s => ok s = false /\ (b < zlen (snd x) \/ ~ some_room c)
    | None, inl s => code s = kNotFound /\ b' = b
    | None, inr _ => False
    end) q d.
Proof.
  intros O K. unfold OpenTable. wp_step. wp_step. wp_step. unfold FindTable. cbn [negb].
  rewrite (co_tabs _ _ _ _ K), find_fst. destruct (find_tab name tabs) as [x|] eqn:Hf; cbn [fmap option_fmap option_map fst].
  2: { apply wp_check; [intros _|done]. split; [done|]. by exists b. }
  apply wp_check; [done|intros _]. apply wp_member. eapply wpc_mono; [by eapply OpenTable_spec|].
  cbn beta. rewrite Hf. intros r k d' (-> & Hr). split; [by destruct q|done].
Qed.

(** The page accesses that a call may use. *)
Definition exec_cost tabs (o : exec_op) : Z :=
  match o with
  | XCreateTable _ => 3
  | XOn name _ => match find_tab name tabs with Some x => zlen (snd x) + call_cost (tab_table x) | None => 0 end
  | _ => 0
  end.

(** What every call guarantees. *)
Definition exec_post b c pages tabs q o (r : exec_res) q' d' : Prop :=
  let sure := exec_cost tabs o <= b /\ has_room c in
  exists b' c' pages' tabs', owns b' c' None d' /\ cat_grows c pages tabs (catalog_ q) c' pages' tabs' (catalog_ q') /\
    tables_step sure o r (tables_of c tabs) (tables_of c' tabs') /\ (sure -> b - exec_cost tabs o <= b').

Lemma refused_step (sure : Prop) o s m : ok s = false -> ~ sure -> map_step sure o (refused o s) m m.
Proof. intros Hs Hn. destruct o; cbn [map_step refused]; rewrite ?Hs; tauto. Qed.

Lemma record_step_spec b c pages tabs q name o d :
  owns b c None d -> cat_ok c pages tabs (catalog_ q) -> heap_op_ok o ->
  exists r q' d', record_step name o (q, d) = Some (r, (q', d')) /\ exec_post b c pages tabs q (XOn name o) (YOn r) q' d'.
Proof.
  intros O K Ho. destruct (exec_OpenTable_spec b c pages tabs q name d O K) as (r & q1 & d1 & HO & -> & b1 & O1 & Hr).
  rewrite (record_step_open _ _ _ _ _ _ _ HO). unfold exec_post. cbn [exec_cost tables_step].
  destruct (find_tab name tabs) as [x|] eqn:Hf.
  - apply find_tab_Some in Hf as [(l1 & l2 & ->)%list_elem_of_split <-].
    destruct r as [s|t].
    + destruct Hr as (Hs & Hwhy). eexists _, q, d1. split; [done|]. exists b1, c, pages, (l1 ++ x :: l2).
      split; [done|]. split; [by apply cat_grows_refl|].
      assert (~ (zlen (snd x) + call_cost (tab_table x) <= b /\ has_room c)) as Hn.
      { intros [Hb Hroom%has_some_room]. unfold call_cost in Hb. pose proof (zlen_nonneg (data_pages (tab_table x))).
        destruct Hwhy; [lia|done]. }
      split; [right|tauto]. eexists _, _, _, _. split; [apply tables_of_mid|]. split; [by rewrite <- tables_of_mid|].
      by apply refused_step.
    + destruct Hr as (-> & Hb1). assert (heap_ok c (snd x) (tab_table x)) as Kx.
      { apply (co_tables _ _ _ _ K). apply elem_of_app. right. apply elem_of_cons. by left. }
      destruct (heap_step_spec b1 c (snd x) (tab_table x) o d1 O1 Kx Ho) as (r & t' & d2 & -> & b2 & c2 & dirs2 & O2 & G & M & Hb2).
      destruct (cat_update _ _ _ _ _ _ _ _ _ K G) as [G' S'].
      eexists _, q, d2. split; [done|]. eexists b2, c2, pages, _. split; [done|]. split; [exact G'|].
      split; [right|intros [? ?]; specialize (Hb2 ltac:(split; [lia|done])); lia].
      eexists _, _, _, _. split; [apply tables_of_mid|]. split; [exact S'|].
      eapply map_step_imp; [|exact M]. intros [? ?]. split; [lia|done].
  - destruct r as [s|t]; [|done]. destruct Hr as (Hs & ->). eexists _, q, d1. split; [done|].
    exists b, c, pages, tabs. split; [done|]. split; [by apply cat_grows_refl|]. split; [left|lia].
    split; [|split; [reflexivity|by destruct o]]. rewrite tables_of_names, <- existsb_named.
    intros (e & (y & -> & Hy)%list_elem_of_In%list_elem_of_fmap & He)%existsb_exists.
    by rewrite (find_none _ _ Hf y (proj1 (list_elem_of_In _ _) Hy)) in He.
Qed.

Lemma exec_step_spec b c pages tabs q o d :
  owns b c None d -> cat_ok c pages tabs (catalog_ q) -> exec_op_ok o ->
  exists r q' d', exec_step o (q, d) = Some (r, (q', d')) /\ exec_post b c pages tabs q o r q' d'.
Proof.
  intros O K Ho. assert (e_name <$> entries (catalog_ q) = fst <$> tables_of c tabs) as Hnames.
  { by rewrite tables_of_names, (co_tabs _ _ _ _ K). }
  destruct o as [name|name| |name o]; cbn [exec_step].
  - assert (wp (CreateTable name) (fun r q' d' => exec_post b c pages tabs q (XCreateTable name) (YStatus (status r)) q' d') q d)
      as (r & q' & d' & -> & Hp); [|by eexists _, q', d'].
    unfold CreateTable. wp_step. apply wp_member. eapply wpc_mono; [by eapply CreateTable_spec|]. cbn beta.
    intros r k' d' (b' & c' & pages' & tabs' & O' & G & Hr). rewrite Hnames in Hr. destruct r as [s|root].
    + destruct Hr as (Hs & Hsame & Hwhy). exists b', c', pages', tabs'. split; [done|]. split; [done|]. cbn [exec_cost tables_step status].
      rewrite Hs. split; [split; [done|]|]; intros [? ?]; (destruct Hwhy as [(? & ? & ->)|[?|?]]; [|lia|tauto]); [done|lia].
    + destruct Hr as (Hv & Hn & Hb' & Hsame). wp_step. exists b', c', pages', tabs'. split; [done|]. split; [done|].
      cbn [exec_cost tables_step status]. rewrite ok_StatusOk. by split; [|lia].
  - eexists _, q, d. split; [done|]. exists b, c, pages, tabs. split; [done|]. split; [by apply cat_grows_refl|].
    cbn [tables_step exec_cost]. split; [|lia]. split; [reflexivity|]. unfold TableExists, Exists. cbn [fst]. by rewrite existsb_named, Hnames.
  - eexists _, q, d. split; [done|]. exists b, c, pages, tabs. split; [done|]. split; [by apply cat_grows_refl|].
    cbn [tables_step exec_cost]. split; [|lia]. split; [reflexivity|]. split; [done|]. by rewrite <- Hnames.
  - destruct (record_step_spec b c pages tabs q name o d O K Ho) as (r & q' & d' & -> & Hp). by eexists _, q', d'.
Qed.

(** The calls of a run, one after the other. *)
Lemma tables_step_imp (sure sure' : Prop) o r m m' :
  (sure' -> sure) -> tables_step sure o r m m' -> tables_step sure' o r m m'.
Proof.
  intros Hs. destruct o, r as [s|b|[s l]|r]; cbn [tables_step]; try done; [destruct (ok s); tauto|].
  intros [?|(m1 & f & m2 & f' & ? & ? & M)]; [by left|right]. exists m1, f, m2, f'. split_and!; [done..|].
  by eapply map_step_imp.
Qed.

Lemma exec_run_spec b c pages tabs q os d :
  owns b c None d -> cat_ok c pages tabs (catalog_ q) -> Forall exec_op_ok os ->
  exists rs q' d', exec_run os (q, d) = Some (rs, (q', d')) /\
    exists b' c' pages' tabs', owns b' c' None d' /\ cat_grows c pages tabs (catalog_ q) c' pages' tabs' (catalog_ q') /\
      tables_run os rs (tables_of c tabs) (tables_of c' tabs').
Proof.
  intros O K Hos. revert b c pages tabs q d O K. induction Hos as [|o os Ho _ IH]; intros b c pages tabs q d O K; simpl.
  { eexists _, q, d. split; [done|]. exists b, c, pages, tabs. split; [done|]. split; [by apply cat_grows_refl|by constructor]. }
  destruct (exec_step_spec b c pages tabs q o d O K Ho) as (r & q1 & d1 & -> & b1 & c1 & p1 & t1 & O1 & G1 & M1 & _).
  destruct (IH b1 c1 p1 t1 q1 d1 O1 (cg_ok _ _ _ _ _ _ _ _ G1)) as (rs & q2 & d2 & Hr & b2 & c2 & p2 & t2 & O2 & G2 & M2).
  simpl. rewrite Hr. eexists _, q2, d2. split; [done|]. exists b2, c2, p2, t2. split; [done|].
  split; [by eapply cat_grows_trans|]. econstructor; [by eapply tables_step_imp; [|exact M1]|done].
Qed.

Lemma Create_executor b c d :
  owns b c None d ->
  exists s oq d', Create true d = Some (s, oq, d') /\ exists b' c', owns b' c' None d' /\
    (forall j, is_Some (c j) -> c' j = c j) /\
    match oq with
    | Some q => s = StatusOk /\ cat_ok c' [(catalog_root q, [])] [] (catalog_ q) /\ c (catalog_root q) = None /\ b - 1 <= b' /\
        forall j, j <> catalog_root q -> c' j = c j
    | None => ok s = false /\ (b < 1 \/ ~ has_room c)
    end.
Proof.
  intros O. destruct (Catalog_Create_spec b c d O) as (s & k & d' & HC & b' & c' & O' & Hsame & Hr).
  unfold Create. cbn [negb]. rewrite HC. cbn [fmap option_fmap option_map executor_of].
  destruct k as [k|].
  - destruct Hr as (-> & Hr). rewrite ok_StatusOk. cbn [negb]. eexists _, _, d'. split; [done|]. exists b', c'. by split_and!.
  - destruct Hr as (Hs & Hr). rewrite Hs. cbn [negb]. eexists _, _, d'. split; [done|]. exists b', c'. by split_and!.
Qed.
End Step.

(** ** Theorems *)

(** C7: The query executor implements a list of named maps.  Create an
    executor over any pool and device and make any calls, whatever fails: every
    call returns without leaving a buffer; CreateTable appends an empty table
    under a valid name no table has, or changes nothing; ListTables and
    TableExists answer from the list; a record operation on a name that is not
    there answers kNotFound, and on a table it is the operation of that table's
    map and leaves every other table as it was.  No page that existed before the
    catalog is ever changed. *)
Theorem executor_refines_tables {E} `{PoolKeeps E} b c (d : db E) os :
  owns b c None d -> Forall exec_op_ok os ->
  exists s oq d1, Create true d = Some (s, oq, d1) /\
    match oq with
    | None => ok s = false
    | Some q => s = StatusOk /\ exists rs q2 d2 b2 c2 pages2 tabs2 m, exec_run os (q, d1) = Some (rs, (q2, d2)) /\
        tables_run os rs [] m /\ owns b2 c2 None d2 /\ cat_ok c2 pages2 tabs2 (catalog_ q2) /\
        tables_of c2 tabs2 = m /\ forall j, is_Some (c j) -> c2 j = c j
    end.
Proof.
  intros O Hos. destruct (Create_executor b c d O) as (s & oq & d1 & HC & b1 & c1 & O1 & Hsame & Hr).
  exists s, oq, d1. split; [done|]. destruct oq as [q|]; [|tauto].
  destruct Hr as (-> & K & Hroot & _). split; [done|].
  destruct (exec_run_spec b1 c1 _ _ q os d1 O1 K Hos) as (rs & q2 & d2 & Hrun & b2 & c2 & p2 & t2 & O2 & G & M).
  exists rs, q2, d2, b2, c2, p2, t2, (tables_of c2 t2). split; [done|]. split; [exact M|]. split; [done|].
  split; [apply G|]. split; [done|]. intros j Hj. rewrite <- (Hsame j Hj).
  apply (cg_frame _ _ _ _ _ _ _ _ G); [by rewrite Hsame|]. unfold all_pages. simpl.
  intros ->%list_elem_of_singleton. destruct Hj. congruence.
Qed.

(** On a device that works, with nothing pinned and room for two pages,
    every call gives the exact answer: CreateTable succeeds on a valid name no
    table has and otherwise reports kInvalidArgument, and the record operations
    are exact on their table's map. *)
Theorem executor_calls_exact {E} `{PoolKeeps E} b c pages tabs q (d : db E) o :
  owns b c None d -> cat_ok c pages tabs (catalog_ q) -> exec_op_ok o -> exec_cost tabs o <= b -> has_room c ->
  exists r q' d' c' pages' tabs', exec_step o (q, d) = Some (r, (q', d')) /\
    tables_step True o r (tables_of c tabs) (tables_of c' tabs') /\
    owns (b - exec_cost tabs o) c' None d' /\ cat_ok c' pages' tabs' (catalog_ q').
Proof.
  intros O K Ho Hb Hroom.
  destruct (exec_step_spec b c pages tabs q o d O K Ho) as (r & q' & d' & Hs & b' & c' & p' & t' & O' & G & M & Hb').
  exists r, q', d', c', p', t'. split; [done|]. split; [by eapply tables_step_imp; [|exact M]|].
  split; [|apply G]. eapply owns_weaken; [|exact O']. intros _. by apply Hb'.
Qed.

(** There are not more pages in a catalog and its directories than page ids. *)
Lemma cat_cost_short c pages tabs k : cat_ok c pages tabs k -> zlen pages + tabs_cost tabs <= kInvalidId.
Proof.
  intros K. assert (zlen pages + tabs_cost tabs <= zlen (all_pages pages tabs)) as Hle.
  { unfold all_pages, tabs_pages. rewrite zlen_app. apply Z.add_le_mono; [unfold zlen; by rewrite length_fmap|].
    clear K. induction tabs as [|x tabs IH]; simpl; [done|]. rewrite zlen_app. fold (tabs_cost tabs).
    change (list_fmap tab (list Z) tab_pages tabs) with (tab_pages <$> tabs).
    assert (zlen (snd x) <= zlen (tab_pages x)); [|lia]. unfold tab_pages, table_pages. rewrite zlen_app.
    pose proof (zlen_nonneg (data_pages (tab_table x))). unfold zlen in *. rewrite length_fmap. lia. }
  assert (zlen (all_pages pages tabs) <= Z.max 0 kInvalidId) as Hb.
  { apply NoDup_below; [apply K|]. intros j [Hj|(x & Hx & Hj)%elem_of_tabs_pages]%elem_of_app; [by apply (co_ids _ _ _ _ K)|].
    by apply (heap_ids _ _ _ (co_tables _ _ _ _ K x Hx)). }
  unfold kInvalidId in *. lia.
Qed.

(** A new process that opens the catalog root over the same pages reports an
    error or has the same executor; on a device that works it succeeds. *)
Lemma executor_reopens {E} `{PoolKeeps E} c pages tabs q (d : db E) :
  owns (-1) c None d -> cat_ok c pages tabs (catalog_ q) ->
  exists s oq d', Open true (catalog_root q) d = Some (s, oq, d') /\
    (forall b, owns b c None d -> zlen pages + tabs_cost tabs <= b -> some_room c ->
       ok s = true /\ owns (b - (zlen pages + tabs_cost tabs)) c None d') /\
    if ok s then oq = Some q /\ exists b', owns b' c None d' else oq = None.
Proof.
  intros O K. destruct (Catalog_Open_found (-1) c pages tabs (catalog_ q) d O K) as (s & k & d' & b' & HO & O' & Hr).
  unfold Open, catalog_root. cbn [negb]. rewrite HO. cbn [fmap option_fmap option_map executor_of].
  assert (forall b, owns b c None d -> zlen pages + tabs_cost tabs <= b -> some_room c ->
    ok s = true /\ owns (b - (zlen pages + tabs_cost tabs)) c None d') as Hlive.
  { intros b Ob Hb Hroom. destruct (Catalog_Open_found b c pages tabs (catalog_ q) d Ob K) as (s2 & k2 & d2 & b2 & HO2 & O2 & Hr2).
    rewrite HO in HO2. injection HO2 as <- <- <-. destruct k as [k|]; [|destruct Hr2 as (_ & [?|?]); [lia|done]].
    destruct Hr2 as (-> & _ & Hle). split; [done|]. by eapply owns_weaken; [|exact O2]. }
  destruct k as [k|].
  - destruct Hr as (-> & -> & _). rewrite ok_StatusOk. cbn [negb]. eexists _, _, d'. split; [done|]. split; [exact Hlive|].
    rewrite ok_StatusOk. split; [by destruct q|]. by exists b'.
  - destruct Hr as (Hs & _). rewrite Hs. cbn [negb]. eexists _, _, d'. split; [done|]. rewrite Hs. split; [|done].
    intros b Ob Hb Hroom. rewrite <- Hs. by apply Hlive.
Qed.

(** C34: Opening a catalog ends, whatever the file holds.  For any contents and
    any failures Open returns without reading outside a page and without changing
    a page; when it succeeds, the root starts a finite chain of catalog pages with
    the right magic, version and counts, the names are valid and distinct, and
    every table's root page exists and starts a directory that opens. *)
Theorem catalog_open_total {E} `{PoolKeeps E} b c root (d : db E) :
  owns b c None d -> some_room c -> 0 <= root <= kInvalidId ->
  exists s oq d' b', Open true root d = Some (s, oq, d') /\ owns b' c None d' /\
    if ok s then exists q pages, oq = Some q /\ catalog_root q = root /\ pages <> [] /\ head_of pages kInvalidId = root /\
      chain cat_page c pages kInvalidId /\ entries (catalog_ q) = mjoin (snd <$> pages) /\
      Forall entry_ok (entries (catalog_ q)) /\ NoDup (e_name <$> entries (catalog_ q)) /\
      Forall (table_opens c) (entries (catalog_ q))
    else oq = None.
Proof.
  intros O Hroom Hroot. unfold Open, Catalog.Open. cbn [negb]. destruct (root =? kInvalidId) eqn:E0; zb.
  { exists (Bad "Catalog::Open: invalid root page id"), None, d, b. by rewrite ok_Bad. }
  destruct (Load_any b c root (NewCatalog root) d O eq_refl ltac:(lia) Hroom) as (r & k & d' & -> & b' & O' & Hr).
  destruct r as [s|u]; cbn [mbind option_bind fmap option_fmap option_map opened_catalog executor_of].
  { rewrite Hr. cbn [negb]. exists s, None, d', b'. by rewrite Hr. }
  rewrite ok_StatusOk. cbn [negb]. eexists _, _, d', b'. split; [done|]. split; [done|]. rewrite ok_StatusOk.
  destruct Hr as (pages & Hne & Hh & Hc & -> & Hg & Ho). exists (MkExecutor (loaded_catalog root pages)), pages.
  destruct (loaded_members pages (NewCatalog root)) as [Hr _]. cbn [catalog_].
  split_and!; [done|exact Hr|done..| | |done].
  - apply Forall_forall. intros e He. by eapply good_entries_ok.
  - by apply (good_entries_nodup []); [constructor|].
Qed.

(** ** The theorems on a small database *)

Definition name_t : list Z := [116].
Definition exec_demo_ops : list exec_op :=
  [XCreateTable name_t; XCreateTable name_t; XOn name_t (HInsert (Some [1; 2; 3])); XOn name_t (HGet (MkRecordId 2 0));
   XOn [117] HScan; XListTables; XTableExists name_t].

Lemma exec_demo_ops_ok : Forall exec_op_ok exec_demo_ops.
Proof.
  unfold exec_demo_ops. repeat constructor; simpl; unfold id_ok, byte_ok, SlottedPage.kInvalidSlot; simpl; lia.
Qed.

Definition exec_demo_answers : list exec_res :=
  [YStatus StatusOk; YStatus (Bad "Catalog::CreateTable: table already exists"); YOn (RInsert StatusOk (MkRecordId 2 0));
   YOn (RGet (inr [1; 2; 3])); YOn (RScan (inl (StatusError kNotFound "catalog: no such table")));
   YTables (StatusOk, [name_t]); YExists true].

(** The answers of a run on the executor that a [Create] gave. *)
Definition exec_results_of (r : option (Status * option QueryExecutor * db storage)) (os : list exec_op) : option (list exec_res) :=
  match r with
  | Some (_, Some q, d) => fst <$> exec_run os (q, d)
  | _ => None
  end.

Lemma exec_results_of_run r s oq d os res (P : list exec_res -> Prop) :
  r = Some (s, oq, d) ->
  match oq with
  | None => True
  | Some q => exists rs q2 d2, exec_run os (q, d) = Some (rs, (q2, d2)) /\ P rs
  end -> exec_results_of r os = Some res -> P res.
Proof.
  intros -> Ht Hr. destruct oq as [q|]; [|done]. destruct Ht as (rs & q2 & d2 & Hrun & HP).
  unfold exec_results_of in Hr. rewrite Hrun in Hr. by injection Hr as <-.
Qed.

Lemma exec_demo_results : exec_results_of (Create true demo_db) exec_demo_ops = Some exec_demo_answers.
Proof. by vm_compute. Qed.

Lemma executor_refines_tables_witness : exists m, tables_run exec_demo_ops exec_demo_answers [] m.
Proof.
  destruct (executor_refines_tables (-1) _ demo_db exec_demo_ops (demo_owns (-1) eq_refl) exec_demo_ops_ok)
    as (s & oq & d1 & HC & Hoq).
  apply (exec_results_of_run (Create true demo_db) s oq d1 exec_demo_ops exec_demo_answers
    (fun rs => exists m, tables_run exec_demo_ops rs [] m) HC); [|exact exec_demo_results].
  destruct oq as [q|]; [|exact Logic.I].
  destruct Hoq as (_ & rs & q2 & d2 & b2 & c2 & p2 & t2 & m & Hrun & HM & _).
  exists rs, q2, d2. split; [exact Hrun|]. exists m. exact HM.
Defined.

(** A page beside the catalog's is still free. *)
Lemma created_room c root :
  (forall j, j <> root -> c j = @disk _ _ storage_env_laws blank j) -> has_room c.
Proof.
  intros Hc. destruct (decide (root = 0)); [exists 1, 2|destruct (decide (root = 1)); [exists 0, 2|exists 0, 1]];
    (split; [lia|]); (split; [by split|]); (split; [by split|]); rewrite !Hc by lia; by split.
Qed.

Lemma executor_calls_exact_witness : exists q d1 s q' d',
  exec_step (XCreateTable name_t) (q, d1) = Some (YStatus s, (q', d')) /\ ok s = true.
Proof.
  destruct (Create_executor 10 _ demo_db (demo_owns 10 eq_refl))
    as (s & [q|] & d1 & _ & b' & c' & O' & _ & Hr); [|destruct Hr as (_ & [?|Hn]); [lia|by destruct (Hn demo_room)]].
  destruct Hr as (_ & K & _ & Hb & Hc).
  destruct (executor_calls_exact b' c' _ _ q d1 (XCreateTable name_t) O' K Logic.I ltac:(cbn [exec_cost]; lia) (created_room _ _ Hc))
    as (r & q' & d' & c2 & p2 & t2 & Hs & HM & _).
  destruct r as [s'|?|?|?]; [|done..]. cbn [tables_step] in HM. exists q, d1, s', q', d'. split; [exact Hs|].
  destruct (ok s') eqn:Eo; [done|]. destruct HM as [_ Hbad]. destruct (Hbad Logic.I) as (_ & [?|Hin]); [done|].
  by apply elem_of_nil in Hin.
Defined.

(** A file of zeros is no catalog; one that was just created is. *)
Lemma zeros_rejected : (fun r => ok (fst (fst r))) <$> Open true 0 (two_frames, two_pages []) = Some false.
Proof. by vm_compute. Qed.

Lemma created_opens :
  match Create true demo_db with
  | Some (_, Some q, d) => 0 <= catalog_root q <= kInvalidId /\ (fun r => ok (fst (fst r))) <$> Open true (catalog_root q) d = Some true
  | _ => False
  end.
Proof. vm_compute. split; [split; discriminate|reflexivity]. Qed.

Lemma catalog_open_total_witness :
  (exists s d', Open true 0 (two_frames, two_pages []) = Some (s, None, d')) /\
  exists q d1 s q' d', Create true demo_db = Some (StatusOk, Some q, d1) /\ Open true (catalog_root q) d1 = Some (s, Some q', d') /\
    catalog_root q' = catalog_root q /\ NoDup (e_name <$> entries (catalog_ q')).
Proof.
  split.
  - assert (owns (-1) (@disk _ _ storage_env_laws (two_pages [])) None (two_frames, two_pages [])) as O.
    { apply (fresh_owns 2 (two_pages [])); [apply two_pages_sound|by split; vm_compute|done|done|lia]. }
    assert (some_room (@disk _ _ storage_env_laws (two_pages []))) as Hroom.
    { exists 2. split; [by split|]. apply (contents_None (two_pages []) 2); by vm_compute. }
    destruct (catalog_open_total (-1) _ 0 _ O Hroom ltac:(by split)) as (s & oq & d' & b' & HO & _ & Hr).
    pose proof zeros_rejected as Hz. rewrite HO in Hz. injection Hz as Hz. cbn [fst] in Hz. rewrite Hz in Hr. subst oq. exists s, d'. exact HO.
  - pose proof created_opens as Hz.
    destruct (Create_executor 10 _ demo_db (demo_owns 10 eq_refl))
      as (s & [q|] & d1 & HC & b' & c' & O' & _ & Hr); [|destruct Hr as (_ & [?|Hn]); [lia|by destruct (Hn demo_room)]].
    destruct Hr as (-> & K & _ & Hb & Hc). rewrite HC in Hz. destruct Hz as [Hroot Hz].
    destruct (catalog_open_total b' c' (catalog_root q) d1 O' (has_some_room _ (created_room _ _ Hc)) Hroot) as (s & oq & d' & b2 & HO & _ & Hr).
    rewrite HO in Hz. injection Hz as Hz. cbn [fst] in Hz. rewrite Hz in Hr. destruct Hr as (q' & pages & -> & Hq & _ & _ & _ & _ & _ & Hnd & _).
    exists q, d1, s, q', d'. split; [exact HC|]. split; [exact HO|]. split; [exact Hq|exact Hnd].
Defined.

(** ** What modelling showed *)

(** [query_executor.h] allows a null [out]; the insertion stores through it. *)
Lemma executor_insert_null_out :
  match Create true demo_db with
  | Some (_, Some q, d) =>
      '(_, (q, d)) ← CreateTable name_t (q, d); '(r, _) ← Insert name_t (Some [1]) false (q, d); Some (status r)
  | _ => Some StatusOk
  end = None.
Proof. by vm_compute. Qed.

(** [query_executor.h] promises kInvalidArgument for an invalid name; the answer
    is kNotFound. *)
Lemma invalid_name_not_found :
  match Create true demo_db with
  | Some (_, Some q, d) => '(r, _) ← Get [33] (MkRecordId 0 0) true (q, d); Some (code (status r))
  | _ => None
  end = Some kNotFound.
Proof. by vm_compute. Qed.
