(* ===== verification/ReadOnly.v ===== *)
(** * Computations that only read

    Opening a table or a catalog reads pages and writes none.  On a pool that
    has no dirty page it leaves such a pool: nothing is logged or written to the
    device, and dropping the pool afterwards loses nothing. *)

From S2P Require Import Prelude Bytes Common PageStorage BufferPool BufferPoolSpec PageAccess PageChain HeapTable Catalog QueryExecutor.

(** ** Pools without a dirty page *)

Definition undirty (f : Frame) : Prop := page_dirty (f_page f) = false.
Definition pristine (sink : bool) (bp : BufferPool) : Prop := Forall undirty (bp_frames bp) /\ bp_sink bp = sink.

Lemma pristine_upd g i sink bp :
  (forall f, undirty f -> undirty (g f)) -> pristine sink bp -> pristine sink (upd_frame i g bp).
Proof. intros Hg [Hp Hs]. split; [|done]. simpl. apply Forall_alter; [done|]. auto. Qed.

Lemma pristine_unpin i sink bp : pristine sink bp -> pristine sink (UnpinFrame i bp).
Proof.
  intros Hp. unfold UnpinFrame. destruct (bp_frames bp !! i) as [f|]; [|done].
  destruct (0 <? f_pin f); [|done]. by apply pristine_upd.
Qed.

Lemma restamp_undirty order t fs : Forall undirty fs -> Forall undirty (fst (restamp order t fs)).
Proof.
  revert t fs. induction order as [|i order IH]; intros t fs Hf; simpl; [done|].
  apply IH, Forall_alter; [done|]. by intros.
Qed.

Lemma pristine_next sink bp t bp' : pristine sink bp -> NextTimestamp bp = (t, bp') -> pristine sink bp'.
Proof.
  intros [Hp Hs] [Hk [(o & u & Hf)|Hf]]%NextTimestamp_frames; (split; [|congruence]); rewrite Hf; [by apply restamp_undirty|done].
Qed.

Section Pristine.
Context {E : Type} `{PageEnv E} (sink : bool).
Implicit Types (bp : BufferPool) (e : E).
Abbreviation pristine := (pristine sink).

Lemma FlushFrame_pristine i bp e : pristine bp -> FlushFrame i bp e = (StatusOk, bp, e).
Proof.
  intros Hp. unfold FlushFrame. destruct (bp_frames bp !! i) as [f|] eqn:Hl; [|done].
  rewrite (Forall_lookup_1 _ _ _ _ (proj1 Hp) Hl). by rewrite orb_true_r.
Qed.

Lemma FlushAll_pristine bp e : pristine bp -> exists s, FlushAll bp e = (s, bp, e) /\ (bp_storage bp = true -> s = StatusOk).
Proof.
  intros Hp. unfold FlushAll. destruct (bp_storage bp); cbn [negb]; [|by eexists].
  exists StatusOk. split; [|done]. generalize O. induction (length (bp_frames bp)) as [|n IH]; intros i; [done|].
  simpl. destruct (bp_frames bp !! i) as [f|] eqn:Hl; [|done].
  by rewrite (Forall_lookup_1 _ _ _ _ (proj1 Hp) Hl), orb_true_r.
Qed.

Lemma AcquireFrame_pristine bp e s h bp' e' :
  pristine bp -> AcquireFrame bp e = (s, h, bp', e') -> bp' = bp /\ e' = e.
Proof.
  intros Hp. unfold AcquireFrame, evict_frame. repeat case_match; try (by intros [= <- <- <- <-]);
    rewrite FlushFrame_pristine in * by done; simplify_eq; by intros [= <- <- <- <-].
Qed.

(** [P] is kept by reading and looking; pages are read clean. *)
Context (P : E -> Prop).
Context (P_read : forall id e s out e', P e -> env_read id e = (s, out, e') ->
  P e' /\ (ok s = true -> page_dirty (default PageDefault out) = false)).

Lemma Fetch_pristine out id bp e s h bp' e' :
  pristine bp -> P e -> Fetch out id bp e = (s, h, bp', e') -> pristine bp' /\ P e'.
Proof.
  intros Hp He. unfold Fetch. destruct (negb out); [by intros [= <- <- <- <-]|].
  destruct (negb (bp_storage bp)); [by intros [= <- <- <- <-]|]. destruct (id =? kInvalidId); [by intros [= <- <- <- <-]|].
  destruct (FindFrame id bp) as [i|].
  { destruct (NextTimestamp _) as [t bp1] eqn:En. intros [= <- <- <- <-]. split; [|done].
    apply pristine_upd; [done|]. eapply pristine_next; [|exact En]. by apply pristine_upd. }
  destruct (env_read id e) as [[rs page] e1] eqn:Er. destruct (P_read _ _ _ _ _ He Er) as [He1 Hc].
  destruct (ok rs) eqn:Eo; cbn [negb]; [|by intros [= <- <- <- <-]].
  destruct (AcquireFrame bp e1) as [[[s1 slot] bp1] e2] eqn:Ea.
  destruct (AcquireFrame_pristine _ _ _ _ _ _ Hp Ea) as [-> ->].
  destruct slot as [slot|]; [|by intros [= <- <- <- <-]].
  destruct (NextTimestamp _) as [t bp2] eqn:En. intros [= <- <- <- <-]. split; [|done].
  apply pristine_upd; [done|]. eapply pristine_next; [|exact En]. apply pristine_upd; [|done]. intros f _. by apply Hc.
Qed.
End Pristine.

(** ** Reading computations *)

Section Reads.
Context {E : Type} `{PageEnv E} `{!PageAlloc E} (sink : bool) (P : E -> Prop).

Record read_closed : Prop := {
  rc_read : forall id e s out e', P e -> env_read id e = (s, out, e') ->
    P e' /\ (ok s = true -> page_dirty (default PageDefault out) = false);
  rc_num : forall e s n e', P e -> env_num_pages e = (s, n, e') -> P e';
  rc_exists : forall id e b e', P e -> env_exists id e = (b, e') -> P e' }.

Definition calm_db (d : db E) : Prop := pristine sink (fst d) /\ P (snd d).

(** [m] leaves such a pool, whatever it returns. *)
Definition reads {T A} (m : Code E T A) : Prop :=
  forall t d r t' d', m (t, d) = Some (r, (t', d')) -> calm_db d -> calm_db d'.

(** The same for what does not work on an object. *)
Definition reads_db {A} (f : db E -> option (A * db E)) : Prop :=
  forall d x d', f d = Some (x, d') -> calm_db d -> calm_db d'.

Context (RC : read_closed).
Context {T : Type}.

Lemma reads_ret {A} (x : A) : reads (T := T) (mret x).
Proof. intros t d r t' d' Hm. by injection Hm as <- <- <-. Qed.

Lemma reads_throw {A} s : reads (T := T) (A := A) (throw s).
Proof. intros t d r t' d' Hm. by injection Hm as <- <- <-. Qed.

Lemma reads_check s : reads (T := T) (check s).
Proof. unfold check. destruct (ok s); simpl; [apply reads_ret|apply reads_throw]. Qed.

Lemma reads_access {A} (o : option A) : reads (T := T) (access o).
Proof. intros t d r t' d'. unfold access. destruct o; simpl; [|done]. by intros [= <- <- <-]. Qed.

Lemma reads_members : reads (T := T) members.
Proof. intros t d r t' d' Hm. by injection Hm as <- <- <-. Qed.

Lemma reads_update f : reads (T := T) (update f).
Proof. intros t d r t' d' Hm. by injection Hm as <- <- <-. Qed.

Lemma reads_bind {A B} (m : Code E T A) (k : A -> Code E T B) :
  reads m -> (forall x, reads (k x)) -> reads (m ≫= k).
Proof.
  intros Hm Hk t d r t' d' Hr Hc. unfold mbind, Code_bind in Hr.
  destruct (m (t, d)) as [[r1 [t1 d1]]|] eqn:E1; [|done]. cbn [mbind option_bind] in Hr.
  pose proof (Hm _ _ _ _ _ E1 Hc) as Hc1. destruct r1 as [s|x]; [by injection Hr as <- <- <-|].
  by eapply Hk.
Qed.

Lemma reads_handle_page i : reads (T := T) (handle_page i).
Proof. intros t [bp e] r t' d'. unfold handle_page. destruct (_ !! i); simpl; [|done]. by intros [= <- <- <-]. Qed.

Lemma reads_handle {A} id (body : nat -> Code E T A) :
  (forall i, reads (body i)) -> reads (with_handle id body).
Proof.
  intros Hb t [bp e] r t' d' Hr [Hp He]. unfold with_handle in Hr.
  destruct (Fetch true id bp e) as [[[s h] bp1] e1] eqn:EF.
  pose proof (Fetch_pristine sink P (rc_read RC) _ _ _ _ _ _ _ _ Hp He EF) as Hc1.
  destruct (ok s); cbn [negb] in Hr.
  - destruct h as [i|]; [|done]. cbn [mbind option_bind] in Hr.
    destruct (body i (t, (bp1, e1))) as [[r2 [t2 [bp2 e2]]]|] eqn:E2; [|done]. injection Hr as <- <- <-.
    destruct (Hb i _ _ _ _ _ E2 Hc1) as [Hp2 He2]. split; [|done]. by apply pristine_unpin.
  - injection Hr as <- <- <-. destruct Hc1. split; [|done]. destruct h; [by apply pristine_unpin|done].
Qed.

Lemma reads_num : reads (T := T) storage_NumPages.
Proof.
  intros t [bp e] r t' d' Hr [Hp He]. unfold storage_NumPages in Hr.
  destruct (env_num_pages e) as [[s n] e1] eqn:En. injection Hr as <- <- <-. split; [done|]. by eapply (rc_num RC).
Qed.

Lemma reads_exists id : reads (T := T) (storage_PageExists id).
Proof.
  intros t [bp e] r t' d' Hr [Hp He]. unfold storage_PageExists in Hr.
  destruct (env_exists id e) as [b e1] eqn:En. injection Hr as <- <- <-. split; [done|]. by eapply (rc_exists RC).
Qed.

Lemma reads_call {A} (f : db E -> option (A * db E)) : reads_db f -> reads (T := T) (call f).
Proof.
  intros Hf t d r t' d'. unfold call. destruct (f d) as [[x d1]|] eqn:Ef; [|done]. intros [= <- <- <-].
  by eapply Hf.
Qed.

Lemma reads_walk {A} cyclic (visit : Z -> Z -> A -> Code E T (option Z * A)) fuel max_walk walked page prev acc :
  (forall page prev acc, reads (visit page prev acc)) ->
  reads (walk cyclic visit fuel max_walk walked page prev acc).
Proof.
  intros Hv. revert walked page prev acc. induction fuel as [|fuel IH]; intros walked page prev acc; simpl; [apply reads_access|].
  destruct (max_walk <? walked); [apply reads_throw|]. apply reads_bind; [apply Hv|].
  intros [[next|] acc']; [apply IH|apply reads_ret].
Qed.
End Reads.

(** Follow the program. *)
Ltac reads :=
  repeat (intros; first
    [ assumption
    | apply reads_ret | apply reads_throw | apply reads_check | apply reads_access | apply reads_members
    | apply reads_update | apply reads_handle_page | apply reads_num; assumption | apply reads_exists; assumption
    | apply reads_bind | apply reads_handle; [assumption|] | apply reads_walk | apply reads_call
    | match goal with
      | |- reads _ _ (if ?b then _ else _) => destruct b
      | |- reads _ _ (match ?o with _ => _ end) => destruct o
      end ]); intros.

(** ** Opening *)

Section Open.
Context {E : Type} `{PageEnv E} `{!PageAlloc E} (sink : bool) (P : E -> Prop) (RC : read_closed P).

Lemma LoadDirectory_ids_reads n i handle : reads sink P (LoadDirectory_ids (E := E) n i handle).
Proof. revert i. induction n as [|n IH]; intros i; simpl; reads. apply IH. Qed.

Lemma LoadDirectory_reads : reads sink P (LoadDirectory (E := E)).
Proof. unfold LoadDirectory, LoadDirectory_walk, LoadDirectory_page. reads. apply LoadDirectory_ids_reads. Qed.

(** A static method that runs [m] on a new object. *)
Lemma reads_open {T A B} (m : Code E T A) (t : T) (f : Status + A -> T -> B) :
  reads sink P m -> reads_db sink P (fun d => '(r, (t, d)) ← m (t, d); Some (f r t, d)).
Proof.
  intros Hm d x d'. destruct (m (t, d)) as [[r [t1 d1]]|] eqn:E1; [|done]. cbn [mbind option_bind].
  intros [= <- <-]. by eapply Hm.
Qed.

Lemma HeapTable_Open_reads root : reads_db sink P (HeapTable.Open (E := E) true root).
Proof.
  unfold HeapTable.Open. cbn [negb]. destruct (root =? kInvalidId); [by intros d x d' [= <- <-]|].
  apply (reads_open LoadDirectory _ opened), LoadDirectory_reads.
Qed.

Lemma Load_entries_reads n i handle found : reads sink P (Load_entries (E := E) n i handle found).
Proof. revert i found. induction n as [|n IH]; intros i found; simpl; reads. apply IH. Qed.

Lemma Load_tables_reads found : reads sink P (Load_tables (E := E) found).
Proof. induction found as [|e found IH]; simpl; reads. apply HeapTable_Open_reads. Qed.

Lemma Load_reads : reads sink P (Load (E := E)).
Proof. unfold Load, Load_page. reads; [apply Load_entries_reads|apply Load_tables_reads]. Qed.

Lemma executor_Open_reads root d s oq d' :
  QueryExecutor.Open true root d = Some (s, oq, d') -> calm_db sink P d -> calm_db sink P d'.
Proof.
  unfold QueryExecutor.Open, Catalog.Open. cbn [negb]. destruct (root =? kInvalidId).
  { intros Hx. by simplify_eq/=. }
  destruct (Load (NewCatalog root, d)) as [[r [k d1]]|] eqn:E1; [|done]. intros Hx Hc.
  assert (d1 = d') as <-; [|by eapply Load_reads].
  simpl in Hx. unfold executor_of in Hx. destruct (opened_catalog r k) as [s1 ok1]. by destruct (ok s1); simplify_eq/=.
Qed.

(** Creating a catalog writes to the device only, not through the pool. *)
Context (P_all : forall e, P e).

Lemma reads_alloc {T} : reads sink P (T := T) storage_AllocatePage.
Proof.
  intros t [bp e] r t' d' Hr [Hp He]. unfold storage_AllocatePage in Hr.
  destruct (env_alloc e) as [[s p] e1]. by injection Hr as <- <- <-.
Qed.

Lemma reads_write {T} p : reads sink P (T := T) (storage_WritePage p).
Proof.
  intros t [bp e] r t' d' Hr [Hp He]. unfold storage_WritePage in Hr.
  destruct (env_write p e) as [s e1]. by injection Hr as <- <- <-.
Qed.

Lemma executor_Create_pristine d s oq d' :
  QueryExecutor.Create true d = Some (s, oq, d') -> pristine sink (fst d) -> pristine sink (fst d').
Proof.
  unfold QueryExecutor.Create, Catalog.Create. cbn [negb]. set (m := p ← storage_AllocatePage; _).
  assert (reads sink P m) as Hm.
  { apply reads_bind; [apply reads_alloc|intros p]. apply reads_bind; [apply reads_access|intros root].
    apply reads_bind; [apply reads_write|intros _]. apply reads_bind; [apply reads_update|intros _]. apply Load_reads. }
  destruct (m (NewCatalog kInvalidId, d)) as [[r [k d1]]|] eqn:E1; [|done]. intros Hx Hp.
  assert (d1 = d') as <-; [|by eapply Hm].
  simpl in Hx. unfold executor_of in Hx. destruct (opened_catalog r k) as [s1 ok1]. by destruct (ok s1); simplify_eq/=.
Qed.
End Open.
