(* ===== verification/LoggedPool.v ===== *)
(** * A pool behind a write-ahead log

    The instances of the page access interface for the engine's environment, a
    [PageStorage] and a [Wal] ([logged]), and for the same environment with the
    history of its calls ([traced]).  For the latter the relation [ghost] that
    the layers above keep is [covered]: the log has an image of every page whose
    device contents may be stale or torn, or the pool still has the page dirty.
    Allocation and the first write of a page are not logged; they keep it because
    the log cannot name a page that did not exist. *)

From S2P Require Import Prelude Bytes Common PageStorage BufferPool BufferPoolSpec Wal WalSpec Recovery PageAccess.

(** ** The environments *)

Definition with_storage (e : logged) (st : storage) : logged := MkLogged (lg_wal e) st.

#[export] Instance logged_alloc : PageAlloc logged := {
  env_alloc e := let '(s, p, st) := env_alloc (lg_storage e) in (s, p, with_storage e st);
  env_num_pages e := let '(s, n, st) := env_num_pages (lg_storage e) in (s, n, with_storage e st);
  env_exists id e := let '(b, st) := env_exists id (lg_storage e) in (b, with_storage e st) }.

#[export] Instance logged_alloc_laws : PageAllocLaws logged.
Proof.
  split; unfold env_inv, disk, logged_env_laws.
  - intros [w st] s out e' Hi. unfold env_alloc, logged_alloc. cbn [lg_storage].
    destruct (env_alloc st) as [[s1 o1] st1] eqn:E. intros [= <- <- <-]. exact (alloc_law st s1 o1 st1 Hi E).
  - intros [w st] s n e' Hi. unfold env_num_pages, logged_alloc. cbn [lg_storage].
    destruct (env_num_pages st) as [[s1 n1] st1] eqn:E. intros [= <- <- <-]. exact (num_law st s1 n1 st1 Hi E).
  - intros id [w st] b e' Hi Hid. unfold env_exists, logged_alloc. cbn [lg_storage].
    destruct (env_exists id st) as [b1 st1] eqn:E. intros [= <- <-]. exact (exists_law id st b1 st1 Hi Hid E).
  - intros p [w st] s e' Hi Hp. unfold env_write, logged_env. cbn [lg_storage].
    destruct (WritePage p st) as [s1 st1] eqn:E. intros [= <- <-]. exact (write_same_pages p st s1 st1 Hi Hp E).
Qed.

(** The calls that come do not fail. *)
Definition wal_healthy (w : wal) : Prop :=
  w_open w = true /\ lg_good (w_file w) = true /\ lg_future (w_file w) = [].

Lemma lg_write_healthy f src : lg_good f = true -> lg_future f = [] ->
  lg_good (lg_write f src) = true /\ lg_future (lg_write f src) = [].
Proof. intros Hg Hf. unfold lg_write, next_aio. by rewrite Hg, Hf. Qed.

Lemma bind_some {A B} (x : A) (f : A -> option B) : (Some x ≫= f) = f x.
Proof. done. Qed.

Lemma MakeHeader_total lsn id d : exists h, MakeHeader lsn id d = Some h.
Proof.
  pose proof (MakeHeader_spec (MkImage lsn id d)) as H. cbn [im_lsn im_page im_data] in H.
  destruct (MakeHeader lsn id d) as [h|]; [by exists h|discriminate].
Qed.

Lemma AppendPageImage_total id d w :
  zlen d = kPageSize -> is_Some (AppendPageImage id (Some d) kPageSize w).
Proof.
  intros Hd. unfold AppendPageImage. destruct (w_open w); cbn [negb]; [|by eexists].
  rewrite (proj2 (Z.eqb_eq kPageSize kPageImagePayload)) by done. cbn [negb]. destruct (id =? kInvalidId); [by eexists|].
  rewrite get_in by (rewrite ?Hd; unfold kPageSize; lia). rewrite bind_some.
  destruct (MakeHeader_total (w_next w) id (sub d 0 kPageSize)) as [h ->]. rewrite bind_some. destruct (lg_good _); by eexists.
Qed.

Lemma BeforePageWrite_total p w : page_ok p -> is_Some (BeforePageWrite p w).
Proof.
  intros (Hz & _). unfold BeforePageWrite. destruct (IsValid p); cbn [negb]; [|by eexists].
  destruct (AppendPageImage_total (page_id p) _ w Hz) as [[[s n] w'] ->]. rewrite bind_some.
  destruct (ok s); by eexists.
Qed.

Lemma BeforePageWrite_healthy p w s w' :
  wal_healthy w -> page_ok p -> BeforePageWrite p w = Some (s, w') ->
  wal_healthy w' /\ (page_id p <> kInvalidId -> ok s = true).
Proof.
  intros (Ho & Hg & Hf) (Hz & _). unfold BeforePageWrite, IsValid.
  destruct (page_id p =? kInvalidId) eqn:Ei; cbn [negb]; zb; [by intros [= <- <-]|].
  unfold AppendPageImage. rewrite Ho. cbn [negb]. rewrite (proj2 (Z.eqb_eq kPageSize kPageImagePayload)) by done. cbn [negb].
  replace (page_id p =? kInvalidId) with false by lia.
  rewrite get_in by (rewrite ?Hz; unfold kPageSize; lia). rewrite bind_some.
  set (d := sub _ _ _). destruct (MakeHeader_total (w_next w) (page_id p) d) as [h ->]. rewrite bind_some.
  destruct (lg_write_healthy (w_file w) h Hg Hf) as [Hg1 Hf1].
  destruct (lg_write_healthy (lg_write (w_file w) h) d Hg1 Hf1) as [Hg2 Hf2]. rewrite Hg2. cbn [negb].
  rewrite bind_some. rewrite ok_StatusOk. cbn [negb]. unfold Flush. cbn [negb w_open w_file].
  unfold lg_flush, next_aio. rewrite Hg2, Hf2. cbn [negb hd lg_good]. by intros [= <- <-].
Qed.

#[export, refine] Instance logged_healthy : PageHealthy logged :=
  {| env_healthy e := env_healthy (lg_storage e) /\ wal_healthy (lg_wal e) |}.
Proof.
  all: unfold env_inv, disk, logged_env_laws.
  - intros id [w st] s out e' Hi [Hh Hw] Hid. unfold env_read, logged_env. cbn [lg_storage lg_wal] in *.
    destruct (ReadPage id (Some PageDefault) st) as [[s1 o1] st1] eqn:E. intros [= <- <- <-].
    destruct (@healthy_read _ _ _ _ _ storage_healthy id st s1 o1 st1 Hi Hh Hid E). by split; [split|].
  - intros p [w st] s e' Hi [Hh Hw] Hp. unfold env_write, logged_env. cbn [lg_storage lg_wal] in *.
    destruct (WritePage p st) as [s1 st1] eqn:E. intros [= <- <-].
    destruct (@healthy_write _ _ _ _ _ storage_healthy p st s1 st1 Hi Hh Hp E). by split; [split|].
  - intros p [w st] s e' Hi [Hh Hw] Hp. unfold env_log, logged_env. cbn [lg_storage lg_wal] in *.
    destruct (BeforePageWrite_total p w Hp) as [[s1 w1] E]. rewrite E. intros [= <- <-].
    destruct (BeforePageWrite_healthy p w s1 w1 Hw Hp E). by split; [split|].
  - intros [w st] s out e' Hi [Hh Hw]. unfold env_alloc, logged_alloc. cbn [lg_storage lg_wal] in *.
    destruct (env_alloc st) as [[s1 o1] st1] eqn:E. intros [= <- <- <-] Hroom.
    destruct (@healthy_alloc _ _ _ _ _ storage_healthy st s1 o1 st1 Hi Hh E Hroom). by split; [split|].
  - intros [w st] s n e' Hi [Hh Hw]. unfold env_num_pages, logged_alloc. cbn [lg_storage lg_wal] in *.
    destruct (env_num_pages st) as [[s1 n1] st1] eqn:E. intros [= <- <- <-].
    destruct (@healthy_num _ _ _ _ _ storage_healthy st s1 n1 st1 Hi Hh E). by split; [split|].
  - intros id [w st] b e' Hi [Hh Hw] Hid. unfold env_exists, logged_alloc. cbn [lg_storage lg_wal] in *.
    destruct (env_exists id st) as [b1 st1] eqn:E. intros [= <- <-].
    destruct (@healthy_exists _ _ _ _ _ storage_healthy id st b1 st1 Hi Hh Hid E). by split; [split|].
Defined.

#[export, refine] Instance logged_keeps : PoolKeeps logged := {| ghost _ _ := True |}.
Proof. all: done. Defined.

(** The history does not change what the calls do. *)
#[export] Instance traced_alloc {E} `{PageAlloc E} : PageAlloc (traced E) := {
  env_alloc t := let '(s, p, e) := env_alloc (tr_env t) in (s, p, MkTraced (tr_events t) e);
  env_num_pages t := let '(s, n, e) := env_num_pages (tr_env t) in (s, n, MkTraced (tr_events t) e);
  env_exists id t := let '(b, e) := env_exists id (tr_env t) in (b, MkTraced (tr_events t) e) }.

#[export] Instance traced_alloc_laws {E} `{PageAllocLaws E} : PageAllocLaws (traced E).
Proof.
  split; unfold env_inv, disk, traced_env_laws.
  - intros [tr e] s out t' Hi. unfold env_alloc, traced_alloc. cbn [tr_env].
    destruct (env_alloc e) as [[s1 o1] e1] eqn:Ea. intros [= <- <- <-]. exact (alloc_law e s1 o1 e1 Hi Ea).
  - intros [tr e] s n t' Hi. unfold env_num_pages, traced_alloc. cbn [tr_env].
    destruct (env_num_pages e) as [[s1 n1] e1] eqn:Ea. intros [= <- <- <-]. exact (num_law e s1 n1 e1 Hi Ea).
  - intros id [tr e] b t' Hi Hid. unfold env_exists, traced_alloc. cbn [tr_env].
    destruct (env_exists id e) as [b1 e1] eqn:Ea. intros [= <- <-]. exact (exists_law id e b1 e1 Hi Hid Ea).
  - intros p [tr e] s t' Hi Hp. unfold env_write, traced_env. cbn [tr_env].
    destruct (env_write p e) as [s1 e1] eqn:Ea. intros [= <- <-]. exact (write_same_pages p e s1 e1 Hi Hp Ea).
Qed.

#[export, refine] Instance traced_healthy {E} `{PageHealthy E} : PageHealthy (traced E) :=
  {| env_healthy t := env_healthy (tr_env t) |}.
Proof.
  all: unfold env_inv, disk, traced_env_laws.
  - intros id [tr e] s out t' Hi Hh Hid. unfold env_read, traced_env. cbn [tr_env] in *.
    destruct (env_read id e) as [[s1 o1] e1] eqn:Ea. intros [= <- <- <-]. exact (healthy_read id e s1 o1 e1 Hi Hh Hid Ea).
  - intros p [tr e] s t' Hi Hh Hp. unfold env_write, traced_env. cbn [tr_env] in *.
    destruct (env_write p e) as [s1 e1] eqn:Ea. intros [= <- <-]. exact (healthy_write p e s1 e1 Hi Hh Hp Ea).
  - intros p [tr e] s t' Hi Hh Hp. unfold env_log, traced_env. cbn [tr_env] in *.
    destruct (env_log p e) as [s1 e1] eqn:Ea. intros [= <- <-]. exact (healthy_log p e s1 e1 Hi Hh Hp Ea).
  - intros [tr e] s out t' Hi Hh. unfold env_alloc, traced_alloc. cbn [tr_env] in *.
    destruct (env_alloc e) as [[s1 o1] e1] eqn:Ea. intros [= <- <- <-]. exact (healthy_alloc e s1 o1 e1 Hi Hh Ea).
  - intros [tr e] s n t' Hi Hh. unfold env_num_pages, traced_alloc. cbn [tr_env] in *.
    destruct (env_num_pages e) as [[s1 n1] e1] eqn:Ea. intros [= <- <- <-]. exact (healthy_num e s1 n1 e1 Hi Hh Ea).
  - intros id [tr e] b t' Hi Hh Hid. unfold env_exists, traced_alloc. cbn [tr_env] in *.
    destruct (env_exists id e) as [b1 e1] eqn:Ea. intros [= <- <-]. exact (healthy_exists id e b1 e1 Hi Hh Hid Ea).
Defined.

(** ** What the log covers *)

(** The storage of a traced environment, and replacing it. *)
Definition tr_storage (t : traced logged) : storage := lg_storage (tr_env t).
Definition set_storage (t : traced logged) (st : storage) : traced logged :=
  MkTraced (tr_events t) (with_storage (tr_env t) st).

(** The log covers the storage as it is now. *)
Definition guarded_now (bp : BufferPool) (t : traced logged) : Prop :=
  guarded true (running (tr_storage t)) (unsynced (tr_storage t)) (page_in_db (tr_storage t)) bp t.

Definition covered (bp : BufferPool) (t : traced logged) : Prop := st_ok (tr_storage t) -> guarded_now bp t.

Lemma redo_pages_base bs c c' id :
  id ∈ (fst <$> bs) -> redo_pages bs c id = redo_pages bs c' id.
Proof.
  induction bs as [|b bs IH] using rev_ind; [by intros ?%elem_of_nil|].
  rewrite fmap_app, elem_of_app. simpl. rewrite list_elem_of_singleton, !redo_pages_snoc.
  case (Z.eqb_spec id b.1); [done|]. intros ? [?|?]; [by apply IH|done].
Qed.

Lemma redo_pages_other bs c id : id ∉ (fst <$> bs) -> redo_pages bs c id = c id.
Proof.
  induction bs as [|b bs IH] using rev_ind; [done|].
  rewrite fmap_app, not_elem_of_app. simpl. rewrite not_elem_of_cons, redo_pages_snoc. intros (? & ? & _).
  rewrite (proj2 (Z.eqb_neq _ _)) by done. by apply IH.
Qed.

(** A page out of step is one that the log names. *)
Lemma unsynced_now t id :
  unsynced (tr_storage t) t id <-> log_calls (tr_events t) < 2 ^ 64 - 2 /\
    (id ∈ (fst <$> barriers (tr_events t)) /\
       contents (tr_storage t) id <> redo_pages (barriers (tr_events t)) (contents (tr_storage t)) id \/
     id ∈ failed (tr_events t)).
Proof.
  unfold unsynced, tr_storage. split; [|tauto]. intros [Hb [Hc|Hf]]; (split; [done|]); [left|by right]. split; [|done].
  destruct (decide (id ∈ (fst <$> barriers (tr_events t)))) as [|Hn]; [done|]. by rewrite redo_pages_other in Hc.
Qed.

Lemma wal_inv_mono (Q Q' : Z -> Prop) rs w : (forall id, Q id -> Q' id) -> wal_inv Q rs w -> wal_inv Q' rs w.
Proof.
  intros HQ [Ho Hn (extra & Hl & Hok & HF & Hg & Hs) Hd]. split; [done..| |done]. exists extra. split_and!; try done.
  eapply Forall_impl; [exact HF|]. intros r. apply HQ.
Qed.

Lemma log_inv_mono st0 st t rs : npages st0 <= npages st -> log_inv st0 t rs -> log_inv st t rs.
Proof.
  intros Hn [? ? ? ? ?]. split; try done. eapply wal_inv_mono; [|done]. unfold in_db. intros. lia.
Qed.

(** The pages of the barriers are pages of the database. *)
Lemma barriers_in_db st0 t rs id : log_inv st0 t rs -> id ∈ (fst <$> barriers (tr_events t)) -> id < npages st0.
Proof.
  intros [[_ _ (extra & _ & _ & HQ & _) _] _ (k & Hk & _) _ _] Hid.
  assert (id ∈ (fst <$> (page_image <$> rs))) as Hin by (rewrite Hk, fmap_app; apply elem_of_app; by left).
  rewrite <- list_fmap_compose in Hin. apply list_elem_of_fmap in Hin as (r & -> & Hr).
  rewrite Forall_app, !Forall_forall in HQ. exact (proj1 HQ r Hr).
Qed.

(** Taking the storage as it is for the beginning of the session. *)
Lemma guarded_rebase st0 bp t :
  guarded true (running st0) (unsynced st0) (page_in_db st0) bp t -> guarded_now bp t.
Proof.
  intros [Hs Hp (Hst & Hn & Hok) Hbad]. fold (tr_storage t) in *. split; [done| |split_and!; [done..|]|].
  - eapply Forall_impl; [exact Hp|]. intros f Hf Hu. destruct (Hf Hu). split; [by rewrite Hn|done].
  - intros Hb. destruct (Hok Hb) as [_ _ (rs & Hl) _]. split; [done|done| |done]. exists rs.
    eapply log_inv_mono; [|exact Hl]. fold (tr_storage t). lia.
  - intros id [Hb [[Hin Hc]|Hf]]%unsynced_now; apply Hbad; (split; [done|]); [left|by right].
    by rewrite (redo_pages_base _ _ (contents (tr_storage t)) _ Hin).
Qed.

(** The storage may grow under the log, when it keeps its pages. *)
Lemma covered_grow bp t st :
  (st_ok st -> st_ok (tr_storage t)) -> npages (tr_storage t) <= npages st ->
  (forall j, j < npages (tr_storage t) -> contents st j = contents (tr_storage t) j) ->
  covered bp t -> covered bp (set_storage t st).
Proof.
  intros Hok Hn Hc Hcov Hst. change (tr_storage (set_storage t st)) with st in Hst.
  destruct (Hcov (Hok Hst)) as [Hs Hp (Hst0 & _ & Hrun) Hbad]. split; [done| |split_and!; [done..|]|].
  - eapply Forall_impl; [exact Hp|]. intros f Hf Hu. destruct (Hf Hu) as [[? ?] ?]. split; [|done].
    change (tr_storage (set_storage t st)) with st. lia.
  - intros Hb. destruct (Hrun Hb) as [_ _ (rs & Hl) _]. split; [done|done| |done]. exists rs.
    apply (log_inv_mono _ st) in Hl; [|done]. by destruct Hl; split.
  - intros id [Hb [[Hin Hd]|Hf]]%unsynced_now; apply Hbad; apply unsynced_now; (split; [done|]); [left|by right].
    split; [done|]. change (tr_storage (set_storage t st)) with st in Hd.
    change (tr_events (set_storage t st)) with (tr_events t) in *.
    destruct (Hrun Hb) as [_ _ (rs & Hl) _]. rewrite <- (Hc id) by (by eapply barriers_in_db).
    by rewrite (redo_pages_base _ _ (contents st) _ Hin).
Qed.

(** A file that ends in part of a page stays like that. *)
Definition ragged (t : traced logged) : Prop :=
  st_sound (tr_storage t) /\ ~ (kPageSize | zlen (st_bytes (tr_storage t))).

Lemma quiet_ragged t tr w st : ragged t -> quiet (tr_storage t) st -> ragged (MkTraced tr (MkLogged w st)).
Proof. intros [Hs Hr] Q. split; [by eapply quiet_sound|]. unfold tr_storage. simpl. by rewrite (proj1 Q). Qed.

Lemma not_ragged t : st_sound (tr_storage t) -> ~ ragged t -> st_ok (tr_storage t).
Proof. intros Hs Hn. destruct (st_sound_cases _ Hs) as [?|?]; [done|]. by destruct Hn. Qed.

Lemma ragged_not_ok t : ragged t -> ~ st_ok (tr_storage t).
Proof. intros [_ Hr] (_ & _ & Hd & _). done. Qed.

Lemma Fetch_ragged id bp t s h bp' t' :
  pool_inv bp t -> 0 <= id <= kInvalidId -> ragged t -> Fetch true id bp t = (s, h, bp', t') -> ragged t'.
Proof.
  intros I Hid Hr HF.
  assert (guarded (bp_sink bp) ragged (fun _ _ => False) page_fits bp' t') as [_ _ Hr' _]; [|done].
  eapply (Fetch_guarded _ _ _ _ (fun id => 0 <= id <= kInvalidId)); [| | |exact Hid|exact HF].
  - intros i [tr [w st]] s1 out t2 Hx Hi. rewrite traced_read.
    destruct (ragged_ops st (proj1 Hx) (proj2 Hx)) as (Hrd & _). destruct (Hrd i PageDefault) as (s2 & st2 & -> & Q & Hs2).
    intros [= <- <- <-]. split; [by eapply quiet_ragged|]. split; [done|by rewrite Hs2].
  - intros p [tr [w st]] s1 t2 Hx Hp Ef. split; [|done]. unfold flush_env in Ef.
    assert (exists ls t3, (if bp_sink bp then env_log p (MkTraced tr (MkLogged w st)) else (StatusOk, MkTraced tr (MkLogged w st))) = (ls, t3) /\
      ragged t3) as (ls & t3 & El & Hr3).
    { destruct (bp_sink bp); [|by eexists _, _]. rewrite traced_log.
      destruct (BeforePageWrite p w) as [[s3 w3]|]; by eexists _, _. }
    rewrite El in Ef. destruct (ok ls); cbn [negb] in Ef; [|by injection Ef as <- <-].
    destruct t3 as [tr3 [w3 st3]]. rewrite traced_write in Ef.
    destruct (ragged_ops st3 (proj1 Hr3) (proj2 Hr3)) as (_ & Hwr & _). destruct (Hwr p) as (s2 & st2 & Hw2 & Q & _).
    rewrite Hw2 in Ef. injection Ef as <- <-. by eapply quiet_ragged.
  - split; [done| |done|done]. apply Forall_lookup_2. intros i f Hl Hu.
    destruct (inv_frames _ _ I _ _ Hl) as (_ & _ & Hf). by destruct (Hf Hu) as (Hp & _).
Qed.

(** One step of a client keeps what the log covers. *)
Lemma guarded_now_step o c s c' :
  guarded_now (c_pool c) (c_env c) -> st_ok (tr_storage (c_env c)) ->
  match o with PFetch id => 0 <= id | PWrite _ d => buf_ok kPageSize d | _ => True end ->
  pool_step o c = (s, c') -> guarded_now (c_pool c') (c_env c').
Proof.
  intros Hg Hst Ho Hs. apply (guarded_rebase (tr_storage (c_env c))).
  refine (pool_step_guarded true _ _ _ (fun id => 0 <= id) (buf_ok kPageSize) _ _ _ o c s c' Hg Ho Hs).
  - intros id t s0 out t'. by apply running_read.
  - intros p t s0 t'. by apply running_flush.
  - intros id d d' [? _] ?. by split.
Qed.

(** A page write adds nothing to what is known of the log. *)
Lemma covered_write p bp tr e : covered bp (MkTraced tr e) -> covered bp (MkTraced (EvWrite p :: tr) e).
Proof.
  intros Hc Hst. destruct (Hc Hst) as [Hs Hp (Hst0 & Hn & Hrun) Hbad]. split; [done..| |done]. split_and!; [done..|].
  intros Hb. destruct (Hrun Hb) as [? ? (rs & [? ? ? ? ?]) ?]. split; [done..| |done]. exists rs. by split.
Qed.

(** What the calls on the storage leave. *)
Definition grown (st st' : storage) : Prop :=
  (st_ok st' -> st_ok st) /\ npages st <= npages st' /\ forall j, j < npages st -> contents st' j = contents st j.

Lemma quiet_grown st st' : quiet st st' -> grown st st'.
Proof.
  intros Q. split_and!; [| |by intros; apply quiet_contents].
  - destruct Q as (H & Ho & _). unfold st_ok, npages. by rewrite H, Ho.
  - rewrite (npages_same_len st st'); [done|]. by rewrite (proj1 Q).
Qed.

Lemma num_grown st s n st' : st_sound st -> NumPages st = (s, n, st') -> grown st st'.
Proof.
  intros Hs HN. apply quiet_grown. destruct (st_sound_cases st Hs) as [Hok|Hr].
  - destruct (NumPages_spec st Hok) as (s1 & n1 & st1 & HN1 & Q & _). rewrite HN in HN1. by injection HN1 as <- <- <-.
  - destruct (NumPages_ragged st Hs Hr) as (s1 & n1 & st1 & HN1 & Q & _). rewrite HN in HN1. by injection HN1 as <- <- <-.
Qed.

Lemma exists_grown id st b st' : st_sound st -> PageExists id st = (b, st') -> grown st st'.
Proof.
  intros Hs HE. unfold PageExists in HE. rewrite (proj1 Hs) in HE. cbn [negb] in HE.
  destruct (NumPages st) as [[s n] st1] eqn:HN. apply num_grown in HN; [|done].
  by destruct (ok s); injection HE as <- <-.
Qed.

Lemma alloc_grown st s out st' : st_sound st -> AllocatePage (Some PageDefault) st = (s, out, st') -> grown st st'.
Proof.
  intros Hs Ha. destruct (st_sound_cases st Hs) as [Hok|Hr].
  - destruct (@alloc_law _ _ _ _ storage_alloc_laws st s out st' Hs Ha) as (_ & Hold & _). split_and!; [done| |].
    + destruct (decide (npages st <= 0)); [pose proof (npages_nonneg st'); lia|].
      assert (is_Some (contents st (npages st - 1))) as Hl by (apply contents_is_Some; lia).
      assert (contents st' (npages st - 1) = contents st (npages st - 1)) as Hl' by exact (Hold _ Hl).
      rewrite <- Hl' in Hl. apply contents_is_Some in Hl. lia.
    + intros j Hj. destruct (decide (0 <= j)); [apply Hold, contents_is_Some; lia|].
      unfold contents. by replace (0 <=? j) with false by lia.
  - destruct (ragged_ops st Hs Hr) as (_ & _ & Hal & _). destruct (Hal PageDefault) as (s1 & st1 & Ha1 & Q & _).
    rewrite Ha in Ha1. injection Ha1 as <- -> <-. by apply quiet_grown.
Qed.

(** The first write of a page that was just allocated. *)
Lemma init_grown st s p st1 s2 st2 :
  st_sound st -> AllocatePage (Some PageDefault) st = (s, Some (PageOf (page_id p)), st1) -> ok s = true ->
  page_ok p -> WritePage p st1 = (s2, st2) -> grown st st2.
Proof.
  intros Hs Ha Ho Hp Hw. destruct (st_sound_cases st Hs) as [Hok|Hr].
  2: { destruct (ragged_ops st Hs Hr) as (_ & _ & Hal & _). destruct (Hal PageDefault) as (s1 & st1' & Ha1 & _ & Hn).
       rewrite Ha in Ha1. injection Ha1 as <- _ _. congruence. }
  destruct (AllocatePage_spec PageDefault st Hok) as (s1 & out1 & st1' & Ha1 & _ & Hold & C).
  rewrite Ha in Ha1. injection Ha1 as <- <- <-.
  destruct C as [(_ & [= Hid] & Hok1 & Hn1 & _)|(Hc & _)]; [|by rewrite (not_ok_code _ _ Hc) in Ho].
  destruct (WritePage_spec p st1 Hok1 Hp) as (s3 & st3 & Hw3 & _ & _ & Hn & Hoth & _). rewrite Hw in Hw3. injection Hw3 as <- <-.
  split_and!; [done|lia|]. intros j Hj. rewrite Hoth by lia. apply Hold. lia.
Qed.

Lemma covered_grown bp t st : grown (tr_storage t) st -> covered bp t -> covered bp (set_storage t st).
Proof. intros (? & ? & ?). by apply covered_grow. Qed.

#[export, refine] Instance covered_keeps : PoolKeeps (traced logged) := {| ghost := covered |}.
Proof.
  - intros id bp t s h bp' t' I Hc Hid HF Hst'.
    destruct (st_sound_cases _ (inv_env _ _ I : st_sound (tr_storage t))) as [Hst|Hr].
    + apply (guarded_now_step (PFetch id) (MkClient [] bp t []) s (MkClient (match h with Some i => [(i, id)] | None => [] end) bp' t' []) (Hc Hst) Hst (proj1 Hid)).
      simpl. by rewrite HF.
    + destruct (ragged_not_ok t'); [|done]. eapply Fetch_ragged; [exact I|exact Hid| |exact HF]. by split; [apply I|].
  - intros i bp t Hc Hst.
    by apply (guarded_now_step (PUnpin 0) (MkClient [(i, 0)] bp t []) StatusOk (MkClient [] (UnpinFrame i bp) t []) (Hc Hst) Hst Logic.I).
  - intros i data bp t Hc Hd Hst.
    by apply (guarded_now_step (PWrite 0 data) (MkClient [(i, 0)] bp t []) StatusOk
      (MkClient [(i, 0)] (HandleWrite i data bp) t [(0, data)]) (Hc Hst) Hst Hd).
  - intros bp [tr [w st]] s n t' Hi Hc.
    unfold env_num_pages, traced_alloc, env_num_pages, logged_alloc, env_num_pages, storage_alloc. cbn [tr_env lg_storage].
    destruct (NumPages st) as [[s1 n1] st1] eqn:Ea. intros [= <- <- <-].
    apply (covered_grown bp _ st1) in Hc; [exact Hc|]. by eapply num_grown.
  - intros id bp [tr [w st]] b t' Hi Hc Hid.
    unfold env_exists, traced_alloc, env_exists, logged_alloc, env_exists, storage_alloc. cbn [tr_env lg_storage].
    destruct (PageExists id st) as [b1 st1] eqn:Ea. intros [= <- <-].
    apply (covered_grown bp _ st1) in Hc; [exact Hc|]. by eapply exists_grown.
  - intros bp [tr [w st]] s out t' Hi Hc.
    unfold env_alloc, traced_alloc, env_alloc, logged_alloc, env_alloc, storage_alloc. cbn [tr_env lg_storage].
    destruct (AllocatePage (Some PageDefault) st) as [[s1 o1] st1] eqn:Ea. intros [= <- <- <-].
    apply (covered_grown bp _ st1) in Hc; [exact Hc|]. by eapply alloc_grown.
  - intros bp [tr [w st]] s p t1 s2 t2 Hi Hc.
    unfold env_alloc, traced_alloc, env_alloc, logged_alloc, env_alloc, storage_alloc. cbn [tr_env lg_storage].
    destruct (AllocatePage (Some PageDefault) st) as [[s1 o1] st1] eqn:Ea. intros [= <- -> <-] Ho Hp.
    unfold with_storage. cbn [tr_events tr_env lg_wal]. rewrite traced_write. destruct (WritePage p st1) as [s3 st3] eqn:Ew. intros [= <- <-].
    apply covered_write. apply (covered_grown bp _ st3) in Hc; [exact Hc|]. by eapply init_grown.
Defined.

(** ** Sessions *)

(** A log just truncated. *)
Definition wal_blank (w : wal) : Prop :=
  w_open w = true /\ w_next w = 1 /\ w_durable w = 0 /\ lg_disk (w_file w) = [] /\ lg_buf (w_file w) = [] /\
  lg_good (w_file w) = true.

Lemma blank_log_inv st e : wal_blank (lg_wal e) -> log_inv st (MkTraced [] e) [].
Proof.
  destruct e as [[f p o n dur] st']. unfold wal_blank. simpl. intros (-> & -> & -> & Hd & Hb & Hg).
  split; simpl; [|lia|by exists []|by rewrite Hg|constructor]. split; simpl; [done|done| |].
  - exists []. simpl. split_and!; [lia|by split; constructor|constructor|done|]. split; simpl; rewrite ?Hd, ?Hb; by try exists [].
  - exists []. split_and!; [done|by rewrite Hd|]. intros r Hr. by apply elem_of_nil in Hr.
Qed.

(** The history of a session starts empty. *)
Lemma begin_session b c held bp (e : logged) :
  owns b c held (bp, e) -> bp_sink bp = true -> wal_blank (lg_wal e) -> owns b c held (bp, MkTraced [] e).
Proof.
  intros [I Hlog Hbk Hheld _ Hcalm] Hsink Hw. cbn [fst snd] in *.
  assert (pool_inv bp (MkTraced [] e)) as I' by (by destruct I; split).
  split; cbn [fst snd]; [exact I'|exact Hlog|exact Hbk|exact Hheld| |].
  - intros Hst. change (tr_storage _) with (lg_storage e) in Hst. split; [done| |split_and!; [done..|]|].
    + apply Forall_lookup_2. intros i f Hl Hu. destruct (inv_frames _ _ I _ _ Hl) as (_ & _ & Hf).
      destruct (Hf Hu) as ((? & ? & ?) & _). split; [|done]. apply contents_is_Some.
      apply (Hbk (page_id (f_page f))). rewrite <- Hlog. unfold logical.
      destruct (resident_at _ _ _ _ I Hl Hu) as [_ ->]. by eexists.
    + intros _. split; [done|done| |done]. exists []. by apply blank_log_inv.
    + intros id [_ [[Hin _]|Hin]]%unsynced_now; by apply elem_of_nil in Hin.
  - intros Hb. destruct (Hcalm Hb). by split.
Qed.

(** What a successful [FlushAll] leaves on the device and in the log. *)
Lemma flushed_session b c bp (t : traced logged) s bp' t' :
  owns b c None (bp, t) -> st_ok (tr_storage t) -> FlushAll bp t = (s, bp', t') -> ok s = true ->
  log_calls (tr_events t') < 2 ^ 64 - 2 ->
  let w := lg_wal (tr_env t') in
  st_ok (tr_storage t') /\ (forall id, contents (tr_storage t') id = c id) /\ (forall i, frame_clean i (bp_frames bp')) /\
  exists rs, lg_disk (w_file w) = log_bytes rs /\ lg_buf (w_file w) = [] /\ w_open w = true /\
    log_ok rs /\ allocated rs (tr_storage t') /\ forall id, redo rs c id = c id.
Proof.
  intros O Hst HF Hs Hb w. set (st := tr_storage t) in *.
  pose proof (own_ghost _ _ _ _ O Hst) as Hg. cbn [fst snd] in Hg.
  pose proof (guarded_now_step PFlushAll (MkClient [] bp t []) s (MkClient [] bp' t' []) Hg Hst Logic.I
    ltac:(simpl; by rewrite HF)) as [_ _ Hrun Hbad]. cbn [c_pool c_env] in Hrun, Hbad.
  destruct (FlushAll_clean _ _ _ _ _ (own_inv _ _ _ _ O) HF Hs) as [Hclean Hcont].
  assert (forall id, contents (tr_storage t') id = c id) as Hc.
  { intros id. rewrite <- (own_logical _ _ _ _ O). exact (proj1 (Hcont id)). }
  destruct (synced_log (tr_storage t') t' (proj1 Hrun) Hrun Hb) as (rs & E & Hbuf & Hwo & Hok & HQ & Hr).
  { intros id (i & f & _ & Hl & Hu & Hd & _)%Hbad. by rewrite (Hclean i f Hl Hu) in Hd. }
  split; [exact (proj1 Hrun)|]. split; [done|]. split; [done|]. exists rs. do 5 (split; [done|]).
  intros id. rewrite <- Hc. symmetry. change (contents (tr_storage t') id) with (contents (lg_storage (tr_env t')) id).
  rewrite Hr. apply redo_agree. intros j _. by rewrite <- Hc.
Qed.

(** The history does not change what the pool does. *)
Lemma FlushFrame_traced {E} `{PageEnv E} i bp (t : traced E) :
  FlushFrame i bp (tr_env t) = let '(s, bp', t') := FlushFrame i bp t in (s, bp', tr_env t').
Proof.
  unfold FlushFrame. destruct (bp_frames bp !! i) as [f|]; [|done]. destruct (_ || _); [done|].
  assert (forall t : traced E,
    (let '(s, e) := env_write (f_page f) (tr_env t) in
     if negb (ok s) then (s, bp, e) else (StatusOk, upd_frame i (fun f => set_page (ClearDirty (f_page f)) f) bp, e)) =
    (let '(s, bp', t') :=
       let '(s, e) := env_write (f_page f) t in
       if negb (ok s) then (s, bp, e) else (StatusOk, upd_frame i (fun f => set_page (ClearDirty (f_page f)) f) bp, e) in
     (s, bp', tr_env t'))) as Hw.
  { intros t1. unfold env_write at 2, traced_env. destruct (env_write (f_page f) (tr_env t1)) as [s e2].
    by destruct (negb (ok s)). }
  destruct (bp_sink bp); [|apply (Hw t)]. unfold env_log at 2, traced_env.
  destruct (env_log (f_page f) (tr_env t)) as [ls e1]. destruct (negb (ok ls)); [done|].
  apply (Hw (MkTraced _ e1)).
Qed.

Lemma FlushAll_traced {E} `{PageEnv E} bp (t : traced E) :
  FlushAll bp (tr_env t) = let '(s, bp', t') := FlushAll bp t in (s, bp', tr_env t').
Proof.
  unfold FlushAll. destruct (negb (bp_storage bp)); [done|]. generalize O StatusOk. revert bp t.
  intros bp t. generalize (length (bp_frames bp)) as n. intros n. revert bp t.
  induction n as [|n IH]; intros bp t i first; [done|]. cbn [FlushAll_loop].
  destruct (bp_frames bp !! i) as [f|]; [|done]. destruct (_ || _); [apply IH|].
  rewrite FlushFrame_traced. destruct (FlushFrame i bp t) as [[s bp1] t1]. apply IH.
Qed.
