(* ===== verification/Database.v ===== *)
(** * The database: opening, recovery, creation and closing

    [include/db/database.h] and [src/db/database/database.cpp].  The directory is
    a finite map from paths to the bytes of files; a stream on a file shows its
    bytes there after every call, so that a process that dies leaves what its
    last call left.  Whether a call on the file system fails is an input of the
    model, like the outcomes of the streams. *)

From stdpp Require Import gmap.
From S2P Require Import Prelude Bytes Common PageStorage BufferPool BufferPoolSpec Wal Recovery PageAccess LoggedPool Catalog QueryExecutor.

(** ** Processes

    A computation on the directory: it yields a value, returns early with a
    status, or ends the process; [None] is an access outside a buffer. *)

Abbreviation files := (gmap string (list Z)).

Inductive outcome (A : Type) := Done (x : A) | Failed (s : Status) | Exited (code : Z).
Arguments Done {A} x. Arguments Failed {A} s. Arguments Exited {A} code.

Definition Sys (A : Type) : Type := files -> option (outcome A * files).

#[export] Instance Sys_ret : MRet Sys := fun A x fs => Some (Done x, fs).
#[export] Instance Sys_bind : MBind Sys := fun A B k m fs =>
  '(r, fs) ← m fs;
  match r with
  | Done x => k x fs
  | Failed s => Some (Failed s, fs)
  | Exited c => Some (Exited c, fs)
  end.

Definition fail {A} (s : Status) : Sys A := fun fs => Some (Failed s, fs).
Definition lift {A} (o : option A) : Sys A := fun fs => x ← o; Some (Done x, fs).

(** [std::filesystem] with an error code: [fails] says that the call reports an
    error, the result is the error code being set. *)
Definition remove (fails : bool) (path : string) : Sys bool := fun fs =>
  Some (Done fails, if fails then fs else delete path fs).
Definition exists_ (fails : bool) (path : string) : Sys (bool * bool) := fun fs =>
  Some (Done (if fails then (false, true) else (bool_decide (is_Some (fs !! path)), false)), fs).
Definition file_size (fails : bool) (path : string) : Sys (Z * bool) := fun fs =>
  Some (Done (match fs !! path with
              | Some bytes => if fails then (UINT64_MAX, true) else (zlen bytes, false)
              | None => (UINT64_MAX, true)
              end), fs).
Definition rename (fails : bool) (from to : string) : Sys bool := fun fs =>
  match fs !! from with
  | Some bytes => if fails then Some (Done true, fs) else Some (Done false, <[to := bytes]> (delete from fs))
  | None => Some (Done true, fs)
  end.

(** The file of a storage, and of a log, as the stream leaves it. *)
Definition stored (path : string) (st : storage) : Sys unit := fun fs =>
  Some (Done tt, <[path := st_bytes st]> fs).
Definition logged_to (path : string) (w : wal) : Sys unit := fun fs =>
  Some (Done tt, <[path := lg_disk (w_file w)]> fs).

(** The outcomes of opening and using a storage, and a log. *)
Record storage_io := MkStorageIo {
  so_rw : bool; so_stat_error : bool; so_create : bool; so_reopen : bool; so_future : list io }.
Record wal_io := MkWalIo {
  wo_append : bool; wo_create : bool; wo_reopen : bool; wo_read : rd; wo_future : list aio }.

Definition left_at {A} (path : string) (x : A) (file : option (list Z)) : Sys A := fun fs =>
  Some (Done x, match file with Some bytes => <[path := bytes]> fs | None => delete path fs end).

Definition open_storage (io : storage_io) (path : string) : Sys (Status * option storage) := fun fs =>
  let ap := MkAtPath (fs !! path) (so_rw io) (so_stat_error io) (so_create io) (so_reopen io) (so_future io) in
  let '(s, st, file) := PageStorage.Open path ap in left_at path (s, st) file fs.

Definition open_wal (io : wal_io) (path : string) : Sys (Status * option wal) := fun fs =>
  let e := MkWalPath (fs !! path) (wo_append io) (wo_create io) (wo_reopen io) (wo_read io) (wo_future io) in
  '(s, w, file) ← Wal.Open path e; left_at path (s, w) file fs.

(** ** The header page *)

Definition kHeaderVersion : Z := 1.
Definition kMagic0 : Z := 0x4E.
Definition kMagic1 : Z := 0x44.
Definition kMagic2 : Z := 0x42.
Definition kMagic3 : Z := 0x31.
Definition kOffMagic : Z := 0.
Definition kOffVersion : Z := 4.
Definition kOffCatalogRoot : Z := 8.

Definition ReadHeader (st : storage) : option ((Status + Z) * storage) :=
  let '(s, header, st) := ReadPage 0 (Some PageDefault) st in
  if negb (ok s) then Some (inl s, st) else
  let d := page_data (default PageDefault header) in
  m0 ← at_ d (kOffMagic + 0); m1 ← at_ d (kOffMagic + 1); m2 ← at_ d (kOffMagic + 2); m3 ← at_ d (kOffMagic + 3);
  if negb (m0 =? kMagic0) || negb (m1 =? kMagic1) || negb (m2 =? kMagic2) || negb (m3 =? kMagic3) then
    Some (inl (BadState "database: header page has bad magic"), st) else
  version ← ReadU16 d kOffVersion;
  if negb (version =? kHeaderVersion) then Some (inl (BadState "database: unsupported header version"), st) else
  root ← ReadU32 d kOffCatalogRoot;
  if root =? kInvalidId then Some (inl (BadState "database: header has no catalog root"), st) else
  Some (inr root, st).

Definition WriteHeader (st : storage) (catalog_root : Z) : option (Status * storage) :=
  let header := PageOf 0 in
  d ← memset (page_data header) 0 0 kPageSize;
  d ← put d (kOffMagic + 0) [kMagic0]; d ← put d (kOffMagic + 1) [kMagic1];
  d ← put d (kOffMagic + 2) [kMagic2]; d ← put d (kOffMagic + 3) [kMagic3];
  d ← WriteU16 d kOffVersion kHeaderVersion;
  d ← WriteU32 d kOffCatalogRoot catalog_root;
  Some (WritePage (set_data header d) st).

(** [want] is the value of NEXUSDB_CRASH_AT. *)
Definition CrashPoint (want : option string) (point : string) : Sys unit := fun fs =>
  Some (if bool_decide (want = Some point) then Exited 70 else Done tt, fs).

(** ** Creation *)

Record create_io := MkCreateIo {
  ci_remove_tmp : bool; ci_storage : storage_io; ci_abandon : bool;
  ci_remove_wal : bool; ci_remove_db : bool; ci_rename : bool }.

Section Create.
Context (io : create_io) (want : option string).

Definition abandon (tmp_db : string) : Sys unit := remove (ci_abandon io) tmp_db ;; mret tt.

(** [storage->Close(); abandon(); return s;]  The pool, if there is one, is
    destroyed after this: it flushes into a storage that is closed. *)
Definition bail_out {A} (tmp_db : string) (st : storage) (s : Status) : Sys A :=
  stored tmp_db (snd (PageStorage.Close st)) ;; abandon tmp_db ;; fail s.

(** Step 1: a complete image at the temporary path. *)
Definition build_image (tmp_db : string) (pool_capacity : Z) : Sys unit :=
  '(s, st) ← open_storage (ci_storage io) tmp_db;
  match st with
  | None => abandon tmp_db ;; fail s
  | Some st =>
  let '(s, _, st) := AllocatePage (Some PageDefault) st in
  stored tmp_db st ;;
  if negb (ok s) then bail_out tmp_db st s else
  CrashPoint want "after-temp-page0" ;;
  match BufferPool.Create true true pool_capacity with
  | (s, None) => bail_out tmp_db st s
  | (_, Some pool) =>
  '(s, executor, (pool, st)) ← lift (QueryExecutor.Create true (pool, st));
  stored tmp_db st ;;
  match executor with
  | None => bail_out tmp_db st s
  | Some executor =>
  CrashPoint want "after-catalog" ;;
  '(s, st) ← lift (WriteHeader st (QueryExecutor.catalog_root executor));
  stored tmp_db st ;;
  if negb (ok s) then bail_out tmp_db st s else
  CrashPoint want "after-header" ;;
  let '(s, st) := PageStorage.Close st in
  stored tmp_db st ;;
  if negb (ok s) then abandon tmp_db ;; fail s else
  let '(_, _, st) := FlushAll pool st in  (* ~BufferPool *)
  stored tmp_db st
  end end end.

Definition CreateFreshDatabaseAtomically (db_path wal_path : string) (pool_capacity : Z) : Sys unit :=
  let tmp_db := db_path +:+ ".creating" in
  remove (ci_remove_tmp io) tmp_db ;;
  build_image tmp_db pool_capacity ;;
  wal_ec ← remove (ci_remove_wal io) wal_path;
  if (wal_ec : bool) then
    abandon tmp_db ;; fail (StatusError kIoError ("database: cannot clear stale wal: " +:+ wal_path)) else
  CrashPoint want "before-publish" ;;
  rm_ec ← remove (ci_remove_db io) db_path;
  if (rm_ec : bool) then
    abandon tmp_db ;; fail (StatusError kIoError ("database: cannot replace placeholder: " +:+ db_path)) else
  ec ← rename (ci_rename io) tmp_db db_path;
  if (ec : bool) then
    abandon tmp_db ;; fail (StatusError kIoError ("database: cannot publish new database: " +:+ db_path)) else
  CrashPoint want "after-publish".
End Create.

(** ** The database object *)

Record Database := MkDatabase {
  storage_ : storage; wal_ : wal; pool_ : option BufferPool; executor_ : option QueryExecutor; catalog_root_ : Z }.

Record open_io := MkOpenIo {
  oi_exists : bool; oi_size : bool; oi_create : create_io; oi_remove_tmp : bool; oi_storage : storage_io;
  oi_wal : wal_io; oi_recover : rd; oi_reset : bool }.

Section Open.
Context (io : open_io) (want : option string) (db_path wal_path : string).

(** The file is missing or empty. *)
Definition is_fresh : Sys bool :=
  '(there, ec) ← exists_ (oi_exists io) db_path;
  if (ec : bool) then fail (StatusError kIoError ("database: cannot stat database file: " +:+ db_path)) else
  if negb there then mret true else
  '(bytes, ec) ← file_size (oi_size io) db_path;
  if (ec : bool) then fail (StatusError kIoError ("database: cannot stat database file: " +:+ db_path)) else
  mret (bytes =? 0).

(** From the files to the recovered storage and an empty log. *)
Definition recover_files : Sys (storage * wal * Z) :=
  '(s, st) ← open_storage (oi_storage io) db_path;
  match st with
  | None => fail s
  | Some st =>
  '(s, w) ← open_wal (oi_wal io) wal_path;
  match w with
  | None => fail s
  | Some w =>
  '(r, st) ← lift (ReadHeader st);
  match r with
  | inl s => fail s
  | inr root =>
  '(s, _, st) ← lift (Recover (oi_recover io) w (Some st));
  st ← lift st;
  stored db_path st ;;
  if negb (ok s) then fail s else
  let '(s, w) := Reset (oi_reset io) w in
  logged_to wal_path w ;;
  if negb (ok s) then fail s else mret (st, w, root)
  end end end.

(** The pool with its log, and the executor over the recovered storage. *)
Definition open_executor (pool_capacity : Z) (st : storage) (w : wal) (root : Z) : Sys Database :=
  match BufferPool.Create true true pool_capacity with
  | (s, None) => fail s
  | (_, Some pool) =>
  let pool := SetLogSink true pool in
  '(s, executor, (pool, e)) ← lift (QueryExecutor.Open true root (pool, MkLogged w st));
  stored db_path (lg_storage e) ;; logged_to wal_path (lg_wal e) ;;
  match executor with
  | Some executor => mret (MkDatabase (lg_storage e) (lg_wal e) (Some pool) (Some executor) root)
  | None =>
      let '(_, _, e) := FlushAll pool e in  (* ~BufferPool *)
      stored db_path (lg_storage e) ;; logged_to wal_path (lg_wal e) ;; fail s
  end end.

Definition Open (pool_capacity : Z) (out : bool) : Sys Database :=
  if bool_decide (db_path = ""%string) || bool_decide (wal_path = ""%string) || negb out then
    fail (Bad "Database::Open: empty path or null out") else
  if pool_capacity =? 0 then fail (Bad "Database::Open: pool capacity must be positive") else
  fresh ← is_fresh;
  (if (fresh : bool) then CreateFreshDatabaseAtomically (oi_create io) want db_path wal_path pool_capacity
   else remove (oi_remove_tmp io) (db_path +:+ ".creating") ;; mret tt) ;;
  '(st, w, root) ← recover_files;
  open_executor pool_capacity st w root.
End Open.

(** [reopen] says that the log can be opened for truncation. *)
Definition Close (reopen : bool) (d : Database) : Status * Database :=
  if negb (st_open (storage_ d)) then (StatusOk, d) else
  let e := MkLogged (wal_ d) (storage_ d) in
  let '(first, pool, e) :=
    match pool_ d with
    | Some pool => let '(s, pool, e) := FlushAll pool e in (s, Some pool, e)
    | None => (StatusOk, None, e)
    end in
  if negb (ok first) then (first, MkDatabase (lg_storage e) (lg_wal e) pool None (catalog_root_ d)) else
  let e :=  (* ~BufferPool *)
    match pool with
    | Some pool => let '(_, _, e) := FlushAll pool e in e
    | None => e
    end in
  let closing st w := MkDatabase st w None None (catalog_root_ d) in
  let '(s, w) := Reset reopen (lg_wal e) in
  if negb (ok s) then (s, closing (lg_storage e) w) else
  let '(s, w) := Wal.Close w in
  if negb (ok s) then (s, closing (lg_storage e) w) else
  let '(s, st) := PageStorage.Close (lg_storage e) in
  (s, closing st w).

(** The directory while the database is in use. *)
Definition on_files (db_path wal_path : string) (st : storage) (w : wal) (fs : files) : files :=
  <[wal_path := lg_disk (w_file w)]> (<[db_path := st_bytes st]> fs).
