(* ===== verification/DatabaseOpen.v ===== *)
(** * Opening a database

    The header page, what it means for the two files to hold a database, and
    what [recover_files] and [open_executor] do with them: the pages become what
    replaying the log makes of them, whatever fails the files still hold the same
    database, and the executor that is handed out has its tables. *)

From stdpp Require Import gmap.
From S2P Require Import Prelude Bytes Common PageStorage BufferPool BufferPoolSpec Wal WalSpec Recovery PageAccess PageChain.
From S2P Require Import HeapTableSpec HeapTableMap Catalog CatalogSpec QueryExecutor QueryExecutorSpec ReadOnly LoggedPool Database.

(** ** The header page *)

(** [d] is the header of a database whose catalog starts at page [root]. *)
Record header_page (d : list Z) (root : Z) : Prop := {
  hp_buf : buf_ok kPageSize d;
  hp_magic : sub d 0 4 = [kMagic0; kMagic1; kMagic2; kMagic3];
  hp_version : field 2 d kOffVersion = kHeaderVersion;
  hp_root : field 4 d kOffCatalogRoot = root;
  hp_valid : root <> kInvalidId }.

Ltac dlia := unfold kOffMagic, kOffVersion, kOffCatalogRoot, kHeaderVersion, kInvalidId, kPageSize in *;
  rewrite ?zlen_le_bytes, ?zlen_single in *; lia.

(** Whatever the page holds, the header is read inside it. *)
Lemma ReadHeader_any st :
  st_ok st -> exists r st', ReadHeader st = Some (r, st') /\ quiet st st' /\
    match r with
    | inr root => good st' /\ exists d, contents st 0 = Some d /\ header_page d root
    | inl s => ok s = false /\ (healthy st -> forall d root, contents st 0 = Some d -> ~ header_page d root)
    end.
Proof.
  intros Hst. unfold ReadHeader.
  destruct (ReadPage_spec 0 PageDefault st Hst) as (s & out & st1 & HR & Q & C); [done|].
  pose proof (ReadPage_good _ _ _ _ _ HR) as Hgood. rewrite HR.
  destruct C as [(-> & d & Hd & ->)|C].
  2: { assert (ok s = false) as Hs by (destruct C as [(Hc & _)|(Hc & _)]; by apply (not_ok_code _ _ Hc)).
       rewrite Hs. exists (inl s), st1. split; [done|]. split; [done|]. split; [done|].
       intros Hh d root Hd. destruct C as [(_ & Hn & _)|(_ & Hn & _)]; [congruence|done]. }
  pose proof (contents_buf _ _ _ (st_ok_sound _ Hst) Hd) as B.
  rewrite ok_StatusOk. cbn [negb]. change (page_data (default PageDefault (Some (MkPage 0 false d)))) with d. unfold kOffMagic.
  destruct (read_magic d B) as (m0 & m1 & m2 & m3 & E0 & E1 & E2 & E3 & Hm). rewrite E0, E1, E2, E3. cbn [mbind option_bind].
  assert (forall msg, (forall root, ~ header_page d root) -> exists r st', Some (inl (BadState msg) : Status + Z, st1) = Some (r, st') /\ quiet st st' /\
    match r with
    | inr root => good st' /\ exists d, contents st 0 = Some d /\ header_page d root
    | inl s => ok s = false /\ (healthy st -> forall d root, contents st 0 = Some d -> ~ header_page d root)
    end) as Hbad.
  { intros msg Hn. eexists _, _. split; [done|]. split; [done|]. split; [done|]. intros _ d' root Hd'.
    assert (d' = d) as -> by congruence. apply Hn. }
  destruct (_ || _) eqn:Hmag.
  { apply Hbad. intros root [_ Hm' _ _ _]. rewrite Hm in Hm'. injection Hm' as -> -> -> ->. done. }
  zb. rewrite ReadU16_field by (destruct B; dlia || done). cbn [mbind option_bind].
  destruct (negb _) eqn:Hv; zb; [apply Hbad; by intros root []|].
  rewrite ReadU32_field by (destruct B; dlia || done). cbn [mbind option_bind].
  destruct (_ =? kInvalidId) eqn:Hr; zb; [apply Hbad; intros root [_ _ _ Hx Hy]; congruence|].
  eexists _, _. split; [done|]. split; [done|]. split; [by apply Hgood|]. exists d. split; [done|]. split; [done| |done|done|done].
  rewrite Hm. by subst.
Qed.

Lemma WriteHeader_spec st root :
  st_sound st -> 0 < npages st -> 0 <= root < kInvalidId ->
  exists s st', WriteHeader st root = Some (s, st') /\ st_sound st' /\ npages st' = npages st /\
    (forall j, j <> 0 -> contents st' j = contents st j) /\ (st_ok st -> healthy st -> healthy st' /\ ok s = true) /\
    (ok s = true -> st_ok st' /\ exists d, contents st' 0 = Some d /\ header_page d root).
Proof.
  intros Hs Hn Hroot. unfold WriteHeader.
  destruct (memset_page (page_data (PageOf 0)) zero_data_len) as (d & -> & B). cbn [mbind option_bind].
  do 6 (put_step dlia). set (p := set_data (PageOf 0) d5).
  assert (header_page d5 root) as Hp.
  { split; [done|read_magic_back dlia|by chase dlia|by chase dlia|dlia]. }
  assert (page_ok p) as Hpok by (split_and!; [apply B5|apply B5|done|done]).
  destruct (st_sound_cases st Hs) as [Hok|Hr].
  - destruct (WritePage_spec p st Hok Hpok) as (s & st' & -> & Hok' & Hh & Hn' & Hoth & C). exists s, st'.
    split; [done|]. split; [by apply st_ok_sound|]. split; [done|]. split; [exact Hoth|]. split.
    + intros _ Hhe. split; [by apply Hh|]. destruct C as [(-> & _)|[(_ & Hle & _)|(_ & Hx)]]; [done| |done].
      change (page_id p) with 0 in Hle. lia.
    + intros Ho. split; [done|]. exists d5. split; [|done].
      destruct C as [(_ & _ & Hc)|[([Hx|Hx] & _)|(Hx & _)]]; [done|by rewrite (not_ok_code _ _ Hx) in Ho..].
  - destruct (ragged_ops st Hs Hr) as (_ & Hwr & _). destruct (Hwr p) as (s & st' & -> & Q & Hno). exists s, st'.
    split; [done|]. split; [by eapply quiet_sound|]. split; [apply npages_same_len; by rewrite (proj1 Q)|].
    split; [by intros; apply quiet_contents|]. split; [by intros (_ & _ & ? & _)|]. by rewrite Hno.
Qed.

(** ** What the files hold *)

(** A file that is opened by a process whose I/O works. *)
Definition as_storage (bytes : list Z) : storage := MkStorage (fresh_stream bytes []) "" true.

Lemma as_storage_ok st : st_ok st -> st_ok (as_storage (st_bytes st)).
Proof. intros (_ & ? & ? & ?). by split_and!. Qed.

Lemma as_storage_contents st id : contents (as_storage (st_bytes st)) id = contents st id.
Proof. done. Qed.

(** The pages [c] are a database with the tables [m]: a header page, and the
    catalog it names. *)
Definition db_image (c : Z -> option (list Z)) (root : Z) (m : tables) : Prop :=
  exists hdr pages tabs q, c 0 = Some hdr /\ header_page hdr root /\ catalog_root q = root /\
    cat_ok c pages tabs (catalog_ q) /\ 0 ∉ all_pages pages tabs /\ same_tables m (tables_of c tabs).

Lemma db_image_ext c c' root m : (forall j, c' j = c j) -> db_image c root m -> db_image c' root m.
Proof.
  intros Hc (hdr & pages & tabs & q & H0 & Hh & Hq & K & Hn & Hm). exists hdr, pages, tabs, q. rewrite Hc.
  split_and!; [done..|eapply cat_ok_agree; [|exact K]; by intros|done|]. rewrite Hm. symmetry. by apply tables_of_agree.
Qed.

(** The two files are such a database, once the log is replayed. *)
Record db_files (fs : files) (db_path wal_path : string) (bytes : list Z) (rs : list image) (tail : list Z)
    (root : Z) (m : tables) : Prop := {
  df_file : fs !! db_path = Some bytes;
  df_whole : st_ok (as_storage bytes);
  df_room : npages (as_storage bytes) <= kInvalidId - 4;
  df_log : default [] (fs !! wal_path) = log_bytes rs ++ tail;
  df_tail : torn tail \/ tail = [];
  df_lsns : log_ok rs;
  df_pages : allocated rs (as_storage bytes);
  df_header : exists hdr, contents (as_storage bytes) 0 = Some hdr /\ header_page hdr root;
  df_image : db_image (redo rs (contents (as_storage bytes))) root m }.

(** The same, where the log does not name the header page: replaying it cannot
    damage the header. *)
Definition holds_db (fs : files) (db_path wal_path : string) (m : tables) : Prop :=
  exists bytes rs tail root, db_files fs db_path wal_path bytes rs tail root m /\ 0 ∉ (im_page <$> rs).

(** ** Rules for processes *)

Definition wps {A} (m : Sys A) (Q : outcome A -> files -> Prop) (fs : files) : Prop :=
  exists r fs', m fs = Some (r, fs') /\ Q r fs'.

Lemma wps_bind {A B} (m : Sys A) (k : A -> Sys B) Q fs :
  wps m (fun r fs => match r with
    | Done x => wps (k x) Q fs | Failed s => Q (Failed s) fs | Exited c => Q (Exited c) fs end) fs ->
  wps (m ≫= k) Q fs.
Proof.
  intros (r & fs' & Hm & HQ). unfold wps, mbind, Sys_bind. rewrite Hm. cbn [mbind option_bind].
  destruct r as [x|s|c]; [done|by exists (Failed s), fs'|by exists (Exited c), fs'].
Qed.

Lemma wps_now {A} (m : Sys A) r fs fs' (Q : outcome A -> files -> Prop) :
  m fs = Some (r, fs') -> Q r fs' -> wps m Q fs.
Proof. intros. by exists r, fs'. Qed.

Lemma wps_mono {A} (m : Sys A) (Q Q' : outcome A -> files -> Prop) fs :
  wps m Q fs -> (forall r fs, Q r fs -> Q' r fs) -> wps m Q' fs.
Proof. intros (r & fs' & Hm & HQ) H. exists r, fs'. auto. Qed.

Lemma wps_lift {A} (o : option A) x Q fs : o = Some x -> Q (Done x) fs -> wps (lift o) Q fs.
Proof. intros -> HQ. by exists (Done x), fs. Qed.

(** Execute one step that only changes the directory. *)
Ltac sys_step :=
  lazymatch goal with
  | |- wps (mbind _ _) _ _ => apply wps_bind
  | |- wps _ _ _ => eapply wps_now; [reflexivity|]
  end; cbn beta iota.

(** ** Opening the files *)

(** No failure is ahead, and none is pending. *)
Definition working (st : storage) : Prop := healthy st /\ good st.

Definition storage_works (io : storage_io) : Prop :=
  so_rw io = true /\ so_stat_error io = false /\ so_create io = true /\ so_reopen io = true /\ so_future io = [].
Definition wal_works (io : wal_io) : Prop := wo_append io = true /\ wo_read io = RdAll /\ wo_future io = [].

Lemma fresh_healthy path bytes :
  st_ok (as_storage bytes) ->
  exists st, Open_checked path (fresh_stream bytes []) = (StatusOk, Some st) /\ st_ok st /\ st_bytes st = bytes /\ working st.
Proof.
  intros Hst. pose proof Hst as (_ & Hb & Hd & Hn). unfold Open_checked, FileSize, fs_tellg, fs_seek_end. cbn.
  pose proof (zlen_nonneg bytes). replace (zlen bytes =? -1) with false by lia. cbn. replace (zlen bytes <? 0) with false by lia.
  rewrite (proj2 (Z.rem_divide (zlen bytes) kPageSize ltac:(done)) Hd). cbn. eexists. split; [done|]. by split_and!.
Qed.

Lemma Open_works path file io :
  path <> ""%string -> st_ok (as_storage (default [] file)) -> storage_works io ->
  exists st rest, PageStorage.Open path (MkAtPath file (so_rw io) (so_stat_error io) (so_create io) (so_reopen io) (so_future io)) =
    (StatusOk, Some st, rest) /\ working st.
Proof.
  intros Hp Hst (-> & -> & -> & -> & ->). unfold PageStorage.Open. rewrite bool_decide_eq_false_2 by done.
  destruct (fresh_healthy path _ Hst) as (st & HO & _ & _ & Hh).
  destruct file as [bytes|]; cbn in *; rewrite HO; by eexists _, _.
Qed.

Lemma open_storage_spec io path fs :
  path <> ""%string -> st_sound (as_storage (default [] (fs !! path))) ->
  wps (open_storage io path) (fun r fs' => (forall p, p <> path -> fs' !! p = fs !! p) /\
    (fs' !! path = fs !! path \/ fs !! path = None /\ fs' !! path = Some []) /\
    exists s ost, r = Done (s, ost) /\
    match ost with
    | Some st => s = StatusOk /\ st_ok st /\ fs' !! path = Some (st_bytes st) /\ st_bytes st = default [] (fs !! path) /\
        (storage_works io -> working st)
    | None => ok s = false /\ ~ (storage_works io /\ st_ok (as_storage (default [] (fs !! path))))
    end) fs.
Proof.
  intros Hp Hst. set (ap := MkAtPath (fs !! path) (so_rw io) (so_stat_error io) (so_create io) (so_reopen io) (so_future io)).
  assert (open_storage io path fs = let '(s, st, file) := PageStorage.Open path ap in left_at path (s, st) file fs) as Heq by done.
  pose proof (open_preserves_file path ap) as Hpre. pose proof (Open_works path (fs !! path) io Hp) as Hw. fold ap in Hw.
  destruct (PageStorage.Open path ap) as [[s ost] file] eqn:HO.
  destruct Hpre as (Hsame & Hnew & Hres). eapply wps_now; [exact Heq|].
  assert (file = fs !! path \/ fs !! path = None /\ file = Some []) as Hfile.
  { change (ap_file ap) with (fs !! path) in *. destruct (fs !! path) as [b|]; [left; by apply Hsame|].
    destruct (Hnew eq_refl) as [->| ->]; auto. }
  split; [intros p Hne; destruct file; by rewrite ?lookup_insert_ne, ?lookup_delete_ne|]. split.
  { destruct Hfile as [->|[Hn ->]]; [left|right; by rewrite lookup_insert_eq].
    destruct (fs !! path); by rewrite ?lookup_insert_eq, ?lookup_delete_eq. }
  exists s, ost. split; [done|]. destruct ost as [st|].
  - destruct Hres as (-> & Ho & -> & Hd). rewrite lookup_insert_eq.
    assert (st_bytes st = default [] (fs !! path)) as Hb.
    { destruct Hfile as [Hf|[Hf1 Hf2]]; [by rewrite <- Hf|rewrite Hf1; by injection Hf2]. }
    destruct Hst as (_ & Hby & Hn). unfold npages in Hn. change (st_bytes (as_storage _)) with (default [] (fs !! path)) in *.
    rewrite <- Hb in *. split_and!; try done. intros Hsw. destruct (Hw ltac:(by split_and!) Hsw) as (st1 & rest & [= <- _] & Hh). done.
  - split; [by destruct Hres as [Hc|Hc]; apply (not_ok_code _ _ Hc)|]. intros [Hsw Hok]. by destruct (Hw Hok Hsw) as (st1 & rest & ? & _).
Qed.

Lemma open_wal_spec io path fs rs tail :
  path <> ""%string -> wo_append io = true -> wo_read io = RdAll ->
  default [] (fs !! path) = log_bytes rs ++ tail -> log_ok rs -> (torn tail \/ tail = []) ->
  wps (open_wal io path) (fun r fs' => (forall p, p <> path -> fs' !! p = fs !! p) /\
    fs' !! path = Some (log_bytes rs ++ tail) /\
    exists w, r = Done (StatusOk, Some w) /\ w_open w = true /\
      w_file w = MkLog (log_bytes rs ++ tail) [] true (wo_future io)) fs.
Proof.
  intros Hp Ha Hr Hf Hok Ht. set (e := MkWalPath (fs !! path) (wo_append io) (wo_create io) (wo_reopen io) (wo_read io) (wo_future io)).
  assert (open_wal io path fs = '(s, w, file) ← Wal.Open path e; left_at path (s, w) file fs) as Heq by done.
  unfold Wal.Open in Heq. rewrite bool_decide_eq_false_2 in Heq by done. unfold e in Heq. cbn [wp_append wp_file wp_read wp_future] in Heq.
  rewrite Ha, Hr, Hf in Heq. unfold Open_scanned in Heq.
  rewrite (Scan_kept rs tail) in Heq by done. cbn [mbind option_bind] in Heq. rewrite ok_StatusOk in Heq. cbn [negb mbind option_bind] in Heq.
  eapply wps_now; [exact Heq|]. cbn [left_at]. split; [by intros; rewrite lookup_insert_ne|]. rewrite lookup_insert_eq.
  split; [done|]. by eexists.
Qed.

(** ** Recovery *)

Lemma redo_outside rs c c' id :
  (forall j, j ∉ (im_page <$> rs) -> c' j = c j) -> redo rs c' id = redo rs c id.
Proof. intros Hc. apply redo_agree. intros j Hj. by apply Hc. Qed.

(** The files after a recovery that was not finished. *)
Lemma db_files_keep fs fs' db_path wal_path bytes bytes' rs tail root m :
  db_files fs db_path wal_path bytes rs tail root m -> 0 ∉ (im_page <$> rs) ->
  fs' !! db_path = Some bytes' -> default [] (fs' !! wal_path) = log_bytes rs ++ tail ->
  st_ok (as_storage bytes') -> npages (as_storage bytes') = npages (as_storage bytes) ->
  (forall id, id ∉ (im_page <$> rs) -> contents (as_storage bytes') id = contents (as_storage bytes) id) ->
  holds_db fs' db_path wal_path m.
Proof.
  intros [Hf Hw Hrm Hl Ht Hok Hp Hh Hi] H0 Hf' Hl' Hw' Hn Hc. exists bytes', rs, tail, root. split; [|exact H0].
  split; [exact Hf'|exact Hw'|by rewrite Hn|exact Hl'|exact Ht|exact Hok| | |].
  - unfold allocated in *. by rewrite Hn.
  - by rewrite Hc.
  - eapply db_image_ext; [|exact Hi]. intros j. by apply redo_outside.
Qed.

(** A recovery that succeeds leaves the stream without an error. *)
Lemma Recover_loop_good fuel inp a b st s stats st' :
  Recover_loop fuel inp a b st = Some (s, stats, st') -> ok s = true -> good st -> good st'.
Proof.
  revert inp a b st. induction fuel as [|fuel IH]; intros inp a b st; [done|]. cbn [Recover_loop].
  destruct (ReadRecord inp) as [[rec rest|t|err]|]; cbn [mbind option_bind]; [|by intros [= <- <- <-]|by intros [= <- <- <-]|done].
  destruct (_ <=? _); [by intros [= <- <- <-]|]. destruct (PageExists _ st) as [[] st1]; cbn [negb]; [|by intros [= <- <- <-]].
  destruct (put _ _ _) as [data|]; cbn [mbind option_bind]; [|done].
  destruct (WritePage _ st1) as [s2 st2] eqn:EW. destruct (ok s2) eqn:Es; cbn [negb]; [|intros [= <- <- <-]; congruence].
  intros HR Hs _. eapply IH; [exact HR|exact Hs|]. by eapply WritePage_good.
Qed.

Lemma Recover_good r w st s stats st' :
  Recover r w (Some st) = Some (s, stats, Some st') -> ok s = true -> good st -> good st'.
Proof.
  unfold Recover. destruct (negb (w_open w)); [by intros [= <- <- <-]|]. destruct (ifstream r _); [|by intros [= <- <- <-]].
  destruct (Recover_loop _ _ _ _ _) as [[[s1 stats1] st1]|] eqn:E; cbn [mbind option_bind]; [|done].
  intros [= <- <- <-]. by eapply Recover_loop_good.
Qed.

Definition recover_works (io : open_io) : Prop :=
  storage_works (oi_storage io) /\ wal_works (oi_wal io) /\ oi_recover io = RdAll /\ oi_reset io = true.

(** The log is read in full; anything else may fail. *)
Definition log_readable (io : open_io) : Prop :=
  wo_append (oi_wal io) = true /\ wo_read (oi_wal io) = RdAll /\ oi_recover io = RdAll.

Lemma Reset_spec reopen w :
  w_open w = true -> lg_buf (w_file w) = [] ->
  exists s w', Reset reopen w = (s, w') /\
    if reopen then s = StatusOk /\ wal_blank w' /\ (lg_future (w_file w) = [] -> wal_healthy w')
    else ok s = false /\ lg_disk (w_file w') = lg_disk (w_file w).
Proof.
  intros Ho Hb. unfold Reset. rewrite Ho. cbn [negb].
  assert (lg_disk (lg_close (w_file w)) = lg_disk (w_file w)) as Hd.
  { unfold lg_close. rewrite Hb. destruct (next_aio (w_file w)); simpl; by rewrite ?take_nil, app_nil_r. }
  destruct reopen; cbn [negb]; eexists _, _; (split; [done|]); [|done].
  split; [done|]. split; [by split_and!|]. intros Hf. split_and!; try done. cbn. unfold lg_close, next_aio.
  by rewrite Hf.
Qed.

Section Recover.
Context (io : open_io) (db_path wal_path : string) (fs : files) (bytes : list Z) (rs : list image) (tail : list Z) (root : Z) (m : tables).
Context (Hdb : db_path <> ""%string) (Hwal : wal_path <> ""%string) (Hne : db_path <> wal_path).
Context (F : db_files fs db_path wal_path bytes rs tail root m) (R : log_readable io).

(** What opening the files may end in; only [io] decides whether it succeeds. *)
Definition recovered (r : outcome (storage * wal * Z)) (fs' : files) : Prop :=
  (forall p, p <> db_path -> p <> wal_path -> fs' !! p = fs !! p) /\
  match r with
  | Done (st, w, root') => root' = root /\ st_ok st /\ npages st = npages (as_storage bytes) /\ wal_blank w /\
      (forall id, contents st id = redo rs (contents (as_storage bytes)) id) /\
      fs' !! db_path = Some (st_bytes st) /\ fs' !! wal_path = Some [] /\
      (recover_works io -> working st /\ wal_healthy w)
  | Failed s => ok s = false /\ ~ recover_works io /\ (0 ∉ (im_page <$> rs) -> holds_db fs' db_path wal_path m)
  | Exited _ => False
  end.

(** The tail, after the files are open. *)
Lemma replay_spec st w fs' :
  st_ok st -> st_bytes st = bytes -> (storage_works (oi_storage io) -> healthy st) -> good st -> w_open w = true ->
  w_file w = MkLog (log_bytes rs ++ tail) [] true (wo_future (oi_wal io)) ->
  (forall p, p <> db_path -> p <> wal_path -> fs' !! p = fs !! p) ->
  fs' !! db_path = Some bytes -> fs' !! wal_path = Some (log_bytes rs ++ tail) ->
  wps ('(s, _, st) ← lift (Recover (oi_recover io) w (Some st));
       st ← lift st;
       stored db_path st ;;
       if negb (ok s) then fail s else
       let '(s, w) := Reset (oi_reset io) w in
       logged_to wal_path w ;;
       if negb (ok s) then fail s else mret (st, w, root)) recovered fs'.
Proof.
  intros Hst Hby Hheal Hgood Hw Hlog Hoth Hfd Hfw. destruct R as (_ & _ & ->).
  destruct (Recover_log w rs tail st Hw) as (s & stats & st' & HR & Hst' & Hn & Hout & Hh & Hres);
    [by rewrite Hlog|apply F|apply F|done| |].
  { pose proof (df_pages _ _ _ _ _ _ _ _ F) as Hp. by rewrite <- Hby in Hp. }
  pose proof (Recover_good _ _ _ _ _ _ HR) as Hg'.
  sys_step. eapply wps_lift; [exact HR|]. cbn beta iota. sys_step. eapply wps_lift; [done|]. sys_step. sys_step.
  set (fs1 := <[db_path := st_bytes st']> fs').
  assert (fs1 !! db_path = Some (st_bytes st')) as Hf1 by apply lookup_insert_eq.
  assert (fs1 !! wal_path = Some (log_bytes rs ++ tail)) as Hw1 by (by unfold fs1; rewrite lookup_insert_ne).
  assert (forall fs2, fs2 !! db_path = Some (st_bytes st') -> fs2 !! wal_path = Some (log_bytes rs ++ tail) ->
    0 ∉ (im_page <$> rs) -> holds_db fs2 db_path wal_path m) as Hkeep.
  { intros fs2 H1 H2 H0. eapply (db_files_keep fs fs2); [exact F|done|done|by rewrite H2|by apply as_storage_ok|..].
    - change (npages (as_storage (st_bytes st'))) with (npages st'). rewrite Hn. by rewrite <- Hby.
    - intros id Hid. rewrite as_storage_contents, Hout, <- Hby by done. done. }
  assert (forall p, p <> db_path -> p <> wal_path -> fs1 !! p = fs !! p) as Hoth1.
  { intros p H1 H2. unfold fs1. by rewrite lookup_insert_ne, Hoth. }
  destruct (ok s) eqn:Hs; cbn [negb].
  2: { sys_step. split; [done|]. split; [done|]. split; [|by auto].
       intros (Hsw & _). destruct (Hh (Hheal Hsw)) as [-> _]. done. }
  destruct (Hres eq_refl) as [Hc _].
  destruct (Reset_spec (oi_reset io) w Hw) as (s2 & w2 & -> & C); [by rewrite Hlog|].
  sys_step. sys_step. destruct (oi_reset io) eqn:Er.
  - destruct C as (-> & Hbl & Hhw). rewrite ok_StatusOk. cbn [negb]. sys_step. split.
    { intros p H1 H2. rewrite lookup_insert_ne by done. by apply Hoth1. }
    split; [done|]. split; [done|]. split; [by rewrite Hn, <- Hby|]. split; [done|]. split; [by rewrite <- Hby|].
    rewrite lookup_insert_ne, lookup_insert_eq by done. split; [done|].
    split; [by destruct Hbl as (_ & _ & _ & -> & _)|]. intros (Hsw & (_ & _ & Hwf) & _). split; [split; [by apply Hh, Hheal|by apply Hg']|].
    apply Hhw. by rewrite Hlog.
  - destruct C as (Hs2 & Hd). rewrite Hs2. cbn [negb]. sys_step. split.
    { intros p H1 H2. rewrite lookup_insert_ne by done. by apply Hoth1. }
    split; [done|]. split; [intros (_ & _ & _ & Hx); congruence|]. apply Hkeep.
    + by rewrite lookup_insert_ne.
    + by rewrite lookup_insert_eq, Hd, Hlog.
Qed.

Lemma recover_files_spec : wps (recover_files io db_path wal_path) recovered fs.
Proof.
  pose proof F as [Hf Hwh Hrm Hl Ht Hok Hp (hdr & Hhdr & Hh) Hi]. unfold recover_files. sys_step.
  eapply wps_mono; [apply open_storage_spec; [done|rewrite Hf; by apply st_ok_sound]|]. cbn beta.
  intros r fs1 (Hoth1 & Hsame1 & s & ost & -> & Hst). rewrite Hf in Hsame1, Hst. cbn beta iota.
  assert (fs1 !! db_path = Some bytes) as Hf1 by (by destruct Hsame1 as [?|[? _]]).
  assert (fs1 !! wal_path = fs !! wal_path) as Hw1 by (by apply Hoth1).
  destruct ost as [st|].
  2: { destruct Hst as [Hs Hno]. sys_step. split; [by intros; apply Hoth1|]. split; [done|].
       split; [intros (? & _); by apply Hno|]. intros H0. eapply (db_files_keep fs fs1); try done. by rewrite Hw1. }
  destruct Hst as (_ & Hst & _ & Hby & Hheal). cbn in Hby. sys_step. destruct R as (Ha & Hrd & _).
  eapply wps_mono; [apply (open_wal_spec _ _ _ rs tail); [done|done|done|by rewrite Hw1|done|done]|]. cbn beta.
  intros r fs2 (Hoth2 & Hw2 & w & -> & Hwo & Hlog). cbn beta iota.
  assert (fs2 !! db_path = Some bytes) as Hf2 by (by rewrite Hoth2).
  assert (forall p, p <> db_path -> p <> wal_path -> fs2 !! p = fs !! p) as Hoth by (intros; by rewrite Hoth2, Hoth1).
  destruct (ReadHeader_any st Hst) as (r & st1 & HR & Q & Hr). sys_step. eapply wps_lift; [exact HR|]. cbn beta iota.
  assert (contents st 0 = Some hdr) as Hc0 by (rewrite <- Hhdr, <- Hby; done).
  destruct r as [s2|root2].
  { destruct Hr as [Hs2 Hno]. sys_step. split; [done|]. split; [done|]. split.
    - intros (Hsw & _). exact (Hno (proj1 (Hheal Hsw)) _ _ Hc0 Hh).
    - intros H0. eapply (db_files_keep fs fs2); try done. by rewrite Hw2. }
  destruct Hr as (Hgood & d & Hd & Hdh). assert (d = hdr) as -> by congruence.
  assert (root2 = root) as -> by (rewrite <- (hp_root _ _ Hdh); apply Hh).
  apply replay_spec; try done; [by eapply quiet_ok|by rewrite (proj1 Q)|]. intros Hsw. apply Q. exact (proj1 (Hheal Hsw)).
Qed.
End Recover.

(** ** The executor over the recovered files *)

(** Reading leaves the bytes of the file alone, whatever the storage. *)
Definition same_file (st st' : storage) : Prop := st_bytes st' = st_bytes st /\ st_open st' = st_open st.

Lemma NumPages_file st s n st' : NumPages st = (s, n, st') -> same_file st st'.
Proof.
  unfold NumPages, FileSize, fs_tellg, fs_seek_end, fs_upd, with_file, same_file, st_bytes.
  destruct st as [[bytes pos good got fut] path op]. cbn. repeat case_match; intros; by simplify_eq/=.
Qed.

Lemma PageExists_file id st b st' : PageExists id st = (b, st') -> same_file st st'.
Proof.
  unfold PageExists. destruct (negb (st_open st)); [by intros [= _ <-]|].
  destruct (NumPages st) as [[s n] st1] eqn:E. apply NumPages_file in E. destruct (negb (ok s)); by intros [= _ <-].
Qed.

Lemma ReadPage_file id st s out st' :
  ReadPage id (Some PageDefault) st = (s, out, st') ->
  same_file st st' /\ (ok s = true -> page_dirty (default PageDefault out) = false).
Proof.
  unfold ReadPage. destruct (negb (st_open st)); [by intros [= <- <- <-]|].
  destruct (NumPages st) as [[s1 n] st1] eqn:E. apply NumPages_file in E as [Hb Ho].
  destruct (negb (ok s1)) eqn:Es; [by intros [= <- <- <-]|]. destruct (n <=? id); [by intros [= <- <- <-]|].
  unfold same_file. rewrite <- Hb, <- Ho. clear.
  unfold fs_seek_beg, fs_read, fs_upd, with_file, st_bytes. destruct st1 as [[bytes pos good got fut] path op].
  cbn. repeat case_match; intros; by simplify_eq/=.
Qed.

Definition engine_at (w : wal) (st : storage) (e : logged) : Prop := lg_wal e = w /\ same_file st (lg_storage e).

Lemma engine_read_closed w st : read_closed (engine_at w st).
Proof.
  split.
  - intros id [w' st'] s out e' [Hw [Hb Ho]]. cbn [lg_wal lg_storage] in *. unfold env_read, logged_env. cbn [lg_storage lg_wal].
    destruct (ReadPage id (Some PageDefault) st') as [[s1 o1] st1] eqn:E. intros [= <- <- <-].
    destruct (ReadPage_file _ _ _ _ _ E) as [[Hb1 Ho1] Hd]. split; [|done]. split; [done|]. cbn. split; congruence.
  - intros [w' st'] s n e' [Hw [Hb Ho]]. cbn [lg_wal lg_storage] in *. unfold env_num_pages, logged_alloc. cbn [lg_storage].
    destruct (env_num_pages st') as [[s1 n1] st1] eqn:E. intros [= <- <- <-].
    destruct (NumPages_file _ _ _ _ E) as [Hb1 Ho1]. split; [done|]. cbn. split; congruence.
  - intros id [w' st'] b e' [Hw [Hb Ho]]. cbn [lg_wal lg_storage] in *. unfold env_exists, logged_alloc. cbn [lg_storage].
    destruct (env_exists id st') as [b1 st1] eqn:E. intros [= <- <-].
    destruct (PageExists_file _ _ _ _ E) as [Hb1 Ho1]. split; [done|]. cbn. split; congruence.
Qed.

(** A database in use that has the tables [m] and nothing to flush, with the
    budget [b]. *)
Record serving (b : Z) (d : Database) (m : tables) c bp q pages tabs hdr : Prop := {
  sv_pool : pool_ d = Some bp;
  sv_executor : executor_ d = Some q;
  sv_owns : owns b c None (bp, MkLogged (wal_ d) (storage_ d));
  sv_pristine : pristine true bp;
  sv_log : wal_blank (wal_ d);
  sv_storage : st_ok (storage_ d);
  sv_room : npages (storage_ d) <= kInvalidId - 4;
  sv_page0 : c 0 = Some hdr;
  sv_header : header_page hdr (catalog_root_ d);
  sv_root : catalog_root q = catalog_root_ d;
  sv_catalog : cat_ok c pages tabs (catalog_ q);
  sv_own : 0 ∉ all_pages pages tabs;
  sv_tables : same_tables m (tables_of c tabs) }.
Definition serves_for (b : Z) (d : Database) (m : tables) : Prop :=
  exists c bp q pages tabs hdr, serving b d m c bp q pages tabs hdr.
Definition serves : Database -> tables -> Prop := serves_for (-1).

(** The same where nothing is going to fail, with more than any one call needs. *)
Definition kBudget : Z := 2 ^ 63.
Definition serves_well : Database -> tables -> Prop := serves_for kBudget.

Lemma holds_flushed fs db_path wal_path st root m :
  st_ok st -> npages st <= kInvalidId - 4 -> db_image (contents st) root m -> fs !! db_path = Some (st_bytes st) ->
  default [] (fs !! wal_path) = [] -> db_files fs db_path wal_path (st_bytes st) [] [] root m.
Proof.
  intros Hst Hrm Hi Hf Hw. pose proof Hi as (hdr & pages & tabs & q & H0 & Hh & _).
  split; [done|by apply as_storage_ok|exact Hrm|exact Hw|by right|by split; constructor|constructor|by exists hdr|exact Hi].
Qed.

Lemma fresh_pool capacity :
  0 < capacity -> exists bp, BufferPool.Create true true capacity = (StatusOk, Some bp) /\
    pristine false bp /\ pristine true (SetLogSink true bp).
Proof.
  intros Hc. unfold BufferPool.Create. replace (capacity =? 0) with false by lia. eexists. split; [done|].
  by split; (split; [by apply Forall_replicate|]).
Qed.

Lemma room_left st : npages st <= kInvalidId - 4 -> some_room (contents st).
Proof.
  intros Hn. pose proof (npages_nonneg st). exists (npages st). split; [lia|]. by apply contents_None.
Qed.

Lemma open_executor_spec db_path wal_path capacity st w root m fs :
  db_path <> wal_path -> 0 < capacity <= kMaxFrames -> st_ok st -> npages st <= kInvalidId - 4 -> wal_blank w ->
  db_image (contents st) root m -> fs !! db_path = Some (st_bytes st) -> fs !! wal_path = Some [] ->
  wps (open_executor db_path wal_path capacity st w root) (fun r fs' =>
    fs' = fs /\ db_files fs db_path wal_path (st_bytes st) [] [] root m /\
    match r with
    | Done d => serves d m /\ st_bytes (storage_ d) = st_bytes st /\ (working st -> wal_healthy w -> serves_well d m)
    | Failed s => ok s = false /\ ~ (working st /\ wal_healthy w)
    | Exited _ => False
    end) fs.
Proof.
  intros Hne Hcap Hst Hrm Hw Hi Hf Hfw. unfold open_executor.
  destruct (fresh_pool capacity (proj1 Hcap)) as (bp0 & HC & _ & Hpr). rewrite HC.
  pose proof Hi as (hdr & pages & tabs & q & H0 & Hh & Hq & K & Hn0 & Hm). set (bp := SetLogSink true bp0).
  assert (forall b, (0 <= b -> env_healthy (MkLogged w st) /\ b < UINT64_MAX) -> owns b (contents st) None (bp, MkLogged w st)) as Oh.
  { intros b Hb. exact (fresh_owns_sink true capacity (MkLogged w st) bp0 b (st_ok_sound _ Hst) Hcap HC Logic.I Hb). }
  destruct (executor_reopens (contents st) pages tabs q (bp, MkLogged w st) (Oh (-1) ltac:(lia)) K)
    as (s & oq & [bp1 [w1 st1]] & HO & Hlive & Hr). rewrite Hq in HO.
  destruct (executor_Open_reads true _ (engine_read_closed w st) root _ _ _ _ HO) as [Hpr1 [Hw1 [Hb1 Ho1]]]; [by split|].
  cbn [fst snd lg_wal lg_storage] in Hpr1, Hw1, Hb1, Ho1. subst w1.
  sys_step. eapply wps_lift; [exact HO|]. cbn beta iota. sys_step. sys_step. sys_step. sys_step. cbn [lg_wal lg_storage]. rewrite Hb1.
  set (fs1 := <[wal_path := lg_disk (w_file w)]> (<[db_path := st_bytes st]> fs)).
  assert (fs1 = fs) as Hfs.
  { unfold fs1. destruct Hw as (_ & _ & _ & -> & _). by rewrite (insert_id fs db_path), insert_id. }
  assert (db_files fs db_path wal_path (st_bytes st) [] [] root m) as Hholds by (apply holds_flushed; try assumption; by rewrite Hfw).
  assert (working st -> wal_healthy w -> ok s = true /\ owns kBudget (contents st) None (bp1, MkLogged w st1)) as Hwell.
  { intros [Hhs Hgs] Hhw. pose proof (cat_cost_short _ _ _ _ K) as Hcost.
    destruct (Hlive (UINT64_MAX - 1)) as [Hs O1]; [|unfold UINT64_MAX, kInvalidId in *; lia|by apply room_left|].
    - apply Oh. intros _. split; [|lia]. split; [by split_and!|exact Hhw].
    - split; [exact Hs|]. eapply owns_weaken; [|exact O1]. intros _. unfold kBudget, UINT64_MAX, kInvalidId in *. lia. }
  destruct (ok s) eqn:Hs.
  - destruct Hr as (-> & b' & O1). rewrite Hfs. sys_step. split; [done|]. split; [assumption|]. cbn [storage_]. rewrite Hb1.
    assert (forall b, owns b (contents st) None (bp1, MkLogged w st1) -> serves_for b (MkDatabase st1 w (Some bp1) (Some q) root) m) as Hsv.
    { intros b Ob. exists (contents st), bp1, q, pages, tabs, hdr.
      split; cbn [pool_ executor_ wal_ storage_ catalog_root_]; try assumption; [done|done| |].
      - unfold st_ok, npages. rewrite Hb1, Ho1. exact Hst.
      - unfold npages. by rewrite Hb1. }
    split; [apply Hsv; by eapply owns_weaken; [|exact O1]|]. split; [done|]. intros Hx Hy. by apply Hsv, Hwell.
  - subst oq. destruct (FlushAll_pristine true bp1 (MkLogged w st1) Hpr1) as (s1 & -> & _). sys_step. sys_step. sys_step. sys_step.
    cbn [lg_wal lg_storage]. rewrite Hfs, Hb1. fold fs1. rewrite Hfs. sys_step. split; [done|]. split; [assumption|]. split; [assumption|].
    intros (Hhs & Hhw). by destruct (Hwell Hhs Hhw).
Qed.

(** ** The two together *)

Definition opened_db (io : open_io) (fs : files) (db_path wal_path : string) (rs : list image) (root : Z) (m : tables)
    (r : outcome Database) (fs' : files) : Prop :=
  (forall p, p <> db_path -> p <> wal_path -> fs' !! p = fs !! p) /\
  match r with
  | Done d => serves d m /\ db_files fs' db_path wal_path (st_bytes (storage_ d)) [] [] root m /\
      (recover_works io -> serves_well d m)
  | Failed s => ok s = false /\ ~ recover_works io /\ (0 ∉ (im_page <$> rs) -> holds_db fs' db_path wal_path m)
  | Exited _ => False
  end.

Lemma open_files_spec io db_path wal_path capacity fs bytes rs tail root m :
  db_path <> ""%string -> wal_path <> ""%string -> db_path <> wal_path -> 0 < capacity <= kMaxFrames ->
  log_readable io -> db_files fs db_path wal_path bytes rs tail root m ->
  wps ('(st, w, root) ← recover_files io db_path wal_path; open_executor db_path wal_path capacity st w root)
    (opened_db io fs db_path wal_path rs root m) fs.
Proof.
  intros Hdb Hwal Hne Hcap R F. sys_step. eapply wps_mono; [by apply (recover_files_spec io db_path wal_path fs bytes rs tail root m)|].
  intros [[[st w] root']|s|code] fs1 [Hoth Hr]; cbn beta iota; [|split; [exact Hoth|exact Hr]|done].
  destruct Hr as (-> & Hst & Hn & Hbl & Hc & Hf & Hfw & Hlive).
  eapply wps_mono; [apply (open_executor_spec db_path wal_path capacity st w root m fs1); try assumption|].
  - rewrite Hn. exact (df_room _ _ _ _ _ _ _ _ F).
  - eapply db_image_ext; [exact Hc|exact (df_image _ _ _ _ _ _ _ _ F)].
  - cbn beta. intros r fs2 (-> & F2 & Hr). split; [exact Hoth|]. destruct r as [d|s|code]; [| |done].
    + destruct Hr as (Hs & Hb & Hwell). rewrite Hb. split; [assumption|]. split; [assumption|]. intros Hw. by apply Hwell; apply Hlive.
    + destruct Hr as [Hs Hno]. split; [exact Hs|]. split; [intros Hw; apply Hno, Hlive, Hw|].
      intros _. exists (st_bytes st), [], [], root. split; [exact F2|apply not_elem_of_nil].
Qed.
