(* ===== verification/DatabaseCreate.v ===== *)
(** * Creating a database

    [build_image] makes a complete database at the temporary path or fails, and
    touches no other path; [CreateFreshDatabaseAtomically] then publishes it.  At
    every point where the process may end, the database path is as it was,
    absent, or the complete database. *)

From stdpp Require Import gmap.
From S2P Require Import Prelude Bytes Common PageStorage BufferPool BufferPoolSpec Wal WalSpec Recovery PageAccess PageChain.
From S2P Require Import HeapTableSpec HeapTableMap Catalog CatalogSpec QueryExecutor QueryExecutorSpec ReadOnly LoggedPool Database DatabaseOpen.

(** ** Closing a storage *)

Lemma Close_file st : exists s st', PageStorage.Close st = (s, st') /\ st_bytes st' = st_bytes st /\
  (healthy st -> fs_good (st_file st) = true -> st_open st = true -> ok s = true).
Proof.
  unfold PageStorage.Close, PageStorage.Flush. destruct (st_open st) eqn:Ho; cbn [negb]; [|by eexists _, _].
  unfold fs_flush, healthy, next_io, st_bytes, with_file. destruct st as [[bytes pos [] got fut] path op]; cbn in *.
  - destruct fut as [|[] fut]; cbn; eexists _, _; (split; [done|]); by split.
  - eexists _, _. split; [done|]. by split.
Qed.

Lemma WriteHeader_good st root s st' :
  WriteHeader st root = Some (s, st') -> ok s = true -> fs_good (st_file st') = true.
Proof.
  unfold WriteHeader. intros HW. repeat (apply bind_Some in HW as (? & _ & HW)). injection HW as HW. by eapply WritePage_good.
Qed.

(** A pool without dirty pages shows what the device has. *)
Lemma pristine_disk {E} `{PoolKeeps E} b c held bp (e : E) sink id :
  owns b c held (bp, e) -> pristine sink bp -> disk e id = c id.
Proof.
  intros O [Hp _]. rewrite <- (own_logical _ _ _ _ O). unfold logical. cbn [fst snd].
  destruct (resident bp id) as [f|] eqn:Er; [|done].
  apply resident_Some in Er as (i & Hl & Hu & <-).
  destruct (inv_frames _ _ (own_inv _ _ _ _ O) _ _ Hl) as (_ & _ & Hf). destruct (Hf Hu) as (_ & _ & _ & Hd).
  apply Hd. exact (Forall_lookup_1 _ _ _ _ Hp Hl).
Qed.

(** ** The image *)

Lemma storage_read_closed : read_closed (fun _ : storage => True).
Proof.
  split; [|done|done]. intros id st s out st' _ Hr. split; [done|]. by apply (ReadPage_file id st s out st').
Qed.

(** The catalog over a storage: a new page, and the others as they were. *)
Lemma create_catalog capacity st :
  0 < capacity <= kMaxFrames -> st_ok st ->
  exists bp, BufferPool.Create true true capacity = (StatusOk, Some bp) /\
  exists s oq bp' st', QueryExecutor.Create true (bp, st) = Some (s, oq, (bp', st')) /\ pristine false bp' /\ st_sound st' /\
    (working st -> npages st <= kInvalidId - 4 -> ok s = true /\ st_ok st' /\ healthy st') /\
    match oq with
    | None => ok s = false
    | Some q => s = StatusOk /\ cat_ok (contents st') [(catalog_root q, [])] [] (catalog_ q) /\
        contents st (catalog_root q) = None /\ npages st' <= npages st + 1 /\
        forall j, j <> catalog_root q -> contents st' j = contents st j
    end.
Proof.
  intros Hcap Hst. destruct (fresh_pool capacity (proj1 Hcap)) as (bp & HC & Hp0 & _). exists bp. split; [done|].
  assert (forall b, (0 <= b -> env_healthy st /\ b < UINT64_MAX) -> owns b (contents st) None (bp, st)) as Oh.
  { intros b Hb. exact (fresh_owns capacity st bp b (st_ok_sound _ Hst) Hcap HC Logic.I Hb). }
  pose proof (Oh (-1) ltac:(lia)) as O1. destruct (Create_executor (-1) _ _ O1) as (s & oq & [bp' st'] & HQ & b' & c' & O' & Hold & Hr).
  assert (pristine false bp') as Hpr.
  { exact (executor_Create_pristine false _ storage_read_closed (fun _ => Logic.I) _ _ _ _ HQ Hp0). }
  assert (forall j, contents st' j = c' j) as Hc' by (intros j; exact (pristine_disk _ _ _ _ st' false j O' Hpr)).
  exists s, oq, bp', st'. split; [done|]. split; [done|]. split; [exact (inv_env _ _ (own_inv _ _ _ _ O'))|]. split.
  - intros [Hh Hg] Hn. assert (has_room (contents st)) as Hroom.
    { exists (npages st), (npages st + 1). pose proof (npages_nonneg st). split; [lia|]. split; [lia|]. split; [unfold kInvalidId in *; lia|].
      by split; apply contents_None; lia. }
    pose proof (Oh 10 ltac:(intros _; split; [by split_and!|done])) as O10. destruct (Create_executor 10 _ _ O10) as (s2 & oq2 & d2 & HQ2 & b2 & c2 & O2 & _ & Hr2).
    rewrite HQ in HQ2. injection HQ2 as <- <- <-. destruct oq as [q|]; [|destruct Hr2 as (_ & [?|?]); [lia|done]].
    destruct Hr2 as (-> & _ & _ & Hb2 & _). split; [done|]. destruct (own_calm _ _ _ _ O2 ltac:(lia)) as [(? & ? & _) _ _]. done.
  - destruct oq as [q|]; [|tauto]. destruct Hr as (-> & K & Hnew & _ & Hsame). split; [done|]. split.
    { eapply cat_ok_agree; [|exact K]. by intros. }
    split; [done|]. split; [|intros j Hj; by rewrite Hc', Hsame].
    destruct (decide (npages st' <= npages st + 1)) as [|Hgt]; [done|]. exfalso. pose proof (npages_nonneg st).
    assert (forall j, npages st <= j < npages st' -> j = catalog_root q) as Honly.
    { intros j Hj. destruct (decide (j = catalog_root q)) as [|Hne]; [done|]. exfalso.
      assert (is_Some (contents st' j)) as Hs by (apply contents_is_Some; lia).
      rewrite Hc', Hsame in Hs by done. apply contents_is_Some in Hs. lia. }
    pose proof (Honly (npages st) ltac:(lia)). pose proof (Honly (npages st + 1) ltac:(lia)). lia.
Qed.

(** The header over a storage with a catalog completes the image. *)
Lemma header_completes st st' q hdr :
  cat_ok (contents st) [(catalog_root q, [])] [] (catalog_ q) -> catalog_root q <> 0 ->
  (forall j, j <> 0 -> contents st' j = contents st j) -> contents st' 0 = Some hdr -> header_page hdr (catalog_root q) ->
  db_image (contents st') (catalog_root q) [].
Proof.
  intros K H0 Hsame Hc Hh. exists hdr, [(catalog_root q, [])], [], q.
  assert (0 ∉ all_pages [(catalog_root q, [])] []) as Hn by (intros Hx%list_elem_of_singleton; simpl in Hx; congruence).
  do 3 (split; [done|]). split; [|done]. eapply cat_ok_agree; [|exact K]. intros j Hj. apply Hsame. intros ->. exact (Hn Hj).
Qed.

Section Build.
Context (io : create_io) (want : option string) (tmp_db : string) (capacity : Z) (fs : files).
Context (Htmp : tmp_db <> ""%string) (Hcap : 0 < capacity <= kMaxFrames).
(** The temporary file, if the earlier one could not be removed. *)
Abbreviation stale := (as_storage (default [] (fs !! tmp_db))).
Context (Hstale : st_sound stale).

Definition build_works : Prop := storage_works (ci_storage io) /\ st_ok stale /\ npages stale <= kInvalidId - 6.

Definition built (r : outcome unit) (fs' : files) : Prop :=
  (forall p, p <> tmp_db -> fs' !! p = fs !! p) /\
  match r with
  | Done _ => exists st root, fs' !! tmp_db = Some (st_bytes st) /\ st_ok st /\ db_image (contents st) root [] /\
      npages st <= npages stale + 2
  | Failed s => ok s = false /\ ~ build_works
  | Exited _ => want <> None
  end.

Lemma bail_out_built st s fs1 :
  (forall p, p <> tmp_db -> fs1 !! p = fs !! p) -> ok s = false -> ~ build_works -> wps (bail_out io tmp_db st s) built fs1.
Proof.
  intros Hf Hs Hn. unfold bail_out, abandon. repeat sys_step. split; [|by split].
  intros p Hp. destruct (ci_abandon io); by rewrite ?lookup_delete_ne, lookup_insert_ne, Hf.
Qed.

Lemma CrashPoint_built {A} point (k : Sys A) (Q : outcome A -> files -> Prop) fs1 :
  (want <> None -> Q (Exited 70) fs1) -> wps k Q fs1 -> wps (CrashPoint want point ;; k) Q fs1.
Proof.
  intros Hx Hk. sys_step. unfold CrashPoint. eapply wps_now; [done|]. case_bool_decide as Hw; [|done].
  apply Hx. by rewrite Hw.
Qed.

Lemma build_image_spec : wps (build_image io want tmp_db capacity) built fs.
Proof.
  unfold build_image. sys_step. eapply wps_mono; [by apply open_storage_spec|]. cbn beta.
  intros r fs1 (Hoth1 & _ & s & ost & -> & Hst). cbn beta iota.
  assert (forall st p, p <> tmp_db -> (<[tmp_db := st_bytes st]> fs1) !! p = fs !! p) as Hoth.
  { intros st p Hp. by rewrite lookup_insert_ne, Hoth1. }
  destruct ost as [st|].
  2: { destruct Hst as [Hs Hno]. unfold abandon. repeat sys_step. split; [|split; [done|unfold build_works; tauto]].
       intros p Hp. destruct (ci_abandon io); by rewrite ?lookup_delete_ne, Hoth1. }
  destruct Hst as (_ & Hst & _ & Hby & Hheal).
  assert (npages st = npages stale) as Hns by (apply npages_same_len; by rewrite Hby).
  destruct (AllocatePage_spec PageDefault st Hst) as (s1 & o1 & st1 & HA & Hh1 & Hold1 & C1).
  pose proof (AllocatePage_good _ _ _ _ HA) as Hg1. rewrite HA. sys_step. sys_step.
  destruct C1 as [(-> & _ & Hst1 & Hn1 & Hnew1)|(Hc1 & _ & Hf1)].
  2: { rewrite (not_ok_code _ _ Hc1) by done. cbn [negb]. apply bail_out_built; [apply Hoth|by apply (not_ok_code _ _ Hc1)|].
       intros (Hsw & _ & Hn). specialize (Hf1 (proj1 (Hheal Hsw))).  unfold kInvalidId in *. lia. }
  rewrite ok_StatusOk. cbn [negb]. apply CrashPoint_built; [by split; [apply Hoth|]|].
  destruct (create_catalog capacity st1 Hcap Hst1) as (bp & -> & s2 & oq & bp2 & st2 & HQ & Hpr & Hso2 & Hlive2 & Hr2).
  assert (build_works -> ok s2 = true /\ st_ok st2 /\ healthy st2) as Hw2.
  { intros (Hsw & _ & Hn). apply Hlive2; [split; [by apply Hh1, Hheal|by apply Hg1]|unfold kInvalidId in *; lia]. }
  sys_step. eapply wps_lift; [exact HQ|]. cbn beta iota. sys_step. sys_step. rewrite insert_insert_eq.
  destruct oq as [q|]; [|apply bail_out_built; [apply Hoth|assumption|]; intros Hw; destruct (Hw2 Hw); congruence].
  destruct Hr2 as (-> & K & Hroot & Hn2 & Hsame2).
  apply CrashPoint_built; [by split; [apply Hoth|]|].
  assert (0 <= catalog_root q < kInvalidId) as Hrid by (apply (co_ids _ _ _ _ K), list_elem_of_here).
  assert (catalog_root q <> 0) as Hr0.
  { intros Hx. rewrite Hx in Hroot. assert (npages st1 <= 0) by (by apply contents_None).
    pose proof (npages_nonneg st). lia. }
  assert (0 < npages st2) as Hn20.
  { assert (is_Some (contents st2 0)) as Hs0; [|apply contents_is_Some in Hs0; lia]. rewrite Hsame2 by done.
    apply contents_is_Some. pose proof (npages_nonneg st). lia. }
  destruct (WriteHeader_spec st2 (catalog_root q) Hso2 Hn20 Hrid) as (s3 & st3 & HW & Hso3 & Hn3 & Hoth3 & Hlive3 & Hok3).
  sys_step. eapply wps_lift; [exact HW|]. cbn beta iota. sys_step. sys_step. rewrite insert_insert_eq.
  assert (build_works -> ok s3 = true /\ healthy st3) as Hw3.
  { intros Hw. destruct (Hw2 Hw) as (_ & Hx & Hy). destruct (Hlive3 Hx Hy). split; assumption. }
  destruct (ok s3) eqn:Hs3; cbn [negb]; [|apply bail_out_built; [apply Hoth|assumption|]; intros Hw; destruct (Hw3 Hw); congruence].
  destruct (Hok3 eq_refl) as (Hst3 & hdr & Hc0 & Hh). apply CrashPoint_built; [by split; [apply Hoth|]|].
  destruct (Close_file st3) as (s4 & st4 & -> & Hb4 & Hlive4). sys_step. sys_step. rewrite insert_insert_eq, Hb4.
  destruct (ok s4) eqn:Hs4; cbn [negb].
  2: { unfold abandon. repeat sys_step. split; [|split; [assumption|]].
       - intros p Hp. destruct (ci_abandon io); by rewrite ?lookup_delete_ne, Hoth.
       - intros Hw. destruct (Hw3 Hw) as [_ Hhe]. enough (false = true) by discriminate.
         apply Hlive4; [done|by eapply WriteHeader_good|apply Hst3]. }
  destruct (FlushAll_pristine false bp2 st4 Hpr) as (s5 & -> & _). sys_step. rewrite insert_insert_eq. split.
  { intros p Hp. by rewrite Hb4, Hoth. }
  exists st3, (catalog_root q). rewrite lookup_insert_eq, Hb4. split; [done|]. split; [done|]. split; [|lia].
  by eapply header_completes.
Qed.
End Build.

(** ** Publishing *)

Definition tmp_of (db_path : string) : string := db_path +:+ ".creating".

Lemma tmp_of_ne db_path : tmp_of db_path <> db_path /\ tmp_of db_path <> ""%string.
Proof.
  assert (forall s, String.length (tmp_of s) = (String.length s + 9)%nat) as Hl.
  { intros s. unfold tmp_of. induction s as [|a s IH]; [done|]. simpl. f_equal. exact IH. }
  split; intros H; apply (f_equal String.length) in H; rewrite Hl in H; simpl in H; lia.
Qed.

Section Publish.
Context (io : create_io) (want : option string) (db_path wal_path : string) (capacity : Z) (fs : files).
Abbreviation tmp_db := (tmp_of db_path).
Context (Hne : db_path <> wal_path) (Htmp : wal_path <> tmp_db) (Hcap : 0 < capacity <= kMaxFrames).

(** A temporary file that could not be removed is not as large as a database can be. *)
Definition stale_ok : Prop :=
  ci_remove_tmp io = true ->
  st_sound (as_storage (default [] (fs !! tmp_db))) /\ npages (as_storage (default [] (fs !! tmp_db))) <= kInvalidId - 6.
Context (Hstale : stale_ok).

Definition create_works : Prop :=
  ci_remove_tmp io = false /\ storage_works (ci_storage io) /\ ci_remove_wal io = false /\ ci_remove_db io = false /\
  ci_rename io = false.

(** The complete database, with no log. *)
Definition published (fs' : files) : Prop :=
  exists bytes root, db_files fs' db_path wal_path bytes [] [] root [].

(** The path is as it was, or nothing is there. *)
Definition unpublished (fs' : files) : Prop := fs' !! db_path = fs !! db_path \/ fs' !! db_path = None.

Definition created (r : outcome unit) (fs' : files) : Prop :=
  (forall p, p <> db_path -> p <> wal_path -> p <> tmp_db -> fs' !! p = fs !! p) /\
  match r with
  | Done _ => published fs'
  | Failed s => ok s = false /\ ~ create_works /\ unpublished fs'
  | Exited _ => want <> None /\ (unpublished fs' \/ published fs')
  end.

Lemma abandon_created {A} s fs1 (Q : outcome A -> files -> Prop) :
  Q (Failed s) (if ci_abandon io then fs1 else delete tmp_db fs1) ->
  wps (abandon io tmp_db ;; fail s) Q fs1.
Proof. intros HQ. unfold abandon. repeat sys_step. exact HQ. Qed.

Lemma failed_created fs1 msg :
  (forall p, p <> db_path -> p <> wal_path -> p <> tmp_db -> fs1 !! p = fs !! p) -> unpublished fs1 -> ~ create_works ->
  created (Failed (StatusError kIoError msg)) (if ci_abandon io then fs1 else delete tmp_db fs1).
Proof.
  intros Hoth Hu Hn. split.
  - intros p H1 H2 H3. destruct (ci_abandon io); by rewrite ?lookup_delete_ne, Hoth.
  - split; [done|]. split; [exact Hn|]. destruct (tmp_of_ne db_path) as [Ht _].
    unfold unpublished in *. destruct (ci_abandon io); by rewrite ?lookup_delete_ne.
Qed.

(** The rename, once nothing is at the database path. *)
Lemma rename_created st root fs3 :
  fs3 !! db_path = None -> fs3 !! wal_path = None -> fs3 !! tmp_db = Some (st_bytes st) ->
  (forall p, p <> db_path -> p <> wal_path -> p <> tmp_db -> fs3 !! p = fs !! p) ->
  st_ok st -> npages st <= kInvalidId - 4 -> db_image (contents st) root [] ->
  wps (ec ← rename (ci_rename io) tmp_db db_path;
       if (ec : bool) then
         abandon io tmp_db ;; fail (StatusError kIoError ("database: cannot publish new database: " +:+ db_path)) else
       CrashPoint want "after-publish") created fs3.
Proof.
  intros Hd Hw Hf Hoth Hst Hn Hi. sys_step. unfold rename.
  destruct (ci_rename io) eqn:Er; (eapply wps_now; [rewrite Hf; reflexivity|]); cbn beta iota.
  { apply abandon_created. apply (failed_created fs3); [exact Hoth|by right|]. intros (_ & _ & _ & _ & ?). congruence. }
  set (fs4 := <[db_path := st_bytes st]> (delete tmp_db fs3)).
  assert (published fs4) as Hp.
  { exists (st_bytes st), root. apply holds_flushed; try assumption; [apply lookup_insert_eq|].
    unfold fs4. by rewrite lookup_insert_ne, lookup_delete_ne, Hw. }
  assert (forall p, p <> db_path -> p <> wal_path -> p <> tmp_db -> fs4 !! p = fs !! p) as Hoth4.
  { intros p H1 H2 H3. unfold fs4. by rewrite lookup_insert_ne, lookup_delete_ne, Hoth. }
  unfold CrashPoint. eapply wps_now; [done|]. case_bool_decide as Hx; (split; [exact Hoth4|]); [|exact Hp].
  split; [by rewrite Hx|by right].
Qed.

Lemma CreateFresh_spec : wps (CreateFreshDatabaseAtomically io want db_path wal_path capacity) created fs.
Proof.
  destruct (tmp_of_ne db_path) as [Ht1 Ht2].
  unfold CreateFreshDatabaseAtomically. fold (tmp_of db_path). sys_step. sys_step.
  set (fs0 := if ci_remove_tmp io then fs else delete tmp_db fs).
  assert (forall p, p <> tmp_db -> fs0 !! p = fs !! p) as Hoth0.
  { intros p Hp. unfold fs0. destruct (ci_remove_tmp io); by rewrite ?lookup_delete_ne. }
  set (stale0 := as_storage (default [] (fs0 !! tmp_db))).
  assert (st_sound stale0 /\ npages stale0 <= kInvalidId - 6 /\ (create_works -> build_works io tmp_db fs0)) as (Hs0 & Hn0 & Hbw).
  { unfold stale0, fs0, build_works. unfold stale_ok in Hstale. destruct (ci_remove_tmp io) eqn:Er.
    - destruct (Hstale eq_refl). split; [assumption|]. split; [assumption|]. intros [? _]. congruence.
    - rewrite lookup_delete_eq. assert (st_ok (as_storage [])) as Hok by (split_and!; [done|constructor|by exists 0|done]).
      split; [by apply st_ok_sound|]. split; [done|]. intros (_ & ? & _). split; [assumption|]. by split. }
  sys_step. eapply wps_mono; [by apply (build_image_spec io want tmp_db capacity fs0)|].
  intros r fs1 [Hoth1 Hr]; destruct r as [[]|s|code]; cbn beta iota.
  2: { split; [intros p H1 H2 H3; by rewrite Hoth1, Hoth0|]. destruct Hr as [Hs Hno]. split; [exact Hs|].
       split; [intros Hw; apply Hno, Hbw, Hw|]. left. by rewrite Hoth1, Hoth0. }
  2: { split; [intros p H1 H2 H3; by rewrite Hoth1, Hoth0|]. split; [exact Hr|]. do 2 left. by rewrite Hoth1, Hoth0. }
  destruct Hr as (st & root & Hf1 & Hst & Hi & Hn).
  assert (fs1 !! db_path = fs !! db_path) as Hdb1 by (by rewrite Hoth1, Hoth0).
  assert (forall p, p <> db_path -> p <> wal_path -> p <> tmp_db -> fs1 !! p = fs !! p) as Hoth by (intros; by rewrite Hoth1, Hoth0).
  sys_step. sys_step. destruct (ci_remove_wal io) eqn:Ew.
  { apply abandon_created. apply (failed_created fs1); [exact Hoth|by left|]. intros (_ & _ & ? & _). congruence. }
  set (fs2 := delete wal_path fs1).
  assert (fs2 !! db_path = fs !! db_path) as Hdb2 by (unfold fs2; by rewrite lookup_delete_ne).
  assert (forall p, p <> db_path -> p <> wal_path -> p <> tmp_db -> fs2 !! p = fs !! p) as Hoth2.
  { intros p H1 H2 H3. unfold fs2. by rewrite lookup_delete_ne, Hoth. }
  apply CrashPoint_built; [intros Hx; split; [exact Hoth2|]; split; [exact Hx|left; by left]|].
  sys_step. sys_step. destruct (ci_remove_db io) eqn:Ed.
  { apply abandon_created. apply (failed_created fs2); [exact Hoth2|by left|]. intros (_ & _ & _ & ? & _). congruence. }
  set (fs3 := delete db_path fs2).
  assert (fs3 !! db_path = None) as Hdb3 by apply lookup_delete_eq.
  assert (forall p, p <> db_path -> p <> wal_path -> p <> tmp_db -> fs3 !! p = fs !! p) as Hoth3.
  { intros p H1 H2 H3. unfold fs3. by rewrite lookup_delete_ne, Hoth2. }
  assert (fs3 !! tmp_db = Some (st_bytes st)) as Hf3 by (unfold fs3, fs2; by rewrite !lookup_delete_ne).
  assert (fs3 !! wal_path = None) as Hw3 by (unfold fs3, fs2; rewrite lookup_delete_ne by done; apply lookup_delete_eq).
  apply (rename_created st root); try assumption. fold stale0 in Hn. lia.
Qed.
End Publish.
