(* ===== verification/DatabaseSpec.v ===== *)
(** * The database, end to end

    Creation is all or nothing, opening a database recovers it whatever fails,
    what a session flushed is there after a crash and after [Close], and a file
    that is not a database is refused and left alone. *)

From stdpp Require Import gmap.
From S2P Require Import Prelude Bytes Common PageStorage BufferPool BufferPoolSpec Wal WalSpec Recovery PageAccess PageChain HeapTable.
From S2P Require Import HeapTableSpec HeapTableMap Catalog CatalogSpec QueryExecutor QueryExecutorSpec ReadOnly LoggedPool.
From S2P Require Import Database DatabaseOpen DatabaseCreate.

(** ** Runs on equal tables *)

Lemma same_tables_split m m1 name f m2 :
  same_tables m (m1 ++ (name, f) :: m2) -> exists n1 g n2, m = n1 ++ (name, g) :: n2 /\ same_tables n1 m1 /\ (forall x, g x = f x) /\ same_tables n2 m2.
Proof.
  intros (n1 & l & Hn1 & Hl & ->)%Forall2_app_inv_r. apply Forall2_cons_inv_r in Hl as ([name' g] & n2 & [Hnm Hg] & Hn2 & ->).
  simpl in Hnm. subst name'. by exists n1, g, n2.
Qed.

Lemma same_tables_names m m0 : same_tables m m0 -> fst <$> m = fst <$> m0.
Proof. induction 1 as [|a b m m0 [? _] _ IH]; simpl; [done|]. by f_equal. Qed.

Lemma tables_step_eq sure o r m m0 m' : same_tables m m0 -> tables_step sure o r m0 m' -> tables_step sure o r m m'.
Proof.
  intros He. pose proof (same_tables_names _ _ He) as Hn. unfold tables_step.
  destruct o as [name|name| |name o], r as [s|b|[s l]|r]; try done; rewrite ?Hn; try (by rewrite He).
  - destruct (ok s); [|by rewrite He]. intros (? & ? & Hm). split_and!; [done..|]. rewrite Hm. apply Forall2_app; [by symmetry|].
    by constructor.
  - intros [(? & ? & ?)|(m1 & f & m2 & f' & -> & Hm & M)]; [left; by rewrite He|right].
    apply same_tables_split in He as (n1 & g & n2 & -> & H1 & Hg & H2). exists n1, g, n2, f'. split; [done|].
    split; [|by eapply map_step_ext]. rewrite Hm. apply Forall2_app; [by symmetry|]. constructor; [done|by symmetry].
Qed.

Lemma tables_run_eq os rs m m0 m' : same_tables m m0 -> tables_run os rs m0 m' -> tables_run os rs m m'.
Proof.
  intros He HR. destruct HR as [m0 m' Hm|o os r rs m0 m1 m' Hs HR]; [constructor; by rewrite Hm, He|].
  econstructor; [by eapply tables_step_eq|done].
Qed.

(** ** Opening *)

(** What the files hold depends on the two files only. *)
Lemma db_files_same fs fs' db_path wal_path bytes rs tail root m :
  fs' !! db_path = fs !! db_path -> fs' !! wal_path = fs !! wal_path ->
  db_files fs db_path wal_path bytes rs tail root m -> db_files fs' db_path wal_path bytes rs tail root m.
Proof. intros Hd Hw []. split; try assumption; by rewrite ?Hd, ?Hw. Qed.

Lemma db_files_tables fs db_path wal_path bytes rs tail root m m' :
  same_tables m' m -> db_files fs db_path wal_path bytes rs tail root m -> db_files fs db_path wal_path bytes rs tail root m'.
Proof.
  intros Hm []. split; try assumption. destruct df_image as (hdr & pages & tabs & q & H1 & H2 & H3 & H4 & H5 & H6).
  exists hdr, pages, tabs, q. do 5 (split; [assumption|]). by rewrite Hm.
Qed.

Definition open_works (io : open_io) : Prop :=
  oi_exists io = false /\ oi_size io = false /\ recover_works io /\ create_works (oi_create io).

Lemma works_readable io : recover_works io -> log_readable io.
Proof. intros (_ & (? & ? & _) & ? & _). by split_and!. Qed.

(** Nothing at the path, or an empty file. *)
Definition fresh_path (fs : files) (path : string) : Prop := fs !! path = None \/ fs !! path = Some [].

Section Paths.
Context (io : open_io) (want : option string) (db_path wal_path : string) (capacity : Z) (fs : files).
Context (Hdb : db_path <> ""%string) (Hwal : wal_path <> ""%string) (Hne : db_path <> wal_path)
  (Htmp : wal_path <> tmp_of db_path) (Hcap : 0 < capacity <= kMaxFrames).
Abbreviation Open := (Open io want db_path wal_path capacity true).

Lemma is_fresh_spec : wps (is_fresh io db_path) (fun r fs' => fs' = fs /\
  match r with
  | Done b => b = true <-> fresh_path fs db_path
  | Failed s => ok s = false /\ ~ open_works io
  | Exited _ => False
  end) fs.
Proof.
  unfold is_fresh, fresh_path. sys_step. unfold exists_. eapply wps_now; [done|]. cbn beta iota.
  destruct (oi_exists io) eqn:Ee. { sys_step. split; [done|]. split; [done|]. intros [? _]. congruence. }
  case_bool_decide as Hx; cbn [negb].
  2: { sys_step. split; [done|]. split; [|done]. intros _. left. by apply eq_None_not_Some. }
  destruct Hx as [bytes Hx]. sys_step. unfold file_size. eapply wps_now; [done|]. rewrite Hx. cbn beta iota.
  destruct (oi_size io) eqn:Es; cbn beta iota. { sys_step. split; [done|]. split; [done|]. intros (_ & ? & _). congruence. }
  sys_step. split; [done|]. rewrite Z.eqb_eq. unfold zlen. split; [|by intros [?|[= ->]]].
  intros H. right. by destruct bytes.
Qed.

Lemma Open_checks : Open = (fresh ← is_fresh io db_path;
  (if (fresh : bool) then CreateFreshDatabaseAtomically (oi_create io) want db_path wal_path capacity
   else remove (oi_remove_tmp io) (db_path +:+ ".creating") ;; mret tt) ;;
  '(st, w, root) ← recover_files io db_path wal_path;
  open_executor db_path wal_path capacity st w root).
Proof.
  unfold Database.Open. rewrite !bool_decide_eq_false_2 by done. cbn [orb negb]. by replace (capacity =? 0) with false by lia.
Qed.

(** A database that is there. *)
Lemma Open_existing bytes rs tail root m :
  log_readable io -> db_files fs db_path wal_path bytes rs tail root m ->
  wps Open (fun r fs' => (forall p, p <> db_path -> p <> wal_path -> p <> tmp_of db_path -> fs' !! p = fs !! p) /\
    match r with
    | Done d => serves d m /\ db_files fs' db_path wal_path (st_bytes (storage_ d)) [] [] root m /\
        (recover_works io -> serves_well d m)
    | Failed s => ok s = false /\ ~ open_works io /\ (0 ∉ (im_page <$> rs) -> holds_db fs' db_path wal_path m)
    | Exited _ => False
    end) fs.
Proof.
  intros R F. rewrite Open_checks. sys_step. eapply wps_mono; [apply is_fresh_spec|]. intros r fs0 [-> Hr].
  assert (~ fresh_path fs db_path) as Hnf.
  { unfold fresh_path. intros Hf. pose proof (df_header _ _ _ _ _ _ _ _ F) as (hdr & Hh & _). rewrite (df_file _ _ _ _ _ _ _ _ F) in Hf.
    destruct Hf as [?|[= ->]]; [done|]. done. }
  destruct r as [b|s|code]; cbn beta iota; [|by split; [|destruct Hr; split_and!; [..|by exists bytes, rs, tail, root]]|done].
  destruct b; [by destruct Hnf; apply Hr|]. do 4 sys_step.
  set (fs1 := if oi_remove_tmp io then fs else _).
  assert (forall p, p <> tmp_of db_path -> fs1 !! p = fs !! p) as Hoth1.
  { intros p Hp. unfold fs1. destruct (oi_remove_tmp io); [done|]. by rewrite lookup_delete_ne. }
  destruct (tmp_of_ne db_path) as [Ht _].
  eapply wps_mono; [apply (open_files_spec io db_path wal_path capacity fs1 bytes rs tail root m); try assumption|].
  { eapply db_files_same; [..|exact F]; by apply Hoth1. }
  intros r fs2 [Hoth Hr2]. split; [intros; by rewrite Hoth, Hoth1|]. destruct r as [d|s|code]; [exact Hr2| |exact Hr2].
  destruct Hr2 as (? & Hn & ?). split; [assumption|]. split; [|assumption]. intros (_ & _ & ? & _). by apply Hn.
Qed.

(** A new database. *)
Lemma Open_fresh :
  log_readable io -> fresh_path fs db_path -> stale_ok (oi_create io) db_path fs ->
  wps Open (fun r fs' => (fresh_path fs' db_path \/ holds_db fs' db_path wal_path []) /\
    (forall p, p <> db_path -> p <> wal_path -> p <> tmp_of db_path -> fs' !! p = fs !! p) /\
    match r with
    | Done d => serves d [] /\ (recover_works io -> serves_well d [])
    | Failed s => ok s = false /\ ~ open_works io
    | Exited _ => want <> None
    end) fs.
Proof.
  intros R Hf Hs. rewrite Open_checks. sys_step. eapply wps_mono; [apply is_fresh_spec|]. intros r fs0 [-> Hr].
  destruct r as [b|s|code]; cbn beta iota; [|split; [by left|]; by split|done].
  destruct b; [|by apply Hr in Hf]. sys_step.
  assert (forall fs', published db_path wal_path fs' -> holds_db fs' db_path wal_path []) as Hpub.
  { intros fs' (bytes & root & F). exists bytes, [], [], root. split; [exact F|apply not_elem_of_nil]. }
  assert (forall fs', unpublished db_path fs fs' -> fresh_path fs' db_path) as Hun.
  { unfold unpublished, fresh_path. intros fs' [->| ->]; [exact Hf|by left]. }
  eapply wps_mono; [by apply (CreateFresh_spec (oi_create io) want db_path wal_path capacity fs)|].
  intros r fs1 [Hoth Hc]. destruct r as [[]|s|code]; cbn beta iota.
  2: { destruct Hc as (? & Hn & Hu). split; [left; by apply Hun|]. split; [exact Hoth|]. split; [assumption|]. intros (_ & _ & _ & ?). by apply Hn. }
  2: { destruct Hc as (? & [Hu|Hp]); (split; [|split; [exact Hoth|assumption]]); [left; by apply Hun|right; by apply Hpub]. }
  destruct Hc as (bytes & root & F).
  eapply wps_mono; [by apply (open_files_spec io db_path wal_path capacity fs1 bytes [] [] root [])|].
  intros r fs2 [Hoth2 Hr2]. assert (forall p, p <> db_path -> p <> wal_path -> p <> tmp_of db_path -> fs2 !! p = fs !! p) as Hoth3.
  { intros p H1 H2 H3. by rewrite Hoth2, Hoth. }
  destruct r as [d|s|code]; [| |done].
  - destruct Hr2 as (? & F2 & ?). split; [|split; [exact Hoth3|by split]]. right. eexists _, [], [], root. split; [exact F2|apply not_elem_of_nil].
  - destruct Hr2 as (? & Hn & Hh). split; [right; apply Hh, not_elem_of_nil|]. split; [exact Hoth3|]. split; [assumption|].
    intros (_ & _ & ? & _). by apply Hn.
Qed.
End Paths.

(** Two files, and a pool of a size that can exist. *)
Definition args_ok (db_path wal_path : string) (capacity : Z) : Prop :=
  db_path <> ""%string /\ wal_path <> ""%string /\ db_path <> wal_path /\ wal_path <> tmp_of db_path /\
  0 < capacity <= kMaxFrames.

(** With I/O that works a database opens. *)
Lemma Open_holding io db_path wal_path capacity fs bytes rs tail root m :
  args_ok db_path wal_path capacity -> open_works io -> db_files fs db_path wal_path bytes rs tail root m ->
  exists d fs', Open io None db_path wal_path capacity true fs = Some (Done d, fs') /\ serves d m /\ serves_well d m /\
    forall p, p <> db_path -> p <> wal_path -> p <> tmp_of db_path -> fs' !! p = fs !! p.
Proof.
  intros (H1 & H2 & H3 & H4 & H5) W F.
  destruct (Open_existing io None db_path wal_path capacity fs H1 H2 H3 H4 H5 bytes rs tail root m
    (works_readable io (proj1 (proj2 (proj2 W)))) F) as (r & fs' & HO & Hoth & Hr).
  destruct r as [d|s|code]; [|tauto|tauto]. exists d, fs'. destruct Hr as (? & _ & Hwell). split_and!; try assumption. apply Hwell, W.
Qed.

Lemma Open_new io db_path wal_path capacity fs :
  args_ok db_path wal_path capacity -> open_works io -> fresh_path fs db_path ->
  exists d fs', Open io None db_path wal_path capacity true fs = Some (Done d, fs') /\ serves d [] /\ serves_well d [] /\
    forall p, p <> db_path -> p <> wal_path -> p <> tmp_of db_path -> fs' !! p = fs !! p.
Proof.
  intros (H1 & H2 & H3 & H4 & H5) W F.
  destruct (Open_fresh io None db_path wal_path capacity fs H1 H2 H3 H4 H5 (works_readable io (proj1 (proj2 (proj2 W)))) F)
    as (r & fs' & HO & _ & Hoth & Hr).
  { intros Hx. destruct W as (_ & _ & _ & Hy & _). congruence. }
  destruct r as [d|s|code]; [|tauto|tauto]. exists d, fs'. destruct Hr as (? & Hwell). split_and!; try assumption. apply Hwell, W.
Qed.

(** ** Sessions *)

(** Calls on the executor of an open database; the history of what reaches the
    log and the file is kept beside the environment. *)
Definition session (os : list exec_op) (d : Database) : option (list exec_res * (QueryExecutor * db (traced logged))) :=
  match pool_ d, executor_ d with
  | Some bp, Some q => exec_run os (q, (bp, MkTraced [] (MkLogged (wal_ d) (storage_ d))))
  | _, _ => None
  end.

(** The database object after it. *)
Definition after_session (d : Database) (q : QueryExecutor) (bp : BufferPool) (t : traced logged) : Database :=
  MkDatabase (lg_storage (tr_env t)) (lg_wal (tr_env t)) (Some bp) (Some q) (catalog_root_ d).

(** The file has whole pages and could still grow, the log's sequence numbers
    did not wrap. *)
Definition session_fits (t : traced logged) : Prop :=
  st_ok (tr_storage t) /\ npages (tr_storage t) <= kInvalidId - 4 /\ log_calls (tr_events t) < 2 ^ 64 - 2.

(** What a session leaves on the two files once [FlushAll] has succeeded. *)
Lemma session_flushed d m os :
  serves d m -> Forall exec_op_ok os ->
  exists rs q bp t m', session os d = Some (rs, (q, (bp, t))) /\ tables_run os rs m m' /\
    forall s bp' t', FlushAll bp t = (s, bp', t') -> ok s = true -> st_ok (tr_storage t) -> session_fits t' ->
      (forall i, frame_clean i (bp_frames bp')) /\
      exists rs, lg_disk (w_file (lg_wal (tr_env t'))) = log_bytes rs /\ lg_buf (w_file (lg_wal (tr_env t'))) = [] /\
        w_open (lg_wal (tr_env t')) = true /\
        forall fs db_path wal_path, fs !! db_path = Some (st_bytes (tr_storage t')) ->
          (default [] (fs !! wal_path) = log_bytes rs -> db_files fs db_path wal_path (st_bytes (tr_storage t')) rs [] (catalog_root_ d) m') /\
          (default [] (fs !! wal_path) = [] -> db_files fs db_path wal_path (st_bytes (tr_storage t')) [] [] (catalog_root_ d) m').
Proof.
  intros (c & bp & q & pages & tabs & hdr & S) Hos. destruct S as [Hpool Hex O [Hpr Hsink] Hbl Hst _ H0 Hh Hroot K Hn Hm].
  pose proof (begin_session _ _ _ _ _ O Hsink Hbl) as O1. unfold session. rewrite Hpool, Hex.
  destruct (exec_run_spec _ c pages tabs q os _ O1 K Hos) as (rs & q2 & [bp2 t2] & Hrun & b2 & c2 & pages2 & tabs2 & O2 & G & M).
  exists rs, q2, bp2, t2, (tables_of c2 tabs2). split; [exact Hrun|]. split; [by eapply tables_run_eq|].
  intros s bp3 t3 HF Hs Hst2 (Hst3 & Hroom & Hcalls).
  destruct (flushed_session b2 c2 bp2 t2 s bp3 t3 O2 Hst2 HF Hs Hcalls) as (_ & Hc & Hclean & ls & E & Hbuf & Hwo & Hok & Hal & Hr).
  split; [exact Hclean|]. exists ls. do 3 (split; [assumption|]). intros fs db_path wal_path Hf.
  assert (c2 0 = Some hdr) as H02 by (rewrite (cg_frame _ _ _ _ _ _ _ _ G); [done|by rewrite H0|done]).
  assert (db_image c2 (catalog_root_ d) (tables_of c2 tabs2)) as Hi.
  { exists hdr, pages2, tabs2, q2. do 2 (split; [assumption|]). split; [rewrite <- Hroot; apply (cg_root _ _ _ _ _ _ _ _ G)|].
    split; [apply G|]. split; [|done]. intros [?|?]%(cg_pages _ _ _ _ _ _ _ _ G); [done|congruence]. }
  assert (forall id, contents (as_storage (st_bytes (tr_storage t3))) id = c2 id) as Hc3 by exact Hc.
  split; intros Hw.
  - split; [exact Hf|by apply as_storage_ok|exact Hroom|by rewrite app_nil_r|by right|exact Hok|exact Hal|exists hdr; by rewrite Hc3|].
    eapply db_image_ext; [|exact Hi]. intros j. rewrite <- Hr. apply redo_agree. intros i _. apply Hc3.
  - apply holds_flushed; try assumption. eapply db_image_ext; [|exact Hi]. exact Hc.
Qed.

(** ** Closing *)

(** A log that is all in its file stays there until it is truncated. *)
Lemma WalClose_blank w s w' : wal_blank w -> Wal.Close w = (s, w') -> lg_disk (w_file w') = [].
Proof.
  intros (Ho & _ & _ & Hd & Hb & Hg). unfold Wal.Close, Wal.Flush. rewrite Ho. cbn [negb].
  destruct w as [[disk buf good fut] path op nx du]. cbn in *. subst. unfold Wal.with_log, lg_flush, lg_close, next_aio. cbn.
  destruct fut as [|[k|k b] [|[k2|k2 b2] fut]]; cbn; intros [= <- <-]; cbn; by rewrite ?take_0, ?take_nil.
Qed.

(** Where [Close] stops, the file is complete and the log is whole or empty. *)
Lemma Close_leaves reopen d q bp t s bp' t' s2 d' :
  FlushAll bp t = (s, bp', t') -> ok s = true -> (forall i, frame_clean i (bp_frames bp')) ->
  st_open (lg_storage (tr_env t)) = true -> w_open (lg_wal (tr_env t')) = true -> lg_buf (w_file (lg_wal (tr_env t'))) = [] ->
  Close reopen (after_session d q bp t) = (s2, d') ->
  st_bytes (storage_ d') = st_bytes (tr_storage t') /\ pool_ d' = None /\
  (lg_disk (w_file (wal_ d')) = lg_disk (w_file (lg_wal (tr_env t'))) \/ lg_disk (w_file (wal_ d')) = []) /\
  (ok s2 = true -> st_open (storage_ d') = false /\ lg_disk (w_file (wal_ d')) = []).
Proof.
  intros HF Hs Hclean Hopen Hwo Hbuf. unfold Close, after_session. cbn [storage_ wal_ pool_ catalog_root_]. rewrite Hopen. cbn [negb].
  replace (MkLogged (lg_wal (tr_env t)) (lg_storage (tr_env t))) with (tr_env t) by (by destruct (tr_env t)).
  rewrite FlushAll_traced, HF. rewrite Hs. cbn [negb].
  destruct (FlushAll_again bp' (tr_env t') Hclean) as (s3 & ->).
  destruct (Reset_spec reopen (lg_wal (tr_env t')) Hwo Hbuf) as (s4 & w4 & -> & C).
  destruct reopen.
  2: { destruct C as [Hs4 Hd]. rewrite Hs4. cbn [negb]. intros [= <- <-]. cbn. split_and!; [done|done|by left|congruence]. }
  destruct C as (-> & Hbl & _). rewrite ok_StatusOk. cbn [negb].
  destruct (Wal.Close w4) as [s5 w5] eqn:EW. pose proof (WalClose_blank _ _ _ Hbl EW) as Hd5.
  destruct (ok s5) eqn:Hs5; cbn [negb]; [|intros [= <- <-]; cbn; split_and!; [done|done|by right|congruence]].
  destruct (Close_file (lg_storage (tr_env t'))) as (s6 & st6 & HC & Hb6 & _). pose proof HC as Hcl.
  rewrite HC. intros [= <- <-]. cbn. split_and!; [done|done|by right|]. intros _. split; [|done].
  unfold PageStorage.Close in Hcl. destruct (st_open (lg_storage (tr_env t'))) eqn:Ho; cbn [negb] in Hcl; [|by injection Hcl as _ <-].
  destruct (PageStorage.Flush _). by injection Hcl as _ <-.
Qed.

(** ** Where nothing fails *)

(** Closing writes everything, and leaves an empty log. *)
Lemma Close_well b c bp e q root :
  owns b c None (bp, e) -> 0 <= b ->
  exists d', Close true (MkDatabase (lg_storage e) (lg_wal e) (Some bp) (Some q) root) = (StatusOk, d') /\
    pool_ d' = None /\ st_open (storage_ d') = false /\ w_open (wal_ d') = false /\ lg_disk (w_file (wal_ d')) = [] /\
    st_ok (as_storage (st_bytes (storage_ d'))) /\ forall id, contents (as_storage (st_bytes (storage_ d'))) id = c id.
Proof.
  intros O Hb. destruct (own_calm _ _ _ _ O Hb) as [Hh _ _]. cbn [fst snd] in Hh.
  destruct (FlushAll bp e) as [[s bp'] e'] eqn:HF.
  destruct (FlushAll_live bp e s bp' e' (own_inv _ _ _ _ O) Hh) as [Hs Hh']; [|exact HF|].
  { intros id. pose proof (own_logical _ _ _ _ O id) as Hl. cbn [fst snd] in Hl. rewrite Hl. apply (own_backed _ _ _ _ O). }
  destruct (FlushAll_clean _ _ _ _ _ (own_inv _ _ _ _ O) HF Hs) as [Hclean Hcont].
  assert (forall id, contents (lg_storage e') id = c id) as Hc.
  { intros id. rewrite <- (own_logical _ _ _ _ O). exact (proj1 (Hcont id)). }
  destruct Hh as [(Hst & _) _]. destruct Hh' as [(Hst' & Hhs & Hgs) (Hwo & Hwg & Hwf)].
  unfold Close. cbn [storage_ wal_ pool_ catalog_root_]. rewrite (proj1 Hst). cbn [negb].
  replace (MkLogged (lg_wal e) (lg_storage e)) with e by (by destruct e). rewrite HF, Hs. cbn [negb].
  destruct (FlushAll_again bp' e' Hclean) as (s1 & ->). unfold Reset. rewrite Hwo. cbn [negb].
  unfold lg_close, next_aio. rewrite Hwf. cbn [hd tl lg_future negb]. rewrite ok_StatusOk. cbn [negb].
  unfold Wal.Close, Wal.Flush, lg_flush, lg_close, next_aio. cbn.
  destruct (Close_file (lg_storage e')) as (s2 & st2 & HC & Hb2 & Hok2). rewrite HC.
  assert (ok s2 = true /\ s2 = StatusOk /\ st_open st2 = false) as (_ & -> & Ho2).
  { assert (ok s2 = true) as Hs2 by (apply Hok2; [exact Hhs|exact Hgs|apply Hst']). split; [done|].
    revert HC Hs2. unfold PageStorage.Close, PageStorage.Flush. rewrite (proj1 Hst'). cbn [negb].
    destruct (negb _); by intros [= <- <-]. }
  eexists. split; [reflexivity|]. cbn. rewrite Hb2. do 4 (split; [done|]). split; [by apply as_storage_ok|exact Hc].
Qed.

Lemma serves_well_serves d m : serves_well d m -> serves d m.
Proof.
  intros (c & bp & q & pages & tabs & hdr & []). exists c, bp, q, pages, tabs, hdr. split; try assumption.
  by eapply owns_weaken; [|eassumption].
Qed.

Lemma zlen_tab_pages c x t : heap_ok c x t -> zlen x + zlen (data_pages t) <= kInvalidId.
Proof.
  intros K. assert (zlen (table_pages x t) <= Z.max 0 kInvalidId) as Hb.
  { apply NoDup_below; [apply K|]. intros j Hj. exact (heap_ids _ _ _ K j Hj). }
  unfold table_pages, zlen in *. rewrite length_app, length_fmap in Hb. unfold kInvalidId in *. lia.
Qed.

(** The budget is enough for any call. *)
Lemma exec_cost_small c pages tabs k o : cat_ok c pages tabs k -> exec_cost tabs o <= kBudget.
Proof.
  intros K. unfold exec_cost, call_cost. destruct o as [name|name| |name o]; try (unfold kBudget; lia).
  destruct (find_tab name tabs) as [x|] eqn:Hf; [|unfold kBudget; lia].
  apply find_tab_Some in Hf as [Hx _]. pose proof (zlen_tab_pages _ _ _ (co_tables _ _ _ _ K x Hx)).
  unfold kBudget, kInvalidId in *. lia.
Qed.

(** One call on an open database, and closing it. *)
Lemma call_and_close d m o :
  serves_well d m -> exec_op_ok o ->
  exists bp0 q0 r q bp e m' d', pool_ d = Some bp0 /\ executor_ d = Some q0 /\
    exec_step o (q0, (bp0, MkLogged (wal_ d) (storage_ d))) = Some (r, (q, (bp, e))) /\ tables_step True o r m m' /\
    Close true (MkDatabase (lg_storage e) (lg_wal e) (Some bp) (Some q) (catalog_root_ d)) = (StatusOk, d') /\
    pool_ d' = None /\ st_open (storage_ d') = false /\ w_open (wal_ d') = false /\ lg_disk (w_file (wal_ d')) = [] /\
    (npages (storage_ d') <= kInvalidId - 4 -> forall fs db_path wal_path,
       fs !! db_path = Some (st_bytes (storage_ d')) -> default [] (fs !! wal_path) = [] -> holds_db fs db_path wal_path m').
Proof.
  intros (c & bp & q & pages & tabs & hdr & S) Ho. destruct S as [Hpool Hex O _ _ Hst Hrm H0 Hh Hroot K Hn Hm].
  assert (forall id, is_Some (c id) <-> id < npages (storage_ d) /\ 0 <= id) as Hdom.
  { intros id. rewrite (own_backed _ _ _ _ O id). change (disk _ id) with (contents (storage_ d) id). rewrite contents_is_Some. lia. }
  assert (has_room c) as Hroom.
  { pose proof (npages_nonneg (storage_ d)). exists (npages (storage_ d)), (npages (storage_ d) + 1).
    split; [lia|]. split; [unfold kInvalidId in *; lia|]. split; [unfold kInvalidId in *; lia|].
    split; apply eq_None_not_Some; rewrite Hdom; lia. }
  destruct (exec_step_spec kBudget c pages tabs q o _ O K Ho) as (r & q1 & [bp1 e1] & Hs & b1 & c1 & p1 & t1 & O1 & G & M & Hb1).
  pose proof (exec_cost_small _ _ _ _ o K) as Hcost. specialize (Hb1 (conj Hcost Hroom)).
  destruct (Close_well b1 c1 bp1 e1 q1 (catalog_root_ d) O1 ltac:(lia)) as (d' & HC & Hp & Hso & Hwo & Hl & Hst' & Hc').
  exists bp, q, r, q1, bp1, e1, (tables_of c1 t1), d'. do 3 (split; [assumption|]). split.
  { eapply tables_step_eq; [exact Hm|]. by eapply tables_step_imp; [|exact M]. }
  do 5 (split; [assumption|]). intros Hsm fs db_path wal_path Hf Hw.
  exists (st_bytes (storage_ d')), [], [], (catalog_root_ d). split; [|apply not_elem_of_nil].
  apply (holds_flushed fs db_path wal_path (as_storage (st_bytes (storage_ d')))); [exact Hst'|exact Hsm| |exact Hf|exact Hw].
  eapply db_image_ext; [exact Hc'|]. exists hdr, p1, t1, q1.
  split; [rewrite (cg_frame _ _ _ _ _ _ _ _ G); [done|by rewrite H0|done]|]. split; [done|].
  split; [rewrite <- Hroot; apply (cg_root _ _ _ _ _ _ _ _ G)|]. split; [apply G|]. split; [|done].
  intros [?|?]%(cg_pages _ _ _ _ _ _ _ _ G); [done|congruence].
Qed.

(** ** Other files *)

Lemma open_wal_any io path fs :
  path <> ""%string -> bytes_ok (default [] (fs !! path)) ->
  wps (open_wal io path) (fun r fs' => (forall p, p <> path -> fs' !! p = fs !! p) /\
    exists s ow, r = Done (s, ow) /\ (ow = None -> ok s = false)) fs.
Proof.
  intros Hp Hb.
  assert (forall disk (rest : option (list Z)), bytes_ok disk -> exists s ow,
    Open_scanned path (wo_read io) (MkLog disk [] true (wo_future io)) ≫= (fun '(s, w) => Some (s, w, rest)) = Some (s, ow, rest) /\
    (ow = None -> ok s = false)) as Hscan.
  { intros disk rest Hd. unfold Open_scanned. set (w := MkWal _ path true 1 0).
    assert (exists s lsn tl, Wal.Scan (wo_read io) w = Some (s, lsn, tl)) as (s & lsn & tl & ->).
    { unfold Wal.Scan. cbn [w_open negb w]. change (lg_disk (w_file w)) with disk.
      destruct (ifstream (wo_read io) disk) as [inp|] eqn:E; [|by eexists _, _, _].
      destruct (Scan_loop_total inp 0 (S (length inp)) (ifstream_bytes _ _ _ Hd E)) as (s & lsn & tl & -> & _); [lia|].
      by eexists _, _, _. }
    cbn [mbind option_bind]. destruct (ok s) eqn:Hs; cbn [negb mbind option_bind]; by eexists _, _. }
  assert (exists s ow file, Wal.Open path (MkWalPath (fs !! path) (wo_append io) (wo_create io) (wo_reopen io) (wo_read io) (wo_future io)) =
    Some (s, ow, file) /\ (ow = None -> ok s = false)) as (s & ow & file & HO & Hs).
  { unfold Wal.Open. rewrite bool_decide_eq_false_2 by done. cbn [wp_append wp_create wp_reopen wp_file wp_read wp_future].
    destruct (wo_append io); [destruct (Hscan _ (Some (default [] (fs !! path))) Hb) as (s & ow & H & ?); by exists s, ow, (Some (default [] (fs !! path)))|].
    destruct (negb (wo_create io)); [by eexists _, _, _|]. destruct (negb (wo_reopen io)); [by eexists _, _, _|].
    destruct (Hscan [] (Some []) ltac:(constructor)) as (s & ow & H & ?). by exists s, ow, (Some []). }
  eapply wps_now; [unfold open_wal; rewrite HO; reflexivity|].
  split; [intros p Hne; destruct file; by rewrite ?lookup_insert_ne, ?lookup_delete_ne|]. by exists s, ow.
Qed.

(** ** Theorems *)

(** C3: Creating a database is all or nothing.  Open a path where nothing or an
    empty file is, with any failures of the file system, the files and the log
    stream and with the process ending at any of the crash points: [Open]
    returns; afterwards the path is still without a database, or it holds the
    complete, empty database; when it reports success the database serves an
    empty list of tables, and it does when nothing fails.  Whatever happened, a
    later [Open] with I/O that works gives an empty database. *)
Theorem database_creation_crash_safe io want db_path wal_path capacity fs :
  args_ok db_path wal_path capacity -> log_readable io -> fresh_path fs db_path -> stale_ok (oi_create io) db_path fs ->
  exists r fs', Open io want db_path wal_path capacity true fs = Some (r, fs') /\
    (fresh_path fs' db_path \/ holds_db fs' db_path wal_path []) /\
    match r with
    | Done d => serves d []
    | Failed s => ok s = false /\ ~ open_works io
    | Exited _ => want <> None
    end /\
    forall io2 capacity2, args_ok db_path wal_path capacity2 -> open_works io2 ->
      exists d2 fs2, Open io2 None db_path wal_path capacity2 true fs' = Some (Done d2, fs2) /\ serves d2 [].
Proof.
  intros (H1 & H2 & H3 & H4 & H5) R Hf Hs.
  destruct (Open_fresh io want db_path wal_path capacity fs H1 H2 H3 H4 H5 R Hf Hs) as (r & fs' & HO & Hfs & _ & Hr).
  exists r, fs'. split; [assumption|]. split; [assumption|]. split; [destruct r; [apply Hr|exact Hr|exact Hr]|].
  intros io2 capacity2 Ha W. destruct Hfs as [Hfs|(bytes & rs & tail & root & F & _)].
  - destruct (Open_new io2 db_path wal_path capacity2 fs' Ha W Hfs) as (d2 & fs2 & ? & ? & _). by exists d2, fs2.
  - destruct (Open_holding io2 db_path wal_path capacity2 fs' _ _ _ _ _ Ha W F) as (d2 & fs2 & ? & ? & _). by exists d2, fs2.
Qed.

(** C4: Opening recovers the database whatever else fails, as long as the log can
    be read.  The condition is [log_readable]: the log's file opens for reading
    and no read of it fails before its end.  (Without it the statement is false:
    a read error counts as the end of the log, whose records are then truncated
    unread.)  Where the two files hold a database once the log, which may end in
    a torn record, is replayed, [Open] returns a database with these tables,
    whose files have them without a log, or reports an error; an error means that
    some I/O did not work, and the files then still hold the same tables, so that
    nothing is lost by a recovery that stopped half way. *)
Theorem database_open_recovers io want db_path wal_path capacity fs m :
  args_ok db_path wal_path capacity -> log_readable io -> holds_db fs db_path wal_path m ->
  exists r fs', Open io want db_path wal_path capacity true fs = Some (r, fs') /\ holds_db fs' db_path wal_path m /\
    (forall p, p <> db_path -> p <> wal_path -> p <> tmp_of db_path -> fs' !! p = fs !! p) /\
    match r with
    | Done d => serves d m /\ fs' !! db_path = Some (st_bytes (storage_ d)) /\ default [] (fs' !! wal_path) = []
    | Failed s => ok s = false /\ ~ open_works io
    | Exited _ => False
    end.
Proof.
  intros (H1 & H2 & H3 & H4 & H5) R (bytes & rs & tail & root & F & H0).
  destruct (Open_existing io want db_path wal_path capacity fs H1 H2 H3 H4 H5 bytes rs tail root m R F) as (r & fs' & HO & Hoth & Hr).
  exists r, fs'. split; [assumption|]. destruct r as [d|s|code]; [|tauto|done]. destruct Hr as (Hsv & F' & _).
  split; [|split; [assumption|]].
  - eexists _, [], [], root. split; [exact F'|apply not_elem_of_nil].
  - split; [assumption|]. split; [apply F'|]. exact (df_log _ _ _ _ _ _ _ _ F').
Qed.

(** C2: What was flushed survives a crash.  Make any calls on an open database,
    whatever fails among them, and flush the pool; if the flush reports success
    and the process then dies, a new [Open] on the two files gives a database
    with exactly the tables that the answers of the session tell. *)
Theorem database_survives_crash io db_path wal_path capacity fs d m os rs q bp t s bp' t' :
  args_ok db_path wal_path capacity -> open_works io -> serves d m -> Forall exec_op_ok os ->
  session os d = Some (rs, (q, (bp, t))) -> st_ok (tr_storage t) ->
  FlushAll bp t = (s, bp', t') -> ok s = true -> session_fits t' ->
  exists m' d' fs', tables_run os rs m m' /\ serves d' m' /\
    Open io None db_path wal_path capacity true (on_files db_path wal_path (lg_storage (tr_env t')) (lg_wal (tr_env t')) fs) =
      Some (Done d', fs').
Proof.
  intros Ha W Hsv Hos Hrun Hst HF Hs Hfit.
  destruct (session_flushed d m os Hsv Hos) as (rs1 & q1 & bp1 & t1 & m' & Hrun1 & HM & Hfl).
  rewrite Hrun in Hrun1. injection Hrun1 as <- <- <- <-.
  destruct (Hfl s bp' t' HF Hs Hst Hfit) as (_ & ls & E & _ & _ & Hfiles).
  destruct (Hfiles (on_files db_path wal_path (lg_storage (tr_env t')) (lg_wal (tr_env t')) fs) db_path wal_path) as [F _].
  { unfold on_files. rewrite lookup_insert_ne by (destruct Ha as (_ & _ & ? & _); congruence). apply lookup_insert_eq. }
  destruct (Open_holding io db_path wal_path capacity _ _ _ _ _ m' Ha W (F ltac:(unfold on_files; by rewrite lookup_insert_eq)))
    as (d' & fs' & HO & Hd & _). by exists m', d', fs'.
Qed.

(** C5: Closing and opening again gives the same tables.  After any session
    whose pages can be flushed, whatever truncating and closing the log and
    closing the file do, a new [Open] on the files that [Close] leaves has the
    tables that the session made.  When [Close] reports success the log is
    empty, and closing again does nothing. *)
Theorem database_close_reopens io db_path wal_path capacity fs d m os rs q bp t s bp' t' reopen s2 d2 :
  args_ok db_path wal_path capacity -> open_works io -> serves d m -> Forall exec_op_ok os ->
  session os d = Some (rs, (q, (bp, t))) -> st_ok (tr_storage t) ->
  FlushAll bp t = (s, bp', t') -> ok s = true -> session_fits t' ->
  Close reopen (after_session d q bp t) = (s2, d2) ->
  (ok s2 = true -> lg_disk (w_file (wal_ d2)) = [] /\ forall reopen2, Close reopen2 d2 = (StatusOk, d2)) /\
  exists m' d' fs', tables_run os rs m m' /\ serves d' m' /\
    Open io None db_path wal_path capacity true (on_files db_path wal_path (storage_ d2) (wal_ d2) fs) = Some (Done d', fs').
Proof.
  intros Ha W Hsv Hos Hrun Hst HF Hs Hfit HC.
  destruct (session_flushed d m os Hsv Hos) as (rs1 & q1 & bp1 & t1 & m' & Hrun1 & HM & Hfl).
  rewrite Hrun in Hrun1. injection Hrun1 as <- <- <- <-.
  destruct (Hfl s bp' t' HF Hs Hst Hfit) as (Hclean & ls & E & Hbuf & Hwo & Hfiles).
  destruct (Close_leaves reopen d q bp t s bp' t' s2 d2 HF Hs Hclean (proj1 Hst) Hwo Hbuf HC) as (Hb & _ & Hlog & Hcl).
  split.
  { intros Hs2. destruct (Hcl Hs2) as [Hop Hd]. split; [exact Hd|]. intros reopen2. unfold Close. by rewrite Hop. }
  set (fs1 := on_files db_path wal_path (storage_ d2) (wal_ d2) fs).
  assert (exists ls', db_files fs1 db_path wal_path (st_bytes (tr_storage t')) ls' [] (catalog_root_ d) m') as [ls' F].
  { destruct (Hfiles fs1 db_path wal_path) as [F1 F2].
    { unfold fs1, on_files. rewrite lookup_insert_ne by (destruct Ha as (_ & _ & ? & _); congruence). by rewrite lookup_insert_eq, Hb. }
    unfold fs1, on_files in F1, F2. rewrite lookup_insert_eq in F1, F2.
    destruct Hlog as [Hl|Hl]; [exists ls; apply F1|exists []; apply F2]; simpl; congruence. }
  destruct (Open_holding io db_path wal_path capacity _ _ _ _ _ m' Ha W F) as (d' & fs' & HO & Hd & _). by exists m', d', fs'.
Qed.

(** C15: A file that is not a database is left alone.  When the path has a
    non-empty file whose first page is not a valid header, [Open] reports an
    error, whatever works or fails, and the file keeps its bytes. *)
Theorem open_rejects_foreign io want db_path wal_path capacity fs bytes :
  args_ok db_path wal_path capacity -> fs !! db_path = Some bytes -> bytes <> [] -> st_sound (as_storage bytes) ->
  bytes_ok (default [] (fs !! wal_path)) ->
  (forall d root, contents (as_storage bytes) 0 = Some d -> ~ header_page d root) ->
  exists s fs', Open io want db_path wal_path capacity true fs = Some (Failed s, fs') /\ ok s = false /\
    fs' !! db_path = Some bytes.
Proof.
  intros (H1 & H2 & H3 & H4 & H5) Hf Hnn Hst Hwb Hno.
  enough (wps (Open io want db_path wal_path capacity true)
    (fun r fs' => exists s, r = Failed s /\ ok s = false /\ fs' !! db_path = Some bytes) fs) as (r & fs' & HO & s & -> & ? & ?).
  { by exists s, fs'. }
  rewrite Open_checks by assumption. sys_step. eapply wps_mono; [apply is_fresh_spec|]. intros r fs0 [-> Hr].
  destruct r as [b|s|code]; cbn beta iota; [|destruct Hr; by exists s|done].
  destruct b. { destruct (proj1 Hr eq_refl); congruence. }
  do 4 sys_step. set (fs1 := if oi_remove_tmp io then fs else _). destruct (tmp_of_ne db_path) as [Ht _].
  assert (forall p, p <> tmp_of db_path -> fs1 !! p = fs !! p) as Hoth1.
  { intros p Hp. unfold fs1. destruct (oi_remove_tmp io); [done|]. by rewrite lookup_delete_ne. }
  unfold recover_files. sys_step. sys_step.
  eapply wps_mono; [apply open_storage_spec; [done|by rewrite Hoth1, Hf]|]. cbn beta.
  intros r fs2 (Hoth2 & Hsame2 & s & ost & -> & Ho). rewrite !Hoth1, !Hf in Hsame2, Ho by done. cbn beta iota.
  assert (fs2 !! db_path = Some bytes) as Hf2 by (by destruct Hsame2 as [?|[? _]]).
  destruct ost as [st|]; [|sys_step; exists s; tauto]. destruct Ho as (_ & Hok & _ & Hby & _). cbn in Hby.
  sys_step. eapply wps_mono; [apply open_wal_any; [done|by rewrite Hoth2, Hoth1]|]. cbn beta.
  intros r fs3 (Hoth3 & s3 & ow & -> & Hs3). cbn beta iota.
  assert (fs3 !! db_path = Some bytes) as Hf3 by (by rewrite Hoth3).
  destruct ow as [w|]; [|sys_step; exists s3; by auto].
  destruct (ReadHeader_any st Hok) as (r & st1 & HR & _ & Hr1). sys_step. eapply wps_lift; [exact HR|]. cbn beta iota.
  destruct r as [s4|root]; [sys_step; exists s4; tauto|]. destruct Hr1 as (_ & d & Hd & Hh).
  destruct (Hno d root); [|exact Hh]. by rewrite <- Hd, <- Hby.
Qed.

(** ** The theorems on a small database *)

Definition good_storage : storage_io := MkStorageIo true false true true [].
Definition good_io : open_io :=
  MkOpenIo false false (MkCreateIo false good_storage false false false false) false good_storage
    (MkWalIo true true true RdAll []) RdAll true.

Lemma good_io_works : open_works good_io.
Proof. by repeat split. Qed.

Lemma good_io_readable : log_readable good_io.
Proof. by repeat split. Qed.

Lemma demo_args : args_ok "db" "wal" 2.
Proof. split_and!; try done. Qed.

(** A database created in an empty directory. *)
Definition demo_opened : outcome Database * files := default (Failed StatusOk, ∅) (Open good_io None "db" "wal" 2 true ∅).
Definition demo_nothing : Database := MkDatabase (as_storage []) (MkWal (MkLog [] [] false []) "" false 0 0) None None 0.
Definition demo_database : Database := match fst demo_opened with Done d => d | _ => demo_nothing end.

Lemma demo_created : serves demo_database [] /\ holds_db (snd demo_opened) "db" "wal" [].
Proof.
  destruct demo_args as (H1 & H2 & H3 & H4 & H5).
  destruct (Open_fresh good_io None "db" "wal" 2 ∅ H1 H2 H3 H4 H5 good_io_readable) as (r & fs & HO & Hfs & _ & Hr);
    [by left|by intros ?|]. unfold demo_database.
  assert ((match snd demo_opened !! "db" with Some (_ :: _) => true | _ => false end) = true) as Hnf by (by vm_compute).
  unfold demo_opened in Hnf |- *. rewrite HO in Hnf |- *. cbn [default id fst snd] in Hnf |- *.
  destruct r as [d|s|code]; [|destruct (proj2 Hr); exact good_io_works|destruct (Hr eq_refl)]. split; [exact (proj1 Hr)|].
  destruct Hfs as [[Hx|Hx]|?]; [rewrite Hx in Hnf; discriminate Hnf..|assumption].
Qed.

Definition demo_ops : list exec_op :=
  [XCreateTable name_t; XOn name_t (HInsert (Some [1; 2; 3])); XOn name_t (HGet (MkRecordId 3 0)); XListTables].
Definition demo_answers : list exec_res :=
  [YStatus StatusOk; YOn (RInsert StatusOk (MkRecordId 3 0)); YOn (RGet (inr [1; 2; 3])); YTables (StatusOk, [name_t])].

Lemma demo_calls_ok : Forall exec_op_ok demo_ops.
Proof. unfold demo_ops. repeat constructor; simpl; unfold id_ok, byte_ok, SlottedPage.kInvalidSlot; simpl; lia. Qed.

Lemma demo_session : fst <$> session demo_ops demo_database = Some demo_answers.
Proof. by vm_compute. Qed.

(** After it the flush succeeds and the session fits. *)
Definition fits (t : traced logged) : bool :=
  let st := tr_storage t in
  st_open st && forallb (fun b => (0 <=? b) && (b <? 256)) (st_bytes st) && (zlen (st_bytes st) mod kPageSize =? 0) &&
  (npages st <=? kInvalidId - 4) && (log_calls (tr_events t) <? 2 ^ 64 - 2).

Lemma fits_fits t : fits t = true -> session_fits t.
Proof.
  unfold fits. rewrite !andb_true_iff, List.forallb_forall. intros ((((Ho & Hb) & Hd) & Hn) & Hc). zb.
  assert (npages (tr_storage t) <= kInvalidId) by (unfold kInvalidId in *; lia).
  split; [|split; assumption]. split; [exact Ho|]. split; [|split; [apply Z.mod_divide; [discriminate|assumption]|assumption]].
  apply Forall_forall. intros b Hx. apply list_elem_of_In, Hb in Hx. unfold byte_ok. lia.
Qed.

Definition flush_fits (r : option (list exec_res * (QueryExecutor * db (traced logged)))) : bool :=
  match r with
  | Some (_, (_, (bp, t))) => let '(s, _, t') := FlushAll bp t in fits t && ok s && fits t'
  | None => false
  end.

Lemma demo_fits : flush_fits (session demo_ops demo_database) = true.
Proof. by vm_compute. Qed.

Lemma database_creation_crash_safe_witness : exists d fs',
  Open good_io None "db" "wal" 2 true ∅ = Some (Done d, fs') /\ serves d [].
Proof.
  destruct (database_creation_crash_safe good_io None "db" "wal" 2 ∅ demo_args good_io_readable (or_introl (lookup_empty _))
    ltac:(intros Hx; discriminate Hx)) as (r & fs' & HO & _ & Hr & _).
  destruct r as [d|s|code]; [|destruct (proj2 Hr); exact good_io_works|destruct (Hr eq_refl)]. exists d, fs'. split; assumption.
Defined.

Lemma database_open_recovers_witness : exists d fs',
  Open good_io None "db" "wal" 2 true (snd demo_opened) = Some (Done d, fs') /\ serves d [].
Proof.
  destruct (database_open_recovers good_io None "db" "wal" 2 (snd demo_opened) [] demo_args good_io_readable (proj2 demo_created))
    as (r & fs' & HO & _ & _ & Hr).
  destruct r as [d|s|code]; [|destruct (proj2 Hr); exact good_io_works|destruct Hr]. exists d, fs'. split; [assumption|apply Hr].
Defined.

Lemma database_survives_crash_witness : exists m' d' st w fs', tables_run demo_ops demo_answers [] m' /\ serves d' m' /\
  Open good_io None "db" "wal" 2 true (on_files "db" "wal" st w ∅) = Some (Done d', fs').
Proof.
  pose proof demo_session as HA. pose proof demo_fits as HB.
  destruct (session demo_ops demo_database) as [[rs [q [bp t]]]|] eqn:HR; [|discriminate HB].
  injection HA as ->. cbn [flush_fits] in HB. destruct (FlushAll bp t) as [[s bp'] t'] eqn:HF.
  apply andb_true_iff in HB as [HB Hfit']. apply andb_true_iff in HB as [Hfit Hs].
  destruct (database_survives_crash good_io "db" "wal" 2 ∅ demo_database [] demo_ops demo_answers q bp t s bp' t'
    demo_args good_io_works (proj1 demo_created) demo_calls_ok HR (proj1 (fits_fits _ Hfit)) HF Hs (fits_fits _ Hfit'))
    as (m' & d' & fs' & HM & Hd & HO).
  exists m', d', (lg_storage (tr_env t')), (lg_wal (tr_env t')), fs'. split; [exact HM|]. split; [exact Hd|exact HO].
Defined.

Lemma database_close_reopens_witness : exists m' d' d2 fs', tables_run demo_ops demo_answers [] m' /\ serves d' m' /\
  Open good_io None "db" "wal" 2 true (on_files "db" "wal" (storage_ d2) (wal_ d2) ∅) = Some (Done d', fs').
Proof.
  pose proof demo_session as HA. pose proof demo_fits as HB.
  destruct (session demo_ops demo_database) as [[rs [q [bp t]]]|] eqn:HR; [|discriminate HB].
  injection HA as ->. cbn [flush_fits] in HB. destruct (FlushAll bp t) as [[s bp'] t'] eqn:HF.
  apply andb_true_iff in HB as [HB Hfit']. apply andb_true_iff in HB as [Hfit Hs].
  destruct (Close true (after_session demo_database q bp t)) as [s2 d2] eqn:HC.
  destruct (database_close_reopens good_io "db" "wal" 2 ∅ demo_database [] demo_ops demo_answers q bp t s bp' t' true s2 d2
    demo_args good_io_works (proj1 demo_created) demo_calls_ok HR (proj1 (fits_fits _ Hfit)) HF Hs (fits_fits _ Hfit') HC)
    as (_ & m' & d' & fs' & HM & Hd & HO).
  exists m', d', d2, fs'. split; [exact HM|]. split; [exact Hd|exact HO].
Defined.

(** A page of zeroes is no header. *)
Definition zero_page : list Z := replicate 4096 0.

Lemma zero_page_sound : st_sound (as_storage zero_page).
Proof. split_and!; [done| |by vm_compute]. by apply Forall_replicate. Qed.

Lemma zero_page_foreign d root : contents (as_storage zero_page) 0 = Some d -> ~ header_page d root.
Proof.
  intros Hd Hh. apply hp_magic in Hh. assert (sub d 0 4 = [0; 0; 0; 0]) as Hz; [|rewrite Hz in Hh; discriminate Hh].
  assert ((fun d => sub d 0 4) <$> contents (as_storage zero_page) 0 = Some [0; 0; 0; 0]) as Hs by (by vm_compute).
  rewrite Hd in Hs. by injection Hs.
Qed.

Lemma open_rejects_foreign_witness : exists s fs',
  Open good_io None "db" "wal" 2 true {["db" := zero_page]} = Some (Failed s, fs') /\ ok s = false /\
  fs' !! "db" = Some zero_page.
Proof.
  apply (open_rejects_foreign good_io None "db" "wal" 2 {["db" := zero_page]} zero_page demo_args).
  - reflexivity.
  - discriminate.
  - exact zero_page_sound.
  - constructor.
  - exact zero_page_foreign.
Defined.
