(* ===== verification/Router.v ===== *)
(** * The command router

    [include/manager/router.h] and [src/manager/router.cpp]: the language of the
    command line.  This file has the parsing of arguments into a [Command], which
    needs no manager: hexadecimal records, decimal numbers and the commands with
    their flags.  An argument is a C string, a vector of bytes is a list of [Z]. *)

From Stdlib Require Import Ascii.
From S2P Require Import Prelude Bytes Common CStr.

(** ** Exit codes and commands *)

Definition kExitOk : Z := 0.
Definition kExitError : Z := 1.
Definition kExitUsage : Z := 2.
Definition kExitInvalid : Z := 3.
Definition kExitNotFound : Z := 4.

Inductive CommandKind :=
  | kHelp | kContainerCreate | kContainerStart | kContainerStop | kContainerStatus | kContainerDelete
  | kDbInit | kTableCreate | kTableList | kInsert | kGet | kUpdate | kDelete | kScan.

#[export] Instance CommandKind_eq_dec : EqDecision CommandKind.
Proof. solve_decision. Defined.

Record Command := MkCommand {
  cmd_kind : CommandKind; cmd_name : string; cmd_table : string; cmd_data : list Z; cmd_page : Z; cmd_slot : Z;
  cmd_memory : Z; cmd_cpu : Z; cmd_engine : string }.
Definition Command0 : Command := MkCommand kHelp "" "" [] 0 0 0 0 "".

Definition set_kind k '(MkCommand _ n t d p s m u e) := MkCommand k n t d p s m u e.
Definition set_name n '(MkCommand k _ t d p s m u e) := MkCommand k n t d p s m u e.
Definition set_table t '(MkCommand k n _ d p s m u e) := MkCommand k n t d p s m u e.
Definition set_record d '(MkCommand k n t _ p s m u e) := MkCommand k n t d p s m u e.
Definition set_page_id p '(MkCommand k n t d _ s m u e) := MkCommand k n t d p s m u e.
Definition set_slot_id s '(MkCommand k n t d p _ m u e) := MkCommand k n t d p s m u e.
Definition set_memory m '(MkCommand k n t d p s _ u e) := MkCommand k n t d p s m u e.
Definition set_cpu u '(MkCommand k n t d p s m _ e) := MkCommand k n t d p s m u e.
Definition set_engine e '(MkCommand k n t d p s m u _) := MkCommand k n t d p s m u e.

(** ** Hexadecimal *)

Definition HexVal (c : ascii) : Z :=
  let c := code_of c in
  if (48 <=? c) && (c <=? 57) then c - 48 else
  if (97 <=? c) && (c <=? 102) then c - 97 + 10 else
  if (65 <=? c) && (c <=? 70) then c - 65 + 10 else -1.

(** The loop of [HexDecode] after [out] holds the bytes so far. *)
Fixpoint HexDecode_from (text : string) (out : list Z) : bool * list Z :=
  match text with
  | String c (String c' text) =>
      let hi := HexVal c in
      let lo := HexVal c' in
      if (hi <? 0) || (lo <? 0) then (false, out) else
      HexDecode_from text (out ++ [u8 (Z.lor (Z.shiftl hi 4) lo)])
  | _ => (true, out)
  end.
Definition HexDecode (text : string) (out : list Z) : bool * list Z :=
  if negb (strlen text mod 2 =? 0) then (false, out) else HexDecode_from text [].

Definition kHex (d : Z) : ascii := if d <? 10 then digit d else ascii_of_nat (Z.to_nat (97 + (d - 10))).
Fixpoint HexEncode (data : list Z) : string :=
  match data with
  | [] => ""
  | b :: data => String (kHex (Z.land (Z.shiftr b 4) 0xF)) (String (kHex (Z.land b 0xF)) (HexEncode data))
  end.

(** ** Numbers *)

Fixpoint ParseUint_from (text : string) (max value : Z) : option Z :=
  match text with
  | EmptyString => Some value
  | String c text =>
      if (code_of c <? 48) || (57 <? code_of c) then None else
      let digit := code_of c - 48 in
      if max / 10 <? value then None else
      let value := u64 (value * 10) in
      if u64 (max - value) <? digit then None else
      ParseUint_from text max (u64 (value + digit))
  end.
Definition ParseUint (text : string) (max : Z) : option Z :=
  match text with EmptyString => None | _ => ParseUint_from text max 0 end.

(** ** Commands

    The result is the exit code, the command as far as it was filled in, and the
    message for the user, if there is one. *)

Definition parsed : Type := Z * Command * option string.
Definition Usage (message : string) (out : Command) : parsed := (kExitUsage, out, Some message).
Definition Invalid (message : string) (out : Command) : parsed := (kExitInvalid, out, Some message).
Definition Parsed (out : Command) : parsed := (kExitOk, out, None).

Definition max_memory : Z := 0xFFFFFFFFFFFF.

(** The flags of [container create], from [args[3]] on. *)
Fixpoint create_flags (args : list string) (out : Command) : parsed :=
  match args with
  | [] => Parsed out
  | flag :: args =>
  match args with
  | [] => Usage ("missing value for " +:+ flag) out
  | val :: args =>
    if (flag =? "--memory")%string then
      match ParseUint val max_memory with
      | Some v =>
          if ULONG_MAX <? v then Invalid ("invalid --memory value: " +:+ val) out else
          create_flags args (set_memory v out)
      | None => Invalid ("invalid --memory value: " +:+ val) out
      end
    else if (flag =? "--cpu")%string then
      match ParseUint val 100 with
      | Some v => create_flags args (set_cpu (u32 v) out)
      | None => Invalid ("invalid --cpu value (0..100): " +:+ val) out
      end
    else if (flag =? "--engine")%string then create_flags args (set_engine val out)
    else Usage ("unknown flag: " +:+ flag) out
  end end.

Section Parse.
Context (args : list string).
Definition arg (i : nat) : string := default "" (args !! i).
Abbreviation size := (length args).

Definition parse_container (out : Command) : parsed :=
  if (size <? 2)%nat then
    Usage "usage: nexusdb container <create|start|stop|status|delete> <name>" out else
  let sub := arg 1 in
  if (sub =? "create")%string then
    if (size <? 3)%nat then
      Usage "usage: nexusdb container create <name> [--memory <bytes>] [--cpu <percent>] [--engine <path>]" out else
    create_flags (drop 3 args) (set_name (arg 2) (set_kind kContainerCreate out))
  else if (sub =? "start")%string || (sub =? "stop")%string || (sub =? "status")%string || (sub =? "delete")%string then
    if negb (size =? 3)%nat then Usage ("usage: nexusdb container " +:+ sub +:+ " <name>") out else
    let out := set_name (arg 2) out in
    Parsed (set_kind (if (sub =? "start")%string then kContainerStart
                      else if (sub =? "stop")%string then kContainerStop
                      else if (sub =? "status")%string then kContainerStatus
                      else kContainerDelete) out)
  else Usage ("unknown container subcommand: " +:+ sub) out.

(** [args[3]] and [args[4]]: the page and the slot of a record. *)
Definition parse_record_id (out : Command) (k : Command -> parsed) : parsed :=
  match ParseUint (arg 3) (kInvalidId - 1) with
  | None => Invalid ("invalid page id: " +:+ arg 3) out
  | Some v =>
      let out := set_page_id (u32 v) out in
      match ParseUint (arg 4) 0xFFFF with
      | None => Invalid ("invalid slot id: " +:+ arg 4) out
      | Some v => k (set_slot_id (u16 v) out)
      end
  end.

(** The record bytes in [text]. *)
Definition parse_data (text : string) (out : Command) : parsed :=
  let '(ok, bytes) := HexDecode text (cmd_data out) in
  let out := set_record bytes out in
  if negb ok then Invalid ("malformed hex data: " +:+ text) out else
  match bytes with [] => Invalid "record data must be non-empty" out | _ => Parsed out end.

Definition named_record (k : CommandKind) (out : Command) : Command := set_table (arg 2) (set_name (arg 1) (set_kind k out)).

(** A null [out] is [None]. *)
Definition ParseArgs (out : option Command) : parsed :=
  match out with
  | None => Invalid "internal: null command" Command0
  | Some out =>
  if (size =? 0)%nat then Usage "no command given (try `nexusdb help`)" out else
  let cmd := arg 0 in
  if (cmd =? "help")%string || (cmd =? "--help")%string || (cmd =? "-h")%string then Parsed (set_kind kHelp out)
  else if (cmd =? "container")%string then parse_container out
  else if (cmd =? "db")%string then
    if negb (size =? 3)%nat || negb (arg 1 =? "init")%string then Usage "usage: nexusdb db init <name>" out else
    Parsed (set_name (arg 2) (set_kind kDbInit out))
  else if (cmd =? "table")%string then
    if (size <? 2)%nat then Usage "usage: nexusdb table <create|list> ..." out else
    if (arg 1 =? "create")%string then
      if negb (size =? 4)%nat then Usage "usage: nexusdb table create <name> <table>" out else
      Parsed (set_table (arg 3) (set_name (arg 2) (set_kind kTableCreate out)))
    else if (arg 1 =? "list")%string then
      if negb (size =? 3)%nat then Usage "usage: nexusdb table list <name>" out else
      Parsed (set_name (arg 2) (set_kind kTableList out))
    else Usage ("unknown table subcommand: " +:+ arg 1) out
  else if (cmd =? "insert")%string then
    if negb (size =? 4)%nat then Usage "usage: nexusdb insert <name> <table> <hex-data>" out else
    parse_data (arg 3) (named_record kInsert out)
  else if (cmd =? "get")%string then
    if negb (size =? 5)%nat then Usage "usage: nexusdb get <name> <table> <page-id> <slot-id>" out else
    parse_record_id (named_record kGet out) Parsed
  else if (cmd =? "update")%string then
    if negb (size =? 6)%nat then
      Usage "usage: nexusdb update <name> <table> <page-id> <slot-id> <hex-data>" out else
    parse_record_id (named_record kUpdate out) (parse_data (arg 5))
  else if (cmd =? "delete")%string then
    if negb (size =? 5)%nat then Usage "usage: nexusdb delete <name> <table> <page-id> <slot-id>" out else
    parse_record_id (named_record kDelete out) Parsed
  else if (cmd =? "scan")%string then
    if negb (size =? 3)%nat then Usage "usage: nexusdb scan <name> <table>" out else
    Parsed (named_record kScan out)
  else Usage ("unknown command: " +:+ cmd) out
  end.
End Parse.

(** ** Numbers: specification *)

(** The value of a string of digits. *)
Definition decimal (text : string) (v : Z) : Z := fst (fst (scan_digits text v 0)).

Lemma scan_digits_count text v k k' : fst (fst (scan_digits text v k)) = fst (fst (scan_digits text v k')).
Proof. revert v k k'. induction text as [|c text IH]; intros v k k'; cbn [scan_digits]; [done|]. destruct (is_digit c); auto. Qed.

Lemma decimal_digit c text v : is_digit c = true -> decimal (String c text) v = decimal text (10 * v + (code_of c - 48)).
Proof. intros Hc. unfold decimal. cbn [scan_digits]. rewrite Hc. apply scan_digits_count. Qed.

Lemma decimal_ge text v : 0 <= v -> v <= decimal text v.
Proof.
  revert v. induction text as [|c text IH]; intros v Hv; [done|].
  destruct (is_digit c) eqn:Hc; [|unfold decimal; cbn [scan_digits]; rewrite Hc; done].
  rewrite decimal_digit by done. unfold is_digit in Hc. zb. etransitivity; [|apply IH]; lia.
Qed.

Lemma ParseUint_from_spec text max value :
  0 <= value <= max -> max <= UINT64_MAX ->
  ParseUint_from text max value =
    if all_chars is_digit text && (decimal text value <=? max) then Some (decimal text value) else None.
Proof.
  revert value. induction text as [|c text IH]; intros value Hv Hm.
  { cbn. unfold decimal. cbn. by replace (value <=? max) with true by lia. }
  cbn [ParseUint_from all_chars]. destruct (is_digit c) eqn:Hc.
  2: { unfold is_digit in Hc. by replace ((code_of c <? 48) || (57 <? code_of c)) with true by lia. }
  rewrite decimal_digit by done. unfold is_digit in Hc. replace ((code_of c <? 48) || (57 <? code_of c)) with false by lia. zb.
  pose proof (decimal_ge text (10 * value + (code_of c - 48)) ltac:(lia)) as Hge.
  pose proof (Z.div_mod max 10 ltac:(lia)). pose proof (Z.mod_pos_bound max 10 ltac:(lia)).
  assert (forall b, max < 10 * value + (code_of c - 48) ->
    None = if b && (decimal text (10 * value + (code_of c - 48)) <=? max) then Some (decimal text (10 * value + (code_of c - 48))) else None) as Hbig.
  { intros b Hb. replace (_ <=? max) with false by lia. by rewrite andb_false_r. }
  destruct (max / 10 <? value) eqn:E1; zb; [apply Hbig; lia|].
  rewrite (wrap_small 64 (value * 10)) by (unfold UINT64_MAX in Hm; lia).
  rewrite (wrap_small 64 (max - value * 10)) by (unfold UINT64_MAX in Hm; lia).
  destruct (_ <? _) eqn:E2; zb; [apply Hbig; lia|].
  rewrite wrap_small by (unfold UINT64_MAX in Hm; lia). replace (value * 10 + (code_of c - 48)) with (10 * value + (code_of c - 48)) by lia.
  apply IH; lia.
Qed.

Lemma ParseUint_spec text max v :
  0 <= max <= UINT64_MAX ->
  ParseUint text max = Some v <-> text <> ""%string /\ all_chars is_digit text = true /\ decimal text 0 = v /\ v <= max.
Proof.
  intros Hm. unfold ParseUint. destruct text as [|c text]; [split; [done|by intros [? _]]|].
  rewrite ParseUint_from_spec by lia. destruct (all_chars is_digit (String c text)); cbn [andb]; [|split; [done|by intros (_ & ? & _)]].
  destruct (_ <=? max) eqn:E; zb; split; [intros [= <-]; by split_and!|by intros (_ & _ & -> & _)|done|lia].
Qed.

Lemma ParseUint_dec v max : 0 <= v <= max -> max <= UINT64_MAX -> ParseUint (dec v) max = Some v.
Proof.
  intros Hv Hm. apply ParseUint_spec; [lia|]. destruct (dec_nonempty v (proj1 Hv)) as (d & rest & Hd & Hdec).
  split; [by rewrite Hdec|]. split; [apply dec_go_chars; [apply is_digit_digit|done|lia]|]. split; [|lia].
  unfold decimal. destruct (dec_go_scan 20 v "" 0 0) as (k & _ & Hs); [unfold UINT64_MAX in Hm; lia|lia|].
  unfold dec. rewrite Hs. cbn. lia.
Qed.

(** ** Hexadecimal: specification *)

Lemma HexVal_range c : -1 <= HexVal c < 16.
Proof. unfold HexVal. cbv zeta. repeat case_match; zb; lia. Qed.

Lemma HexVal_kHex d : 0 <= d < 16 -> HexVal (kHex d) = d.
Proof.
  intros Hd. unfold kHex. destruct (d <? 10) eqn:E; zb; unfold HexVal.
  - rewrite code_of_digit by lia. replace ((48 <=? 48 + d) && (48 + d <=? 57)) with true by lia. lia.
  - unfold code_of. rewrite Ascii.nat_ascii_embedding by lia. cbv zeta.
    replace (Z.of_nat (Z.to_nat (97 + (d - 10)))) with (87 + d) by lia.
    replace ((48 <=? 87 + d) && (87 + d <=? 57)) with false by lia.
    replace ((97 <=? 87 + d) && (87 + d <=? 102)) with true by lia. lia.
Qed.

Lemma nibbles b : 0 <= b < 256 ->
  0 <= Z.land (Z.shiftr b 4) 0xF < 16 /\ 0 <= Z.land b 0xF < 16 /\
  u8 (Z.lor (Z.shiftl (Z.land (Z.shiftr b 4) 0xF) 4) (Z.land b 0xF)) = b.
Proof.
  intros Hb. change 0xF with (Z.ones 4). rewrite !Z.land_ones, Z.shiftr_div_pow2 by lia. change (2 ^ 4) with 16.
  pose proof (Z.mod_pos_bound b 16 ltac:(lia)). pose proof (Z.mod_pos_bound (b / 16) 16 ltac:(lia)). split_and!; [lia..|].
  pose proof (Z.div_mod b 16 ltac:(lia)). rewrite (Z.mod_small (b / 16)) by lia.
  rewrite Z.lor_comm, lor_shiftl_add by lia. change (2 ^ 4) with 16. rewrite wrap_small; lia.
Qed.

Lemma HexDecode_from_encode data out :
  bytes_ok data -> HexDecode_from (HexEncode data) out = (true, out ++ data).
Proof.
  intros Hd. revert out. induction Hd as [|b data Hb _ IH]; intros out; [by rewrite app_nil_r|].
  cbn [HexEncode HexDecode_from]. destruct (nibbles b Hb) as (H1 & H2 & H3). rewrite !HexVal_kHex, H3 by done.
  replace ((_ <? 0) || (_ <? 0)) with false by lia. by rewrite IH, <- app_assoc.
Qed.

Definition lower (c : ascii) : ascii :=
  if (65 <=? code_of c) && (code_of c <=? 70) then ascii_of_nat (Z.to_nat (code_of c + 32)) else c.
Fixpoint lower_text (s : string) : string :=
  match s with EmptyString => EmptyString | String c s => String (lower c) (lower_text s) end.

Lemma ascii_code c : ascii_of_nat (Z.to_nat (code_of c)) = c.
Proof. unfold code_of. rewrite Nat2Z.id. apply Ascii.ascii_nat_embedding. Qed.

Lemma kHex_HexVal c : 0 <= HexVal c -> kHex (HexVal c) = lower c.
Proof.
  unfold HexVal, kHex, lower, digit. cbv zeta. intros H. set (n := code_of c) in *.
  destruct ((48 <=? n) && (n <=? 57)) eqn:E1; [|destruct ((97 <=? n) && (n <=? 102)) eqn:E2; [|destruct ((65 <=? n) && (n <=? 70)) eqn:E3; [|lia]]].
  - replace (n - 48 <? 10) with true by lia. replace ((65 <=? n) && (n <=? 70)) with false by lia.
    replace (48 + (n - 48)) with n by lia. apply ascii_code.
  - replace (n - 97 + 10 <? 10) with false by lia. replace ((65 <=? n) && (n <=? 70)) with false by lia.
    replace (97 + (n - 97 + 10 - 10)) with n by lia. apply ascii_code.
  - replace (n - 65 + 10 <? 10) with false by lia. f_equal. lia.
Qed.

Lemma join_nibbles hi lo : 0 <= hi < 16 -> 0 <= lo < 16 ->
  let b := u8 (Z.lor (Z.shiftl hi 4) lo) in 0 <= b < 256 /\ Z.land (Z.shiftr b 4) 0xF = hi /\ Z.land b 0xF = lo.
Proof.
  intros Hh Hl. cbv zeta. rewrite Z.lor_comm, lor_shiftl_add by lia. change (2 ^ 4) with 16. rewrite wrap_small by lia.
  split; [lia|]. change 0xF with (Z.ones 4). rewrite !Z.land_ones, Z.shiftr_div_pow2 by lia. change (2 ^ 4) with 16.
  replace (lo + 16 * hi) with (hi * 16 + lo) by lia. rewrite Z.div_add_l, (Z.div_small lo) by lia.
  rewrite Z.add_0_r. split; [apply Z.mod_small; lia|]. rewrite Z.add_comm, Z.mod_add by lia. apply Z.mod_small; lia.
Qed.

Lemma HexDecode_from_inv text out d :
  (String.length text mod 2 = 0)%nat -> HexDecode_from text out = (true, d) ->
  exists d', d = out ++ d' /\ bytes_ok d' /\ HexEncode d' = lower_text text.
Proof.
  remember (String.length text) as n eqn:Hn. revert text out Hn. induction n as [n IH] using lt_wf_ind. intros text out Hn He.
  destruct text as [|c [|c' text]]; cbn [HexDecode_from].
  - intros [= <-]. exists []. by rewrite app_nil_r.
  - subst n. done.
  - pose proof (HexVal_range c). pose proof (HexVal_range c'). destruct (_ || _) eqn:Eb; [done|]. zb.
    destruct (join_nibbles (HexVal c) (HexVal c')) as (Hb & Hhi & Hlo); [lia..|].
    intros HD. assert (String.length text mod 2 = 0)%nat as He'.
    { subst n. cbn [String.length] in He. replace (S (S (String.length text))) with (String.length text + 1 * 2)%nat in He by lia.
      by rewrite Nat.Div0.mod_add in He. }
    destruct (IH (String.length text) ltac:(subst n; cbn; lia) text _ eq_refl He' HD) as (d' & -> & Hd' & Hx).
    eexists (_ :: d'). split; [by rewrite <- app_assoc|]. split; [by constructor|].
    cbn [HexEncode lower_text]. rewrite Hhi, Hlo, Hx, !kHex_HexVal by lia. done.
Qed.

Lemma HexEncode_length data : String.length (HexEncode data) = (2 * length data)%nat.
Proof. induction data as [|b data IH]; [done|]. cbn [HexEncode String.length length]. lia. Qed.

Lemma even_strlen text : strlen text mod 2 = 0 <-> (String.length text mod 2 = 0)%nat.
Proof. unfold strlen. change 2 with (Z.of_nat 2) at 1. rewrite <- Nat2Z.inj_mod. lia. Qed.

Lemma HexDecode_encode data out : bytes_ok data -> HexDecode (HexEncode data) out = (true, data).
Proof.
  intros Hd. unfold HexDecode. assert (strlen (HexEncode data) mod 2 = 0) as ->.
  { apply even_strlen. rewrite HexEncode_length, Nat.mul_comm. apply Nat.Div0.mod_mul. }
  by rewrite HexDecode_from_encode.
Qed.

Lemma HexDecode_inv text out d :
  HexDecode text out = (true, d) -> bytes_ok d /\ HexEncode d = lower_text text.
Proof.
  unfold HexDecode. destruct (_ =? 0) eqn:E; cbn [negb]; [|done]. zb. apply even_strlen in E.
  intros (d' & -> & ? & ?)%HexDecode_from_inv; [|done]. done.
Qed.

(** ** Commands: specification *)

(** The command line that stands for a command. *)
Definition render (c : Command) : list string :=
  let n := cmd_name c in
  let t := cmd_table c in
  match cmd_kind c with
  | kHelp => ["help"]
  | kContainerCreate =>
      ["container"; "create"; n; "--memory"; dec (cmd_memory c); "--cpu"; dec (cmd_cpu c); "--engine"; cmd_engine c]
  | kContainerStart => ["container"; "start"; n]
  | kContainerStop => ["container"; "stop"; n]
  | kContainerStatus => ["container"; "status"; n]
  | kContainerDelete => ["container"; "delete"; n]
  | kDbInit => ["db"; "init"; n]
  | kTableCreate => ["table"; "create"; n; t]
  | kTableList => ["table"; "list"; n]
  | kInsert => ["insert"; n; t; HexEncode (cmd_data c)]
  | kGet => ["get"; n; t; dec (cmd_page c); dec (cmd_slot c)]
  | kUpdate => ["update"; n; t; dec (cmd_page c); dec (cmd_slot c); HexEncode (cmd_data c)]
  | kDelete => ["delete"; n; t; dec (cmd_page c); dec (cmd_slot c)]
  | kScan => ["scan"; n; t]
  end.

Definition record_id_ok (c : Command) : Prop := 0 <= cmd_page c < kInvalidId /\ 0 <= cmd_slot c < 2 ^ 16.
Definition record_data_ok (c : Command) : Prop := bytes_ok (cmd_data c) /\ cmd_data c <> [].

(** The commands there are: the members a command does not use are as they were
    made, the others in range. *)
Definition command_ok (c : Command) : Prop :=
  let n := cmd_name c in
  let t := cmd_table c in
  match cmd_kind c with
  | kHelp => c = Command0
  | kContainerCreate =>
      c = MkCommand kContainerCreate n "" [] 0 0 (cmd_memory c) (cmd_cpu c) (cmd_engine c) /\
      0 <= cmd_memory c <= max_memory /\ 0 <= cmd_cpu c <= 100
  | kTableCreate => c = MkCommand kTableCreate n t [] 0 0 0 0 ""
  | kScan => c = MkCommand kScan n t [] 0 0 0 0 ""
  | kInsert => c = MkCommand kInsert n t (cmd_data c) 0 0 0 0 "" /\ record_data_ok c
  | kGet => c = MkCommand kGet n t [] (cmd_page c) (cmd_slot c) 0 0 "" /\ record_id_ok c
  | kDelete => c = MkCommand kDelete n t [] (cmd_page c) (cmd_slot c) 0 0 "" /\ record_id_ok c
  | kUpdate => c = MkCommand kUpdate n t (cmd_data c) (cmd_page c) (cmd_slot c) 0 0 "" /\ record_id_ok c /\ record_data_ok c
  | k => c = MkCommand k n "" [] 0 0 0 0 ""
  end.

(** What a parse may answer: a command of the language, or an error code with a
    message. *)
Definition answer_ok (r : parsed) : Prop :=
  let '(rc, c, msg) := r in
  (rc = kExitOk /\ msg = None /\ command_ok c) \/ ((rc = kExitUsage \/ rc = kExitInvalid) /\ is_Some msg).

Lemma Usage_ok m c : answer_ok (Usage m c).
Proof. right. split; [by left|by eexists]. Qed.
Lemma Invalid_ok m c : answer_ok (Invalid m c).
Proof. right. split; [by right|by eexists]. Qed.
Lemma Parsed_ok c : command_ok c -> answer_ok (Parsed c).
Proof. left. by split_and!. Qed.

#[export] Hint Resolve Usage_ok Invalid_ok : nexus.

Lemma create_flags_ok args c :
  cmd_kind c = kContainerCreate -> command_ok c -> answer_ok (create_flags args c).
Proof.
  remember (length args) as n eqn:Hn. revert args c Hn. induction n as [n IH] using lt_wf_ind. intros args c Hn Hk Hc.
  destruct args as [|flag [|val args]]; cbn [create_flags]; [by apply Parsed_ok|apply Usage_ok|].
  assert (forall c', cmd_kind c' = kContainerCreate -> command_ok c' -> answer_ok (create_flags args c')) as Hrec.
  { intros c' Hk' Hc'. eapply (IH (length args)); [|done|done|done]. subst n. simpl. lia. }
  unfold command_ok in Hc. rewrite Hk in Hc. destruct Hc as (-> & Hm & Hu). cbn [cmd_memory cmd_cpu] in Hm, Hu. clear Hk.
  destruct (flag =? "--memory")%string.
  { destruct (ParseUint val max_memory) as [v|] eqn:E; [|apply Invalid_ok]. apply ParseUint_spec in E as (_ & _ & Hd & Hv); [|done].
    destruct (ULONG_MAX <? v); [apply Invalid_ok|]. apply Hrec; [done|]. split; [done|]. simpl.
    pose proof (decimal_ge val 0 ltac:(lia)). lia. }
  destruct (flag =? "--cpu")%string.
  { destruct (ParseUint val 100) as [v|] eqn:E; [|apply Invalid_ok]. apply ParseUint_spec in E as (_ & _ & Hd & Hv); [|done].
    pose proof (decimal_ge val 0 ltac:(lia)). rewrite (wrap_small 32) by lia. apply Hrec; [done|]. split; [done|]. simpl. lia. }
  destruct (flag =? "--engine")%string; [|apply Usage_ok]. by apply Hrec.
Qed.

Lemma parse_record_id_ok args c k :
  (forall p s, 0 <= p < kInvalidId -> 0 <= s < 2 ^ 16 -> answer_ok (k (set_slot_id s (set_page_id p c)))) ->
  answer_ok (parse_record_id args c k).
Proof.
  intros Hk. unfold parse_record_id.
  destruct (ParseUint (arg args 3) _) as [p|] eqn:Ep; [|apply Invalid_ok]. apply ParseUint_spec in Ep as (_ & _ & Hd & Hp); [|done].
  destruct (ParseUint (arg args 4) _) as [s|] eqn:Es; [|apply Invalid_ok]. apply ParseUint_spec in Es as (_ & _ & Hd' & Hs); [|done].
  pose proof (decimal_ge (arg args 3) 0 ltac:(lia)). pose proof (decimal_ge (arg args 4) 0 ltac:(lia)).
  unfold kInvalidId in *. rewrite (wrap_small 32), (wrap_small 16) by lia. apply Hk; unfold kInvalidId; lia.
Qed.

Lemma parse_data_ok text c :
  (forall d, bytes_ok d -> d <> [] -> command_ok (set_record d c)) -> answer_ok (parse_data text c).
Proof.
  intros Hc. unfold parse_data. destruct (HexDecode text (cmd_data c)) as [[] d] eqn:E; cbn [negb]; [|apply Invalid_ok].
  apply HexDecode_inv in E as [Hd _]. destruct d as [|b d]; [apply Invalid_ok|]. by apply Parsed_ok, Hc.
Qed.

(** Solve a goal [answer_ok] of a branch that ends here. *)
Ltac branch :=
  first [apply Usage_ok | apply Invalid_ok | apply Parsed_ok; reflexivity | idtac].

Lemma parse_container_ok args : answer_ok (parse_container args Command0).
Proof.
  unfold parse_container. destruct (_ <? 2)%nat; [branch|]. destruct (_ =? "create")%string.
  { destruct (_ <? 3)%nat; [branch|]. by apply create_flags_ok. }
  destruct (_ || _); [|branch]. destruct (negb _); [branch|]. apply Parsed_ok. by repeat case_match.
Qed.

Lemma ParseArgs_ok args : answer_ok (ParseArgs args (Some Command0)).
Proof.
  unfold ParseArgs. destruct (_ =? 0)%nat; [branch|]. destruct (_ || _); [branch|].
  destruct (_ =? "container")%string; [apply parse_container_ok|].
  destruct (_ =? "db")%string; [destruct (_ || _); branch|].
  destruct (_ =? "table")%string.
  { destruct (_ <? 2)%nat; [branch|]. destruct (_ =? "create")%string; [destruct (negb _); branch|].
    destruct (_ =? "list")%string; [destruct (negb _); branch|branch]. }
  destruct (_ =? "insert")%string.
  { destruct (negb _); [branch|]. apply parse_data_ok. intros d Hd Hn. by split. }
  destruct (_ =? "get")%string.
  { destruct (negb _); [branch|]. apply parse_record_id_ok. intros. apply Parsed_ok. by split. }
  destruct (_ =? "update")%string.
  { destruct (negb _); [branch|]. apply parse_record_id_ok. intros. apply parse_data_ok. intros. by split_and!. }
  destruct (_ =? "delete")%string.
  { destruct (negb _); [branch|]. apply parse_record_id_ok. intros. apply Parsed_ok. by split. }
  destruct (_ =? "scan")%string; [destruct (negb _); branch|branch].
Qed.

Lemma parse_record_id_render args c k :
  arg args 3 = dec (cmd_page c) -> arg args 4 = dec (cmd_slot c) -> record_id_ok c ->
  forall c0, parse_record_id args c0 k = k (set_slot_id (cmd_slot c) (set_page_id (cmd_page c) c0)).
Proof.
  intros H3 H4 [Hp Hs] c0. unfold parse_record_id. unfold kInvalidId in *.
  rewrite H3, H4, !ParseUint_dec by (unfold UINT64_MAX; lia). by rewrite (wrap_small 32), (wrap_small 16) by lia.
Qed.

Lemma parse_data_render c : record_data_ok c -> forall c0, parse_data (HexEncode (cmd_data c)) c0 = Parsed (set_record (cmd_data c) c0).
Proof.
  intros [Hd Hn] c0. unfold parse_data. rewrite HexDecode_encode by done. cbn [negb]. by destruct (cmd_data c).
Qed.

Lemma ParseArgs_render c : command_ok c -> ParseArgs (render c) (Some Command0) = Parsed c.
Proof.
  destruct c as [k n t d p s m u e]. unfold command_ok, render. cbn [cmd_kind cmd_name cmd_table cmd_data cmd_page cmd_slot cmd_memory cmd_cpu cmd_engine].
  destruct k; intros Hc; try (by injection Hc; intros; subst); try (destruct Hc as [Hc Hok]; injection Hc; intros; subst).
  - destruct Hok as [Hm Hu]. unfold ParseArgs. cbn [cmd_memory cmd_cpu] in *. change (length _ =? 0)%nat with false. cbn iota.
    unfold parse_container. cbn -[ParseUint dec max_memory ULONG_MAX wrap]. rewrite ParseUint_dec by (unfold max_memory, UINT64_MAX in *; lia).
    replace (ULONG_MAX <? m) with false by (unfold max_memory, ULONG_MAX in *; lia).
    rewrite ParseUint_dec by (unfold UINT64_MAX in *; lia). by rewrite wrap_small by lia.
  - unfold ParseArgs. cbn -[parse_data HexEncode]. by rewrite (parse_data_render (MkCommand kInsert n t d 0 0 0 0 "") Hok).
  - unfold ParseArgs. cbn -[parse_record_id dec]. by rewrite (parse_record_id_render _ (MkCommand kGet n t [] p s 0 0 "")).
  - unfold ParseArgs. cbn -[parse_record_id parse_data dec HexEncode]. destruct Hok as [Hid Hd].
    rewrite (parse_record_id_render _ (MkCommand kUpdate n t d p s 0 0 "")) by done.
    by rewrite (parse_data_render (MkCommand kUpdate n t d p s 0 0 "") Hd).
  - unfold ParseArgs. cbn -[parse_record_id dec]. by rewrite (parse_record_id_render _ (MkCommand kDelete n t [] p s 0 0 "")).
Qed.

Lemma HexVal_lower c : HexVal (lower c) = HexVal c.
Proof.
  unfold lower. set (n := code_of c). destruct (_ && _) eqn:E; [|done].
  assert (code_of (ascii_of_nat (Z.to_nat (n + 32))) = n + 32) as Hn.
  { unfold code_of. rewrite Ascii.nat_ascii_embedding; lia. }
  unfold HexVal. cbv zeta. rewrite Hn. fold n.
  replace ((48 <=? n + 32) && (n + 32 <=? 57)) with false by lia. replace ((97 <=? n + 32) && (n + 32 <=? 102)) with true by lia.
  replace ((48 <=? n) && (n <=? 57)) with false by lia. replace ((97 <=? n) && (n <=? 102)) with false by lia.
  replace ((65 <=? n) && (n <=? 70)) with true by lia. lia.
Qed.

Lemma HexDecode_from_lower text out : HexDecode_from (lower_text text) out = HexDecode_from text out.
Proof.
  remember (String.length text) as n eqn:Hn. revert text out Hn. induction n as [n IH] using lt_wf_ind. intros text out Hn.
  destruct text as [|c [|c' text]]; cbn [lower_text HexDecode_from]; [done..|]. rewrite !HexVal_lower.
  destruct (_ || _); [done|]. eapply (IH (String.length text)); [subst n; cbn; lia|done].
Qed.

Lemma lower_text_length text : String.length (lower_text text) = String.length text.
Proof. induction text as [|c text IH]; [done|]. cbn [lower_text String.length]. by rewrite IH. Qed.

(** ** Theorems *)

(** Record data is read exactly.  Decoding a text gives the bytes [d] if and
    only if [d] are bytes whose hexadecimal is the text, up to the case of its
    letters; texts of odd length or with other characters are refused.  So what
    the shell prints for a record is read back as that record. *)
Theorem hex_decode_exact text out d :
  HexDecode text out = (true, d) <-> bytes_ok d /\ HexEncode d = lower_text text.
Proof.
  split; [apply HexDecode_inv|]. intros [Hd He]. rewrite <- (HexDecode_encode d out Hd), He.
  unfold HexDecode, strlen. rewrite lower_text_length. destruct (negb _); [done|]. by rewrite HexDecode_from_lower.
Qed.

(** Numbers are read exactly, without overflow.  For every maximum of 64
    bits a text is accepted if and only if it is a non-empty string of digits
    whose value does not exceed the maximum, however long it is, and the result
    is that value. *)
Theorem parse_uint_exact text max v :
  0 <= max <= UINT64_MAX ->
  ParseUint text max = Some v <-> text <> ""%string /\ all_chars is_digit text = true /\ decimal text 0 = v /\ v <= max.
Proof. apply ParseUint_spec. Qed.

Lemma parse_uint_exact_witness :
  ParseUint "18446744073709551615" UINT64_MAX = Some UINT64_MAX /\ ParseUint "18446744073709551616" UINT64_MAX = None.
Proof.
  split; [apply (parse_uint_exact "18446744073709551615" UINT64_MAX UINT64_MAX); [by vm_compute|]; split_and!; by vm_compute|].
  destruct (ParseUint "18446744073709551616" UINT64_MAX) as [v|] eqn:E; [|reflexivity].
  apply (parse_uint_exact "18446744073709551616" UINT64_MAX v) in E; [|split; discriminate].
  destruct E as (_ & _ & <- & Hle). vm_compute in Hle. by destruct Hle.
Defined.

(** C35: The shell accepts exactly the commands of its language.  Whatever the
    arguments, parsing answers success with a command whose members are in
    range, unused members untouched, or a usage or value error with a message;
    and the command line that stands for a command is parsed to that command,
    so that no command is lost and an accepted line means one command. *)
Theorem parse_args_exact args :
  answer_ok (ParseArgs args (Some Command0)) /\
  forall c, command_ok c <-> ParseArgs (render c) (Some Command0) = (kExitOk, c, None).
Proof.
  split; [apply ParseArgs_ok|]. intros c. split; [apply ParseArgs_render|]. intros Hp.
  pose proof (ParseArgs_ok (render c)) as Ha. rewrite Hp in Ha. destruct Ha as [(_ & _ & ?)|([?|?] & _)]; [done|done|done].
Qed.
