(* ===== verification/Manager.v ===== *)
(** * The manager

    [include/manager/manager.h] and [src/manager/manager.cpp]: container lifecycle
    with its metadata files, and record operations on the database of a name.
    A call works on the directory of files, the container registry and the
    kernel, and returns a value, a status other than ok, or ends the process;
    [None] is an access through a null pointer.  What the file system does is in
    [manager_io]. *)

From Stdlib Require Import Ascii.
From stdpp Require Import gmap.
From S2P Require Import Prelude Bytes Common CStr Os Process Cgroup Container PageStorage BufferPool Wal Recovery.
From S2P Require Import PageAccess HeapTable Catalog QueryExecutor LoggedPool Database.

(** ** Strings and paths *)

Definition bytes_of (s : string) : list Z := code_of <$> String.list_ascii_of_string s.
Definition text_of (l : list Z) : string := String.string_of_list_ascii ((fun b => ascii_of_nat (Z.to_nat b)) <$> l).

(** [s.c_str()] as a C function reads it. *)
Fixpoint c_str (s : string) : string :=
  match s with
  | EmptyString => EmptyString
  | String c s => if code_of c =? 0 then EmptyString else String c (c_str s)
  end.

(** [std::filesystem::path] with [operator/]. *)
Fixpoint ends_in_slash (s : string) : bool :=
  match s with
  | EmptyString => false
  | String c EmptyString => code_of c =? 47
  | String _ s => ends_in_slash s
  end.
Definition is_absolute (s : string) : bool := match s with String c _ => code_of c =? 47 | EmptyString => false end.
Definition path_div (a b : string) : string :=
  if is_absolute b then b else if (a =? "")%string || ends_in_slash a then a +:+ b else a +:+ "/" +:+ b.

(** ** Metadata *)

Record ContainerMeta := MkMeta {
  m_name : string; m_id : string; m_memory : Z; m_cpu : Z; m_engine : string; m_cgroup : string; m_pid : Z; m_state : Z }.

(** The value of an enumerator. *)
Definition int_of_state (s : nexus_state) : Z :=
  match s with NEXUS_CREATED => 0 | NEXUS_RUNNING => 1 | NEXUS_STOPPED => 2 | NEXUS_DELETED => 3 end.

Definition Meta0 : ContainerMeta := MkMeta "" "" 0 0 "" "" (-1) (int_of_state NEXUS_CREATED).

(** The lines [std::getline] delivers; [line] is what was read of the first one. *)
Fixpoint getlines (line : string) (s : string) : list string :=
  match s with
  | EmptyString => match line with EmptyString => [] | _ => [line] end
  | String c s => if code_of c =? 10 then line :: getlines "" s else getlines (line +:+ String c "") s
  end.

(** [line.find('=')] and the two substrings. *)
Fixpoint split_eq (s : string) : option (string * string) :=
  match s with
  | EmptyString => None
  | String c s =>
      if code_of c =? 61 then Some (EmptyString, s) else
      match split_eq s with Some (key, val) => Some (String c key, val) | None => None end
  end.

Definition meta_line (meta : ContainerMeta) (line : string) : ContainerMeta :=
  match split_eq line with
  | None => meta
  | Some (key, val) =>
      let 'MkMeta n i m u e g p s := meta in
      if (key =? "name")%string then MkMeta val i m u e g p s
      else if (key =? "id")%string then MkMeta n val m u e g p s
      else if (key =? "memory")%string then MkMeta n i (fst (fst (fst (strtoul val)))) u e g p s
      else if (key =? "cpu")%string then MkMeta n i m (u32 (fst (fst (fst (strtoul val))))) e g p s
      else if (key =? "engine")%string then MkMeta n i m u val g p s
      else if (key =? "cgroup")%string then MkMeta n i m u e val p s
      else if (key =? "pid")%string then MkMeta n i m u e g (fst (fst (fst (strtol val)))) s
      else if (key =? "state")%string then MkMeta n i m u e g p (to_int (fst (fst (fst (strtol val)))))
      else meta
  end.

Definition parse_meta (name : string) (text : string) : ContainerMeta :=
  foldl meta_line (MkMeta name "" 0 0 "" "" (-1) (int_of_state NEXUS_CREATED)) (getlines "" text).

Definition meta_text (meta : ContainerMeta) : string :=
  foldr String.append EmptyString
    ["name="%string; m_name meta; newline; "id="%string; m_id meta; newline;
     "memory="%string; dec (m_memory meta); newline; "cpu="%string; dec (m_cpu meta); newline;
     "engine="%string; m_engine meta; newline; "cgroup="%string; m_cgroup meta; newline;
     "pid="%string; dec_signed (m_pid meta); newline; "state="%string; dec_signed (m_state meta); newline].

(** ** Calls *)

Record host (W : Type) := MkHost { h_files : files; h_registry : registry; h_os : W }.
Arguments MkHost {W}. Arguments h_files {W}. Arguments h_registry {W}. Arguments h_os {W}.

Definition Mgr (W A : Type) : Type := host W -> option (outcome A * host W).

#[export] Instance Mgr_ret W : MRet (Mgr W) := fun A x h => Some (Done x, h).
#[export] Instance Mgr_bind W : MBind (Mgr W) := fun A B k m h =>
  '(r, h) ← m h;
  match r with
  | Done x => k x h
  | Failed s => Some (Failed s, h)
  | Database.Exited c => Some (Database.Exited c, h)
  end.

Definition reject {W A} (s : Status) : Mgr W A := fun h => Some (Failed s, h).
Definition on_disk {W A} (m : Sys A) : Mgr W A := fun h =>
  '(r, fs) ← m (h_files h); Some (r, MkHost fs (h_registry h) (h_os h)).
Definition on_registry {W A} (f : registry -> M W (A * registry)) : Mgr W A := fun h =>
  '(x, r, w) ← f (h_registry h) (h_os h); Some (Done x, MkHost (h_files h) r w).

(** Writing a metadata file: whether it opens, and what is lost: the bytes
    after the first [n], and whether the stream noticed before it was closed. *)
Record save_io := MkSave { sv_open : bool; sv_lost : option (Z * bool) }.

(** The outcomes of the calls on the file system; [io_dir] is the answer of
    [is_directory] after [create_directories]. *)
Record manager_io := MkManagerIo {
  io_load : rd; io_dir : bool; io_save : save_io; io_remove : bool; io_open : open_io; io_reopen : bool }.

Definition kDefaultPoolFrames : Z := 64.
Definition Err (c : DbError) (message : string) : Status := StatusError c message.

Definition MapContainerRc (rc : Z) : DbError :=
  if rc =? NEXUS_OK then kOk
  else if rc =? NEXUS_ERR_INVALID then kInvalidArgument
  else if rc =? NEXUS_ERR_NOT_FOUND then kNotFound
  else if rc =? NEXUS_ERR_NOMEM then kOutOfMemory
  else if rc =? NEXUS_ERR_PROCESS then kIoError
  else kBadState.

Definition FromContainerRc {W} (rc : Z) (what : string) : Mgr W unit :=
  if rc =? NEXUS_OK then mret tt else reject (Err (MapContainerRc rc) (what +:+ ": " +:+ container_strerror rc)).

Definition ResolveDataRoot (env : option string) : string :=
  match env with Some (String c s) => String c s | _ => "nexusdb_data" end.
(** [Manager(data_root)]; the other constructor is the one for the empty root. *)
Definition Manager (env : option string) (data_root : string) : string :=
  if (data_root =? "")%string then ResolveDataRoot env else data_root.

Definition IsValidName (name : string) : bool :=
  if (name =? "")%string || (NEXUS_NAME_MAX <=? strlen name) then false else
  all_chars (fun ch => isalnum ch || (code_of ch =? 95) || (code_of ch =? 45)) name.

(** One record copied out of its page: [page] and [slot], and [data]. *)
Definition ScanRecord : Type := RecordId * list Z.
Definition CollectScan (id : RecordId) (data : list Z) (out : list ScanRecord) : bool * list ScanRecord :=
  (true, out ++ [(id, data)]).

Section Manager.
Context {W : Type} `{Os W} (fuel : nat) (data_root : string) (want : option string) (io : manager_io).

Definition DbDir (name : string) : string := path_div data_root name.
Definition MetaDir : string := path_div (path_div data_root ".nexus") "containers".
Definition MetaPath (name : string) : string := path_div MetaDir (name +:+ ".meta").

Definition Init : Mgr W unit :=
  if negb (io_dir io) then reject (Err kIoError ("cannot create metadata directory: " +:+ MetaDir)) else mret tt.

Definition LoadMeta (name : string) : Mgr W (option ContainerMeta) := fun h =>
  Some (Done (bytes ← h_files h !! MetaPath name; inp ← ifstream (io_load io) bytes; Some (parse_meta name (text_of inp))), h).

Definition SaveMeta (meta : ContainerMeta) : Mgr W unit :=
  if negb (sv_open (io_save io)) then reject (Err kIoError ("cannot write metadata for " +:+ m_name meta)) else
  let bytes := bytes_of (meta_text meta) in
  let write bytes := on_disk (fun fs => Some (Done tt, <[MetaPath (m_name meta) := bytes]> fs)) in
  match sv_lost (io_save io) with
  | None => write bytes
  | Some (n, noticed) =>
      write (take (Z.to_nat n) bytes) ;;
      if (noticed : bool) then reject (Err kIoError ("failed writing metadata for " +:+ m_name meta)) else mret tt
  end.

Definition RemoveMeta (name : string) : Mgr W unit := on_disk (remove (io_remove io) (MetaPath name)) ;; mret tt.

Definition Adopt (name : string) : Mgr W ContainerMeta :=
  meta ← LoadMeta name;
  match meta with
  | None => reject (Err kNotFound ("no such container: " +:+ name))
  | Some meta =>
      rc ← on_registry (fun r => container_adopt r (Some (c_str (m_name meta))) (Some (c_str (m_id meta))) (m_memory meta)
        (m_cpu meta) (Some (c_str (m_engine meta))) (Some (c_str (m_cgroup meta))) (m_pid meta) (m_state meta));
      FromContainerRc rc ("adopt container " +:+ name) ;; mret meta
  end.

(** *** Container lifecycle *)

Definition invalid_container {A} (name : string) : Mgr W A := reject (Err kInvalidArgument ("invalid container name: " +:+ name)).

Definition ContainerCreate (name : string) (memory_bytes cpu_percent : Z) (engine : string) : Mgr W unit :=
  if negb (IsValidName name) then invalid_container name else
  existing ← LoadMeta name;
  match existing with
  | Some _ => reject (Err kBadState ("container already exists: " +:+ name))
  | None =>
      Init ;;
      let engine_arg := if (engine =? "")%string then None else Some (c_str engine) in
      rc ← on_registry (fun r => container_create_ex r (Some name) memory_bytes cpu_percent engine_arg None);
      FromContainerRc rc ("create container " +:+ name) ;;
      c ← on_registry (fun r => mret (container_get r (Some name), r));
      let '(id, cgroup) := match c with Some c => (c_id c, c_cgroup_path c) | None => (""%string, ""%string) end in
      SaveMeta (MkMeta name id memory_bytes cpu_percent engine cgroup (-1) (int_of_state NEXUS_CREATED))
  end.

Definition with_run (pid : Z) (state : nexus_state) (meta : ContainerMeta) : ContainerMeta :=
  MkMeta (m_name meta) (m_id meta) (m_memory meta) (m_cpu meta) (m_engine meta) (m_cgroup meta) pid (int_of_state state).

Definition ContainerStart (name : string) : Mgr W unit :=
  if negb (IsValidName name) then invalid_container name else
  meta ← Adopt name;
  if m_state meta =? int_of_state NEXUS_RUNNING then reject (Err kBadState ("container already running: " +:+ name)) else
  rc ← on_registry (fun r => container_start fuel r (Some name));
  FromContainerRc rc ("start container " +:+ name) ;;
  c ← on_registry (fun r => mret (container_get r (Some name), r));
  SaveMeta (with_run (match c with Some c => c_pid c | None => -1 end) NEXUS_RUNNING meta).

Definition ContainerStop (name : string) : Mgr W unit :=
  if negb (IsValidName name) then invalid_container name else
  meta ← Adopt name;
  rc ← on_registry (fun r => container_stop r (Some name));
  FromContainerRc rc ("stop container " +:+ name) ;;
  SaveMeta (with_run (-1) NEXUS_STOPPED meta).

Definition ContainerDelete (name : string) : Mgr W unit :=
  if negb (IsValidName name) then invalid_container name else
  meta ← Adopt name;
  rc ← on_registry (fun r => container_delete r (Some name));
  FromContainerRc rc ("delete container " +:+ name) ;;
  RemoveMeta name.

Definition ContainerStatus (name : string) : Mgr W string :=
  if negb (IsValidName name) then invalid_container name else
  meta ← Adopt name;
  r ← on_registry (fun r => mret (container_status r (Some name) 512, r));
  FromContainerRc (fst r) ("status container " +:+ name) ;;
  mret (default ""%string (snd r)).

(** *** Database operations *)

Definition db_path (name : string) : string := path_div (DbDir name) "nexusdb.db".
Definition wal_path (name : string) : string := path_div (DbDir name) "nexusdb.wal".

Definition OpenDb (name : string) : Mgr W Database :=
  if negb (IsValidName name) then reject (Err kInvalidArgument ("invalid database name: " +:+ name)) else
  meta ← LoadMeta name;
  if match meta with Some meta => m_state meta =? int_of_state NEXUS_RUNNING | None => false end then
    reject (Err kBadState ("container " +:+ name +:+
      " is running; stop it before direct database access (no client protocol exists)")) else
  if negb (io_dir io) then reject (Err kIoError ("cannot create database directory: " +:+ DbDir name)) else
  on_disk (Database.Open (io_open io) want (db_path name) (wal_path name) kDefaultPoolFrames true).

(** A call on the executor. *)
Definition executor {A} (f : QueryExecutor * db logged -> option (A * (QueryExecutor * db logged))) (d : Database)
    : Mgr W (A * Database) := fun h =>
  pool ← pool_ d;
  q ← executor_ d;
  '(x, (q, (pool, e))) ← f (q, (pool, MkLogged (wal_ d) (storage_ d)));
  Some (Done (x, MkDatabase (lg_storage e) (lg_wal e) (Some pool) (Some q) (catalog_root_ d)), h).

(** [~Database]: the pool, the log and the storage. *)
Definition destroy (d : Database) : Database :=
  let e := MkLogged (wal_ d) (storage_ d) in
  let e := match pool_ d with Some pool => let '(_, _, e) := FlushAll pool e in e | None => e end in
  MkDatabase (snd (PageStorage.Close (lg_storage e))) (snd (Wal.Close (lg_wal e))) None None (catalog_root_ d).

(** [const Status close = db->Close();], and the end of [db]. *)
Definition close_db (name : string) (d : Database) : Mgr W Status :=
  let '(close, d) := Database.Close (io_reopen io) d in
  let d := destroy d in
  on_disk (fun fs => Some (Done tt, on_files (db_path name) (wal_path name) (storage_ d) (wal_ d) fs)) ;;
  mret close.

Definition first_error (s close : Status) : Mgr W unit :=
  if negb (ok s) then reject s else if negb (ok close) then reject close else mret tt.

Definition DbInit (name : string) : Mgr W unit :=
  d ← OpenDb name;
  close ← close_db name d;
  first_error StatusOk close.

Definition TableCreate (name table : string) : Mgr W unit :=
  d ← OpenDb name;
  '(r, d) ← executor (QueryExecutor.CreateTable (bytes_of table)) d;
  close ← close_db name d;
  first_error (status r) close.

Definition TableList (name : string) : Mgr W (list (list Z)) :=
  d ← OpenDb name;
  '(r, d) ← executor (fun s => Some (QueryExecutor.ListTables true (fst s), s)) d;
  close ← close_db name d;
  first_error (fst r) close ;;
  mret (snd r).

Definition Insert (name table : string) (data : list Z) : Mgr W RecordId :=
  d ← OpenDb name;
  '(r, d) ← executor (QueryExecutor.Insert (bytes_of table) (Some data) true) d;
  close ← close_db name d;
  first_error (match r with inl s => s | inr (s, _) => s end) close ;;
  mret (match r with inl _ => RecordId0 | inr (_, id) => id end).

Definition Get (name table : string) (page slot : Z) : Mgr W (list Z) :=
  d ← OpenDb name;
  '(r, d) ← executor (QueryExecutor.Get (bytes_of table) (MkRecordId page slot) true) d;
  close ← close_db name d;
  first_error (status r) close ;;
  mret (match r with inl _ => [] | inr data => data end).

Definition Update (name table : string) (page slot : Z) (data : list Z) : Mgr W unit :=
  d ← OpenDb name;
  '(r, d) ← executor (QueryExecutor.Update (bytes_of table) (MkRecordId page slot) (Some data)) d;
  close ← close_db name d;
  first_error (status r) close.

Definition Delete (name table : string) (page slot : Z) : Mgr W unit :=
  d ← OpenDb name;
  '(r, d) ← executor (QueryExecutor.Delete (bytes_of table) (MkRecordId page slot)) d;
  close ← close_db name d;
  first_error (status r) close.

Definition Scan (name table : string) : Mgr W (list ScanRecord) :=
  d ← OpenDb name;
  '(r, d) ← executor (QueryExecutor.Scan (bytes_of table) (Some CollectScan) []) d;
  close ← close_db name d;
  first_error (status r) close ;;
  mret (match r with inl _ => [] | inr l => l end).
End Manager.
