(* ===== verification/ManagerSpec.v ===== *)
(** * The manager: metadata files and paths

    What a metadata file says is read back, a container outlives the process that
    made it, a start is recorded, and the files of different names are different
    files. *)

From Stdlib Require Import Ascii.
From stdpp Require Import gmap.
From S2P Require Import Prelude Bytes Common CStr Os Sim Process Cgroup Container ContainerSpec PageStorage BufferPool Wal Recovery.
From S2P Require Import PageAccess HeapTable Catalog QueryExecutor LoggedPool Database DatabaseSpec Manager.

Local Open Scope Z_scope.

(** ** Steps of a call *)

Lemma Mgr_bind_done {W A B} (m : Mgr W A) (k : A -> Mgr W B) h x h' :
  m h = Some (Done x, h') -> (m ≫= k) h = k x h'.
Proof. intros Hm. unfold mbind, Mgr_bind. by rewrite Hm. Qed.

Lemma on_registry_bind {W A B} (f : registry -> M W (A * registry)) (k : A -> Mgr W B) h :
  (on_registry f ≫= k) h = match f (h_registry h) (h_os h) with Some (x, r, w) => k x (MkHost (h_files h) r w) | None => None end.
Proof. unfold mbind at 1, Mgr_bind, on_registry. by destruct (f _ _) as [[[x r] w]|]. Qed.

(** A call that succeeds is made of calls that succeed. *)
Lemma Mgr_bind_inv {W A B} (m : Mgr W A) (k : A -> Mgr W B) h y h' :
  (m ≫= k) h = Some (Done y, h') -> exists x h1, m h = Some (Done x, h1) /\ k x h1 = Some (Done y, h').
Proof.
  unfold mbind, Mgr_bind. destruct (m h) as [[[x|s|c] h1]|]; cbn [option_bind]; [|by intros [=]..]. intros HX. by exists x, h1.
Qed.
Lemma on_registry_files {W A} (f : registry -> M W (A * registry)) h x h' :
  on_registry f h = Some (Done x, h') -> h_files h' = h_files h.
Proof. unfold on_registry. destruct (f _ _) as [[[? ?] ?]|]; [|by intros [=]]. by intros [= <- <-]. Qed.
Lemma FromContainerRc_done {W} rc what (h h' : host W) : FromContainerRc rc what h = Some (Done tt, h') -> h' = h.
Proof. unfold FromContainerRc. destruct (_ =? _); [by intros [= <-]|by intros [=]]. Qed.

(** ** Text *)

Lemma text_of_bytes s : text_of (bytes_of s) = s.
Proof.
  unfold text_of, bytes_of. rewrite <- list_fmap_compose.
  assert (forall l : list ascii, ((fun b => ascii_of_nat (Z.to_nat b)) ∘ code_of) <$> l = l) as Hid.
  { induction l as [|c l IH]; [done|]. cbn. f_equal; [|exact IH]. unfold code_of. rewrite Nat2Z.id. apply ascii_nat_embedding. }
  rewrite Hid. apply String.string_of_list_ascii_of_string.
Qed.

Definition no_newline : string -> bool := all_chars (fun c => negb (code_of c =? 10)).

Lemma getlines_line acc s rest :
  no_newline s = true -> getlines acc (s +:+ newline +:+ rest) = (acc +:+ s) :: getlines "" rest.
Proof.
  revert acc. induction s as [|c s IH]; intros acc Hs.
  - change ((""%string +:+ newline +:+ rest)) with (String (ascii_of_nat 10) rest). cbn [getlines]. by rewrite append_empty_r.
  - unfold no_newline in Hs. cbn [all_chars] in Hs. apply andb_true_iff in Hs as [Hc%negb_true_iff Hs].
    change (String c s +:+ newline +:+ rest) with (String c (s +:+ newline +:+ rest)). cbn [getlines]. rewrite Hc, IH by done.
    f_equal. by rewrite <- append_assoc.
Qed.

Lemma no_newline_app a b : no_newline (a +:+ b) = no_newline a && no_newline b.
Proof.
  unfold no_newline. induction a as [|c a IH]; [done|]. change (String c a +:+ b) with (String c (a +:+ b)). cbn [all_chars].
  by rewrite IH, andb_assoc.
Qed.

(** A line with a key. *)
Lemma getlines_field k s rest :
  no_newline k = true -> no_newline s = true ->
  getlines "" (k +:+ s +:+ newline +:+ rest) = (k +:+ s) :: getlines "" rest.
Proof. intros Hk Hs. rewrite append_assoc, getlines_line; [done|]. by rewrite no_newline_app, Hk, Hs. Qed.

Lemma no_newline_dec n : 0 <= n -> no_newline (dec n) = true.
Proof.
  intros Hn. unfold dec, no_newline. apply dec_go_chars; [|done|done]. intros d Hd. rewrite code_of_digit by done.
  by replace (48 + d =? 10) with false by lia.
Qed.

Lemma no_newline_signed n : no_newline (dec_signed n) = true.
Proof.
  unfold dec_signed. destruct (n <? 0) eqn:E; zb; [|by apply no_newline_dec].
  change (String "-" (dec (- n))) with ("-" +:+ dec (- n)). rewrite no_newline_app, no_newline_dec by lia. done.
Qed.

(** A printed [long] is read back. *)
Lemma strtol_signed n : LONG_MIN <= n <= LONG_MAX -> fst (fst (fst (strtol (dec_signed n)))) = n.
Proof.
  intros Hn. unfold dec_signed. destruct (n <? 0) eqn:E; zb; [|by rewrite strtol_dec by lia].
  unfold strtol, scan_number. cbn [skip_space]. change (is_space "-") with false. cbn iota. cbn [scan_sign].
  destruct (dec_go_scan 20 (- n) "" 0 0) as (k & Hk & Hs); [unfold LONG_MIN in Hn; lia|lia|].
  unfold dec. rewrite Hs. cbn [scan_digits]. replace (0 + k =? 0)%nat with false by (symmetry; apply Nat.eqb_neq; lia).
  rewrite Z.mul_0_l, Z.add_0_l, Z.opp_involutive. cbv zeta.
  replace (LONG_MAX <? n) with false by lia. by replace (n <? LONG_MIN) with false by lia.
Qed.

(** ** Metadata *)

(** Metadata whose strings have no line breaks and whose numbers have the range
    of their types. *)
Record meta_ok (m : ContainerMeta) : Prop := {
  mk_name : no_newline (m_name m) = true;
  mk_id : no_newline (m_id m) = true;
  mk_engine : no_newline (m_engine m) = true;
  mk_cgroup : no_newline (m_cgroup m) = true;
  mk_memory : 0 <= m_memory m <= ULONG_MAX;
  mk_cpu : 0 <= m_cpu m < 2 ^ 32;
  mk_pid : LONG_MIN <= m_pid m <= LONG_MAX;
  mk_state : 0 <= m_state m < 2 ^ 31 }.

Lemma parse_meta_text name m : meta_ok m -> parse_meta name (meta_text m) = m.
Proof.
  intros [Hn Hi He Hg Hm Hc Hp Hs]. destruct m as [n i mem u e g p s].
  cbn [m_name m_id m_memory m_cpu m_engine m_cgroup m_pid m_state] in Hn, Hi, He, Hg, Hm, Hc, Hp, Hs. unfold parse_meta, meta_text. cbn [foldr m_name m_id m_memory m_cpu m_engine m_cgroup m_pid m_state].
  pose proof (no_newline_dec mem (proj1 Hm)). pose proof (no_newline_dec u (proj1 Hc)).
  pose proof (no_newline_signed p). pose proof (no_newline_signed s).
  rewrite !getlines_field by (reflexivity || assumption).
  cbn [getlines foldl]. unfold meta_line.
  change (split_eq ("name=" +:+ n)) with (Some ("name"%string, n)). change (split_eq ("id=" +:+ i)) with (Some ("id"%string, i)).
  change (split_eq ("memory=" +:+ dec mem)) with (Some ("memory"%string, dec mem)).
  change (split_eq ("cpu=" +:+ dec u)) with (Some ("cpu"%string, dec u)).
  change (split_eq ("engine=" +:+ e)) with (Some ("engine"%string, e)).
  change (split_eq ("cgroup=" +:+ g)) with (Some ("cgroup"%string, g)).
  change (split_eq ("pid=" +:+ dec_signed p)) with (Some ("pid"%string, dec_signed p)).
  change (split_eq ("state=" +:+ dec_signed s)) with (Some ("state"%string, dec_signed s)).
  cbn -[dec dec_signed strtol strtoul wrap to_int].
  rewrite !strtoul_dec by (unfold ULONG_MAX in *; lia). rewrite !strtol_signed by (unfold LONG_MIN, LONG_MAX in *; lia).
  cbn [fst]. rewrite wrap_small by lia. f_equal. apply to_int_small; lia.
Qed.

Lemma getlines_app acc a b : getlines acc (a +:+ newline +:+ b) = getlines acc (a +:+ newline) ++ getlines "" b.
Proof.
  revert acc. induction a as [|c a IH]; intros acc; [done|].
  change (String c a +:+ newline +:+ b) with (String c (a +:+ newline +:+ b)).
  change (String c a +:+ newline) with (String c (a +:+ newline)). cbn [getlines].
  destruct (code_of c =? 10); [by rewrite IH|apply IH].
Qed.

(** The state is in the last line, and that line counts whatever the other
    members hold. *)
Lemma parse_meta_state name m : 0 <= m_state m < 2 ^ 31 -> m_state (parse_meta name (meta_text m)) = m_state m.
Proof.
  intros Hs. destruct m as [n i mem u e g p s]. cbn [m_state] in Hs |- *. unfold parse_meta, meta_text.
  cbn [foldr m_name m_id m_memory m_cpu m_engine m_cgroup m_pid m_state].
  set (last := "state=" +:+ _). set (lines := "name=" +:+ _).
  assert (exists a, lines = a +:+ newline +:+ last) as [a ->].
  { exists ("name=" +:+ n +:+ newline +:+ "id=" +:+ i +:+ newline +:+ "memory=" +:+ dec mem +:+ newline +:+ "cpu=" +:+ dec u +:+ newline +:+
      "engine=" +:+ e +:+ newline +:+ "cgroup=" +:+ g +:+ newline +:+ "pid=" +:+ dec_signed p). unfold lines. by rewrite <- !append_assoc. }
  rewrite getlines_app, foldl_app. unfold last. rewrite getlines_field by (done || apply no_newline_signed). cbn [getlines foldl].
  destruct (foldl _ _ _) as [n' i' mem' u' e' g' p' s']. unfold meta_line.
  change (split_eq ("state=" +:+ dec_signed s)) with (Some ("state"%string, dec_signed s)).
  cbn -[dec dec_signed strtol to_int]. rewrite strtol_signed by (unfold LONG_MIN, LONG_MAX; lia). cbn [fst]. apply to_int_small; lia.
Qed.

(** ** Paths *)

Definition no_slash : string -> bool := all_chars (fun c => negb (code_of c =? 47)).

(** The root as a directory prefix. *)
Definition dir_prefix (root : string) : string :=
  if (root =? "")%string || ends_in_slash root then root else root +:+ "/".

Lemma all_chars_imp (P Q : ascii -> bool) s : (forall c, P c = true -> Q c = true) -> all_chars P s = true -> all_chars Q s = true.
Proof.
  intros HPQ. induction s as [|c s IH]; [done|]. cbn [all_chars]. intros [Hc Hs]%andb_true_iff. by rewrite HPQ, IH.
Qed.

Lemma valid_name_chars name : IsValidName name = true -> name <> ""%string /\ no_slash name = true /\ no_newline name = true /\
  all_chars (fun c => negb (code_of c =? 46)) name = true.
Proof.
  unfold IsValidName. destruct (_ || _) eqn:E; [done|]. apply orb_false_iff in E as [E _]. intros Hv.
  split; [by intros ->|]. unfold no_slash, no_newline.
  split_and!; (eapply all_chars_imp; [|exact Hv]); intros c; unfold isalnum, is_alpha, is_digit; lia.
Qed.

Lemma append_cancel a b c : a +:+ b = a +:+ c -> b = c.
Proof. induction a as [|x a IH]; [done|]. change (String x (a +:+ b) = String x (a +:+ c) -> b = c). intros [= H]. by apply IH. Qed.

(** The first component of a path ends at the first slash. *)
Lemma components_inj a b x y :
  no_slash a = true -> no_slash b = true -> a +:+ "/" +:+ x = b +:+ "/" +:+ y -> a = b /\ x = y.
Proof.
  revert b. induction a as [|c a IH]; intros [|c' b] Ha Hb.
  - change (String "/" x = String "/" y -> ""%string = ""%string /\ x = y). by intros [= ->].
  - change (String "/" x = String c' (b +:+ "/" +:+ y) -> ""%string = String c' b /\ x = y). intros [= <- _]. done.
  - change (String c (a +:+ "/" +:+ x) = String "/" y -> String c a = ""%string /\ x = y). intros [= -> _]. done.
  - change (String c (a +:+ "/" +:+ x) = String c' (b +:+ "/" +:+ y) -> String c a = String c' b /\ x = y). intros [= -> H].
    unfold no_slash in *. cbn [all_chars] in Ha, Hb. apply andb_true_iff in Ha as [_ Ha]. apply andb_true_iff in Hb as [_ Hb].
    destruct (IH b Ha Hb H) as [-> ->]. done.
Qed.

Lemma ends_in_slash_app a b : b <> ""%string -> ends_in_slash (a +:+ b) = ends_in_slash b.
Proof.
  intros Hb. induction a as [|c a IH]; [done|]. change (String c a +:+ b) with (String c (a +:+ b)).
  destruct a as [|c' a]; [by destruct b|exact IH].
Qed.

Lemma no_slash_ends s : no_slash s = true -> ends_in_slash s = false.
Proof.
  unfold no_slash. induction s as [|c s IH]; [done|]. cbn [all_chars]. intros [Hc%negb_true_iff Hs]%andb_true_iff.
  cbn [ends_in_slash]. destruct s; [done|by apply IH].
Qed.

Lemma path_div_name root name : no_slash name = true -> path_div root name = dir_prefix root +:+ name.
Proof.
  intros Hn. unfold path_div, dir_prefix. assert (is_absolute name = false) as ->.
  { unfold no_slash in Hn. destruct name as [|c n]; [done|]. cbn [all_chars] in Hn. apply andb_true_iff in Hn as [Hc%negb_true_iff _]. done. }
  destruct (_ || _); [done|]. by rewrite append_assoc.
Qed.

(** A component after a directory that does not end in a slash. *)
Lemma path_div_under P dir name :
  dir <> ""%string -> no_slash dir = true -> no_slash name = true -> path_div (P +:+ dir) name = P +:+ dir +:+ "/" +:+ name.
Proof.
  intros Hd Hs Hn. rewrite path_div_name by done. unfold dir_prefix.
  rewrite ends_in_slash_app, no_slash_ends by done. rewrite orb_false_r.
  destruct (P +:+ dir =? "")%string eqn:E; [|by rewrite <- !append_assoc].
  apply String.eqb_eq in E. destruct P; [|done]. by destruct dir.
Qed.

(** The files the manager keeps for a name. *)
Inductive own_file := OwnDb | OwnWal | OwnNew | OwnMeta.
Definition own_path (root : string) (k : own_file) (name : string) : string :=
  match k with
  | OwnDb => db_path root name
  | OwnWal => wal_path root name
  | OwnNew => db_path root name +:+ ".creating"
  | OwnMeta => MetaPath root name
  end.

Lemma own_path_eq root k name :
  IsValidName name = true ->
  own_path root k name = dir_prefix root +:+
    match k with
    | OwnDb => name +:+ "/" +:+ "nexusdb.db"
    | OwnWal => name +:+ "/" +:+ "nexusdb.wal"
    | OwnNew => name +:+ "/" +:+ "nexusdb.db.creating"
    | OwnMeta => ".nexus" +:+ "/" +:+ "containers/" +:+ name +:+ ".meta"
    end.
Proof.
  intros (Hn & Hs & _)%valid_name_chars. assert (forall f, no_slash f = true -> path_div (DbDir root name) f = dir_prefix root +:+ name +:+ "/" +:+ f) as Hd.
  { intros f Hf. unfold DbDir. rewrite (path_div_name root name) by done. by apply path_div_under. }
  destruct k; cbn [own_path]; unfold db_path, wal_path; rewrite ?Hd by done; [done|done|by rewrite <- !append_assoc|].
  unfold MetaPath, MetaDir. rewrite (path_div_name root ".nexus") by done. rewrite path_div_under by done.
  assert (no_slash (name +:+ ".meta") = true) as Hm.
  { revert Hs. unfold no_slash. clear. induction name as [|c name IH]; [done|]. change (String c name +:+ ".meta") with (String c (name +:+ ".meta")).
    cbn [all_chars]. intros [-> ?]%andb_true_iff. by rewrite IH. }
  rewrite path_div_name by done. unfold dir_prefix at 1.
  rewrite !append_assoc, ends_in_slash_app by done. cbn [orb]. rewrite orb_false_r.
  destruct (_ =? "")%string eqn:E; [|by rewrite <- !append_assoc].
  apply String.eqb_eq in E. by destruct (dir_prefix root).
Qed.

Lemma own_path_inj root k1 k2 n1 n2 :
  IsValidName n1 = true -> IsValidName n2 = true -> own_path root k1 n1 = own_path root k2 n2 -> k1 = k2 /\ n1 = n2.
Proof.
  intros V1 V2. rewrite !own_path_eq by done. intros H%append_cancel.
  destruct (valid_name_chars n1 V1) as (_ & S1 & _ & D1). destruct (valid_name_chars n2 V2) as (_ & S2 & _ & D2).
  destruct k1, k2; (apply components_inj in H as [Hn Hf]; [|by first [done|exact S1]|by first [done|exact S2]]);
    first [split; [done|exact Hn] | discriminate Hf | subst n1; discriminate D1 | subst n2; discriminate D2 | idtac].
  split; [done|]. apply append_cancel in Hf. clear -Hf. revert n2 Hf. induction n1 as [|c n1 IH]; intros [|c' n2]; [done| | |].
  - change (".meta"%string = String c' (n2 +:+ ".meta") -> ""%string = String c' n2). intros H%(f_equal String.length).
    exfalso. change (String.length (String c' (n2 +:+ ".meta"))) with (S (String.length (n2 +:+ ".meta"))) in H.
    pose proof (strlen_append n2 ".meta") as Hl. unfold strlen in Hl. cbn in H, Hl. lia.
  - change (String c (n1 +:+ ".meta") = ".meta"%string -> String c n1 = ""%string). intros H%(f_equal String.length).
    exfalso. change (String.length (String c (n1 +:+ ".meta"))) with (S (String.length (n1 +:+ ".meta"))) in H.
    pose proof (strlen_append n1 ".meta") as Hl. unfold strlen in Hl. cbn in H, Hl. lia.
  - change (String c (n1 +:+ ".meta") = String c' (n2 +:+ ".meta") -> String c n1 = String c' n2). intros [= -> H]. f_equal. by apply IH.
Qed.

(** ** A container across processes *)

(** What [s.c_str()] passes on whole and a line of a metadata file holds. *)
Definition plain (s : string) : bool := all_chars (fun c => negb (code_of c =? 10) && negb (code_of c =? 0)) s.

Lemma plain_line s : plain s = true -> no_newline s = true.
Proof. apply all_chars_imp. by intros c [? _]%andb_true_iff. Qed.
Lemma c_str_plain s : plain s = true -> c_str s = s.
Proof.
  unfold plain. induction s as [|c s IH]; [done|]. cbn [all_chars c_str]. intros [[_ Hc%negb_true_iff]%andb_true_iff Hs]%andb_true_iff.
  by rewrite Hc, IH.
Qed.
Lemma valid_plain name : IsValidName name = true -> plain name = true.
Proof.
  unfold IsValidName. destruct (_ || _); [done|]. apply all_chars_imp. intros c. unfold isalnum, is_alpha, is_digit. lia.
Qed.

(** The manager and the container registry accept the same names. *)
Lemma IsValidName_eq name : IsValidName name = name_valid (Some name).
Proof.
  unfold IsValidName, name_valid. replace (name =? "")%string with (strlen name =? 0); [done|].
  by destruct name.
Qed.

(** Metadata of a container that a later process takes over. *)
Record adoptable (m : ContainerMeta) (st : nexus_state) : Prop := {
  ad_name : IsValidName (m_name m) = true;
  ad_id : plain (m_id m) = true /\ strlen (m_id m) < NEXUS_ID_MAX;
  ad_engine : plain (m_engine m) = true /\ strlen (m_engine m) < NEXUS_PATH_MAX;
  ad_cgroup : plain (m_cgroup m) = true /\ strlen (m_cgroup m) < NEXUS_PATH_MAX;
  ad_memory : 0 <= m_memory m <= ULONG_MAX;
  ad_cpu : 0 <= m_cpu m <= 100;
  ad_pid : LONG_MIN <= m_pid m <= LONG_MAX;
  ad_state : m_state m = int_of_state st }.

(** The container that the metadata describes. *)
Definition restored (m : ContainerMeta) (st : nexus_state) (now : Z) : nexus_container :=
  MkContainer (m_name m) (m_id m) st (m_pid m) (m_memory m) (m_cpu m) (m_cgroup m) (m_engine m) now 0 0 0 0 0 "".

Lemma adoptable_meta_ok m st : adoptable m st -> meta_ok m.
Proof.
  intros [Hn [Hi _] [He _] [Hg _] Hm Hc Hp Hs]. split; try by apply plain_line. 1: by apply plain_line, valid_plain.
  all: try assumption. 1: lia. rewrite Hs. destruct st; simpl; lia.
Qed.

Definition saves (io : manager_io) : Prop := sv_open (io_save io) = true /\ sv_lost (io_save io) = None.

Section Across.
Context {W : Type} `{Os W} (root : string).

Lemma SaveMeta_saves io meta (h : host W) :
  saves io -> SaveMeta root io meta h =
    Some (Done tt, MkHost (<[MetaPath root (m_name meta) := bytes_of (meta_text meta)]> (h_files h)) (h_registry h) (h_os h)).
Proof. intros [Ho Hl]. unfold SaveMeta. by rewrite Ho, Hl. Qed.

Lemma LoadMeta_saved io meta fs r (w : W) :
  io_load io = RdAll -> meta_ok meta -> fs !! MetaPath root (m_name meta) = Some (bytes_of (meta_text meta)) ->
  LoadMeta root io (m_name meta) (MkHost fs r w) = Some (Done (Some meta), MkHost fs r w).
Proof.
  intros Hl Hm Hf. unfold LoadMeta. cbn [h_files]. rewrite Hf, Hl. cbn [mbind option_bind ifstream].
  by rewrite text_of_bytes, parse_meta_text.
Qed.

(** A process with an empty registry takes the container over. *)
Lemma Adopt_saved io meta st fs (w : W) :
  io_load io = RdAll -> adoptable meta st -> fs !! MetaPath root (m_name meta) = Some (bytes_of (meta_text meta)) ->
  Adopt root io (m_name meta) (MkHost fs empty_registry w) =
    Some (Done meta, MkHost fs (set_slot 0 (restored meta st (fst (os_time w))) empty_registry) (snd (os_time w))).
Proof.
  intros Hl Hm Hf. unfold Adopt, mbind at 1, Mgr_bind. rewrite (LoadMeta_saved io meta) by (done || by eapply adoptable_meta_ok).
  cbn [mbind option_bind]. destruct Hm as [Hn [Hi Hil] [He Hel] [Hg Hgl] Hmem Hc Hp Hs].
  rewrite (c_str_plain _ (valid_plain _ Hn)), !c_str_plain by assumption. unfold mbind at 1, Mgr_bind, on_registry. cbn [h_registry h_os h_files].
  unfold container_adopt. rewrite Hs. replace (state_of_int (int_of_state st)) with (Some st) by by destruct st.
  rewrite IsValidName_eq in Hn. rewrite Hn. cbn [negb]. replace (100 <? m_cpu meta) with false by lia.
  assert (forall s max, strlen s < max -> too_long (Some s) max = false) as Htl by (intros s max ?; cbn; lia).
  rewrite !Htl by assumption. change (slot_for empty_registry (m_name meta)) with (Some O).
  unfold Os.call, mbind, M_bind. destruct (os_time w) as [now w'] eqn:E. cbn [mbind option_bind fst snd mret M_ret].
  unfold FromContainerRc, restored, copy_string. rewrite !truncate_fits; [reflexivity|assumption..|]. 
  unfold name_valid in Hn. destruct (_ || _) eqn:Eb; [done|]. apply orb_false_iff in Eb. lia.
Qed.

(** Creating a container in a process with an empty registry. *)
Lemma create_ex_empty nm m c e (w : W) rc r' w' :
  container_create_ex empty_registry (Some nm) m c e None w = Some (rc, r', w') -> rc = NEXUS_OK ->
  name_valid (Some nm) = true /\ c <= 100 /\ too_long e NEXUS_PATH_MAX = false /\
  exists path now g, strlen path < NEXUS_PATH_MAX /\
    r' = set_slot 0 (MkContainer nm (make_id 1) NEXUS_CREATED (-1) m c path (default ""%string e) now 0 0 0 0 0 "")
      (MkRegistry (g_slots empty_registry) 2 g).
Proof.
  unfold container_create_ex. intros HX ->. destruct (name_valid (Some nm)) eqn:En; cbn [negb] in HX; [|discriminate HX].
  destruct (100 <? c) eqn:Ec; [discriminate HX|]. destruct (too_long e NEXUS_PATH_MAX) eqn:Ee; [discriminate HX|].
  change (find_slot empty_registry nm) with (@None (nat * nexus_container)) in HX. change (slot_for empty_registry nm) with (Some O) in HX. cbn iota in HX.
  split; [done|]. split; [lia|]. split; [done|].
  unfold mbind, M_bind in HX. destruct (cgroup_init _ _ w) as [[ig w1]|]; [|discriminate HX].
  destruct (cgroup_create _ _ _ w1) as [[[[rc path] g] w2]|]; [|discriminate HX].
  destruct (rc =? NEXUS_OK) eqn:Er; cbn [negb] in HX; [|injection HX as -> _ _; done].
  destruct (cgroup_set_limits _ _ _ w2) as [[rc2 w3]|]; [|discriminate HX].
  destruct (rc2 =? NEXUS_OK) eqn:Er2; cbn [negb] in HX.
  2: { destruct (cgroup_destroy _ w3) as [[? ?]|]; [|discriminate HX]. injection HX as -> _ _. done. }
  unfold Os.call in HX. destruct (os_time w3) as [now w4]. injection HX as <- <-.
  exists (truncate NEXUS_PATH_MAX (default ""%string path)), now, g. split; [by apply truncate_length|].
  rewrite truncate_fits by by apply name_valid_length. by rewrite too_long_false.
Qed.
End Across.

(** The same container, except for the time it was made at. *)
Definition same_container (c d : nexus_container) : Prop :=
  restored (MkMeta (c_name c) (c_id c) (c_memory_bytes c) (c_cpu_percent c) (c_db_engine c) (c_cgroup_path c) (c_pid c) 0) (c_state c) 0 =
  restored (MkMeta (c_name d) (c_id d) (c_memory_bytes d) (c_cpu_percent d) (c_db_engine d) (c_cgroup_path d) (c_pid d) 0) (c_state d) 0.

Lemma same_container_status c d : same_container c d -> status_text c = status_text d.
Proof. unfold same_container, restored, status_text. by intros [= -> -> -> -> -> -> -> ->]. Qed.

Lemma make_id_1 : plain (make_id 1) = true /\ strlen (make_id 1) < NEXUS_ID_MAX.
Proof. by split. Qed.

Lemma find_first c r g : find_slot (set_slot 0 c (MkRegistry (g_slots empty_registry) r g)) (c_name c) = Some (O, c).
Proof.
  unfold find_slot. change (g_slots _) with (Some c :: replicate 63 (@None nexus_container)). cbn [first_slot has_name].
  by rewrite String.eqb_refl.
Qed.

(** The answer of the status command on a container in the first slot. *)
Lemma status_first c r g : name_valid (Some (c_name c)) = true ->
  container_status (set_slot 0 c (MkRegistry (g_slots empty_registry) r g)) (Some (c_name c)) 512 =
    (if strlen (status_text c) <? 512 then NEXUS_OK else NEXUS_ERR_INVALID, Some (truncate 512 (status_text c))).
Proof.
  intros V. unfold container_status. rewrite V. cbn [negb orb].
  assert (find_slot (set_slot 0 c (MkRegistry (g_slots empty_registry) r g)) (c_name c) = Some (O, c)) as -> by apply find_first.
  unfold snprintf. assert (0 <= strlen (status_text c)) by apply Nat2Z.is_nonneg.
  destruct (strlen (status_text c) <? 512) eqn:E; zb.
  - replace (strlen (status_text c) <? 0) with false by lia. by replace (512 <=? strlen (status_text c)) with false by lia.
  - replace (512 <=? strlen (status_text c)) with true by lia. by rewrite orb_true_r.
Qed.

Section Create.
Context {W : Type} `{Os W} (root : string).

(** What a successful creation leaves in the registry and on disk. *)
Lemma ContainerCreate_leaves io name mem cpu engine fs (w : W) h :
  saves io -> plain engine = true -> ContainerCreate root io name mem cpu engine (MkHost fs empty_registry w) = Some (Done tt, h) ->
  exists path now g w', IsValidName name = true /\ cpu <= 100 /\ strlen engine < NEXUS_PATH_MAX /\ strlen path < NEXUS_PATH_MAX /\
    let meta := MkMeta name (make_id 1) mem cpu engine path (-1) (int_of_state NEXUS_CREATED) in
    h = MkHost (<[MetaPath root name := bytes_of (meta_text meta)]> fs)
          (set_slot 0 (restored meta NEXUS_CREATED now) (MkRegistry (g_slots empty_registry) 2 g)) w'.
Proof.
  intros Hsv He. unfold ContainerCreate. destruct (IsValidName name) eqn:V; cbn [negb]; [|by intros [=]].
  unfold mbind at 1, Mgr_bind at 1, LoadMeta. cbn [mbind option_bind]. destruct (_ ≫= _); [by intros [=]|].
  unfold Init. destruct (io_dir io); cbn [negb]; [|by intros [=]]. rewrite (Mgr_bind_done _ _ _ tt _ eq_refl).
  rewrite on_registry_bind. cbn [h_registry h_os h_files].
  destruct (container_create_ex _ _ _ _ _ _ _) as [[[rc r'] w']|] eqn:E; [|by intros [=]].
  unfold FromContainerRc. destruct (rc =? NEXUS_OK) eqn:Er; [|by intros [=]]. apply Z.eqb_eq in Er.
  apply create_ex_empty in E as (_ & Hc & Hlen & path & now & g & Hp & ->); [|exact Er].
  rewrite c_str_plain in Hlen |- * by done. set (e := if (engine =? "")%string then None else Some engine) in *.
  assert (default ""%string e = engine) as He'.
  { unfold e. destruct (engine =? "")%string eqn:Ee; [|done]. by apply String.eqb_eq in Ee as ->. }
  assert (strlen engine < NEXUS_PATH_MAX) as Hel.
  { rewrite <- He'. destruct e; cbn in Hlen |- *; [lia|done]. }
  rewrite He'. set (c := MkContainer _ _ _ _ _ _ _ _ _ _ _ _ _ _ _).
  rewrite (Mgr_bind_done _ _ _ tt _ eq_refl), on_registry_bind. cbn [h_registry h_os h_files container_get mret M_ret].
  change (find_slot (set_slot 0 c _) name) with (find_slot (set_slot 0 c (MkRegistry (g_slots empty_registry) 2 g)) (c_name c)).
  rewrite find_first. cbn [fmap option_fmap option_map snd].
  rewrite SaveMeta_saves by done. intros [= <-]. exists path, now, g, w'. by split_and!.
Qed.

(** The status command of a process that finds the metadata. *)
Lemma ContainerStatus_saved io meta st fs (w : W) :
  io_load io = RdAll -> adoptable meta st -> fs !! MetaPath root (m_name meta) = Some (bytes_of (meta_text meta)) ->
  let c := restored meta st (fst (os_time w)) in
  let h := MkHost fs (set_slot 0 c empty_registry) (snd (os_time w)) in
  ContainerStatus root io (m_name meta) (MkHost fs empty_registry w) =
    Some (if strlen (status_text c) <? 512 then Done (status_text c)
          else Failed (Err kInvalidArgument (("status container " +:+ m_name meta) +:+ ": invalid argument")), h).
Proof.
  intros Hl Ha Hf c h. unfold ContainerStatus. rewrite (ad_name _ _ Ha). cbn [negb].
  rewrite (Mgr_bind_done _ _ _ _ _ (Adopt_saved root io meta st fs w Hl Ha Hf)), on_registry_bind.
  cbn [h_registry h_os h_files mret M_ret].
  pose proof (ad_name _ _ Ha) as V. rewrite IsValidName_eq in V. fold c.
  change (m_name meta) with (c_name c) in V |- *. 
  pose proof (status_first c 1 "" V) as HS. change (MkRegistry (g_slots empty_registry) 1 "") with empty_registry in HS.
  rewrite HS. cbn [fst snd].
  destruct (strlen (status_text c) <? 512) eqn:E; [|done]. zb. rewrite truncate_fits by done. done.
Qed.
End Create.

(** A container that is adopted has metadata, and adopting changes no file. *)
Lemma Adopt_loads {W} `{Os W} root io name meta (h h' : host W) :
  Adopt root io name h = Some (Done meta, h') -> LoadMeta root io name h = Some (Done (Some meta), h) /\ h_files h' = h_files h.
Proof.
  unfold Adopt. intros ([m|] & h1 & HL & HX)%Mgr_bind_inv; [|by injection HX].
  apply Mgr_bind_inv in HX as (rc & h2 & HR%on_registry_files & HX). apply Mgr_bind_inv in HX as ([] & h3 & ->%FromContainerRc_done & HX).
  injection HX as -> ->. pose proof HL as HL'. unfold LoadMeta in HL'. injection HL' as _ <-. done.
Qed.

(** Starting a container records that it runs. *)
Lemma ContainerStart_records {W} `{Os W} fuel root io name (h h' : host W) :
  saves io -> ContainerStart fuel root io name h = Some (Done tt, h') ->
  IsValidName name = true /\ exists meta pid, LoadMeta root io name h = Some (Done (Some meta), h) /\
    h_files h' = <[MetaPath root (m_name meta) := bytes_of (meta_text (with_run pid NEXUS_RUNNING meta))]> (h_files h).
Proof.
  intros Hsv. unfold ContainerStart. destruct (IsValidName name) eqn:V; cbn [negb]; [|by intros [=]]. intros HX. split; [done|].
  apply Mgr_bind_inv in HX as (meta & h1 & [HL Hf1]%Adopt_loads & HX). destruct (_ =? _); [by injection HX|].
  apply Mgr_bind_inv in HX as (rc & h2 & HR%on_registry_files & HX). apply Mgr_bind_inv in HX as ([] & h3 & ->%FromContainerRc_done & HX).
  apply Mgr_bind_inv in HX as (c & h4 & Hc%on_registry_files & HX). rewrite SaveMeta_saves in HX by done. injection HX as <-.
  exists meta, (match c with Some c => c_pid c | None => -1 end). split; [done|]. cbn [h_files m_name with_run]. by rewrite Hc, HR, Hf1.
Qed.

(** ** What the manager promises *)

(** C14: A container outlives the process that made it.  When [container create]
    succeeds, a later process, whose registry is empty, finds the container
    through the metadata file: it registers a container with the same name, id,
    limits, engine, control group, state and process id, and its status command
    prints the status of the container that was made, or refuses when the text
    does not fit its buffer of 512 bytes. *)
Theorem container_survives_process {W} `{Os W} root io io2 name mem cpu engine fs (w w2 : W) h :
  saves io -> io_load io2 = RdAll -> plain engine = true -> 0 <= mem <= ULONG_MAX -> 0 <= cpu ->
  ContainerCreate root io name mem cpu engine (MkHost fs empty_registry w) = Some (Done tt, h) ->
  exists c, container_get (h_registry h) (Some name) = Some c /\
    c_memory_bytes c = mem /\ c_cpu_percent c = cpu /\ c_db_engine c = engine /\ c_state c = NEXUS_CREATED /\
    (plain (c_cgroup_path c) = true -> exists c2 r2 w3,
      ContainerStatus root io2 name (MkHost (h_files h) empty_registry w2) =
        Some (if strlen (status_text c) <? 512 then Done (status_text c)
              else Failed (Err kInvalidArgument (("status container " +:+ name) +:+ ": invalid argument")), MkHost (h_files h) r2 w3) /\
      container_get r2 (Some name) = Some c2 /\ same_container c c2).
Proof.
  intros Hsv Hl He Hm Hc HX. apply ContainerCreate_leaves in HX as (path & now & g & w' & V & Hcpu & Hel & Hp & ->); [|done..].
  set (meta := MkMeta _ _ _ _ _ _ _ _). set (c := restored meta NEXUS_CREATED now). exists c.
  split; [cbn [h_registry container_get]; change name with (c_name c); by rewrite find_first|]. do 4 (split; [done|]).
  intros Hpl. assert (adoptable meta NEXUS_CREATED) as Ha by (split; first [done|apply make_id_1|simpl; unfold LONG_MIN, LONG_MAX; lia]).
  assert (h_files (MkHost (<[MetaPath root name := bytes_of (meta_text meta)]> fs) (set_slot 0 c (MkRegistry (g_slots empty_registry) 2 g)) w')
    !! MetaPath root (m_name meta) = Some (bytes_of (meta_text meta))) as Hf by apply lookup_insert_eq.
  eexists (restored meta NEXUS_CREATED (fst (os_time w2))), _, _.
  split; [exact (ContainerStatus_saved root io2 meta NEXUS_CREATED _ w2 Hl Ha Hf)|]. split; [|done].
  cbn [container_get]. change name with (c_name (restored meta NEXUS_CREATED (fst (os_time w2)))). by rewrite (find_first _ 1 "").
Qed.

(** C36: The files of different databases are different files.  Two valid names
    and two of the files kept for a name (the database, its log, the file a
    database is created in, the container's metadata) give the same path only
    when they are the same file of the same name, whatever the data root: no
    command on one name reads or writes a file of another. *)
Theorem manager_paths_apart root k1 k2 n1 n2 :
  IsValidName n1 = true -> IsValidName n2 = true ->
  (own_path root k1 n1 = own_path root k2 n2 <-> k1 = k2 /\ n1 = n2).
Proof. intros V1 V2. split; [by apply own_path_inj|by intros [-> ->]]. Qed.

Lemma manager_paths_apart_witness : own_path "/data" OwnDb "a" <> own_path "/data" OwnWal "a" /\ own_path "" OwnDb "a" <> own_path "" OwnDb "b".
Proof.
  split; intros Hx.
  - apply (manager_paths_apart "/data" OwnDb OwnWal "a" "a" eq_refl eq_refl) in Hx as [Hk _]. discriminate Hk.
  - apply (manager_paths_apart "" OwnDb OwnDb "a" "b" eq_refl eq_refl) in Hx as [_ Hn]. discriminate Hn.
Defined.

(** A manager whose files all work. *)
Definition good_manager : manager_io := MkManagerIo RdAll true (MkSave true None) true good_io true.

Definition made : host sim :=
  match ContainerCreate "data" good_manager "db1" 1048576 50 "/bin/engine" (MkHost ∅ empty_registry (boot [])) with
  | Some (_, h) => h
  | None => MkHost ∅ empty_registry (boot [])
  end.

Lemma made_eq :
  ContainerCreate "data" good_manager "db1" 1048576 50 "/bin/engine" (MkHost ∅ empty_registry (boot [])) = Some (Done tt, made).
Proof. vm_compute. reflexivity. Qed.

Lemma container_survives_process_witness : exists c c2 r2 w3,
  ContainerStatus "data" good_manager "db1" (MkHost (h_files made) empty_registry (boot [])) =
    Some (Done (status_text c), MkHost (h_files made) r2 w3) /\
  container_get r2 (Some "db1"%string) = Some c2 /\ same_container c c2 /\ c_memory_bytes c = 1048576.
Proof.
  destruct (container_survives_process "data" good_manager good_manager "db1" 1048576 50 "/bin/engine" ∅ (boot []) (boot []) made
    (conj eq_refl eq_refl) eq_refl eq_refl ltac:(split; discriminate) ltac:(discriminate) made_eq)
    as (c & Hc & Hm & _ & _ & _ & Hs).
  assert (container_get (h_registry made) (Some "db1"%string) = Some c) as Hc' by exact Hc.
  vm_compute in Hc'. injection Hc' as <-.
  destruct (Hs eq_refl) as (c2 & r2 & w3 & HX & Hg & He). eexists _, c2, r2, w3. split; [exact HX|]. split; [exact Hg|]. split; [exact He|exact Hm].
Defined.
