(* ===== verification/Cli.v ===== *)
(** * The shell

    The second half of [src/manager/router.cpp], [Dispatch] and [Run], and the
    program [src/cli/nexusdb_cli.cpp]: a command is carried out by the manager and
    its outcome becomes an exit code and a text. *)

From stdpp Require Import gmap.
From S2P Require Import Prelude Bytes Common CStr Os Cgroup HeapTable Database Router Manager.

Local Open Scope Z_scope.

Record Result := MkResult { exit_code : Z; output : string }.

Definition MapStatus (s : Status) : Result :=
  MkResult match code s with
           | kOk => kExitOk
           | kInvalidArgument => kExitInvalid
           | kNotFound => kExitNotFound
           | _ => kExitError
           end (message s).

Definition HelpText : string :=
  "NexusDB — minimal end-to-end database CLI

Usage:
  nexusdb help
  nexusdb container create <name> [--memory <bytes>] [--cpu <percent>] [--engine <path>]
  nexusdb container start <name>
  nexusdb container stop <name>
  nexusdb container status <name>
  nexusdb container delete <name>
  nexusdb db init <name>
  nexusdb table create <name> <table>
  nexusdb table list <name>
  nexusdb insert <name> <table> <hex-data>
  nexusdb get <name> <table> <page-id> <slot-id>
  nexusdb update <name> <table> <page-id> <slot-id> <hex-data>
  nexusdb delete <name> <table> <page-id> <slot-id>
  nexusdb scan <name> <table>

Records are supplied/returned as hexadecimal (even length). The database
for <name> lives in $NEXUSDB_DATA_ROOT/<name> (default ./nexusdb_data).
A running container holds the database open; stop it before database
commands (there is no client/server protocol).

Exit codes: 0 ok, 1 operational error, 2 usage, 3 invalid argument, 4 not found.
".

(** Texts through [char buf[64]]. *)
Definition buf64 (s : string) : string := truncate 64 s.
Definition record_at (page slot : Z) : string := "page=" +:+ dec page +:+ " slot=" +:+ dec slot.
Definition record_line (page slot : Z) (data : list Z) : string :=
  buf64 (record_at page slot +:+ " len=" +:+ dec (zlen data) +:+ " hex=") +:+ HexEncode data.

Definition list_output (tables : list (list Z)) : string :=
  match tables with
  | [] => "no tables"
  | t :: rest => foldl (fun out t => out +:+ newline +:+ text_of t) (text_of t) rest
  end.
Definition scan_output (records : list ScanRecord) : string :=
  match records with
  | [] => "no records"
  | _ => foldl (fun out r => out +:+ record_line (HeapTable.page (fst r)) (HeapTable.slot (fst r)) (snd r) +:+ newline) "" records
  end.

Section Dispatch.
Context {W : Type} `{Os W} (fuel : nat) (data_root : string) (want : option string) (io : manager_io).

(** [if (!s.ok()) return (MapStatus(s, &result), result);] and what follows. *)
Definition attempt {A} (m : Mgr W A) (text : A -> string) : Mgr W Result := fun h =>
  '(r, h) ← m h;
  Some (match r with
        | Done x => Done (MkResult kExitOk (text x))
        | Failed s => Done (MapStatus s)
        | Database.Exited c => Database.Exited c
        end, h).

(** [mgr] says that the manager is not null. *)
Definition Dispatch (mgr : bool) (c : Command) : Mgr W Result :=
  if negb mgr then mret (MkResult kExitError "internal: null manager") else
  let n := cmd_name c in
  let t := cmd_table c in
  match cmd_kind c with
  | kHelp => mret (MkResult kExitOk HelpText)
  | kContainerCreate =>
      attempt (ContainerCreate data_root io n (cmd_memory c) (cmd_cpu c) (cmd_engine c)) (fun _ => "created container " +:+ n)
  | kContainerStart => attempt (ContainerStart fuel data_root io n) (fun _ => "started container " +:+ n)
  | kContainerStop => attempt (ContainerStop data_root io n) (fun _ => "stopped container " +:+ n)
  | kContainerDelete => attempt (ContainerDelete data_root io n) (fun _ => "deleted container " +:+ n)
  | kContainerStatus => attempt (ContainerStatus data_root io n) (fun text => text)
  | kDbInit => attempt (DbInit data_root want io n) (fun _ => "initialized database " +:+ n)
  | kTableCreate => attempt (TableCreate data_root want io n t) (fun _ => "created table " +:+ n +:+ "." +:+ t)
  | kTableList => attempt (TableList data_root want io n) list_output
  | kInsert =>
      attempt (Manager.Insert data_root want io n t (cmd_data c))
        (fun id => buf64 ("inserted " +:+ record_at (HeapTable.page id) (HeapTable.slot id)))
  | kGet =>
      attempt (Manager.Get data_root want io n t (cmd_page c) (cmd_slot c))
        (fun data => record_line (cmd_page c) (cmd_slot c) data)
  | kUpdate =>
      attempt (Manager.Update data_root want io n t (cmd_page c) (cmd_slot c) (cmd_data c))
        (fun _ => buf64 ("updated " +:+ record_at (cmd_page c) (cmd_slot c)))
  | kDelete =>
      attempt (Manager.Delete data_root want io n t (cmd_page c) (cmd_slot c))
        (fun _ => buf64 ("deleted " +:+ record_at (cmd_page c) (cmd_slot c)))
  | kScan => attempt (Manager.Scan data_root want io n t) scan_output
  end.

Definition Run (mgr : bool) (args : list string) : Mgr W Result :=
  let '(rc, cmd, error) := ParseArgs args (Some Command0) in
  if negb (rc =? kExitOk) then mret (MkResult rc (default "" error)) else
  Dispatch mgr cmd.
End Dispatch.

(** ** The program *)

Inductive stream := StdOut | StdErr.

Fixpoint last_char (s : string) : option Ascii.ascii :=
  match s with
  | EmptyString => None
  | String c EmptyString => Some c
  | String _ s => last_char s
  end.

(** What the program prints and where, and its exit code. *)
Definition main {W} `{Os W} (fuel : nat) (env want : option string) (io : manager_io) (args : list string)
    : Mgr W (option (stream * string) * Z) :=
  result ← Run fuel (Manager env "") want io true args;
  let out := output result in
  let text := c_str out +:+ (if bool_decide (last_char out = Some (Ascii.ascii_of_nat 10)) then "" else newline) in
  mret (if (out =? "")%string then None
        else Some (if exit_code result =? kExitOk then StdOut else StdErr, text), exit_code result).
