(* ===== verification/CliSpec.v ===== *)
(** * The shell, end to end

    A command on the database of a name, run by a process of its own on a
    directory where nothing fails: it opens the database, makes one call and
    closes it.  What it prints is the answer of the list of tables that the files
    hold, and the files then hold the tables after the call. *)

From stdpp Require Import gmap.
From S2P Require Import Prelude Bytes Common CStr Os Sim Cgroup Container PageStorage BufferPool BufferPoolSpec Wal WalSpec Recovery PageAccess.
From S2P Require Import HeapTable HeapTableMap Catalog CatalogSpec QueryExecutor QueryExecutorSpec LoggedPool.
From S2P Require Import Database DatabaseOpen DatabaseCreate DatabaseSpec Router Manager ManagerSpec Cli.

Local Open Scope Z_scope.

(** ** Commands and the tables they work on *)

Definition db_command (c : Command) : bool :=
  match cmd_kind c with
  | kDbInit | kTableCreate | kTableList | kInsert | kGet | kUpdate | kDelete | kScan => true
  | _ => false
  end.

(** The call a command stands for; [db init] makes none. *)
Definition as_op (c : Command) : option exec_op :=
  let t := bytes_of (cmd_table c) in
  let id := MkRecordId (cmd_page c) (cmd_slot c) in
  match cmd_kind c with
  | kTableCreate => Some (XCreateTable t)
  | kTableList => Some XListTables
  | kInsert => Some (XOn t (HInsert (Some (cmd_data c))))
  | kGet => Some (XOn t (HGet id))
  | kUpdate => Some (XOn t (HUpdate id (Some (cmd_data c))))
  | kDelete => Some (XOn t (HDelete id))
  | kScan => Some (XOn t HScan)
  | _ => None
  end.

(** What the shell prints for an answer. *)
Definition print (c : Command) (r : exec_res) : Result :=
  let said s text := if ok s then MkResult kExitOk text else MapStatus s in
  match r with
  | YStatus s => said s ("created table " +:+ cmd_name c +:+ "." +:+ cmd_table c)
  | YTables (s, names) => said s (list_output names)
  | YOn (RInsert s id) => said s (buf64 ("inserted " +:+ record_at (HeapTable.page id) (HeapTable.slot id)))
  | YOn (RStatus s) =>
      said s (buf64 ((if decide (cmd_kind c = kUpdate) then "updated " else "deleted ") +:+ record_at (cmd_page c) (cmd_slot c)))
  | YOn (RGet (inr data)) => MkResult kExitOk (record_line (cmd_page c) (cmd_slot c) data)
  | YOn (RScan (inr records)) => MkResult kExitOk (scan_output records)
  | YOn (RGet (inl s)) | YOn (RScan (inl s)) => MapStatus s
  | YExists _ => MkResult kExitOk ""
  end.

(** A command, its result, and the tables before and after. *)
Definition shell_step (c : Command) (res : Result) (m m' : tables) : Prop :=
  match as_op c with
  | Some o => exists r, tables_step True o r m m' /\ res = print c r
  | None => res = MkResult kExitOk ("initialized database " +:+ cmd_name c) /\ m' = m
  end.

(** ** What the directory holds *)

(** The database of a name has the tables [m]; one that was never opened has
    none. *)
Definition db_holds (root : string) (fs : files) (name : string) (m : tables) : Prop :=
  holds_db fs (db_path root name) (wal_path root name) m \/ (fresh_path fs (db_path root name) /\ m = []).

(** No metadata file says that the container of the name runs. *)
Definition not_running (root : string) (fs : files) (name : string) : Prop :=
  match fs !! MetaPath root name with
  | Some bytes => m_state (parse_meta name (text_of bytes)) <> int_of_state NEXUS_RUNNING
  | None => True
  end.

(** The database file is not as large as a file can be. *)
Definition db_small (root : string) (fs : files) (name : string) : Prop :=
  npages (as_storage (default [] (fs !! db_path root name))) <= kInvalidId - 4.

Definition manager_works (io : manager_io) : Prop :=
  io_load io = RdAll /\ io_dir io = true /\ open_works (io_open io) /\ io_reopen io = true.

(** Only the files of the database [name] may differ. *)
Definition only_db (root name : string) (fs fs' : files) : Prop :=
  forall p, (forall k, k <> OwnMeta -> p <> own_path root k name) -> fs' !! p = fs !! p.

Lemma name_args root name : IsValidName name = true -> args_ok (db_path root name) (wal_path root name) kDefaultPoolFrames.
Proof.
  intros V. assert (forall k1 k2, k1 <> k2 -> own_path root k1 name <> own_path root k2 name) as Hne.
  { intros k1 k2 Hk [? _]%own_path_inj; done. }
  assert (forall k, own_path root k name <> ""%string) as Hn.
  { intros k. rewrite own_path_eq by done. destruct (dir_prefix root); [|done]. destruct (valid_name_chars name V) as (Hx & _).
    destruct k; destruct name; done. }
  split; [exact (Hn OwnDb)|]. split; [exact (Hn OwnWal)|]. split; [exact (Hne OwnDb OwnWal ltac:(done))|].
  split; [exact (Hne OwnWal OwnNew ltac:(done))|done].
Qed.

Section Calls.
Context {W : Type} `{Os W} (fuel : nat) (root : string) (io : manager_io) (name : string).
Context (V : IsValidName name = true) (Wk : manager_works io).

Lemma OpenDb_works (h : host W) m :
  not_running root (h_files h) name -> db_holds root (h_files h) name m ->
  exists d fs', OpenDb root None io name h = Some (Done d, MkHost fs' (h_registry h) (h_os h)) /\
    serves_well d m /\ only_db root name (h_files h) fs'.
Proof.
  intros Hr Hm. destruct Wk as (Hl & Hd & Ho & _). destruct (name_args root name V) as (H1 & H2 & H3 & H4 & H5).
  assert (exists d fs', Database.Open (io_open io) None (db_path root name) (wal_path root name) kDefaultPoolFrames true (h_files h) =
    Some (Done d, fs') /\ serves_well d m /\ forall p, p <> db_path root name -> p <> wal_path root name ->
      p <> tmp_of (db_path root name) -> fs' !! p = h_files h !! p) as (d & fs' & HO & Hs & Hoth).
  { destruct Hm as [(bytes & rs & tail & rt & F & _)|[Hf ->]].
    - destruct (Open_holding (io_open io) _ _ kDefaultPoolFrames (h_files h) _ _ _ _ m (name_args root name V) Ho F) as (d & fs' & ? & _ & ? & ?).
      by exists d, fs'.
    - destruct (Open_new (io_open io) _ _ kDefaultPoolFrames (h_files h) (name_args root name V) Ho Hf) as (d & fs' & ? & _ & ? & ?).
      by exists d, fs'. }
  exists d, fs'. split.
  - unfold OpenDb. rewrite V. cbn [negb]. unfold mbind at 1, Mgr_bind, LoadMeta. rewrite Hl. cbn [mbind option_bind].
    assert (match (bytes ← h_files h !! MetaPath root name; inp ← ifstream RdAll bytes; Some (parse_meta name (text_of inp))) with
      | Some meta => m_state meta =? int_of_state NEXUS_RUNNING | None => false end = false) as Hnr.
    { unfold not_running in Hr. destruct (h_files h !! MetaPath root name) as [bytes|]; [|done]. cbn [mbind option_bind ifstream]. lia. }
    rewrite Hnr, Hd. cbn [negb]. unfold on_disk. rewrite HO. done.
  - split; [exact Hs|]. intros p Hp. apply Hoth; [exact (Hp OwnDb ltac:(done))|exact (Hp OwnWal ltac:(done))|exact (Hp OwnNew ltac:(done))].
Qed.

Lemma destroy_closed d : pool_ d = None -> st_open (storage_ d) = false -> w_open (wal_ d) = false ->
  storage_ (destroy d) = storage_ d /\ wal_ (destroy d) = wal_ d.
Proof. intros Hp Hs Hw. unfold destroy. rewrite Hp. cbn. unfold PageStorage.Close, Wal.Close. by rewrite Hs, Hw. Qed.

(** One call of the executor in a process of its own. *)
Lemma call_exact {A B} (o : exec_op) (f : QueryExecutor * db logged -> option (A * (QueryExecutor * db logged)))
    (conv : A -> exec_res) (k : A -> Status -> Mgr W B) (h : host W) m :
  (forall s, exec_step o s = '(x, s) ← f s; Some (conv x, s)) -> exec_op_ok o ->
  not_running root (h_files h) name -> db_holds root (h_files h) name m ->
  exists x m' fs', (d ← OpenDb root None io name; '(x, d) ← executor f d; close ← close_db root io name d; k x close) h =
      k x StatusOk (MkHost fs' (h_registry h) (h_os h)) /\
    tables_step True o (conv x) m m' /\ only_db root name (h_files h) fs' /\ (db_small root fs' name -> db_holds root fs' name m').
Proof.
  intros Hf Ho Hr Hm. destruct (OpenDb_works h m Hr Hm) as (d & fs1 & HO & Hs & Honly).
  destruct (call_and_close d m o Hs Ho) as (bp0 & q0 & r & q & bp & e & m' & d' & Hp0 & Hq0 & Hx & M & HC & Hp & Hso & Hwo & Hl & Hh).
  rewrite Hf in Hx. destruct (f _) as [[x s']|] eqn:Ef; cbn [mbind option_bind] in Hx; [|done]. injection Hx as <- ->.
  set (fs' := on_files (db_path root name) (wal_path root name) (storage_ d') (wal_ d') fs1). exists x, m', fs'.
  destruct (name_args root name V) as (_ & _ & Hne & _ & _). split; [|split; [exact M|split]].
  - rewrite (Mgr_bind_done _ _ _ _ _ HO).
    rewrite (Mgr_bind_done _ _ _ (x, MkDatabase (lg_storage e) (lg_wal e) (Some bp) (Some q) (catalog_root_ d)) (MkHost fs1 (h_registry h) (h_os h))).
    2: { unfold executor. rewrite Hp0, Hq0. cbn [mbind option_bind]. by rewrite Ef. }
    rewrite (Mgr_bind_done _ _ _ StatusOk (MkHost fs' (h_registry h) (h_os h))); [done|].
    unfold close_db. destruct Wk as (_ & _ & _ & ->). rewrite HC.
    destruct (destroy_closed d' Hp Hso Hwo) as [-> ->]. done.
  - intros p Hpp. unfold fs', on_files. rewrite !lookup_insert_ne; [by apply Honly|..]; intros <-.
    + exact (Hpp OwnDb ltac:(done) eq_refl).
    + exact (Hpp OwnWal ltac:(done) eq_refl).
  - assert (fs' !! db_path root name = Some (st_bytes (storage_ d'))) as Hfd.
    { unfold fs', on_files. rewrite lookup_insert_ne by congruence. apply lookup_insert_eq. }
    assert (fs' !! wal_path root name = Some []) as Hfw by (unfold fs', on_files; by rewrite lookup_insert_eq, Hl).
    unfold db_small. rewrite Hfd. intros Hsm. left. apply Hh; [exact Hsm|exact Hfd|by rewrite Hfw].
Qed.

(** A call whose result is the rest of a manager's method. *)
Lemma attempt_call {A B} (o : exec_op) f (conv : A -> exec_res) (s_of : A -> Status) (v : A -> B)
    (k : A -> Status -> Mgr W B) (text : B -> string) c (h : host W) m :
  (forall s, exec_step o s = '(x, s) ← f s; Some (conv x, s)) -> exec_op_ok o -> as_op c = Some o ->
  (forall x h, k x StatusOk h = Some (if ok (s_of x) then Done (v x) else Failed (s_of x), h)) ->
  (forall x m', tables_step True o (conv x) m m' ->
     print c (conv x) = if ok (s_of x) then MkResult kExitOk (text (v x)) else MapStatus (s_of x)) ->
  not_running root (h_files h) name -> db_holds root (h_files h) name m ->
  exists res m' fs', attempt (d ← OpenDb root None io name; '(x, d) ← executor f d; close ← close_db root io name d; k x close)
      text h = Some (Done res, MkHost fs' (h_registry h) (h_os h)) /\
    shell_step c res m m' /\ only_db root name (h_files h) fs' /\ (db_small root fs' name -> db_holds root fs' name m').
Proof.
  intros Hf Ho Hc Hk Hp Hr Hm.
  destruct (call_exact o f conv k h m Hf Ho Hr Hm) as (x & m' & fs' & HX & M & Hi & Hh).
  exists (print c (conv x)), m', fs'. split; [|split; [|by split]].
  - unfold attempt. rewrite HX, Hk, (Hp x m' M). by destruct (ok (s_of x)).
  - unfold shell_step. rewrite Hc. by exists (conv x).
Qed.

Lemma DbInit_exact (h : host W) m :
  not_running root (h_files h) name -> db_holds root (h_files h) name m ->
  exists m' fs', DbInit root None io name h = Some (Done tt, MkHost fs' (h_registry h) (h_os h)) /\ same_tables m' m /\
    only_db root name (h_files h) fs' /\ (db_small root fs' name -> db_holds root fs' name m').
Proof.
  intros Hr Hm. destruct (call_exact XListTables (fun s => Some (ListTables true (fst s), s)) YTables (fun _ => first_error StatusOk) h m)
    as ([s l] & m' & fs' & HX & M & Hi & Hh); [done..|]. cbn [tables_step] in M. exists m', fs'. split; [|by destruct M].
  unfold DbInit. destruct (OpenDb_works h m Hr Hm) as (d & fs1 & HO & (c & bp & q & ? & ? & ? & S) & _).
  rewrite (Mgr_bind_done _ _ _ _ _ HO) in HX. rewrite (Mgr_bind_done _ _ _ _ _ HO). unfold executor in HX. unfold mbind in HX at 1. unfold Mgr_bind at 1 in HX.
  rewrite (sv_pool _ _ _ _ _ _ _ _ _ S), (sv_executor _ _ _ _ _ _ _ _ _ S) in HX. cbn [mbind option_bind lg_storage lg_wal] in HX.
  assert (MkDatabase (storage_ d) (wal_ d) (Some bp) (Some q) (catalog_root_ d) = d) as Hd.
  { rewrite <- (sv_pool _ _ _ _ _ _ _ _ _ S), <- (sv_executor _ _ _ _ _ _ _ _ _ S). by destruct d. }
  rewrite Hd in HX. exact HX.
Qed.
End Calls.

(** ** Commands *)

Lemma command_op_ok c o : command_ok c -> as_op c = Some o -> exec_op_ok o.
Proof.
  unfold command_ok, as_op. destruct c as [k n t d p s mm u e]. cbn [cmd_kind cmd_name cmd_table cmd_data cmd_page cmd_slot].
  destruct k; intros Hc [= <-]; try done; cbn; unfold record_id_ok, record_data_ok, id_ok, SlottedPage.kInvalidSlot in *; cbn in *.
  - apply Hc.
  - destruct Hc as (_ & _ & Hs). lia.
  - destruct Hc as (_ & (_ & Hs) & Hd & _). split; [lia|exact Hd].
  - destruct Hc as (_ & _ & Hs). lia.
Qed.

(** An answer that carries no records is an error. *)
Lemma no_answer sure name id s m m' : tables_step sure (XOn name (HGet id)) (YOn (RGet (inl s))) m m' -> ok s = false.
Proof. intros [(_ & _ & Hs)|(? & ? & ? & ? & _ & _ & Hs & _)]; [|exact Hs]. cbn in Hs. unfold ok. by rewrite Hs. Qed.
Lemma no_records sure name s m m' : tables_step sure (XOn name HScan) (YOn (RScan (inl s))) m m' -> ok s = false.
Proof. intros [(_ & _ & Hs)|(? & ? & ? & ? & _ & _ & Hs & _)]; [|exact Hs]. cbn in Hs. unfold ok. by rewrite Hs. Qed.

(** A method that ends with [first_error] and hands out [v]. *)
Lemma first_error_then {W B} (s : Status) (v : B) (h : host W) :
  (first_error s StatusOk ;; mret v) h = Some (if ok s then Done v else Failed s, h).
Proof. unfold first_error. by destruct (ok s). Qed.

Lemma first_error_only {W} (s : Status) (h : host W) : first_error s StatusOk h = Some (if ok s then Done tt else Failed s, h).
Proof. unfold first_error. by destruct (ok s). Qed.

Section Commands.
Context {W : Type} `{Os W} (fuel : nat) (root : string) (io : manager_io).

Lemma Dispatch_db c (h : host W) m :
  db_command c = true -> command_ok c -> IsValidName (cmd_name c) = true -> manager_works io ->
  not_running root (h_files h) (cmd_name c) -> db_holds root (h_files h) (cmd_name c) m ->
  exists res m' fs', Dispatch fuel root None io true c h = Some (Done res, MkHost fs' (h_registry h) (h_os h)) /\
    shell_step c res m m' /\ only_db root (cmd_name c) (h_files h) fs' /\
    (db_small root fs' (cmd_name c) -> db_holds root fs' (cmd_name c) m').
Proof.
  intros Hdb Hc V Wk Hr Hm. pose proof (command_op_ok c) as Hop.
  unfold Dispatch. cbn [negb]. destruct (cmd_kind c) eqn:Ek; try (unfold db_command in Hdb; rewrite Ek in Hdb; discriminate Hdb).
  all: try (assert (exists o, as_op c = Some o) as [o Ho] by (unfold as_op; rewrite Ek; by eexists); specialize (Hop o Hc Ho);
            pose proof Ho as Ho'; unfold as_op in Ho'; rewrite Ek in Ho'; injection Ho' as <-).
  - destruct (DbInit_exact root io (cmd_name c) V Wk h m Hr Hm) as (m' & fs' & HX & Hs & Hi & Hh).
    eexists _, m, fs'. split; [unfold attempt; by rewrite HX|]. split; [unfold shell_step, as_op; rewrite Ek; done|]. split; [done|].
    intros Hsm. destruct (Hh Hsm) as [(bytes & rs & tail & rt & F & H0)|[Hf ->]].
    + left. exists bytes, rs, tail, rt. split; [|done]. eapply db_files_tables; [|exact F]. by symmetry.
    + right. split; [done|]. by inversion Hs.
  - refine (attempt_call root io _ V Wk _ _ (fun r => YStatus (status r)) status (fun _ => tt) (fun r => first_error (status r)) _ c h m _ Hop Ho _ _ Hr Hm);
      [intros s; reflexivity|by intros; apply first_error_only|done].
  - refine (attempt_call root io _ V Wk _ _ YTables fst snd (fun r close => first_error (fst r) close ;; mret (snd r)) _ c h m _ Hop Ho _ _ Hr Hm);
      [intros s; reflexivity|by intros; apply first_error_then|by intros [s l] m' _].
  - refine (attempt_call root io _ V Wk _ _ (fun r => YOn match r with inl s => RInsert s RecordId0 | inr (s, id) => RInsert s id end)
      (fun r => match r with inl s => s | inr (s, _) => s end) (fun r => match r with inl _ => RecordId0 | inr (_, id) => id end)
      (fun r close => first_error (match r with inl s => s | inr (s, _) => s end) close ;; mret (match r with inl _ => RecordId0 | inr (_, id) => id end)) _ c h m _ Hop Ho _ _ Hr Hm);
      [|by intros; apply first_error_then|by intros [s|[s id]] m' _].
    intros s. cbn [exec_step record_step]. by destruct (QueryExecutor.Insert _ _ _ s) as [[? ?]|].
  - refine (attempt_call root io _ V Wk _ _ (fun r => YOn (RGet r)) status (fun r => match r with inl _ => [] | inr data => data end)
      (fun r close => first_error (status r) close ;; mret (match r with inl _ => [] | inr data => data end)) _ c h m _ Hop Ho _ _ Hr Hm);
      [|by intros; apply first_error_then| ].
    + intros s. cbn [exec_step record_step]. by destruct (QueryExecutor.Get _ _ _ s) as [[? ?]|].
    + intros [s|data] m' M; [|done]. cbn [status print]. by rewrite (no_answer _ _ _ _ _ _ M).
  - refine (attempt_call root io _ V Wk _ _ (fun r => YOn (RStatus (status r))) status (fun _ => tt) (fun r => first_error (status r)) _ c h m _ Hop Ho _ _ Hr Hm);
      [|by intros; apply first_error_only| ].
    + intros s. cbn [exec_step record_step]. by destruct (QueryExecutor.Update _ _ _ s) as [[? ?]|].
    + intros x m' _. unfold print. by rewrite Ek.
  - refine (attempt_call root io _ V Wk _ _ (fun r => YOn (RStatus (status r))) status (fun _ => tt) (fun r => first_error (status r)) _ c h m _ Hop Ho _ _ Hr Hm);
      [|by intros; apply first_error_only| ].
    + intros s. cbn [exec_step record_step]. by destruct (QueryExecutor.Delete _ _ s) as [[? ?]|].
    + intros x m' _. unfold print. by rewrite Ek.
  - refine (attempt_call root io _ V Wk _ _ (fun r => YOn (RScan r)) status (fun r => match r with inl _ => [] | inr l => l end)
      (fun r close => first_error (status r) close ;; mret (match r with inl _ => [] | inr l => l end)) _ c h m _ Hop Ho _ _ Hr Hm);
      [|by intros; apply first_error_then| ].
    + intros s. cbn [exec_step record_step]. by destruct (QueryExecutor.Scan _ _ _ s) as [[? ?]|].
    + intros [s|data] m' M; [|done]. cbn [status print]. by rewrite (no_records _ _ _ _ _ M).
Qed.

(** A command whose database does not open changes nothing. *)
Lemma Dispatch_refused c (h : host W) s :
  db_command c = true -> OpenDb root None io (cmd_name c) h = Some (Failed s, h) ->
  Dispatch fuel root None io true c h = Some (Done (MapStatus s), h).
Proof.
  intros Hdb HO. unfold db_command in Hdb. unfold Dispatch, attempt. cbn [negb].
  destruct (cmd_kind c); try discriminate Hdb;
    unfold DbInit, TableCreate, TableList, Manager.Insert, Manager.Get, Manager.Update, Manager.Delete, Manager.Scan;
    unfold mbind at 2, Mgr_bind; rewrite HO; reflexivity.
Qed.

Lemma OpenDb_invalid name (h : host W) :
  IsValidName name = false -> OpenDb root None io name h = Some (Failed (Err kInvalidArgument ("invalid database name: " +:+ name)), h).
Proof. intros V. unfold OpenDb. by rewrite V. Qed.

Lemma OpenDb_running name (h : host W) bytes :
  IsValidName name = true -> io_load io = RdAll -> h_files h !! MetaPath root name = Some bytes ->
  m_state (parse_meta name (text_of bytes)) = int_of_state NEXUS_RUNNING ->
  exists s, code s = kBadState /\ OpenDb root None io name h = Some (Failed s, h).
Proof.
  intros V Hl Hf Hs. unfold OpenDb. rewrite V. cbn [negb]. unfold mbind at 1, Mgr_bind, LoadMeta. rewrite Hl, Hf.
  cbn [mbind option_bind ifstream]. rewrite Hs, Z.eqb_refl. eexists. split; [|reflexivity]. done.
Qed.
End Commands.

(** ** Processes *)

Definition is_container (k : CommandKind) : bool :=
  match k with
  | kContainerCreate | kContainerStart | kContainerStop | kContainerDelete | kContainerStatus => true
  | _ => false
  end.

(** The tables of every database, by name. *)
Definition databases : Type := string -> tables.

(** What a command line that is no container command answers, and the databases
    after it. *)
Definition line_step (args : list string) (res : Result) (dbs dbs' : databases) : Prop :=
  let '(rc, c, msg) := ParseArgs args (Some Command0) in
  if negb (rc =? kExitOk) then res = MkResult rc (default ""%string msg) /\ dbs' = dbs
  else match cmd_kind c with
  | kHelp => res = MkResult kExitOk HelpText /\ dbs' = dbs
  | _ =>
      if IsValidName (cmd_name c) then
        shell_step c res (dbs (cmd_name c)) (dbs' (cmd_name c)) /\ forall n, n <> cmd_name c -> dbs' n = dbs n
      else exit_code res = kExitInvalid /\ dbs' = dbs
  end.

Inductive line_run : list (list string) -> list Result -> databases -> databases -> Prop :=
  | line_run_nil dbs : line_run [] [] dbs dbs
  | line_run_cons args argss res ress dbs dbs1 dbs' :
      line_step args res dbs dbs1 -> line_run argss ress dbs1 dbs' -> line_run (args :: argss) (res :: ress) dbs dbs'.

(** The files hold the databases, and no container runs. *)
Definition all_hold (root : string) (fs : files) (dbs : databases) : Prop :=
  forall n, IsValidName n = true -> not_running root fs n /\ db_holds root fs n (dbs n).

(** A sequence of processes on the same files, each with its own registry and
    its own run of the system calls. *)
Fixpoint shell {W} `{Os W} (fuel : nat) (root : string) (runs : list (manager_io * W * list string)) (fs : files)
    : option (list Result * files) :=
  match runs with
  | [] => Some ([], fs)
  | (io, w, args) :: runs =>
      match Run fuel root None io true args (MkHost fs empty_registry w) with
      | Some (Done res, h) => '(ress, fs) ← shell fuel root runs (h_files h); Some (res :: ress, fs)
      | _ => None
      end
  end.

Definition no_container (args : list string) : bool :=
  let '(_, c, _) := ParseArgs args (Some Command0) in negb (is_container (cmd_kind c)).

Lemma only_db_others root name n fs fs' dbs :
  IsValidName name = true -> IsValidName n = true -> n <> name -> only_db root name fs fs' ->
  not_running root fs n /\ db_holds root fs n dbs -> not_running root fs' n /\ db_holds root fs' n dbs.
Proof.
  intros V Vn Hne Ho. assert (forall k, fs' !! own_path root k n = fs !! own_path root k n) as Heq.
  { intros k. apply Ho. intros k' _ [_ ?]%own_path_inj; done. }
  pose proof (Heq OwnMeta) as Hm. pose proof (Heq OwnDb) as Hd. pose proof (Heq OwnWal) as Hw. cbn [own_path] in Hm, Hd, Hw.
  intros [Hr Hh]. split; [unfold not_running; by rewrite Hm|].
  destruct Hh as [(bytes & rs & tail & rt & F & H0)|[Hf ->]]; [left|right].
  - exists bytes, rs, tail, rt. split; [|done]. destruct F as [F1 F2 F3 F4 F5 F6 F7 F8 F9]. split; [by rewrite Hd|done|done|by rewrite Hw|done..].
  - split; [|done]. unfold fresh_path. by rewrite Hd.
Qed.

Lemma only_db_running root name fs fs' :
  IsValidName name = true -> only_db root name fs fs' -> not_running root fs name -> not_running root fs' name.
Proof.
  intros V Ho. assert (fs' !! MetaPath root name = fs !! MetaPath root name) as Hm.
  { apply Ho. intros k Hk Hp. apply (own_path_inj root OwnMeta k) in Hp as [? _]; congruence. }
  unfold not_running. by rewrite Hm.
Qed.

Section Lines.
Context {W : Type} `{Os W} (fuel : nat) (root : string).

(** One process. *)
Lemma Run_line io args (h : host W) dbs :
  manager_works io -> no_container args = true -> all_hold root (h_files h) dbs ->
  exists res dbs' fs', Run fuel root None io true args h = Some (Done res, MkHost fs' (h_registry h) (h_os h)) /\
    line_step args res dbs dbs' /\ (all_hold root fs' dbs' \/ exists n, IsValidName n = true /\ ~ db_small root fs' n).
Proof.
  intros Wk Hnc Hh. unfold Run, line_step. pose proof (ParseArgs_ok args) as Ha. unfold no_container in Hnc.
  destruct (ParseArgs args (Some Command0)) as [[rc c] msg].
  destruct (rc =? kExitOk) eqn:Erc; cbn [negb].
  2: { destruct h as [fs r w]. exists (MkResult rc (default ""%string msg)), dbs, fs. split; [done|]. split; [done|by left]. }
  destruct Ha as [(_ & _ & Hc)|([->| ->] & _)]; [|done|done].
  destruct (decide (cmd_kind c = kHelp)) as [Ek|Ek].
  { unfold Dispatch. rewrite Ek. cbn [negb]. destruct h as [fs r w]. eexists _, dbs, fs. split; [done|]. split; [done|by left]. }
  assert (db_command c = true) as Hdb by (unfold db_command; destruct (cmd_kind c); done).
  destruct (IsValidName (cmd_name c)) eqn:V.
  - destruct (Hh _ V) as [Hr Hd].
    destruct (Dispatch_db fuel root io c h _ Hdb Hc V Wk Hr Hd) as (res & m' & fs' & HX & Hs & Ho & Hsm).
    exists res, (fun n => if decide (n = cmd_name c) then m' else dbs n), fs'. split; [exact HX|]. split.
    + assert (shell_step c res (dbs (cmd_name c)) m' /\ forall n, n <> cmd_name c ->
        (fun n => if decide (n = cmd_name c) then m' else dbs n) n = dbs n) as Hl.
      { split; [exact Hs|]. intros n Hn. cbn beta. by rewrite decide_False. }
      rewrite decide_True by done. destruct (cmd_kind c); (exact Hl || done).
    + destruct (decide (npages (as_storage (default [] (fs' !! db_path root (cmd_name c)))) <= kInvalidId - 4)) as [Hle|Hgt]; [left|right; by eexists].
      intros n Vn. destruct (decide (n = cmd_name c)) as [->|Hne].
      * split; [by eapply only_db_running|by apply Hsm].
      * eapply only_db_others; [exact V|exact Vn|exact Hne|exact Ho|by apply Hh].
  - rewrite (Dispatch_refused fuel root io c h _ Hdb (OpenDb_invalid root io _ h V)). destruct h as [fs r w].
    eexists _, dbs, fs. split; [done|]. split; [|by left]. by destruct (cmd_kind c).
Qed.
End Lines.

(** ** What the shell promises *)

(** C1: The shell keeps databases of tables.  Run any sequence of processes, each
    with its own command line other than a container command, on files where
    nothing fails: every process answers, with the text and exit code that the
    databases, as lists of tables of records by name, give for its command, and
    the files hold the databases after it.  A line that is no command, or that
    names no valid database, is answered with an error and changes nothing, and
    a command changes no other database.  The processes go on to the end, or to
    one that leaves a database file within four pages of the largest one. *)
Theorem shell_refines_databases {W} `{Os W} fuel root (runs : list (manager_io * W * list string)) fs dbs :
  Forall (fun '(io, _, args) => manager_works io /\ no_container args = true) runs -> all_hold root fs dbs ->
  exists ran rest ress fs' dbs', runs = ran ++ rest /\ shell fuel root ran fs = Some (ress, fs') /\
    line_run (snd <$> ran) ress dbs dbs' /\
    ((rest = [] /\ all_hold root fs' dbs') \/ exists n, IsValidName n = true /\ ~ db_small root fs' n).
Proof.
  revert fs dbs. induction runs as [|[[io w] args] runs IH]; intros fs dbs Hr Hh.
  { exists [], [], [], fs, dbs. split; [done|]. split; [done|]. split; [constructor|by left]. }
  apply Forall_cons in Hr as [[Wk Hnc] Hr].
  destruct (Run_line fuel root io args (MkHost fs empty_registry w) dbs Wk Hnc Hh) as (res & dbs1 & fs1 & HX & Hl & [Hh1|Hbig]).
  - destruct (IH fs1 dbs1 Hr Hh1) as (ran & rest & ress & fs' & dbs' & -> & Hs & Hrun & Hend).
    exists ((io, w, args) :: ran), rest, (res :: ress), fs', dbs'. split; [done|].
    split; [cbn [shell]; rewrite HX; cbn [h_files]; by rewrite Hs|]. split; [by econstructor|exact Hend].
  - exists [(io, w, args)], runs, [res], fs1, dbs1. split; [done|]. split; [cbn [shell]; by rewrite HX|].
    split; [econstructor; [exact Hl|constructor]|by right].
Qed.

(** C13: A running container's database is left alone.  Once [container start]
    has succeeded, every later process refuses every command on the database of
    that container with exit code 1, and changes no file, whatever the rest of
    the metadata says: the last line of the metadata file holds the state. *)
Theorem started_database_is_refused {W} `{Os W} fuel fuel2 root io io2 name (h h' : host W) c r (w : W) :
  saves io -> io_load io2 = RdAll ->
  (forall meta, LoadMeta root io name h = Some (Done (Some meta), h) -> m_name meta = name) ->
  ContainerStart fuel root io name h = Some (Done tt, h') -> db_command c = true -> cmd_name c = name ->
  exists text, Dispatch fuel2 root None io2 true c (MkHost (h_files h') r w) =
    Some (Done (MkResult kExitError text), MkHost (h_files h') r w).
Proof.
  intros Hsv Hl Hn HX Hdb Hc. apply ContainerStart_records in HX as (V & meta & pid & HL & Hf); [|done].
  rewrite (Hn meta HL) in Hf. rewrite <- Hc in V, Hf.
  destruct (OpenDb_running root io2 (cmd_name c) (MkHost (h_files h') r w) (bytes_of (meta_text (with_run pid NEXUS_RUNNING meta))) V Hl)
    as (s & Hs & HO); [cbn [h_files]; rewrite Hf; apply lookup_insert_eq|rewrite text_of_bytes, parse_meta_state; [done|simpl; lia]|].
  rewrite (Dispatch_refused fuel2 root io2 c _ s Hdb HO). exists (message s). unfold MapStatus. by rewrite Hs.
Qed.

(** ** A few processes *)

Definition run_of (args : list string) : manager_io * sim * list string := (good_manager, boot [], args).
Definition lines : list (list string) :=
  [["table"; "create"; "shop"; "items"]; ["insert"; "shop"; "items"; "c0ffee"]; ["get"; "shop"; "items"; "3"; "0"];
   ["scan"; "store"; "items"]; ["update"; "shop"; "items"; "3"; "zero"; "00"]]%string.

Definition printed (r : option (list Result * files)) : list (Z * string) :=
  match r with Some (ress, _) => map (fun r => (exit_code r, output r)) ress | None => [] end.

(** What they print. *)
Example lines_printed :
  printed (shell 1 "data" (map run_of lines) ∅) =
  [(0, "created table shop.items"); (0, "inserted page=3 slot=0"); (0, "page=3 slot=0 len=3 hex=c0ffee");
   (4, "catalog: no such table"); (3, "invalid slot id: zero")]%string.
Proof. vm_compute. reflexivity. Qed.

Lemma nothing_held root : all_hold root ∅ (fun _ => []).
Proof. intros n _. unfold not_running. rewrite lookup_empty. split; [done|]. right. split; [by left|done]. Qed.

Lemma good_manager_works : manager_works good_manager.
Proof. split; [done|]. split; [done|]. split; [exact good_io_works|done]. Qed.

Lemma shell_refines_databases_witness : exists ran rest ress fs' dbs', map run_of lines = ran ++ rest /\
  shell 1 "data" ran ∅ = Some (ress, fs') /\ line_run (snd <$> ran) ress (fun _ => []) dbs' /\
  ((rest = [] /\ all_hold "data" fs' dbs') \/ exists n, IsValidName n = true /\ ~ db_small "data" fs' n).
Proof.
  apply (shell_refines_databases 1 "data" (map run_of lines) ∅ (fun _ => [])); [|exact (nothing_held "data")].
  repeat (constructor; [split; [exact good_manager_works|reflexivity]|]). constructor.
Defined.

(** A container made by one process and started by the next. *)
Definition started : host sim :=
  match ContainerStart 1 "data" good_manager "db1" (MkHost (h_files made) empty_registry (h_os made)) with
  | Some (_, h) => h
  | None => made
  end.

Lemma started_eq :
  ContainerStart 1 "data" good_manager "db1" (MkHost (h_files made) empty_registry (h_os made)) = Some (Done tt, started).
Proof. vm_compute. reflexivity. Qed.

Lemma started_database_is_refused_witness : exists text,
  Dispatch 1 "data" None good_manager true (MkCommand kDbInit "db1" "" [] 0 0 0 0 "") (MkHost (h_files started) empty_registry (boot [])) =
  Some (Done (MkResult kExitError text), MkHost (h_files started) empty_registry (boot [])).
Proof.
  apply (started_database_is_refused 1 1 "data" good_manager good_manager "db1" (MkHost (h_files made) empty_registry (h_os made)) started).
  - by split.
  - reflexivity.
  - intros meta HL. assert (match LoadMeta "data" good_manager "db1" (MkHost (h_files made) empty_registry (h_os made)) with
      | Some (Done (Some meta), _) => m_name meta | _ => ""%string end = "db1"%string) as Hm by (vm_compute; reflexivity).
    rewrite HL in Hm. exact Hm.
  - exact started_eq.
  - reflexivity.
  - reflexivity.
Defined.
