(* ===== verification/Engine.v ===== *)
(** * The database engine process

    [src/db/engine/db_engine.cpp]: the program that a container runs as its
    workload.  It opens the database of a directory, waits for a signal and
    closes it.  A run gives how the process ends, what it printed, and the files;
    a process that gets no signal is killed at last, without running anything of
    its own.  Whatever fails, the files keep the tables. *)

From stdpp Require Import gmap.
From S2P Require Import Prelude Bytes Common CStr Os Sim Cgroup Container PageStorage BufferPool BufferPoolSpec Wal WalSpec Recovery PageAccess.
From S2P Require Import HeapTable Catalog CatalogSpec QueryExecutor QueryExecutorSpec ReadOnly LoggedPool.
From S2P Require Import Database DatabaseOpen DatabaseCreate DatabaseSpec Manager ManagerSpec.

Local Open Scope Z_scope.

(** ** The program *)

Definition kExitOk : Z := 0.
Definition kExitUsage : Z := 2.
Definition kExitStorage : Z := 3.
Definition kExitPool : Z := 4.
Definition kExitShutdown : Z := 5.
Definition kMaxPoolFrames : Z := 2 ^ 20.

Fixpoint ParseCount_from (text : string) (value : Z) : option Z :=
  match text with
  | EmptyString => Some value
  | String c text =>
      if (code_of c <? 48) || (57 <? code_of c) then None else
      let value := u64 (u64 (value * 10) + (code_of c - 48)) in
      if kMaxPoolFrames <? value then None else ParseCount_from text value
  end.
Definition ParseCount (text : string) : option Z :=
  match text with EmptyString => None | _ => ParseCount_from text 0 end.

(** The arguments after the program's name; [None] is a usage error. *)
Fixpoint engine_args (args : list string) (data_dir : string) (pool_frames : Z) : option (string * Z) :=
  match args with
  | [] => Some (data_dir, pool_frames)
  | arg :: args =>
      if (arg =? "--data-dir")%string then
        match args with [] => None | dir :: args => engine_args args dir pool_frames end
      else if (arg =? "--buffer-pool")%string then
        match args with
        | [] => None
        | text :: args =>
            match ParseCount text with
            | Some frames => if frames =? 0 then None else engine_args args data_dir frames
            | None => None
            end
        end
      else None
  end.

(** The environment variable [NEXUSDB_DATA_DIR], when it is set. *)
Definition default_dir (env : option string) (data_dir : string) : string :=
  if (data_dir =? "")%string then match env with Some (String c s) => String c s | _ => "./nexusdb_data" end else data_dir.

Record engine_io := MkEngineIo { ei_dir : bool; ei_open : open_io; ei_reopen : bool }.

Inductive engine_end := Exit (code : Z) | Killed.

(** [Database::Close] and the end of the object. *)
Definition shut (reopen : bool) (d : Database) : Status * Database :=
  let '(s, d) := Database.Close reopen d in (s, destroy d).

Definition with_storage_ (st : storage) (d : Database) : Database := MkDatabase st (wal_ d) (pool_ d) (executor_ d) (catalog_root_ d).

Section Run.
Context (io : engine_io) (want : option string) (pid : Z) (stop : bool).

Definition ready_line (db_file : string) (pages pool_frames : Z) : string :=
  "db_engine: ready pid=" +:+ dec_signed pid +:+ " data=" +:+ c_str db_file +:+ " pages=" +:+ dec pages +:+ " pool=" +:+ dec pool_frames +:+ newline.
Definition shutdown_line : string := "db_engine: clean shutdown pid=" +:+ dec_signed pid +:+ newline.

(** The process with its database open; [stop] says that it gets a signal. *)
Definition engine_serve (db_file wal_file : string) (pool_frames : Z) (d : Database) (fs : files) : engine_end * string * files :=
  let on d := on_files db_file wal_file (storage_ d) (wal_ d) fs in
  let '(s, pages, st) := NumPages (storage_ d) in
  let d := with_storage_ st d in
  if negb (ok s) then let '(_, d) := shut (ei_reopen io) d in (Exit kExitStorage, ""%string, on d) else
  let ready := ready_line db_file pages pool_frames in
  if negb stop then (Killed, ready, on d) else
  let '(close_status, d) := shut (ei_reopen io) d in
  if negb (ok close_status) then (Exit kExitShutdown, ready, on d) else (Exit kExitOk, ready +:+ shutdown_line, on d).

Definition engine_main (env : option string) (args : list string) (fs : files) : option (engine_end * string * files) :=
  match engine_args args "" 64 with
  | None => Some (Exit kExitUsage, ""%string, fs)
  | Some (data_dir, pool_frames) =>
      let data_dir := default_dir env data_dir in
      if negb (ei_dir io) then Some (Exit kExitStorage, ""%string, fs) else
      let db_file := path_div data_dir "nexusdb.db" in
      let wal_file := path_div data_dir "nexusdb.wal" in
      '(r, fs) ← Database.Open (ei_open io) want db_file wal_file pool_frames true fs;
      Some match r with
      | Done d => engine_serve db_file wal_file pool_frames d fs
      | Failed s =>
          let pool_error := bool_decide (code s = kOutOfMemory) || bool_decide (code s = kBufferFull) in
          (Exit (if pool_error then kExitPool else kExitStorage), ""%string, fs)
      | Database.Exited c => (Exit c, ""%string, fs)
      end
  end.
End Run.

(** ** Closing a database that has nothing to flush *)

Definition log_empty (w : wal) : Prop := lg_disk (w_file w) = [] /\ lg_buf (w_file w) = [].

Lemma WalClose_empty w s w' : log_empty w -> Wal.Close w = (s, w') -> log_empty w'.
Proof.
  intros [Hd Hb]. unfold Wal.Close, Wal.Flush, lg_flush, lg_close, next_aio, log_empty. destruct (w_open w) eqn:Ho; cbn [negb]; [|intros [= <- <-]; by split].
  destruct w as [[disk buf good fut] path op nx du]. cbn in Hd, Hb, Ho |- *. subst. unfold Wal.with_log.
  destruct good; cbn; destruct fut as [|[k|k b] [|[k2|k2 b2] fut]]; cbn; intros [= <- <-]; cbn; rewrite ?take_0, ?take_nil; by split.
Qed.

Lemma Reset_empty reopen w s w' : log_empty w -> Reset reopen w = (s, w') -> log_empty w'.
Proof.
  intros [Hd Hb]. unfold Reset, lg_close, next_aio, log_empty. destruct (w_open w); cbn [negb]; [|intros [= <- <-]; by split].
  destruct w as [[disk buf good fut] path op nx du]. cbn in Hd, Hb |- *. subst.
  destruct reopen; cbn [negb]; [by intros [= <- <-]|]. destruct fut as [|[k|k b] fut]; cbn; intros [= <- <-]; cbn; rewrite ?take_0, ?take_nil; by split.
Qed.

(** The device is as it was. *)
Definition kept (st : storage) (d : Database) : Prop := st_bytes (storage_ d) = st_bytes st /\ log_empty (wal_ d).

Lemma destroy_kept st d :
  kept st d -> match pool_ d with Some bp => forall i, frame_clean i (bp_frames bp) | None => True end -> kept st (destroy d).
Proof.
  intros [Hs Hw] Hp. unfold destroy, kept. destruct (pool_ d) as [bp|].
  1: destruct (FlushAll_again bp (MkLogged (wal_ d) (storage_ d)) Hp) as (s & ->).
  all: cbn [lg_storage lg_wal storage_ wal_]; destruct (Close_file (storage_ d)) as (s1 & st1 & -> & Hb & _);
    destruct (Wal.Close (wal_ d)) as [s2 w2] eqn:EW; cbn [snd]; split; [congruence|by eapply WalClose_empty].
Qed.

Lemma shut_kept reopen bp d s d' :
  pool_ d = Some bp -> (forall i, frame_clean i (bp_frames bp)) -> log_empty (wal_ d) ->
  shut reopen d = (s, d') -> kept (storage_ d) d'.
Proof.
  intros Hp Hc Hw. unfold shut, Database.Close. destruct (st_open (storage_ d)); cbn [negb].
  2: { intros [= <- <-]. apply destroy_kept; [by split|]. by rewrite Hp. }
  rewrite Hp. destruct (FlushAll_again bp (MkLogged (wal_ d) (storage_ d)) Hc) as (s1 & HF). rewrite HF.
  destruct (ok s1); cbn [negb]; [|intros [= <- <-]; by apply destroy_kept; [split|]].
  rewrite HF. cbn [lg_wal lg_storage]. destruct (Reset reopen (wal_ d)) as [s2 w2] eqn:ER. pose proof (Reset_empty _ _ _ _ Hw ER) as Hw2.
  destruct (ok s2); cbn [negb]; [|intros [= <- <-]; by apply destroy_kept; [split|]].
  destruct (Wal.Close w2) as [s3 w3] eqn:EW. pose proof (WalClose_empty _ _ _ Hw2 EW) as Hw3.
  destruct (ok s3); cbn [negb]; [|intros [= <- <-]; by apply destroy_kept; [split|]].
  destruct (Close_file (storage_ d)) as (s4 & st4 & -> & Hb & _). intros [= <- <-]. by apply destroy_kept; [split|].
Qed.

Lemma pristine_clean sink bp : pristine sink bp -> forall i, frame_clean i (bp_frames bp).
Proof. intros [Hp _] i f Hf Hu. exact (Forall_lookup_1 _ _ _ _ Hp Hf). Qed.

(** ** Serving *)

Lemma engine_serve_keeps io pid stop db_file wal_file frames d m root fs :
  db_file <> wal_file -> serves d m -> db_files fs db_file wal_file (st_bytes (storage_ d)) [] [] root m ->
  exists e out fs', engine_serve io pid stop db_file wal_file frames d fs = (e, out, fs') /\
    db_files fs' db_file wal_file (st_bytes (storage_ d)) [] [] root m /\
    (forall p, p <> db_file -> p <> wal_file -> fs' !! p = fs !! p) /\
    (if stop then exists c, e = Exit c /\ (c = kExitOk \/ c = kExitStorage \/ c = kExitShutdown) else e = Killed \/ e = Exit kExitStorage).
Proof.
  intros Hne (c & bp & q & pages & tabs & hdr & S) F.
  assert (log_empty (wal_ d)) as Hw by (destruct (sv_log _ _ _ _ _ _ _ _ _ S) as (_ & _ & _ & ? & ? & _); by split).
  assert (forall d', kept (storage_ d) d' -> let fs' := on_files db_file wal_file (storage_ d') (wal_ d') fs in
    db_files fs' db_file wal_file (st_bytes (storage_ d)) [] [] root m /\ (forall p, p <> db_file -> p <> wal_file -> fs' !! p = fs !! p)) as Hk.
  { intros d' [Hb [Hd _]] fs'. split.
    - destruct F as [F1 F2 F3 F4 F5 F6 F7 F8 F9]. split; try assumption.
      + unfold fs', on_files. by rewrite lookup_insert_ne, lookup_insert_eq, Hb by congruence.
      + unfold fs', on_files. by rewrite lookup_insert_eq, Hd.
    - intros p H1 H2. unfold fs', on_files. by rewrite !lookup_insert_ne by congruence. }
  unfold engine_serve. destruct (NumPages_spec _ (sv_storage _ _ _ _ _ _ _ _ _ S)) as (s & n & st & -> & (Hq & _) & _).
  pose proof (pristine_clean _ _ (sv_pristine _ _ _ _ _ _ _ _ _ S)) as Hc.
  assert (forall reopen s' d', shut reopen (with_storage_ st d) = (s', d') -> kept (storage_ d) d') as Hsh.
  { intros reopen s' d' Hs. unfold kept. rewrite <- Hq. eapply (shut_kept reopen bp (with_storage_ st d)); [apply S|exact Hc|exact Hw|exact Hs]. }
  destruct (shut (ei_reopen io) (with_storage_ st d)) as [s' d'] eqn:E. specialize (Hsh _ _ _ E).
  destruct (ok s); cbn [negb]; [|by destruct (Hk d' Hsh); eexists _, _, _; split; [done|]; split_and!; destruct stop; eauto].
  destruct stop; cbn [negb].
  - destruct (ok s'); cbn [negb]; destruct (Hk d' Hsh); eexists _, _, _; (split; [done|]); split_and!; eauto.
  - destruct (Hk (with_storage_ st d)) as [? ?]; [by split|]. eexists _, _, _. split; [done|]. split_and!; eauto.
Qed.

Definition engine_works (io : engine_io) : Prop := ei_dir io = true /\ open_works (ei_open io) /\ ei_reopen io = true.

(** Where nothing fails the process ends as it is asked to. *)
Lemma engine_serve_works io pid stop db_file wal_file frames d m fs :
  engine_works io -> serves_well d m ->
  exists out fs', engine_serve io pid stop db_file wal_file frames d fs = (if stop then Exit kExitOk else Killed, out, fs').
Proof.
  intros (_ & _ & Hre) (c & bp & q & pages & tabs & hdr & S). unfold engine_serve.
  destruct (NumPages (storage_ d)) as [[s n] st] eqn:EN.
  assert (env_num_pages (MkLogged (wal_ d) (storage_ d)) = (s, n, MkLogged (wal_ d) st)) as HN.
  { unfold env_num_pages, logged_alloc. cbn [lg_storage]. unfold env_num_pages, storage_alloc. by rewrite EN. }
  destruct (owns_num _ _ _ _ _ _ _ _ (sv_owns _ _ _ _ _ _ _ _ _ S) HN) as [O Hs].
  destruct (ok s); [|unfold kBudget in Hs; lia]. cbn [negb]. destruct stop; cbn [negb]; [|by eexists _, _].
  unfold shut, with_storage_. rewrite Hre, (sv_pool _ _ _ _ _ _ _ _ _ S), (sv_executor _ _ _ _ _ _ _ _ _ S).
  destruct (Close_well _ _ _ _ q (catalog_root_ d) O) as (d' & HC & _); [unfold kBudget; lia|]. cbn [lg_storage lg_wal] in HC.
  rewrite HC, ok_StatusOk. cbn [negb]. by eexists _, _.
Qed.

(** ** Arguments and paths *)

Lemma ParseCount_from_max text v n : ParseCount_from text v = Some n -> 0 <= v <= kMaxPoolFrames -> 0 <= n <= kMaxPoolFrames.
Proof.
  revert v. induction text as [|c text IH]; intros v; cbn [ParseCount_from]; [by intros [= <-]|].
  destruct (_ || _); [done|]. destruct (kMaxPoolFrames <? _) eqn:E; [done|]. zb. intros Hp Hv. eapply IH; [exact Hp|].
  split; [|lia]. apply wrap_range. lia.
Qed.

Lemma engine_args_frames args dir0 n0 dir n :
  engine_args args dir0 n0 = Some (dir, n) -> 0 < n0 <= kMaxPoolFrames -> 0 < n <= kMaxPoolFrames.
Proof.
  remember (length args) as k eqn:Hk. revert args dir0 n0 Hk. induction k as [k IH] using lt_wf_ind. intros args dir0 n0 -> H Hn.
  destruct args as [|a args]; cbn [engine_args] in H; [by injection H as _ <-|]. destruct (a =? "--data-dir")%string.
  { destruct args as [|d args]; [done|]. eapply (IH (length args)); [simpl; lia|done|exact H|exact Hn]. }
  destruct (a =? "--buffer-pool")%string; [|done]. destruct args as [|t args]; [done|].
  destruct (ParseCount t) as [f|] eqn:E; [|done]. destruct (f =? 0) eqn:Ef; [done|]. zb.
  eapply (IH (length args)); [simpl; lia|done|exact H|]. unfold ParseCount in E. destruct t; [done|].
  apply ParseCount_from_max in E; [lia|unfold kMaxPoolFrames; lia].
Qed.

(** The two files of a directory. *)
Definition db_file (dir : string) : string := path_div dir "nexusdb.db".
Definition wal_file (dir : string) : string := path_div dir "nexusdb.wal".

Lemma engine_paths dir n : 0 < n <= kMaxPoolFrames -> args_ok (db_file dir) (wal_file dir) n.
Proof.
  intros Hn. unfold args_ok, db_file, wal_file, tmp_of. rewrite !path_div_name by done.
  split; [by destruct (dir_prefix dir)|]. split; [by destruct (dir_prefix dir)|].
  split; [by intros ?%append_cancel|]. split; [rewrite <- append_assoc; by intros ?%append_cancel|].
  unfold kMaxPoolFrames in Hn. split; [lia|]. transitivity (2 ^ 20); [lia|by vm_compute].
Qed.

(** ** What the engine promises *)

(** C16: The engine keeps the database it serves.  Run the program on a directory
    that holds a database, whatever fails of its calls on directories, files,
    storage and log as long as the log can be read, and whether it is asked to
    stop or killed while it waits: it ends with one of its exit codes, the files
    then hold the same tables, and no other file has changed.  Where nothing
    fails it exits with 0 once it is asked to stop, and not before. *)
Theorem engine_keeps_database io pid stop env args dir frames fs m :
  engine_args args "" 64 = Some (dir, frames) -> log_readable (ei_open io) ->
  holds_db fs (db_file (default_dir env dir)) (wal_file (default_dir env dir)) m ->
  exists e out fs', engine_main io None pid stop env args fs = Some (e, out, fs') /\
    holds_db fs' (db_file (default_dir env dir)) (wal_file (default_dir env dir)) m /\
    (forall p, p <> db_file (default_dir env dir) -> p <> wal_file (default_dir env dir) ->
       p <> tmp_of (db_file (default_dir env dir)) -> fs' !! p = fs !! p) /\
    match e with
    | Exit c => c = kExitOk \/ c = kExitStorage \/ c = kExitPool \/ c = kExitShutdown
    | Killed => stop = false
    end /\ (engine_works io -> e = if stop then Exit kExitOk else Killed).
Proof.
  intros Ha Hl Hh. unfold engine_main. rewrite Ha. fold (db_file (default_dir env dir)) (wal_file (default_dir env dir)).
  set (df := db_file _) in *. set (wf := wal_file _) in *.
  destruct (ei_dir io) eqn:Ed; cbn [negb].
  2: { eexists _, _, fs. split; [done|]. split; [done|]. split; [done|]. split; [tauto|]. intros (? & _). congruence. }
  destruct (engine_paths (default_dir env dir) frames) as (H1 & H2 & H3 & H4 & H5); [by eapply engine_args_frames|].
  destruct Hh as (bytes & rs & tail & root & F & H0).
  destruct (Open_existing (ei_open io) None df wf frames fs H1 H2 H3 H4 H5 bytes rs tail root m Hl F) as (r & fs1 & HO & Hoth & Hr).
  rewrite HO. cbn [mbind option_bind]. destruct r as [d|s|c]; [| |destruct Hr].
  - destruct Hr as (Hs & F1 & Hw).
    destruct (engine_serve_keeps io pid stop df wf frames d m root fs1 H3 Hs F1) as (e & out & fs2 & HE & F2 & Hoth2 & He).
    exists e, out, fs2. split; [by rewrite HE|]. split; [eexists _, [], [], root; split; [exact F2|apply not_elem_of_nil]|].
    split; [intros p ? ? ?; by rewrite Hoth2, Hoth|]. split; [destruct stop; [destruct He as (c & -> & ?)|destruct He as [->| ->]]; tauto|].
    intros Wk. destruct (engine_serve_works io pid stop df wf frames d m fs1 Wk) as (out' & fs3 & HE'); [apply Hw, Wk|]. congruence.
  - destruct Hr as (_ & Hn & Hk). eexists _, _, fs1. split; [done|]. split; [by apply Hk|]. split; [exact Hoth|].
    split; [destruct (_ || _); tauto|]. intros (_ & Wk & _). by destruct Hn.
Qed.

(** A path as the kernel resolves it: a run of slashes is one. *)
Fixpoint squeeze (p : string) : string :=
  match p with
  | String c (String d _ as r) => if (code_of c =? 47) && (code_of d =? 47) then squeeze r else String c (squeeze r)
  | _ => p
  end.
Definition same_file (p q : string) : Prop := squeeze p = squeeze q.

Lemma squeeze_slash r t : ends_in_slash r = true -> squeeze (r +:+ "/" +:+ t) = squeeze (r +:+ t).
Proof.
  induction r as [|c r IH]; [done|]. destruct r as [|d r].
  - cbn [ends_in_slash]. intros Hc. apply Z.eqb_eq in Hc. assert (c = Ascii.ascii_of_nat 47) as ->; [|done].
    rewrite <- (Ascii.ascii_nat_embedding c). f_equal. unfold code_of in Hc. lia.
  - intros Hr. specialize (IH Hr). change (squeeze (String c (String d (r +:+ "/" +:+ t))) = squeeze (String c (String d (r +:+ t)))).
    change (squeeze (String d (r +:+ "/" +:+ t)) = squeeze (String d (r +:+ t))) in IH. cbn [squeeze]. cbn [squeeze] in IH. by rewrite IH.
Qed.

(** The directory a container gives its engine holds the files of the shell. *)
Lemma joined_files root name : root <> ""%string -> IsValidName name = true ->
  let dir := join_path root name in
  same_file (db_file dir) (db_path root name) /\ same_file (wal_file dir) (wal_path root name) /\
  (ends_in_slash root = false -> db_file dir = db_path root name /\ wal_file dir = wal_path root name).
Proof.
  intros Hr V dir. destruct (valid_name_chars _ V) as (Hx & Hn & _).
  assert (forall f, no_slash f = true -> path_div dir f = root +:+ "/" +:+ name +:+ "/" +:+ f) as Hd.
  { intros f Hf. unfold dir, join_path. rewrite append_assoc. rewrite path_div_under by done. by rewrite <- append_assoc. }
  assert (forall f, no_slash f = true -> path_div (DbDir root name) f = dir_prefix root +:+ name +:+ "/" +:+ f) as Hs.
  { intros f Hf. unfold DbDir. rewrite (path_div_name root name) by done. by apply path_div_under. }
  unfold same_file, db_file, wal_file, db_path, wal_path. rewrite !Hd, !Hs by done. unfold dir_prefix.
  apply String.eqb_neq in Hr. rewrite Hr. cbn [orb]. destruct (ends_in_slash root) eqn:Hend.
  - split; [by apply squeeze_slash|]. split; [by apply squeeze_slash|done].
  - by rewrite <- !append_assoc.
Qed.

(** C37: The engine serves the shell's database.  Let the environment name any
    data root, an empty one, or none.  A container of a valid name with an engine
    either refuses to start it, because the directory of its database does not
    fit 256 bytes, or runs that engine in the same working directory with
    arguments that make it open, whatever [NEXUSDB_DATA_DIR] says, the two files
    that a shell with that environment opens for the name: their paths are equal,
    except that a data root that ends in a slash leaves a doubled slash in the
    engine's, which names the same file. *)
Theorem engine_serves_shell_database {W} `{Os W} c root_env env (w w1 : W) :
  IsValidName (c_name c) = true -> c_db_engine c <> ""%string -> os_getenv NEXUS_DATA_ROOT_ENV w = (root_env, w1) ->
  let root := Manager root_env "" in
  NEXUS_PATH_MAX <= strlen root + 1 + strlen (c_name c) /\ workload_spec c NEXUS_PATH_MAX 4 w = Some (None, w1) \/
  exists spec args dir, workload_spec c NEXUS_PATH_MAX 4 w = Some (Some spec, w1) /\
    Process.path spec = Some (c_db_engine c) /\ Process.argv spec = Some (c_db_engine c :: args) /\ Process.cwd spec = None /\
    engine_args args "" 64 = Some (dir, 64) /\
    same_file (db_file (default_dir env dir)) (db_path root (c_name c)) /\
    same_file (wal_file (default_dir env dir)) (wal_path root (c_name c)) /\
    (ends_in_slash root = false ->
       db_file (default_dir env dir) = db_path root (c_name c) /\ wal_file (default_dir env dir) = wal_path root (c_name c)).
Proof.
  intros V He Hg root. unfold workload_spec. apply String.eqb_neq in He as ->. unfold mbind, M_bind, Os.call. rewrite Hg.
  assert (root <> ""%string) as Hr by (by destruct root_env as [[|ch r]|]).
  replace (match root_env with Some (String ch s) => String ch s | _ => NEXUS_DATA_ROOT_DEFAULT end) with root
    by (by destruct root_env as [[|ch r]|]).
  unfold snprintf. destruct (_ <=? _) eqn:El; zb.
  - left. split; [|done]. unfold join_path in El. rewrite !strlen_append in El. change (strlen "/") with 1 in El. lia.
  - right. cbn [Z.ltb Z.compare Pos.compare]. rewrite truncate_fits by done. eexists _, _, _. split; [done|]. split; [done|].
    split; [done|]. split; [done|]. split; [reflexivity|].
    assert (default_dir env (join_path root (c_name c)) = join_path root (c_name c)) as ->.
    { unfold default_dir, join_path. by destruct root. }
    by apply joined_files.
Qed.

(** ** The theorems on a small database *)

Definition demo_dir : files :=
  <["d/nexusdb.db" := default [] (snd demo_opened !! "db")]> (<["d/nexusdb.wal" := default [] (snd demo_opened !! "wal")]> ∅).

Lemma demo_dir_holds : holds_db demo_dir (db_file "d") (wal_file "d") [].
Proof.
  destruct demo_created as [_ (bytes & rs & tail & root & F & H0)]. exists bytes, rs, tail, root. split; [|exact H0].
  change (db_file "d") with "d/nexusdb.db"%string. change (wal_file "d") with "d/nexusdb.wal"%string.
  destruct F as [F1 F2 F3 F4 F5 F6 F7 F8 F9]. split; [|exact F2|exact F3| |exact F5|exact F6|exact F7|exact F8|exact F9].
  - unfold demo_dir. rewrite lookup_insert_eq, F1. reflexivity.
  - unfold demo_dir. rewrite lookup_insert_ne by discriminate. rewrite lookup_insert_eq. exact F4.
Qed.

Lemma engine_keeps_database_witness : exists out fs',
  engine_main (MkEngineIo true good_io true) None 7 true None ["--data-dir"; "d"]%string demo_dir = Some (Exit kExitOk, out, fs') /\
  holds_db fs' (db_file "d") (wal_file "d") [].
Proof.
  destruct (engine_keeps_database (MkEngineIo true good_io true) 7 true None ["--data-dir"; "d"]%string "d" 64 demo_dir []
    eq_refl good_io_readable demo_dir_holds) as (e & out & fs' & HE & Hh & _ & _ & Hw).
  rewrite (Hw (conj eq_refl (conj good_io_works eq_refl))) in HE. exists out, fs'. split; [exact HE|exact Hh].
Defined.

Definition demo_container : nexus_container :=
  MkContainer "shop" "nx-000001" NEXUS_CREATED (-1) 1048576 50 "/cg/shop" "/bin/db_engine" 0 0 0 0 0 0 "".

(** Machines whose environment names the data root, or does not. *)
Definition rooted (env : gmap string string) : sim :=
  let w := boot [] in
  MkSim (k_use w) (k_script w) (k_fs w) (k_writer w) (k_alive w) (k_zombie w) (k_stubborn w) env [].

Definition shop_engine (files : string * string) (w : sim) : Prop :=
  exists spec args dir, workload_spec demo_container NEXUS_PATH_MAX 4 w = Some (Some spec, w) /\
    Process.argv spec = Some ("/bin/db_engine"%string :: args) /\ engine_args args "" 64 = Some (dir, 64) /\
    (db_file (default_dir None dir), wal_file (default_dir None dir)) = files.

Lemma engine_serves_shell_database_witness :
  shop_engine ("data/shop/nexusdb.db", "data/shop/nexusdb.wal")%string (rooted {[NEXUS_DATA_ROOT_ENV := "data"%string]}) /\
  shop_engine ("nexusdb_data/shop/nexusdb.db", "nexusdb_data/shop/nexusdb.wal")%string (rooted ∅).
Proof.
  split.
  - destruct (engine_serves_shell_database demo_container (Some "data"%string) None (rooted {[NEXUS_DATA_ROOT_ENV := "data"%string]}) _
      eq_refl ltac:(discriminate) eq_refl) as [[Hl _]|(spec & args & dir & HS & _ & Ha & _ & Hd & _ & _ & Hf)]; [exfalso; by vm_compute in Hl|].
    exists spec, args, dir. split; [exact HS|]. split; [exact Ha|]. split; [exact Hd|]. destruct (Hf eq_refl) as [-> ->]. reflexivity.
  - destruct (engine_serves_shell_database demo_container None None (rooted ∅) _
      eq_refl ltac:(discriminate) eq_refl) as [[Hl _]|(spec & args & dir & HS & _ & Ha & _ & Hd & _ & _ & Hf)]; [exfalso; by vm_compute in Hl|].
    exists spec, args, dir. split; [exact HS|]. split; [exact Ha|]. split; [exact Hd|]. destruct (Hf eq_refl) as [-> ->]. reflexivity.
Defined.
